(* ===== verification/_CoqProject ===== *)
-Q . S2P
Prelude.v
CppStd.v
Rid.v
Interfaces.v
LruReplacer.v
ExtendibleHash.v
DiskManager.v
BufferPool.v
HeaderPage.v
TablePage.v
BPlusTreePage.v
LeafPage.v
InternalPage.v
LockManager.v
RWMutex.v
LogManager.v
PagePool.v
TableHeap.v
TransactionManager.v
TableRows.v
SoleTransaction.v
StorageEngine.v
SqlValue.v
TypeCast.v
TypeCompare.v
TypeArith.v
TypeSerialize.v
SqlTuple.v
VtabSchema.v
VtabQuery.v
VtabConnect.v
TreeNodes.v
BPlusTree.v
TreeModel.v
TreeSteps.v
TreeInsert.v
TreeSearch.v
TreeIndex.v
TreeSplit.v
TreeHeight.v
TreeScan.v
TreeMoves.v
TreeShift.v
TreeBalance.v
TreeShrink.v
TreeRepair.v
TreeRemove.v
TreeRefine.v
TreeTheorems.v
NodeBytes.v
NodeShape.v
TreePool.v
TreeFits.v
TreeTraces.v
SharedPool.v
BPlusTreeIndex.v
VirtualTable.v
