(* ===== verification/Prelude.v ===== *)
(** * QCDB: a verification library for the storage engine

    QCDB is a disk-oriented storage engine in C++ behind SQLite's virtual tables.  The
    development models its classes as executable definitions and proves what they
    promise.  All source paths are under [src/src/].

    ** Parts and interaction

    The disk manager reads and writes pages of 512 bytes in a file.  The buffer pool keeps
    some of them in frames: an extendible hash table finds the frame of a page, an LRU
    replacer chooses the victim.  On the pool stand the table heap (a list of slotted
    pages), the header page (names to root page ids) and the B+ tree index.  The lock
    manager and the transaction manager serve the heap; tuples, schemas and SQL values
    give meaning to the bytes.  The storage engine makes one of each; a virtual table joins
    a heap and an index, and its callbacks are what SQLite calls.

    ** Files

    - [Prelude]: results and faults of a C++ call, machine integers, bytes, arrays with
      bounds, the tactics and hints; [CppStd]: what the source uses of the C++ library
      (strings and numbers, doubles as binary64); [Interfaces]: the classes that state
      what a component promises to another: [Replacer], [HashTable] and the disk to the
      pool; [LockGrants] to the heap; [Heap], [Index] and [Transactions], with their laws,
      to the virtual table.
    - [LruReplacer] (buffer/lru_replacer.cpp), [ExtendibleHash] (hash/extendible_hash.cpp),
      [DiskManager] (disk/disk_manager.cpp), [BufferPool] (buffer/buffer_pool_manager.cpp,
      against the interfaces), [PagePool] (the pool as its clients see it),
      [LogManager] (logging/log_manager.cpp, include/logging/log_record.h).
    - [Rid] (include/common/rid.h), [HeaderPage], [TablePage] (page/), [TableHeap]
      (table/table_heap.cpp, table/table_iterator.cpp).
    - [LockManager] (concurrency/lock_manager.cpp: every call is split at its wait, the
      interleavings are a step relation), [RWMutex] (include/common/rwmutex.h, in the same
      way), [TransactionManager] (concurrency/transaction_manager.cpp).
    - [SqlValue], [TypeCast], [TypeCompare], [TypeArith], [TypeSerialize] (type/),
      [SqlTuple] (catalog/, table/tuple.cpp, include/index/generic_key.h).
    - [BPlusTreePage], [LeafPage], [InternalPage] (page/b_plus_tree_*.cpp: one page),
      [TreeNodes] (the moves between pages, on a store of typed pages), [BPlusTree]
      (index/b_plus_tree.cpp, index/index_iterator.cpp).  The proofs about the tree:
      [TreeModel] (abstract trees, their tokens in order, contexts with a hole),
      [TreeSteps] (what each primitive does to the state), [TreeInsert]
      (InsertIntoParent), [TreeSearch] (the invariant, descents, GetValue), [TreeIndex]
      and [TreeSplit] (an insertion in a leaf), [TreeHeight], [TreeScan] (the iterator),
      [TreeMoves] and [TreeShift] (the moves between siblings, on pages), [TreeBalance]
      (merges and rotations, on trees), [TreeShrink] and [TreeRepair] (the repair of an
      underfull page up to the root), [TreeRemove] (Remove), [TreeRefine] (Insert and
      sequences of calls), [TreeTheorems] (the properties).
    - The tree on the pool: [NodeBytes] (the layout of a node in the bytes of its page, and
      the casts), [NodeShape] (the operations of a page keep its integers in range),
      [TreePool] (a run as the calls it makes to the pool, and the pool that holds the
      nodes), [TreeFits] (every computation of the tree is such a run, on nodes that fit
      their pages, and leaves nodes that fit), [TreeTraces] (the pages it makes, and the
      pool that serves it), [SharedPool] (an index and a heap on one pool).
    - Under SQLite (vtable/virtual_table.cpp): [VtabSchema] (the declarations of tables and
      indexes), [VtabQuery] (rows, columns, the choice of a plan), [StorageEngine] (the
      engine and the initialisation of the module), [VtabConnect] (the creation, connection
      and disconnection of a table), [VirtualTable] (the table and its cursor).  What they
      stand on, as instances of the interfaces: [BPlusTreeIndex] (index/b_plus_tree_index.cpp over the
      tree, the keys being tuples), [TableRows] (the heap as a map of rows),
      [SoleTransaction] (the locks of the only transaction).

    ** Correspondence

    A class is a [Record] with the names of its members; a method is a definition with
    its name, from the object's state to a [result] of the value and the new state.  A
    call that stops is [Fail] of its cause: a failed assertion (the build defines no
    NDEBUG), an access out of a buffer, an exception, an operation that C++ leaves
    undefined.  Integers are [Z], wrapped to their width where the source computes
    ([wrap32]); a page is a list of 512 bytes.  The tree is written on a store of typed
    pages, which [NodeBytes] lays out in bytes and [TreePool] keeps in the pool.  Pointers
    shared between objects are indices in a heap.

    ** Theorems

    - Refinement: the LRU list, the hash table (a finite map), the disk (pages), the pool
      (a store of pages with pins, whatever the replacer evicts), the header page, the
      slotted page and the heap (slots), the B+ tree (a sorted list: sequences of Insert,
      Remove and GetValue, the iterator from the first entry or from a key), the index (a
      map from key tuples to records).  The B+ tree on the byte pages of the pool: its calls
      keep to the protocol of the pool and get the answers the typed pages gave, every page
      it reads or writes is the layout of a node that fits, and an index and a heap on one
      pool leave each other's pages alone.
    - The virtual table: every sequence of insertions, deletions and updates keeps the
      entries of the index equal to the keys of the rows, a lookup finds the row with the
      key, and a scan gives every row once; a table that is created is found again when it
      is connected to; the declarations are parsed to the columns they say; the columns
      given back are those of the row; a plan by index is chosen when the query fixes all
      its columns.
    - Concurrency: mutual exclusion of the lock manager as an invariant of every
      reachable state, absence of deadlock under wait-die, and that its calls are total;
      exclusion of the reader-writer lock, and that its calls end under every schedule.
    - Types: arithmetic exact or out of range, casts exact or refused, comparison and
      serialisation, tuples and index keys.
    - Errors: what the source does wrong, as theorems at the faulting inputs (the manifest
      lists the findings): the log is never written, a fresh database cannot be opened, the
      commit of a deletion faults, and no page is saved that was not evicted.

    ** Bounds and fuel

    A loop whose recursion is not structural takes fuel, and [Fail NoFuel] is distinct from
    every result of the source; each theorem proves that the stated fuel is enough: the
    depth of the tree for a descent ([TreeHeight] bounds it by the logarithm of the
    entries), the length of the chain for the heap, the doublings of a directory for the
    hash table, whose theorem asks for keys that differ in 30 bits of their hashes.  The
    tree theorems ask for [3 * k + 5] frames for an insertion and [4 * k + 5] for a removal
    where there are fewer than [2 ^ k] entries: the pins of a split, or of a page and its
    siblings, at every level.  Page ids of the tree's store are unbounded; the disk manager's
    are machine integers, so the theorems on the pool bound the pages a run makes: at most
    the fuel and one more for each insertion.  The laws of [Heap] and [Index] count the
    insertions that still fit ([n]): page ids of the file and frames for the heap, entries
    below [2 ^ k] for the index.

    ** Not modelled

    SQLite itself and its shell; page latches and the mutexes of the single-threaded
    components; printing.  The computations of the tree run on typed nodes, not on bytes:
    [TreePool] gives the calls and the bytes of a run, and [TreeFits] with [NodeBytes] that
    the casts of those bytes are the nodes, where the keys and the values inserted are in
    the range of their members.  The index of a virtual table has a pool of its own:
    [SharedPool] joins a heap and a tree below the tables.  The theorems of the tables leave
    out NULL in key columns ([IntKey] holds integers; what NULL does to the order is a theorem of
    [SqlTuple]) and updates that change the length of a row after a deletion, where the
    page may be corrupted ([TablePage]). *)

From stdpp Require Import prelude gmap list strings.
From Stdlib Require Import ZArith Lia.

Local Open Scope Z_scope.

(** ** Outcomes of a C++ function *)

(** The ways a call can stop without returning: a failed [assert], an access
    outside an allocated buffer, a thread that blocks for ever or until another
    thread runs, an exception, an operation to which C++ gives no result (an
    indeterminate value read, a conversion out of range, a null object called),
    and the bound of a loop of the model reached. *)
Inductive fault :=
| AssertFail
| MemFault
| Blocked
| Throw (what : string)
| Undefined
| NoFuel.

Inductive result (A : Type) :=
| Ok (a : A)
| Fail (e : fault).
Arguments Ok {A} _.
Arguments Fail {A} _.

Global Instance fault_eq_dec : EqDecision fault.
Proof. solve_decision. Defined.

Global Instance result_eq_dec {A} `{EqDecision A} : EqDecision (result A).
Proof. solve_decision. Defined.

Definition result_bind {A B} (m : result A) (f : A -> result B) : result B :=
  match m with
  | Ok a => f a
  | Fail e => Fail e
  end.

(** [assert(b)] of the source, compiled in (the build files define no [NDEBUG]). *)
Definition assert_ (b : bool) : result unit :=
  if b then Ok tt else Fail AssertFail.

Definition is_ok {A} (m : result A) : bool :=
  match m with Ok _ => true | Fail _ => false end.

Definition from_option_r {A} (e : fault) (o : option A) : result A :=
  match o with Some a => Ok a | None => Fail e end.

Declare Scope qcdb_scope.
Delimit Scope qcdb_scope with qcdb.

Notation "'let*' x ':=' m 'in' k" := (result_bind m (fun x => k))
  (at level 10, x pattern, m at level 99, k at level 200) : qcdb_scope.
Notation "'assert!' b ';;' k" := (result_bind (assert_ b) (fun _ => k))
  (at level 10, b at level 99, k at level 200) : qcdb_scope.

Open Scope qcdb_scope.

(** ** Machine integers *)

(** Two's complement wrap-around to [w] bits, signed and unsigned. *)
Definition uwrap (w z : Z) : Z := z mod 2 ^ w.
Definition swrap (w z : Z) : Z := (z + 2 ^ (w - 1)) mod 2 ^ w - 2 ^ (w - 1).
Definition in_sint (w z : Z) : Prop := - 2 ^ (w - 1) <= z < 2 ^ (w - 1).
Definition in_sint_b (w z : Z) : bool :=
  (- 2 ^ (w - 1) <=? z) && (z <? 2 ^ (w - 1)).

Global Instance in_sint_dec w z : Decision (in_sint w z).
Proof. unfold in_sint. apply _. Defined.

Abbreviation int32 := (in_sint 32).
Abbreviation wrap32 := (swrap 32).

(** ** Buffers *)

(** A buffer is the list of its cells; [memread]/[memwrite]/[memmove] fail when
    they touch a cell outside it.  A negative length is a huge [size_t]. *)
(** The bytes of a page or of a log buffer. *)
Abbreviation Buf := (list Z).

Definition slice {A} (off n : Z) (buf : list A) : list A :=
  take (Z.to_nat n) (drop (Z.to_nat off) buf).

Definition splice {A} (off : Z) (bs buf : list A) : list A :=
  take (Z.to_nat off) buf ++ bs ++ drop (Z.to_nat off + length bs) buf.

Definition in_range {A} (buf : list A) (off n : Z) : bool :=
  (0 <=? off) && (0 <=? n) && (off + n <=? Z.of_nat (length buf)).

Definition memread {A} (buf : list A) (off n : Z) : result (list A) :=
  if in_range buf off n then Ok (slice off n buf) else Fail MemFault.

Definition memwrite {A} (buf : list A) (off : Z) (bs : list A) : result (list A) :=
  if in_range buf off (Z.of_nat (length bs)) then Ok (splice off bs buf)
  else Fail MemFault.

Definition memmove {A} (buf : list A) (dst src n : Z) : result (list A) :=
  let* bs := memread buf src n in memwrite buf dst bs.

(** ** Little-endian integers in a byte buffer *)

Fixpoint le_encode (n : nat) (z : Z) : list Z :=
  match n with
  | O => []
  | S m => z mod 256 :: le_encode m (z / 256)
  end.

Fixpoint le_decode (bs : list Z) : Z :=
  match bs with
  | [] => 0
  | b :: t => b + 256 * le_decode t
  end.

Definition is_byte (b : Z) : Prop := 0 <= b < 256.

(** [*reinterpret_cast<int32_t *>(data + off)] and [memcpy(data + off, &v, 4)]. *)
Definition i32_at (buf : list Z) (off : Z) : Z :=
  wrap32 (le_decode (slice off 4 buf)).

Definition read_i32 (buf : list Z) (off : Z) : result Z :=
  let* bs := memread buf off 4 in Ok (wrap32 (le_decode bs)).

Definition write_i32 (buf : list Z) (off v : Z) : result (list Z) :=
  memwrite buf off (le_encode 4 v).

(** Constants of src/src/include/common/config.h. *)
Definition INVALID_PAGE_ID : Z := -1.
Definition INVALID_TXN_ID : Z := -1.
Definition INVALID_LSN : Z := -1.
Definition HEADER_PAGE_ID : Z := 1.
Definition PAGE_SIZE : Z := 512.
Definition BUCKET_SIZE : Z := 50.
Definition BUFFER_POOL_SIZE : Z := 10.
Definition LOG_BUFFER_SIZE : Z := (BUFFER_POOL_SIZE + 1) * PAGE_SIZE.

(** ** Tactics *)

(** Opens the binds of a hypothesis or of the goal one at a time. *)
Ltac inv_bind :=
  repeat match goal with
  | H : result_bind ?m _ = Ok _ |- _ =>
      let E := fresh "E" in destruct m eqn:E; simpl in H; [|discriminate H]
  | H : assert_ ?b = Ok _ |- _ =>
      let E := fresh "Hassert" in
      unfold assert_ in H; destruct b eqn:E; [clear H|discriminate H]
  | H : Ok _ = Ok _ |- _ => injection H as H; try subst
  | H : Fail _ = Ok _ |- _ => discriminate H
  | H : Ok _ = Fail _ |- _ => discriminate H
  end.

Ltac zify_bool :=
  repeat match goal with
  | H : andb _ _ = true |- _ => apply andb_true_iff in H; destruct H
  | H : (_ <=? _) = true |- _ => apply Z.leb_le in H
  | H : (_ <? _) = true |- _ => apply Z.ltb_lt in H
  | H : (_ =? _) = true |- _ => apply Z.eqb_eq in H
  | H : (_ <=? _) = false |- _ => apply Z.leb_gt in H
  | H : (_ <? _) = false |- _ => apply Z.ltb_ge in H
  | H : (_ =? _) = false |- _ => apply Z.eqb_neq in H
  | H : negb _ = true |- _ => apply negb_true_iff in H
  | H : negb _ = false |- _ => apply negb_false_iff in H
  end.

(** Proves a decidable closed proposition by evaluation. *)
Ltac by_computation := apply (bool_decide_unpack _); vm_compute; exact I.

Create HintDb qcdb.

(** ** Lemmas *)

Section ResultLemmas.
Context {A B : Type}.

Lemma bind_ok (a : A) (f : A -> result B) : result_bind (Ok a) f = f a.
Proof. reflexivity. Qed.

Lemma bind_ok_inv (m : result A) (f : A -> result B) b :
  result_bind m f = Ok b -> exists a, m = Ok a /\ f a = Ok b.
Proof. destruct m; simpl; [eauto | discriminate]. Qed.

Lemma assert_true (k : unit -> result B) : result_bind (assert_ true) k = k tt.
Proof. reflexivity. Qed.

Lemma assert_ok (b : bool) (k : unit -> result B) :
  b = true -> result_bind (assert_ b) k = k tt.
Proof. intros ->. reflexivity. Qed.
End ResultLemmas.

Lemma swrap_id w z : 0 < w -> in_sint w z -> swrap w z = z.
Proof.
  unfold in_sint, swrap. intros Hw Hz.
  assert (2 ^ w = 2 * 2 ^ (w - 1)).
  { rewrite <- Z.pow_succ_r by lia. f_equal. lia. }
  rewrite Z.mod_small; lia.
Qed.

Lemma swrap_range w z : 0 < w -> in_sint w (swrap w z).
Proof.
  intros Hw. unfold in_sint, swrap.
  assert (E : 2 ^ w = 2 * 2 ^ (w - 1)).
  { rewrite <- Z.pow_succ_r by lia. f_equal. lia. }
  pose proof (Z.mod_pos_bound (z + 2 ^ (w - 1)) (2 ^ w)).
  assert (0 < 2 ^ w) by (apply Z.pow_pos_nonneg; lia). lia.
Qed.

Lemma swrap_mod w z : 0 < w -> swrap w (z mod 2 ^ w) = swrap w z.
Proof.
  intros. unfold swrap. f_equal.
  rewrite <- (Z.add_mod_idemp_l z) by (apply Z.pow_nonzero; lia). reflexivity.
Qed.

Section BufferLemmas.
Context {A : Type}.
Implicit Types buf bs : list A.

Lemma in_range_spec buf off n :
  in_range buf off n = true <->
  0 <= off /\ 0 <= n /\ off + n <= Z.of_nat (length buf).
Proof. unfold in_range. rewrite !andb_true_iff, !Z.leb_le. tauto. Qed.

Lemma memread_ok buf off n :
  0 <= off -> 0 <= n -> off + n <= Z.of_nat (length buf) ->
  memread buf off n = Ok (slice off n buf).
Proof.
  intros. unfold memread. rewrite (proj2 (in_range_spec _ _ _)); auto.
Qed.

Lemma memwrite_ok buf off bs :
  0 <= off -> off + Z.of_nat (length bs) <= Z.of_nat (length buf) ->
  memwrite buf off bs = Ok (splice off bs buf).
Proof.
  intros. unfold memwrite. rewrite (proj2 (in_range_spec _ _ _)); auto with lia.
Qed.

Lemma memread_inv buf off n bs :
  memread buf off n = Ok bs ->
  0 <= off /\ 0 <= n /\ off + n <= Z.of_nat (length buf) /\ bs = slice off n buf.
Proof.
  unfold memread. destruct (in_range buf off n) eqn:E; [|discriminate].
  apply in_range_spec in E. intros [= <-]. tauto.
Qed.

Lemma memwrite_inv buf off bs buf' :
  memwrite buf off bs = Ok buf' ->
  0 <= off /\ off + Z.of_nat (length bs) <= Z.of_nat (length buf) /\
  buf' = splice off bs buf.
Proof.
  unfold memwrite. destruct (in_range buf off _) eqn:E; [|discriminate].
  apply in_range_spec in E. intros [= <-]. tauto.
Qed.

Lemma length_slice off n buf :
  0 <= off -> 0 <= n -> off + n <= Z.of_nat (length buf) ->
  length (slice off n buf) = Z.to_nat n.
Proof. intros. unfold slice. rewrite length_take, length_drop. lia. Qed.

Lemma length_splice off bs buf :
  0 <= off -> off + Z.of_nat (length bs) <= Z.of_nat (length buf) ->
  length (splice off bs buf) = length buf.
Proof.
  intros. unfold splice. rewrite !length_app, length_take, length_drop. lia.
Qed.

Lemma lookup_slice off n buf (i : nat) :
  0 <= off ->
  slice off n buf !! i =
  if decide (Z.of_nat i < n) then buf !! (Z.to_nat off + i)%nat else None.
Proof.
  intros. unfold slice. case_decide.
  - rewrite lookup_take_lt by lia. by rewrite lookup_drop.
  - by rewrite lookup_take_ge by lia.
Qed.

Lemma lookup_splice off bs buf (i : nat) :
  0 <= off -> off + Z.of_nat (length bs) <= Z.of_nat (length buf) ->
  splice off bs buf !! i =
  if decide (Z.of_nat i < off) then buf !! i
  else if decide (Z.of_nat i < off + Z.of_nat (length bs))
       then bs !! (i - Z.to_nat off)%nat else buf !! i.
Proof.
  intros. unfold splice. case_decide.
  - rewrite lookup_app_l by (rewrite length_take; lia).
    by rewrite lookup_take_lt by lia.
  - rewrite lookup_app_r by (rewrite length_take; lia).
    rewrite length_take, Nat.min_l by lia. case_decide.
    + by rewrite lookup_app_l by lia.
    + rewrite lookup_app_r by lia. rewrite lookup_drop. f_equal. lia.
Qed.

Lemma slice_splice_eq off n bs buf :
  0 <= off -> n = Z.of_nat (length bs) ->
  off + n <= Z.of_nat (length buf) ->
  slice off n (splice off bs buf) = bs.
Proof.
  intros ? -> ?. apply list_eq. intros i.
  rewrite lookup_slice, lookup_splice by lia.
  case_decide.
  - repeat case_decide; try lia. f_equal. lia.
  - symmetry. apply lookup_ge_None. lia.
Qed.

Lemma slice_splice_disj off n off' bs buf :
  0 <= off -> 0 <= off' -> off' + Z.of_nat (length bs) <= Z.of_nat (length buf) ->
  off + n <= off' \/ off' + Z.of_nat (length bs) <= off ->
  slice off n (splice off' bs buf) = slice off n buf.
Proof.
  intros. apply list_eq. intros i. rewrite !lookup_slice by lia.
  case_decide; [|done]. rewrite lookup_splice by lia.
  repeat case_decide; try done; lia.
Qed.

(** Reading back part of a block that has been moved. *)
Lemma slice_splice_sub off n off' n' src buf :
  0 <= off' -> 0 <= n -> 0 <= n' -> 0 <= src -> src + n' <= Z.of_nat (length buf) ->
  off' + n' <= Z.of_nat (length buf) ->
  off' <= off -> off + n <= off' + n' ->
  slice off n (splice off' (slice src n' buf) buf) = slice (src + (off - off')) n buf.
Proof.
  intros. apply list_eq. intros i.
  rewrite !lookup_slice by lia. case_decide; [|done].
  rewrite lookup_splice by (rewrite ?length_slice; lia).
  rewrite length_slice by lia.
  repeat case_decide; try lia.
  rewrite lookup_slice by lia. case_decide; [|lia]. f_equal. lia.
Qed.

Lemma Forall_slice (P : A -> Prop) off n buf :
  Forall P buf -> Forall P (slice off n buf).
Proof. intros. unfold slice. by apply Forall_take, Forall_drop. Qed.

Lemma Forall_splice (P : A -> Prop) off bs buf :
  Forall P buf -> Forall P bs -> Forall P (splice off bs buf).
Proof.
  intros. unfold splice. apply Forall_app. split; [by apply Forall_take|].
  apply Forall_app. split; [done|]. by apply Forall_drop.
Qed.
End BufferLemmas.

Lemma length_le_encode n z : length (le_encode n z) = n.
Proof. revert z. induction n; simpl; auto. Qed.

Lemma le_decode_encode n z : le_decode (le_encode n z) = z mod 2 ^ (8 * Z.of_nat n).
Proof.
  revert z. induction n as [|n IH]; intros z; simpl le_encode; simpl le_decode.
  - by rewrite Z.mod_1_r.
  - rewrite IH. replace (8 * Z.of_nat (S n)) with (8 + 8 * Z.of_nat n) by lia.
    rewrite Z.pow_add_r by lia. change (2 ^ 8) with 256.
    rewrite Z.rem_mul_r by lia. reflexivity.
Qed.

Lemma le_decode_range bs :
  Forall is_byte bs -> 0 <= le_decode bs < 2 ^ (8 * Z.of_nat (length bs)).
Proof.
  induction 1 as [|b t Hb Ht IH]; simpl le_decode; [simpl; lia|].
  replace (8 * Z.of_nat (length (b :: t))) with (8 + 8 * Z.of_nat (length t))
    by (simpl length; lia).
  rewrite Z.pow_add_r by lia. change (2 ^ 8) with 256.
  unfold is_byte in Hb. nia.
Qed.

Lemma le_encode_bytes n z : Forall is_byte (le_encode n z).
Proof.
  revert z. induction n; intros z; simpl; constructor; auto.
  unfold is_byte. apply Z.mod_pos_bound. lia.
Qed.

(** Decoding then encoding gives the same bytes back. *)
Lemma le_encode_decode bs :
  Forall is_byte bs -> le_encode (length bs) (le_decode bs) = bs.
Proof.
  induction 1 as [|b t Hb Ht IH]; simpl; [done|]. unfold is_byte in Hb.
  replace (b + 256 * le_decode t) with (le_decode t * 256 + b) by lia.
  rewrite Z.add_comm, Z.mod_add, Z.mod_small, Z.div_add, Z.div_small by lia.
  by rewrite Z.add_0_l, IH.
Qed.

Lemma read_i32_ok buf off :
  0 <= off -> off + 4 <= Z.of_nat (length buf) ->
  read_i32 buf off = Ok (i32_at buf off).
Proof. intros. unfold read_i32. by rewrite memread_ok by lia. Qed.

Lemma write_i32_ok buf off v :
  0 <= off -> off + 4 <= Z.of_nat (length buf) ->
  write_i32 buf off v = Ok (splice off (le_encode 4 v) buf).
Proof. intros. unfold write_i32. rewrite memwrite_ok; rewrite ?length_le_encode; auto. Qed.

Lemma i32_at_range buf off : int32 (i32_at buf off).
Proof. apply swrap_range. lia. Qed.

Lemma i32_at_splice_eq buf off v :
  0 <= off -> off + 4 <= Z.of_nat (length buf) -> int32 v ->
  i32_at (splice off (le_encode 4 v) buf) off = v.
Proof.
  intros. unfold i32_at. rewrite slice_splice_eq by (rewrite ?length_le_encode; lia).
  rewrite le_decode_encode. change (8 * Z.of_nat 4) with 32.
  rewrite swrap_mod by lia. apply swrap_id; [lia|done].
Qed.

Lemma i32_at_splice_ne buf off off' bs :
  0 <= off -> 0 <= off' -> off' + Z.of_nat (length bs) <= Z.of_nat (length buf) ->
  off + 4 <= off' \/ off' + Z.of_nat (length bs) <= off ->
  i32_at (splice off' bs buf) off = i32_at buf off.
Proof. intros. unfold i32_at. by rewrite slice_splice_disj by lia. Qed.

Lemma slice_split {A} off a b (buf : list A) :
  0 <= off -> 0 <= a -> 0 <= b ->
  slice off (a + b) buf = slice off a buf ++ slice (off + a) b buf.
Proof.
  intros. unfold slice. rewrite !Z2Nat.inj_add by lia.
  rewrite <- (take_drop (Z.to_nat a) (drop (Z.to_nat off) buf)) at 1.
  rewrite drop_drop. rewrite take_app.
  rewrite length_take, length_drop.
  destruct (decide (Z.to_nat a <= length buf - Z.to_nat off)%nat).
  - rewrite Nat.min_l by lia. rewrite take_take, Nat.min_r by lia.
    do 2 f_equal. lia.
  - rewrite take_take, Nat.min_r by lia. f_equal.
    rewrite !(drop_ge buf) by lia. by rewrite !take_nil.
Qed.

(** ** Frames: what a write leaves as it was

    [same_out p p' off n]: the two buffers have the same length and differ at most in
    the [n] cells from [off]. *)
Definition same_out {A} (p p' : list A) (off n : Z) : Prop :=
  length p' = length p /\
  forall o m, 0 <= o -> 0 <= m -> o + m <= off \/ off + n <= o -> slice o m p' = slice o m p.

Lemma memwrite_spec {A} (p : list A) off bs :
  0 <= off -> off + Z.of_nat (length bs) <= Z.of_nat (length p) ->
  exists p', memwrite p off bs = Ok p' /\ same_out p p' off (Z.of_nat (length bs)) /\
             slice off (Z.of_nat (length bs)) p' = bs.
Proof.
  intros. rewrite memwrite_ok by done. eexists. split; [done|]. split; [split|].
  - by apply length_splice.
  - intros. by apply slice_splice_disj.
  - by apply slice_splice_eq.
Qed.

Lemma write_i32_spec p off v :
  0 <= off -> off + 4 <= Z.of_nat (length p) -> int32 v ->
  exists p', write_i32 p off v = Ok p' /\ same_out p p' off 4 /\ i32_at p' off = v.
Proof.
  intros Ho Hl Hv. rewrite write_i32_ok by done. eexists. split; [done|]. split; [split|].
  - apply length_splice; rewrite ?length_le_encode; lia.
  - intros. apply slice_splice_disj; rewrite ?length_le_encode; lia.
  - by apply i32_at_splice_eq.
Qed.

Lemma memmove_spec {A} (p : list A) dst src n :
  0 <= dst -> 0 <= src -> 0 <= n -> dst + n <= Z.of_nat (length p) ->
  src + n <= Z.of_nat (length p) ->
  exists p', memmove p dst src n = Ok p' /\ same_out p p' dst n /\
    forall o m, dst <= o -> 0 <= m -> o + m <= dst + n ->
      slice o m p' = slice (src + (o - dst)) m p.
Proof.
  intros. unfold memmove. rewrite memread_ok, bind_ok by done.
  assert (length (slice src n p) = Z.to_nat n) by (by apply length_slice).
  rewrite memwrite_ok by lia. eexists. split; [done|]. split; [split|].
  - apply length_splice; lia.
  - intros. apply slice_splice_disj; lia.
  - intros. apply slice_splice_sub; lia.
Qed.

Lemma same_out_i32 p p' off n o :
  same_out p p' off n -> 0 <= o -> o + 4 <= off \/ off + n <= o -> i32_at p' o = i32_at p o.
Proof. intros [_ Hs] ? ?. unfold i32_at. by rewrite Hs by lia. Qed.

(** Follows the slices and integers of the goal back through the writes. *)
Ltac frames :=
  repeat match goal with
  | S : same_out _ ?p' _ _ |- context [slice _ _ ?p'] => rewrite (proj2 S) by lia
  | S : same_out _ ?p' _ _ |- context [i32_at ?p' _] =>
      rewrite (same_out_i32 _ _ _ _ _ S) by lia
  end.

(** In a list of pairs with distinct first components, the first component
    determines the second. *)
Lemma NoDup_fst_inj {A B} (l : list (A * B)) a b b' :
  NoDup l.*1 -> (a, b) ∈ l -> (a, b') ∈ l -> b = b'.
Proof.
  intros Hnd [i Hi]%list_elem_of_lookup_1 [j Hj]%list_elem_of_lookup_1.
  assert (i = j) as ->; [|congruence].
  eapply NoDup_lookup; [exact Hnd| |]; rewrite list_lookup_fmap.
  - by rewrite Hi.
  - by rewrite Hj.
Qed.

Lemma NoDup_snd_inj {A B} (l : list (A * B)) a a' b :
  NoDup l.*2 -> (a, b) ∈ l -> (a', b) ∈ l -> a = a'.
Proof.
  intros Hnd [i Hi]%list_elem_of_lookup_1 [j Hj]%list_elem_of_lookup_1.
  assert (i = j) as ->; [|congruence].
  eapply NoDup_lookup; [exact Hnd| |]; rewrite list_lookup_fmap.
  - by rewrite Hi.
  - by rewrite Hj.
Qed.

Lemma list_filter_all {A} (P : A -> Prop) `{!forall x, Decision (P x)} (l : list A) :
  (forall x, x ∈ l -> P x) -> filter P l = l.
Proof.
  induction l as [|x l IH]; intros Hl; [done|].
  rewrite filter_cons_True by (apply Hl; left). f_equal. apply IH.
  intros y Hy. apply Hl. by right.
Qed.

Lemma list_filter_iff_in {A} (P Q : A -> Prop) `{!forall x, Decision (P x)}
    `{!forall x, Decision (Q x)} (l : list A) :
  (forall x, x ∈ l -> P x <-> Q x) -> filter P l = filter Q l.
Proof.
  induction l as [|x l IH]; intros Hl; [done|].
  rewrite !filter_cons. rewrite IH by (intros y Hy; apply Hl; by right).
  destruct (Hl x) as [H1 H2]; [left|]. repeat case_decide; tauto || done.
Qed.

Lemma fmap_removelast {A B} (f : A -> B) (l : list A) :
  f <$> removelast l = removelast (f <$> l).
Proof.
  induction l as [|x [|y l] IH]; [done|done|].
  change (removelast (x :: y :: l)) with (x :: removelast (y :: l)).
  rewrite fmap_cons, IH. done.
Qed.

Lemma elem_of_fst {A B} (l : list (A * B)) a b : (a, b) ∈ l -> a ∈ l.*1.
Proof. intros. apply list_elem_of_fmap. by exists (a, b). Qed.

Lemma elem_of_snd {A B} (l : list (A * B)) a b : (a, b) ∈ l -> b ∈ l.*2.
Proof. intros. apply list_elem_of_fmap. by exists (a, b). Qed.

Create Rewrite HintDb qcdb_len.
#[export] Hint Rewrite @length_slice @length_splice length_le_encode : qcdb_len.
#[export] Hint Resolve i32_at_range le_encode_bytes : qcdb.
#[export] Hint Resolve Forall_slice Forall_splice elem_of_fst elem_of_snd : qcdb.
