(* ===== verification/CppStd.v ===== *)
(** * The parts of the C++ language and library the SQL types use

    Byte strings with [std::to_string], [std::stoi] and [std::stoll]
    (Module [Text]), and [double] as the binary64 numbers of the Standard
    Library's [SpecFloat] with their conversions, printing, parsing and memory
    image (Module [Double]).  Nothing here is translated from the repository. *)

From stdpp Require Import prelude list strings.
From Stdlib Require Import ZArith Lia SpecFloat.
From S2P Require Import Prelude.

Local Open Scope Z_scope.

Module Text.

(** A [std::string] is the list of its bytes. *)
Definition lit (s : string) : Buf :=
  map (fun c => Z.of_N (Ascii.N_of_ascii c)) (String.list_ascii_of_string s).

(** The decimal digits of a non-negative number; twenty are enough for 64 bits. *)
Fixpoint digits (fuel : nat) (n : Z) (acc : Buf) : Buf :=
  match fuel with
  | O => acc
  | S f => if n <? 10 then (48 + n) :: acc
           else digits f (n / 10) ((48 + n mod 10) :: acc)
  end.

(** [std::to_string] of an [int] or a [long]. *)
Definition to_string (z : Z) : Buf :=
  if z <? 0 then 45 :: digits 20 (- z) [] else digits 20 z [].

Definition isspace (c : Z) : bool := (c =? 32) || ((9 <=? c) && (c <=? 13)).
Definition isdigit (c : Z) : bool := (48 <=? c) && (c <=? 57).
Definition tolower (c : Z) : Z := if (65 <=? c) && (c <=? 90) then c + 32 else c.

Fixpoint skip_space (s : Buf) : Buf :=
  match s with
  | c :: r => if isspace c then skip_space r else s
  | [] => []
  end.

(** An optional sign: whether it is a minus, and what follows it. *)
Definition sign (s : Buf) : bool * Buf :=
  match s with
  | c :: r => if c =? 45 then (true, r) else if c =? 43 then (false, r) else (false, s)
  | [] => (false, [])
  end.

(** The number the longest prefix of digits writes, after [acc]. *)
Fixpoint number (acc : Z) (s : Buf) : Z :=
  match s with
  | c :: r => if isdigit c then number (10 * acc + (c - 48)) r else acc
  | [] => acc
  end.

Definition starts_with_digit (s : Buf) : bool :=
  match s with c :: _ => isdigit c | [] => false end.

(** [std::stoi] ([w] = 32) and [std::stoll] ([w] = 64), in base ten. *)
Definition sto (w : Z) (s : Buf) : result Z :=
  let (neg, r) := sign (skip_space s) in
  if negb (starts_with_digit r) then Fail (Throw "std::invalid_argument")
  else
    let z := if neg then - number 0 r else number 0 r in
    if in_sint_b w z then Ok z else Fail (Throw "std::out_of_range").

Definition stoi : Buf -> result Z := sto 32.
Definition stoll : Buf -> result Z := sto 64.

(** *** Reading back what was printed *)

Lemma isdigit_spec d : 0 <= d < 10 -> isdigit (48 + d) = true.
Proof. intros. unfold isdigit. apply andb_true_iff. rewrite !Z.leb_le. lia. Qed.

Lemma digits_step f n s :
  10 <= n -> digits (S f) n s = digits f (n / 10) ((48 + n mod 10) :: s).
Proof. intros. cbn [digits]. by rewrite (proj2 (Z.ltb_ge n 10)) by lia. Qed.

Lemma number_digits f n a :
  0 <= n < 10 ^ Z.of_nat (S f) ->
  exists k : nat, forall s, number a (digits (S f) n s) = number (a * 10 ^ Z.of_nat k + n) s.
Proof.
  revert n a. induction f as [|f IH]; intros n a Hn.
  - exists 1%nat. intros s. simpl digits. change (10 ^ Z.of_nat 1) with 10 in *.
    destruct (n <? 10) eqn:E; zify_bool; [|lia]. cbn [number].
    rewrite isdigit_spec by lia. f_equal. lia.
  - destruct (n <? 10) eqn:E; zify_bool.
    + exists 1%nat. intros s. cbn [digits]. rewrite (proj2 (Z.ltb_lt n 10)) by lia.
      cbn [number]. rewrite isdigit_spec by lia. f_equal. lia.
    + destruct (IH (n / 10) a) as [k Hk].
      { split; [apply Z.div_pos; lia|]. apply Z.div_lt_upper_bound; [lia|].
        rewrite <- Z.pow_succ_r by lia. replace (Z.succ _) with (Z.of_nat (S (S f))) by lia. lia. }
      exists (S k). intros s. rewrite digits_step by lia.
      rewrite Hk. cbn [number]. pose proof (Z.mod_pos_bound n 10).
      rewrite isdigit_spec by lia. f_equal.
      rewrite Nat2Z.inj_succ, Z.pow_succ_r by lia.
      pose proof (Z.div_mod n 10). lia.
Qed.

Lemma digits_head f n acc :
  0 <= n -> acc <> [] \/ f <> O ->
  (forall c r, acc = c :: r -> isdigit c = true) ->
  exists c r, digits f n acc = c :: r /\ isdigit c = true.
Proof.
  revert n acc. induction f as [|f IH]; intros n acc Hn Hne Hacc.
  - destruct acc as [|c r]; [destruct Hne; congruence|]. exists c, r. eauto.
  - cbn [digits]. destruct (n <? 10) eqn:E; zify_bool.
    + eexists _, _. split; [reflexivity|]. apply isdigit_spec. lia.
    + apply IH; [apply Z.div_pos; lia | by left |].
      intros c r [= <- _]. apply isdigit_spec. apply Z.mod_pos_bound. lia.
Qed.

Lemma digit_not_space c : isdigit c = true -> isspace c = false.
Proof.
  unfold isdigit, isspace. intros H. zify_bool. apply orb_false_iff.
  rewrite Z.eqb_neq, andb_false_iff, !Z.leb_gt. lia.
Qed.

Lemma digit_no_sign c r : isdigit c = true -> sign (c :: r) = (false, c :: r).
Proof.
  unfold isdigit, sign. intros H. zify_bool.
  rewrite (proj2 (Z.eqb_neq c 45)), (proj2 (Z.eqb_neq c 43)) by lia. reflexivity.
Qed.

Lemma digits_app f n acc s : digits f n acc ++ s = digits f n (acc ++ s).
Proof. revert n acc. induction f as [|f IH]; intros n acc; cbn [digits]; [done|]. destruct (n <? 10); [done|]. apply IH. Qed.

Lemma number_stops a s : starts_with_digit s = false -> number a s = a.
Proof. destruct s as [|c s]; [done|]. cbn. by intros ->. Qed.

(** The digits of a number, before a text that does not go on with a digit. *)
Lemma digits_read n s : 0 <= n < 10 ^ 20 -> starts_with_digit s = false ->
  number 0 (digits 20 n [] ++ s) = n /\
  exists c r, digits 20 n [] ++ s = c :: r /\ isdigit c = true.
Proof.
  intros Hn Hs. split.
  - destruct (number_digits 19 n 0) as [k Hk].
    { change (10 ^ Z.of_nat 20) with (10 ^ 20). lia. }
    rewrite digits_app. cbn [app]. by rewrite Hk, number_stops.
  - destruct (digits_head 20 n []) as (c & r & -> & Hc); [lia|by right|done|]. by exists c, (r ++ s).
Qed.

(** The decimal notation of a number reads back as that number, whatever follows. *)
Lemma sto_to_string_app w z s :
  in_sint w z -> -10 ^ 20 < z < 10 ^ 20 -> starts_with_digit s = false -> sto w (to_string z ++ s) = Ok z.
Proof.
  intros Hw Hz Hs. unfold sto, to_string.
  assert (Hb : in_sint_b w z = true).
  { unfold in_sint_b. unfold in_sint in Hw. apply andb_true_iff.
    rewrite Z.leb_le, Z.ltb_lt. lia. }
  destruct (z <? 0) eqn:E; zify_bool.
  - destruct (digits_read (- z) s) as (Hn & c & r & Ec & Hc); [lia|done|].
    cbn [app skip_space]. change (isspace 45) with false. cbn [sign].
    change (45 =? 45) with true. cbn iota. rewrite Ec in *. cbn [starts_with_digit].
    rewrite Hc. cbn [negb]. rewrite Hn, Z.opp_involutive, Hb. reflexivity.
  - destruct (digits_read z s) as (Hn & c & r & Ec & Hc); [lia|done|]. rewrite Ec in *.
    cbn [skip_space]. rewrite (digit_not_space c Hc), (digit_no_sign c r Hc).
    cbn [starts_with_digit]. rewrite Hc. cbn [negb]. rewrite Hn, Hb. reflexivity.
Qed.

Lemma sto_to_string w z :
  in_sint w z -> -10 ^ 20 < z < 10 ^ 20 -> sto w (to_string z) = Ok z.
Proof. intros. rewrite <- (app_nil_r (to_string z)). by apply sto_to_string_app. Qed.

Example text_examples :
  to_string (-128) = lit "-128" /\ stoi (lit " +12x") = Ok 12 /\
  stoi (lit "varlen_null") = Fail (Throw "std::invalid_argument") /\
  stoi (lit "2147483648") = Fail (Throw "std::out_of_range").
Proof. repeat split; vm_compute; reflexivity. Qed.

End Text.

Module Double.

(** ** [double]: binary64 *)

Definition prec : Z := 53.
Definition emax : Z := 1024.

Abbreviation double := spec_float.

Definition add : double -> double -> double := SFadd prec emax.
Definition sub : double -> double -> double := SFsub prec emax.
Definition mul : double -> double -> double := SFmul prec emax.
Definition div : double -> double -> double := SFdiv prec emax.
Definition sqrt : double -> double := SFsqrt prec emax.

(** The conversion of an integer, rounded to nearest even. *)
Definition of_Z (z : Z) : double := binary_normalize prec emax z 0 false.

Definition DBL_MAX : double := S754_finite false (2 ^ 53 - 1) 971.
Definition DBL_LOWEST : double := SFopp DBL_MAX.
(** [std::numeric_limits<float>::lowest()] as a [double]. *)
Definition FLT_LOWEST : double := SFopp (of_Z ((2 ^ 24 - 1) * 2 ^ 104)).

(** [std::trunc]. *)
Definition trunc (d : double) : double :=
  match d with
  | S754_finite s m e =>
      if 0 <=? e then d
      else binary_normalize prec emax (cond_Zopp s (Z.shiftr (Zpos m) (- e))) 0 s
  | _ => d
  end.

(** The conversion to a [w]-bit integer: truncation, undefined out of range. *)
Definition to_int (w : Z) (d : double) : result Z :=
  match d with
  | S754_zero _ => Ok 0
  | S754_finite s m e =>
      let z := cond_Zopp s (Z.shiftl (Zpos m) e) in
      if in_sint_b w z then Ok z else Fail Undefined
  | _ => Fail Undefined
  end.

(** [std::to_string]: the format "%f", six digits after the point, the exact
    value rounded half to even. *)
Definition round_half_even (n d : Z) : Z :=
  let q := n / d in
  let r := n mod d in
  if (2 * r <? d) || ((2 * r =? d) && Z.even q) then q else q + 1.

Fixpoint six_digits (k : nat) (n : Z) (acc : Buf) : Buf :=
  match k with
  | O => acc
  | S j => six_digits j (n / 10) ((48 + n mod 10) :: acc)
  end.

Definition to_string (d : double) : Buf :=
  match d with
  | S754_nan => Text.lit "nan"
  | S754_infinity s => (if s then [45] else []) ++ Text.lit "inf"
  | S754_zero s => (if s then [45] else []) ++ Text.lit "0.000000"
  | S754_finite s m e =>
      let n := if 0 <=? e then Z.shiftl (Zpos m) e * 1000000
               else round_half_even (Zpos m * 1000000) (2 ^ (- e)) in
      (if s then [45] else []) ++ Text.digits 310 (n / 1000000) [] ++ [46] ++
      six_digits 6 (n mod 1000000) []
  end.

(** The memory image: sign, exponent and fraction of the binary64 format. *)
Definition encode (d : double) : Z :=
  match d with
  | S754_zero s => Z.b2z s * 2 ^ 63
  | S754_infinity s => Z.b2z s * 2 ^ 63 + 2047 * 2 ^ 52
  | S754_nan => 2047 * 2 ^ 52 + 2 ^ 51
  | S754_finite s m e =>
      Z.b2z s * 2 ^ 63 +
      (if Zpos m <? 2 ^ 52 then Zpos m else (e + 1075) * 2 ^ 52 + (Zpos m - 2 ^ 52))
  end.

Definition decode (b : Z) : double :=
  let s := 2 ^ 63 <=? b in
  let ex := (b / 2 ^ 52) mod 2048 in
  let fr := b mod 2 ^ 52 in
  if ex =? 2047 then if fr =? 0 then S754_infinity s else S754_nan
  else if ex =? 0 then
    match fr with Zpos m => S754_finite s m (-1074) | _ => S754_zero s end
  else match fr + 2 ^ 52 with
       | Zpos m => S754_finite s m (ex - 1075)
       | _ => S754_nan
       end.

(** [std::stod]: a decimal or hexadecimal number, "inf", "infinity" or "nan",
    after spaces and a sign; what follows the longest match is ignored. *)
Definition hexdigit (c : Z) : option Z :=
  let c := Text.tolower c in
  if Text.isdigit c then Some (c - 48)
  else if (97 <=? c) && (c <=? 102) then Some (c - 87) else None.
Definition decdigit (c : Z) : option Z :=
  if Text.isdigit c then Some (c - 48) else None.

(** The digits of a mantissa: its value and the number of digits read. *)
Fixpoint mantissa (base : Z) (digit : Z -> option Z) (acc n : Z) (s : Buf) : Z * Z * Buf :=
  match s with
  | c :: r => match digit c with
              | Some d => mantissa base digit (acc * base + d) (n + 1) r
              | None => (acc, n, s)
              end
  | [] => (acc, n, [])
  end.

(** The exponent after the letter [mark], if one is there with a digit. *)
Definition exponent (mark : Z) (s : Buf) : Z :=
  match s with
  | c :: r =>
      if Text.tolower c =? mark then
        let (neg, r) := Text.sign r in
        if neg then - Text.number 0 r else Text.number 0 r
      else 0
  | [] => 0
  end.

(** [m * b ^ k] rounded to nearest even, with whether it is out of range: an
    overflow, or a subnormal or zero result that is not exact. *)
Definition scale (neg : bool) (m : positive) (b k : Z) : double * bool :=
  let p := Z.to_pos (b ^ Z.abs k) in
  let d := if 0 <=? k then binary_round prec emax neg (m * p) 0
           else let '(mz, ez, lz) := SFdiv_core_binary prec emax (Zpos m) 0 (Zpos p) 0 in
                binary_round_aux prec emax neg mz ez lz in
  (d, match d with
      | S754_finite _ m' e' =>
          (Zpos m' <? 2 ^ 52) && negb (Zpos m' * Zpos p =? Zpos m * 2 ^ (- e'))
      | _ => true
      end).

Fixpoint has_prefix (p s : Buf) : bool :=
  match p, s with
  | [], _ => true
  | a :: p, c :: s => (a =? Text.tolower c) && has_prefix p s
  | _ :: _, [] => false
  end.

(** A number in base [b], its exponent counted in powers of [eb], each digit
    after the point being worth [fb] of them. *)
Definition strtod_number (neg : bool) (b eb fb mark : Z) (digit : Z -> option Z)
    (s : Buf) : option (double * bool) :=
  let '(i, n, r) := mantissa b digit 0 0 s in
  let '(m, k, r) := match r with
                    | 46 :: r' => mantissa b digit i 0 r'
                    | _ => (i, 0, r)
                    end in
  if n + k =? 0 then None
  else match m with
       | Zpos m => Some (scale neg m eb (exponent mark r - fb * k))
       | _ => Some (S754_zero neg, false)
       end.

Definition stod (s : Buf) : result double :=
  let (neg, r) := Text.sign (Text.skip_space s) in
  let decimal := strtod_number neg 10 10 1 101 decdigit r in
  let o := if has_prefix (Text.lit "inf") r then Some (S754_infinity neg, false)
           else if has_prefix (Text.lit "nan") r then Some (S754_nan, false)
           else if has_prefix (Text.lit "0x") r then
             match strtod_number neg 16 2 4 112 hexdigit (drop 2 r) with
             | Some x => Some x
             | None => decimal
             end
           else decimal in
  match o with
  | None => Fail (Throw "std::invalid_argument")
  | Some (_, true) => Fail (Throw "std::out_of_range")
  | Some (d, false) => Ok d
  end.

Example double_examples :
  stod (Text.lit " -2.50e1x") = Ok (of_Z (-25)) /\
  stod (Text.lit "0x1.8p1") = Ok (of_Z 3) /\
  stod (Text.lit "1e400") = Fail (Throw "std::out_of_range") /\
  stod (Text.lit ".") = Fail (Throw "std::invalid_argument") /\
  (stod (Text.lit "0.1") = Ok (div (of_Z 1) (of_Z 10))) /\
  to_string (div (of_Z (-1)) (of_Z 3)) = Text.lit "-0.333333" /\
  to_string (of_Z (2 ^ 62)) = Text.lit "4611686018427387904.000000" /\
  to_int 32 (trunc (div (of_Z (-7)) (of_Z 2))) = Ok (-3) /\
  sqrt (of_Z 49) = of_Z 7 /\ FLT_LOWEST = S754_finite true (2 ^ 53 - 2 ^ 29) 75.
Proof. repeat split; vm_compute; reflexivity. Qed.

Lemma digits2_pos_spec m :
  2 ^ (Zpos (digits2_pos m) - 1) <= Zpos m < 2 ^ Zpos (digits2_pos m).
Proof.
  induction m as [m IH|m IH|]; cbn [digits2_pos]; [| |simpl; lia];
    rewrite Pos2Z.inj_succ;
    replace (Z.succ _ - 1) with (Z.succ (Z.pos (digits2_pos m) - 1)) by lia;
    rewrite !Z.pow_succ_r by lia; lia.
Qed.

(** A finite number is normal or subnormal. *)
Lemma valid_finite s m e :
  valid_binary prec emax (S754_finite s m e) = true ->
  (2 ^ 52 <= Zpos m < 2 ^ 53 /\ -1074 <= e <= 971) \/ (Zpos m < 2 ^ 52 /\ e = -1074).
Proof.
  cbn [valid_binary]. unfold bounded, canonical_mantissa, fexp, emin, prec, emax.
  intros H. apply andb_true_iff in H as [H1 H2]. apply Z.eqb_eq in H1. apply Z.leb_le in H2.
  pose proof (digits2_pos_spec m) as Hd.
  assert (Hc : Zpos (digits2_pos m) = 53 \/ (Zpos (digits2_pos m) <= 52 /\ e = -1074)) by lia.
  destruct Hc as [E|[E ->]].
  - rewrite E in Hd. change (53 - 1) with 52 in Hd. left. lia.
  - right. split; [|done].
    pose proof (Z.pow_le_mono_r 2 (Zpos (digits2_pos m)) 52). lia.
Qed.

Lemma encode_range d : valid_binary prec emax d = true -> 0 <= encode d < 2 ^ 64.
Proof.
  destruct d as [s|s| |s m e]; intros H; [destruct s; by_computation..|by_computation|].
  apply valid_finite in H. cbn [encode].
  destruct (Z.pos m <? 2 ^ 52) eqn:E; zify_bool; destruct s; cbn [Z.b2z]; lia.
Qed.

Lemma decode_fields s ex fr :
  0 <= ex < 2048 -> 0 <= fr < 2 ^ 52 ->
  let b := Z.b2z s * 2 ^ 63 + ex * 2 ^ 52 + fr in
  (2 ^ 63 <=? b) = s /\ (b / 2 ^ 52) mod 2048 = ex /\ b mod 2 ^ 52 = fr.
Proof.
  intros He Hf b. subst b.
  replace (Z.b2z s * 2 ^ 63 + ex * 2 ^ 52 + fr)
    with (fr + (Z.b2z s * 2048 + ex) * 2 ^ 52) by (change (2 ^ 63) with (2048 * 2 ^ 52); lia).
  rewrite Z.div_add, Z.mod_add by lia.
  rewrite (Z.div_small fr), (Z.mod_small fr) by lia. repeat split.
  - destruct s; cbn [Z.b2z]; [apply Z.leb_le | apply Z.leb_gt]; lia.
  - rewrite Z.add_0_l, Z.add_comm, Z.mod_add by lia. apply Z.mod_small. lia.
Qed.

(** Every binary64 number is read back from its memory image. *)
Lemma decode_encode d : valid_binary prec emax d = true -> decode (encode d) = d.
Proof.
  destruct d as [s|s| |s m e]; intros H;
    [destruct s; vm_compute; reflexivity..|reflexivity|].
  apply valid_finite in H. cbn [encode]. unfold decode.
  destruct (Z.pos m <? 2 ^ 52) eqn:E; zify_bool.
  - destruct (decode_fields s 0 (Zpos m)) as (Hs & H1 & H2); [lia..|].
    rewrite Z.mul_0_l, Z.add_0_r in Hs, H1, H2. rewrite Hs, H1, H2.
    change (0 =? 2047) with false. change (0 =? 0) with true. cbn iota.
    f_equal. lia.
  - destruct (decode_fields s (e + 1075) (Zpos m - 2 ^ 52)) as (Hs & H1 & H2); [lia..|].
    rewrite <- Z.add_assoc in Hs, H1, H2. rewrite Hs, H1, H2.
    rewrite (proj2 (Z.eqb_neq _ 2047)), (proj2 (Z.eqb_neq _ 0)) by lia.
    replace (Z.pos m - 2 ^ 52 + 2 ^ 52) with (Zpos m) by lia.
    f_equal. lia.
Qed.

End Double.
