(* ===== verification/Rid.v ===== *)
(** * Record identifiers (src/src/include/common/rid.h)

    A [RID] is a page id and a slot number, packed in 64 bits for the hash tables
    and for the values of the indexes. *)

From stdpp Require Import prelude gmap.
From Stdlib Require Import ZArith Lia.
From S2P Require Import Prelude.

Local Open Scope Z_scope.

Module Rid.
Record RID := mkRID { page_id_ : Z; slot_num_ : Z }.

#[export] Instance RID_eq_dec : EqDecision RID.
Proof. solve_decision. Defined.

#[export] Instance RID_countable : Countable RID.
Proof.
  apply (inj_countable' (fun r => (page_id_ r, slot_num_ r)) (fun p => mkRID p.1 p.2)).
  by intros [].
Defined.

(** [RID()] *)
Definition invalid_rid : RID := mkRID INVALID_PAGE_ID (-1).

(** [RID(int64_t)]: both members keep the low 32 bits of what they are given. *)
Definition of_int64 (rid : Z) : RID := mkRID (wrap32 (Z.shiftr rid 32)) (wrap32 rid).

(** [slot_num_] is sign-extended by the [|]. *)
Definition Get (r : RID) : Z :=
  Z.lor (swrap 64 (Z.shiftl (page_id_ r) 32)) (slot_num_ r).

(** [std::hash<RID>], the identity on 64 bits. *)
Definition hash (r : RID) : Z := uwrap 64 (Get r).

Definition valid (r : RID) : Prop := int32 (page_id_ r) /\ int32 (slot_num_ r).

(** ** Lemmas *)

Lemma land_shiftl_low p s : 0 <= s < 2 ^ 32 -> Z.land (Z.shiftl p 32) s = 0.
Proof.
  intros Hs. apply Z.bits_inj_0. intros n. rewrite Z.land_spec.
  destruct (Z.lt_ge_cases n 32).
  - by rewrite Z.shiftl_mul_pow2, Z.mul_pow2_bits_low by lia.
  - replace s with (s mod 2 ^ 32) by (apply Z.mod_small; lia).
    rewrite Z.mod_pow2_bits_high by lia. by rewrite andb_false_r.
Qed.

Lemma lor_shiftl_add p s : 0 <= s < 2 ^ 32 -> Z.lor (Z.shiftl p 32) s = p * 2 ^ 32 + s.
Proof.
  intros Hs. pose proof (land_shiftl_low p s Hs) as Hl.
  rewrite <- Z.lxor_lor, <- Z.add_nocarry_lxor by done.
  by rewrite Z.shiftl_mul_pow2 by lia.
Qed.

Lemma swrap64_page p : int32 p -> swrap 64 (Z.shiftl p 32) = Z.shiftl p 32.
Proof.
  intros. apply swrap_id; [lia|]. unfold in_sint in *. rewrite Z.shiftl_mul_pow2 by lia. lia.
Qed.

Lemma get_nonneg r : valid r -> 0 <= slot_num_ r -> Get r = page_id_ r * 2 ^ 32 + slot_num_ r.
Proof.
  intros [Hp Hs] H0. unfold Get. rewrite swrap64_page by done.
  apply lor_shiftl_add. unfold in_sint in *. lia.
Qed.

(** A negative slot number overwrites the page id with ones. *)
Lemma get_neg r : valid r -> slot_num_ r < 0 -> Get r = slot_num_ r.
Proof.
  intros [Hp Hs] H0. unfold Get. rewrite swrap64_page by done.
  apply Z.bits_inj'. intros n Hn. rewrite Z.lor_spec, Z.shiftl_spec by done.
  destruct (Z.lt_ge_cases n 32).
  - by rewrite (Z.testbit_neg_r (page_id_ r)) by lia.
  - rewrite (Z.bits_above_log2_neg (slot_num_ r) n); [by rewrite orb_true_r|lia|].
    unfold in_sint in Hs. destruct (decide (slot_num_ r = -1)) as [->|]; [simpl; lia|].
    apply Z.lt_le_trans with 32; [|lia]. apply Z.log2_lt_pow2; lia.
Qed.

Lemma of_int64_parts p s :
  int32 p -> 0 <= s < 2 ^ 31 -> of_int64 (p * 2 ^ 32 + s) = mkRID p s.
Proof.
  intros Hp Hs. unfold of_int64. f_equal.
  - rewrite Z.shiftr_div_pow2, Z.div_add_l, Z.div_small by lia.
    rewrite Z.add_0_r. apply swrap_id; [lia|done].
  - rewrite <- (swrap_mod 32) by lia. rewrite Z.add_comm, Z.mod_add by lia.
    rewrite swrap_mod by lia. apply swrap_id; [lia|]. unfold in_sint. lia.
Qed.

Lemma of_int64_small s : - 2 ^ 31 <= s < 0 -> of_int64 s = mkRID (-1) s.
Proof.
  intros Hs. unfold of_int64. f_equal.
  - rewrite Z.shiftr_div_pow2 by lia.
    replace (s / 2 ^ 32) with (-1); [done|].
    apply (Z.div_unique_pos s (2 ^ 32) (-1) (s + 2 ^ 32)); lia.
  - apply swrap_id; [lia|]. unfold in_sint. lia.
Qed.

Lemma unpack_pack r : valid r -> 0 <= slot_num_ r -> of_int64 (Get r) = r.
Proof.
  intros [Hp Hs] H0. rewrite get_nonneg by done. destruct r as [p s].
  apply of_int64_parts; [done|]. unfold in_sint in Hs. simpl in *. lia.
Qed.

(** ** Properties *)

(** Packing a RID into 64 bits and unpacking it gives the RID back exactly when
    its slot number is not negative or its page id is already -1: the sign extension
    of a negative slot number overwrites the page id. *)
Theorem rid_roundtrip (r : RID) (Hr : valid r) :
  of_int64 (Get r) = r <-> 0 <= slot_num_ r \/ page_id_ r = -1.
Proof.
  destruct r as [p s]. pose proof Hr as [Hp Hs]. unfold in_sint in *. simpl in *.
  destruct (Z.lt_ge_cases s 0).
  - rewrite get_neg by done. simpl. rewrite of_int64_small by lia. split.
    + intros [= <-]. by right.
    + intros [? | ->]; [lia | done].
  - rewrite get_nonneg by done. simpl. rewrite of_int64_parts by (unfold in_sint; lia).
    tauto.
Qed.

Lemma rid_roundtrip_witness :
  valid (mkRID 7 3) /\ of_int64 (Get (mkRID 7 3)) = mkRID 7 3.
Proof.
  assert (H : valid (mkRID 7 3)) by (unfold valid, in_sint; simpl; lia).
  split; [exact H|]. apply (rid_roundtrip (mkRID 7 3) H). left. simpl. lia.
Defined.

Example rid_negative_slot : of_int64 (Get (mkRID 7 (-2))) = mkRID (-1) (-2).
Proof. reflexivity. Qed.

Lemma get_inj r1 r2 :
  valid r1 -> valid r2 -> 0 <= slot_num_ r1 -> 0 <= slot_num_ r2 -> Get r1 = Get r2 -> r1 = r2.
Proof.
  intros [Hp1 Hs1] [Hp2 Hs2] H1 H2 He. rewrite !get_nonneg in He by done.
  destruct r1 as [p1 s1], r2 as [p2 s2]. unfold in_sint in *. simpl in *.
  assert (p1 = p2) by nia. subst. f_equal. lia.
Qed.
End Rid.
