(* ===== verification/Interfaces.v ===== *)
(** * Interfaces between the components

    Each class of operations states what a component calls of another, and a class of laws
    what it relies on, over an abstract state.  The buffer pool is written against
    [HashTable<K,V>] (src/src/include/hash/hash_table.h), the page table, and
    [Replacer<T>] (src/src/include/buffer/replacer.h), the eviction policy: a finite map,
    and the list of the evictable values with the most recently inserted first.  The table
    page and the table heap lock records through [LockEnv]; the virtual table works on a
    [Heap], an [Index] and [Transactions]. *)

From stdpp Require Import prelude gmap list.
From Stdlib Require Import ZArith Lia.
From S2P Require Import Prelude Rid.

(** Pure virtual methods of [HashTable]. *)
Class HashTable (K V T : Type) := {
  ht_find : K -> T -> result (option V);
  ht_remove : K -> T -> result (bool * T);
  ht_insert : K -> V -> T -> result T
}.

(** What a hash table promises: it represents a finite map. [ht_key_ok] are the
    keys it can store. *)
Class HashTableLaws (K V T : Type) `{Countable K} `{HashTable K V T} := {
  ht_repr : T -> gmap K V -> Prop;
  ht_key_ok : K -> Prop;
  ht_find_law t m k :
    ht_repr t m -> ht_find k t = Ok (m !! k);
  ht_remove_law t m k :
    ht_repr t m ->
    exists t', ht_remove k t = Ok (bool_decide (is_Some (m !! k)), t') /\
               ht_repr t' (delete k m);
  ht_insert_law t m k v :
    ht_repr t m -> ht_key_ok k -> (forall k', is_Some (m !! k') -> ht_key_ok k') ->
    exists t', ht_insert k v t = Ok t' /\ ht_repr t' (<[k := v]> m)
}.

(** Pure virtual methods of [Replacer]. *)
Class Replacer (K R : Type) := {
  rp_insert : K -> R -> R;
  rp_victim : R -> option K * R;
  rp_erase : K -> R -> bool * R;
  rp_size : R -> nat
}.

(** The abstract replacer: evictable values, most recently inserted first. *)
Definition recency_insert {K} `{EqDecision K} (v : K) (l : list K) : list K :=
  v :: filter (fun x => x <> v) l.

Definition recency_victim {K} (l : list K) : option K * list K :=
  match last l with
  | Some v => (Some v, removelast l)
  | None => (None, l)
  end.

Definition recency_erase {K} `{EqDecision K} (v : K) (l : list K) : bool * list K :=
  (bool_decide (v ∈ l), filter (fun x => x <> v) l).

Class ReplacerLaws (K R : Type) `{EqDecision K} `{Replacer K R} := {
  rp_repr : R -> list K -> Prop;
  rp_repr_nodup r l : rp_repr r l -> NoDup l;
  rp_insert_law r l v : rp_repr r l -> rp_repr (rp_insert v r) (recency_insert v l);
  rp_victim_law r l :
    rp_repr r l ->
    (rp_victim r).1 = (recency_victim l).1 /\
    rp_repr (snd (rp_victim r)) (snd (recency_victim l));
  rp_erase_law r l v :
    rp_repr r l ->
    fst (rp_erase v r) = fst (recency_erase v l) /\
    rp_repr (snd (rp_erase v r)) (snd (recency_erase v l));
  rp_size_law r l : rp_repr r l -> rp_size r = length l
}.

(** What a table page and a table heap use of the running transaction and of the lock manager
    (src/src/include/concurrency/transaction.h and lock_manager.h), seen from one
    transaction: [L] holds the state of both. *)
Class LockEnv (L : Type) := {
  lk_abort : L -> L;
  lk_in_shared : Rid.RID -> L -> bool;
  lk_in_exclusive : Rid.RID -> L -> bool;
  lk_lock_shared : Rid.RID -> L -> result (bool * L);
  lk_lock_exclusive : Rid.RID -> L -> result (bool * L);
  lk_lock_upgrade : Rid.RID -> L -> result (bool * L);
  lk_unlock : Rid.RID -> L -> result L;
  lk_aborted : L -> bool
}.

#[local] Existing Instances Rid.RID_eq_dec Rid.RID_countable.

(** What the lock manager promises to the only running transaction: it never waits, and
    holds locks on exactly the records of a set. *)
Class LockGrants (L : Type) `{LockEnv L} := {
  lg_holds : L -> gset Rid.RID -> Prop;
  lg_sets l X rid : lg_holds l X -> lk_in_shared rid l || lk_in_exclusive rid l = bool_decide (rid ∈ X);
  lg_shared l X rid :
    lg_holds l X -> rid ∉ X ->
    exists l', lk_lock_shared rid l = Ok (true, l') /\ lg_holds l' ({[rid]} ∪ X);
  lg_exclusive l X rid :
    lg_holds l X -> rid ∉ X ->
    exists l', lk_lock_exclusive rid l = Ok (true, l') /\ lg_holds l' ({[rid]} ∪ X);
  lg_upgrade l X rid :
    lg_holds l X -> lk_in_shared rid l = true ->
    exists l', lk_lock_upgrade rid l = Ok (true, l') /\ lg_holds l' X
}.

(** Pure virtual methods of [Index] (src/src/include/index/index.h); a key is the bytes of a
    key tuple, and ScanKey appends to the vector it is given. *)
Class Index (I : Type) := {
  ix_insert_entry : list Z -> Rid.RID -> I -> result I;
  ix_delete_entry : list Z -> I -> result I;
  ix_scan_key : list Z -> list Rid.RID -> I -> result (list Rid.RID * I)
}.

(** What an index promises, for the key tuples [ix_key_ok]: it maps each key to one record,
    the first that was inserted, while no more than [n] entries are added; a lookup in an
    empty index fails an assertion. *)
Class IndexLaws (I : Type) `{Index I} := {
  ix_repr : nat -> I -> gmap (list Z) Rid.RID -> Prop;
  ix_key_ok : list Z -> Prop;
  ix_repr_keys n i m key : ix_repr n i m -> is_Some (m !! key) -> ix_key_ok key;
  ix_repr_le n i m : ix_repr (S n) i m -> ix_repr n i m;
  ix_insert_law n i m key rid :
    ix_repr (S n) i m -> ix_key_ok key ->
    exists i', ix_insert_entry key rid i = Ok i' /\ ix_repr n i' (<[key := default rid (m !! key)]> m);
  ix_delete_law n i m key :
    ix_repr n i m -> ix_key_ok key ->
    exists i', ix_delete_entry key i = Ok i' /\ ix_repr n i' (delete key m);
  ix_scan_law n i m key result :
    ix_repr n i m -> ix_key_ok key ->
    ix_scan_key key result i =
      if bool_decide (m = ∅) then Fail AssertFail else Ok (result ++ option_list (m !! key), i)
}.

(** The methods of TableHeap (src/src/include/table/table_heap.h) a virtual table calls, on
    the storage behind the heap and the running transaction; a tuple is its bytes,
    an iterator the record it stands on with its bytes. *)
Class Heap (E : Type) := {
  th_insert : list Z -> E -> result (option Rid.RID * E);
  th_mark : Rid.RID -> E -> result (bool * E);
  th_update : list Z -> Rid.RID -> E -> result (bool * E);
  th_get : Rid.RID -> E -> result (option (list Z) * E);
  th_begin : E -> result (Rid.RID * list Z * E);
  th_next : Rid.RID * list Z -> E -> result (Rid.RID * list Z * E)
}.

(** The rows [ts] an iteration visits: all of [m], each once, or none when the first page of
    the heap has none. *)
Definition scanned (first : Z) (m : gmap Rid.RID (list Z)) (ts : list (Rid.RID * list Z)) : Prop :=
  let seen := exists rid t, m !! rid = Some t /\ Rid.page_id_ rid = first in
  (seen -> ts ≡ₚ map_to_list m) /\ (~ seen -> ts = []).

Lemma scanned_rows first m ts : scanned first m ts ->
  (length ts <= size m)%nat /\ forall rid t, (rid, t) ∈ ts -> m !! rid = Some t.
Proof.
  intros [Hall Hnone]. rewrite <- length_map_to_list. destruct (decide (ts = [])) as [->|Hne].
  - split; [simpl; lia|]. by intros rid t ?%not_elem_of_nil.
  - assert (Hts : ts ≡ₚ map_to_list m).
    { destruct (decide (Exists (fun x => Rid.page_id_ x.1 = first) (map_to_list m))) as [Hs|Hs].
      - apply Hall. apply Exists_exists in Hs as ([rid t] & Hx & Hf). exists rid, t. by apply elem_of_map_to_list in Hx.
      - destruct Hne. apply Hnone. intros (rid & t & Hx & Hf). apply Hs, Exists_exists. exists (rid, t). by rewrite elem_of_map_to_list. }
    split; [by rewrite Hts|]. intros rid t. by rewrite Hts, elem_of_map_to_list.
Qed.

(** What a table heap promises: it maps record ids to the bytes of the rows, while no more
    than [n] rows are added.  [marked] tells that the transaction has deleted a row; from
    then on an update must not change the length of a row.  [th_at] says which rows an
    iterator is about to visit. *)
Class HeapLaws (E : Type) `{Heap E} := {
  th_repr : nat -> bool -> E -> gmap Rid.RID (list Z) -> Prop;
  th_row_ok : list Z -> Prop;
  th_repr_le n marked e m : th_repr (S n) marked e m -> th_repr n marked e m;
  th_insert_law n marked e m t :
    th_repr (S n) marked e m -> th_row_ok t ->
    exists rid e', th_insert t e = Ok (Some rid, e') /\ m !! rid = None /\
                   th_repr n marked e' (<[rid := t]> m);
  th_mark_law n marked e m rid :
    th_repr n marked e m -> is_Some (m !! rid) ->
    exists e', th_mark rid e = Ok (true, e') /\ th_repr n true e' (delete rid m);
  th_update_law n marked e m rid old t :
    th_repr n marked e m -> m !! rid = Some old -> th_row_ok t ->
    marked = false \/ length t = length old ->
    exists ok e', th_update t rid e = Ok (ok, e') /\
                  th_repr n marked e' (if ok : bool then <[rid := t]> m else m);
  th_get_law n marked e m rid t :
    th_repr n marked e m -> m !! rid = Some t ->
    exists e', th_get rid e = Ok (Some t, e') /\ th_repr n marked e' m;
  th_first : Z;
  th_at : nat -> bool -> E -> gmap Rid.RID (list Z) -> Rid.RID * list Z -> list (Rid.RID * list Z) -> Prop;
  th_at_repr n marked e m it ts : th_at n marked e m it ts -> th_repr n marked e m;
  th_at_end n marked e m it : th_at n marked e m it [] -> Rid.Get it.1 = Rid.Get Rid.invalid_rid;
  th_at_row n marked e m it x ts :
    th_at n marked e m it (x :: ts) -> x = it /\ Rid.Get it.1 <> Rid.Get Rid.invalid_rid;
  th_begin_law n marked e m :
    th_repr n marked e m ->
    exists it ts e', th_begin e = Ok (it, e') /\ th_at n marked e' m it ts /\ scanned th_first m ts;
  th_next_law n marked e m it x ts :
    th_at n marked e m it (x :: ts) ->
    exists it' e', th_next it e = Ok (it', e') /\ th_at n marked e' m it' ts
}.

(** The methods of TransactionManager (src/src/include/concurrency/transaction_manager.h) for
    the one transaction a client of SQLite runs at a time. *)
Class Transactions (E : Type) := {
  tm_begin : E -> E;
  tm_commit : E -> result E
}.

(** ** Lemmas on the recency list *)

Lemma recency_insert_nodup {K} `{EqDecision K} v (l : list K) :
  NoDup l -> NoDup (recency_insert v l).
Proof.
  intros. unfold recency_insert. constructor; [|by apply NoDup_filter].
  rewrite list_elem_of_filter. tauto.
Qed.

Lemma removelast_app_last {K} (l : list K) v :
  last l = Some v -> l = removelast l ++ [v].
Proof.
  intros Hl. destruct (decide (l = [])) as [->|Hne]; [done|].
  apply last_Some in Hl as [l' ->]. by rewrite removelast_last.
Qed.

Lemma recency_victim_spec {K} (l : list K) v l' :
  NoDup l -> recency_victim l = (Some v, l') ->
  l = l' ++ [v] /\ (v ∉ l') /\ NoDup l'.
Proof.
  unfold recency_victim. destruct (last l) eqn:E; [|done].
  intros Hnd [= <- <-]. apply removelast_app_last in E.
  rewrite E in Hnd at 1. apply NoDup_app in Hnd as (? & Hd & ?).
  repeat split; auto. intros Hin. apply (Hd _ Hin). set_solver.
Qed.

Lemma recency_victim_none {K} (l : list K) l' :
  recency_victim l = (None, l') -> l = [] /\ l' = [].
Proof.
  unfold recency_victim. destruct (last l) eqn:E; [done|].
  apply last_None in E as ->. by intros [= <-].
Qed.
