(* ===== verification/LruReplacer.v ===== *)
(** * The LRU replacer (src/src/buffer/lru_replacer.cpp)

    The source keeps a doubly linked list of values and an unordered map from a
    value to its iterator.  An iterator is the identity of a list node, so a list
    element is a pair (node, value), front first, and the map stores nodes.
    [next_node] supplies the identity of the next node that is allocated; it is
    the only field with no counterpart in the class.  The latch serialises the
    methods and is not represented. *)

From stdpp Require Import prelude gmap list.
From Stdlib Require Import ZArith Lia.
From S2P Require Import Prelude Interfaces.

Module LRU.
Section Defs.
Context {K : Type} `{Countable K}.

Record LRUReplacer := mkLRU {
  lru_list_ : list (nat * K);
  lru_key_itr_map_ : gmap K nat;
  next_node : nat
}.

(** [list::erase(itr)]: unlinks the node the iterator points to. *)
Definition list_erase (itr : nat) (l : list (nat * K)) : list (nat * K) :=
  filter (fun e => e.1 <> itr) l.

Definition empty : LRUReplacer := mkLRU [] ∅ 0.

Definition Insert (value : K) (r : LRUReplacer) : LRUReplacer :=
  let fresh := next_node r in
  match lru_key_itr_map_ r !! value with
  | None =>
      mkLRU ((fresh, value) :: lru_list_ r)
            (<[value := fresh]> (lru_key_itr_map_ r)) (S fresh)
  | Some itr =>
      mkLRU ((fresh, value) :: list_erase itr (lru_list_ r))
            (<[value := fresh]> (lru_key_itr_map_ r)) (S fresh)
  end.

Definition Victim (r : LRUReplacer) : option K * LRUReplacer :=
  match last (lru_list_ r) with
  | Some (_, value) =>
      (Some value,
       mkLRU (removelast (lru_list_ r)) (delete value (lru_key_itr_map_ r)) (next_node r))
  | None => (None, r)
  end.

Definition Erase (value : K) (r : LRUReplacer) : bool * LRUReplacer :=
  match lru_key_itr_map_ r !! value with
  | Some itr =>
      (true, mkLRU (list_erase itr (lru_list_ r))
                   (delete value (lru_key_itr_map_ r)) (next_node r))
  | None => (false, r)
  end.

Definition Size (r : LRUReplacer) : nat := length (lru_list_ r).

(** Every list node is indexed under its value by the map and conversely, and no
    node identity is reused. *)
Record wf (r : LRUReplacer) : Prop := {
  wf_nodes : NoDup (lru_list_ r).*1;
  wf_index n v : (n, v) ∈ lru_list_ r <-> lru_key_itr_map_ r !! v = Some n;
  wf_fresh n v : (n, v) ∈ lru_list_ r -> n < next_node r
}.

(** The recency list the state stands for. *)
Definition contents (r : LRUReplacer) : list K := (lru_list_ r).*2.

Definition repr (r : LRUReplacer) (l : list K) : Prop := wf r /\ contents r = l.
(** Client calls and what they return. *)
Inductive call :=
| CInsert (v : K)
| CErase (v : K)
| CVictim
| CSize.

Inductive answer :=
| AUnit
| AErased (b : bool)
| AVictim (v : option K)
| ASize (n : nat).

Definition exec (c : call) (r : LRUReplacer) : answer * LRUReplacer :=
  match c with
  | CInsert v => (AUnit, Insert v r)
  | CErase v => let '(b, r') := Erase v r in (AErased b, r')
  | CVictim => let '(v, r') := Victim r in (AVictim v, r')
  | CSize => (ASize (Size r), r)
  end.

(** The same calls on the recency list. *)
Definition exec_spec (c : call) (l : list K) : answer * list K :=
  match c with
  | CInsert v => (AUnit, recency_insert v l)
  | CErase v => let '(b, l') := recency_erase v l in (AErased b, l')
  | CVictim => let '(v, l') := recency_victim l in (AVictim v, l')
  | CSize => (ASize (length l), l)
  end.

Fixpoint run {S} (ex : call -> S -> answer * S) (cs : list call) (s : S) :
    list answer * S :=
  match cs with
  | [] => ([], s)
  | c :: cs' =>
      let '(a, s1) := ex c s in
      let '(out, s2) := run ex cs' s1 in (a :: out, s2)
  end.
End Defs.
Arguments LRUReplacer K {_ _}.
Arguments call : clear implicits.
Arguments answer : clear implicits.

Section Lemmas.
Context {K : Type} `{Countable K}.
Implicit Types r : LRUReplacer K.

Lemma wf_empty : wf (empty (K := K)).
Proof. split; simpl; [constructor | set_solver | set_solver]. Qed.

Lemma elem_of_erase itr n (v : K) l :
  (n, v) ∈ list_erase itr l <-> (n, v) ∈ l /\ n <> itr.
Proof. unfold list_erase. rewrite list_elem_of_filter. simpl. tauto. Qed.

Lemma erase_nodes_nodup itr (l : list (nat * K)) :
  NoDup l.*1 -> NoDup (list_erase itr l).*1.
Proof.
  intros Hnd. unfold list_erase. induction l as [|[n v] l IH]; [done|].
  rewrite fmap_cons in Hnd. apply NoDup_cons in Hnd as [Hn Hnd].
  rewrite filter_cons. case_decide; [|by apply IH].
  rewrite fmap_cons. constructor; [|by apply IH].
  intros (e & E & Hin)%list_elem_of_fmap. apply list_elem_of_filter in Hin as [_ Hin].
  apply Hn. apply list_elem_of_fmap. eauto.
Qed.

Lemma wf_contents_nodup r : wf r -> NoDup (contents r).
Proof.
  intros [Hnd Hidx _]. unfold contents.
  assert (Hfun : forall n1 n2 v, (n1, v) ∈ lru_list_ r -> (n2, v) ∈ lru_list_ r -> n1 = n2).
  { intros n1 n2 v H1%Hidx H2%Hidx. congruence. }
  clear Hidx. induction (lru_list_ r) as [|[n v] l IH]; [constructor|].
  rewrite fmap_cons in Hnd. apply NoDup_cons in Hnd as [Hn Hnd].
  rewrite fmap_cons. constructor.
  - intros ([n' v'] & E & Hin)%list_elem_of_fmap. simpl in E. subst v'.
    assert (n = n') as ->.
    { apply (Hfun _ _ v); [left|by right]. }
    apply Hn. by eapply elem_of_fst.
  - apply IH; [done|]. intros n1 n2 w ??. apply (Hfun n1 n2 w); by right.
Qed.

Lemma contents_lookup r v : wf r -> v ∈ contents r <-> is_Some (lru_key_itr_map_ r !! v).
Proof.
  intros [_ Hidx _]. unfold contents. rewrite list_elem_of_fmap. split.
  - intros ([n v'] & -> & ?%Hidx). simpl. eauto.
  - intros [n ?%Hidx]. exists (n, v). auto.
Qed.

(** Unlinking the node of [v] removes [v] and nothing else from the contents. *)
Lemma contents_erase r itr v :
  wf r -> lru_key_itr_map_ r !! v = Some itr ->
  (list_erase itr (lru_list_ r)).*2 = filter (fun x => x <> v) (contents r).
Proof.
  intros [Hnd Hidx _] Hv. unfold contents, list_erase.
  assert (Hiff : forall n v', (n, v') ∈ lru_list_ r -> n = itr <-> v' = v).
  { intros n v' Hin. split.
    - intros ->. eapply NoDup_fst_inj; [exact Hnd|done|by apply Hidx].
    - intros ->. apply Hidx in Hin. congruence. }
  clear Hidx Hv Hnd. induction (lru_list_ r) as [|[n v'] l IH]; [done|].
  assert (Hn : n = itr <-> v' = v) by (apply Hiff; left).
  specialize (IH (fun n0 v0 Hin => Hiff n0 v0 (list_elem_of_further _ _ _ Hin))).
  rewrite fmap_cons, !filter_cons. cbn [fst snd].
  repeat case_decide; try tauto. rewrite fmap_cons. cbn [fst snd]. by f_equal.
Qed.

Lemma contents_absent r v :
  wf r -> lru_key_itr_map_ r !! v = None -> filter (fun x => x <> v) (contents r) = contents r.
Proof.
  intros Hwf Hv. apply list_filter_all. intros x Hx ->.
  apply contents_lookup in Hx; [|done]. destruct Hx. congruence.
Qed.

Lemma wf_delete r itr v :
  wf r -> lru_key_itr_map_ r !! v = Some itr ->
  wf (mkLRU (list_erase itr (lru_list_ r)) (delete v (lru_key_itr_map_ r)) (next_node r)).
Proof.
  intros Hwf E. pose proof Hwf as [Hnd Hidx Hfr]. split; simpl.
  - by apply erase_nodes_nodup.
  - intros n x. rewrite elem_of_erase, lookup_delete, Hidx. case_decide as Hx.
    + subst x. split; [|done]. intros [H1 H2]. congruence.
    + split; [tauto|]. intros Hn. split; [done|]. intros ->. apply Hx.
      eapply NoDup_fst_inj; [exact Hnd|by apply Hidx|by apply Hidx].
  - intros n x [Hin _]%elem_of_erase. eauto.
Qed.

Lemma wf_push r v :
  wf r -> lru_key_itr_map_ r !! v = None ->
  wf (mkLRU ((next_node r, v) :: lru_list_ r)
            (<[v := next_node r]> (lru_key_itr_map_ r)) (S (next_node r))).
Proof.
  intros [Hnd Hidx Hfr] E. split; simpl.
  - constructor; [|done].
    intros ([n x] & Hx & Hin)%list_elem_of_fmap. simpl in Hx. subst n.
    apply Hfr in Hin. lia.
  - intros n x. rewrite elem_of_cons, lookup_insert, Hidx. case_decide as Hx.
    + subst x. split; [intros [[= ->]|]; congruence|]. intros [= ->]. by left.
    + split; [intros [[= -> ->]|]; done|]. by right.
  - intros n x [[= -> ->]|Hin]%elem_of_cons; [lia|]. apply Hfr in Hin. lia.
Qed.

Lemma wf_insert r v : wf r -> wf (Insert v r).
Proof.
  intros Hwf. unfold Insert.
  destruct (lru_key_itr_map_ r !! v) as [itr|] eqn:E; [|by apply wf_push].
  pose proof (wf_push _ v (wf_delete r itr v Hwf E) (lookup_delete_eq _ _)) as Hp.
  simpl in Hp. by rewrite insert_delete_eq in Hp.
Qed.

Lemma contents_insert r v : wf r -> contents (Insert v r) = recency_insert v (contents r).
Proof.
  intros Hwf. unfold Insert, recency_insert.
  destruct (lru_key_itr_map_ r !! v) as [itr|] eqn:E; unfold contents at 1; simpl.
  - f_equal. by apply contents_erase.
  - f_equal. symmetry. by apply contents_absent.
Qed.

Lemma contents_last r : last (contents r) = snd <$> last (lru_list_ r).
Proof. unfold contents. by rewrite fmap_last. Qed.

Lemma victim_erase r n v :
  wf r -> last (lru_list_ r) = Some (n, v) ->
  removelast (lru_list_ r) = list_erase n (lru_list_ r).
Proof.
  intros Hwf Hl. apply removelast_app_last in Hl. rewrite Hl at 2.
  unfold list_erase. rewrite filter_app, (filter_cons_False _ (n, v)) by (simpl; tauto).
  rewrite filter_nil, app_nil_r. symmetry. apply list_filter_all.
  intros [n' v'] Hin. simpl. intros ->. pose proof (wf_nodes r Hwf) as Hnd.
  rewrite Hl, fmap_app in Hnd. apply NoDup_app in Hnd as (_ & Hd & _).
  apply (Hd n); [by eapply elem_of_fst|left].
Qed.

Lemma repr_victim r l :
  repr r l -> fst (Victim r) = fst (recency_victim l) /\
              repr (snd (Victim r)) (snd (recency_victim l)).
Proof.
  intros [Hwf <-]. unfold Victim, recency_victim. rewrite contents_last.
  destruct (last (lru_list_ r)) as [[n v]|] eqn:E; simpl; [|done].
  assert (Hv : lru_key_itr_map_ r !! v = Some n).
  { apply (wf_index r Hwf). apply last_Some in E as [l' ->]. set_solver. }
  split; [done|]. split.
  - rewrite (victim_erase r n v) by done. by apply wf_delete.
  - unfold contents. simpl. by rewrite fmap_removelast.
Qed.

Lemma repr_erase r l v :
  repr r l -> fst (Erase v r) = fst (recency_erase v l) /\
              repr (snd (Erase v r)) (snd (recency_erase v l)).
Proof.
  intros [Hwf <-]. unfold Erase, recency_erase. simpl.
  pose proof (contents_lookup r v Hwf) as Hc.
  destruct (lru_key_itr_map_ r !! v) as [itr|] eqn:E; simpl; split.
  - symmetry. apply bool_decide_eq_true. apply Hc. eauto.
  - split; [by apply wf_delete|]. by apply contents_erase.
  - symmetry. apply bool_decide_eq_false. rewrite Hc. intros [? ?]. done.
  - split; [done|]. symmetry. by apply contents_absent.
Qed.

Lemma repr_insert r l v : repr r l -> repr (Insert v r) (recency_insert v l).
Proof. intros [Hwf <-]. split; [by apply wf_insert|by apply contents_insert]. Qed.

Lemma repr_size r l : repr r l -> Size r = length l.
Proof. intros [_ <-]. unfold Size, contents. by rewrite length_fmap. Qed.

Lemma lru_exec_refines c r l :
  repr r l -> fst (exec c r) = fst (exec_spec c l) /\
              repr (snd (exec c r)) (snd (exec_spec c l)).
Proof.
  intros Hr. destruct c as [v|v| |]; cbn [exec exec_spec].
  - split; [done|by apply repr_insert].
  - pose proof (repr_erase r l v Hr) as [He Hr'].
    destruct (Erase v r), (recency_erase v l). simpl in *. split; [congruence|done].
  - pose proof (repr_victim r l Hr) as [He Hr'].
    destruct (Victim r), (recency_victim l). simpl in *. split; [congruence|done].
  - simpl. by rewrite (repr_size r l Hr).
Qed.

Lemma lru_run_refines cs r l :
  repr r l -> fst (run exec cs r) = fst (run exec_spec cs l) /\
              repr (snd (run exec cs r)) (snd (run exec_spec cs l)).
Proof.
  revert r l. induction cs as [|c cs IH]; intros r l Hr; simpl; [done|].
  pose proof (lru_exec_refines c r l Hr) as [He Hr'].
  destruct (exec c r) as [a r'], (exec_spec c l) as [a' l']. simpl in *. subst a'.
  pose proof (IH r' l' Hr') as [Hi Hf].
  destruct (run exec cs r'), (run exec_spec cs l'). simpl in *. split; [congruence|done].
Qed.

(** C13: on a fresh replacer every sequence of [Insert], [Erase], [Victim] and [Size]
    calls answers exactly what the recency list answers: the victim is always the
    value inserted least recently among those still present, [Erase] says whether
    the value was present, [Size] counts the values. *)
Theorem lru_refines_recency_list (cs : list (call K)) :
  fst (run exec cs empty) = fst (run exec_spec cs []) /\
  repr (snd (run exec cs empty)) (snd (run exec_spec cs [])).
Proof. apply lru_run_refines. split; [apply wf_empty|done]. Qed.
End Lemmas.

Section Instances.
Context {K : Type} `{Countable K}.

#[export] Instance lru_replacer : Replacer K (LRUReplacer K) := {
  rp_insert := Insert;
  rp_victim := Victim;
  rp_erase := Erase;
  rp_size := Size
}.

#[export] Instance lru_replacer_laws : ReplacerLaws K (LRUReplacer K).
Proof.
  refine {| rp_repr := repr |}.
  - intros r l [Hwf <-]. by apply wf_contents_nodup.
  - intros. by apply repr_insert.
  - intros. by apply repr_victim.
  - intros. by apply repr_erase.
  - intros. by apply repr_size.
Defined.
End Instances.

(** The calls of the unit test of the replacer and its expected answers. *)
Example lru_sample_run :
  fst (run exec (map CInsert [1; 2; 3; 4; 5; 6; 1]%Z ++
     [CSize; CVictim; CVictim; CVictim; CErase 4%Z; CErase 6%Z; CSize; CVictim; CVictim]) empty)
  = replicate 7 AUnit ++
    [ASize 6; AVictim (Some 2%Z); AVictim (Some 3%Z); AVictim (Some 4%Z);
     AErased false; AErased true; ASize 2; AVictim (Some 5%Z); AVictim (Some 1%Z)].
Proof. vm_compute. reflexivity. Qed.
End LRU.
