(* ===== verification/ExtendibleHash.v ===== *)
(** * Extendible hashing (src/src/hash/extendible_hash.cpp)

    Buckets are shared by several directory entries through [shared_ptr], so the
    model keeps a heap of buckets, [heap], and the directory
    [bucket_address_table_] holds indices into it; [make_shared] appends a bucket.
    A bucket no longer pointed to stays in [heap] unreachable.  [hash] is
    [std::hash<K>], whose value the language leaves to the implementation: it is a
    parameter.  The global latch serialises the methods and is not represented. *)

From stdpp Require Import prelude gmap list.
From Stdlib Require Import ZArith Lia.
From S2P Require Import Prelude Interfaces.

Local Open Scope Z_scope.

Module EHash.
Section Defs.
Context {K V : Type} `{EqDecision K}.
Variable hash : K -> Z.

Record Bucket := mkBucket {
  local_depth_ : nat;
  kv_records_ : list (K * V)
}.

Record Table := mkTable {
  size_ : nat;
  global_depth_ : nat;
  num_buckets_ : nat;
  bucket_address_table_ : list nat;
  heap : list Bucket
}.

Definition create (size : nat) : Table := mkTable size 0 1 [0%nat] [mkBucket 0 []].

(** [HashKey]: the low [global_depth_] bits of the hash. *)
Definition HashKey (key : K) (t : Table) : Z :=
  hash key mod Z.shiftl 1 (Z.of_nat (global_depth_ t)).

Definition GetGlobalDepth (t : Table) : nat := global_depth_ t.
Definition GetNumBuckets (t : Table) : nat := num_buckets_ t.

(** The bucket a directory entry points to, with its heap address. *)
Definition deref (t : Table) (bucket_id : nat) : result (nat * Bucket) :=
  let* p := from_option_r MemFault (bucket_address_table_ t !! bucket_id) in
  let* b := from_option_r MemFault (heap t !! p) in
  Ok (p, b).

Definition GetLocalDepth (bucket_id : Z) (t : Table) : result nat :=
  assert! bucket_id <? Z.shiftl 1 (Z.of_nat (global_depth_ t));;
  assert! 0 <=? bucket_id;;
  let* pb := deref t (Z.to_nat bucket_id) in
  Ok (local_depth_ pb.2).

(** [std::find_if] on the key. *)
Fixpoint find_record (key : K) (rs : list (K * V)) : option V :=
  match rs with
  | [] => None
  | (k, v) :: rs' => if decide (k = key) then Some v else find_record key rs'
  end.

Definition Find (key : K) (t : Table) : result (option V) :=
  let* pb := deref t (Z.to_nat (HashKey key t)) in
  Ok (find_record key (kv_records_ pb.2)).

(** [std::remove_if]: the kept records moved to the front, the tail of the vector
    left as it was; returns the vector and the new logical end. *)
Definition remove_if (key : K) (rs : list (K * V)) : list (K * V) * nat :=
  let kept := filter (fun r => r.1 <> key) rs in
  (kept ++ drop (length kept) rs, length kept).

Definition set_bucket (t : Table) (p : nat) (b : Bucket) : Table :=
  mkTable (size_ t) (global_depth_ t) (num_buckets_ t) (bucket_address_table_ t)
          (<[p := b]> (heap t)).

Definition Remove (key : K) (t : Table) : result (bool * Table) :=
  let* pb := deref t (Z.to_nat (HashKey key t)) in
  let '(p, b) := pb in
  let '(rs, changed) := remove_if key (kv_records_ b) in
  if bool_decide (length (kv_records_ b) <> changed) then
    Ok (true, set_bucket t p (mkBucket (local_depth_ b) (removelast rs)))
  else Ok (false, set_bucket t p (mkBucket (local_depth_ b) rs)).

(** [it->second = value] on the first record with the key. *)
Fixpoint overwrite (key : K) (value : V) (rs : list (K * V)) : list (K * V) :=
  match rs with
  | [] => []
  | (k, v) :: rs' =>
      if decide (k = key) then (k, value) :: rs' else (k, v) :: overwrite key value rs'
  end.

(** [hasher(k) & (1 << (depth - 1))] as a condition. *)
Definition high_bit (depth : nat) (h : Z) : bool :=
  negb (Z.land h (Z.shiftl 1 (Z.of_nat depth - 1)) =? 0).

(** Moves the records with the high bit set to a new bucket and repoints the
    directory entries that end like [bucket_id]: the case global > local. *)
Definition split_bucket (t : Table) (bucket_id p : nat) (b : Bucket)
    (extra : list (K * V)) : Table :=
  let depth := S (local_depth_ b) in
  let records := kv_records_ b ++ extra in
  let newp := length (heap t) in
  let new_bucket := mkBucket depth (filter (fun r => high_bit depth (hash r.1) = true) records) in
  let bucket := mkBucket depth (filter (fun r => high_bit depth (hash r.1) <> true) records) in
  let half := Z.shiftl 1 (Z.of_nat depth - 1) in
  let local_id := Z.of_nat bucket_id mod half in
  mkTable (size_ t) (global_depth_ t) (num_buckets_ t)
    (imap (fun i q =>
       if Z.land (Z.of_nat i) (half - 1) =? local_id
       then if high_bit depth (Z.of_nat i) then newp else p
       else q) (bucket_address_table_ t))
    (<[p := bucket]> (heap t) ++ [new_bucket]).

(** Doubles the directory and splits the full bucket: the case global = local. *)
Definition expand (t : Table) (bucket_id p : nat) (b : Bucket) : result Table :=
  let depth := S (local_depth_ b) in
  let newp := length (heap t) in
  let new_bucket :=
    mkBucket depth (filter (fun r => high_bit depth (hash r.1) = true) (kv_records_ b)) in
  let bucket :=
    mkBucket depth (filter (fun r => high_bit depth (hash r.1) <> true) (kv_records_ b)) in
  if 2 * Z.of_nat (num_buckets_ t) <? 2 ^ 31 then
    Ok (mkTable (size_ t) (S (global_depth_ t)) (2 * num_buckets_ t)
      (bucket_address_table_ t ++
       imap (fun j q => if decide (j = bucket_id) then newp else q)
            (bucket_address_table_ t))
      (<[p := bucket]> (heap t) ++ [new_bucket]))
  else Fail MemFault.

Fixpoint insert_loop (fuel : nat) (key : K) (value : V) (t : Table) : result Table :=
  match fuel with
  | O => Fail NoFuel
  | S fuel' =>
      let bucket_id := Z.to_nat (HashKey key t) in
      let* pb := deref t bucket_id in
      let '(p, b) := pb in
      match find_record key (kv_records_ b) with
      | Some _ =>
          Ok (set_bucket t p (mkBucket (local_depth_ b) (overwrite key value (kv_records_ b))))
      | None =>
          if (length (kv_records_ b) <? size_ t)%nat then
            Ok (set_bucket t p (mkBucket (local_depth_ b) (kv_records_ b ++ [(key, value)])))
          else if (local_depth_ b <? global_depth_ t)%nat then
            Ok (split_bucket t bucket_id p b [(key, value)])
          else
            let* t' := expand t bucket_id p b in
            insert_loop fuel' key value t'
      end
  end.

(** The directory has at most 2^30 entries, so 32 rounds suffice
    ([insert_loop_total]). *)
Definition Insert (key : K) (value : V) (t : Table) : result Table :=
  insert_loop 32 key value t.

(** Client calls and their answers. *)
Inductive call :=
| CFind (k : K)
| CRemove (k : K)
| CInsert (k : K) (v : V).

Inductive answer :=
| AFound (o : option V)
| ARemoved (b : bool)
| AUnit.

Definition exec (c : call) (t : Table) : result (answer * Table) :=
  match c with
  | CFind k => let* o := Find k t in Ok (AFound o, t)
  | CRemove k => let* bt := Remove k t in Ok (ARemoved bt.1, bt.2)
  | CInsert k v => let* t' := Insert k v t in Ok (AUnit, t')
  end.

Fixpoint run (cs : list call) (t : Table) : result (list answer * Table) :=
  match cs with
  | [] => Ok ([], t)
  | c :: cs' =>
      let* at1 := exec c t in
      let* out := run cs' at1.2 in Ok (at1.1 :: out.1, out.2)
  end.

Definition call_key (c : call) : K :=
  match c with CFind k => k | CRemove k => k | CInsert k _ => k end.

(** ** Invariant and abstraction *)

(** Two directory indices agree on their low [l] bits. *)
Definition same_low (l : nat) (a b : Z) : Prop := a mod 2 ^ Z.of_nat l = b mod 2 ^ Z.of_nat l.

#[global] Instance same_low_dec l a b : Decision (same_low l a b).
Proof. unfold same_low. apply _. Defined.

(** A bucket reached from directory entry [i]. *)
Record bucket_ok (t : Table) (i : nat) (b : Bucket) : Prop := {
  bo_depth : (local_depth_ b <= global_depth_ t)%nat;
  bo_keys : NoDup (kv_records_ b).*1;
  bo_len : (length (kv_records_ b) <= size_ t + local_depth_ b)%nat;
  bo_hash k v : (k, v) ∈ kv_records_ b -> same_low (local_depth_ b) (hash k) (Z.of_nat i)
}.

Record wf (t : Table) : Prop := {
  wf_num : num_buckets_ t = (2 ^ global_depth_ t)%nat;
  wf_len : length (bucket_address_table_ t) = num_buckets_ t;
  wf_bucket i p :
    bucket_address_table_ t !! i = Some p ->
    exists b, heap t !! p = Some b /\ bucket_ok t i b;
  wf_share i p b j :
    bucket_address_table_ t !! i = Some p -> heap t !! p = Some b ->
    (j < num_buckets_ t)%nat ->
    bucket_address_table_ t !! j = Some p <-> same_low (local_depth_ b) (Z.of_nat j) (Z.of_nat i)
}.

(** The map the table stands for. *)
Definition lookup_table (t : Table) (k : K) : option V :=
  match Find k t with Ok o => o | Fail _ => None end.
End Defs.
Arguments Bucket : clear implicits.
Arguments Table : clear implicits.
Arguments call : clear implicits.
Arguments answer : clear implicits.

Section Repr.
Context {K V : Type} `{Countable K}.
Variable hash : K -> Z.

(** The same calls on a finite map. *)
Definition exec_spec (c : call K V) (m : gmap K V) : answer V * gmap K V :=
  match c with
  | CFind k => (AFound (m !! k), m)
  | CRemove k => (ARemoved (bool_decide (is_Some (m !! k))), delete k m)
  | CInsert k v => (AUnit, <[k := v]> m)
  end.

Fixpoint run_spec (cs : list (call K V)) (m : gmap K V) : list (answer V) * gmap K V :=
  match cs with
  | [] => ([], m)
  | c :: cs' =>
      let '(a, m1) := exec_spec c m in
      let '(out, m2) := run_spec cs' m1 in (a :: out, m2)
  end.

(** The keys whose hashes differ in their 30 low bits: an entry of the directory is
    an [int], so the directory cannot tell further bits apart. *)
Definition separated (P : K -> Prop) : Prop :=
  forall k1 k2, P k1 -> P k2 -> same_low 30 (hash k1) (hash k2) -> k1 = k2.

Definition repr (t : Table K V) (m : gmap K V) : Prop :=
  wf hash t /\ forall k, lookup_table hash t k = m !! k.
End Repr.

(** ** Arithmetic of the low bits *)

Lemma same_low_le l l' a b : (l' <= l)%nat -> same_low l a b -> same_low l' a b.
Proof.
  unfold same_low. intros Hl Hab.
  assert (E : 2 ^ Z.of_nat l = 2 ^ Z.of_nat l' * 2 ^ Z.of_nat (l - l')).
  { rewrite <- Z.pow_add_r by lia. f_equal. lia. }
  assert (Hm : forall z, z mod 2 ^ Z.of_nat l' = (z mod 2 ^ Z.of_nat l) mod 2 ^ Z.of_nat l').
  { intros z. rewrite E. rewrite Z.rem_mul_r by (try apply Z.pow_nonzero; lia).
    rewrite Z.mul_comm, Z.mod_add by (apply Z.pow_nonzero; lia).
    by rewrite Z.mod_mod by (apply Z.pow_nonzero; lia). }
  rewrite (Hm a), (Hm b). by rewrite Hab.
Qed.

Lemma mod_step l z :
  z mod 2 ^ Z.of_nat (S l) =
  z mod 2 ^ Z.of_nat l + 2 ^ Z.of_nat l * Z.b2z (Z.testbit z (Z.of_nat l)).
Proof.
  rewrite Nat2Z.inj_succ, Z.pow_succ_r, Z.mul_comm by lia.
  rewrite Z.rem_mul_r by (try apply Z.pow_nonzero; lia).
  by rewrite Z.testbit_spec' by lia.
Qed.

Lemma high_bit_testbit l h : high_bit (S l) h = Z.testbit h (Z.of_nat l).
Proof.
  unfold high_bit. replace (Z.of_nat (S l) - 1) with (Z.of_nat l) by lia.
  rewrite Z.shiftl_1_l. destruct (Z.testbit h (Z.of_nat l)) eqn:E.
  - destruct (Z.eqb_spec (Z.land h (2 ^ Z.of_nat l)) 0) as [H0|]; [|done].
    assert (Hb : Z.testbit (Z.land h (2 ^ Z.of_nat l)) (Z.of_nat l) = false).
    { rewrite H0. apply Z.testbit_0_l. }
    rewrite Z.land_spec, E, Z.pow2_bits_true in Hb by lia. done.
  - apply negb_false_iff, Z.eqb_eq. apply Z.bits_inj'. intros n Hn.
    rewrite Z.land_spec, Z.testbit_0_l.
    destruct (decide (n = Z.of_nat l)) as [->|Hne]; [by rewrite E|].
    rewrite Z.pow2_bits_false by lia. apply andb_false_r.
Qed.

Lemma same_low_S l a b :
  same_low (S l) a b <->
  same_low l a b /\ Z.testbit a (Z.of_nat l) = Z.testbit b (Z.of_nat l).
Proof.
  unfold same_low. rewrite !mod_step.
  assert (0 < 2 ^ Z.of_nat l) by (apply Z.pow_pos_nonneg; lia).
  pose proof (Z.mod_pos_bound a (2 ^ Z.of_nat l)).
  pose proof (Z.mod_pos_bound b (2 ^ Z.of_nat l)).
  destruct (Z.testbit a (Z.of_nat l)), (Z.testbit b (Z.of_nat l)); simpl Z.b2z;
    split; intros; try split; try tauto; try lia;
    match goal with H : _ /\ _ |- _ => destruct H; discriminate end.
Qed.

Lemma same_low_eq l (i j : nat) :
  (i < 2 ^ l)%nat -> (j < 2 ^ l)%nat -> same_low l (Z.of_nat i) (Z.of_nat j) -> i = j.
Proof.
  unfold same_low. intros Hi Hj Hs.
  assert (Z.of_nat (2 ^ l) = 2 ^ Z.of_nat l) by (rewrite Nat2Z.inj_pow; done).
  rewrite !Z.mod_small in Hs by lia. lia.
Qed.

Lemma land_ones_eqb l (i bid : nat) :
  (Z.land (Z.of_nat i) (Z.shiftl 1 (Z.of_nat (S l) - 1) - 1) =?
   Z.of_nat bid mod Z.shiftl 1 (Z.of_nat (S l) - 1)) =
  bool_decide (same_low l (Z.of_nat i) (Z.of_nat bid)).
Proof.
  replace (Z.of_nat (S l) - 1) with (Z.of_nat l) by lia.
  rewrite Z.shiftl_1_l, Z.sub_1_r, <- Z.ones_equiv, Z.land_ones by lia.
  unfold same_low. destruct (Z.eqb_spec (Z.of_nat i mod 2 ^ Z.of_nat l)
    (Z.of_nat bid mod 2 ^ Z.of_nat l)); case_bool_decide; done.
Qed.
(** ** Records of one bucket *)

Section Records.
Context {K V : Type} `{EqDecision K}.
Implicit Types rs : list (K * V).

Lemma find_record_None k rs : find_record k rs = None <-> k ∉ rs.*1.
Proof.
  induction rs as [|[k' v] rs IH]; simpl; [split; [intros _ H0; inversion H0|done]|].
  rewrite not_elem_of_cons. case_decide; [subst; split; [done|tauto]|].
  rewrite IH. split; [intros; split; congruence || done|tauto].
Qed.

Lemma find_record_elem k v rs : find_record k rs = Some v -> (k, v) ∈ rs.
Proof.
  induction rs as [|[k' v'] rs IH]; simpl; [done|].
  case_decide; [intros [= ->]; subst; left|]. intros. right. auto.
Qed.

Lemma find_record_app k rs1 rs2 :
  find_record k (rs1 ++ rs2) =
  match find_record k rs1 with Some v => Some v | None => find_record k rs2 end.
Proof. induction rs1 as [|[k' v] rs1 IH]; simpl; [done|]. by case_decide. Qed.

Lemma find_record_filter_key (P : K -> Prop) `{!forall x, Decision (P x)} k rs :
  find_record k (filter (fun r => P r.1) rs) =
  if decide (P k) then find_record k rs else None.
Proof.
  induction rs as [|[k' v] rs IH]; simpl; [by case_decide|].
  rewrite filter_cons. cbn [fst]. destruct (decide (P k')) as [HP|HP].
  - cbn [find_record]. destruct (decide (k' = k)) as [->|]; [|done].
    by rewrite decide_True.
  - rewrite IH. destruct (decide (k' = k)) as [->|]; [|done].
    by rewrite !decide_False.
Qed.

Lemma find_record_overwrite k k' v rs :
  k' ∈ rs.*1 ->
  find_record k (overwrite k' v rs) = if decide (k = k') then Some v else find_record k rs.
Proof.
  induction rs as [|[k0 v0] rs IH]; simpl; [intros Hin; inversion Hin|].
  intros Hin. destruct (decide (k0 = k')) as [->|Hne]; simpl.
  - destruct (decide (k' = k)), (decide (k = k')); congruence.
  - apply elem_of_cons in Hin as [?|Hin]; [congruence|]. rewrite (IH Hin).
    destruct (decide (k0 = k)), (decide (k = k')); congruence.
Qed.

Lemma overwrite_keys k v rs : (overwrite k v rs).*1 = rs.*1.
Proof.
  induction rs as [|[k0 v0] rs IH]; [done|]. cbn [overwrite].
  case_decide; rewrite !fmap_cons; [done|]. by rewrite IH.
Qed.

Lemma keys_filter_nodup (P : K * V -> Prop) `{!forall x, Decision (P x)} rs :
  NoDup rs.*1 -> NoDup (filter P rs).*1.
Proof.
  induction rs as [|r rs IH]; [done|]. rewrite fmap_cons. intros [Hr Hnd]%NoDup_cons.
  rewrite filter_cons. case_decide; [|by apply IH].
  rewrite fmap_cons. constructor; [|by apply IH]. contradict Hr.
  apply list_elem_of_fmap in Hr as (x & -> & Hx).
  apply list_elem_of_filter in Hx as [_ Hx]. apply list_elem_of_fmap. eauto.
Qed.

(** With distinct keys [remove_if] drops at most one record, so the [pop_back] that
    follows it leaves exactly the kept ones. *)
Lemma length_filter_key k rs :
  NoDup rs.*1 ->
  length rs =
  (length (filter (fun r => r.1 <> k) rs) + (if decide (k ∈ rs.*1) then 1 else 0))%nat.
Proof.
  induction rs as [|[k0 v0] rs IH]; [done|].
  rewrite fmap_cons. intros [Hr Hnd]%NoDup_cons.
  rewrite filter_cons. cbn [fst]. specialize (IH Hnd).
  destruct (decide (k0 <> k)) as [Hne|He]; cbn [length].
  - rewrite IH. destruct (decide (k ∈ rs.*1)) as [Hi|Hi], (decide (k ∈ k0 :: rs.*1)) as [Hj|Hj];
      rewrite elem_of_cons in Hj; try lia; exfalso; intuition congruence.
  - assert (k0 = k) as -> by (destruct (decide (k0 = k)); tauto).
    rewrite IH, decide_False, decide_True by (done || left). lia.
Qed.

Lemma remove_if_pop_back k rs :
  NoDup rs.*1 -> k ∈ rs.*1 ->
  removelast (remove_if k rs).1 = filter (fun r => r.1 <> k) rs.
Proof.
  intros Hnd Hin. pose proof (length_filter_key k rs Hnd) as Hl.
  destruct (decide (k ∈ rs.*1)); [|done]. unfold remove_if. cbn [fst].
  set (kept := filter (fun r => r.1 <> k) rs) in *.
  assert (Hd : length (drop (length kept) rs) = 1%nat) by (rewrite length_drop; lia).
  destruct (drop (length kept) rs) as [|x [|y d]]; try done.
  apply removelast_last.
Qed.
End Records.

(** ** The operations on a well-formed table *)

Section Main.
Context {K V : Type} `{Countable K}.
Variable hash : K -> Z.
Implicit Types t : Table K V.
Implicit Types m : gmap K V.

Abbreviation idx k t := (Z.to_nat (HashKey hash k t)).

Lemma idx_spec t k :
  wf hash t -> (idx k t < num_buckets_ t)%nat /\
  same_low (global_depth_ t) (Z.of_nat (idx k t)) (hash k).
Proof.
  intros Hwf. unfold HashKey, same_low. rewrite Z.shiftl_1_l.
  assert (0 < 2 ^ Z.of_nat (global_depth_ t)) by (apply Z.pow_pos_nonneg; lia).
  pose proof (Z.mod_pos_bound (hash k) (2 ^ Z.of_nat (global_depth_ t))).
  rewrite (wf_num _ _ Hwf), Z2Nat.id, Z.mod_mod by lia. split; [|done].
  apply Nat2Z.inj_lt. rewrite Nat2Z.inj_pow, Z2Nat.id by lia. simpl. lia.
Qed.

Lemma entry_spec t i :
  wf hash t -> (i < num_buckets_ t)%nat ->
  exists p b, bucket_address_table_ t !! i = Some p /\ heap t !! p = Some b /\
              deref t i = Ok (p, b) /\ bucket_ok hash t i b.
Proof.
  intros Hwf Hi. rewrite <- (wf_len _ _ Hwf) in Hi.
  destruct (lookup_lt_is_Some_2 _ _ Hi) as [p Hp].
  destruct (wf_bucket _ _ Hwf i p Hp) as (b & Hb & Hok).
  exists p, b. unfold deref. rewrite Hp. simpl. by rewrite Hb.
Qed.

Lemma lookup_table_spec t k p b :
  bucket_address_table_ t !! idx k t = Some p -> heap t !! p = Some b ->
  lookup_table hash t k = find_record k (kv_records_ b).
Proof.
  intros Hp Hb. unfold lookup_table, Find, deref. rewrite Hp. simpl. by rewrite Hb.
Qed.

(** Any record of a bucket is looked up at an index that reaches the bucket. *)
Lemma bucket_shared t i p b k :
  wf hash t -> bucket_address_table_ t !! i = Some p -> heap t !! p = Some b ->
  bucket_address_table_ t !! idx k t = Some p <->
  same_low (local_depth_ b) (hash k) (Z.of_nat i).
Proof.
  intros Hwf Hp Hb. destruct (idx_spec t k Hwf) as [Hlt Hlow].
  rewrite (wf_share _ _ Hwf i p b (idx k t) Hp Hb Hlt).
  destruct (wf_bucket _ _ Hwf i p Hp) as (b' & Hb' & Hok).
  assert (b' = b) as -> by congruence.
  apply (same_low_le _ _ _ _ (bo_depth _ _ _ _ Hok)) in Hlow.
  unfold same_low in *. rewrite Hlow. done.
Qed.

(** Replacing the records of the bucket of [key], at its depth. *)
Lemma update_repr t m key p b rs ov :
  repr hash t m ->
  bucket_address_table_ t !! idx key t = Some p -> heap t !! p = Some b ->
  NoDup rs.*1 -> (length rs <= size_ t + local_depth_ b)%nat ->
  (forall k v, (k, v) ∈ rs -> k = key \/ (k, v) ∈ kv_records_ b) ->
  (forall k, find_record k rs = if decide (k = key) then ov else find_record k (kv_records_ b)) ->
  repr hash (set_bucket t p (mkBucket (local_depth_ b) rs)) (partial_alter (fun _ => ov) key m).
Proof.
  intros [Hwf Hm] Hp Hb Hnd Hlen Hin Hfind.
  assert (Hplt : (p < length (heap t))%nat) by by eapply lookup_lt_Some.
  assert (Hh : forall q, heap (set_bucket t p (mkBucket (local_depth_ b) rs)) !! q =
    if decide (q = p) then Some (mkBucket (local_depth_ b) rs) else heap t !! q).
  { intros q. unfold set_bucket. simpl. case_decide; [subst|].
    - by rewrite list_lookup_insert_eq.
    - by rewrite list_lookup_insert_ne. }
  split.
  - split; simpl; try apply Hwf.
    + intros i q Hq. rewrite Hh. destruct (wf_bucket _ _ Hwf i q Hq) as (b' & Hb' & Hok).
      case_decide as Hd; [|exists b'; split; [done|by destruct Hok]]. subst q.
      assert (b' = b) as -> by congruence. destruct Hok as [Hdep Hk Hl Hs].
      eexists. split; [done|]. split; simpl; auto.
      intros k v [->|Hkv]%Hin; [|by eapply Hs].
      apply (bucket_shared t i p b key Hwf Hq Hb). done.
    + intros i q b' j Hq. rewrite Hh. case_decide; intros Hb' Hj.
      * simplify_eq. simpl. by apply (wf_share _ _ Hwf).
      * by apply (wf_share _ _ Hwf).
  - intros k. destruct (entry_spec t (idx k t) Hwf) as (q & b' & Hq & Hb' & _ & _).
    { by apply idx_spec. }
    rewrite (lookup_table_spec _ k q (if decide (q = p) then mkBucket (local_depth_ b) rs else b'));
      [|done|rewrite Hh; by case_decide].
    rewrite lookup_partial_alter. rewrite <- Hm, (lookup_table_spec t k q b' Hq Hb').
    destruct (decide (q = p)) as [->|Hne]; simpl.
    + assert (b' = b) as -> by congruence. rewrite Hfind.
      destruct (decide (k = key)), (decide (key = k)); congruence.
    + destruct (decide (key = k)) as [->|]; [|done]. congruence.
Qed.

Lemma same_low_key t i b k v :
  bucket_ok hash t i b -> (k, v) ∈ kv_records_ b ->
  same_low (local_depth_ b) (hash k) (Z.of_nat i).
Proof. intros Hok. apply (bo_hash _ _ _ _ Hok). Qed.

(** Splitting a bucket whose depth is below the global one, adding [extra] records
    that belong to it. *)
Section Split.
Variables (t : Table K V) (m : gmap K V) (bid p : nat)
  (b : Bucket K V) (extra : list (K * V)).
Hypotheses (Hr : repr hash t m) (Hp : bucket_address_table_ t !! bid = Some p)
  (Hb : heap t !! p = Some b) (Hlt : (local_depth_ b < global_depth_ t)%nat)
  (Hnd : NoDup (kv_records_ b ++ extra).*1)
  (Hlen : (length extra <= 1)%nat)
  (Hex : forall k v, (k, v) ∈ extra -> same_low (local_depth_ b) (hash k) (Z.of_nat bid)).

Abbreviation t' := (split_bucket hash t bid p b extra).
Abbreviation l := (local_depth_ b).

Lemma split_table_lookup (i : nat) :
  bucket_address_table_ t' !! i =
  q ← bucket_address_table_ t !! i;
  Some (if decide (q = p)
        then if Z.testbit (Z.of_nat i) (Z.of_nat l) then length (heap t) else p
        else q).
Proof.
  unfold split_bucket. simpl. rewrite list_lookup_imap.
  destruct (bucket_address_table_ t !! i) as [q|] eqn:Hq; [|done]. simpl. f_equal.
  rewrite land_ones_eqb, high_bit_testbit. destruct Hr as [Hwf _].
  assert (Hi : (i < num_buckets_ t)%nat).
  { rewrite <- (wf_len _ _ Hwf). by eapply lookup_lt_Some. }
  pose proof (wf_share _ _ Hwf bid p b i Hp Hb Hi) as Hs. rewrite Hq in Hs.
  case_bool_decide as Hd; case_decide as He; try done.
  - exfalso. apply He. apply Hs in Hd. congruence.
  - exfalso. apply Hd, Hs. congruence.
Qed.

Lemma split_heap_lookup (q : nat) :
  heap t' !! q =
  if decide (q = p) then
    Some (mkBucket (S l) (filter (fun r => ~ high_bit (S l) (hash r.1) = true) (kv_records_ b ++ extra)))
  else if decide (q = length (heap t)) then
    Some (mkBucket (S l) (filter (fun r => high_bit (S l) (hash r.1) = true) (kv_records_ b ++ extra)))
  else heap t !! q.
Proof.
  assert (Hplt : (p < length (heap t))%nat) by by eapply lookup_lt_Some.
  unfold split_bucket. simpl. destruct (decide (q = p)) as [->|Hne].
  - rewrite lookup_app_l by (rewrite length_insert; lia). by rewrite list_lookup_insert_eq.
  - destruct (decide (q = length (heap t))) as [->|Hne'].
    + rewrite lookup_app_r by (rewrite length_insert; lia).
      rewrite length_insert, Nat.sub_diag. done.
    + destruct (decide (q < length (heap t))%nat).
      * rewrite lookup_app_l by (rewrite length_insert; lia).
        by rewrite list_lookup_insert_ne.
      * rewrite !lookup_ge_None_2; [done|lia|rewrite length_app, length_insert; simpl; lia].
Qed.

Lemma split_records_low k v :
  (k, v) ∈ kv_records_ b ++ extra -> same_low l (hash k) (Z.of_nat bid).
Proof.
  destruct Hr as [Hwf _]. rewrite elem_of_app. intros [Hin|Hin]; [|by eapply Hex].
  destruct (wf_bucket _ _ Hwf bid p Hp) as (b' & Hb' & Hok).
  assert (b' = b) as -> by congruence. by eapply same_low_key.
Qed.
Lemma split_newp_fresh (i q : nat) :
  bucket_address_table_ t !! i = Some q -> q <> length (heap t).
Proof.
  destruct Hr as [Hwf _]. intros Hq. destruct (wf_bucket _ _ Hwf i q Hq) as (b' & Hb' & _).
  apply lookup_lt_Some in Hb'. lia.
Qed.

Lemma split_old_low (i : nat) :
  bucket_address_table_ t !! i = Some p -> same_low l (Z.of_nat i) (Z.of_nat bid).
Proof.
  destruct Hr as [Hwf _]. intros Hi. apply (wf_share _ _ Hwf bid p b i Hp Hb); [|done].
  rewrite <- (wf_len _ _ Hwf). by eapply lookup_lt_Some.
Qed.

(** Either half, reached from an index whose bit agrees with the half. *)
Lemma split_half_ok (i : nat) (P : K * V -> Prop) `{!forall x, Decision (P x)} :
  bucket_address_table_ t !! i = Some p ->
  (forall k v, P (k, v) -> Z.testbit (hash k) (Z.of_nat l) = Z.testbit (Z.of_nat i) (Z.of_nat l)) ->
  bucket_ok hash t' i (mkBucket (S l) (filter P (kv_records_ b ++ extra))).
Proof.
  destruct Hr as [Hwf _]. intros Hi HP. split; simpl.
  - lia.
  - by apply keys_filter_nodup.
  - destruct (wf_bucket _ _ Hwf bid p Hp) as (b' & Hb' & Hok).
    assert (b' = b) as -> by congruence. pose proof (bo_len _ _ _ _ Hok).
    pose proof (length_filter P (kv_records_ b ++ extra)).
    rewrite length_app in *. lia.
  - intros k v [HPk Hin]%list_elem_of_filter. apply same_low_S.
    split; [|by eapply HP]. apply split_old_low in Hi. apply split_records_low in Hin.
    unfold same_low in *. congruence.
Qed.

Lemma high_bit_false_not (h : Z) :
  ~ high_bit (S l) h = true -> Z.testbit h (Z.of_nat l) = false.
Proof. rewrite high_bit_testbit. by destruct (Z.testbit h (Z.of_nat l)). Qed.

Lemma split_wf : wf hash t'.
Proof.
  pose proof Hr as [Hwf _]. split.
  - apply Hwf.
  - unfold split_bucket. simpl. rewrite length_imap. apply Hwf.
  - intros i q. rewrite split_table_lookup.
    destruct (bucket_address_table_ t !! i) as [q0|] eqn:Hq0; [|done]. simpl.
    pose proof (split_newp_fresh i q0 Hq0) as Hne.
    pose proof (split_newp_fresh bid p Hp) as Hne'.
    rewrite split_heap_lookup. destruct (decide (q0 = p)) as [->|Hd].
    + destruct (Z.testbit (Z.of_nat i) (Z.of_nat l)) eqn:Hbit; intros [= <-].
      * rewrite decide_False, decide_True by done. eexists. split; [done|].
        apply split_half_ok; [done|]. simpl. intros k v. by rewrite high_bit_testbit, Hbit.
      * rewrite decide_True by done. eexists. split; [done|].
        apply split_half_ok; [done|]. simpl. intros k v Hk%high_bit_false_not. by rewrite Hk, Hbit.
    + intros [= <-]. rewrite !decide_False by done.
      destruct (wf_bucket _ _ Hwf i q0 Hq0) as (b' & Hb' & Hok).
      exists b'. split; [done|]. by destruct Hok.
  - intros i q b' j. change (num_buckets_ t') with (num_buckets_ t).
    rewrite !split_table_lookup. intros Hi Hh Hj.
    destruct (bucket_address_table_ t !! i) as [qi|] eqn:Hqi; [|done]. simpl in Hi.
    assert (Hj' := Hj). rewrite <- (wf_len _ _ Hwf) in Hj'.
    destruct (lookup_lt_is_Some_2 _ _ Hj') as [qj Hqj]. rewrite Hqj. simpl.
    pose proof (split_newp_fresh i qi Hqi). pose proof (split_newp_fresh j qj Hqj).
    pose proof (split_newp_fresh bid p Hp).
    rewrite split_heap_lookup in Hh.
    destruct (decide (qi = p)) as [->|Hd].
    + pose proof (wf_share _ _ Hwf i p b j Hqi Hb Hj) as Hs. rewrite Hqj in Hs.
      destruct (Z.testbit (Z.of_nat i) (Z.of_nat l)) eqn:Bi; injection Hi as <-;
        rewrite ?(decide_False (P := length (heap t) = p)), ?decide_True in Hh by done;
        injection Hh as <-; cbn [local_depth_]; rewrite same_low_S, <- Hs, Bi;
        (destruct (decide (qj = p)) as [->|]; [|split; [intros|intros []]; congruence]);
        destruct (Z.testbit (Z.of_nat j) (Z.of_nat l)); split; try done;
        try (intros [_ ?]; done); intros; congruence.
    + injection Hi as <-. rewrite !decide_False in Hh by done.
      rewrite <- (wf_share _ _ Hwf i qi b' j Hqi Hh Hj), Hqj.
      destruct (decide (qj = p)) as [->|]; [|done].
      destruct (Z.testbit _ _); split; congruence.
Qed.

Lemma split_lookup k :
  lookup_table hash t' k =
  match m !! k with Some v => Some v | None => find_record k extra end.
Proof.
  pose proof Hr as [Hwf Hm]. rewrite <- Hm.
  destruct (entry_spec t (idx k t) Hwf) as (q & bq & Hq & Hbq & _ & _).
  { by apply idx_spec. }
  assert (Hq' := split_table_lookup (idx k t)). rewrite Hq in Hq'. simpl in Hq'.
  rewrite (lookup_table_spec t k q bq Hq Hbq).
  pose proof (split_newp_fresh bid p Hp) as Hnp. pose proof (split_newp_fresh _ q Hq) as Hnq.
  destruct (decide (q = p)) as [->|Hd].
  - assert (bq = b) as -> by congruence. rewrite <- find_record_app.
    pose proof (idx_spec t k Hwf) as [_ Hlow].
    apply (same_low_le _ (S l)), same_low_S in Hlow as [_ Hbit]; [|lia].
    rewrite Hbit in Hq'. destruct (Z.testbit (hash k) (Z.of_nat l)) eqn:Hk.
    + rewrite (lookup_table_spec t' k _ _ Hq'
        ltac:(rewrite split_heap_lookup, decide_False, decide_True by done; done)).
      cbn [kv_records_]. etrans; [exact (find_record_filter_key (fun x => high_bit (S l) (hash x) = true) k (kv_records_ b ++ extra))|].
      cbv beta. rewrite high_bit_testbit, Hk. done.
    + rewrite (lookup_table_spec t' k _ _ Hq'
        ltac:(rewrite split_heap_lookup, decide_True by done; done)).
      cbn [kv_records_]. etrans; [exact (find_record_filter_key (fun x => high_bit (S l) (hash x) <> true) k (kv_records_ b ++ extra))|].
      cbv beta. rewrite high_bit_testbit, Hk. done.
  - rewrite (lookup_table_spec t' k q bq Hq'
      ltac:(rewrite split_heap_lookup, !decide_False by done; done)).
    assert (find_record k extra = None) as ->; [|by destruct (find_record k _)].
    destruct (find_record k extra) as [v|] eqn:E; [|done].
    apply find_record_elem, Hex, (bucket_shared t bid p b k Hwf Hp Hb) in E. congruence.
Qed.
End Split.

(** Doubling the directory alone changes nothing that can be observed. *)
Definition double t : Table K V :=
  mkTable (size_ t) (S (global_depth_ t)) (2 * num_buckets_ t)
    (bucket_address_table_ t ++ bucket_address_table_ t) (heap t).

Lemma double_lookup_table t (i : nat) :
  length (bucket_address_table_ t) = num_buckets_ t -> (i < 2 * num_buckets_ t)%nat ->
  bucket_address_table_ (double t) !! i =
  bucket_address_table_ t !! (if decide (i < num_buckets_ t)%nat then i else (i - num_buckets_ t)%nat).
Proof.
  intros Hl Hi. unfold double. simpl. case_decide.
  - by rewrite lookup_app_l by lia.
  - rewrite lookup_app_r by lia. by rewrite Hl.
Qed.

Lemma double_low t (i : nat) d :
  wf hash t -> (d <= global_depth_ t)%nat -> (i < 2 * num_buckets_ t)%nat ->
  same_low d (Z.of_nat i)
    (Z.of_nat (if decide (i < num_buckets_ t)%nat then i else (i - num_buckets_ t)%nat)).
Proof.
  intros Hwf Hd Hi. case_decide; [done|]. apply (same_low_le (global_depth_ t)); [done|].
  unfold same_low. rewrite Nat2Z.inj_sub, (wf_num _ _ Hwf), Nat2Z.inj_pow by lia.
  change (Z.of_nat 2) with 2. rewrite <- (Z.mod_add (Z.of_nat i - _) 1) by (apply Z.pow_nonzero; lia).
  f_equal. lia.
Qed.

Lemma double_repr t m : repr hash t m -> repr hash (double t) m.
Proof.
  intros [Hwf Hm]. pose proof (wf_len _ _ Hwf) as Hl.
  assert (Hi0 : forall i : nat, (i < 2 * num_buckets_ t)%nat ->
    ((if decide (i < num_buckets_ t) then i else i - num_buckets_ t) < num_buckets_ t)%nat).
  { intros i Hi. case_decide; lia. }
  assert (Hlt : forall i q, bucket_address_table_ (double t) !! i = Some q ->
    (i < 2 * num_buckets_ t)%nat).
  { intros i q Hq%lookup_lt_Some. unfold double in Hq. simpl in Hq.
    rewrite length_app in Hq. lia. }
  assert (Hwf' : wf hash (double t)).
  { split.
    - unfold double. simpl. rewrite (wf_num _ _ Hwf). lia.
    - unfold double. simpl. rewrite length_app. lia.
    - intros i q Hq. pose proof (Hlt _ _ Hq) as Hi.
      rewrite double_lookup_table in Hq by done.
      destruct (wf_bucket _ _ Hwf _ q Hq) as (b & Hb & [Hd Hk Hn Hh]).
      exists b. split; [done|]. split; simpl; auto.
      intros k v Hkv%Hh. pose proof (double_low t i _ Hwf Hd Hi) as Hlow.
      unfold same_low in *. congruence.
    - intros i q b j Hq Hb Hj. pose proof (Hlt _ _ Hq) as Hi.
      change (num_buckets_ (double t)) with (2 * num_buckets_ t)%nat in Hj.
      rewrite double_lookup_table in Hq |- * by done.
      rewrite (wf_share _ _ Hwf _ q b _ Hq Hb (Hi0 j Hj)).
      destruct (wf_bucket _ _ Hwf _ q Hq) as (b' & Hb' & [Hd _ _ _]).
      change (heap (double t)) with (heap t) in Hb. assert (b' = b) as -> by congruence.
      pose proof (double_low t i _ Hwf Hd Hi) as Li.
      pose proof (double_low t j _ Hwf Hd Hj) as Lj.
      unfold same_low in *. rewrite Li, Lj. done. }
  split; [done|]. intros k. rewrite <- Hm.
  destruct (entry_spec (double t) (idx k (double t)) Hwf') as (q & b & Hq & Hb & _ & Hok).
  { by apply idx_spec. }
  rewrite (lookup_table_spec _ k q b Hq Hb).
  pose proof (idx_spec (double t) k Hwf') as [Hi Hlow].
  rewrite double_lookup_table in Hq by done. symmetry.
  apply lookup_table_spec with q; [|done]. apply (bucket_shared t _ q b k Hwf Hq Hb).
  destruct (wf_bucket _ _ Hwf _ q Hq) as (b' & Hb' & [Hd _ _ _]).
  change (heap (double t)) with (heap t) in Hb. assert (b' = b) as -> by congruence.
  pose proof (double_low t _ _ Hwf Hd Hi) as L.
  apply (same_low_le _ (local_depth_ b)) in Hlow; [|simpl; lia].
  unfold same_low in *. congruence.
Qed.

(** The bit at position [l] of an index below [2 ^ S l]. *)
Lemma testbit_index (l i : nat) :
  (i < 2 ^ S l)%nat -> Z.testbit (Z.of_nat i) (Z.of_nat l) = bool_decide (2 ^ l <= i)%nat.
Proof.
  intros Hi. pose proof (mod_step l (Z.of_nat i)) as E.
  assert (Ep : Z.of_nat (2 ^ l) = 2 ^ Z.of_nat l) by (by rewrite Nat2Z.inj_pow).
  assert (Es : Z.of_nat (2 ^ S l) = 2 * 2 ^ Z.of_nat l).
  { rewrite Nat.pow_succ_r', Nat2Z.inj_mul, Ep. done. }
  rewrite Nat2Z.inj_succ, Z.pow_succ_r in E by lia.
  rewrite (Z.mod_small (Z.of_nat i)) in E by lia.
  case_bool_decide as Hd.
  - rewrite <- (Z.mod_add (Z.of_nat i) (-1)), Z.mod_small in E by lia.
    destruct (Z.testbit _ _); simpl Z.b2z in E; [done|lia].
  - rewrite Z.mod_small in E by lia.
    destruct (Z.testbit _ _); simpl Z.b2z in E; [lia|done].
Qed.

Lemma expand_eq t m bid p b :
  repr hash t m -> bucket_address_table_ t !! bid = Some p -> heap t !! p = Some b ->
  local_depth_ b = global_depth_ t -> 2 * Z.of_nat (num_buckets_ t) < 2 ^ 31 ->
  expand hash t bid p b = Ok (split_bucket hash (double t) bid p b []).
Proof.
  intros [Hwf _] Hp Hb Hl Hov. unfold expand, split_bucket, double. simpl.
  rewrite (proj2 (Z.ltb_lt _ _)) by done. rewrite app_nil_r. do 2 f_equal.
  pose proof (wf_len _ _ Hwf) as Hlen. pose proof (wf_num _ _ Hwf) as Hnum.
  assert (Hbid : (bid < num_buckets_ t)%nat) by (rewrite <- Hlen; by eapply lookup_lt_Some).
  apply list_eq. intros i. rewrite list_lookup_imap.
  destruct (decide (i < num_buckets_ t)%nat) as [Hi|Hi].
  - rewrite !lookup_app_l by lia.
    destruct (bucket_address_table_ t !! i) as [q|] eqn:Hq; [|done]. simpl. f_equal.
    rewrite land_ones_eqb, high_bit_testbit, testbit_index by (simpl; rewrite Hl; lia).
    rewrite (bool_decide_eq_false_2 (2 ^ local_depth_ b <= i)%nat) by (rewrite Hl; lia).
    case_bool_decide as Hs; [|done]. rewrite Hl in Hs.
    apply same_low_eq in Hs; [congruence|lia|lia].
  - rewrite !lookup_app_r by lia. rewrite Hlen, list_lookup_imap.
    destruct (bucket_address_table_ t !! (i - num_buckets_ t)%nat) as [q|] eqn:Hq; [|done].
    simpl. f_equal. assert (Hi2 : (i - num_buckets_ t < num_buckets_ t)%nat).
    { rewrite <- Hlen at 2. by eapply lookup_lt_Some. }
    rewrite land_ones_eqb, high_bit_testbit, testbit_index by (simpl; rewrite Hl; lia).
    rewrite (bool_decide_eq_true_2 (2 ^ local_depth_ b <= i)%nat) by (rewrite Hl; lia).
    pose proof (double_low t i (global_depth_ t) Hwf ltac:(done) ltac:(lia)) as L.
    rewrite decide_False in L by lia.
    case_decide as Hd; case_bool_decide as Hs; try done.
    + exfalso. apply Hs. rewrite Hl. unfold same_low in *. rewrite L, Hd. done.
    + exfalso. apply Hd. apply (same_low_eq (global_depth_ t)); [lia|lia|].
      rewrite Hl in Hs. unfold same_low in *. congruence.
Qed.

Lemma NoDup_snoc_key key value (rs : list (K * V)) :
  key ∉ rs.*1 -> NoDup rs.*1 -> NoDup (rs ++ [(key, value)]).*1.
Proof.
  intros Hni Hnd. rewrite fmap_app. apply NoDup_app. split; [done|]. split; [|apply NoDup_singleton].
  intros x Hx Hx2%list_elem_of_singleton. simpl in Hx2. by subst.
Qed.

Lemma overwrite_elem key value k v (rs : list (K * V)) :
  (k, v) ∈ overwrite key value rs -> k <> key -> (k, v) ∈ rs.
Proof.
  intros Hkv Hne. induction rs as [|[k0 w] rs IH]; [done|].
  cbn [overwrite] in Hkv. case_decide; apply elem_of_cons in Hkv as [[= -> ->]|Hkv]; try done; [by right|left|right; auto].
Qed.

(** The four outcomes of a round, for the bucket [b] that the key falls in. *)
Lemma overwrite_repr t m key value p b v0 :
  repr hash t m -> bucket_address_table_ t !! idx key t = Some p -> heap t !! p = Some b ->
  bucket_ok hash t (idx key t) b -> find_record key (kv_records_ b) = Some v0 ->
  repr hash (set_bucket t p (mkBucket (local_depth_ b) (overwrite key value (kv_records_ b)))) (<[key := value]> m).
Proof.
  intros Hr Hp Hb Hok Hf. assert (Hin : key ∈ (kv_records_ b).*1) by (eapply elem_of_fst, find_record_elem, Hf).
  apply (update_repr t m key p b _ (Some value) Hr Hp Hb).
  - rewrite overwrite_keys by done. apply Hok.
  - rewrite <- (length_fmap fst), overwrite_keys, length_fmap by done. apply Hok.
  - intros k v Hkv. destruct (decide (k = key)) as [->|Hne]; [by left|right]. by eapply overwrite_elem.
  - intros k. by apply find_record_overwrite.
Qed.

Lemma append_repr t m key value p b :
  repr hash t m -> bucket_address_table_ t !! idx key t = Some p -> heap t !! p = Some b ->
  bucket_ok hash t (idx key t) b -> find_record key (kv_records_ b) = None -> (length (kv_records_ b) < size_ t)%nat ->
  repr hash (set_bucket t p (mkBucket (local_depth_ b) (kv_records_ b ++ [(key, value)]))) (<[key := value]> m).
Proof.
  intros Hr Hp Hb Hok Hf Hroom. apply (update_repr t m key p b _ (Some value) Hr Hp Hb).
  - apply NoDup_snoc_key; [by apply find_record_None|apply Hok].
  - rewrite length_app. simpl. lia.
  - intros k v [?|[= -> ->]%list_elem_of_singleton]%elem_of_app; auto.
  - intros k. rewrite find_record_app. simpl. destruct (decide (key = k)) as [->|Hne].
    + by rewrite Hf, decide_True.
    + rewrite decide_False by done. by destruct (find_record k _).
Qed.

Lemma split_insert_repr t m key value p b :
  repr hash t m -> bucket_address_table_ t !! idx key t = Some p -> heap t !! p = Some b ->
  bucket_ok hash t (idx key t) b -> find_record key (kv_records_ b) = None ->
  (local_depth_ b < global_depth_ t)%nat ->
  repr hash (split_bucket hash t (idx key t) p b [(key, value)]) (<[key := value]> m).
Proof.
  intros Hr Hp Hb Hok Hf Hlt. pose proof Hr as [Hwf Hm]. pose proof (lookup_table_spec t key p b Hp Hb) as Hk.
  assert (Hex : forall k v, (k, v) ∈ [(key, value)] -> same_low (local_depth_ b) (hash k) (Z.of_nat (idx key t))).
  { intros k v [= -> ->]%list_elem_of_singleton. by apply (bucket_shared t _ p b key Hwf Hp Hb). }
  pose proof (NoDup_snoc_key key value _ (proj1 (find_record_None _ _) Hf) (bo_keys _ _ _ _ Hok)) as Hnd.
  pose proof (bo_len _ _ _ _ Hok). split; [eapply split_wf; eauto|].
  intros k. rewrite (split_lookup t m (idx key t) p b [(key, value)]) by (done || simpl; lia).
  simpl. rewrite lookup_insert. destruct (decide (key = k)) as [->|Hne].
  - by rewrite <- Hm, Hk, Hf.
  - by destruct (m !! k).
Qed.

(** A full bucket as deep as the directory holds a key that agrees with the new one on
    the bits of the directory. *)
Lemma full_bucket_shallow (D : nat) t m key p b :
  repr hash t m -> bucket_address_table_ t !! idx key t = Some p -> heap t !! p = Some b ->
  bucket_ok hash t (idx key t) b -> find_record key (kv_records_ b) = None ->
  (1 <= size_ t <= length (kv_records_ b))%nat -> local_depth_ b = global_depth_ t ->
  (forall k, is_Some (m !! k) -> same_low D (hash k) (hash key) -> k = key) ->
  (global_depth_ t < D)%nat.
Proof.
  intros [Hwf Hm] Hp Hb Hok Hni%find_record_None Hfull Hgl Hinj.
  destruct (decide (global_depth_ t < D)%nat) as [|HnD]; [done|]. exfalso.
  destruct (kv_records_ b) as [|[k1 v1] rs] eqn:Hrs; [simpl in Hfull; lia|].
  assert (Hin : (k1, v1) ∈ kv_records_ b) by (rewrite Hrs; left).
  assert (Hs1 := bo_hash _ _ _ _ Hok _ _ Hin).
  pose proof (proj1 (bucket_shared t _ p b key Hwf Hp Hb) Hp) as Hs2.
  assert (k1 = key) as ->; [|apply Hni; left].
  apply Hinj; [|apply (same_low_le (local_depth_ b)); [lia|unfold same_low in *; congruence]].
  rewrite <- Hm, (lookup_table_spec t k1 p b); [|by apply (bucket_shared t _ p b k1 Hwf Hp Hb)|done].
  rewrite Hrs. simpl. rewrite decide_True by done. eauto.
Qed.

(** Doubling the directory and splitting the bucket keeps the map. *)
Lemma double_split_repr t m key p b :
  repr hash t m -> bucket_address_table_ t !! idx key t = Some p -> heap t !! p = Some b ->
  bucket_ok hash t (idx key t) b -> local_depth_ b = global_depth_ t ->
  repr hash (split_bucket hash (double t) (idx key t) p b []) m.
Proof.
  intros Hr Hp Hb Hok Hgl. pose proof Hr as [Hwf Hm]. pose proof (double_repr t m Hr) as Hdr.
  pose proof (bo_len _ _ _ _ Hok) as Hbl. pose proof (bo_keys _ _ _ _ Hok) as Hnd.
  assert (Hp2 : bucket_address_table_ (double t) !! idx key t = Some p).
  { pose proof (idx_spec t key Hwf). by rewrite double_lookup_table, decide_True by (try apply Hwf; lia). }
  assert (Hl2 : (local_depth_ b < global_depth_ (double t))%nat) by (simpl; lia).
  assert (He2 : forall (k : K) (v : V), (k, v) ∈ [] -> same_low (local_depth_ b) (hash k) (Z.of_nat (idx key t)))
    by (intros k v Hin; inversion Hin).
  split.
  - eapply split_wf; eauto; try (by rewrite app_nil_r); simpl; lia.
  - intros k. rewrite (split_lookup (double t) m (idx key t) p b []) by (done || simpl; lia).
    simpl. by destruct (m !! k).
Qed.

(** [Insert] returns, within as many rounds as the directory can still grow, once
    hashes of the stored keys and of [key] differ in their [D] low bits. *)
Lemma insert_loop_total (D : nat) key value fuel t m :
  repr hash t m -> (1 <= size_ t)%nat -> (D <= 30)%nat ->
  (D + 2 <= fuel + global_depth_ t)%nat -> (1 <= fuel)%nat ->
  (forall k, is_Some (m !! k) -> same_low D (hash k) (hash key) -> k = key) ->
  exists t', insert_loop hash fuel key value t = Ok t' /\
             repr hash t' (<[key := value]> m) /\ size_ t' = size_ t.
Proof.
  revert t. induction fuel as [|fuel IH]; intros t Hr Hsz HD Hfu Hf1 Hinj; [lia|].
  pose proof Hr as [Hwf Hm]. cbn [insert_loop].
  destruct (entry_spec t (idx key t) Hwf) as (p & b & Hp & Hb & Hde & Hok); [by apply idx_spec|].
  rewrite Hde. simpl. destruct (find_record key (kv_records_ b)) as [v0|] eqn:Hf.
  { eexists. split; [done|]. split; [|done]. by eapply overwrite_repr. }
  destruct (Nat.ltb_spec (length (kv_records_ b)) (size_ t)) as [Hroom|Hfull].
  { eexists. split; [done|]. split; [|done]. by eapply append_repr. }
  destruct (Nat.ltb_spec (local_depth_ b) (global_depth_ t)) as [Hlt|Hge].
  { eexists. split; [done|]. split; [|done]. by eapply split_insert_repr. }
  assert (Hgl : local_depth_ b = global_depth_ t) by (pose proof (bo_depth _ _ _ _ Hok); lia).
  pose proof (full_bucket_shallow D t m key p b Hr Hp Hb Hok Hf (conj Hsz Hfull) Hgl Hinj) as HgD.
  assert (Hov : 2 * Z.of_nat (num_buckets_ t) < 2 ^ 31).
  { rewrite (wf_num _ _ Hwf), Nat2Z.inj_pow. change (Z.of_nat 2) with 2.
    rewrite <- Z.pow_succ_r by lia. apply Z.pow_lt_mono_r; lia. }
  rewrite (expand_eq t m (idx key t) p b Hr Hp Hb Hgl Hov). simpl.
  destruct (IH _ (double_split_repr t m key p b Hr Hp Hb Hok Hgl)) as (t' & Ht' & Hr' & Hs'); simpl; try done; try lia.
  by exists t'.
Qed.

Lemma create_repr n : repr hash (create n) (∅ : gmap K V).
Proof.
  split; [split; simpl; try done|].
  - intros [|i] p; [|done]. intros [= <-]. exists (mkBucket 0 []). split; [done|].
    split; simpl; [lia|constructor|lia|intros k v Hin; inversion Hin].
  - intros [|i] p b [|j] Hi Hb Hj; simpl in *; try done; try lia.
  - intros k. rewrite lookup_empty. unfold lookup_table, Find, HashKey, deref. simpl.
    by rewrite Z.mod_1_r.
Qed.

Lemma find_spec t m k : repr hash t m -> Find hash k t = Ok (m !! k).
Proof.
  intros [Hwf Hm]. destruct (entry_spec t (idx k t) Hwf) as (p & b & Hp & Hb & Hd & _).
  { by apply idx_spec. }
  rewrite <- Hm, (lookup_table_spec t k p b Hp Hb). unfold Find. by rewrite Hd.
Qed.

Lemma remove_spec t m k :
  repr hash t m ->
  exists t', Remove hash k t = Ok (bool_decide (is_Some (m !! k)), t') /\
             repr hash t' (delete k m) /\ size_ t' = size_ t.
Proof.
  intros Hr. pose proof Hr as [Hwf Hm].
  destruct (entry_spec t (idx k t) Hwf) as (p & b & Hp & Hb & Hd & Hok).
  { by apply idx_spec. }
  pose proof (bo_keys _ _ _ _ Hok) as Hnd. pose proof (bo_len _ _ _ _ Hok) as Hbl.
  assert (Hk : m !! k = find_record k (kv_records_ b)).
  { by rewrite <- Hm, (lookup_table_spec t k p b Hp Hb). }
  set (kept := filter (fun r : K * V => r.1 <> k) (kv_records_ b)).
  assert (Hkept : repr hash (set_bucket t p (mkBucket (local_depth_ b) kept)) (delete k m)).
  { apply (update_repr t m k p b kept None Hr Hp Hb).
    - by apply keys_filter_nodup.
    - unfold kept. etrans; [apply length_filter|done].
    - intros k' v [_ Hin]%list_elem_of_filter. by right.
    - intros k'. unfold kept. etrans; [exact (find_record_filter_key (fun x => x <> k) k' _)|].
      destruct (decide (k' = k)), (decide (k' <> k)); tauto. }
  pose proof (length_filter_key k _ Hnd) as Hlen. fold kept in Hlen.
  unfold Remove. rewrite Hd. simpl. fold kept. rewrite Hk.
  destruct (decide (k ∈ (kv_records_ b).*1)) as [Hin|Hin].
  - exists (set_bucket t p (mkBucket (local_depth_ b) kept)).
    rewrite bool_decide_eq_true_2 by lia.
    rewrite bool_decide_eq_true_2.
    2: { destruct (find_record k _) eqn:E; [eauto|]. by apply find_record_None in E. }
    split; [|done]. do 4 f_equal. by apply remove_if_pop_back.
  - exists (set_bucket t p (mkBucket (local_depth_ b) kept)).
    rewrite bool_decide_eq_false_2 by lia.
    rewrite bool_decide_eq_false_2.
    2: { rewrite (proj2 (find_record_None _ _) Hin). by intros []. }
    split; [|done]. do 4 f_equal. rewrite drop_ge by lia. apply app_nil_r.
Qed.

Lemma ehash_exec_refines (P : K -> Prop) c t m :
  separated hash P -> P (call_key c) -> (forall k, is_Some (m !! k) -> P k) ->
  (1 <= size_ t)%nat -> repr hash t m ->
  exists t', exec hash c t = Ok ((exec_spec c m).1, t') /\
             repr hash t' (exec_spec c m).2 /\ size_ t' = size_ t.
Proof.
  intros Hsep Hc HP Hsz Hr. destruct c as [k|k|k v]; cbn [exec exec_spec call_key fst snd] in *.
  - rewrite (find_spec t m k Hr). simpl. eauto.
  - destruct (remove_spec t m k Hr) as (t' & -> & Hr' & Hs'). simpl. eauto.
  - destruct (insert_loop_total 30 k v 32 t m) as (t' & Ht' & Hr'); try done; try lia.
    { intros k' Hk' Hs. by apply Hsep; [apply HP| |]. }
    unfold Insert. rewrite Ht'. simpl. eauto.
Qed.

Lemma exec_spec_keys (P : K -> Prop) c m :
  P (call_key c) -> (forall k, is_Some (m !! k) -> P k) ->
  forall k, is_Some ((exec_spec c m).2 !! k) -> P k.
Proof.
  intros Hc HP k. destruct c as [k'|k'|k' v]; simpl in *; auto.
  - rewrite lookup_delete. case_decide; [by intros []|auto].
  - rewrite lookup_insert. case_decide; [by subst|auto].
Qed.

Lemma ehash_run_refines (P : K -> Prop) cs t m :
  separated hash P -> Forall (fun c => P (call_key c)) cs ->
  (forall k, is_Some (m !! k) -> P k) -> (1 <= size_ t)%nat -> repr hash t m ->
  exists t', run hash cs t = Ok ((run_spec cs m).1, t') /\ repr hash t' (run_spec cs m).2.
Proof.
  intros Hsep Hcs. revert t m. induction Hcs as [|c cs Hc Hcs IH]; intros t m HP Hsz Hr.
  { simpl. eauto. }
  destruct (ehash_exec_refines P c t m Hsep Hc HP Hsz Hr) as (t1 & He & Hr1 & Hs1).
  destruct (IH t1 (exec_spec c m).2) as (t2 & Hrun & Hr2); try done; [by apply exec_spec_keys|lia|].
  exists t2. cbn [run run_spec]. rewrite He. simpl. rewrite Hrun. simpl.
  destruct (exec_spec c m) as [a m1]. simpl in *. by destruct (run_spec cs m1).
Qed.

(** C9: every sequence of [Find], [Remove] and [Insert] calls on a fresh table with
    buckets of at least one record terminates without a fault and answers what a
    finite map answers, when the keys differ in the 30 low bits of their hashes;
    the final table still represents the map. *)
Theorem ehash_refines_map (n : nat) (cs : list (call K V))
    (Hn : (1 <= n)%nat) (Hsep : separated hash (fun k => k ∈ call_key <$> cs)) :
  exists t, run hash cs (create n) = Ok ((run_spec cs ∅).1, t) /\
            repr hash t (run_spec cs ∅).2.
Proof.
  apply (ehash_run_refines (fun k => k ∈ call_key <$> cs)); auto using create_repr.
  - apply Forall_forall. intros c Hc. apply list_elem_of_fmap. eauto.
  - intros k. rewrite lookup_empty. by intros [].
Qed.

(** In every table that represents a map, the directory has 2^global_depth
    entries, every bucket is shared by exactly the entries that agree with it on its
    local depth, and a bucket holds at most [size_] plus its local depth records:
    the redistribution pushes the new record without testing the bucket size. *)
Theorem ehash_bucket_bound (t : Table K V) (m : gmap K V) (i p : nat) (b : Bucket K V)
    (Hr : repr hash t m) (Hp : bucket_address_table_ t !! i = Some p)
    (Hb : heap t !! p = Some b) :
  length (bucket_address_table_ t) = (2 ^ global_depth_ t)%nat /\
  (local_depth_ b <= global_depth_ t)%nat /\
  (length (kv_records_ b) <= size_ t + local_depth_ b)%nat /\
  (forall j, (j < num_buckets_ t)%nat ->
    bucket_address_table_ t !! j = Some p <->
    same_low (local_depth_ b) (Z.of_nat j) (Z.of_nat i)).
Proof.
  destruct Hr as [Hwf _]. destruct (wf_bucket _ _ Hwf i p Hp) as (b' & Hb' & Hok).
  assert (b' = b) as -> by congruence.
  split; [rewrite (wf_len _ _ Hwf); apply Hwf|]. split; [apply Hok|]. split; [apply Hok|].
  intros j Hj. by apply (wf_share _ _ Hwf).
Qed.
End Main.

(** ** The page table of the buffer pool

    libstdc++'s [std::hash<int>] is the conversion to [size_t]; page ids are the
    non-negative [int32_t] handed out by the disk manager. *)
Definition page_id_hash (p : Z) : Z := uwrap 64 p.

Definition page_id_ok (p : Z) : Prop := 0 <= p < 2 ^ 30.

Lemma page_id_separated : separated page_id_hash page_id_ok.
Proof.
  intros k1 k2 Hk1 Hk2. unfold page_id_ok, same_low, page_id_hash, uwrap in *.
  change (2 ^ Z.of_nat 30) with (2 ^ 30). rewrite !(Z.mod_small _ (2 ^ 64)) by lia.
  rewrite !Z.mod_small by lia. done.
Qed.

Section Instance.
Context {V : Type}.

#[export] Instance page_table_ops : HashTable Z V (Table Z V) := {
  ht_find := Find page_id_hash;
  ht_remove := Remove page_id_hash;
  ht_insert := Insert page_id_hash
}.

#[export] Instance page_table_laws : HashTableLaws Z V (Table Z V).
Proof.
  refine {| ht_repr t m := repr page_id_hash t m /\ (1 <= size_ t)%nat;
            ht_key_ok := page_id_ok |}.
  - intros t m k [Hr _]. by apply find_spec.
  - intros t m k [Hr Hs]. destruct (remove_spec page_id_hash t m k Hr) as (t' & ? & ? & ?).
    exists t'. split; [done|]. split; [done|lia].
  - intros t m k v [Hr Hs] Hk HP.
    destruct (ehash_exec_refines page_id_hash page_id_ok (CInsert k v) t m) as (t' & He & Hr' & Hs');
      try done; try apply page_id_separated.
    simpl in He. apply bind_ok_inv in He as (t1 & Ht1 & [= ->]).
    exists t'. split; [done|]. split; [done|lia].
Defined.
End Instance.

(** Three keys that collide on two bits: the directory doubles to eight entries. *)
Definition sample_calls : list (call Z Z) :=
  [CInsert 0 10; CInsert 4 14; CInsert 8 18; CFind 4; CRemove 4; CFind 4; CInsert 0 11; CFind 0].

Lemma ehash_refines_map_witness :
  (1 <= 2)%nat /\ separated page_id_hash (fun k => k ∈ call_key <$> sample_calls) /\
  exists t, run page_id_hash sample_calls (create 2) = Ok ((run_spec sample_calls ∅).1, t) /\
            repr page_id_hash t (run_spec sample_calls ∅).2.
Proof.
  assert (Hsep : separated page_id_hash (fun k => k ∈ call_key <$> sample_calls)).
  { intros k1 k2 H1 H2. apply page_id_separated;
      unfold page_id_ok; simpl in *; set_unfold; lia. }
  split; [lia|]. split; [exact Hsep|].
  apply (ehash_refines_map page_id_hash 2 sample_calls); [lia|exact Hsep].
Defined.

Lemma ehash_bucket_bound_witness :
  repr page_id_hash (create (K := Z) (V := Z) 3) ∅ /\
  (length (kv_records_ (mkBucket 0 ([] : list (Z * Z)))) <= 3)%nat.
Proof.
  assert (Hr : repr page_id_hash (create (K := Z) (V := Z) 3) ∅) by apply create_repr.
  split; [exact Hr|].
  destruct (ehash_bucket_bound page_id_hash (create 3) ∅ 0 0 (mkBucket 0 []) Hr
              eq_refl eq_refl) as (_ & _ & H & _).
  exact H.
Defined.

(** Bucket size 1 and keys 0, 4, 1, 5, 2, 10, 18: the bucket of keys 10 and 18
    ends with two records although the table's bucket size is one. *)
Definition overfull : Table Z Z :=
  match run page_id_hash (map (fun k => CInsert k k) [0; 4; 1; 5; 2; 10; 18]) (create 1) with
  | Ok (_, t) => t
  | Fail _ => create 1
  end.

Example overfull_lengths :
  (fun b => length (kv_records_ b)) <$> heap overfull =
  [1%nat; 2%nat; 1%nat; 1%nat; 0%nat; 0%nat; 1%nat; 1%nat].
Proof. vm_compute. reflexivity. Qed.
End EHash.
