(* ===== verification/DiskManager.v ===== *)
(** * The disk manager (src/src/disk/disk_manager.cpp)

    The database file and the log file are byte lists behind a [std::fstream]: the
    stream keeps its own error flags, and an operation on a stream that is not
    good does nothing but set [failbit].  Errors of the operating system are not
    modelled, so [badbit] is set only by a write to a closed file. *)

From stdpp Require Import prelude list strings.
From Stdlib Require Import ZArith Lia.
From S2P Require Import Prelude.

Local Open Scope Z_scope.

Module Disk.
(** ** [std::fstream] *)
Record Stream := mkStream {
  content : list Z;
  is_open : bool;
  app : bool;
  eofbit : bool;
  failbit : bool;
  badbit : bool;
  pos : Z
}.

Definition good (s : Stream) : bool := negb (eofbit s || failbit s || badbit s).

Definition set_fail (s : Stream) : Stream :=
  mkStream (content s) (is_open s) (app s) (eofbit s) true (badbit s) (pos s).

Definition set_bad (s : Stream) : Stream :=
  mkStream (content s) (is_open s) (app s) (eofbit s) (failbit s) true (pos s).

Definition clear (s : Stream) : Stream :=
  mkStream (content s) (is_open s) (app s) false false false (pos s).

Definition seekp (s : Stream) (off : Z) : Stream :=
  if failbit s || badbit s then s
  else if negb (is_open s) || (off <? 0) then set_fail s
  else mkStream (content s) (is_open s) (app s) (eofbit s) (failbit s) (badbit s) off.

(** The bytes of a write past the end of the file are preceded by zeros. *)
Definition pwrite (off : Z) (bs content : list Z) : list Z :=
  splice off bs
    (content ++ replicate (Z.to_nat (off + Z.of_nat (length bs) - Z.of_nat (length content))) 0).

Definition swrite (s : Stream) (bs : list Z) : Stream :=
  if negb (good s) then set_fail s
  else if negb (is_open s) then set_bad s
  else
    let off := if app s then Z.of_nat (length (content s)) else pos s in
    mkStream (pwrite off bs (content s)) (is_open s) (app s) false false false
             (off + Z.of_nat (length bs)).

(** [read] and [gcount]: the bytes read are the first component. *)
Definition sread (s : Stream) (n : Z) : list Z * Stream :=
  if negb (good s) then ([], set_fail s)
  else
    let bs := slice (pos s) n (content s) in
    let short := Z.of_nat (length bs) <? n in
    (bs, mkStream (content s) (is_open s) (app s) short short false
                  (pos s + Z.of_nat (length bs))).

Definition open_stream (content : list Z) (app : bool) : Stream :=
  mkStream content true app false false false 0.

Definition closed_stream : Stream := mkStream [] false false false false false 0.

(** ** [DiskManager]

    [buffer_used] is the static pointer to the log buffer of the last flush; a log
    buffer is named by a number. *)
Record DiskManager := mkDM {
  db_io_ : Stream;
  log_io_ : Stream;
  next_page_id_ : Z;
  num_flushes_ : Z;
  flush_log_ : bool;
  has_flush_log_f_ : bool;
  buffer_used : option nat
}.

(** The constructor, on the bytes the two files hold ([None]: no such file, which is
    then created empty).  A name without a dot leaves both streams closed. *)
Definition create (has_dot : bool) (db log : option (list Z)) : DiskManager :=
  let stream c a := open_stream (default [] c) a in
  if has_dot
  then mkDM (stream db false) (stream log true) 0 0 false false None
  else mkDM closed_stream closed_stream 0 0 false false None.

Definition set_db (d : DiskManager) (s : Stream) : DiskManager :=
  mkDM s (log_io_ d) (next_page_id_ d) (num_flushes_ d) (flush_log_ d)
       (has_flush_log_f_ d) (buffer_used d).

Definition GetFileSize (s : Stream) : Z :=
  if is_open s then wrap32 (Z.of_nat (length (content s))) else -1.

Definition WritePage (page_id : Z) (page_data : list Z) (d : DiskManager) :
    result DiskManager :=
  let offset := wrap32 (page_id * PAGE_SIZE) in
  let s := seekp (db_io_ d) offset in
  let* bs := memread page_data 0 PAGE_SIZE in
  Ok (set_db d (swrite s bs)).

(** What a read of [n] bytes that got [bs] leaves in the caller's buffer: the
    [memset] clears what the file did not give. *)
Definition read_into (buf bs : list Z) (n : Z) : result (list Z) :=
  let read_count := Z.of_nat (length bs) in
  let* buf := memwrite buf 0 bs in
  if read_count <? n
  then memwrite buf read_count (replicate (Z.to_nat (n - read_count)) 0)
  else Ok buf.

Definition ReadPage (page_id : Z) (page_data : list Z) (d : DiskManager) :
    result (list Z * DiskManager) :=
  let offset := wrap32 (page_id * PAGE_SIZE) in
  if GetFileSize (db_io_ d) <? offset then Ok (page_data, d)
  else
    let '(bs, s) := sread (seekp (db_io_ d) offset) PAGE_SIZE in
    let* page_data := read_into page_data bs PAGE_SIZE in
    Ok (page_data, set_db d s).

(** [buf] names the buffer [log_data] points to; [ready] is what [wait_for] answers
    for the future set by [SetFlushLogFuture]. *)
Definition WriteLog (buf : nat) (log_data : list Z) (size : Z) (ready : bool)
    (d : DiskManager) : result DiskManager :=
  assert! negb (bool_decide (buffer_used d = Some buf)) ;;
  let used d fl n s := mkDM (db_io_ d) s (next_page_id_ d) n fl (has_flush_log_f_ d) (Some buf) in
  if size =? 0 then Ok (used d (flush_log_ d) (num_flushes_ d) (log_io_ d))
  else
    assert! negb (has_flush_log_f_ d) || ready ;;
    let* bs := memread log_data 0 size in
    let s := swrite (log_io_ d) bs in
    let n := num_flushes_ d + 1 in
    if badbit s then Ok (used d true n s) else Ok (used d false n s).

Definition ReadLog (log_data : list Z) (size offset : Z) (d : DiskManager) :
    result (bool * list Z * DiskManager) :=
  let set_log s := mkDM (db_io_ d) s (next_page_id_ d) (num_flushes_ d) (flush_log_ d)
                        (has_flush_log_f_ d) (buffer_used d) in
  if GetFileSize (log_io_ d) <=? offset then Ok (false, log_data, d)
  else
    let '(bs, s) := sread (seekp (log_io_ d) offset) size in
    let* log_data := read_into log_data bs size in
    if Z.of_nat (length bs) <? size then Ok (true, log_data, set_log (clear s))
    else Ok (true, log_data, set_log s).

Definition AllocatePage (d : DiskManager) : Z * DiskManager :=
  (next_page_id_ d,
   mkDM (db_io_ d) (log_io_ d) (wrap32 (next_page_id_ d + 1)) (num_flushes_ d)
        (flush_log_ d) (has_flush_log_f_ d) (buffer_used d)).

Definition DeallocatePage (page_id : Z) (d : DiskManager) : DiskManager := d.

Definition GetNumFlushes (d : DiskManager) : Z := num_flushes_ d.
Definition GetFlushState (d : DiskManager) : bool := flush_log_ d.

Definition SetFlushLogFuture (f : bool) (d : DiskManager) : DiskManager :=
  mkDM (db_io_ d) (log_io_ d) (next_page_id_ d) (num_flushes_ d) (flush_log_ d) f
       (buffer_used d).
Definition HasFlushLogFuture (d : DiskManager) : bool := has_flush_log_f_ d.

(** ** Specification: a file of pages *)

(** A page file in working order: no error flag, whole pages, offsets fit an [int]. *)
Record healthy (d : DiskManager) : Prop := {
  h_open : is_open (db_io_ d) = true;
  h_app : app (db_io_ d) = false;
  h_good : good (db_io_ d) = true;
  h_len : (Z.of_nat (length (content (db_io_ d)))) mod PAGE_SIZE = 0;
  h_max : Z.of_nat (length (content (db_io_ d))) < 2 ^ 31
}.

Definition page_count (d : DiskManager) : Z :=
  Z.of_nat (length (content (db_io_ d))) / PAGE_SIZE.

(** The page stored in the file under [p]. *)
Definition stored (d : DiskManager) (p : Z) : option (list Z) :=
  if (0 <=? p) && (p <? page_count d)
  then Some (slice (p * PAGE_SIZE) PAGE_SIZE (content (db_io_ d))) else None.

Definition page_id_in_file (p : Z) : Prop := 0 <= p < 2 ^ 22 - 1.

Definition zero_page : list Z := replicate (Z.to_nat PAGE_SIZE) 0.

(** What [WritePage p data] does to the pages: the gap up to [p] becomes zeros. *)
Definition write_spec (p : Z) (data : list Z) (m : Z -> option (list Z)) (q : Z) :
    option (list Z) :=
  if decide (q = p) then Some data
  else if decide (0 <= q < p) then Some (default zero_page (m q)) else m q.

(** Client calls on the page file. *)
Inductive call :=
| CWrite (p : Z) (data : list Z)
| CRead (p : Z) (buf : list Z).

Definition exec (c : call) (d : DiskManager) : result (list Z * DiskManager) :=
  match c with
  | CWrite p data => let* d' := WritePage p data d in Ok ([], d')
  | CRead p buf => ReadPage p buf d
  end.

Fixpoint run (cs : list call) (d : DiskManager) : result (list (list Z) * DiskManager) :=
  match cs with
  | [] => Ok ([], d)
  | c :: cs' =>
      let* ad := exec c d in
      let* rd := run cs' ad.2 in
      Ok (ad.1 :: rd.1, rd.2)
  end.

Definition call_ok (c : call) : Prop :=
  match c with
  | CWrite p data | CRead p data => page_id_in_file p /\ length data = Z.to_nat PAGE_SIZE
  end.

(** The answers of the page file, and the reads that do not stop at its end:
    a read of the page just after the last one is short. *)
Definition exec_spec (c : call) (m : Z -> option (list Z)) :
    list Z * (Z -> option (list Z)) :=
  match c with
  | CWrite p data => ([], write_spec p data m)
  | CRead p buf => (default buf (m p), m)
  end.

Fixpoint run_spec (cs : list call) (m : Z -> option (list Z)) :
    list (list Z) * (Z -> option (list Z)) :=
  match cs with
  | [] => ([], m)
  | c :: cs' =>
      let '(a, m1) := exec_spec c m in
      let '(l, m2) := run_spec cs' m1 in (a :: l, m2)
  end.

Fixpoint no_short_read (cs : list call) (n : Z) : Prop :=
  match cs with
  | [] => True
  | CWrite p _ :: cs' => no_short_read cs' (Z.max n (p + 1))
  | CRead p _ :: cs' => p <> n /\ no_short_read cs' n
  end.

(** A log flush: the buffer, the data and the number of bytes. *)
Abbreviation flush := (nat * list Z * Z)%type.

Fixpoint write_logs (fs : list flush) (d : DiskManager) : result DiskManager :=
  match fs with
  | [] => Ok d
  | (buf, data, size) :: fs' =>
      let* d := WriteLog buf data size true d in write_logs fs' d
  end.

(** Consecutive flushes use different buffers, and sizes are within the data. *)
Fixpoint swapped (last : option nat) (fs : list flush) : Prop :=
  match fs with
  | [] => True
  | (buf, data, size) :: fs' =>
      last <> Some buf /\ 0 <= size <= Z.of_nat (length data) /\ swapped (Some buf) fs'
  end.

Definition logged (fs : list flush) : list Z :=
  mjoin ((fun f => take (Z.to_nat f.2) f.1.2) <$> fs).

Definition zero_padded (n : Z) (bs : list Z) : list Z :=
  bs ++ replicate (Z.to_nat n - length bs) 0.

Record log_healthy (d : DiskManager) : Prop := {
  lh_open : is_open (log_io_ d) = true;
  lh_app : app (log_io_ d) = true;
  lh_good : good (log_io_ d) = true
}.

(** ** Lemmas *)

Lemma offset_ok p : page_id_in_file p -> wrap32 (p * PAGE_SIZE) = p * PAGE_SIZE.
Proof.
  unfold page_id_in_file, PAGE_SIZE. intros. apply swrap_id; [lia|]. unfold in_sint. lia.
Qed.

Lemma good_flags s : good s = true -> eofbit s = false /\ failbit s = false /\ badbit s = false.
Proof. unfold good. destruct (eofbit s), (failbit s), (badbit s); naive_solver. Qed.

Lemma seekp_good s off :
  good s = true -> is_open s = true -> 0 <= off ->
  seekp s off = mkStream (content s) true (app s) false false false off.
Proof.
  intros Hg Ho Hoff. destruct (good_flags s Hg) as (He & Hf & Hb). unfold seekp.
  rewrite Hf, Hb, Ho, He. simpl. destruct (off <? 0) eqn:E; zify_bool; [lia|done].
Qed.

Lemma file_size d : healthy d -> GetFileSize (db_io_ d) = Z.of_nat (length (content (db_io_ d))).
Proof.
  intros H. unfold GetFileSize. rewrite (h_open _ H). apply swrap_id; [lia|].
  pose proof (h_max _ H). unfold in_sint. lia.
Qed.

Lemma page_count_len d :
  healthy d -> Z.of_nat (length (content (db_io_ d))) = page_count d * PAGE_SIZE.
Proof.
  intros H. pose proof (h_len _ H). unfold page_count.
  pose proof (Z.div_mod (Z.of_nat (length (content (db_io_ d)))) PAGE_SIZE). unfold PAGE_SIZE in *.
  lia.
Qed.

Lemma length_pwrite off bs c :
  0 <= off ->
  Z.of_nat (length (pwrite off bs c)) =
  Z.max (Z.of_nat (length c)) (off + Z.of_nat (length bs)).
Proof.
  intros. unfold pwrite. rewrite length_splice; rewrite ?length_app, ?length_replicate; lia.
Qed.

Lemma write_page_ok p data d :
  healthy d -> page_id_in_file p -> length data = Z.to_nat PAGE_SIZE ->
  WritePage p data d =
  Ok (set_db d (mkStream (pwrite (p * PAGE_SIZE) data (content (db_io_ d))) true false
                         false false false (p * PAGE_SIZE + PAGE_SIZE))).
Proof.
  intros H Hp Hd. unfold WritePage. rewrite offset_ok by done.
  rewrite memread_ok by (unfold PAGE_SIZE in *; lia). rewrite bind_ok.
  rewrite seekp_good; [|apply H..|unfold page_id_in_file, PAGE_SIZE in *; lia].
  unfold swrite. simpl. rewrite (h_app _ H).
  replace (slice 0 PAGE_SIZE data) with data; [by rewrite Hd|].
  unfold slice. rewrite drop_0. symmetry. by rewrite take_ge by lia.
Qed.

Lemma healthy_write p data d d' :
  healthy d -> page_id_in_file p -> length data = Z.to_nat PAGE_SIZE ->
  WritePage p data d = Ok d' ->
  healthy d' /\ page_count d' = Z.max (page_count d) (p + 1).
Proof.
  intros H Hp Hd. rewrite write_page_ok by done. intros [= <-].
  assert (Hlen : Z.of_nat (length (pwrite (p * PAGE_SIZE) data (content (db_io_ d)))) =
                 Z.max (page_count d) (p + 1) * PAGE_SIZE).
  { rewrite length_pwrite by (unfold page_id_in_file, PAGE_SIZE in *; lia).
    rewrite (page_count_len d H), Hd. unfold PAGE_SIZE. lia. }
  split.
  - split; simpl; try done.
    + rewrite Hlen. apply Z.mod_mul. done.
    + rewrite Hlen. pose proof (h_max _ H). rewrite (page_count_len d H) in *.
      unfold page_id_in_file, PAGE_SIZE in *. lia.
  - unfold page_count at 1. simpl. rewrite Hlen. by apply Z.div_mul.
Qed.

(** A slice of the file after a write: the data, the old bytes, or fresh zeros. *)
Lemma slice_pwrite_eq off bs c :
  0 <= off -> slice off (Z.of_nat (length bs)) (pwrite off bs c) = bs.
Proof.
  intros. unfold pwrite. apply slice_splice_eq; rewrite ?length_app, ?length_replicate; lia.
Qed.

Lemma slice_app_l {A} off n (c e : list A) :
  0 <= off -> 0 <= n -> off + n <= Z.of_nat (length c) -> slice off n (c ++ e) = slice off n c.
Proof.
  intros. apply list_eq. intros i. rewrite !lookup_slice by lia.
  case_decide; [|done]. by rewrite lookup_app_l by lia.
Qed.

Lemma slice_replicate_app (c : list Z) off n k :
  Z.of_nat (length c) <= off -> 0 <= n -> off + n <= Z.of_nat (length c + k) ->
  slice off n (c ++ replicate k 0) = replicate (Z.to_nat n) 0.
Proof.
  intros. apply list_eq. intros i. rewrite lookup_slice by lia. case_decide.
  - rewrite lookup_app_r by lia. rewrite !lookup_replicate_2 by lia. done.
  - symmetry. apply lookup_ge_None. rewrite length_replicate. lia.
Qed.

Lemma slice_pwrite_ne off bs c off' n :
  0 <= off -> 0 <= off' -> 0 <= n ->
  off' + n <= off \/ off + Z.of_nat (length bs) <= off' ->
  slice off' n (pwrite off bs c) =
  slice off' n (c ++ replicate (Z.to_nat (off + Z.of_nat (length bs) - Z.of_nat (length c))) 0).
Proof.
  intros. unfold pwrite. apply slice_splice_disj; try lia.
  rewrite length_app, length_replicate. lia.
Qed.

Lemma stored_write p data d d' q :
  healthy d -> page_id_in_file p -> length data = Z.to_nat PAGE_SIZE ->
  WritePage p data d = Ok d' -> stored d' q = write_spec p data (stored d) q.
Proof.
  intros H Hp Hd Hw. pose proof (healthy_write _ _ _ _ H Hp Hd Hw) as [H' Hc].
  rewrite write_page_ok in Hw by done. injection Hw as <-.
  pose proof (page_count_len d H) as Hlen. unfold page_id_in_file in Hp.
  unfold stored, write_spec in *. rewrite Hc. cbn [db_io_ set_db content].
  destruct ((0 <=? q) && (q <? Z.max (page_count d) (p + 1))) eqn:Eq; zify_bool.
  2:{ apply andb_false_iff in Eq as [Eq|Eq]; zify_bool;
        repeat case_decide; try lia;
        destruct (_ && _) eqn:E; try done; zify_bool; lia. }
  case_decide as Hqp.
  - subst q. f_equal. replace PAGE_SIZE with (Z.of_nat (length data)) at 2 by (by rewrite Hd).
    apply slice_pwrite_eq. unfold PAGE_SIZE. lia.
  - rewrite slice_pwrite_ne by (unfold PAGE_SIZE in *; lia).
    destruct (decide (q < page_count d)).
    + replace (_ && _) with true by (symmetry; apply andb_true_iff; split; [apply Z.leb_le|apply Z.ltb_lt]; lia).
      simpl. rewrite slice_app_l by (unfold PAGE_SIZE in *; lia). by case_decide.
    + replace ((0 <=? q) && (q <? page_count d)) with false
        by (symmetry; apply andb_false_iff; right; apply Z.ltb_ge; lia).
      rewrite decide_True by lia. simpl. f_equal. unfold zero_page.
      apply slice_replicate_app; unfold PAGE_SIZE in *; lia.
Qed.

Lemma set_db_id d : set_db d (db_io_ d) = d.
Proof. by destruct d. Qed.

Lemma splice_full {A} (bs buf : list A) : length bs = length buf -> splice 0 bs buf = bs.
Proof. intros H. unfold splice. simpl. rewrite drop_ge by lia. by rewrite app_nil_r. Qed.

Lemma read_into_ok (n : Z) (bs buf : list Z) :
  Z.of_nat (length buf) = n -> Z.of_nat (length bs) <= n ->
  read_into buf bs n = Ok (zero_padded n bs).
Proof.
  intros Hn Hb. unfold read_into, zero_padded. rewrite memwrite_ok, bind_ok by lia.
  destruct (_ <? _) eqn:E; zify_bool.
  - rewrite memwrite_ok by (rewrite ?length_splice, ?length_replicate; lia). f_equal.
    unfold splice at 1. rewrite Nat2Z.id.
    rewrite drop_ge by (rewrite length_splice, length_replicate; lia).
    rewrite app_nil_r. unfold splice. simpl. rewrite take_app_length. do 2 f_equal. lia.
  - rewrite splice_full by lia. replace (_ - _)%nat with 0%nat by lia.
    by rewrite app_nil_r.
Qed.

Lemma zero_padded_full n bs : Z.of_nat (length bs) = n -> zero_padded n bs = bs.
Proof.
  intros <-. unfold zero_padded. rewrite Nat2Z.id, Nat.sub_diag. apply app_nil_r.
Qed.

Lemma zero_padded_nil : zero_padded PAGE_SIZE [] = zero_page.
Proof. reflexivity. Qed.

(** Reading a page of a healthy file, by the position of the page. *)
Lemma read_page_in p buf d :
  healthy d -> page_id_in_file p -> length buf = Z.to_nat PAGE_SIZE -> p < page_count d ->
  ReadPage p buf d =
  Ok (slice (p * PAGE_SIZE) PAGE_SIZE (content (db_io_ d)),
      set_db d (mkStream (content (db_io_ d)) true false false false false
                         (p * PAGE_SIZE + PAGE_SIZE))).
Proof.
  intros H Hp Hb Hc. pose proof (page_count_len d H) as Hlen. unfold page_id_in_file in Hp.
  unfold ReadPage. rewrite offset_ok, file_size by done.
  destruct (_ <? _) eqn:E; zify_bool; [unfold PAGE_SIZE in *; lia|]. clear E.
  rewrite seekp_good; [|apply H..|unfold PAGE_SIZE; lia].
  unfold sread. simpl. rewrite (h_app _ H).
  set (bs := slice _ _ _).
  assert (Hbs : length bs = Z.to_nat PAGE_SIZE)
    by (apply length_slice; unfold PAGE_SIZE in *; lia).
  rewrite read_into_ok by (unfold PAGE_SIZE in *; lia).
  rewrite bind_ok, zero_padded_full by (unfold PAGE_SIZE in *; lia). by rewrite Hbs.
Qed.

Lemma read_page_beyond p buf d :
  healthy d -> page_id_in_file p -> page_count d < p -> ReadPage p buf d = Ok (buf, d).
Proof.
  intros H Hp Hc. pose proof (page_count_len d H) as Hlen.
  unfold ReadPage. rewrite offset_ok, file_size by done.
  destruct (_ <? _) eqn:E; [done|]. zify_bool. unfold PAGE_SIZE in *; lia.
Qed.

(** A short read: all zeros, and the stream keeps [eofbit] and [failbit]. *)
Lemma read_page_end p buf d :
  healthy d -> page_id_in_file p -> length buf = Z.to_nat PAGE_SIZE -> p = page_count d ->
  ReadPage p buf d =
  Ok (zero_page, set_db d (mkStream (content (db_io_ d)) true false true true false
                                    (p * PAGE_SIZE))).
Proof.
  intros H Hp Hb ->. pose proof (page_count_len d H) as Hlen.
  unfold ReadPage. rewrite offset_ok, file_size by done.
  destruct (_ <? _) eqn:E; zify_bool; [unfold PAGE_SIZE in *; lia|]. clear E.
  unfold page_id_in_file in Hp.
  rewrite seekp_good; [|apply H..|unfold PAGE_SIZE; lia].
  unfold sread. cbn [good eofbit failbit badbit negb orb pos content is_open app].
  rewrite (h_app _ H).
  replace (slice _ _ _) with (@nil Z).
  2:{ unfold slice. rewrite drop_ge by lia. by rewrite take_nil. }
  rewrite read_into_ok by (simpl; unfold PAGE_SIZE in *; lia). rewrite bind_ok, zero_padded_nil.
  cbn [length Z.of_nat]. rewrite Z.add_0_r. done.
Qed.

Lemma disk_exec_refines c d m :
  healthy d -> call_ok c -> no_short_read [c] (page_count d) ->
  (forall q, stored d q = m q) ->
  exists d', exec c d = Ok ((exec_spec c m).1, d') /\ healthy d' /\
             no_short_read [] (page_count d') /\
             (forall cs, no_short_read (c :: cs) (page_count d) -> no_short_read cs (page_count d')) /\
             (forall q, stored d' q = (exec_spec c m).2 q).
Proof.
  intros H Hc Hn Hm. destruct c as [p data|p buf]; destruct Hc as [Hp Hlen]; cbn [exec exec_spec].
  - pose proof (write_page_ok p data d H Hp Hlen) as Hw.
    destruct (healthy_write _ _ _ _ H Hp Hlen Hw) as [H' Hcount].
    eexists. rewrite Hw, bind_ok. split; [done|]. split; [done|]. split; [done|].
    split; [intros cs; cbn [no_short_read]; by rewrite Hcount|].
    intros q. rewrite (stored_write _ _ _ _ q H Hp Hlen Hw). simpl. unfold write_spec.
    by rewrite !Hm.
  - destruct Hn as [Hpn _]. pose proof Hp as [Hp0 _].
    destruct (decide (p < page_count d)).
    + rewrite read_page_in by done. eexists. split.
      { do 2 f_equal. simpl. rewrite <- Hm. unfold stored.
        replace (_ && _) with true; [done|]. symmetry. apply andb_true_iff.
        split; [by apply Z.leb_le|by apply Z.ltb_lt]. }
      split; [by split; try done; apply H|]. split; [done|].
      split; [by intros cs [_ ?]|]. intros q. simpl. rewrite <- Hm. done.
    + rewrite read_page_beyond by (try done; lia). exists d. split.
      { do 2 f_equal. simpl. rewrite <- Hm. unfold stored.
        replace (_ && _) with false; [done|]. symmetry. apply andb_false_iff. right.
        apply Z.ltb_ge. lia. }
      split; [done|]. split; [done|]. split; [by intros cs [_ ?]|]. intros q. by rewrite Hm.
Qed.

Lemma disk_run_refines cs d m :
  healthy d -> Forall call_ok cs -> no_short_read cs (page_count d) ->
  (forall q, stored d q = m q) ->
  exists d', run cs d = Ok ((run_spec cs m).1, d') /\ healthy d' /\
             (forall q, stored d' q = (run_spec cs m).2 q).
Proof.
  revert d m. induction cs as [|c cs IH]; intros d m H Hok Hn Hm.
  - exists d. done.
  - apply Forall_cons in Hok as [Hc Hok].
    destruct (disk_exec_refines c d m) as (d1 & He & Hh1 & _ & Hn1 & Hm1); try done.
    { destruct c; simpl in *; tauto. }
    destruct (IH d1 (exec_spec c m).2) as (d2 & Hr & Hh2 & Hm2); auto.
    exists d2. cbn [run run_spec]. rewrite He, bind_ok. cbn [snd]. rewrite Hr, bind_ok.
    destruct (exec_spec c m) as [a m1]. simpl in *. destruct (run_spec cs m1). done.
Qed.

(** A stream with [failbit] set ignores every page write and reads nothing. *)
Record dead (c : list Z) (d : DiskManager) : Prop := {
  d_content : content (db_io_ d) = c;
  d_open : is_open (db_io_ d) = true;
  d_fail : failbit (db_io_ d) = true
}.

Lemma dead_seekp c d off : dead c d -> seekp (db_io_ d) off = db_io_ d.
Proof. intros H. unfold seekp. by rewrite (d_fail _ _ H). Qed.

Lemma dead_good c d : dead c d -> good (db_io_ d) = false.
Proof. intros H. unfold good. rewrite (d_fail _ _ H). by destruct (eofbit _). Qed.

Lemma dead_exec c cl d :
  dead c d -> call_ok cl ->
  exists d', dead c d' /\
    match cl with
    | CWrite p data => exec cl d = Ok ([], d')
    | CRead p buf =>
        exec cl d = Ok (if GetFileSize (db_io_ d) <? p * PAGE_SIZE then buf else zero_page, d')
    end.
Proof.
  intros H Hok. destruct cl as [p data|p buf]; destruct Hok as [Hp Hlen]; cbn [exec].
  - unfold WritePage. rewrite (dead_seekp c) by done.
    rewrite memread_ok by (unfold PAGE_SIZE in *; lia). rewrite !bind_ok.
    unfold swrite. rewrite (dead_good c) by done. eexists. split; [|done].
    split; apply H || done.
  - unfold ReadPage. rewrite offset_ok by done. destruct (_ <? _) eqn:E; [by exists d|].
    rewrite (dead_seekp c) by done. unfold sread. rewrite (dead_good c) by done.
    cbn [negb]. rewrite read_into_ok by (simpl; unfold PAGE_SIZE in *; lia). rewrite bind_ok, zero_padded_nil.
    eexists. split; [|done]. split; apply H || done.
Qed.

Lemma dead_run c cs d :
  dead c d -> Forall call_ok cs ->
  exists answers d', run cs d = Ok (answers, d') /\ dead c d' /\
    forall (i : nat) p buf, cs !! i = Some (CRead p buf) ->
      p * PAGE_SIZE <= wrap32 (Z.of_nat (length c)) -> answers !! i = Some zero_page.
Proof.
  intros H Hok. revert d H. induction Hok as [|cl cs Hcl Hok IH]; intros d H.
  - exists [], d. done.
  - destruct (dead_exec c cl d H Hcl) as (d1 & H1 & He).
    destruct (IH d1 H1) as (l & d2 & Hr & H2 & Ha).
    destruct cl as [p data|p buf]; cbn [run]; rewrite He, bind_ok; cbn [fst snd];
      rewrite Hr, bind_ok; eexists _, d2; (split; [done|]); (split; [done|]).
    + intros [|i] p' buf'; [done|]. simpl. apply Ha.
    + intros [|i] p' buf'; [|simpl; apply Ha].
      intros [= <- <-] Hle. cbn [lookup list_lookup]. unfold GetFileSize.
      rewrite (d_open _ _ H), (d_content _ _ H).
      by rewrite (proj2 (Z.ltb_ge _ _) Hle).
Qed.

(** *** The log *)

Lemma pwrite_end bs c : pwrite (Z.of_nat (length c)) bs c = c ++ bs.
Proof.
  unfold pwrite, splice. rewrite Nat2Z.id, take_app_length.
  rewrite drop_ge by (rewrite length_app, length_replicate; lia). by rewrite app_nil_r.
Qed.

Lemma write_log_ok buf data size d :
  log_healthy d -> buffer_used d <> Some buf -> 0 <= size <= Z.of_nat (length data) ->
  exists d', WriteLog buf data size true d = Ok d' /\ log_healthy d' /\
    buffer_used d' = Some buf /\
    content (log_io_ d') = content (log_io_ d) ++ take (Z.to_nat size) data /\
    num_flushes_ d' = num_flushes_ d + (if size =? 0 then 0 else 1).
Proof.
  intros H Hb Hs. unfold WriteLog. rewrite bool_decide_eq_false_2 by done. rewrite assert_true.
  destruct (size =? 0) eqn:E; zify_bool.
  - subst size. eexists. split; [done|]. simpl. rewrite app_nil_r.
    split; [by destruct H|]. split; [done|]. split; [done|lia].
  - rewrite assert_ok by by rewrite orb_true_r. rewrite memread_ok by lia. rewrite bind_ok.
    unfold swrite. rewrite (lh_good _ H), (lh_open _ H), (lh_app _ H). simpl.
    eexists. split; [done|]. simpl. split; [done|]. split; [done|]. split; [|done].
    rewrite pwrite_end. unfold slice. by rewrite drop_0.
Qed.

Lemma write_logs_ok fs d :
  log_healthy d -> swapped (buffer_used d) fs ->
  exists d', write_logs fs d = Ok d' /\ log_healthy d' /\
    content (log_io_ d') = content (log_io_ d) ++ logged fs /\
    num_flushes_ d' = num_flushes_ d + Z.of_nat (length (filter (fun f => f.2 <> 0) fs)).
Proof.
  revert d. induction fs as [|[[buf data] size] fs IH]; intros d H Hs.
  - exists d. rewrite app_nil_r. split; [done|]. split; [done|]. split; [done|]. simpl. lia.
  - destruct Hs as (Hb & Hsz & Hs).
    destruct (write_log_ok buf data size d H Hb Hsz) as (d1 & Hw & H1 & Hu & Hc & Hn).
    destruct (IH d1 H1) as (d2 & Hws & H2 & Hc2 & Hn2); [by rewrite Hu|].
    exists d2. cbn [write_logs]. rewrite Hw, bind_ok. split; [done|]. split; [done|]. split.
    + rewrite Hc2, Hc. unfold logged. simpl. by rewrite <- app_assoc.
    + rewrite Hn2, Hn. destruct (size =? 0) eqn:E; zify_bool.
      * rewrite filter_cons_False by (cbn [snd]; lia). lia.
      * rewrite filter_cons_True by done. simpl. lia.
Qed.

Lemma read_log_ok d buf size offset :
  log_healthy d -> length buf = Z.to_nat size -> 0 <= size -> 0 <= offset ->
  Z.of_nat (length (content (log_io_ d))) < 2 ^ 31 ->
  offset < Z.of_nat (length (content (log_io_ d))) ->
  exists d', ReadLog buf size offset d =
    Ok (true, zero_padded size (slice offset size (content (log_io_ d))), d') /\
    log_healthy d' /\ content (log_io_ d') = content (log_io_ d).
Proof.
  intros H Hb Hs Ho Hmax Hin. unfold ReadLog, GetFileSize. rewrite (lh_open _ H).
  rewrite swrap_id by (unfold in_sint; lia).
  destruct (_ <=? _) eqn:E; zify_bool; [lia|]. clear E.
  rewrite seekp_good; [|apply H..|done]. unfold sread. simpl. rewrite (lh_app _ H).
  set (bs := slice _ _ _).
  assert (Hbs : Z.of_nat (length bs) <= size) by (unfold bs, slice; rewrite length_take; lia).
  rewrite read_into_ok, bind_ok by lia.
  destruct (_ <? _); eexists; (split; [done|]); done.
Qed.

(** ** Properties *)

(** C28: on a page file in working order, every sequence of page reads and writes
    that never reads the page just past the end answers what an array of pages
    answers, and leaves the file holding that array. *)
Theorem disk_refines_pages (d : DiskManager) (cs : list call)
    (H : healthy d) (Hok : Forall call_ok cs) (Hn : no_short_read cs (page_count d)) :
  exists d', run cs d = Ok ((run_spec cs (stored d)).1, d') /\ healthy d' /\
             (forall q, stored d' q = (run_spec cs (stored d)).2 q).
Proof. by apply disk_run_refines. Qed.

(** Reading the page just past the end returns zeros but leaves the stream in
    its failed state, which nothing clears: every later page write is lost and every
    later read of a page of the file returns zeros. *)
Theorem disk_short_read_fatal (d : DiskManager) (buf : list Z) (cs : list call)
    (H : healthy d) (Hmax : page_id_in_file (page_count d))
    (Hb : length buf = Z.to_nat PAGE_SIZE) (Hok : Forall call_ok cs) :
  exists d1 answers d2,
    ReadPage (page_count d) buf d = Ok (zero_page, d1) /\
    run cs d1 = Ok (answers, d2) /\
    content (db_io_ d2) = content (db_io_ d) /\
    forall (i : nat) p b, cs !! i = Some (CRead p b) -> p < page_count d ->
      answers !! i = Some zero_page.
Proof.
  pose proof (page_count_len d H) as Hlen.
  rewrite read_page_end by done.
  edestruct (dead_run (content (db_io_ d)) cs) as (l & d2 & Hr & H2 & Ha);
    [|exact Hok|eexists _, l, d2; split; [done|]; split; [exact Hr|]]; [done|].
  split; [apply H2|]. intros i p b Hi Hp. eapply Ha; [exact Hi|].
  pose proof (h_max _ H). rewrite swrap_id by (unfold in_sint; lia).
  rewrite Hlen. unfold PAGE_SIZE. lia.
Qed.

(** Flushes from alternating log buffers append their bytes in order and are
    counted when not empty, and [ReadLog] returns any part of what was written,
    padded with zeros, and keeps the log usable. *)
Theorem log_roundtrip (d : DiskManager) (fs : list flush) (buf : list Z) (size offset : Z)
    (H : log_healthy d) (Hs : swapped (buffer_used d) fs)
    (Hb : length buf = Z.to_nat size) (Hsz : 0 <= size)
    (Ho : 0 <= offset < Z.of_nat (length (content (log_io_ d) ++ logged fs)))
    (Hmax : Z.of_nat (length (content (log_io_ d) ++ logged fs)) < 2 ^ 31) :
  exists d1 d2, write_logs fs d = Ok d1 /\
    num_flushes_ d1 = num_flushes_ d + Z.of_nat (length (filter (fun f => f.2 <> 0) fs)) /\
    ReadLog buf size offset d1 =
      Ok (true, zero_padded size (slice offset size (content (log_io_ d) ++ logged fs)), d2) /\
    log_healthy d2 /\ content (log_io_ d2) = content (log_io_ d) ++ logged fs.
Proof.
  destruct (write_logs_ok fs d H Hs) as (d1 & Hw & H1 & Hc & Hn).
  rewrite <- Hc in *.
  destruct (read_log_ok d1 buf size offset) as (d2 & Hr & H2 & Hc2); try done; try lia.
  exists d1, d2. done.
Qed.

(** Flushing the same buffer twice in a row aborts. *)
Lemma write_log_same_buffer buf data size ready d :
  buffer_used d = Some buf -> WriteLog buf data size ready d = Fail AssertFail.
Proof. intros H. unfold WriteLog. by rewrite bool_decide_eq_true_2. Qed.

(** ** Witnesses *)

Definition page_of (b : Z) : list Z := replicate (Z.to_nat PAGE_SIZE) b.
Definition sample_disk : DiskManager := create true (Some (page_of 1 ++ page_of 2)) None.

Lemma sample_healthy : healthy sample_disk.
Proof. split; reflexivity. Qed.

Definition sample_calls : list call :=
  [CWrite 4 (page_of 5); CRead 3 (page_of 9); CRead 1 (page_of 9); CRead 4 (page_of 9);
   CRead 6 (page_of 9)].

Lemma sample_calls_ok : Forall call_ok sample_calls.
Proof. repeat constructor; simpl; unfold page_id_in_file; lia. Qed.

Lemma disk_refines_pages_witness :
  healthy sample_disk /\
  exists d', run sample_calls sample_disk =
    Ok ([[]; zero_page; page_of 2; page_of 5; page_of 9], d').
Proof.
  split; [exact sample_healthy|].
  destruct (disk_refines_pages sample_disk sample_calls sample_healthy sample_calls_ok)
    as (d' & Hr & _).
  - vm_compute. repeat split; discriminate.
  - exists d'. exact Hr.
Defined.

Lemma disk_short_read_fatal_witness :
  exists d1 d2, ReadPage 2 (page_of 9) sample_disk = Ok (zero_page, d1) /\
    run [CWrite 0 (page_of 7); CRead 0 (page_of 9)] d1 = Ok ([[]; zero_page], d2).
Proof.
  destruct (disk_short_read_fatal sample_disk (page_of 9)
              [CWrite 0 (page_of 7); CRead 0 (page_of 9)] sample_healthy)
    as (d1 & l & d2 & Hr & Hrun & _ & Ha).
  - unfold page_id_in_file. vm_compute. split; [discriminate|reflexivity].
  - reflexivity.
  - repeat constructor; simpl; unfold page_id_in_file; lia.
  - exists d1. vm_compute in Hr. injection Hr as <-. eexists. split; vm_compute; reflexivity.
Defined.

Lemma log_roundtrip_witness :
  exists d1 d2, write_logs [(0%nat, [1; 2; 3], 2); (1%nat, [], 0); (0%nat, [4; 5], 2)] sample_disk
                = Ok d1 /\ ReadLog [0; 0; 0; 0] 4 1 d1 = Ok (true, [2; 4; 5; 0], d2).
Proof.
  destruct (log_roundtrip sample_disk [(0%nat, [1; 2; 3], 2); (1%nat, [], 0); (0%nat, [4; 5], 2)]
              [0; 0; 0; 0] 4 1) as (d1 & d2 & Hw & _ & Hr & _).
  - split; reflexivity.
  - simpl. repeat split; try discriminate; lia.
  - reflexivity.
  - lia.
  - simpl. lia.
  - simpl. lia.
  - exists d1, d2. split; [exact Hw|exact Hr].
Defined.
End Disk.
