(* ===== verification/BufferPool.v ===== *)
(** * The buffer pool (src/src/buffer/buffer_pool_manager.cpp)

    A frame is named by its index in [pages_], which is what the [Page *] of the
    source denotes.  The page table and the replacer are used through the classes
    of [Interfaces]; the disk manager is the one of [DiskManager].  Each method
    holds [latch_] from its first to its last statement, so a method is one step. *)

From stdpp Require Import prelude gmap list.
From Stdlib Require Import ZArith Lia.
From S2P Require Import Prelude Interfaces LruReplacer ExtendibleHash DiskManager.

Local Open Scope Z_scope.

Module BufferPool.
Import Disk.

(** ** The data of [Page] (src/src/include/page/page.h) *)
Record Page := mkPage {
  data_ : list Z;
  page_id_ : Z;
  pin_count_ : Z;
  is_dirty_ : bool
}.

Definition fresh_page : Page := mkPage zero_page INVALID_PAGE_ID 0 false.

Section Pool.
Context {T R : Type} `{HashTable Z nat T} `{Replacer nat R}.

Record BufferPoolManager := mkBPM {
  pages_ : list Page;
  disk_manager_ : DiskManager;
  page_table_ : T;
  replacer_ : R;
  free_list_ : list nat
}.

Definition set_pages (b : BufferPoolManager) (ps : list Page) : BufferPoolManager :=
  mkBPM ps (disk_manager_ b) (page_table_ b) (replacer_ b) (free_list_ b).
Definition set_disk (b : BufferPoolManager) (d : DiskManager) : BufferPoolManager :=
  mkBPM (pages_ b) d (page_table_ b) (replacer_ b) (free_list_ b).
Definition set_table (b : BufferPoolManager) (t : T) : BufferPoolManager :=
  mkBPM (pages_ b) (disk_manager_ b) t (replacer_ b) (free_list_ b).
Definition set_replacer (b : BufferPoolManager) (r : R) : BufferPoolManager :=
  mkBPM (pages_ b) (disk_manager_ b) (page_table_ b) r (free_list_ b).
Definition set_free (b : BufferPoolManager) (l : list nat) : BufferPoolManager :=
  mkBPM (pages_ b) (disk_manager_ b) (page_table_ b) (replacer_ b) l.

(** [*page] for a frame pointer. *)
Definition get_page (b : BufferPoolManager) (i : nat) : result Page :=
  from_option_r MemFault (pages_ b !! i).

Definition put_page (b : BufferPoolManager) (i : nat) (f : Page) : BufferPoolManager :=
  set_pages b (<[i := f]> (pages_ b)).

(** The choice of a frame, written out twice in the source: the front of the free
    list, or a victim, which leaves the page table and is written back if dirty. *)
Definition take_frame (b : BufferPoolManager) : result (option nat * BufferPoolManager) :=
  match free_list_ b with
  | i :: rest => Ok (Some i, set_free b rest)
  | [] =>
      match rp_victim (replacer_ b) with
      | (None, r) => Ok (None, set_replacer b r)
      | (Some i, r) =>
          let b := set_replacer b r in
          let* f := get_page b i in
          let* rem := ht_remove (page_id_ f) (page_table_ b) in
          assert! rem.1 ;;
          let b := set_table b rem.2 in
          if is_dirty_ f then
            let* d := WritePage (page_id_ f) (data_ f) (disk_manager_ b) in
            Ok (Some i, set_disk b d)
          else Ok (Some i, b)
      end
  end.

Definition FetchPage (page_id : Z) (b : BufferPoolManager) :
    result (option nat * BufferPoolManager) :=
  assert! negb (page_id =? INVALID_PAGE_ID) ;;
  let* found := ht_find page_id (page_table_ b) in
  match found with
  | Some i =>
      let* f := get_page b i in
      let b := if pin_count_ f =? 0 then set_replacer b (rp_erase i (replacer_ b)).2 else b in
      Ok (Some i, put_page b i (mkPage (data_ f) (page_id_ f) (pin_count_ f + 1) (is_dirty_ f)))
  | None =>
      let* ib := take_frame b in
      match ib with
      | (None, b) => Ok (None, b)
      | (Some i, b) =>
          let* f := get_page b i in
          let* rd := ReadPage page_id (data_ f) (disk_manager_ b) in
          let b := put_page (set_disk b rd.2) i (mkPage rd.1 page_id 1 false) in
          let* t := ht_insert page_id i (page_table_ b) in
          Ok (Some i, set_table b t)
      end
  end.

Definition UnpinPage (page_id : Z) (is_dirty : bool) (b : BufferPoolManager) :
    result (bool * BufferPoolManager) :=
  assert! negb (page_id =? INVALID_PAGE_ID) ;;
  let* found := ht_find page_id (page_table_ b) in
  match found with
  | Some i =>
      let* f := get_page b i in
      if 0 <? pin_count_ f then
        let n := pin_count_ f - 1 in
        let b := put_page b i (mkPage (data_ f) (page_id_ f) n (is_dirty || is_dirty_ f)) in
        Ok (true, if n =? 0 then set_replacer b (rp_insert i (replacer_ b)) else b)
      else Ok (false, b)
  | None => Ok (false, b)
  end.

Definition FlushPage (page_id : Z) (b : BufferPoolManager) :
    result (bool * BufferPoolManager) :=
  assert! negb (page_id =? INVALID_PAGE_ID) ;;
  let* found := ht_find page_id (page_table_ b) in
  match found with
  | Some i =>
      let* f := get_page b i in
      let* d := WritePage (page_id_ f) (data_ f) (disk_manager_ b) in
      Ok (true, set_disk b d)
  | None => Ok (false, b)
  end.

(** The page table is asked to remove [page->page_id_], which has just been set to
    [INVALID_PAGE_ID]. *)
Definition DeletePage (page_id : Z) (b : BufferPoolManager) :
    result (bool * BufferPoolManager) :=
  assert! negb (page_id =? INVALID_PAGE_ID) ;;
  let* found := ht_find page_id (page_table_ b) in
  match found with
  | Some i =>
      let* f := get_page b i in
      if pin_count_ f =? 0 then
        let f := mkPage (data_ f) INVALID_PAGE_ID (pin_count_ f) false in
        let b := put_page b i f in
        let* rem := ht_remove (page_id_ f) (page_table_ b) in
        let b := set_free (set_table b rem.2) (free_list_ b ++ [i]) in
        let b := set_replacer b (rp_erase i (replacer_ b)).2 in
        Ok (true, set_disk b (DeallocatePage page_id (disk_manager_ b)))
      else Ok (false, b)
  | None => Ok (true, set_disk b (DeallocatePage page_id (disk_manager_ b)))
  end.

Definition NewPage (b : BufferPoolManager) :
    result (Z * option nat * BufferPoolManager) :=
  let '(page_id, d) := AllocatePage (disk_manager_ b) in
  let b := set_disk b d in
  let* ib := take_frame b in
  match ib with
  | (None, b) => Ok (page_id, None, b)
  | (Some i, b) =>
      let* f := get_page b i in
      let b := put_page b i (mkPage (data_ f) page_id 1 true) in
      let* t := ht_insert page_id i (page_table_ b) in
      let b := set_table b t in
      Ok (page_id, Some i, put_page b i (mkPage zero_page page_id 1 true))
  end.

Definition PinnedNum (b : BufferPoolManager) : Z :=
  fold_left (fun sum f => if 0 <? pin_count_ f then sum + 1 else sum) (pages_ b) 0.

Definition PinnedPageId (b : BufferPoolManager) : list Z :=
  fold_left (fun res f => if 0 <? pin_count_ f then res ++ [page_id_ f] else res) (pages_ b) [].

(** The constructor, given an empty page table and an empty replacer. *)
Definition create_with (t : T) (r : R) (pool_size : nat) (d : DiskManager) : BufferPoolManager :=
  mkBPM (replicate pool_size fresh_page) d t r (seq 0 pool_size).

(** ** Clients

    A client writes through the pointer it got ([CWrite]) while it has the page
    pinned. *)
Inductive call :=
| CFetch (p : Z)
| CNew
| CUnpin (p : Z) (dirty : bool)
| CFlush (p : Z)
| CDelete (p : Z)
| CWrite (p : Z) (data : list Z)
| CPinned.

Inductive answer :=
| APage (data : option (list Z))
| ANew (p : Z) (data : option (list Z))
| ABool (ok : bool)
| ANum (n : Z)
| ADone.

Definition frame_data (b : BufferPoolManager) (o : option nat) : option (list Z) :=
  i ← o; data_ <$> pages_ b !! i.

(** The store through the pointer the client got from [FetchPage] or [NewPage]. *)
Definition client_write (p : Z) (data : list Z) (b : BufferPoolManager) :
    result BufferPoolManager :=
  let* found := ht_find p (page_table_ b) in
  let* i := from_option_r MemFault found in
  let* f := get_page b i in
  Ok (put_page b i (mkPage data (page_id_ f) (pin_count_ f) (is_dirty_ f))).

Definition exec (c : call) (b : BufferPoolManager) : result (answer * BufferPoolManager) :=
  match c with
  | CFetch p => let* r := FetchPage p b in Ok (APage (frame_data r.2 r.1), r.2)
  | CNew => let* r := NewPage b in Ok (ANew r.1.1 (frame_data r.2 r.1.2), r.2)
  | CUnpin p dirty => let* r := UnpinPage p dirty b in Ok (ABool r.1, r.2)
  | CFlush p => let* r := FlushPage p b in Ok (ADone, r.2)
  | CDelete p => let* r := DeletePage p b in Ok (ABool r.1, r.2)
  | CWrite p data => let* b' := client_write p data b in Ok (ADone, b')
  | CPinned => Ok (ANum (PinnedNum b), b)
  end.

Fixpoint run (cs : list call) (b : BufferPoolManager) : result (list answer * BufferPoolManager) :=
  match cs with
  | [] => Ok ([], b)
  | c :: cs' =>
      let* ab := exec c b in
      let* rb := run cs' ab.2 in
      Ok (ab.1 :: rb.1, rb.2)
  end.

End Pool.
Arguments BufferPoolManager : clear implicits.

(** ** Specification: a store of pages with pin counts

    [contents] are the pages the store has to remember, [pins] the positive pin
    counts, [unsaved] the pages written through a pointer since their last unpin
    with the dirty flag, [next] the next page id, [capacity] the number of frames. *)
Record Store := mkStore {
  contents : gmap Z (list Z);
  pins : gmap Z Z;
  unsaved : gset Z;
  next : Z;
  capacity : nat
}.

Definition full (s : Store) : bool := bool_decide (size (pins s) = capacity s).

Definition pin (p : Z) (s : Store) : Store :=
  mkStore (contents s) (<[p := default 0 (pins s !! p) + 1]> (pins s)) (unsaved s) (next s)
          (capacity s).

(** The last pin of a page goes without the dirty flag although the client wrote the
    page: the store does not know the page any more. *)
Definition loses (p : Z) (dirty : bool) (s : Store) : bool :=
  negb dirty && bool_decide (pins s !! p = Some 1) && bool_decide (p ∈ unsaved s).

Definition exec_spec (c : call) (s : Store) : answer * Store :=
  match c with
  | CFetch p =>
      if bool_decide (pins s !! p = None) && full s then (APage None, s)
      else (APage (contents s !! p), pin p s)
  | CNew =>
      let s' n := mkStore n (pins s) (unsaved s) (next s + 1) (capacity s) in
      if full s then (ANew (next s) None, s' (contents s))
      else (ANew (next s) (Some zero_page),
            pin (next s) (s' (<[next s := zero_page]> (contents s))))
  | CUnpin p dirty =>
      match pins s !! p with
      | Some k =>
          (ABool true,
           mkStore (if loses p dirty s then delete p (contents s) else contents s)
                   (if k =? 1 then delete p (pins s) else <[p := k - 1]> (pins s))
                   (if dirty || loses p dirty s then unsaved s ∖ {[p]} else unsaved s)
                   (next s) (capacity s))
      | None => (ABool false, s)
      end
  | CDelete p =>
      match pins s !! p with
      | Some _ => (ABool false, s)
      | None => (ABool true, mkStore (delete p (contents s)) (pins s) (unsaved s) (next s) (capacity s))
      end
  | CFlush p => (ADone, s)
  | CWrite p data =>
      (ADone, mkStore (<[p := data]> (contents s)) (pins s) ({[p]} ∪ unsaved s) (next s)
                      (capacity s))
  | CPinned => (ANum (Z.of_nat (size (pins s))), s)
  end.

Fixpoint run_spec (cs : list call) (s : Store) : list answer * Store :=
  match cs with
  | [] => ([], s)
  | c :: cs' =>
      let '(a, s1) := exec_spec c s in
      let '(l, s2) := run_spec cs' s1 in (a :: l, s2)
  end.

(** The store knows the page. *)
Definition known (p : Z) (s : Store) : Prop := is_Some (pins s !! p) \/ is_Some (contents s !! p).

(** The protocol of the clients: only pages the store remembers are fetched, the other
    calls name a page that is pinned or remembered, and only pinned pages are written. *)
Definition call_ok (c : call) (s : Store) : Prop :=
  match c with
  | CFetch p => is_Some (contents s !! p)
  | CNew => page_id_in_file (next s)
  | CUnpin p _ | CFlush p | CDelete p => p <> INVALID_PAGE_ID /\ known p s
  | CWrite p data => is_Some (pins s !! p) /\ length data = Z.to_nat PAGE_SIZE
  | CPinned => True
  end.

Fixpoint calls_ok (cs : list call) (s : Store) : Prop :=
  match cs with
  | [] => True
  | c :: cs' => call_ok c s /\ calls_ok cs' (exec_spec c s).2
  end.

Definition init_store (pool_size : nat) (n : Z) : Store := mkStore ∅ ∅ ∅ n pool_size.

(** ** The simulation relation

    [m] is the map the page table represents and [l] the list the replacer
    represents; [hole] is a frame taken out by [take_frame] and not yet reinstalled. *)
Section Relation.
Context {T R : Type} `{HashTable Z nat T} `{Replacer nat R}.
Context `{!HashTableLaws Z nat T} `{!ReplacerLaws nat R}.

(** The bytes of page [p]: its frame's when it is resident, the file's otherwise. *)
Definition page_bytes (b : BufferPoolManager T R) (m : gmap Z nat) (p : Z) : option (list Z) :=
  match m !! p with
  | Some i => data_ <$> pages_ b !! i
  | None => stored (disk_manager_ b) p
  end.

Definition frame_ok (b : BufferPoolManager T R) (m : gmap Z nat) (l : list nat) (i : nat)
    (f : Page) : Prop :=
  length (data_ f) = Z.to_nat PAGE_SIZE /\ 0 <= pin_count_ f /\
  ((i ∈ free_list_ b /\ (i ∉ l) /\ pin_count_ f = 0) \/
   ((i ∉ free_list_ b) /\ m !! page_id_ f = Some i /\ (i ∈ l <-> pin_count_ f = 0))).

(** The page table has the entry of every page the store remembers.  It may also have
    entries of pages that were deleted. *)
Definition table_ok (t : T) (m : gmap Z nat) (c : gmap Z (list Z)) : Prop :=
  exists mt, ht_repr t mt /\ m ⊆ mt /\ (forall p, is_Some (c !! p) -> mt !! p = m !! p) /\
             (forall p, is_Some (mt !! p) -> page_id_in_file p).

Record rel (hole : option nat) (b : BufferPoolManager T R) (m : gmap Z nat) (l : list nat)
    (s : Store) : Prop := {
  r_table : table_ok (page_table_ b) m (contents s);
  r_repl : rp_repr (replacer_ b) l;
  r_disk : healthy (disk_manager_ b);
  r_count : page_count (disk_manager_ b) <= next s;
  r_next : next_page_id_ (disk_manager_ b) = next s;
  r_cap : length (pages_ b) = capacity s;
  r_free : NoDup (free_list_ b);
  r_inside i : i ∈ free_list_ b \/ i ∈ l \/ hole = Some i -> is_Some (pages_ b !! i);
  r_hole i : hole = Some i -> (i ∉ free_list_ b) /\ (i ∉ l);
  r_hole_page i f : hole = Some i -> pages_ b !! i = Some f -> length (data_ f) = Z.to_nat PAGE_SIZE;
  r_frames i f : pages_ b !! i = Some f -> hole <> Some i -> frame_ok b m l i f;
  r_map p i : m !! p = Some i ->
    page_id_in_file p /\ p < next s /\ hole <> Some i /\ (i ∉ free_list_ b) /\
    exists f, pages_ b !! i = Some f /\ page_id_ f = p;
  r_pins p k : pins s !! p = Some k <->
    0 < k /\ exists i f, m !! p = Some i /\ pages_ b !! i = Some f /\ pin_count_ f = k;
  r_contents p c : contents s !! p = Some c -> page_bytes b m p = Some c;
  r_clean p i f : m !! p = Some i -> pages_ b !! i = Some f -> is_dirty_ f = false ->
    p ∉ unsaved s -> is_Some (contents s !! p) -> stored (disk_manager_ b) p = Some (data_ f);
  r_unsaved p : p ∈ unsaved s -> is_Some (pins s !! p)
}.

(** ** Lemmas: the page table *)

Lemma table_ok_find t m c p : table_ok t m c -> is_Some (m !! p) \/ is_Some (c !! p) -> ht_find p t = Ok (m !! p).
Proof.
  intros (mt & Hmt & Hsub & Hc & _) Hp. rewrite (ht_find_law _ _ _ Hmt). f_equal.
  destruct Hp as [[i Hi]|Hp]; [|by apply Hc]. rewrite Hi. by eapply lookup_weaken.
Qed.

Lemma table_ok_mono t m c c' : table_ok t m c -> (forall p, is_Some (c' !! p) -> is_Some (c !! p) \/ is_Some (m !! p)) ->
  table_ok t m c'.
Proof.
  intros (mt & Hmt & Hsub & Hc & Hid) Hc'. exists mt. do 2 (split; [done|]). split; [|done].
  intros p [Hp|[i Hi]]%Hc'; [by apply Hc|]. rewrite Hi. by eapply lookup_weaken.
Qed.

(** An entry of the map is removed from the table. *)
Lemma table_ok_evict t m c p : table_ok t m c -> is_Some (m !! p) ->
  exists t', ht_remove p t = Ok (true, t') /\ table_ok t' (delete p m) c.
Proof.
  intros (mt & Hmt & Hsub & Hc & Hid) [i Hi].
  destruct (ht_remove_law t mt p Hmt) as (t' & Hrem & Ht'). exists t'.
  rewrite Hrem, bool_decide_eq_true_2 by (exists i; by eapply lookup_weaken). split; [done|].
  exists (delete p mt). split; [done|]. split; [by apply delete_mono|]. split.
  - intros q Hq. destruct (decide (q = p)) as [->|Hne]; [by rewrite !lookup_delete_eq|].
    rewrite !lookup_delete_ne by done. by apply Hc.
  - intros q Hq. apply Hid. destruct Hq as [j [_ Hj]%lookup_delete_Some]. by exists j.
Qed.

(** ** Lemmas: the disk under the pool *)

Lemma rel_disk_same hole b m l s d :
  rel hole b m l s -> healthy d -> content (db_io_ d) = content (db_io_ (disk_manager_ b)) ->
  next_page_id_ d = next_page_id_ (disk_manager_ b) -> rel hole (set_disk b d) m l s.
Proof.
  intros Hr Hh Hc Hn.
  assert (Hcount : page_count d = page_count (disk_manager_ b)) by (unfold page_count; by rewrite Hc).
  assert (Hst : forall q, stored d q = stored (disk_manager_ b) q)
    by (intros q; unfold stored; by rewrite Hcount, Hc).
  destruct Hr. split; try done; simpl.
  - by rewrite Hcount.
  - by rewrite Hn.
  - intros p c Hp. unfold page_bytes in *. simpl. rewrite Hst. auto.
  - intros. rewrite Hst. eauto.
Qed.

(** Writing a resident page to the file changes no page. *)
Lemma rel_write_back hole b m l s p i f :
  rel hole b m l s -> m !! p = Some i -> pages_ b !! i = Some f ->
  exists d, WritePage p (data_ f) (disk_manager_ b) = Ok d /\
            rel hole (set_disk b d) m l s /\ stored d p = Some (data_ f).
Proof.
  intros Hr Hm Hf. destruct (r_map _ _ _ _ _ Hr p i Hm) as (Hp & Hlt & Hh & Hfree & f' & Hf' & Hpid).
  assert (f' = f) as -> by congruence. pose proof (r_disk _ _ _ _ _ Hr) as Hd.
  destruct (r_frames _ _ _ _ _ Hr i f Hf Hh) as (Hlen & _ & _).
  pose proof (write_page_ok p _ _ Hd Hp Hlen) as Hw. eexists. split; [exact Hw|].
  pose proof (healthy_write _ _ _ _ Hd Hp Hlen Hw) as [Hd' Hcount].
  pose proof (fun q => stored_write _ _ _ _ q Hd Hp Hlen Hw) as Hst.
  set (d' := set_db _ _) in *. clearbody d'.
  assert (Hn : next_page_id_ d' = next_page_id_ (disk_manager_ b)).
  { rewrite write_page_ok in Hw by done. by injection Hw as <-. }
  assert (Hp' : stored d' p = Some (data_ f)) by (rewrite Hst; unfold write_spec; by rewrite decide_True).
  split; [|done]. destruct Hr. split; try done; simpl.
  - rewrite Hcount. lia.
  - by rewrite Hn.
  - intros q c Hq. specialize (r_contents0 q c Hq). unfold page_bytes in *. simpl.
    destruct (m !! q) eqn:Emq; [done|]. rewrite Hst. unfold write_spec.
    case_decide; [congruence|]. case_decide; [|done]. by rewrite r_contents0.
  - intros q j g Hq Hg Hdirty Hu Hk. rewrite Hst. unfold write_spec.
    case_decide as Hqp; [subst q; congruence|].
    specialize (r_clean0 q j g Hq Hg Hdirty Hu Hk). case_decide; [|done]. by rewrite r_clean0.
Qed.

(** The page of a resident, not written page can be read from the file. *)
Lemma rel_read hole b m l s p buf c :
  rel hole b m l s -> m !! p = None -> contents s !! p = Some c ->
  length buf = Z.to_nat PAGE_SIZE ->
  page_id_in_file p /\ p < next s /\ stored (disk_manager_ b) p = Some c /\
  exists d, ReadPage p buf (disk_manager_ b) = Ok (c, d) /\ rel hole (set_disk b d) m l s /\
            stored d p = Some c.
Proof.
  intros Hr Hm Hc Hb. pose proof (r_disk _ _ _ _ _ Hr) as Hd.
  pose proof (r_contents _ _ _ _ _ Hr p c Hc) as Hs. unfold page_bytes in Hs. rewrite Hm in Hs.
  pose proof Hs as Hst. unfold stored in Hs.
  destruct (_ && _) eqn:E; [|done]. zify_bool. injection Hs as Hs.
  pose proof (h_max _ Hd). pose proof (page_count_len _ Hd). pose proof (r_count _ _ _ _ _ Hr).
  assert (Hp : page_id_in_file p) by (unfold page_id_in_file, PAGE_SIZE in *; lia).
  split; [done|]. split; [lia|]. split; [done|].
  rewrite read_page_in by done. rewrite Hs. eexists. split; [done|].
  split; [|done]. apply rel_disk_same; try done. split; try done; apply Hd.
Qed.

(** ** Lemmas: pin counts *)

Definition pinned_at (b : BufferPoolManager T R) (i : nat) : Prop :=
  0 < default 0 (pin_count_ <$> pages_ b !! i).

#[local] Instance pinned_at_dec b i : Decision (pinned_at b i).
Proof. unfold pinned_at. apply _. Defined.

Definition pinned_idx (b : BufferPoolManager T R) : list nat :=
  filter (pinned_at b) (seq 0 (length (pages_ b))).

Lemma pins_lookup b m l s p :
  rel None b m l s ->
  is_Some (pins s !! p) <-> exists i, m !! p = Some i /\ pinned_at b i.
Proof.
  intros Hr. unfold pinned_at. split.
  - intros [k (Hk & i & f & Hm & Hf & Hpin)%(r_pins _ _ _ _ _ Hr)].
    exists i. split; [done|]. rewrite Hf. simpl. lia.
  - intros (i & Hm & Hpin). destruct (r_map _ _ _ _ _ Hr p i Hm) as (_ & _ & _ & _ & f & Hf & _).
    rewrite Hf in Hpin. exists (pin_count_ f). apply (r_pins _ _ _ _ _ Hr). simpl in Hpin.
    split; [lia|]. by exists i, f.
Qed.

Lemma pinned_page b m l s i :
  rel None b m l s -> pinned_at b i ->
  exists f, pages_ b !! i = Some f /\ m !! page_id_ f = Some i.
Proof.
  intros Hr Hp. unfold pinned_at in Hp. destruct (pages_ b !! i) as [f|] eqn:Hf; [|simpl in Hp; lia].
  exists f. split; [done|]. destruct (r_frames _ _ _ _ _ Hr i f Hf) as (_ & _ & [Hx|Hx]); [done| |].
  - simpl in Hp. lia.
  - apply Hx.
Qed.

Definition frame_page_id (b : BufferPoolManager T R) (i : nat) : Z :=
  default 0 (page_id_ <$> pages_ b !! i).

Lemma size_pins b m l s : rel None b m l s -> size (pins s) = length (pinned_idx b).
Proof.
  intros Hr.
  assert (Hdom : dom (pins s) = list_to_set (frame_page_id b <$> pinned_idx b)).
  { apply set_eq. intros p. rewrite elem_of_dom, elem_of_list_to_set, (pins_lookup _ _ _ _ p Hr).
    rewrite list_elem_of_fmap. unfold pinned_idx. split.
    - intros (i & Hm & Hp). destruct (pinned_page _ _ _ _ i Hr Hp) as (f & Hf & _).
      destruct (r_map _ _ _ _ _ Hr p i Hm) as (_ & _ & _ & _ & f' & Hf' & Hpid).
      exists i. split; [unfold frame_page_id; rewrite Hf'; done|].
      apply list_elem_of_filter. split; [done|]. apply elem_of_seq.
      apply lookup_lt_Some in Hf. lia.
    - intros (i & -> & [Hp _]%list_elem_of_filter).
      destruct (pinned_page _ _ _ _ i Hr Hp) as (f & Hf & Hm). exists i.
      unfold frame_page_id. by rewrite Hf. }
  rewrite <- size_dom, Hdom, size_list_to_set, length_fmap; [done|].
  apply NoDup_fmap_2_strong; [|apply NoDup_filter, NoDup_seq].
  intros i j [Hi _]%list_elem_of_filter [Hj _]%list_elem_of_filter.
  destruct (pinned_page _ _ _ _ i Hr Hi) as (f & Hf & Hmi).
  destruct (pinned_page _ _ _ _ j Hr Hj) as (g & Hg & Hmj).
  unfold frame_page_id. rewrite Hf, Hg. simpl. congruence.
Qed.

Lemma pinned_num_acc (ps : list Page) n :
  fold_left (fun sum f => if 0 <? pin_count_ f then sum + 1 else sum) ps n =
  n + Z.of_nat (length (filter (fun i => 0 < default 0 (pin_count_ <$> ps !! i)) (seq 0 (length ps)))).
Proof.
  revert n. induction ps as [|f ps IH] using rev_ind; intros n; [simpl; lia|].
  rewrite fold_left_app, IH, length_app, seq_app, filter_app, length_app.
  assert (E : filter (fun i => 0 < default 0 (pin_count_ <$> (ps ++ [f]) !! i)) (seq 0 (length ps)) =
              filter (fun i => 0 < default 0 (pin_count_ <$> ps !! i)) (seq 0 (length ps))).
  { apply list_filter_iff_in. intros i Hi%elem_of_seq. by rewrite lookup_app_l by lia. }
  rewrite E. cbn [length seq Nat.add fold_left]. rewrite filter_cons, filter_nil.
  rewrite lookup_app_r, Nat.sub_diag by lia. cbn [lookup list_lookup fmap option_fmap option_map default].
  destruct (0 <? pin_count_ f) eqn:Ep; zify_bool; case_decide as Hd; simpl in *; lia.
Qed.

Lemma pinned_num b m l s : rel None b m l s -> PinnedNum b = Z.of_nat (size (pins s)).
Proof. intros Hr. rewrite (size_pins _ _ _ _ Hr). unfold PinnedNum. apply pinned_num_acc. Qed.

Lemma not_full b m l s i :
  rel None b m l s -> is_Some (pages_ b !! i) -> ~ pinned_at b i -> full s = false.
Proof.
  intros Hr [f Hi] Hp. unfold full. apply bool_decide_eq_false. rewrite (size_pins _ _ _ _ Hr).
  rewrite <- (r_cap _ _ _ _ _ Hr). unfold pinned_idx.
  assert (length (filter (pinned_at b) (seq 0 (length (pages_ b)))) <
          length (seq 0 (length (pages_ b))))%nat as Hlt.
  { apply length_filter_lt with i; [|done]. apply elem_of_seq. apply lookup_lt_Some in Hi. lia. }
  rewrite length_seq in Hlt. lia.
Qed.

Lemma all_pinned b m s : rel None b m [] s -> free_list_ b = [] -> full s = true.
Proof.
  intros Hr Hfree. unfold full. apply bool_decide_eq_true. rewrite (size_pins _ _ _ _ Hr).
  rewrite <- (r_cap _ _ _ _ _ Hr). unfold pinned_idx. rewrite list_filter_all; [by rewrite length_seq|].
  intros i Hi%elem_of_seq. unfold pinned_at.
  destruct (lookup_lt_is_Some_2 (pages_ b) i) as [f Hf]; [lia|]. rewrite Hf. simpl.
  destruct (r_frames _ _ _ _ _ Hr i f Hf) as (_ & Hge & [Hx|(_ & _ & Hx)]); [done| |].
  - rewrite Hfree in Hx. destruct Hx as [Hx _]. by apply not_elem_of_nil in Hx.
  - destruct (decide (pin_count_ f = 0)) as [E|]; [|lia]. apply Hx in E. by apply not_elem_of_nil in E.
Qed.

(** ** Lemmas: taking and installing a frame *)

Lemma rel_take_free b m l s i rest :
  rel None b m l s -> free_list_ b = i :: rest -> rel (Some i) (set_free b rest) m l s.
Proof.
  intros Hr Hf. pose proof (r_free _ _ _ _ _ Hr) as Hnd. rewrite Hf in Hnd.
  apply NoDup_cons in Hnd as [Hni Hnd].
  destruct (r_inside _ _ _ _ _ Hr i) as [fi Hfi]; [left; rewrite Hf; left|].
  assert (Hil : i ∉ l).
  { destruct (r_frames _ _ _ _ _ Hr i fi Hfi) as (_ & _ & [(_ & ? & _)|(Hx & _)]); [done|done|].
    rewrite Hf in Hx. destruct Hx. left. }
  destruct Hr. rewrite Hf in *. split; try done; simpl.
  - intros j [Hj|[Hj|[= <-]]]; [apply r_inside0; left; by right|apply r_inside0; tauto|by exists fi].
  - by intros j [= <-].
  - intros j f [= <-] Hj. by apply (r_frames0 i f).
  - intros j f Hj Hne. destruct (r_frames0 j f Hj) as (? & ? & Hx); [done|].
    rewrite Hf in Hx. split; [done|]. split; [done|].
    destruct Hx as [([->|?]%elem_of_cons & ?)|(Hx & ?)]; [congruence|by left|right].
    split; [|done]. intros Hin. apply Hx. by right.
  - intros p j Hp. destruct (r_map0 p j Hp) as (? & ? & _ & Hx & ?).
    split; [done|]. split; [done|]. split; [|split; [|done]].
    + intros [= ->]. apply Hx. left.
    + intros Hin. apply Hx. by right.
Qed.

Lemma rel_evict b m l' s i f t' r' :
  rel None b m (l' ++ [i]) s -> NoDup (l' ++ [i]) -> free_list_ b = [] ->
  pages_ b !! i = Some f -> m !! page_id_ f = Some i ->
  (is_Some (contents s !! page_id_ f) -> stored (disk_manager_ b) (page_id_ f) = Some (data_ f)) ->
  table_ok t' (delete (page_id_ f) m) (contents s) -> rp_repr r' l' ->
  rel (Some i) (set_table (set_replacer b r') t') (delete (page_id_ f) m) l' s.
Proof.
  intros Hr Hnd Hfree Hf Hm Hst Ht' Hr'.
  apply NoDup_app in Hnd as (_ & Hdisj & _).
  assert (Hil : i ∉ l') by (intros Hin; apply (Hdisj i Hin); set_solver).
  assert (Hpin : pin_count_ f = 0).
  { destruct (r_frames _ _ _ _ _ Hr i f Hf) as (_ & _ & [(_ & _ & ?)|(_ & _ & Hx)]); [done|done|].
    apply Hx. apply elem_of_app; right; left. }
  assert (Hother : forall p j, delete (page_id_ f) m !! p = Some j -> m !! p = Some j /\ j <> i).
  { intros p j [Hne Hpj]%lookup_delete_Some. split; [done|]. intros ->.
    destruct (r_map _ _ _ _ _ Hr p i Hpj) as (_ & _ & _ & _ & g & Hg & Hpid). congruence. }
  destruct Hr. split; try done; simpl.
  - intros j [Hj|[Hj|[= <-]]]; [apply r_inside0; by left| |by exists f].
    apply r_inside0. right; left. apply elem_of_app. by left.
  - intros j [= <-]. rewrite Hfree. split; [apply not_elem_of_nil|done].
  - intros j g [= <-] Hj. by apply (r_frames0 i g).
  - intros j g Hj Hne. destruct (r_frames0 j g Hj) as (? & ? & Hx); [done|].
    split; [done|]. split; [done|]. simpl.
    destruct Hx as [(Hx & _)|(Hx & Hmj & Hl)]; [rewrite Hfree in Hx; by apply not_elem_of_nil in Hx|right].
    split; [done|]. split.
    + apply lookup_delete_Some. split; [|done]. intros E. rewrite <- E in Hmj. congruence.
    + rewrite <- Hl. rewrite elem_of_app, list_elem_of_singleton.
      split; [by left|]. intros [?| ->]; [done|congruence].
  - intros p j [Hp Hne]%Hother. destruct (r_map0 p j Hp) as (? & ? & _ & Hx).
    split; [done|]. split; [done|]. split; [congruence|done].
  - intros p k. rewrite r_pins0. split.
    + intros (Hk & j & g & Hmp & Hg & Hk'). split; [done|]. exists j, g.
      split; [|done]. apply lookup_delete_Some. split; [|done]. intros <-.
      assert (j = i) as -> by congruence. assert (g = f) as -> by congruence. lia.
    + intros (Hk & j & g & [Hmp _]%Hother & Hg & Hk'). split; [done|]. by exists j, g.
  - intros p c Hc. specialize (r_contents0 p c Hc). unfold page_bytes in *. simpl.
    destruct (decide (p = page_id_ f)) as [->|Hne].
    + rewrite lookup_delete_eq. rewrite Hm, Hf in r_contents0. simpl in r_contents0. rewrite Hst by eauto. congruence.
    + by rewrite lookup_delete_ne by done.
  - intros p j g [Hp _]%Hother. eauto.
Qed.

(** [take_frame] fails exactly when every frame is pinned; otherwise it yields a
    frame that nothing refers to. *)
Lemma take_frame_spec b m l s :
  rel None b m l s ->
  (full s = true /\ exists b', take_frame b = Ok (None, b') /\ rel None b' m l s) \/
  (full s = false /\ exists i b' m' l', take_frame b = Ok (Some i, b') /\
     rel (Some i) b' m' l' s /\ (forall p, m !! p = None -> m' !! p = None) /\
     (forall p j, m !! p = Some j -> is_Some (pins s !! p) -> m' !! p = Some j) /\
     (forall j, pages_ b' !! j = pages_ b !! j)).
Proof.
  intros Hr. unfold take_frame. destruct (free_list_ b) as [|i rest] eqn:Hfree.
  2:{ right. destruct (r_inside _ _ _ _ _ Hr i) as [fi Hfi]; [left; rewrite Hfree; left|].
      split.
      - apply (not_full b m l s i Hr); [by exists fi|]. unfold pinned_at. rewrite Hfi. simpl.
        destruct (r_frames _ _ _ _ _ Hr i fi Hfi) as (_ & _ & [(_ & _ & ->)|(Hx & _)]); [done|lia|].
        rewrite Hfree in Hx. destruct Hx; left.
      - exists i, (set_free b rest), m, l. split; [done|]. split; [by apply rel_take_free|]. done. }
  pose proof (rp_victim_law (replacer_ b) l (r_repl _ _ _ _ _ Hr)) as [Hv Hr'].
  destruct (recency_victim l) as [[i|] l'] eqn:Hvic;
    destruct (rp_victim (replacer_ b)) as [o r']; simpl in Hv, Hr'; subst o.
  2:{ apply recency_victim_none in Hvic as [-> ->]. left.
      split; [by apply (all_pinned b m s)|]. eexists. split; [done|].
      destruct Hr. split; done. }
  right. pose proof (rp_repr_nodup _ _ (r_repl _ _ _ _ _ Hr)) as Hnd.
  apply recency_victim_spec in Hvic as (-> & Hil & _); [|done].
  destruct (r_inside _ _ _ _ _ Hr i) as [f Hf]; [right; left; set_solver|].
  destruct (r_frames _ _ _ _ _ Hr i f Hf) as (_ & _ & [(Hx & _)|(_ & Hm & Hpin)]);
    [done|rewrite Hfree in Hx; by apply not_elem_of_nil in Hx|].
  assert (Hp0 : pin_count_ f = 0) by (apply Hpin; apply elem_of_app; right; left).
  assert (Hnp : pins s !! page_id_ f = None).
  { apply eq_None_not_Some. rewrite (pins_lookup _ _ _ _ _ Hr). intros (j & Hj & Hpj).
    assert (j = i) as -> by congruence. unfold pinned_at in Hpj. rewrite Hf in Hpj. simpl in Hpj. lia. }
  split.
  { apply (not_full b m _ s i Hr); [by exists f|]. unfold pinned_at. rewrite Hf. simpl. lia. }
  unfold get_page. simpl. rewrite Hf. simpl.
  destruct (table_ok_evict _ _ _ (page_id_ f) (r_table _ _ _ _ _ Hr)) as (t' & Hrem & Ht'); [by rewrite Hm|].
  rewrite Hrem. simpl.
  assert (Hkeep : forall p j, m !! p = Some j -> is_Some (pins s !! p) ->
                              delete (page_id_ f) m !! p = Some j).
  { intros p j Hj Hpp. apply lookup_delete_Some. split; [|done]. intros <-.
    rewrite Hnp in Hpp. by destruct Hpp. }
  assert (Hnone : forall p, m !! p = None -> delete (page_id_ f) m !! p = None).
  { intros p Hp. apply lookup_delete_None. by right. }
  destruct (is_dirty_ f) eqn:Hdirty.
  - destruct (rel_write_back None b m _ s _ i f Hr Hm Hf) as (d & Hw & Hrd & Hst).
    rewrite Hw. simpl. eexists i, _, _, l'. split; [done|].
    split; [|done]. by apply (rel_evict (set_disk b d) m l' s i f).
  - eexists i, _, _, l'. split; [done|]. split; [|done].
    apply (rel_evict b m l' s i f); try done.
    intros Hk. apply (r_clean _ _ _ _ _ Hr _ i f); try done.
    intros Hu. destruct (r_unsaved _ _ _ _ _ Hr _ Hu) as [k Hk2]. congruence.
Qed.

(** The pins of the frames, when the frame [i] takes the page [p] with a pin count [k]. *)
Definition frame_pin (pages : list Page) (m : gmap Z nat) (q k : Z) : Prop :=
  0 < k /\ exists j f, m !! q = Some j /\ pages !! j = Some f /\ pin_count_ f = k.

Lemma frame_pin_other pages m i p q k f :
  (forall q j, m !! q = Some j -> q <> p -> j <> i) -> q <> p ->
  frame_pin (<[i := f]> pages) (<[p := i]> m) q k <-> frame_pin pages m q k.
Proof.
  intros Hmi Hne. unfold frame_pin. rewrite lookup_insert_ne by done.
  split; intros (Hk & j & g & Hq & Hg & Hkg); (split; [done|]); exists j, g; (split; [done|]).
  - by rewrite list_lookup_insert_ne in Hg by (by apply not_eq_sym, (Hmi q)).
  - by rewrite list_lookup_insert_ne by (by apply not_eq_sym, (Hmi q)).
Qed.

Lemma frame_pin_self pages m i p k f : is_Some (pages !! i) ->
  frame_pin (<[i := f]> pages) (<[p := i]> m) p k <-> 0 < k /\ k = pin_count_ f.
Proof.
  intros Hi%lookup_lt_is_Some. unfold frame_pin. rewrite lookup_insert_eq. split.
  - intros (Hk & j & g & [= <-] & Hg & <-). rewrite list_lookup_insert_eq in Hg by done. by injection Hg as <-.
  - intros [Hk ->]. split; [done|]. exists i, f. by rewrite list_lookup_insert_eq.
Qed.

Lemma rel_install b m l s i p data dirty t' :
  rel (Some i) b m l s -> m !! p = None -> page_id_in_file p -> p < next s ->
  table_ok t' (<[p := i]> m) (contents s) -> length data = Z.to_nat PAGE_SIZE ->
  (dirty = false -> stored (disk_manager_ b) p = Some data) ->
  (forall c, contents s !! p = Some c -> c = data) ->
  rel None (set_table (put_page b i (mkPage data p 1 dirty)) t') (<[p := i]> m) l (pin p s).
Proof.
  intros Hr Hm Hp Hlt Ht' Hlen Hclean Hc.
  destruct (r_inside _ _ _ _ _ Hr i) as [fi Hfi]; [by right; right|].
  destruct (r_hole _ _ _ _ _ Hr i eq_refl) as [Hif Hil].
  assert (Hpin : pins s !! p = None).
  { destruct (pins s !! p) as [k|] eqn:E; [|done].
    apply (r_pins _ _ _ _ _ Hr) in E as (_ & j & g & Hx & _). congruence. }
  assert (Hmi : forall q j, m !! q = Some j -> j <> i).
  { intros q j Hq ->. destruct (r_map _ _ _ _ _ Hr q i Hq) as (_ & _ & Hx & _). done. }
  assert (Hi : <[i := mkPage data p 1 dirty]> (pages_ b) !! i = Some (mkPage data p 1 dirty)).
  { apply list_lookup_insert_eq. by apply lookup_lt_Some in Hfi. }
  destruct Hr. split; try done; simpl.
  - by rewrite length_insert.
  - intros j Hj. destruct (decide (j = i)) as [->|Hne]; [by rewrite Hi|].
    rewrite list_lookup_insert_ne by done. apply r_inside0. destruct Hj as [?|[?|?]]; tauto || done.
  - intros j g Hj _. destruct (decide (j = i)) as [->|Hne].
    + rewrite Hi in Hj. injection Hj as <-. split; [done|]. split; [simpl; lia|]. right. simpl.
      rewrite lookup_insert_eq. split; [done|]. split; [done|]. split; [done|lia].
    + rewrite list_lookup_insert_ne in Hj by done.
      destruct (r_frames0 j g Hj) as (? & ? & Hx); [congruence|]. split; [done|]. split; [done|].
      destruct Hx as [?|(? & Hmj & ?)]; [by left|right]. split; [done|]. split; [|done]. simpl.
      rewrite lookup_insert_ne; [done|]. intros E. rewrite <- E in Hmj. congruence.
  - intros q j [[<- <-]|[Hne Hq]]%lookup_insert_Some.
    + split; [done|]. split; [done|]. split; [done|]. split; [done|]. rewrite Hi. eauto.
    + destruct (r_map0 q j Hq) as (? & ? & _ & ? & Hx). split; [done|]. split; [done|].
      split; [done|]. split; [done|]. rewrite list_lookup_insert_ne by (by apply not_eq_sym, (Hmi q)).
      done.
  - intros q k. rewrite Hpin. simpl. fold (frame_pin (<[i := mkPage data p 1 dirty]> (pages_ b)) (<[p := i]> m) q k).
    destruct (decide (q = p)) as [->|Hne].
    + rewrite lookup_insert_eq, frame_pin_self by eauto. simpl. split; [intros [= <-]; lia|]. by intros [_ ->].
    + rewrite lookup_insert_ne, frame_pin_other by eauto. apply r_pins0.
  - intros q c Hq. unfold page_bytes. simpl. destruct (decide (q = p)) as [->|Hne].
    + rewrite lookup_insert_eq, Hi. simpl. by rewrite (Hc c).
    + rewrite lookup_insert_ne by done. specialize (r_contents0 q c Hq). unfold page_bytes in *.
      destruct (m !! q) as [j|] eqn:Hmq; [|done].
      by rewrite list_lookup_insert_ne by (by apply not_eq_sym, (Hmi q)).
  - intros q j g [[<- <-]|[Hne Hq]]%lookup_insert_Some Hg Hdirty Hu Hk.
    + rewrite Hi in Hg. injection Hg as <-. simpl in *. by apply Hclean.
    + rewrite list_lookup_insert_ne in Hg by (by apply not_eq_sym, (Hmi q)). eauto.
  - intros q Hq. destruct (r_unsaved0 q Hq) as [k Hk]. apply lookup_insert_is_Some.
    destruct (decide (p = q)); [by left|right]. split; [done|]. by exists k.
Qed.

(** Changing the bookkeeping or the bytes of one resident frame. *)
Lemma rel_update b m l s p i f f' r' l' cs' ps' us' :
  rel None b m l s -> m !! p = Some i -> pages_ b !! i = Some f ->
  page_id_ f' = p -> 0 <= pin_count_ f' -> length (data_ f') = Z.to_nat PAGE_SIZE ->
  rp_repr r' l' -> (forall j, j <> i -> j ∈ l' <-> j ∈ l) -> (i ∈ l' <-> pin_count_ f' = 0) ->
  (forall q, q <> p -> ps' !! q = pins s !! q) ->
  ps' !! p = (if 0 <? pin_count_ f' then Some (pin_count_ f') else None) ->
  (forall q c, cs' !! q = Some c -> (q = p /\ c = data_ f') \/ (q <> p /\ contents s !! q = Some c)) ->
  (forall q, q <> p -> q ∈ us' <-> q ∈ unsaved s) ->
  (p ∈ us' -> 0 < pin_count_ f') ->
  (is_dirty_ f' = false -> p ∉ us' -> is_Some (cs' !! p) -> stored (disk_manager_ b) p = Some (data_ f')) ->
  rel None (set_replacer (put_page b i f') r') m l' (mkStore cs' ps' us' (next s) (capacity s)).
Proof.
  intros Hr Hm Hf Hid Hge Hlen Hr' Hl Hli Hps Hp Hcs Hus Hup Hclean.
  assert (Hi : <[i := f']> (pages_ b) !! i = Some f')
    by (apply list_lookup_insert_eq; by apply lookup_lt_Some in Hf).
  assert (Hmi : forall q j, m !! q = Some j -> q <> p -> j <> i).
  { intros q j Hq Hne ->. destruct (r_map _ _ _ _ _ Hr q i Hq) as (_ & _ & _ & _ & g & Hg & Hgid).
    destruct (r_map _ _ _ _ _ Hr p i Hm) as (_ & _ & _ & _ & g' & Hg' & Hgid'). congruence. }
  destruct (r_map _ _ _ _ _ Hr p i Hm) as (_ & _ & _ & Hifree & _).
  assert (Hks : forall q, is_Some (cs' !! q) -> is_Some (contents s !! q) \/ is_Some (m !! q))
    by (intros q [c [[-> _]|[_ Hc]]%Hcs]; eauto).
  destruct Hr. split; try done; simpl.
  - by eapply table_ok_mono.
  - by rewrite length_insert.
  - intros j Hj. destruct (decide (j = i)) as [->|Hne]; [by rewrite Hi|].
    rewrite list_lookup_insert_ne by done. apply r_inside0.
    destruct Hj as [?|[?|?]]; [by left| |done]. right; left. by apply Hl.
  - intros j g Hj _. destruct (decide (j = i)) as [->|Hne].
    + rewrite Hi in Hj. injection Hj as <-. split; [done|]. split; [done|]. right.
      rewrite Hid. done.
    + rewrite list_lookup_insert_ne in Hj by done.
      destruct (r_frames0 j g Hj) as (? & ? & Hx); [done|]. split; [done|]. split; [done|].
      simpl. by rewrite (Hl j Hne).
  - intros q j Hq. destruct (r_map0 q j Hq) as (? & ? & _ & ? & g & Hg & Hgid).
    split; [done|]. split; [done|]. split; [done|]. split; [done|].
    destruct (decide (j = i)) as [->|Hne].
    + exists f'. split; [done|]. rewrite Hid. destruct (decide (q = p)) as [->|Hqp]; [done|].
      by destruct (Hmi q i Hq Hqp).
    + rewrite list_lookup_insert_ne by done. eauto.
  - intros q k. fold (frame_pin (<[i := f']> (pages_ b)) m q k). rewrite <- (insert_id m p i Hm).
    destruct (decide (q = p)) as [->|Hqp].
    + rewrite Hp, frame_pin_self by eauto. destruct (Z.ltb_spec 0 (pin_count_ f')).
      * split; [by intros [= <-]|]. by intros [_ ->].
      * split; [done|]. lia.
    + rewrite (Hps q Hqp), frame_pin_other by eauto. apply r_pins0.
  - intros q c [[-> ->]|[Hqp Hc]]%Hcs; unfold page_bytes in *; simpl.
    + by rewrite Hm, Hi.
    + specialize (r_contents0 q c Hc). unfold page_bytes in *.
      destruct (m !! q) as [j|] eqn:Hmq; [|done].
      by rewrite list_lookup_insert_ne by (by apply not_eq_sym, (Hmi q)).
  - intros q j g Hq Hg Hd Hu [c Hk]. destruct (decide (q = p)) as [->|Hqp].
    + assert (j = i) as -> by congruence. rewrite Hi in Hg. injection Hg as <-. eauto.
    + rewrite list_lookup_insert_ne in Hg by (by apply not_eq_sym, (Hmi q)).
      apply (r_clean0 q j g); try done; [by rewrite <- (Hus q)|].
      destruct (Hcs q c Hk) as [[-> _]|[_ Hc]]; [done|by exists c].
  - intros q Hq. destruct (decide (q = p)) as [->|Hqp].
    + rewrite Hp, (proj2 (Z.ltb_lt _ _)) by auto. done.
    + rewrite (Hps q Hqp). apply r_unsaved0. by apply Hus.
Qed.

Lemma rel_alloc b m l s d :
  rel None b m l s -> page_id_in_file (next s) -> AllocatePage (disk_manager_ b) = (next s, d) ->
  rel None (set_disk b d) m l
      (mkStore (contents s) (pins s) (unsaved s) (next s + 1) (capacity s)).
Proof.
  intros Hr Hn [= _ <-]. pose proof (r_next _ _ _ _ _ Hr) as Hnext.
  destruct Hr. split; try done; simpl.
  - destruct r_disk0. by split.
  - unfold page_count in *. simpl. lia.
  - rewrite Hnext. apply swrap_id; [lia|]. unfold page_id_in_file, in_sint in *. lia.
  - intros p i Hp. destruct (r_map0 p i Hp) as (? & ? & Hx). split; [done|]. split; [lia|done].
Qed.

Lemma rel_remember b m l s p c :
  rel None b m l s -> is_Some (m !! p) -> page_bytes b m p = Some c ->
  (forall i f, m !! p = Some i -> pages_ b !! i = Some f -> is_dirty_ f = true) ->
  rel None b m l (mkStore (<[p := c]> (contents s)) (pins s) (unsaved s) (next s) (capacity s)).
Proof.
  intros Hr Hp Hc Hd. destruct Hr. split; try done; simpl.
  - eapply table_ok_mono; [done|]. intros q Hq. destruct (decide (q = p)) as [->|Hne]; [by right|left].
    by rewrite lookup_insert_ne in Hq.
  - intros q c' [[<- <-]|[_ Hq]]%lookup_insert_Some; auto.
  - intros q i f Hq Hf Hdirty Hu Hk. destruct (decide (q = p)) as [->|Hne]; [by rewrite (Hd i f) in Hdirty|].
    rewrite lookup_insert_ne in Hk by done. eauto.
Qed.

Lemma set_replacer_id (b : BufferPoolManager T R) : set_replacer b (replacer_ b) = b.
Proof. by destruct b. Qed.

Lemma table_find b m l s p : rel None b m l s -> known p s -> ht_find p (page_table_ b) = Ok (m !! p).
Proof.
  intros Hr Hp. eapply table_ok_find; [by apply Hr|]. destruct Hp as [[k Hk]|Hp]; [left|by right].
  apply (r_pins _ _ _ _ _ Hr) in Hk as (_ & i & f & Hi & _). by exists i.
Qed.

(** A resident page, its frame and its pin count. *)
Lemma resident b m l s p i :
  rel None b m l s -> m !! p = Some i ->
  exists f, pages_ b !! i = Some f /\ get_page b i = Ok f /\ page_id_ f = p /\
    0 <= pin_count_ f /\ length (data_ f) = Z.to_nat PAGE_SIZE /\
    (i ∈ l <-> pin_count_ f = 0) /\
    pins s !! p = (if 0 <? pin_count_ f then Some (pin_count_ f) else None).
Proof.
  intros Hr Hm. destruct (r_map _ _ _ _ _ Hr p i Hm) as (_ & _ & _ & Hfree & f & Hf & Hid).
  destruct (r_frames _ _ _ _ _ Hr i f Hf) as (Hlen & Hge & [(Hx & _)|(_ & _ & Hl)]); [done|done|].
  exists f. unfold get_page. rewrite Hf. do 6 (split; [done|]).
  destruct (0 <? pin_count_ f) eqn:E; zify_bool.
  - apply (r_pins _ _ _ _ _ Hr). split; [done|]. by exists i, f.
  - destruct (pins s !! p) as [k|] eqn:Ek; [|done].
    apply (r_pins _ _ _ _ _ Hr) in Ek as (Hk & j & g & Hj & Hg & Hgk).
    assert (j = i) as -> by congruence. assert (g = f) as -> by congruence. lia.
Qed.

Lemma not_resident_pins b m l s p : rel None b m l s -> m !! p = None -> pins s !! p = None.
Proof.
  intros Hr Hm. destruct (pins s !! p) as [k|] eqn:Ek; [|done].
  apply (r_pins _ _ _ _ _ Hr) in Ek as (_ & i & f & Hi & _). congruence.
Qed.

Lemma contents_id b m l s p c :
  rel None b m l s -> contents s !! p = Some c -> (p =? INVALID_PAGE_ID) = false.
Proof.
  intros Hr Hc. pose proof (r_contents _ _ _ _ _ Hr p c Hc) as Hx. apply Z.eqb_neq. intros ->.
  unfold page_bytes in Hx. destruct (m !! _) as [i|] eqn:Hm; [|done].
  destruct (r_map _ _ _ _ _ Hr _ i Hm) as ([Hge _] & _). unfold INVALID_PAGE_ID in Hge. lia.
Qed.

(** ** The methods, one by one *)

Definition simulates (c : call) : Prop :=
  forall (b : BufferPoolManager T R) m l s, rel None b m l s -> call_ok c s ->
  exists b' m' l', exec c b = Ok ((exec_spec c s).1, b') /\ rel None b' m' l' (exec_spec c s).2 /\
    (forall p i, m !! p = Some i -> is_Some (pins s !! p) -> m' !! p = Some i).

Context (Hkeys : forall p, page_id_in_file p -> ht_key_ok p).

Lemma insert_resident hole b m l s p i :
  rel hole b m l s -> page_id_in_file p ->
  exists t', ht_insert p i (page_table_ b) = Ok t' /\ table_ok t' (<[p := i]> m) (contents s).
Proof.
  intros Hr Hp. destruct (r_table _ _ _ _ _ Hr) as (mt & Hmt & Hsub & Hc & Hid).
  destruct (ht_insert_law _ mt p i Hmt) as (t' & Hins & Ht'); [by apply Hkeys|by intros q Hq; apply Hkeys, Hid|].
  exists t'. split; [done|]. exists (<[p := i]> mt). split; [done|]. split; [by apply insert_mono|]. split.
  - intros q Hq. destruct (decide (q = p)) as [->|Hne]; [by rewrite !lookup_insert_eq|].
    rewrite !lookup_insert_ne by done. by apply Hc.
  - intros q Hq. destruct (decide (q = p)) as [->|Hne]; [done|]. rewrite lookup_insert_ne in Hq by done. by apply Hid.
Qed.

Lemma fetch_hit b m l s p i :
  rel None b m l s -> is_Some (contents s !! p) -> m !! p = Some i ->
  exists b' l', FetchPage p b = Ok (Some i, b') /\ rel None b' m l' (pin p s) /\
                frame_data b' (Some i) = contents s !! p.
Proof.
  intros Hr [c Hc] Hm. destruct (resident _ _ _ _ _ _ Hr Hm) as (f & Hf & Hget & Hid & Hge & Hlen & Hl & Hp).
  unfold FetchPage. rewrite (contents_id _ _ _ _ _ _ Hr Hc), assert_true.
  rewrite (table_find _ _ _ _ _ Hr) by (right; by exists c). rewrite bind_ok, Hm, Hget, bind_ok.
  assert (Hcf : c = data_ f).
  { pose proof (r_contents _ _ _ _ _ Hr p c Hc) as Hx. unfold page_bytes in Hx.
    rewrite Hm, Hf in Hx. by injection Hx. }
  set (f' := mkPage _ _ _ _).
  assert (Hupd : forall r' l', rp_repr r' l' -> (forall j, j <> i -> j ∈ l' <-> j ∈ l) -> i ∉ l' ->
            rel None (set_replacer (put_page b i f') r') m l' (pin p s)).
  { intros r' l' Hr' Hl' Hil. unfold pin.
    apply (rel_update b m l s p i f f' r' l'); try done; try (simpl; lia).
    - split; [done|]. unfold f'. simpl. intros. exfalso. lia.
    - intros q Hq. by rewrite lookup_insert_ne.
    - rewrite lookup_insert_eq, Hp. simpl. rewrite (proj2 (Z.ltb_lt 0 (pin_count_ f + 1))) by lia.
      destruct (0 <? pin_count_ f) eqn:E; zify_bool; simpl; f_equal; lia.
    - intros q c' Hq. destruct (decide (q = p)) as [->|]; [left|by right]. split; [done|]. simpl.
      congruence.
    - intros Hd Hu Hk. by apply (r_clean _ _ _ _ _ Hr p i f). }
  assert (Hdata : forall r', frame_data (set_replacer (put_page b i f') r') (Some i) = contents s !! p).
  { intros r'. unfold frame_data. simpl. rewrite list_lookup_insert_eq by (by apply lookup_lt_Some in Hf).
    simpl. by rewrite Hc, Hcf. }
  destruct (pin_count_ f =? 0) eqn:E; zify_bool.
  - destruct (rp_erase_law (replacer_ b) l i (r_repl _ _ _ _ _ Hr)) as [_ Hr'].
    eexists _, _. split; [done|]. split; [|apply (Hdata (rp_erase i (replacer_ b)).2)].
    apply (Hupd _ _ Hr').
    + intros j Hj. unfold recency_erase. simpl. rewrite list_elem_of_filter. tauto.
    + unfold recency_erase. simpl. rewrite list_elem_of_filter. tauto.
  - eexists _, l. split; [done|]. split; [|apply (Hdata (replacer_ b))].
    apply (Hupd (replacer_ b) l); [apply Hr|done|]. intros Hin%Hl. lia.
Qed.

Lemma fetch_simulates p : simulates (CFetch p).
Proof.
  intros b m l s Hr [c Hc]. cbn [exec exec_spec].
  destruct (m !! p) as [i|] eqn:Hm.
  - destruct (fetch_hit _ _ _ _ _ _ Hr (ex_intro _ c Hc) Hm) as (b' & l' & Hf & Hr' & Hd).
    exists b', m, l'. rewrite Hf, bind_ok. cbn [fst snd]. rewrite Hd.
    destruct (bool_decide (pins s !! p = None) && full s) eqn:E; [|done].
    apply andb_true_iff in E as [E Hfull]. apply bool_decide_eq_true in E.
    destruct (resident _ _ _ _ _ _ Hr Hm) as (f & Hfr & _ & _ & Hge & _ & _ & Hp).
    rewrite (not_full b m l s i Hr) in Hfull; [done|by exists f|].
    unfold pinned_at. rewrite Hfr. simpl. intros Hlt.
    rewrite (proj2 (Z.ltb_lt _ _) Hlt) in Hp. congruence.
  - unfold FetchPage. rewrite (contents_id _ _ _ _ _ _ Hr Hc), assert_true.
    rewrite (table_find _ _ _ _ _ Hr) by (right; by exists c). rewrite bind_ok, Hm.
    rewrite (bool_decide_eq_true_2 _ (not_resident_pins _ _ _ _ _ Hr Hm)). simpl andb.
    destruct (take_frame_spec _ _ _ _ Hr)
      as [(-> & b' & Ht & Hr')|(-> & i & b1 & m1 & l1 & Ht & Hr1 & Hm1 & Hkeep & _)]; rewrite Ht, !bind_ok.
    + exists b', m, l. done.
    + destruct (r_inside _ _ _ _ _ Hr1 i) as [f Hf]; [by right; right|].
      unfold get_page. rewrite Hf. cbn [from_option_r]. rewrite bind_ok.
      destruct (rel_read _ _ _ _ _ _ (data_ f) c Hr1 (Hm1 p Hm) Hc) as (Hp & Hlt & _ & d & Hrd & Hr2 & Hst).
      { by apply (r_hole_page _ _ _ _ _ Hr1 i). }
      rewrite Hrd, bind_ok. cbn [fst snd]. cbn [page_table_ put_page set_pages set_disk].
      destruct (insert_resident _ _ _ _ _ p i Hr1 Hp) as (t' & Hins & Ht'). rewrite Hins, bind_ok.
      eexists _, _, _. rewrite bind_ok. split.
      * cbn [fst snd]. do 3 f_equal. unfold frame_data. simpl.
        rewrite list_lookup_insert_eq by (by apply lookup_lt_Some in Hf). by rewrite Hc.
      * split; [|intros q j Hq Hpin; rewrite lookup_insert_ne; [by apply Hkeep|by intros <-; rewrite Hm in Hq]].
        apply (rel_install (set_disk b1 d) m1 l1 s i p c false t'); auto.
        { pose proof Hst as Hx. unfold stored in Hx.
          destruct (_ && _) eqn:E; [|done]. zify_bool. injection Hx as <-.
          pose proof (page_count_len _ (r_disk _ _ _ _ _ Hr2)) as Hpl. simpl in Hpl.
          apply length_slice; unfold PAGE_SIZE in *; lia. }
        intros c' Hc'. congruence.
Qed.

Lemma new_simulates : simulates CNew.
Proof.
  intros b m l s Hr Hn. cbn [exec exec_spec]. unfold NewPage, AllocatePage.
  rewrite (r_next _ _ _ _ _ Hr). set (d := mkDM _ _ _ _ _ _ _).
  pose proof (rel_alloc b m l s d Hr Hn) as Hr0.
  specialize (Hr0 ltac:(unfold AllocatePage; by rewrite (r_next _ _ _ _ _ Hr))).
  assert (Hm : m !! next s = None).
  { destruct (m !! next s) as [j|] eqn:E; [|done].
    destruct (r_map _ _ _ _ _ Hr _ _ E) as (_ & Hlt & _). lia. }
  destruct (take_frame_spec _ _ _ _ Hr0)
    as [(Hfull & b' & Ht & Hr')|(Hfull & i & b1 & m1 & l1 & Ht & Hr1 & Hm1 & Hkeep & _)];
    change (full (mkStore (contents s) (pins s) (unsaved s) (next s + 1) (capacity s)))
      with (full s) in Hfull; rewrite Ht, Hfull, !bind_ok.
  - exists b', m, l. done.
  - destruct (r_inside _ _ _ _ _ Hr1 i) as [f Hf]; [by right; right|].
    unfold get_page. rewrite Hf. cbn [from_option_r]. rewrite bind_ok.
    destruct (insert_resident _ _ _ _ _ (next s) i Hr1 Hn) as (t' & Hins & Ht').
    cbn [page_table_ put_page set_pages]. rewrite Hins, !bind_ok. cbn [fst snd].
    assert (Hlt : (i < length (pages_ b1))%nat) by (by apply lookup_lt_Some in Hf).
    replace (put_page (set_table (put_page b1 i (mkPage (data_ f) (next s) 1 true)) t') i
                      (mkPage zero_page (next s) 1 true))
      with (set_table (put_page b1 i (mkPage zero_page (next s) 1 true)) t').
    2:{ unfold put_page, set_pages, set_table. simpl. by rewrite list_insert_insert_eq. }
    eexists _, _, _. split.
    { do 3 f_equal. unfold frame_data. simpl. by rewrite list_lookup_insert_eq. }
    split; [|intros q j Hq Hpin; rewrite lookup_insert_ne; [by apply Hkeep|by intros <-; rewrite Hm in Hq]].
    apply (rel_remember _ _ _ (pin (next s) (mkStore (contents s) (pins s) (unsaved s)
                                                     (next s + 1) (capacity s))) (next s) zero_page).
    + apply (rel_install b1 m1 l1 _ i (next s) zero_page true t'); auto; try done.
      * simpl. lia.
      * simpl. intros c Hc. pose proof (r_contents _ _ _ _ _ Hr _ _ Hc) as Hx.
        unfold page_bytes in Hx. rewrite Hm in Hx. unfold stored in Hx.
        destruct (_ && _) eqn:E; [|done]. zify_bool. pose proof (r_count _ _ _ _ _ Hr). lia.
    + simpl. by rewrite lookup_insert_eq.
    + unfold page_bytes. simpl. by rewrite lookup_insert_eq, list_lookup_insert_eq.
    + intros j g. simpl. rewrite lookup_insert_eq. intros [= <-]. rewrite list_lookup_insert_eq by done. by intros [= <-].
Qed.

Lemma unpin_simulates p dirty : simulates (CUnpin p dirty).
Proof.
  intros b m l s Hr [Hne Hok]. cbn [exec exec_spec]. unfold UnpinPage.
  rewrite (proj2 (Z.eqb_neq _ _) Hne), assert_true, (table_find _ _ _ _ _ Hr Hok), bind_ok.
  destruct (m !! p) as [i|] eqn:Hm.
  2:{ rewrite (not_resident_pins _ _ _ _ _ Hr Hm). exists b, m, l. done. }
  destruct (resident _ _ _ _ _ _ Hr Hm) as (f & Hf & Hget & Hid & Hge & Hlen & Hl & Hp).
  rewrite Hget, bind_ok, Hp. destruct (0 <? pin_count_ f) eqn:E; [|by exists b, m, l].
  zify_bool. rewrite bind_ok. cbn [fst snd].
  assert (E1 : (pin_count_ f - 1 =? 0) = (pin_count_ f =? 1)).
  { destruct (pin_count_ f =? 1) eqn:E1; zify_bool; [apply Z.eqb_eq|apply Z.eqb_neq]; lia. }
  rewrite E1. set (f' := mkPage _ _ _ _). set (s' := mkStore _ _ _ _ _).
  assert (Hupd : forall r' l', rp_repr r' l' -> (forall j, j <> i -> j ∈ l' <-> j ∈ l) ->
            (i ∈ l' <-> pin_count_ f = 1) ->
            rel None (set_replacer (put_page b i f') r') m l' s').
  { intros r' l' Hr' Hl' Hil.
    apply (rel_update b m l s p i f f' r' l'); try done; try (simpl; lia).
    - rewrite Hil. simpl. lia.
    - intros q Hq. destruct (pin_count_ f =? 1);
        [by rewrite lookup_delete_ne|by rewrite lookup_insert_ne].
    - simpl. destruct (pin_count_ f =? 1) eqn:E2; zify_bool.
      + rewrite lookup_delete_eq. by rewrite (proj2 (Z.ltb_ge _ _)) by lia.
      + rewrite lookup_insert_eq. by rewrite (proj2 (Z.ltb_lt _ _)) by lia.
    - intros q c Hq. assert (Hq' : contents s !! q = Some c /\ (q <> p \/ loses p dirty s = false)).
      { destruct (loses p dirty s); [apply lookup_delete_Some in Hq as [? ?]|]; auto. }
      destruct Hq' as [Hqc _]. destruct (decide (q = p)) as [->|]; [left|by right]. split; [done|].
      pose proof (r_contents _ _ _ _ _ Hr p c Hqc) as Hx. unfold page_bytes in Hx.
      rewrite Hm, Hf in Hx. by injection Hx.
    - intros q Hq. destruct (dirty || loses p dirty s); [|done]. rewrite elem_of_difference, elem_of_singleton. tauto.
    - simpl. unfold loses. rewrite Hp. intros Hin.
      destruct (decide (pin_count_ f = 1)) as [E2|]; [|lia]. exfalso. revert Hin. rewrite E2, (bool_decide_eq_true_2 (_ = _)) by done.
      destruct dirty; cbn [orb negb andb]; [set_solver|]. case_bool_decide; set_solver.
    - simpl. intros Hd Hu Hk. apply orb_false_iff in Hd as [-> Hd]. destruct (loses p false s) eqn:El.
      { rewrite lookup_delete_eq in Hk. by destruct Hk. }
      by apply (r_clean _ _ _ _ _ Hr p i f). }
  destruct (pin_count_ f =? 1) eqn:E2; zify_bool.
  - eexists _, m, _. split; [done|]. split; [|done]. apply (Hupd _ _ (rp_insert_law _ l i (r_repl _ _ _ _ _ Hr))).
    + intros j Hj. unfold recency_insert. rewrite elem_of_cons, list_elem_of_filter. tauto.
    + unfold recency_insert. rewrite elem_of_cons. tauto.
  - eexists _, m, l. split; [done|]. split; [|done]. apply (Hupd (replacer_ b) l); [apply Hr|done|].
    rewrite Hl. lia.
Qed.

Lemma flush_simulates p : simulates (CFlush p).
Proof.
  intros b m l s Hr [Hne Hk]. cbn [exec exec_spec]. unfold FlushPage.
  rewrite (proj2 (Z.eqb_neq _ _) Hne), assert_true, (table_find _ _ _ _ _ Hr Hk), bind_ok.
  destruct (m !! p) as [i|] eqn:Hm; [|by exists b, m, l].
  destruct (resident _ _ _ _ _ _ Hr Hm) as (f & Hf & Hget & Hid & _).
  destruct (rel_write_back _ _ _ _ _ _ _ _ Hr Hm Hf) as (d & Hw & Hr' & _).
  rewrite Hget, bind_ok, Hid, Hw, !bind_ok. by exists (set_disk b d), m, l.
Qed.

Lemma write_simulates p data : simulates (CWrite p data).
Proof.
  intros b m l s Hr [Hp Hlen]. cbn [exec exec_spec]. unfold client_write.
  rewrite (table_find _ _ _ _ _ Hr) by (by left). rewrite bind_ok.
  destruct (m !! p) as [i|] eqn:Hm.
  2:{ rewrite (not_resident_pins _ _ _ _ _ Hr Hm) in Hp. by destruct Hp. }
  destruct (resident _ _ _ _ _ _ Hr Hm) as (f & Hf & Hget & Hid & Hge & _ & Hl & Hpin).
  cbn [from_option_r]. rewrite bind_ok, Hget, !bind_ok. cbn [fst snd].
  assert (Hpos : 0 < pin_count_ f).
  { rewrite Hpin in Hp. destruct (0 <? pin_count_ f) eqn:E; zify_bool; [done|by destruct Hp]. }
  eexists _, m, l. split; [done|]. split; [|done].
  rewrite <- (set_replacer_id (put_page _ _ _)).
  apply (rel_update b m l s p i f); try done; try apply Hr.
  - intros q c [[<- <-]|[Hqp Hq]]%lookup_insert_Some; [by left|right]. done.
  - intros q Hq. rewrite elem_of_union, elem_of_singleton. tauto.
  - intros _ Hu. rewrite elem_of_union, elem_of_singleton in Hu. tauto.
Qed.

(** The frame of a deleted page goes to the free list; the table keeps the entry. *)
Lemma table_ok_delete t m c p : table_ok t m c -> m !! INVALID_PAGE_ID = None ->
  exists removed t', ht_remove INVALID_PAGE_ID t = Ok (removed, t') /\ table_ok t' (delete p m) (delete p c).
Proof.
  intros (mt & Hmt & Hsub & Hc & Hid) Hinv. destruct (ht_remove_law t mt INVALID_PAGE_ID Hmt) as (t' & Hrem & Ht').
  eexists _, t'. split; [done|]. exists (delete INVALID_PAGE_ID mt). split; [done|]. split; [|split].
  - apply map_subseteq_spec. intros q j [_ Hq]%lookup_delete_Some. apply lookup_delete_Some. split; [congruence|].
    by eapply lookup_weaken.
  - intros q [x [Hqp Hq]%lookup_delete_Some]. rewrite (lookup_delete_ne m) by done. rewrite <- Hc by eauto.
    destruct (decide (q = INVALID_PAGE_ID)) as [->|Hne]; [|by rewrite lookup_delete_ne].
    by rewrite lookup_delete_eq, Hc, Hinv by eauto.
  - intros q [j [_ Hq]%lookup_delete_Some]. apply Hid. by exists j.
Qed.

Lemma rel_delete b m l s p i f t' r' l' :
  rel None b m l s -> m !! p = Some i -> pages_ b !! i = Some f -> pin_count_ f = 0 ->
  table_ok t' (delete p m) (delete p (contents s)) -> rp_repr r' l' -> (forall j, j ∈ l' <-> j ∈ l /\ j <> i) ->
  rel None (set_replacer (set_free (set_table (put_page b i (mkPage (data_ f) INVALID_PAGE_ID (pin_count_ f) false)) t')
                                   (free_list_ b ++ [i])) r') (delete p m) l'
      (mkStore (delete p (contents s)) (pins s) (unsaved s) (next s) (capacity s)).
Proof.
  intros Hr Hm Hf Hz Ht' Hr' Hl'. destruct (resident _ _ _ _ _ _ Hr Hm) as (f0 & Hf0 & _ & Hid & _ & Hlen & Hl & Hp).
  assert (f0 = f) as -> by congruence. rewrite Hz in Hp. simpl in Hp.
  destruct (r_map _ _ _ _ _ Hr p i Hm) as (_ & _ & _ & Hifree & _).
  assert (Hmi : forall q j, delete p m !! q = Some j -> m !! q = Some j /\ q <> p /\ j <> i).
  { intros q j [Hqp Hq]%lookup_delete_Some. split; [done|]. split; [done|]. intros ->.
    destruct (r_map _ _ _ _ _ Hr q i Hq) as (_ & _ & _ & _ & g & Hg & Hgid). congruence. }
  set (f' := mkPage _ _ _ _). assert (Hi : <[i := f']> (pages_ b) !! i = Some f')
    by (apply list_lookup_insert_eq; by apply lookup_lt_Some in Hf).
  destruct Hr. split; try done; simpl.
  - by rewrite length_insert.
  - apply NoDup_app. split; [done|]. split; [|apply NoDup_singleton]. intros j Hj ->%list_elem_of_singleton. done.
  - intros j Hj. destruct (decide (j = i)) as [->|Hne]; [by rewrite Hi|]. rewrite list_lookup_insert_ne by done.
    apply r_inside0. destruct Hj as [[?| ->%list_elem_of_singleton]%elem_of_app|[[? _]%Hl'|?]]; auto; done.
  - intros j g Hj _. destruct (decide (j = i)) as [->|Hne].
    + rewrite Hi in Hj. injection Hj as <-. split; [done|]. split; [simpl; lia|]. left. simpl.
      rewrite elem_of_app, list_elem_of_singleton, Hl'. tauto.
    + rewrite list_lookup_insert_ne in Hj by done. destruct (r_frames0 j g Hj) as (? & ? & Hx); [done|].
      split; [done|]. split; [done|]. simpl. rewrite elem_of_app, list_elem_of_singleton, Hl'.
      destruct Hx as [(? & ? & ?)|(? & Hmj & ?)]; [left; tauto|right]. split; [tauto|]. split; [|tauto].
      apply lookup_delete_Some. split; [|done]. intros E. rewrite <- E in Hmj. congruence.
  - intros q j (Hq & Hqp & Hj)%Hmi. destruct (r_map0 q j Hq) as (? & ? & _ & Hx & g & Hg & Hgid).
    do 3 (split; [done|]). split; [|by exists g; rewrite list_lookup_insert_ne].
    rewrite elem_of_app, list_elem_of_singleton. tauto.
  - intros q k. rewrite r_pins0. split; intros (Hk & j & g & Hq & Hg & Hgk); (split; [done|]); exists j, g.
    + assert (j <> i) by (intros ->; assert (g = f) as -> by congruence; lia).
      rewrite list_lookup_insert_ne by done. split; [|done]. apply lookup_delete_Some. split; [congruence|done].
    + apply Hmi in Hq as (Hq & _ & Hj). by rewrite list_lookup_insert_ne in Hg.
  - intros q c [Hqp Hc]%lookup_delete_Some. specialize (r_contents0 q c Hc). unfold page_bytes in *. simpl.
    rewrite lookup_delete_ne by done. destruct (m !! q) as [j|] eqn:Hq; [|done].
    rewrite list_lookup_insert_ne; [done|]. intros <-. destruct (Hmi q i) as (_ & _ & ?); [by rewrite lookup_delete_ne|done].
  - intros q j g (Hq & Hqp & Hj)%Hmi Hg Hd Hu Hk. rewrite lookup_delete_ne in Hk by done.
    rewrite list_lookup_insert_ne in Hg by done. eauto.
Qed.

(** A page that is not resident is only forgotten. *)
Lemma rel_forget b m l s p : rel None b m l s ->
  rel None b m l (mkStore (delete p (contents s)) (pins s) (unsaved s) (next s) (capacity s)).
Proof.
  intros Hr. destruct Hr. split; try done; simpl.
  - eapply table_ok_mono; [done|]. intros q [x [_ Hq]%lookup_delete_Some]. left. by exists x.
  - intros q c [_ Hc]%lookup_delete_Some. auto.
  - intros q i f Hq Hf Hd Hu [x [_ Hx]%lookup_delete_Some]. eauto.
Qed.

Lemma delete_simulates p : simulates (CDelete p).
Proof.
  intros b m l s Hr [Hne Hk]. cbn [exec exec_spec]. unfold DeletePage, DeallocatePage.
  rewrite (proj2 (Z.eqb_neq _ _) Hne), assert_true, (table_find _ _ _ _ _ Hr Hk), bind_ok.
  destruct (m !! p) as [i|] eqn:Hm.
  2:{ rewrite (not_resident_pins _ _ _ _ _ Hr Hm). exists b, m, l. split; [by destruct b|].
      split; [by apply rel_forget|done]. }
  destruct (resident _ _ _ _ _ _ Hr Hm) as (f & Hf & Hget & Hid & Hge & _ & _ & Hp). rewrite Hget, bind_ok, Hp.
  destruct (Z.ltb_spec 0 (pin_count_ f)) as [Hpos|Hz]; [rewrite (proj2 (Z.eqb_neq _ 0)) by lia|].
  { by exists b, m, l. }
  rewrite (proj2 (Z.eqb_eq _ 0)) by lia. cbn [page_table_ put_page set_pages page_id_].
  destruct (table_ok_delete _ _ _ p (r_table _ _ _ _ _ Hr)) as (x & t' & Hrem & Ht').
  { destruct (m !! INVALID_PAGE_ID) as [j|] eqn:E; [|done].
    destruct (r_map _ _ _ _ _ Hr _ _ E) as ([Hx _] & _). unfold INVALID_PAGE_ID in Hx. lia. }
  rewrite Hrem, !bind_ok. cbn [fst snd].
  destruct (rp_erase_law (replacer_ b) l i (r_repl _ _ _ _ _ Hr)) as [_ Hr'].
  eexists _, (delete p m), _. split; [done|]. split.
  - apply (rel_delete b m l s p i f t' _ _ Hr Hm Hf); [lia|done|exact Hr'|].
    intros j. unfold recency_erase. simpl. rewrite list_elem_of_filter. tauto.
  - intros q j Hq Hpin. rewrite lookup_delete_ne; [done|]. intros <-. rewrite Hp in Hpin.
    destruct (Z.ltb_spec 0 (pin_count_ f)); [lia|by destruct Hpin].
Qed.

Lemma pool_exec_refines c : simulates c.
Proof.
  destruct c; auto using fetch_simulates, new_simulates, unpin_simulates, flush_simulates,
                delete_simulates, write_simulates.
  intros b m l s Hr _. exists b, m, l. cbn [exec exec_spec]. by rewrite (pinned_num _ _ _ _ Hr).
Qed.

Lemma pool_run_refines cs (b : BufferPoolManager T R) m l s :
  rel None b m l s -> calls_ok cs s ->
  exists b' m' l', run cs b = Ok ((run_spec cs s).1, b') /\ rel None b' m' l' (run_spec cs s).2.
Proof.
  revert b m l s. induction cs as [|c cs IH]; intros b m l s Hr Hok.
  - by exists b, m, l.
  - destruct Hok as [Hc Hcs]. destruct (pool_exec_refines c b m l s Hr Hc) as (b1 & m1 & l1 & He & Hr1 & _).
    destruct (IH _ _ _ _ Hr1 Hcs) as (b2 & m2 & l2 & Hrun & Hr2).
    exists b2, m2, l2. cbn [run run_spec]. rewrite He, bind_ok. cbn [snd fst].
    rewrite Hrun, bind_ok. destruct (exec_spec c s) as [a s1]. simpl in *.
    by destruct (run_spec cs s1).
Qed.

(** ** Properties *)

(** A page stays in the frame the client was given a pointer to for as long as it
    is pinned: no call made in the meantime moves it. *)
Theorem pool_pointer_stable (b : BufferPoolManager T R) m l s c p i a b'
    (Hr : rel None b m l s) (Hc : call_ok c s)
    (Hi : ht_find p (page_table_ b) = Ok (Some i)) (Hp : is_Some (pins s !! p))
    (He : exec c b = Ok (a, b')) :
  ht_find p (page_table_ b') = Ok (Some i).
Proof.
  destruct (pool_exec_refines c b m l s Hr Hc) as (b1 & m1 & l1 & He1 & Hr1 & Hkeep).
  rewrite He in He1. injection He1 as -> ->.
  rewrite (table_find _ _ _ _ _ Hr) in Hi by (by left). injection Hi as Hi.
  pose proof (Hkeep _ _ Hi Hp) as Hi1. rewrite <- Hi1.
  eapply table_ok_find; [by apply Hr1|left; by exists i].
Qed.

(** *** What reaches the file *)

Definition file_of (b : BufferPoolManager T R) : list Z := content (db_io_ (disk_manager_ b)).

(** The calls that may need a frame, and the one that writes. *)
Definition takes_frame (c : call) : nat := match c with CFetch _ | CNew => 1 | _ => 0 end.
Definition flushes (c : call) : bool := match c with CFlush _ => true | _ => false end.

(** With [n] frames used from the free list, and the file as it was. *)
Definition quiet (n : nat) (b b' : BufferPoolManager T R) : Prop :=
  file_of b' = file_of b /\ (length (free_list_ b) <= length (free_list_ b') + n)%nat.

Lemma ReadPage_content p buf d r : ReadPage p buf d = Ok r -> content (db_io_ r.2) = content (db_io_ d).
Proof.
  unfold ReadPage. destruct (_ <? _); [by intros [= <-]|]. intros Hr.
  assert (Hs : content (sread (seekp (db_io_ d) (wrap32 (p * PAGE_SIZE))) PAGE_SIZE).2 = content (db_io_ d)).
  { unfold sread, seekp. by repeat case_match. }
  destruct (sread _ _) as [bs s]. inv_bind. exact Hs.
Qed.

Lemma take_frame_free b : (0 < length (free_list_ b))%nat ->
  exists i rest, free_list_ b = i :: rest /\ take_frame b = Ok (Some i, set_free b rest).
Proof. unfold take_frame. destruct (free_list_ b) as [|i rest]; simpl; [lia|]. by exists i, rest. Qed.

Lemma exec_quiet c b a b' : exec c b = Ok (a, b') -> flushes c = false ->
  (takes_frame c <= length (free_list_ b))%nat -> quiet (takes_frame c) b b'.
Proof.
  intros He Hf Hn. unfold quiet, file_of. destruct c; cbn [exec takes_frame flushes] in *; try done.
  - unfold FetchPage in He. destruct (take_frame_free b) as (i & rest & Hl & Ht); [lia|]. rewrite Ht in He.
    repeat first [case_match | progress inv_bind]; simplify_eq; simpl; try (split; [done|lia]).
    all: rewrite Hl; simpl; split; [|lia]; by eapply ReadPage_content.
  - unfold NewPage, AllocatePage in He. cbv zeta iota beta in He. set (d := mkDM _ _ _ _ _ _ _) in He.
    destruct (take_frame_free (set_disk b d)) as (i & rest & Hl & Ht); [done|]. rewrite Ht in He. cbn [free_list_ set_disk] in Hl.
    repeat first [case_match | progress inv_bind]; simplify_eq; simpl; rewrite Hl; split; [done|simpl; lia].
  - unfold UnpinPage in He. repeat first [case_match | progress inv_bind]; simplify_eq; simpl; split; done || lia.
  - unfold DeletePage, DeallocatePage in He. repeat first [case_match | progress inv_bind]; simplify_eq; simpl; split; try done; try rewrite length_app; lia.
  - unfold client_write in He. repeat first [case_match | progress inv_bind]; simplify_eq; simpl; split; done || lia.
  - simplify_eq. split; [done|lia].
Qed.

(** While no page has been evicted nothing is written: a sequence of calls without
    [FlushPage] that needs no more frames than are free leaves the file as it was. *)
Theorem pool_saves_nothing cs : forall (b b' : BufferPoolManager T R) l,
  run cs b = Ok (l, b') -> Forall (fun c => flushes c = false) cs ->
  (sum_list (takes_frame <$> cs) <= length (free_list_ b))%nat -> file_of b' = file_of b.
Proof.
  induction cs as [|c cs IH]; intros b b' l Hrun Hf Hn; cbn [run] in Hrun; [by simplify_eq|].
  destruct (exec c b) as [[a b1]|] eqn:He; [|done]. cbn [result_bind fst snd] in Hrun.
  destruct (run cs b1) as [[l1 b2]|] eqn:Hr; [|done]. cbn [result_bind fst snd] in Hrun. simplify_eq.
  apply Forall_cons in Hf as [Hc Hf]. cbn [fmap list_fmap sum_list sum_list_with] in Hn. unfold id in Hn.
  destruct (exec_quiet c b a b1 He Hc) as [Hsame Hlen]; [lia|]. rewrite <- Hsame. apply (IH _ _ _ Hr Hf).
  change (sum_list_with (fun x => x) (takes_frame <$> cs)) with (sum_list (takes_frame <$> cs)) in Hn. lia.
Qed.

(** [FlushPage] of a resident page makes the file hold the bytes of the page. *)
Theorem pool_flush_durable (b : BufferPoolManager T R) m l s p c
    (Hr : rel None b m l s) (Hp : is_Some (pins s !! p)) (Hc : contents s !! p = Some c) :
  exists b', FlushPage p b = Ok (true, b') /\ stored (disk_manager_ b') p = Some c.
Proof.
  apply (pins_lookup _ _ _ _ _ Hr) in Hp as (i & Hm & _).
  destruct (resident _ _ _ _ _ _ Hr Hm) as (f & Hf & Hget & Hid & _).
  destruct (rel_write_back _ _ _ _ _ _ _ _ Hr Hm Hf) as (d & Hw & _ & Hst).
  unfold FlushPage. rewrite (contents_id _ _ _ _ _ _ Hr Hc), assert_true.
  rewrite (table_find _ _ _ _ _ Hr) by (right; by exists c). rewrite bind_ok, Hm, Hget, bind_ok, Hid, Hw, bind_ok.
  eexists. split; [done|]. simpl. rewrite Hst.
  pose proof (r_contents _ _ _ _ _ Hr p c Hc) as Hx. unfold page_bytes in Hx.
  rewrite Hm, Hf in Hx. done.
Qed.

(** The entry of a deleted page stays in the page table, because the entry removed is
    that of [INVALID_PAGE_ID]: the table still sends the id to the frame, which is on
    the free list. *)
Theorem pool_delete_page (b : BufferPoolManager T R) m l s p i
    (Hr : rel None b m l s) (Hp : p <> INVALID_PAGE_ID) (Hm : m !! p = Some i) (Hpin : pins s !! p = None) :
  exists b', DeletePage p b = Ok (true, b') /\ i ∈ free_list_ b' /\ ht_find p (page_table_ b') = Ok (Some i).
Proof.
  destruct (resident _ _ _ _ _ _ Hr Hm) as (f & Hf & Hget & Hid & Hge & _ & Hl & Hpf). rewrite Hpin in Hpf.
  unfold DeletePage, DeallocatePage. rewrite (proj2 (Z.eqb_neq _ _) Hp), assert_true.
  rewrite (table_ok_find _ _ _ p (r_table _ _ _ _ _ Hr)) by (left; by exists i). rewrite bind_ok, Hm, Hget, bind_ok.
  destruct (Z.ltb_spec 0 (pin_count_ f)); [done|]. rewrite (proj2 (Z.eqb_eq _ 0)) by lia.
  cbn [page_table_ put_page set_pages page_id_]. destruct (r_table _ _ _ _ _ Hr) as (mt & Hmt & Hsub & _ & _).
  destruct (ht_remove_law (page_table_ b) mt INVALID_PAGE_ID Hmt) as (t' & Hrem & Ht').
  rewrite Hrem, bind_ok. eexists. split; [done|]. simpl. split; [apply elem_of_app; right; by left|].
  rewrite (ht_find_law _ _ _ Ht'), lookup_delete_ne by (by apply not_eq_sym). f_equal. by eapply lookup_weaken.
Qed.
End Relation.

(** ** The pool of the source: an extendible hash table and an LRU replacer *)

#[export] Existing Instance EHash.page_table_ops.
#[export] Existing Instance EHash.page_table_laws.
#[export] Existing Instance LRU.lru_replacer.
#[export] Existing Instance LRU.lru_replacer_laws.

Abbreviation Pool := (BufferPoolManager (EHash.Table Z nat) (LRU.LRUReplacer nat)).

Definition create (pool_size : nat) (d : DiskManager) : Pool :=
  create_with (EHash.create (Z.to_nat BUCKET_SIZE)) LRU.empty pool_size d.

(** A disk on which the next page id is not below the pages of the file. *)
Record disk_ok (d : DiskManager) : Prop := {
  do_healthy : healthy d;
  do_count : page_count d <= next_page_id_ d
}.

Definition store_of (pool_size : nat) (d : DiskManager) (c : gmap Z (list Z)) : Store :=
  mkStore c ∅ ∅ (next_page_id_ d) pool_size.

Lemma page_id_keys p : page_id_in_file p -> ht_key_ok (K := Z) (V := nat) (T := EHash.Table Z nat) p.
Proof. cbn. unfold page_id_in_file, EHash.page_id_ok. lia. Qed.

Lemma create_rel pool_size d c :
  disk_ok d -> (forall p x, c !! p = Some x -> stored d p = Some x) ->
  rel None (create pool_size d) ∅ [] (store_of pool_size d c).
Proof.
  intros [Hh Hcount] Hc.
  assert (Hfresh : forall i f, replicate pool_size fresh_page !! i = Some f ->
                               f = fresh_page /\ (i < pool_size)%nat)
    by (intros i f; apply lookup_replicate).
  split; try done; simpl.
  - exists ∅. split; [split; [apply EHash.create_repr|vm_compute; lia]|]. split; [done|].
    split; [done|]. intros p [i Hi]. by rewrite lookup_empty in Hi.
  - split; [apply LRU.wf_empty|done].
  - by rewrite length_replicate.
  - apply NoDup_seq.
  - intros i [Hi%elem_of_seq|[Hi|?]]; [|by apply not_elem_of_nil in Hi|done].
    rewrite lookup_replicate_2 by lia. eauto.
  - intros i f [-> Hi]%Hfresh _. split; [done|]. split; [simpl; lia|]. left.
    split; [apply elem_of_seq; lia|]. split; [apply not_elem_of_nil|done].
  - intros p k. rewrite lookup_empty. split; [done|]. intros (_ & i & f & Hx & _). done.
Qed.


(** ** Witnesses *)

Definition empty_disk : DiskManager := Disk.create true None None.

Lemma empty_disk_ok : disk_ok empty_disk.
Proof. split; [split; reflexivity|vm_compute; discriminate]. Qed.

(** Two frames and three pages: page 0 is written, evicted and read back. *)
Definition sample_session : list call :=
  [CNew; CWrite 0 (page_of 7); CUnpin 0 true; CNew; CUnpin 1 false; CNew; CFetch 1; CFetch 0;
   CUnpin 1 false; CFetch 0; CPinned].

Lemma sample_session_ok : calls_ok sample_session (store_of 2 empty_disk ∅).
Proof.
  repeat (cbn [calls_ok call_ok sample_session]; split); try exact I;
    try (vm_compute; by eauto); unfold known; try (left; vm_compute; by eauto).
Qed.


(** One frame, page 0 new and unpinned. *)
Definition sample_pool : Pool :=
  match run [CNew; CUnpin 0 true] (create 1 empty_disk) with
  | Ok (_, b) => b
  | Fail _ => create 1 empty_disk
  end.

Definition pinned_pool : Pool :=
  match run [CNew] (create 1 empty_disk) with
  | Ok (_, b) => b
  | Fail _ => create 1 empty_disk
  end.

Lemma sample_rel cs b :
  calls_ok cs (store_of 1 empty_disk ∅) -> run cs (create 1 empty_disk) = Ok b ->
  exists m l, rel None b.2 m l (run_spec cs (store_of 1 empty_disk ∅)).2.
Proof.
  intros Hok Hrun.
  destruct (pool_run_refines page_id_keys cs _ _ _ _
              (create_rel 1 empty_disk ∅ empty_disk_ok ltac:(intros p x; by rewrite lookup_empty)) Hok)
    as (b' & m' & l' & Hrun' & Hr).
  rewrite Hrun in Hrun'. injection Hrun' as ->. by exists m', l'.
Qed.

Lemma one_new_ok : calls_ok [CNew] (store_of 1 empty_disk ∅).
Proof. vm_compute. by split; [split; [discriminate|]|]. Qed.

Lemma new_unpin_ok : calls_ok [CNew; CUnpin 0 true] (store_of 1 empty_disk ∅).
Proof.
  split; [vm_compute; by split|]. split; [|exact I]. split; [discriminate|]. left. vm_compute. by eexists.
Qed.

Lemma pinned_pool_rel :
  exists m l, rel None pinned_pool m l (run_spec [CNew] (store_of 1 empty_disk ∅)).2.
Proof.
  destruct (sample_rel [CNew] _ one_new_ok eq_refl) as (m & l & Hr). exists m, l. exact Hr.
Qed.

Lemma sample_pool_rel :
  exists m l, rel None sample_pool m l (run_spec [CNew; CUnpin 0 true] (store_of 1 empty_disk ∅)).2.
Proof.
  destruct (sample_rel [CNew; CUnpin 0 true] _ new_unpin_ok eq_refl) as (m & l & Hr).
  exists m, l. exact Hr.
Qed.

Lemma pool_pointer_stable_witness :
  match exec (CFetch 0) pinned_pool with
  | Ok (_, b') => ht_find 0 (page_table_ b') = Ok (Some 0%nat)
  | Fail _ => False
  end.
Proof.
  destruct pinned_pool_rel as (m & l & Hr).
  destruct (exec (CFetch 0) pinned_pool) as [[a b']|e] eqn:He; [|discriminate He].
  apply (pool_pointer_stable page_id_keys pinned_pool m l _ (CFetch 0) 0 0 a b' Hr).
  - vm_compute. by eexists.
  - reflexivity.
  - vm_compute. by eexists.
  - exact He.
Defined.

Lemma pool_flush_durable_witness :
  exists b', FlushPage 0 pinned_pool = Ok (true, b') /\
             stored (disk_manager_ b') 0 = Some zero_page.
Proof.
  destruct pinned_pool_rel as (m & l & Hr).
  apply (pool_flush_durable pinned_pool m l _ 0 zero_page Hr).
  - vm_compute. by eexists.
  - reflexivity.
Defined.

(** The entry of the deleted page 0 makes [FetchPage 0] return the frame that the next
    new page got. *)
Lemma pool_delete_page_witness :
  0 <> INVALID_PAGE_ID /\
  exists b', DeletePage 0 sample_pool = Ok (true, b') /\
             ht_find 0 (page_table_ b') = Ok (Some 0%nat).
Proof.
  destruct sample_pool_rel as (m & l & Hr). split; [discriminate|].
  assert (Hm : m !! 0 = Some 0%nat).
  { pose proof (table_find sample_pool m l _ 0 Hr ltac:(right; by eexists)) as Hf. vm_compute in Hf. by injection Hf. }
  destruct (pool_delete_page sample_pool m l _ 0 0 Hr ltac:(discriminate) Hm eq_refl) as (b' & Hb' & _ & Hfind).
  by exists b'.
Defined.

Example deleted_page_aliases :
  (let* d := DeletePage 0 sample_pool in
   let* n := NewPage d.2 in
   let* f := FetchPage 0 n.2 in Ok (d.1, n.1, f.1)) =
  Ok (true, (1, Some 0%nat), Some 0%nat).
Proof. vm_compute. reflexivity. Qed.
End BufferPool.
