(* ===== verification/HeaderPage.v ===== *)
(** * The header page (src/src/page/header_page.cpp)

    The page that maps table and index names to root page ids: a record count in
    the first four bytes, then records of 36 bytes, a name and a root id.  Names are
    byte lists; [strcmp] is modelled on the bytes of the page. *)

From stdpp Require Import prelude list.
From Stdlib Require Import ZArith Lia.
From S2P Require Import Prelude.

Local Open Scope Z_scope.

Module Header.

(** [name.c_str()] as [strcmp] sees it. *)
Fixpoint c_str (name : list Z) : list Z :=
  match name with
  | [] => []
  | c :: name' => if c =? 0 then [] else c :: c_str name'
  end.

Definition byte_at (page : Buf) (off : Z) : result Z :=
  if 0 <=? off then from_option_r MemFault (page !! Z.to_nat off) else Fail MemFault.

(** [strcmp(page + off, s) == 0] *)
Fixpoint strcmp_eq (page : Buf) (off : Z) (s : list Z) : result bool :=
  let* c := byte_at page off in
  match s with
  | [] => Ok (c =? 0)
  | x :: s' => if c =? x then strcmp_eq page (off + 1) s' else Ok false
  end.

Definition GetRecordCount (page : Buf) : result Z := read_i32 page 0.
Definition SetRecordCount (page : Buf) (record_count : Z) : result Buf :=
  write_i32 page 0 record_count.

(** The loop of [FindRecord] from [i], with [n] rounds left. *)
Fixpoint find_loop (page : Buf) (name : list Z) (i : Z) (n : nat) : result Z :=
  match n with
  | O => Ok (-1)
  | S n' =>
      let* eq := strcmp_eq page (4 + i * 36) (c_str name) in
      if eq : bool then Ok i else find_loop page name (i + 1) n'
  end.

Definition FindRecord (name : list Z) (page : Buf) : result Z :=
  let* record_num := GetRecordCount page in
  find_loop page name 0 (Z.to_nat record_num).

Definition Init (page : Buf) : result Buf := SetRecordCount page 0.

Definition InsertRecord (name : list Z) (root_id : Z) (page : Buf) : result (bool * Buf) :=
  assert! Z.of_nat (length name) <? 32 ;;
  assert! INVALID_PAGE_ID <? root_id ;;
  let* record_num := GetRecordCount page in
  let offset := 4 + record_num * 36 in
  let* index := FindRecord name page in
  if negb (index =? -1) then Ok (false, page)
  else
    let* page := memwrite page offset (name ++ [0]) in
    let* page := write_i32 page (offset + 32) root_id in
    let* page := SetRecordCount page (record_num + 1) in
    Ok (true, page).

Definition DeleteRecord (name : list Z) (page : Buf) : result (bool * Buf) :=
  let* record_num := GetRecordCount page in
  assert! 0 <? record_num ;;
  let* index := FindRecord name page in
  if index =? -1 then Ok (false, page)
  else
    let offset := index * 36 + 4 in
    let* page := memmove page offset (offset + 36) ((record_num - index - 1) * 36) in
    let* page := SetRecordCount page (record_num - 1) in
    Ok (true, page).

Definition UpdateRecord (name : list Z) (root_id : Z) (page : Buf) : result (bool * Buf) :=
  assert! Z.of_nat (length name) <? 32 ;;
  let* index := FindRecord name page in
  if index =? -1 then Ok (false, page)
  else
    let offset := index * 36 + 4 in
    let* page := write_i32 page (offset + 32) root_id in
    Ok (true, page).

Definition GetRootId (name : list Z) (page : Buf) : result (option Z) :=
  assert! Z.of_nat (length name) <? 32 ;;
  let* index := FindRecord name page in
  if index =? -1 then Ok None
  else
    let offset := (index + 1) * 36 in
    let* root_id := read_i32 page offset in
    Ok (Some root_id).

(** ** Specification: an association list of at most 14 records *)

Definition max_records : nat := 14.

Inductive call :=
| CInsert (name : list Z) (root_id : Z)
| CDelete (name : list Z)
| CUpdate (name : list Z) (root_id : Z)
| CGet (name : list Z).

Inductive answer := ABool (ok : bool) | ARoot (root_id : option Z).

Definition exec (c : call) (page : Buf) : result (answer * Buf) :=
  match c with
  | CInsert name r => let* x := InsertRecord name r page in Ok (ABool x.1, x.2)
  | CDelete name => let* x := DeleteRecord name page in Ok (ABool x.1, x.2)
  | CUpdate name r => let* x := UpdateRecord name r page in Ok (ABool x.1, x.2)
  | CGet name => let* x := GetRootId name page in Ok (ARoot x, page)
  end.

Fixpoint run (cs : list call) (page : Buf) : result (list answer * Buf) :=
  match cs with
  | [] => Ok ([], page)
  | c :: cs' =>
      let* x := exec c page in
      let* y := run cs' x.2 in Ok (x.1 :: y.1, y.2)
  end.

Abbreviation Records := (list (list Z * Z)).

(** The position and the root id of a name. *)
Definition index_of (name : list Z) (rs : Records) : option nat :=
  fst <$> list_find (fun r => r.1 = name) rs.

Definition exec_spec (c : call) (rs : Records) : answer * Records :=
  match c with
  | CInsert name r =>
      match index_of name rs with
      | Some _ => (ABool false, rs)
      | None => (ABool true, rs ++ [(name, r)])
      end
  | CDelete name =>
      match index_of name rs with
      | Some i => (ABool true, delete i rs)
      | None => (ABool false, rs)
      end
  | CUpdate name r =>
      match index_of name rs with
      | Some i => (ABool true, <[i := (name, r)]> rs)
      | None => (ABool false, rs)
      end
  | CGet name => (ARoot (i ← index_of name rs; snd <$> rs !! i), rs)
  end.

Fixpoint run_spec (cs : list call) (rs : Records) : list answer * Records :=
  match cs with
  | [] => ([], rs)
  | c :: cs' =>
      let '(a, rs1) := exec_spec c rs in
      let '(l, rs2) := run_spec cs' rs1 in (a :: l, rs2)
  end.

Definition name_ok (name : list Z) : Prop :=
  (length name < 32)%nat /\ Forall (fun c => 0 < c < 256) name.

(** Deleting needs a record, inserting a free place. *)
Definition call_ok (c : call) (rs : Records) : Prop :=
  match c with
  | CInsert name r => name_ok name /\ 0 <= r /\ int32 r /\ (length rs < max_records)%nat
  | CDelete name => name_ok name /\ rs <> []
  | CUpdate name r => name_ok name /\ int32 r
  | CGet name => name_ok name
  end.

Fixpoint calls_ok (cs : list call) (rs : Records) : Prop :=
  match cs with
  | [] => True
  | c :: cs' => call_ok c rs /\ calls_ok cs' (exec_spec c rs).2
  end.

#[export] Instance name_ok_dec name : Decision (name_ok name).
Proof. unfold name_ok. apply _. Defined.

#[export] Instance call_ok_dec c rs : Decision (call_ok c rs).
Proof. destruct c; simpl; apply _. Defined.

#[export] Instance calls_ok_dec cs rs : Decision (calls_ok cs rs).
Proof. revert rs. induction cs as [|c cs IH]; intros rs; simpl; apply _. Defined.

(** The 36 bytes of a record. *)
Definition entry_ok (e : list Z) (r : list Z * Z) : Prop :=
  slice 0 (Z.of_nat (length r.1) + 1) e = r.1 ++ [0] /\ i32_at e 32 = r.2 /\
  name_ok r.1 /\ int32 r.2.

#[export] Instance entry_ok_dec e r : Decision (entry_ok e r).
Proof. unfold entry_ok. apply _. Defined.

Definition entry (page : Buf) (i : nat) : list Z := slice (4 + Z.of_nat i * 36) 36 page.

Record repr (page : Buf) (rs : Records) : Prop := {
  h_len : length page = Z.to_nat PAGE_SIZE;
  h_count : i32_at page 0 = Z.of_nat (length rs);
  h_max : (length rs <= max_records)%nat;
  h_entries i r : rs !! i = Some r -> entry_ok (entry page i) r;
  h_nodup : NoDup rs.*1
}.

(** ** Lemmas *)

Lemma c_str_id name : Forall (fun c => 0 < c < 256) name -> c_str name = name.
Proof.
  induction 1 as [|c name Hc _ IH]; simpl; [done|].
  rewrite (proj2 (Z.eqb_neq c 0)) by lia. by rewrite IH.
Qed.

Lemma byte_at_drop page off c l :
  0 <= off -> drop (Z.to_nat off) page = c :: l -> byte_at page off = Ok c.
Proof.
  intros Hoff Hd. unfold byte_at. rewrite (proj2 (Z.leb_le _ _) Hoff).
  replace (page !! Z.to_nat off) with (Some c); [done|].
  replace (Z.to_nat off) with (Z.to_nat off + 0)%nat by lia.
  rewrite <- lookup_drop, Hd. done.
Qed.

Lemma drop_next {A} (page : list A) off c l :
  0 <= off -> drop (Z.to_nat off) page = c :: l -> drop (Z.to_nat (off + 1)) page = l.
Proof.
  intros Hoff Hd. replace (Z.to_nat (off + 1)) with (Z.to_nat off + 1)%nat by lia.
  by rewrite <- drop_drop, Hd.
Qed.

(** [strcmp] compares with the bytes up to the terminating zero. *)
Lemma strcmp_eq_spec page off s n rest :
  0 <= off -> Forall (fun c => 0 < c < 256) s -> Forall (fun c => 0 < c < 256) n ->
  drop (Z.to_nat off) page = n ++ 0 :: rest ->
  strcmp_eq page off s = Ok (bool_decide (n = s)).
Proof.
  intros Hoff Hs. revert off n Hoff. induction Hs as [|x s Hx Hs IH]; intros off n Hoff Hn Hd;
    destruct n as [|c n]; cbn [app] in Hd; cbn [strcmp_eq];
    rewrite (byte_at_drop _ _ _ _ Hoff Hd), bind_ok.
  - done.
  - apply Forall_cons in Hn as [Hc _]. by rewrite (proj2 (Z.eqb_neq c 0)) by lia.
  - by rewrite (proj2 (Z.eqb_neq 0 x)) by lia.
  - apply Forall_cons in Hn as [Hc Hn]. destruct (c =? x) eqn:E; zify_bool.
    + subst x. rewrite (IH (off + 1) n) by (try lia; try done; by eapply drop_next).
      f_equal. apply bool_decide_ext. split; congruence.
    + f_equal. symmetry. apply bool_decide_eq_false. congruence.
Qed.

Lemma entry_drop page i r :
  length page = Z.to_nat PAGE_SIZE -> (i < max_records)%nat -> entry_ok (entry page i) r ->
  exists rest, drop (Z.to_nat (4 + Z.of_nat i * 36)) page = r.1 ++ 0 :: rest.
Proof.
  intros Hlen Hi (He & _ & Hn & _). unfold entry, slice in He.
  change (Z.to_nat 0) with 0%nat in He.
  rewrite drop_0, take_take, Nat.min_l in He by (destruct Hn; lia).
  exists (drop (Z.to_nat (Z.of_nat (length r.1) + 1)) (drop (Z.to_nat (4 + Z.of_nat i * 36)) page)).
  rewrite <- (take_drop (Z.to_nat (Z.of_nat (length r.1) + 1))
                (drop (Z.to_nat (4 + Z.of_nat i * 36)) page)) at 1.
  rewrite He. by rewrite <- app_assoc.
Qed.

Lemma repr_count page rs : repr page rs -> GetRecordCount page = Ok (Z.of_nat (length rs)).
Proof.
  intros H. unfold GetRecordCount. rewrite read_i32_ok; [by rewrite (h_count _ _ H)|lia|].
  rewrite (h_len _ _ H). unfold PAGE_SIZE. lia.
Qed.

(** [find_loop] from position [k] is the search in the records from [k]. *)
Lemma find_loop_spec page rs name k :
  repr page rs -> name_ok name ->
  find_loop page name (Z.of_nat k) (length rs - k) =
  Ok (from_option (fun i => Z.of_nat (k + i)) (-1) (index_of name (drop k rs))).
Proof.
  intros H Hn. remember (length rs - k)%nat as n eqn:E. revert k E.
  induction n as [|n IH]; intros k E.
  - rewrite drop_ge by lia. done.
  - destruct (lookup_lt_is_Some_2 rs k) as [[nm r] Hk]; [lia|].
    assert (Hmax : (k < max_records)%nat) by (pose proof (h_max _ _ H); lia).
    destruct (entry_drop _ _ _ (h_len _ _ H) Hmax (h_entries _ _ H k _ Hk)) as [rest Hd].
    pose proof (h_entries _ _ H k _ Hk) as (_ & _ & [_ Hnm] & _).
    cbn [find_loop]. rewrite c_str_id by apply Hn.
    rewrite (strcmp_eq_spec _ _ name nm rest) by (try lia; try done; apply Hn).
    rewrite bind_ok, (drop_S rs (nm, r) k Hk). unfold index_of. simpl.
    destruct (decide (nm = name)) as [->|Hne].
    + rewrite bool_decide_eq_true_2 by done. simpl. f_equal. lia.
    + rewrite bool_decide_eq_false_2 by done.
      replace (Z.of_nat k + 1) with (Z.of_nat (S k)) by lia. rewrite IH by lia.
      unfold index_of. destruct (list_find _ _) as [[i x]|]; simpl; [f_equal; lia|done].
Qed.

Lemma find_record_spec page rs name :
  repr page rs -> name_ok name ->
  FindRecord name page = Ok (from_option Z.of_nat (-1) (index_of name rs)).
Proof.
  intros H Hn. unfold FindRecord. rewrite (repr_count _ _ H), bind_ok, Nat2Z.id.
  replace (length rs) with (length rs - 0)%nat by lia.
  change 0 with (Z.of_nat 0). by rewrite (find_loop_spec _ rs) by done.
Qed.

Lemma index_of_None name rs : index_of name rs = None <-> name ∉ rs.*1.
Proof.
  unfold index_of. rewrite fmap_None, list_find_None, Forall_forall, list_elem_of_fmap. split.
  - intros Hx ([n r] & -> & Hin). by apply (Hx _ Hin).
  - intros Hx [n r] Hin Heq. apply Hx. exists (n, r). by rewrite <- Heq.
Qed.

Lemma index_of_Some name rs i :
  index_of name rs = Some i -> exists r, rs !! i = Some (name, r) /\ (i < length rs)%nat.
Proof.
  unfold index_of. intros ([j [n r]] & Hf & ->)%fmap_Some.
  apply list_find_Some in Hf as (Hl & Hn & _). simpl in Hn |- *. subst n.
  exists r. split; [done|]. by apply lookup_lt_Some in Hl.
Qed.

(** The count of a page whose first four bytes are rewritten. *)
Lemma set_count_ok page n :
  length page = Z.to_nat PAGE_SIZE -> int32 n ->
  exists page', SetRecordCount page n = Ok page' /\ length page' = length page /\
    i32_at page' 0 = n /\ (forall i, entry page' i = entry page i).
Proof.
  intros Hlen Hn. unfold SetRecordCount. unfold PAGE_SIZE in Hlen. rewrite write_i32_ok by lia.
  eexists. split; [done|]. split; [by rewrite length_splice by (rewrite ?length_le_encode; lia)|].
  split; [by apply i32_at_splice_eq; try lia|].
  intros i. unfold entry. apply slice_splice_disj; rewrite ?length_le_encode; lia.
Qed.

Lemma slice_slice {A} off n off' n' (page : list A) :
  0 <= off -> 0 <= off' -> off' + n' <= n -> 0 <= n' ->
  slice off' n' (slice off n page) = slice (off + off') n' page.
Proof.
  intros. apply list_eq. intros i. rewrite !lookup_slice by lia.
  case_decide; [|done]. rewrite decide_True by lia. f_equal. lia.
Qed.

Lemma i32_at_slice off n off' page :
  0 <= off -> 0 <= off' -> off' + 4 <= n -> i32_at (slice off n page) off' = i32_at page (off + off').
Proof. intros. unfold i32_at. by rewrite slice_slice by lia. Qed.

Lemma max_bytes n : (n <= max_records)%nat -> 4 + Z.of_nat n * 36 <= 508.
Proof. unfold max_records. lia. Qed.

(** A record written at position [n]: its own bytes, and those of the others. *)
Lemma entry_write page n name r :
  length page = Z.to_nat PAGE_SIZE -> (n < max_records)%nat -> name_ok name -> int32 r ->
  let off := 4 + Z.of_nat n * 36 in
  exists page1 page2, memwrite page off (name ++ [0]) = Ok page1 /\
    write_i32 page1 (off + 32) r = Ok page2 /\ length page2 = length page /\
    i32_at page2 0 = i32_at page 0 /\ entry_ok (entry page2 n) (name, r) /\
    (forall i, i <> n -> entry page2 i = entry page i).
Proof.
  intros Hlen Hn [Hname Hnz] Hr off. pose proof (max_bytes (S n) Hn).
  assert (Hl : Z.of_nat (length (name ++ [0])) = Z.of_nat (length name) + 1)
    by (rewrite length_app; simpl; lia).
  unfold PAGE_SIZE in *. eexists _, _.
  split; [apply memwrite_ok; lia|].
  split; [apply write_i32_ok; rewrite ?length_splice; lia|].
  split; [by rewrite !length_splice by (rewrite ?length_splice, ?length_le_encode; lia)|].
  assert (H1 : length (splice off (name ++ [0]) page) = length page) by (apply length_splice; lia).
  split; [|split].
  - rewrite !i32_at_splice_ne; rewrite ?length_le_encode, ?H1; lia.
  - split; [|split; [|by split]].
    + unfold entry. rewrite slice_slice by (simpl; lia). rewrite Z.add_0_r.
      rewrite slice_splice_disj by (rewrite ?length_le_encode, ?H1; simpl; lia).
      apply slice_splice_eq; simpl; lia.
    + unfold entry. rewrite i32_at_slice by lia. apply i32_at_splice_eq; rewrite ?H1; simpl; lia || done.
  - intros i Hi. unfold entry.
    rewrite !slice_splice_disj; rewrite ?length_le_encode, ?H1; try done; lia.
Qed.

Lemma insert_refines page rs name r :
  repr page rs -> call_ok (CInsert name r) rs ->
  exists page', exec (CInsert name r) page = Ok ((exec_spec (CInsert name r) rs).1, page') /\
                repr page' (exec_spec (CInsert name r) rs).2.
Proof.
  intros H (Hn & Hr0 & Hr & Hmax). cbn [exec exec_spec]. unfold InsertRecord.
  rewrite assert_ok by (apply Z.ltb_lt; destruct Hn; lia).
  rewrite assert_ok by (apply Z.ltb_lt; unfold INVALID_PAGE_ID; lia).
  rewrite (repr_count _ _ H), bind_ok, (find_record_spec _ _ _ H Hn), bind_ok.
  destruct (index_of name rs) as [i|] eqn:Ei; cbn [from_option].
  - rewrite (proj2 (Z.eqb_neq _ (-1))) by lia. simpl. by exists page.
  - simpl negb. cbv iota.
    destruct (entry_write page (length rs) name r (h_len _ _ H) Hmax Hn Hr)
      as (p1 & p2 & H1 & H2 & Hlen2 & Hc2 & He2 & Ho2).
    destruct (set_count_ok p2 (Z.of_nat (length rs) + 1)) as (p3 & H3 & Hlen3 & Hc3 & He3).
    { rewrite Hlen2. apply H. }
    { unfold in_sint, max_records in *. lia. }
    rewrite H1, bind_ok, H2, bind_ok, H3, !bind_ok. exists p3. split; [done|].
    destruct H. split; simpl.
    + congruence.
    + rewrite Hc3, length_app. simpl. lia.
    + rewrite length_app. simpl. lia.
    + intros i x [Hi|[Hi Hx]]%lookup_app_Some.
      * rewrite He3, Ho2 by (apply lookup_lt_Some in Hi; lia). auto.
      * apply list_lookup_singleton_Some in Hx as [Hi0 <-].
        replace i with (length rs) by lia. by rewrite He3.
    + rewrite fmap_app. apply NoDup_app. split; [done|]. simpl. split; [|apply NoDup_singleton].
      apply index_of_None in Ei. intros x Hx ->%list_elem_of_singleton. done.
Qed.

Lemma delete_refines page rs name :
  repr page rs -> call_ok (CDelete name) rs ->
  exists page', exec (CDelete name) page = Ok ((exec_spec (CDelete name) rs).1, page') /\
                repr page' (exec_spec (CDelete name) rs).2.
Proof.
  intros H [Hn Hne]. cbn [exec exec_spec]. unfold DeleteRecord.
  rewrite (repr_count _ _ H), bind_ok.
  rewrite assert_ok by (apply Z.ltb_lt; destruct rs; [done|simpl; lia]).
  rewrite (find_record_spec _ _ _ H Hn), bind_ok.
  destruct (index_of name rs) as [i|] eqn:Ei; cbn [from_option].
  2:{ simpl. by exists page. }
  rewrite (proj2 (Z.eqb_neq _ (-1))) by lia.
  apply index_of_Some in Ei as (r & Hi & Hlt). pose proof (max_bytes _ (h_max _ _ H)).
  pose proof (h_len _ _ H) as Hlen. unfold PAGE_SIZE in Hlen.
  set (n := (Z.of_nat (length rs) - Z.of_nat i - 1) * 36).
  set (off := Z.of_nat i * 36 + 4). unfold memmove.
  rewrite memread_ok by lia. rewrite bind_ok.
  assert (Hs : length (slice (off + 36) n page) = Z.to_nat n) by (apply length_slice; lia).
  rewrite memwrite_ok by lia. rewrite bind_ok.
  destruct (set_count_ok (splice off (slice (off + 36) n page) page) (Z.of_nat (length rs) - 1))
    as (p3 & H3 & Hlen3 & Hc3 & He3).
  { rewrite length_splice by lia. apply H. }
  { unfold in_sint. lia. }
  rewrite H3, !bind_ok. exists p3. split; [done|].
  rewrite length_splice in Hlen3 by lia. simpl.
  assert (Hdl : length (delete i rs) = (length rs - 1)%nat)
    by (rewrite length_delete by (by eexists); done).
  destruct H. split; simpl.
  - congruence.
  - rewrite Hc3, Hdl. lia.
  - rewrite Hdl. lia.
  - intros j x Hj. rewrite He3. rewrite list_lookup_delete in Hj. case_decide as Hji.
    + replace (entry _ j) with (entry page j); [auto|]. unfold entry. symmetry.
      apply slice_splice_disj; lia.
    + replace (entry _ j) with (entry page (S j)); [auto|].
      pose proof (lookup_lt_Some _ _ _ Hj). unfold entry. symmetry.
      rewrite slice_splice_sub by lia. f_equal. lia.
  - rewrite list_fmap_delete. eapply sublist_NoDup; [done|]. apply sublist_delete.
Qed.

Lemma update_refines page rs name r :
  repr page rs -> call_ok (CUpdate name r) rs ->
  exists page', exec (CUpdate name r) page = Ok ((exec_spec (CUpdate name r) rs).1, page') /\
                repr page' (exec_spec (CUpdate name r) rs).2.
Proof.
  intros H [Hn Hr]. cbn [exec exec_spec]. unfold UpdateRecord.
  rewrite assert_ok by (apply Z.ltb_lt; destruct Hn; lia).
  rewrite (find_record_spec _ _ _ H Hn), bind_ok.
  destruct (index_of name rs) as [i|] eqn:Ei; cbn [from_option].
  2:{ simpl. by exists page. }
  rewrite (proj2 (Z.eqb_neq _ (-1))) by lia.
  apply index_of_Some in Ei as (r0 & Hi & Hlt). pose proof (max_bytes _ (h_max _ _ H)).
  pose proof (h_len _ _ H) as Hlen. unfold PAGE_SIZE in Hlen.
  rewrite write_i32_ok by lia. rewrite !bind_ok. eexists. split; [done|]. cbn [snd].
  destruct H. split.
  - rewrite length_splice; rewrite ?length_le_encode; unfold PAGE_SIZE; lia.
  - rewrite length_insert, i32_at_splice_ne; rewrite ?length_le_encode; lia.
  - by rewrite length_insert.
  - intros j x Hj. destruct (decide (i = j)) as [<-|Hne].
    + rewrite list_lookup_insert_eq in Hj by done. injection Hj as <-.
      destruct (h_entries0 i _ Hi) as (Hb & _ & Hno & _). simpl in Hb, Hno.
      split; [|split; [|done]].
      * cbn [fst]. rewrite <- Hb. unfold entry. destruct Hn as [Hn32 _].
        rewrite !slice_slice by lia.
        apply slice_splice_disj; rewrite ?length_le_encode; lia.
      * unfold entry. rewrite i32_at_slice by lia.
        replace (4 + Z.of_nat i * 36 + 32) with (Z.of_nat i * 36 + 4 + 32) by lia.
        apply i32_at_splice_eq; lia || done.
    + rewrite list_lookup_insert_ne in Hj by done.
      replace (entry _ j) with (entry page j); [auto|]. unfold entry. symmetry.
      apply slice_splice_disj; rewrite ?length_le_encode; lia.
  - rewrite list_fmap_insert. simpl. rewrite list_insert_id; [done|].
    by rewrite list_lookup_fmap, Hi.
Qed.

(** Any root id is stored as its low 32 bits. *)
Lemma write_i32_wrap (page : Buf) off v : write_i32 page off (wrap32 v) = write_i32 page off v.
Proof.
  assert (H : forall z, le_encode 4 z = le_encode 4 (z mod 2 ^ 32)).
  { intros z. rewrite <- (le_encode_decode (le_encode 4 z)) by apply le_encode_bytes.
    rewrite length_le_encode, le_decode_encode. done. }
  unfold write_i32. rewrite (H (wrap32 v)), (H v). do 2 f_equal.
  unfold swrap. rewrite Zminus_mod_idemp_l. f_equal. lia.
Qed.

Lemma update_any page rs name r :
  repr page rs -> name_ok name ->
  exists ok page', UpdateRecord name r page = Ok (ok, page') /\
                   repr page' (exec_spec (CUpdate name (wrap32 r)) rs).2.
Proof.
  intros H Hn. destruct (update_refines page rs name (wrap32 r) H) as (page' & He & Hr).
  { split; [done|]. apply swrap_range. lia. }
  assert (Hu : UpdateRecord name r page = UpdateRecord name (wrap32 r) page).
  { unfold UpdateRecord. destruct (assert_ _) as [[]|]; [|done]. rewrite !bind_ok.
    destruct (FindRecord name page) as [i|]; [|done]. rewrite !bind_ok.
    by rewrite write_i32_wrap. }
  cbn [exec] in He. rewrite Hu. destruct (UpdateRecord name (wrap32 r) page) as [[ok page1]|]; [|done].
  simpl in He. injection He as _ <-. by exists ok, page1.
Qed.

Lemma get_refines page rs name :
  repr page rs -> name_ok name ->
  exec (CGet name) page = Ok ((exec_spec (CGet name) rs).1, page).
Proof.
  intros H Hn. cbn [exec exec_spec]. unfold GetRootId.
  rewrite assert_ok by (apply Z.ltb_lt; destruct Hn; lia).
  rewrite (find_record_spec _ _ _ H Hn), bind_ok.
  destruct (index_of name rs) as [i|] eqn:Ei; cbn [from_option]; [|done].
  rewrite (proj2 (Z.eqb_neq _ (-1))) by lia.
  apply index_of_Some in Ei as (r & Hi & Hlt). pose proof (max_bytes _ (h_max _ _ H)).
  pose proof (h_len _ _ H) as Hlen. unfold PAGE_SIZE in Hlen.
  rewrite read_i32_ok by lia. rewrite !bind_ok.
  destruct (h_entries _ _ H i _ Hi) as (_ & Hroot & _). simpl in Hroot.
  do 3 f_equal. simpl. rewrite Hi. simpl. f_equal. rewrite <- Hroot. unfold entry.
  rewrite i32_at_slice by lia. f_equal. f_equal. lia.
Qed.

Lemma header_run_refines cs page rs :
  repr page rs -> calls_ok cs rs ->
  exists page', run cs page = Ok ((run_spec cs rs).1, page') /\ repr page' (run_spec cs rs).2.
Proof.
  revert page rs. induction cs as [|c cs IH]; intros page rs H Hok; [by exists page|].
  destruct Hok as [Hc Hcs].
  assert (exists p1, exec c page = Ok ((exec_spec c rs).1, p1) /\ repr p1 (exec_spec c rs).2)
    as (p1 & He & H1).
  { destruct c; [by apply insert_refines|by apply delete_refines|by apply update_refines|].
    exists page. split; [by apply get_refines|done]. }
  destruct (IH _ _ H1 Hcs) as (p2 & Hr & H2). exists p2. cbn [run run_spec].
  rewrite He, bind_ok. cbn [fst snd]. rewrite Hr, bind_ok.
  destruct (exec_spec c rs) as [a rs1]. simpl in *. by destruct (run_spec cs rs1).
Qed.

(** ** Properties *)

(** C40: on any page initialised as a header page, every sequence of insertions,
    deletions, updates and lookups of names of fewer than 32 bytes answers what an
    association list in insertion order answers, as long as an insertion finds fewer
    than 14 records and a deletion at least one. *)
Theorem header_refines_records (page : Buf) (cs : list call)
    (Hlen : length page = Z.to_nat PAGE_SIZE) (Hok : calls_ok cs []) :
  exists page0 page', Init page = Ok page0 /\
    run cs page0 = Ok ((run_spec cs []).1, page') /\ repr page' (run_spec cs []).2.
Proof.
  destruct (set_count_ok page 0 Hlen) as (p0 & H0 & Hl0 & Hc0 & _); [unfold in_sint; lia|].
  destruct (header_run_refines cs p0 []) as (p' & Hr & H'); [|done|by exists p0, p'].
  split; simpl; [congruence|done|lia|intros i r Hi; by rewrite lookup_nil in Hi|constructor].
Qed.

(** The page has room for 14 records, but [InsertRecord] does not test it: the
    insertion of a fifteenth name writes past the end of the page. *)
Theorem header_insert_overflow (page : Buf) (rs : Records) (name : list Z) (r : Z)
    (H : repr page rs) (Hfull : length rs = max_records) (Hn : name_ok name)
    (Hnew : name ∉ rs.*1) (Hr : 0 <= r) :
  InsertRecord name r page = Fail MemFault.
Proof.
  unfold InsertRecord.
  rewrite assert_ok by (apply Z.ltb_lt; destruct Hn; lia).
  rewrite assert_ok by (apply Z.ltb_lt; unfold INVALID_PAGE_ID; lia).
  rewrite (repr_count _ _ H), bind_ok, (find_record_spec _ _ _ H Hn), bind_ok, Hfull.
  rewrite (proj2 (index_of_None name rs) Hnew). cbn [from_option]. simpl negb. cbv iota.
  pose proof (h_len _ _ H) as Hlen. unfold PAGE_SIZE in Hlen.
  unfold memwrite at 1. destruct (in_range page _ _) eqn:E; [|done].
  apply in_range_spec in E as (_ & _ & E). rewrite bind_ok. unfold write_i32, memwrite.
  destruct (in_range (splice _ _ _) _ _) eqn:E2; [|done].
  apply in_range_spec in E2 as (_ & _ & E2). exfalso. revert E2.
  rewrite length_splice by (unfold max_records in *; lia).
  rewrite length_le_encode. unfold max_records. lia.
Qed.

(** ** Witnesses *)

Definition sample_calls : list call :=
  [CInsert [102; 111; 111] 3; CInsert [102; 111] 4; CInsert [102; 111; 111] 5; CGet [102; 111];
   CUpdate [102; 111] 9; CDelete [102; 111; 111]; CGet [102; 111]; CGet [102; 111; 111]].

Lemma header_sample_calls_ok : calls_ok sample_calls [].
Proof.
  by_computation.
Qed.

Lemma header_refines_records_witness :
  exists page0 page', Init (replicate 512 7) = Ok page0 /\
    run sample_calls page0 =
    Ok ([ABool true; ABool true; ABool false; ARoot (Some 4); ABool true; ABool true;
         ARoot (Some 9); ARoot None], page').
Proof.
  destruct (header_refines_records (replicate 512 7) sample_calls eq_refl header_sample_calls_ok)
    as (p0 & p' & H0 & Hr & _).
  exists p0, p'. split; [exact H0|exact Hr].
Defined.

(** Fourteen tables of one-letter names. *)
Definition fourteen : list call := map (fun n => CInsert [Z.of_nat n + 65] (Z.of_nat n)) (seq 0 14).
Definition full_page : Buf :=
  match run fourteen (replicate 512 0) with Ok (_, p) => p | Fail _ => [] end.

Lemma full_page_repr : repr full_page (run_spec fourteen []).2.
Proof.
  split; [reflexivity|reflexivity|by_computation| |by_computation].
  assert (Hall : Forall (fun x => entry_ok (entry full_page x.1) x.2)
                        (imap pair (run_spec fourteen []).2)) by by_computation.
  intros i r Hi. apply (Forall_lookup_1 _ _ i (i, r) Hall). by rewrite list_lookup_imap, Hi.
Qed.

Lemma header_insert_overflow_witness :
  length (run_spec fourteen []).2 = max_records /\
  InsertRecord [97] 1 full_page = Fail MemFault.
Proof.
  split; [reflexivity|].
  apply (header_insert_overflow full_page (run_spec fourteen []).2 [97] 1 full_page_repr eq_refl).
  - by_computation.
  - by_computation.
  - lia.
Defined.
End Header.
