(* ===== verification/TablePage.v ===== *)
(** * The table page (src/src/page/table_page.cpp)

    A slotted page of [PAGE_SIZE] bytes: a header of 24 bytes, the slot directory
    growing upwards (offset and size of each tuple, 8 bytes a slot), and the tuples
    packed at the end of the page from the free space pointer.  A slot of size 0 is
    free, a negative size marks a tuple as deleted.  [logging] is the global flag
    [ENABLE_LOGGING], and [L] the transaction and lock manager of the caller. *)

From stdpp Require Import prelude list.
From Stdlib Require Import ZArith Lia.
From S2P Require Import Prelude Rid Interfaces.

Local Open Scope Z_scope.

Module TablePage.
Import Rid.

(** The members of [Tuple] a page reads and writes; [size_] is the length of
    [data_], and [allocated_] only tells who frees the bytes. *)
Record Tuple := mkTuple { rid_ : RID; data_ : list Z }.
Definition size_ (t : Tuple) : Z := Z.of_nat (length (data_ t)).

(** ** The fields of the page *)

Definition GetPageId (page : Buf) : result Z := read_i32 page 0.
Definition GetPrevPageId (page : Buf) : result Z := read_i32 page 8.
Definition GetNextPageId (page : Buf) : result Z := read_i32 page 12.
Definition SetPrevPageId (page : Buf) (prev_page_id : Z) : result Buf :=
  write_i32 page 8 prev_page_id.
Definition SetNextPageId (page : Buf) (next_page_id : Z) : result Buf :=
  write_i32 page 12 next_page_id.
Definition GetTupleOffset (page : Buf) (slot_num : Z) : result Z :=
  read_i32 page (24 + 8 * slot_num).
Definition GetTupleSize (page : Buf) (slot_num : Z) : result Z :=
  read_i32 page (28 + 8 * slot_num).
Definition SetTupleOffset (page : Buf) (slot_num offset : Z) : result Buf :=
  write_i32 page (24 + 8 * slot_num) offset.
Definition SetTupleSize (page : Buf) (slot_num size : Z) : result Buf :=
  write_i32 page (28 + 8 * slot_num) size.
Definition GetFreeSpacePointer (page : Buf) : result Z := read_i32 page 16.
Definition SetFreeSpacePointer (page : Buf) (free_space_pointer : Z) : result Buf :=
  write_i32 page 16 free_space_pointer.
Definition GetTupleCount (page : Buf) : result Z := read_i32 page 20.
Definition SetTupleCount (page : Buf) (tuple_count : Z) : result Buf :=
  write_i32 page 20 tuple_count.
Definition GetFreeSpaceSize (page : Buf) : result Z :=
  let* fsp := GetFreeSpacePointer page in
  let* count := GetTupleCount page in
  Ok (wrap32 (fsp - 24 - count * 8)).

Definition Init (page_id page_size prev_page_id : Z) (page : Buf) : result Buf :=
  let* page := write_i32 page 0 page_id in
  let* page := SetPrevPageId page prev_page_id in
  let* page := SetNextPageId page INVALID_PAGE_ID in
  let* page := SetFreeSpacePointer page page_size in
  SetTupleCount page 0.

(** The first slot from [i] that is free, or the tuple count ([n] slots left). *)
Fixpoint free_slot (page : Buf) (i : Z) (n : nat) : result Z :=
  match n with
  | O => Ok i
  | S n' =>
      let* size := GetTupleSize page i in
      if size =? 0 then Ok i else free_slot page (i + 1) n'
  end.

(** The loops that move tuple offsets: [moves size offset] says which. *)
Fixpoint shift_offsets (moves : Z -> Z -> bool) (delta : Z) (page : Buf) (i : Z) (n : nat) :
    result Buf :=
  match n with
  | O => Ok page
  | S n' =>
      let* tuple_offset_i := GetTupleOffset page i in
      let* size_i := GetTupleSize page i in
      let* page :=
        if moves size_i tuple_offset_i
        then SetTupleOffset page i (tuple_offset_i + delta) else Ok page in
      shift_offsets moves delta page (i + 1) n'
  end.

(** The first valid tuple from slot [i]. *)
Fixpoint valid_slot (page : Buf) (i : Z) (n : nat) : result (option Z) :=
  match n with
  | O => Ok None
  | S n' =>
      let* size := GetTupleSize page i in
      if 0 <? size then Ok (Some i) else valid_slot page (i + 1) n'
  end.

Section Ops.
Context {L : Type} `{LockEnv L} (logging : bool).

(** [if (ENABLE_LOGGING) txn->SetState(ABORTED)] *)
Definition abort (l : L) : L := if logging then lk_abort l else l.

(** The exclusive lock of a writer, an upgrade when it holds the shared one. *)
Definition acquire_exclusive (rid : RID) (l : L) : result (bool * L) :=
  if negb logging then Ok (true, l)
  else if lk_in_shared rid l then lk_lock_upgrade rid l
  else if lk_in_exclusive rid l then Ok (true, l)
  else lk_lock_exclusive rid l.

Definition acquire_shared (rid : RID) (l : L) : result (bool * L) :=
  if negb logging then Ok (true, l)
  else if lk_in_exclusive rid l || lk_in_shared rid l then Ok (true, l)
  else lk_lock_shared rid l.

(** The rid of the new tuple, or [None]. *)
Definition InsertTuple (tuple : Tuple) (page : Buf) (l : L) :
    result (option RID * Buf * L) :=
  assert! 0 <? size_ tuple ;;
  let* free := GetFreeSpaceSize page in
  if free <? size_ tuple then Ok (None, page, l)
  else
    let* count := GetTupleCount page in
    let* page_id := GetPageId page in
    let* i := free_slot page 0 (Z.to_nat count) in
    let rid := mkRID page_id i in
    assert! negb (logging && (i <? count)) || negb (lk_in_shared rid l || lk_in_exclusive rid l) ;;
    if (i =? count) && (free <? size_ tuple + 8) then Ok (None, page, l)
    else
      let* fsp := GetFreeSpacePointer page in
      let* page := SetFreeSpacePointer page (fsp - size_ tuple) in
      let* fsp := GetFreeSpacePointer page in
      let* page := memwrite page fsp (data_ tuple) in
      let* page := SetTupleOffset page i fsp in
      let* page := SetTupleSize page i (size_ tuple) in
      let* page := if i =? count then SetTupleCount page (count + 1) else Ok page in
      if logging then
        let* bl := lk_lock_exclusive (of_int64 (Get rid)) l in
        assert! bl.1 ;;
        Ok (Some rid, page, bl.2)
      else Ok (Some rid, page, l).

Definition MarkDelete (rid : RID) (page : Buf) (l : L) : result (bool * Buf * L) :=
  let slot_num := slot_num_ rid in
  let* count := GetTupleCount page in
  if count <=? slot_num then Ok (false, page, abort l)
  else
    let* tuple_size := GetTupleSize page slot_num in
    if tuple_size <? 0 then Ok (false, page, abort l)
    else
      let* bl := acquire_exclusive rid l in
      if negb bl.1 then Ok (false, page, bl.2)
      else
        let* page :=
          if 0 <? tuple_size then SetTupleSize page slot_num (- tuple_size) else Ok page in
        Ok (true, page, bl.2).

(** Also gives the old tuple, which is copied out before the lock is taken. *)
Definition UpdateTuple (new_tuple : Tuple) (rid : RID) (page : Buf) (l : L) :
    result (bool * option Tuple * Buf * L) :=
  let slot_num := slot_num_ rid in
  let* count := GetTupleCount page in
  if count <=? slot_num then Ok (false, None, page, abort l)
  else
    let* tuple_size := GetTupleSize page slot_num in
    if tuple_size <=? 0 then Ok (false, None, page, abort l)
    else
      let* free := GetFreeSpaceSize page in
      if free <? size_ new_tuple - tuple_size then Ok (false, None, page, l)
      else
        let* tuple_offset := GetTupleOffset page slot_num in
        let* old := memread page tuple_offset tuple_size in
        let old_tuple := mkTuple rid old in
        let* bl := acquire_exclusive rid l in
        if negb bl.1 then Ok (false, Some old_tuple, page, bl.2)
        else
          let* fsp := GetFreeSpacePointer page in
          assert! fsp <=? tuple_offset ;;
          let delta := tuple_size - size_ new_tuple in
          let* page := memmove page (fsp + delta) fsp (tuple_offset - fsp) in
          let* page := SetFreeSpacePointer page (fsp + delta) in
          let* page := memwrite page (tuple_offset + delta) (data_ new_tuple) in
          let* page := SetTupleSize page slot_num (size_ new_tuple) in
          let* page :=
            shift_offsets (fun size off => (0 <? size) && (off <? tuple_offset + tuple_size))
                          delta page 0 (Z.to_nat count) in
          Ok (true, Some old_tuple, page, bl.2).

Definition ApplyDelete (rid : RID) (page : Buf) (l : L) : result Buf :=
  let slot_num := slot_num_ rid in
  let* count := GetTupleCount page in
  assert! slot_num <? count ;;
  let* tuple_offset := GetTupleOffset page slot_num in
  let* size := GetTupleSize page slot_num in
  let tuple_size := if size <? 0 then - size else size in
  let* _ := memread page tuple_offset tuple_size in
  assert! negb logging || lk_in_exclusive rid l ;;
  let* fsp := GetFreeSpacePointer page in
  assert! fsp <=? tuple_offset ;;
  let* page := memmove page (fsp + tuple_size) fsp (tuple_offset - fsp) in
  let* page := SetFreeSpacePointer page (fsp + tuple_size) in
  let* page := SetTupleSize page slot_num 0 in
  let* page := SetTupleOffset page slot_num 0 in
  shift_offsets (fun size off => negb (size =? 0) && (off <? tuple_offset))
                tuple_size page 0 (Z.to_nat count).

Definition RollbackDelete (rid : RID) (page : Buf) (l : L) : result Buf :=
  assert! negb logging || lk_in_exclusive rid l ;;
  let slot_num := slot_num_ rid in
  let* count := GetTupleCount page in
  assert! slot_num <? count ;;
  let* tuple_size := GetTupleSize page slot_num in
  if tuple_size <? 0 then SetTupleSize page slot_num (- tuple_size) else Ok page.

Definition GetTuple (rid : RID) (page : Buf) (l : L) : result (option Tuple * L) :=
  let slot_num := slot_num_ rid in
  let* count := GetTupleCount page in
  if count <=? slot_num then Ok (None, abort l)
  else
    let* tuple_size := GetTupleSize page slot_num in
    if tuple_size <=? 0 then Ok (None, abort l)
    else
      let* bl := acquire_shared rid l in
      if negb bl.1 then Ok (None, bl.2)
      else
        let* tuple_offset := GetTupleOffset page slot_num in
        let* data := memread page tuple_offset tuple_size in
        Ok (Some (mkTuple rid data), bl.2).
End Ops.

(** [None] also stands for the invalid rid that [GetFirstTupleRid] then leaves. *)
Definition GetFirstTupleRid (page : Buf) : result (option RID) :=
  let* count := GetTupleCount page in
  let* i := valid_slot page 0 (Z.to_nat count) in
  match i with
  | Some i => let* page_id := GetPageId page in Ok (Some (mkRID page_id i))
  | None => Ok None
  end.

Definition GetNextTupleRid (cur_rid : RID) (page : Buf) : result (option RID) :=
  let* page_id := GetPageId page in
  assert! page_id_ cur_rid =? page_id ;;
  let* count := GetTupleCount page in
  let start := slot_num_ cur_rid + 1 in
  let* i := valid_slot page start (Z.to_nat (count - start)) in
  match i with
  | Some i => Ok (Some (mkRID page_id i))
  | None => Ok None
  end.

(** ** Specification: a page is a list of slots *)

Inductive Slot := Free | Live (bs : list Z) | Marked (bs : list Z).

#[export] Instance Slot_eq_dec : EqDecision Slot.
Proof. solve_decision. Defined.

Definition slot_bytes (s : Slot) : list Z :=
  match s with Free => [] | Live bs | Marked bs => bs end.

Record SPage := mkSPage { s_id : Z; s_prev : Z; s_next : Z; s_slots : list Slot }.

Definition used (slots : list Slot) : Z :=
  Z.of_nat (length (mjoin (slot_bytes <$> slots))).

(** The free space: what the directory and the tuples leave of the page. *)
Definition free_size (slots : list Slot) : Z :=
  PAGE_SIZE - 24 - 8 * Z.of_nat (length slots) - used slots.

Definition first_free (slots : list Slot) : nat :=
  match list_find (fun s => s = Free) slots with
  | Some (i, _) => i
  | None => length slots
  end.

Definition is_live (s : Slot) : bool := match s with Live _ => true | _ => false end.

Definition is_marked (s : Slot) : bool := match s with Marked _ => true | _ => false end.

Definition first_live (k : nat) (slots : list Slot) : option nat :=
  (fun x => (k + x.1)%nat) <$> list_find (fun s => is_live s = true) (drop k slots).

Definition set_slot (i : nat) (s : Slot) (p : SPage) : SPage :=
  mkSPage (s_id p) (s_prev p) (s_next p) (<[i := s]> (s_slots p)).

Definition mark (s : Slot) : Slot := match s with Live bs => Marked bs | s => s end.
Definition unmark (s : Slot) : Slot := match s with Marked bs => Live bs | s => s end.

(** Client calls.  A RID names its slot; the page id in it is only read by [CNext]. *)
Inductive call :=
| CInsert (bs : list Z)
| CMark (rid : RID)
| CUpdate (bs : list Z) (rid : RID)
| CApply (rid : RID)
| CRollback (rid : RID)
| CGet (rid : RID)
| CFirst
| CNext (rid : RID).

Inductive answer :=
| ARid (rid : option RID)
| ABool (ok : bool)
| AUpdate (ok : bool) (old : option Tuple)
| ATuple (t : option Tuple)
| ADone.

Definition slot_of (rid : RID) : nat := Z.to_nat (slot_num_ rid).

Section Spec.
Context {L : Type} `{LockEnv L} (logging : bool).

Definition exec (c : call) (page : Buf) (l : L) : result (answer * Buf * L) :=
  match c with
  | CInsert bs =>
      let* r := InsertTuple logging (mkTuple invalid_rid bs) page l in
      Ok (ARid r.1.1, r.1.2, r.2)
  | CMark rid => let* r := MarkDelete logging rid page l in Ok (ABool r.1.1, r.1.2, r.2)
  | CUpdate bs rid =>
      let* r := UpdateTuple logging (mkTuple invalid_rid bs) rid page l in
      Ok (AUpdate r.1.1.1 r.1.1.2, r.1.2, r.2)
  | CApply rid => let* page' := ApplyDelete logging rid page l in Ok (ADone, page', l)
  | CRollback rid => let* page' := RollbackDelete logging rid page l in Ok (ADone, page', l)
  | CGet rid => let* r := GetTuple logging rid page l in Ok (ATuple r.1, page, r.2)
  | CFirst => let* r := GetFirstTupleRid page in Ok (ARid r, page, l)
  | CNext rid => let* r := GetNextTupleRid rid page in Ok (ARid r, page, l)
  end.

Fixpoint run (cs : list call) (page : Buf) (l : L) : result (list answer * Buf * L) :=
  match cs with
  | [] => Ok ([], page, l)
  | c :: cs' =>
      let* r := exec c page l in
      let* q := run cs' r.1.2 r.2 in Ok (r.1.1 :: q.1.1, q.1.2, q.2)
  end.

(** The same calls on a list of slots. *)
Definition insert_spec (bs : list Z) (p : SPage) (l : L) : result (answer * SPage * L) :=
  let slots := s_slots p in
  let n := Z.of_nat (length bs) in
  let i := first_free slots in
  let rid := mkRID (s_id p) (Z.of_nat i) in
  let fresh := (i =? length slots)%nat in
  assert! 0 <? n ;;
  if free_size slots <? n then Ok (ARid None, p, l)
  else
    assert! negb (logging && negb fresh) || negb (lk_in_shared rid l || lk_in_exclusive rid l) ;;
    if fresh && (free_size slots <? n + 8) then Ok (ARid None, p, l)
    else
      let slots := if fresh then slots ++ [Live bs] else <[i := Live bs]> slots in
      let p := mkSPage (s_id p) (s_prev p) (s_next p) slots in
      if logging then
        let* bl := lk_lock_exclusive rid l in
        assert! bl.1 ;;
        Ok (ARid (Some rid), p, bl.2)
      else Ok (ARid (Some rid), p, l).

Definition update_spec (bs : list Z) (rid : RID) (p : SPage) (l : L) :
    result (answer * SPage * L) :=
  match s_slots p !! slot_of rid with
  | Some (Live old) =>
      if free_size (s_slots p) <? Z.of_nat (length bs) - Z.of_nat (length old)
      then Ok (AUpdate false None, p, l)
      else
        let* bl := acquire_exclusive logging rid l in
        Ok (AUpdate bl.1 (Some (mkTuple rid old)),
            if bl.1 then set_slot (slot_of rid) (Live bs) p else p, bl.2)
  | _ => Ok (AUpdate false None, p, abort logging l)
  end.

Definition exec_spec (c : call) (p : SPage) (l : L) : result (answer * SPage * L) :=
  match c with
  | CInsert bs => insert_spec bs p l
  | CMark rid =>
      match s_slots p !! slot_of rid with
      | Some (Marked _) | None => Ok (ABool false, p, abort logging l)
      | Some s =>
          let* bl := acquire_exclusive logging rid l in
          Ok (ABool bl.1, if bl.1 then set_slot (slot_of rid) (mark s) p else p, bl.2)
      end
  | CUpdate bs rid => update_spec bs rid p l
  | CApply rid =>
      match s_slots p !! slot_of rid with
      | Some Free | None => Fail AssertFail
      | Some _ =>
          assert! negb logging || lk_in_exclusive rid l ;;
          Ok (ADone, set_slot (slot_of rid) Free p, l)
      end
  | CRollback rid =>
      assert! negb logging || lk_in_exclusive rid l ;;
      match s_slots p !! slot_of rid with
      | Some s => Ok (ADone, set_slot (slot_of rid) (unmark s) p, l)
      | None => Fail AssertFail
      end
  | CGet rid =>
      match s_slots p !! slot_of rid with
      | Some (Live bs) =>
          let* bl := acquire_shared logging rid l in
          Ok (ATuple (if bl.1 then Some (mkTuple rid bs) else None), p, bl.2)
      | _ => Ok (ATuple None, p, abort logging l)
      end
  | CFirst =>
      Ok (ARid ((fun i => mkRID (s_id p) (Z.of_nat i)) <$> first_live 0 (s_slots p)), p, l)
  | CNext rid =>
      assert! page_id_ rid =? s_id p ;;
      Ok (ARid ((fun i => mkRID (s_id p) (Z.of_nat i)) <$> first_live (S (slot_of rid)) (s_slots p)),
          p, l)
  end.

Fixpoint run_spec (cs : list call) (p : SPage) (l : L) : result (list answer * SPage * L) :=
  match cs with
  | [] => Ok ([], p, l)
  | c :: cs' =>
      let* r := exec_spec c p l in
      let* q := run_spec cs' r.1.2 r.2 in Ok (r.1.1 :: q.1.1, q.1.2, q.2)
  end.

(** Slot numbers are not negative, an update has bytes to write, and it does not
    change the length of a tuple while another one is marked. *)
Definition call_ok (c : call) (p : SPage) : Prop :=
  match c with
  | CInsert _ | CFirst => True
  | CMark rid | CApply rid | CRollback rid | CGet rid | CNext rid => 0 <= slot_num_ rid
  | CUpdate bs rid =>
      0 <= slot_num_ rid /\ bs <> [] /\
      match s_slots p !! slot_of rid with
      | Some (Live old) =>
          length bs = length old \/ Forall (fun s => is_marked s = false) (s_slots p)
      | _ => True
      end
  end.

Fixpoint calls_ok (cs : list call) (p : SPage) (l : L) : Prop :=
  match cs with
  | [] => True
  | c :: cs' =>
      call_ok c p /\
      match exec_spec c p l with Ok r => calls_ok cs' r.1.2 r.2 | Fail _ => True end
  end.
#[export] Instance call_ok_dec c p : Decision (call_ok c p).
Proof.
  destruct c; simpl; try apply _. destruct (s_slots p !! slot_of rid) as [[]|]; apply _.
Defined.

#[export] Instance calls_ok_dec cs p l : Decision (calls_ok cs p l).
Proof.
  revert p l. induction cs as [|c cs IH]; intros p l; simpl; [apply _|].
  destruct (exec_spec c p l); apply _.
Defined.
End Spec.

(** ** The layout of the tuples

    [lay] lists the occupied slots with their bytes, in address order. *)
Abbreviation Layout := (list (nat * list Z)).

Definition area (lay : Layout) : list Z := mjoin (lay.*2).
Definition area_len (lay : Layout) : Z := Z.of_nat (length (area lay)).

Fixpoint off_of (lay : Layout) (i : nat) : Z :=
  match lay with
  | [] => 0
  | (j, bs) :: lay' => if decide (j = i) then 0 else Z.of_nat (length bs) + off_of lay' i
  end.

Definition slot_size (s : Slot) : Z :=
  match s with
  | Free => 0
  | Live bs => Z.of_nat (length bs)
  | Marked bs => - Z.of_nat (length bs)
  end.

Definition offset_at (page : Buf) (i : nat) : Z := i32_at page (24 + 8 * Z.of_nat i).
Definition size_at (page : Buf) (i : nat) : Z := i32_at page (28 + 8 * Z.of_nat i).

Record repr_lay (page : Buf) (p : SPage) (lay : Layout) : Prop := {
  t_len : length page = Z.to_nat PAGE_SIZE;
  t_id : i32_at page 0 = s_id p;
  t_prev : i32_at page 8 = s_prev p;
  t_next : i32_at page 12 = s_next p;
  t_fsp : i32_at page 16 = PAGE_SIZE - area_len lay;
  t_count : i32_at page 20 = Z.of_nat (length (s_slots p));
  t_room : 24 + 8 * Z.of_nat (length (s_slots p)) + area_len lay <= PAGE_SIZE;
  t_area : slice (PAGE_SIZE - area_len lay) (area_len lay) page = area lay;
  t_nodup : NoDup lay.*1;
  t_lay i bs : (i, bs) ∈ lay <->
    bs <> [] /\ exists s, s_slots p !! i = Some s /\ s <> Free /\ slot_bytes s = bs;
  t_bytes i s : s_slots p !! i = Some s -> s = Free \/ slot_bytes s <> [];
  t_size i s : s_slots p !! i = Some s -> size_at page i = slot_size s;
  t_offset i s : s_slots p !! i = Some s -> s <> Free ->
    offset_at page i = PAGE_SIZE - area_len lay + off_of lay i;
  t_free i : s_slots p !! i = Some Free -> offset_at page i = 0
}.

Definition repr (page : Buf) (p : SPage) : Prop := exists lay, repr_lay page p lay.

(** ** Lemmas: layouts *)

Lemma area_app l1 l2 : area (l1 ++ l2) = area l1 ++ area l2.
Proof. unfold area. by rewrite fmap_app, join_app. Qed.

Lemma area_len_app l1 l2 : area_len (l1 ++ l2) = area_len l1 + area_len l2.
Proof. unfold area_len. rewrite area_app, length_app. lia. Qed.

Lemma area_len_cons i bs lay : area_len ((i, bs) :: lay) = Z.of_nat (length bs) + area_len lay.
Proof.
  unfold area_len. change (area ((i, bs) :: lay)) with (bs ++ area lay).
  rewrite length_app. lia.
Qed.

Lemma area_len_nonneg lay : 0 <= area_len lay.
Proof. unfold area_len. lia. Qed.

Lemma off_of_app_l l1 l2 i : i ∈ l1.*1 -> off_of (l1 ++ l2) i = off_of l1 i.
Proof.
  induction l1 as [|[j bs] l1 IH]; [by intros ?%not_elem_of_nil|]. simpl.
  intros [->|Hi]%elem_of_cons; [by rewrite !decide_True|].
  case_decide; [done|]. by rewrite IH.
Qed.

Lemma off_of_app_r l1 l2 i : i ∉ l1.*1 -> off_of (l1 ++ l2) i = area_len l1 + off_of l2 i.
Proof.
  induction l1 as [|[j bs] l1 IH]; intros Hi; [done|]. simpl.
  rewrite fmap_cons, not_elem_of_cons in Hi. destruct Hi as [Hne Hi].
  rewrite decide_False by (intros ->; done). rewrite IH by done. rewrite area_len_cons. lia.
Qed.

Lemma off_of_mid l1 l2 i bs : i ∉ l1.*1 -> off_of (l1 ++ (i, bs) :: l2) i = area_len l1.
Proof. intros Hi. rewrite off_of_app_r by done. simpl. rewrite decide_True by done. lia. Qed.

Lemma off_of_bound l i bs : NoDup l.*1 -> (i, bs) ∈ l ->
  0 <= off_of l i /\ off_of l i + Z.of_nat (length bs) <= area_len l.
Proof.
  intros Hnd Hin. apply list_elem_of_split in Hin as (l1 & l2 & ->).
  rewrite fmap_app, fmap_cons in Hnd. apply NoDup_app in Hnd as (_ & Hd & _).
  rewrite off_of_mid by (intros Hx; apply (Hd i Hx); left).
  rewrite area_len_app, area_len_cons. pose proof (area_len_nonneg l1).
  pose proof (area_len_nonneg l2). lia.
Qed.

(** The slot a layout entry comes from, and its place. *)
Lemma lay_split page p lay i s :
  repr_lay page p lay -> s_slots p !! i = Some s -> s <> Free ->
  exists l1 l2, lay = l1 ++ (i, slot_bytes s) :: l2 /\ (i ∉ l1.*1) /\ (i ∉ l2.*1) /\
    offset_at page i = PAGE_SIZE - area_len lay + area_len l1 /\ slot_bytes s <> [].
Proof.
  intros H Hs Hf. destruct (t_bytes _ _ _ H i s Hs) as [?|Hb]; [done|].
  assert (Hin : (i, slot_bytes s) ∈ lay) by (apply (t_lay _ _ _ H); eauto).
  apply list_elem_of_split in Hin as (l1 & l2 & Hl). exists l1, l2.
  pose proof (t_nodup _ _ _ H) as Hnd. rewrite Hl, fmap_app, fmap_cons in Hnd.
  apply NoDup_app in Hnd as (_ & Hd & [H2 _]%NoDup_cons).
  assert (Hi : i ∉ l1.*1) by (intros Hx; apply (Hd i Hx); left).
  split; [done|]. split; [done|]. split; [done|]. split; [|done].
  rewrite (t_offset _ _ _ H i s Hs Hf). replace (off_of lay i) with (area_len l1); [done|]. rewrite Hl. by rewrite off_of_mid.
Qed.

(** ** Lemmas: reading a represented page *)

Lemma read_count page p lay :
  repr_lay page p lay -> GetTupleCount page = Ok (Z.of_nat (length (s_slots p))).
Proof.
  intros H. unfold GetTupleCount. rewrite read_i32_ok; [by rewrite (t_count _ _ _ H)|lia|].
  rewrite (t_len _ _ _ H). unfold PAGE_SIZE. lia.
Qed.

Lemma read_fsp page p lay :
  repr_lay page p lay -> GetFreeSpacePointer page = Ok (PAGE_SIZE - area_len lay).
Proof.
  intros H. unfold GetFreeSpacePointer. rewrite read_i32_ok; [by rewrite (t_fsp _ _ _ H)|lia|].
  rewrite (t_len _ _ _ H). unfold PAGE_SIZE. lia.
Qed.

Lemma read_page_id page p lay : repr_lay page p lay -> GetPageId page = Ok (s_id p).
Proof.
  intros H. unfold GetPageId. rewrite read_i32_ok; [by rewrite (t_id _ _ _ H)|lia|].
  rewrite (t_len _ _ _ H). unfold PAGE_SIZE. lia.
Qed.

Lemma slot_in_page page p lay i :
  repr_lay page p lay -> (i < length (s_slots p))%nat ->
  24 + 8 * Z.of_nat i + 8 <= Z.of_nat (length page).
Proof.
  intros H Hi. pose proof (t_room _ _ _ H). pose proof (area_len_nonneg lay).
  rewrite (t_len _ _ _ H). unfold PAGE_SIZE in *. lia.
Qed.

Lemma read_size page p lay i s :
  repr_lay page p lay -> s_slots p !! i = Some s ->
  GetTupleSize page (Z.of_nat i) = Ok (slot_size s).
Proof.
  intros H Hs. pose proof (slot_in_page _ _ _ i H (lookup_lt_Some _ _ _ Hs)).
  unfold GetTupleSize. rewrite read_i32_ok by lia. by rewrite <- (t_size _ _ _ H i s Hs).
Qed.

Lemma read_offset page p lay i :
  repr_lay page p lay -> (i < length (s_slots p))%nat ->
  GetTupleOffset page (Z.of_nat i) = Ok (offset_at page i).
Proof.
  intros H Hi. pose proof (slot_in_page _ _ _ i H Hi).
  unfold GetTupleOffset. by rewrite read_i32_ok by lia.
Qed.

(** The bytes of the front and of the back of the tuple area. *)
Lemma area_parts page p lay l1 l2 :
  repr_lay page p lay -> lay = l1 ++ l2 ->
  slice (PAGE_SIZE - area_len lay) (area_len l1) page = area l1 /\
  slice (PAGE_SIZE - area_len l2) (area_len l2) page = area l2.
Proof.
  intros H ->. pose proof (t_area _ _ _ H) as Ha. pose proof (t_room _ _ _ H) as Hr.
  rewrite area_len_app in *. pose proof (area_len_nonneg l1). pose proof (area_len_nonneg l2).
  rewrite slice_split, area_app in Ha by (unfold PAGE_SIZE in *; lia).
  apply app_inj_1 in Ha as [Hfront Hback].
  - split; [done|]. rewrite <- Hback. f_equal. lia.
  - pose proof (t_len _ _ _ H). rewrite length_slice by (unfold PAGE_SIZE in *; lia).
    unfold area_len. lia.
Qed.

Lemma tuple_bytes page p lay l1 l2 i bs :
  repr_lay page p lay -> lay = l1 ++ (i, bs) :: l2 ->
  slice (PAGE_SIZE - area_len lay + area_len l1) (Z.of_nat (length bs)) page = bs.
Proof.
  intros H Hl. assert (Hl' : lay = (l1 ++ [(i, bs)]) ++ l2) by (by rewrite <- app_assoc).
  destruct (area_parts _ _ _ _ _ H Hl') as [Ha _].
  pose proof (t_room _ _ _ H) as Hr. pose proof (area_len_nonneg l1). pose proof (area_len_nonneg l2).
  assert (Hlen : area_len lay = area_len l1 + Z.of_nat (length bs) + area_len l2)
    by (rewrite Hl, area_len_app, area_len_cons; lia).
  rewrite area_len_app, area_len_cons, area_app in Ha. change (area_len []) with 0 in Ha.
  rewrite Z.add_0_r, slice_split in Ha by (unfold PAGE_SIZE in *; lia).
  apply app_inj_1 in Ha as [_ Ha].
  - rewrite Ha. unfold area. simpl. by rewrite app_nil_r.
  - pose proof (t_len _ _ _ H). rewrite length_slice by (unfold PAGE_SIZE in *; lia).
    unfold area_len. lia.
Qed.


(** The tuple area has the length of the tuples of the slots. *)
Lemma join_filter_nonempty (l : Layout) :
  mjoin ((filter (fun x => x.2 <> []) l).*2) = mjoin l.*2.
Proof.
  induction l as [|[i bs] l IH]; [done|]. rewrite filter_cons.
  change (mjoin (((i, bs) :: l).*2)) with (bs ++ mjoin l.*2). cbn [snd]. case_decide as Hd.
  - rewrite <- IH. done.
  - rewrite Hd. exact IH.
Qed.

Lemma used_area page p lay : repr_lay page p lay -> used (s_slots p) = area_len lay.
Proof.
  intros H. unfold used, area_len, area. f_equal. apply Permutation_length.
  set (all := imap (fun i s => (i, slot_bytes s)) (s_slots p)).
  assert (Hs : slot_bytes <$> s_slots p = all.*2).
  { unfold all. rewrite fmap_imap. apply list_eq. intros i.
    rewrite list_lookup_imap, list_lookup_fmap. by destruct (s_slots p !! i). }
  rewrite Hs, <- (join_filter_nonempty all). f_equiv. f_equiv.
  assert (Hall : all.*1 = seq 0 (length (s_slots p))).
  { unfold all. rewrite fmap_imap.
    etrans; [exact (imap_seq_0 (s_slots p) id)|apply list_fmap_id]. }
  apply NoDup_Permutation.
  - apply NoDup_filter. apply (NoDup_fmap_1 fst). rewrite Hall. apply NoDup_seq.
  - apply (NoDup_fmap_1 fst). apply H.
  - intros [i bs]. rewrite list_elem_of_filter, (t_lay _ _ _ H). simpl. split.
    + intros [Hne (j & s & [= -> ->] & Hj)%elem_of_lookup_imap]. split; [done|].
      exists s. split; [done|]. split; [|done]. by intros ->.
    + intros (Hne & s & Hj & _ & <-). split; [done|]. apply elem_of_lookup_imap. by exists i, s.
Qed.

Lemma read_free page p lay :
  repr_lay page p lay -> GetFreeSpaceSize page = Ok (free_size (s_slots p)).
Proof.
  intros H. unfold GetFreeSpaceSize. rewrite (read_fsp _ _ _ H), bind_ok.
  rewrite (read_count _ _ _ H), bind_ok. f_equal. unfold free_size.
  rewrite (used_area _ _ _ H). pose proof (t_room _ _ _ H). pose proof (area_len_nonneg lay).
  rewrite swrap_id by (unfold in_sint, PAGE_SIZE in *; lia). lia.
Qed.

(** ** Lemmas: the loops over the slots *)

Lemma slot_size_0 page p lay i s :
  repr_lay page p lay -> s_slots p !! i = Some s -> slot_size s = 0 <-> s = Free.
Proof.
  intros H Hs. destruct (t_bytes _ _ _ H i s Hs) as [->|Hb]; [done|].
  destruct s; simpl in *; try (destruct bs; [done|simpl]); split; try done; lia.
Qed.

Lemma slot_size_pos page p lay i s :
  repr_lay page p lay -> s_slots p !! i = Some s -> (0 <? slot_size s) = is_live s.
Proof.
  intros H Hs. destruct (t_bytes _ _ _ H i s Hs) as [->|Hb]; [done|].
  destruct s; simpl in *; try (destruct bs; [done|]); try done.
Qed.

Lemma free_slot_spec page p lay k :
  repr_lay page p lay -> (k <= length (s_slots p))%nat ->
  free_slot page (Z.of_nat k) (length (s_slots p) - k) =
  Ok (Z.of_nat (k + first_free (drop k (s_slots p)))).
Proof.
  intros H Hk. remember (length (s_slots p) - k)%nat as n eqn:E. revert k Hk E.
  induction n as [|n IH]; intros k Hk E.
  - rewrite drop_ge by lia. unfold first_free. simpl. do 2 f_equal. lia.
  - destruct (lookup_lt_is_Some_2 (s_slots p) k) as [s Hs]; [lia|].
    cbn [free_slot]. rewrite (read_size _ _ _ _ _ H Hs), bind_ok.
    rewrite (drop_S _ s k Hs). unfold first_free. simpl.
    destruct (slot_size s =? 0) eqn:E0; zify_bool.
    + apply (slot_size_0 _ _ _ _ _ H Hs) in E0. rewrite decide_True by done. do 2 f_equal. lia.
    + rewrite decide_False by (intros ->; done).
      replace (Z.of_nat k + 1) with (Z.of_nat (S k)) by lia. rewrite IH by lia.
      unfold first_free. destruct (list_find _ _) as [[i x]|]; simpl; do 2 f_equal; lia.
Qed.

Lemma valid_slot_spec page p lay k :
  repr_lay page p lay ->
  valid_slot page (Z.of_nat k) (length (s_slots p) - k) =
  Ok (Z.of_nat <$> first_live k (s_slots p)).
Proof.
  intros H. remember (length (s_slots p) - k)%nat as n eqn:E. revert k E.
  induction n as [|n IH]; intros k E.
  - unfold first_live. rewrite drop_ge by lia. done.
  - destruct (lookup_lt_is_Some_2 (s_slots p) k) as [s Hs]; [lia|].
    cbn [valid_slot]. rewrite (read_size _ _ _ _ _ H Hs), bind_ok.
    rewrite (slot_size_pos _ _ _ _ _ H Hs).
    unfold first_live. rewrite (drop_S _ s k Hs). simpl.
    destruct (is_live s); simpl; [do 3 f_equal; lia|].
    replace (Z.of_nat k + 1) with (Z.of_nat (S k)) by lia. rewrite IH by lia.
    unfold first_live. destruct (list_find _ _) as [[i x]|]; simpl; [do 3 f_equal; lia|done].
Qed.

(** What [shift_offsets] changes: the offsets of the slots that move. *)
Record shifted (moves : Z -> Z -> bool) (delta : Z) (k count : nat) (page page' : Buf) : Prop := {
  sh_len : length page' = length page;
  sh_head o : 0 <= o -> o + 4 <= 24 -> i32_at page' o = i32_at page o;
  sh_tail o n : 24 + 8 * Z.of_nat count <= o -> 0 <= n -> slice o n page' = slice o n page;
  sh_size j : (j < count)%nat -> size_at page' j = size_at page j;
  sh_offset j : (j < count)%nat ->
    offset_at page' j =
    if decide (k <= j)%nat
    then if moves (size_at page j) (offset_at page j) then offset_at page j + delta
         else offset_at page j
    else offset_at page j
}.

Lemma shift_offsets_spec moves delta page count k :
  24 + 8 * Z.of_nat count <= Z.of_nat (length page) -> (k <= count)%nat ->
  (forall j, (k <= j < count)%nat -> moves (size_at page j) (offset_at page j) = true ->
             int32 (offset_at page j + delta)) ->
  exists page', shift_offsets moves delta page (Z.of_nat k) (count - k) = Ok page' /\
                shifted moves delta k count page page'.
Proof.
  intros Hroom Hk Hint. remember (count - k)%nat as n eqn:E. revert k page Hroom Hk Hint E.
  induction n as [|n IH]; intros k page Hroom Hk Hint E.
  - exists page. split; [done|]. split; try done. intros j Hj. by rewrite decide_False by lia.
  - cbn [shift_offsets]. unfold GetTupleOffset, GetTupleSize.
    rewrite !read_i32_ok, !bind_ok by lia.
    change (i32_at page (24 + 8 * Z.of_nat k)) with (offset_at page k).
    change (i32_at page (28 + 8 * Z.of_nat k)) with (size_at page k).
    replace (Z.of_nat k + 1) with (Z.of_nat (S k)) by lia.
    destruct (moves (size_at page k) (offset_at page k)) eqn:Em.
    + unfold SetTupleOffset.
      destruct (write_i32_spec page (24 + 8 * Z.of_nat k) (offset_at page k + delta))
        as (p1 & -> & S1 & Hv); [lia|lia|apply Hint; [lia|done]|].
      assert (Ho : forall j, j <> k -> offset_at p1 j = offset_at page j)
        by (intros j Hj; unfold offset_at; by frames).
      assert (Hs : forall j, size_at p1 j = size_at page j)
        by (intros j; unfold size_at; by frames).
      rewrite bind_ok. destruct (IH (S k) p1) as (p2 & H2 & [Hl Hh Ht Hsz Hof]); try lia.
      { destruct S1 as [-> _]. lia. }
      { intros j Hj. rewrite Hs, Ho by lia. apply Hint. lia. }
      exists p2. split; [done|]. split.
      * destruct S1. congruence.
      * intros o Ho1 Ho2. rewrite Hh by done. by frames.
      * intros o m Ho1 Hm. rewrite Ht by done. by frames.
      * intros j Hj. by rewrite Hsz.
      * intros j Hj. rewrite Hof, Hs by done. destruct (decide (j = k)) as [->|Hne].
        -- rewrite decide_False, decide_True by lia. rewrite Em. exact Hv.
        -- rewrite Ho by done. repeat case_decide; try lia; done.
    + rewrite bind_ok. destruct (IH (S k) page) as (p2 & H2 & [Hl Hh Ht Hsz Hof]); try lia.
      { intros j Hj. apply Hint. lia. }
      exists p2. split; [done|]. split; try done.
      intros j Hj. rewrite Hof by done. destruct (decide (j = k)) as [->|Hne].
      * rewrite decide_False, decide_True by lia. by rewrite Em.
      * repeat case_decide; try lia; done.
Qed.

(** ** Lemmas: the writers *)

Definition place_slots (i : nat) (bs : list Z) (slots : list Slot) : list Slot :=
  if (i =? length slots)%nat then slots ++ [Live bs] else <[i := Live bs]> slots.

Lemma place_slots_lookup i bs slots j :
  (i <= length slots)%nat ->
  place_slots i bs slots !! j = if decide (j = i) then Some (Live bs) else slots !! j.
Proof.
  intros Hi. unfold place_slots. destruct (Nat.eqb_spec i (length slots)) as [->|Hne].
  - case_decide as Hj; [subst j; by rewrite lookup_app_r, Nat.sub_diag by lia|].
    destruct (decide (j < length slots)%nat); [by rewrite lookup_app_l|].
    rewrite lookup_app_r by lia. rewrite (lookup_ge_None_2 slots j) by lia.
    destruct (j - length slots)%nat eqn:E; [lia|done].
  - case_decide as Hj; [subst j; apply list_lookup_insert_eq; lia|].
    by rewrite list_lookup_insert_ne by done.
Qed.

Lemma place_slots_length i bs slots :
  length (place_slots i bs slots) = (length slots + if (i =? length slots)%nat then 1 else 0)%nat.
Proof.
  unfold place_slots. destruct (_ =? _)%nat; [rewrite length_app; done|].
  rewrite length_insert. lia.
Qed.

(** The layout of the slots, given the new directory. *)
Lemma lay_cons p lay (slots' : list Slot) i bs :
  (forall j b, (j, b) ∈ lay <->
    b <> [] /\ exists s, s_slots p !! j = Some s /\ s <> Free /\ slot_bytes s = b) ->
  (forall j, slots' !! j = if decide (j = i) then Some (Live bs) else s_slots p !! j) ->
  (forall s, s_slots p !! i = Some s -> s = Free) -> bs <> [] ->
  (i ∉ lay.*1) /\ forall j b, (j, b) ∈ (i, bs) :: lay <->
    b <> [] /\ exists s, slots' !! j = Some s /\ s <> Free /\ slot_bytes s = b.
Proof.
  intros Hlay Hslots Hfree Hbs.
  assert (Hi : i ∉ lay.*1).
  { intros ([j b] & -> & Hin)%list_elem_of_fmap. apply Hlay in Hin as (_ & s & Hs & Hf & _).
    simpl in Hs. by apply Hfree in Hs. }
  split; [done|]. intros j b. rewrite elem_of_cons, Hlay, Hslots. split.
  - intros [[= -> ->]|(Hb & s & Hs & Hf & Hsb)].
    + split; [done|]. exists (Live bs). by rewrite decide_True.
    + split; [done|]. exists s. rewrite decide_False; [done|]. intros ->. by apply Hfree in Hs.
  - intros (Hb & s & Hs & Hf & Hsb). case_decide as Hj.
    + subst j. injection Hs as <-. simpl in Hsb. subst b. by left.
    + right. split; [done|]. by exists s.
Qed.

Lemma page_size_eq : PAGE_SIZE = 512.
Proof. done. Qed.

(** The bytes of [page'] after the writes of a call on [page]: the integers of its header and
    of its [n] slots, and the area of the tuples. *)
Record laid_out (page page' : Buf) (n : nat) (fsp : Z) (size offset : nat -> Z) (bytes : Buf) : Prop := {
  lo_len : length page' = length page;
  lo_id : i32_at page' 0 = i32_at page 0;
  lo_prev : i32_at page' 8 = i32_at page 8;
  lo_next : i32_at page' 12 = i32_at page 12;
  lo_fsp : i32_at page' 16 = fsp;
  lo_count : i32_at page' 20 = Z.of_nat n;
  lo_area : slice fsp (PAGE_SIZE - fsp) page' = bytes;
  lo_size j : (j < n)%nat -> size_at page' j = size j;
  lo_offset j : (j < n)%nat -> offset_at page' j = offset j
}.

(** What a slot says of its size and offset. *)
Definition slot_entry (lay : Layout) (j : nat) (s : Slot) (size offset : Z) : Prop :=
  size = slot_size s /\ offset = match s with Free => 0 | _ => PAGE_SIZE - area_len lay + off_of lay j end.

Lemma laid_out_repr page p lay page' slots' lay' size offset :
  repr_lay page p lay ->
  laid_out page page' (length slots') (PAGE_SIZE - area_len lay') size offset (area lay') ->
  24 + 8 * Z.of_nat (length slots') + area_len lay' <= PAGE_SIZE -> NoDup lay'.*1 ->
  (forall j bs, (j, bs) ∈ lay' <-> bs <> [] /\ exists s, slots' !! j = Some s /\ s <> Free /\ slot_bytes s = bs) ->
  (forall j s, slots' !! j = Some s -> s = Free \/ slot_bytes s <> []) ->
  (forall j s, slots' !! j = Some s -> slot_entry lay' j s (size j) (offset j)) ->
  repr_lay page' (mkSPage (s_id p) (s_prev p) (s_next p) slots') lay'.
Proof.
  intros H [Hlen Hid Hprev Hnext Hfsp Hcount Harea Hsize Hoff] Hroom Hnd Hlay Hbytes Hslots.
  split; cbn [s_id s_prev s_next s_slots]; try done.
  - rewrite Hlen. apply H.
  - rewrite Hid. apply H.
  - rewrite Hprev. apply H.
  - rewrite Hnext. apply H.
  - rewrite <- Harea. f_equal. lia.
  - intros j s Hs. rewrite Hsize by (by apply lookup_lt_Some in Hs). by apply Hslots.
  - intros j s Hs Hf. rewrite Hoff by (by apply lookup_lt_Some in Hs). destruct (Hslots j s Hs) as [_ ->]. by destruct s.
  - intros j Hs. rewrite Hoff by (by apply lookup_lt_Some in Hs). by destruct (Hslots j Free Hs) as [_ ->].
Qed.

(** The size and the offset a page has for a slot. *)
Lemma repr_entry page p lay j s : repr_lay page p lay -> s_slots p !! j = Some s ->
  slot_entry lay j s (size_at page j) (offset_at page j).
Proof.
  intros H Hs. split; [by apply (t_size _ _ _ H)|]. destruct s; [by apply (t_free _ _ _ H)|by apply (t_offset _ _ _ H _ _ Hs)..].
Qed.

(** The writes of an insertion in the slot [i]. *)
Lemma place_bytes page p lay i bs :
  repr_lay page p lay -> bs <> [] -> (i <= length (s_slots p))%nat ->
  Z.of_nat (length bs) + (if (i =? length (s_slots p))%nat then 8 else 0) <= free_size (s_slots p) ->
  let count := Z.of_nat (length (s_slots p)) in
  let n := Z.of_nat (length bs) in
  let fsp := PAGE_SIZE - area_len lay - n in
  exists p1 p2 p3 p4 p5,
    SetFreeSpacePointer page fsp = Ok p1 /\ GetFreeSpacePointer p1 = Ok fsp /\
    memwrite p1 fsp bs = Ok p2 /\ SetTupleOffset p2 (Z.of_nat i) fsp = Ok p3 /\
    SetTupleSize p3 (Z.of_nat i) n = Ok p4 /\
    (if Z.of_nat i =? count then SetTupleCount p4 (count + 1) else Ok p4) = Ok p5 /\
    laid_out page p5 (length (place_slots i bs (s_slots p))) fsp
      (fun j => if decide (j = i) then n else size_at page j)
      (fun j => if decide (j = i) then fsp else offset_at page j) (bs ++ area lay).
Proof.
  intros H Hbs Hi Hroom count n fsp. pose proof (t_len _ _ _ H) as Hlen. pose proof page_size_eq as HP.
  unfold free_size in Hroom. rewrite (used_area _ _ _ H) in Hroom. pose proof (area_len_nonneg lay) as Hnn.
  assert (Hi8 : 24 + 8 * Z.of_nat i + 8 <= fsp /\ 24 + 8 * count <= fsp)
    by (destruct (Nat.eqb_spec i (length (s_slots p))); unfold fsp, n, count; lia).
  assert (Hn0 : 0 < n) by (unfold n; destruct bs; [done|simpl; lia]).
  assert (Hle : fsp + n <= 512 /\ Z.of_nat (length page) = 512) by (unfold fsp; lia).
  destruct (write_i32_spec page 16 fsp) as (p1 & H1 & S1 & V1); [lia|lia|unfold in_sint; lia|]. pose proof (proj1 S1) as L1.
  destruct (memwrite_spec p1 fsp bs) as (p2 & H2 & S2 & V2); [lia|lia|]. fold n in S2, V2. pose proof (proj1 S2) as L2.
  destruct (write_i32_spec p2 (24 + 8 * Z.of_nat i) fsp) as (p3 & H3 & S3 & V3); [lia|lia|unfold in_sint; lia|].
  pose proof (proj1 S3) as L3.
  destruct (write_i32_spec p3 (28 + 8 * Z.of_nat i) n) as (p4 & H4 & S4 & V4); [lia|lia|unfold in_sint; lia|].
  pose proof (proj1 S4) as L4.
  assert (exists p5, (if Z.of_nat i =? count then SetTupleCount p4 (count + 1) else Ok p4) = Ok p5 /\
            same_out p4 p5 20 4 /\ i32_at p5 20 = Z.of_nat (length (place_slots i bs (s_slots p)))) as (p5 & H5 & S5 & V5).
  { rewrite place_slots_length. destruct (Nat.eqb_spec i (length (s_slots p))) as [->|Hne].
    - rewrite (proj2 (Z.eqb_eq (Z.of_nat (length (s_slots p))) count)) by done.
      destruct (write_i32_spec p4 20 (count + 1)) as (p5 & H5 & S5 & V5); [lia|lia|unfold in_sint, count; lia|].
      exists p5. split; [done|]. split; [done|]. rewrite V5. unfold count. lia.
    - rewrite (proj2 (Z.eqb_neq _ _)) by (unfold count; lia). exists p4. split; [done|].
      split; [by split|]. rewrite Nat.add_0_r. frames. apply H. }
  pose proof (proj1 S5) as L5. exists p1, p2, p3, p4, p5. split; [done|]. split.
  { unfold GetFreeSpacePointer. rewrite read_i32_ok by lia. by rewrite V1. }
  do 4 (split; [done|]). split; try (by frames); try congruence.
  - replace (PAGE_SIZE - fsp) with (n + area_len lay) by (unfold fsp; lia).
    rewrite slice_split by lia. frames. rewrite V2. replace (fsp + n) with (PAGE_SIZE - area_len lay) by (unfold fsp; lia).
    frames. by rewrite (t_area _ _ _ H).
  - intros j Hj. unfold size_at. case_decide as Hji; [subst j; frames; exact V4|].
    rewrite place_slots_length in Hj. destruct (Nat.eqb_spec i (length (s_slots p))); by frames.
  - intros j Hj. unfold offset_at. case_decide as Hji; [subst j; frames; exact V3|].
    rewrite place_slots_length in Hj. destruct (Nat.eqb_spec i (length (s_slots p))); by frames.
Qed.

Lemma place_tuple page p lay i bs :
  repr_lay page p lay -> bs <> [] -> (i <= length (s_slots p))%nat ->
  (forall s, s_slots p !! i = Some s -> s = Free) ->
  Z.of_nat (length bs) + (if (i =? length (s_slots p))%nat then 8 else 0) <= free_size (s_slots p) ->
  let count := Z.of_nat (length (s_slots p)) in
  let n := Z.of_nat (length bs) in
  let fsp := PAGE_SIZE - area_len lay - n in
  exists p1 p2 p3 p4 p5,
    SetFreeSpacePointer page fsp = Ok p1 /\ GetFreeSpacePointer p1 = Ok fsp /\
    memwrite p1 fsp bs = Ok p2 /\ SetTupleOffset p2 (Z.of_nat i) fsp = Ok p3 /\
    SetTupleSize p3 (Z.of_nat i) n = Ok p4 /\
    (if Z.of_nat i =? count then SetTupleCount p4 (count + 1) else Ok p4) = Ok p5 /\
    repr_lay p5 (mkSPage (s_id p) (s_prev p) (s_next p) (place_slots i bs (s_slots p)))
             ((i, bs) :: lay).
Proof.
  intros H Hbs Hi Hfree Hroom count n fsp.
  destruct (place_bytes page p lay i bs H Hbs Hi Hroom) as (p1 & p2 & p3 & p4 & p5 & H1 & H1' & H2 & H3 & H4 & H5 & Hlo).
  fold count n fsp in H1, H1', H2, H3, H4, H5, Hlo. exists p1, p2, p3, p4, p5. do 6 (split; [done|]).
  pose proof (fun j => place_slots_lookup i bs (s_slots p) j Hi) as Hlk.
  destruct (lay_cons p lay (place_slots i bs (s_slots p)) i bs (t_lay _ _ _ H) Hlk Hfree Hbs) as [Hni Hlay].
  assert (Hfsp : PAGE_SIZE - area_len ((i, bs) :: lay) = fsp) by (rewrite area_len_cons; unfold fsp, n; lia).
  apply (laid_out_repr page p lay p5 (place_slots i bs (s_slots p)) ((i, bs) :: lay)
    (fun j => if decide (j = i) then n else size_at page j) (fun j => if decide (j = i) then fsp else offset_at page j) H);
    [by rewrite Hfsp| |constructor; [done|apply H]|exact Hlay| |].
  - unfold free_size in Hroom. rewrite (used_area _ _ _ H) in Hroom. rewrite place_slots_length, area_len_cons.
    destruct (_ =? _)%nat; unfold PAGE_SIZE in *; lia.
  - intros j s. rewrite Hlk. case_decide; [intros [= <-]; by right|]. apply (t_bytes _ _ _ H).
  - intros j s. rewrite Hlk. unfold slot_entry. rewrite Hfsp. cbn [off_of]. case_decide as Hj.
    + intros [= <-]. subst j. cbn [slot_size]. rewrite decide_True by done. split; [done|lia].
    + intros Hs. destruct (repr_entry page p lay j s H Hs) as [-> ->]. rewrite decide_False by done.
      split; [done|]. destruct s; [done|unfold fsp, n; lia..].
Qed.

Lemma set_slot_lookup i s p j :
  (i < length (s_slots p))%nat ->
  s_slots (set_slot i s p) !! j = if decide (j = i) then Some s else s_slots p !! j.
Proof.
  intros Hi. unfold set_slot. simpl. case_decide as Hj.
  - subst j. by rewrite list_lookup_insert_eq.
  - by rewrite list_lookup_insert_ne.
Qed.

(** Changing the sign of a size. *)
Lemma resign_bytes page p lay i (sz : Z) :
  repr_lay page p lay -> (i < length (s_slots p))%nat -> int32 sz ->
  exists page', SetTupleSize page (Z.of_nat i) sz = Ok page' /\ laid_out page page' (length (s_slots p)) (PAGE_SIZE - area_len lay)
      (fun j => if decide (j = i) then sz else size_at page j) (offset_at page) (area lay).
Proof.
  intros H Hi Hsz. pose proof (t_len _ _ _ H) as Hlen. pose proof (t_room _ _ _ H) as Hroom.
  pose proof (area_len_nonneg lay) as Hnn. pose proof page_size_eq as HP.
  destruct (write_i32_spec page (28 + 8 * Z.of_nat i) sz) as (p1 & H1 & S1 & V1); [lia|lia|done|].
  pose proof (proj1 S1) as L1. exists p1. split; [done|]. split; try (by frames); try (frames; apply H).
  - frames. replace (PAGE_SIZE - (PAGE_SIZE - area_len lay)) with (area_len lay) by lia. apply H.
  - intros j Hj. unfold size_at. case_decide as Hji; [by subst j|by frames].
  - intros j Hj. unfold offset_at. by frames.
Qed.

Lemma resign_tuple page p lay i s s' :
  repr_lay page p lay -> s_slots p !! i = Some s -> s <> Free -> s' <> Free ->
  slot_bytes s' = slot_bytes s ->
  exists page', SetTupleSize page (Z.of_nat i) (slot_size s') = Ok page' /\ repr_lay page' (set_slot i s' p) lay.
Proof.
  intros H Hs Hf Hf' Hb. pose proof (lookup_lt_Some _ _ _ Hs) as Hlt. pose proof (t_room _ _ _ H) as Hroom.
  assert (Hsz : int32 (slot_size s')).
  { destruct (lay_split _ _ _ _ _ H Hs Hf) as (l1 & l2 & -> & _). rewrite area_len_app, area_len_cons, <- Hb in Hroom.
    pose proof (area_len_nonneg l1). pose proof (area_len_nonneg l2). unfold in_sint, PAGE_SIZE in *. destruct s'; simpl in *; lia. }
  destruct (resign_bytes page p lay i (slot_size s') H Hlt Hsz) as (page' & H1 & Hlo).
  exists page'. split; [done|]. pose proof (fun j => set_slot_lookup i s' p j Hlt) as Hlk. cbn [set_slot s_slots] in Hlk.
  unfold set_slot. eapply (laid_out_repr page p lay page' (<[i:=s']> (s_slots p)) lay); [done|..].
  - rewrite length_insert. exact Hlo.
  - by rewrite length_insert.
  - apply H.
  - intros j b. rewrite (t_lay _ _ _ H), Hlk. case_decide as Hj; [subst j|done].
    split; intros (Hbne & x & Hx & Hxf & Hxb); (split; [done|]).
    + exists s'. split; [done|]. split; [done|]. congruence.
    + injection Hx as <-. exists s. split; [done|]. split; [done|]. congruence.
  - intros j x. rewrite Hlk. case_decide; [|apply (t_bytes _ _ _ H)].
    intros [= <-]. right. rewrite Hb. by destruct (t_bytes _ _ _ H i s Hs).
  - intros j x. rewrite Hlk. cbn beta. case_decide as Hj; [|by apply repr_entry].
    subst j. intros [= <-]. destruct (repr_entry page p lay i s H Hs) as [_ Hoff]. split; [done|]. by destruct s, s'.
Qed.

(** Where the other tuples lie with respect to tuple [i]. *)
Lemma off_of_split l1 l2 i bs j b :
  NoDup (l1 ++ (i, bs) :: l2).*1 -> (j, b) ∈ l1 ++ (i, bs) :: l2 -> j <> i -> b <> [] ->
  (j ∈ l1.*1 /\ off_of (l1 ++ (i, bs) :: l2) j = off_of l1 j /\ off_of l1 j < area_len l1) \/
  ((j ∉ l1.*1) /\ off_of (l1 ++ (i, bs) :: l2) j =
                area_len l1 + Z.of_nat (length bs) + off_of l2 j /\ 0 <= off_of l2 j).
Proof.
  intros Hnd Hin Hj Hb. rewrite fmap_app, fmap_cons in Hnd.
  pose proof Hnd as (Hnd1 & Hd & [_ Hnd2]%NoDup_cons)%NoDup_app.
  apply elem_of_app in Hin as [Hin|[?|Hin]%elem_of_cons]; [left| congruence|right].
  - assert (Hj1 : j ∈ l1.*1) by (apply list_elem_of_fmap; by exists (j, b)).
    split; [done|]. rewrite off_of_app_l by done. split; [done|].
    destruct (off_of_bound l1 j b Hnd1 Hin). destruct b; [done|simpl in *; lia].
  - assert (Hj2 : j ∈ l2.*1) by (apply list_elem_of_fmap; by exists (j, b)).
    assert (Hj1 : j ∉ l1.*1) by (intros Hx; apply (Hd j Hx); by right).
    split; [done|]. rewrite off_of_app_r by done. simpl. rewrite decide_False by congruence.
    destruct (off_of_bound l2 j b Hnd2 Hin). lia.
Qed.

(** Removing an entry of the layout, or changing its bytes, keeps the others. *)
Lemma lay_replace p l1 l2 i b0 (slots' : list Slot) (mid : Layout) (s' : Slot) :
  (forall j b, (j, b) ∈ l1 ++ (i, b0) :: l2 <->
    b <> [] /\ exists s, s_slots p !! j = Some s /\ s <> Free /\ slot_bytes s = b) ->
  (i ∉ l1.*1) -> (i ∉ l2.*1) ->
  (forall j, slots' !! j = if decide (j = i) then Some s' else s_slots p !! j) ->
  ((mid = [] /\ s' = Free) \/ (mid = [(i, slot_bytes s')] /\ s' <> Free /\ slot_bytes s' <> [])) ->
  forall j b, (j, b) ∈ l1 ++ mid ++ l2 <->
    b <> [] /\ exists s, slots' !! j = Some s /\ s <> Free /\ slot_bytes s = b.
Proof.
  intros Hlay H1 H2 Hlk Hmid j b. rewrite Hlk.
  assert (Hno : forall l : Layout, (i ∉ l.*1) -> (i, b) ∉ l).
  { intros l Hl Hin. apply Hl. apply list_elem_of_fmap. by exists (i, b). }
  rewrite !elem_of_app. case_decide as Hj.
  - subst j. specialize (Hno _ H1) as Hn1. specialize (Hno _ H2) as Hn2.
    destruct Hmid as [[-> ->]|(-> & Hs & Hb)].
    + rewrite elem_of_nil. split; [tauto|]. intros (_ & s & [= <-] & ? & _). done.
    + rewrite list_elem_of_singleton. split.
      * intros [?|[[= ->]|?]]; [done| |done]. split; [done|]. by exists s'.
      * intros (_ & s & [= <-] & _ & <-). by right; left.
  - rewrite <- Hlay, elem_of_app, elem_of_cons.
    assert ((j, b) ∉ mid).
    { destruct Hmid as [[-> _]|[-> _]]; [apply not_elem_of_nil|].
      rewrite list_elem_of_singleton. congruence. }
    split; [tauto|]. intros [?|[[= -> _]|?]]; tauto.
Qed.

Lemma offset_bounds page p lay j s :
  repr_lay page p lay -> s_slots p !! j = Some s -> 0 <= offset_at page j <= 512.
Proof.
  intros H Hs. pose proof page_size_eq. pose proof (t_room _ _ _ H).
  destruct (decide (s = Free)) as [->|Hf]; [rewrite (t_free _ _ _ H j Hs); lia|].
  destruct (lay_split _ _ _ _ _ H Hs Hf) as (l1 & l2 & -> & _ & _ & -> & _).
  rewrite area_len_app, area_len_cons in *. pose proof (area_len_nonneg l1).
  pose proof (area_len_nonneg l2). lia.
Qed.

(** The place of every other tuple, for a page whose layout is split at slot [i]. *)
Lemma other_offset page p l1 l2 i bs j s :
  repr_lay page p (l1 ++ (i, bs) :: l2) -> j <> i -> s_slots p !! j = Some s -> s <> Free ->
  let fsp := PAGE_SIZE - area_len (l1 ++ (i, bs) :: l2) in
  (j ∈ l1.*1 /\ offset_at page j = fsp + off_of l1 j /\ off_of l1 j < area_len l1) \/
  ((j ∉ l1.*1) /\
   offset_at page j = fsp + area_len l1 + Z.of_nat (length bs) + off_of l2 j /\ 0 <= off_of l2 j).
Proof.
  intros H Hj Hs Hf fsp. destruct (t_bytes _ _ _ H j s Hs) as [?|Hb]; [done|].
  assert (Hin : (j, slot_bytes s) ∈ l1 ++ (i, bs) :: l2) by (apply (t_lay _ _ _ H); eauto).
  rewrite (t_offset _ _ _ H j s Hs Hf). fold fsp.
  destruct (off_of_split l1 l2 i bs j _ (t_nodup _ _ _ H) Hin Hj Hb) as [(? & -> & ?)|(? & -> & ?)];
    [left|right]; (split; [done|]); (split; [lia|done]).
Qed.

Lemma off_of_removed l1 l2 j (i : nat) bs : j <> i ->
  (j ∈ l1.*1 -> off_of (l1 ++ l2) j = off_of l1 j /\ off_of (l1 ++ (i, bs) :: l2) j = off_of l1 j) /\
  (j ∉ l1.*1 -> off_of (l1 ++ l2) j = area_len l1 + off_of l2 j /\
                off_of (l1 ++ (i, bs) :: l2) j = area_len l1 + (Z.of_nat (length bs) + off_of l2 j)).
Proof.
  intros Hj. split; intros Hin; [by rewrite !off_of_app_l|].
  rewrite !off_of_app_r by done. cbn [off_of]. by rewrite decide_False by congruence.
Qed.

(** The lengths of a layout split at a slot, within the page. *)
Lemma split_room page p l1 l2 i bs :
  repr_lay page p (l1 ++ (i, bs) :: l2) -> (i < length (s_slots p))%nat ->
  area_len (l1 ++ (i, bs) :: l2) = area_len l1 + Z.of_nat (length bs) + area_len l2 /\
  0 <= area_len l1 /\ 0 <= area_len l2 /\ Z.of_nat (length page) = 512 /\
  24 + 8 * Z.of_nat i + 8 <= 24 + 8 * Z.of_nat (length (s_slots p)) <= PAGE_SIZE - area_len (l1 ++ (i, bs) :: l2).
Proof.
  intros H Hi. pose proof (t_room _ _ _ H). pose proof (t_len _ _ _ H). pose proof page_size_eq.
  split; [rewrite area_len_app, area_len_cons; lia|]. repeat split; try apply area_len_nonneg; lia.
Qed.

(** The tuples before and after the slot. *)
Lemma split_areas page p l1 l2 i bs :
  repr_lay page p (l1 ++ (i, bs) :: l2) ->
  slice (PAGE_SIZE - area_len (l1 ++ (i, bs) :: l2)) (area_len l1) page = area l1 /\
  slice (PAGE_SIZE - area_len l2) (area_len l2) page = area l2.
Proof.
  intros H. split; [by apply (area_parts _ _ _ l1 ((i, bs) :: l2) H)|].
  apply (area_parts _ _ _ (l1 ++ [(i, bs)]) l2 H). by rewrite <- app_assoc.
Qed.

(** The writes of a removal. *)
Lemma remove_bytes page p l1 l2 i bs :
  let fsp := PAGE_SIZE - area_len (l1 ++ (i, bs) :: l2) in
  let n := Z.of_nat (length bs) in
  let off := offset_at page i in
  let moved size o := if negb (size =? 0) && (o <? off) then o + n else o in
  repr_lay page p (l1 ++ (i, bs) :: l2) -> (i < length (s_slots p))%nat -> off = fsp + area_len l1 ->
  exists p1 p2 p3 p4 p5,
    memmove page (fsp + n) fsp (off - fsp) = Ok p1 /\
    SetFreeSpacePointer p1 (fsp + n) = Ok p2 /\
    SetTupleSize p2 (Z.of_nat i) 0 = Ok p3 /\ SetTupleOffset p3 (Z.of_nat i) 0 = Ok p4 /\
    shift_offsets (fun size o => negb (size =? 0) && (o <? off)) n p4 0 (length (s_slots p)) = Ok p5 /\
    laid_out page p5 (length (s_slots p)) (fsp + n) (fun j => if decide (j = i) then 0 else size_at page j)
      (fun j => if decide (j = i) then 0 else moved (size_at page j) (offset_at page j)) (area (l1 ++ l2)).
Proof.
  intros fsp n off moved H Hlt Hoff. pose proof page_size_eq as HP. destruct (split_room _ _ _ _ _ _ H Hlt) as (Hal & N1 & N2 & Hpg & Hi & Hroom).
  destruct (split_areas _ _ _ _ _ _ H) as [A1 A2]. fold fsp in Hroom, A1. fold n in Hal.
  destruct (memmove_spec page (fsp + n) fsp (off - fsp)) as (p1 & M1 & S1 & V1); [lia..|]. pose proof (proj1 S1) as L1.
  destruct (write_i32_spec p1 16 (fsp + n)) as (p2 & M2 & S2 & V2); [lia|lia|unfold in_sint; lia|]. pose proof (proj1 S2) as L2.
  destruct (write_i32_spec p2 (28 + 8 * Z.of_nat i) 0) as (p3 & M3 & S3 & V3); [lia|lia|unfold in_sint; lia|]. pose proof (proj1 S3) as L3.
  destruct (write_i32_spec p3 (24 + 8 * Z.of_nat i) 0) as (p4 & M4 & S4 & V4); [lia|lia|unfold in_sint; lia|]. pose proof (proj1 S4) as L4.
  assert (Hsz4 : forall j, (j < length (s_slots p))%nat -> size_at p4 j = if decide (j = i) then 0 else size_at page j)
    by (intros j Hj; unfold size_at; case_decide; [subst j; frames; exact V3|by frames]).
  assert (Hof4 : forall j, (j < length (s_slots p))%nat -> offset_at p4 j = if decide (j = i) then 0 else offset_at page j)
    by (intros j Hj; unfold offset_at; case_decide; [subst j; exact V4|by frames]).
  destruct (shift_offsets_spec (fun size o => negb (size =? 0) && (o <? off)) n p4 (length (s_slots p)) 0)
    as (p5 & M5 & [L5 Hhd Htl Hsz5 Hof5]); [lia|lia| |].
  { intros j [_ Hj] _. rewrite Hof4 by done. destruct (lookup_lt_is_Some_2 _ _ Hj) as [x Hx].
    pose proof (offset_bounds _ _ _ _ _ H Hx). unfold in_sint. case_decide; lia. }
  rewrite Nat.sub_0_r in M5. change (Z.of_nat 0) with 0 in M5. exists p1, p2, p3, p4, p5. do 5 (split; [done|]).
  split; try (rewrite Hhd by lia; by frames); try congruence.
  - rewrite Hhd by lia. frames. apply H.
  - rewrite Htl by lia. replace (PAGE_SIZE - (fsp + n)) with (area_len l1 + area_len l2) by lia.
    rewrite slice_split, area_app by lia. frames. f_equal.
    + rewrite V1 by lia. rewrite <- A1. f_equal; lia.
    + frames. rewrite <- A2. f_equal; lia.
  - intros j Hj. rewrite Hsz5 by done. by apply Hsz4.
  - intros j Hj. rewrite Hof5, Hsz4, Hof4 by done. rewrite decide_True by lia. by case_decide.
Qed.

Lemma remove_tuple page p lay i s :
  repr_lay page p lay -> s_slots p !! i = Some s -> s <> Free ->
  let n := Z.of_nat (length (slot_bytes s)) in
  let fsp := PAGE_SIZE - area_len lay in
  let off := offset_at page i in
  exists p1 p2 p3 p4 p5 lay',
    memmove page (fsp + n) fsp (off - fsp) = Ok p1 /\
    SetFreeSpacePointer p1 (fsp + n) = Ok p2 /\
    SetTupleSize p2 (Z.of_nat i) 0 = Ok p3 /\ SetTupleOffset p3 (Z.of_nat i) 0 = Ok p4 /\
    shift_offsets (fun size o => negb (size =? 0) && (o <? off)) n p4 0 (length (s_slots p)) = Ok p5 /\
    repr_lay p5 (set_slot i Free p) lay' /\ fsp <= off.
Proof.
  intros H Hs Hf n fsp off. destruct (lay_split _ _ _ _ _ H Hs Hf) as (l1 & l2 & Hl & H1i & H2i & Hoff & Hb).
  subst lay. pose proof (lookup_lt_Some _ _ _ Hs) as Hlt. destruct (split_room _ _ _ _ _ _ H Hlt) as (Hal & N1 & N2 & _ & _ & Hroom).
  destruct (remove_bytes _ _ _ _ _ _ H Hlt Hoff) as (p1 & p2 & p3 & p4 & p5 & M1 & M2 & M3 & M4 & M5 & Hlo).
  exists p1, p2, p3, p4, p5, (l1 ++ l2). do 5 (split; [done|]). fold n fsp off in Hal, Hoff, Hroom, Hlo. split; [|lia].
  pose proof (area_len_app l1 l2) as Hal'. pose proof (fun j => set_slot_lookup i Free p j Hlt) as Hlk. cbn [set_slot s_slots] in Hlk.
  unfold set_slot. eapply (laid_out_repr page p _ p5 (<[i:=Free]> (s_slots p)) (l1 ++ l2)); [done|..].
  - rewrite length_insert. replace (PAGE_SIZE - area_len (l1 ++ l2)) with (fsp + n) by lia. exact Hlo.
  - rewrite length_insert. lia.
  - pose proof (t_nodup _ _ _ H) as Hnd. rewrite fmap_app, fmap_cons in Hnd.
    rewrite fmap_app. apply NoDup_app in Hnd as (? & Hd & [_ ?]%NoDup_cons). apply NoDup_app.
    split; [done|]. split; [|done]. intros x Hx Hx2. apply (Hd x Hx). by right.
  - apply (lay_replace p l1 l2 i (slot_bytes s) _ [] Free (t_lay _ _ _ H) H1i H2i Hlk). by left.
  - intros j x. rewrite Hlk. case_decide; [intros [= <-]; by left|apply (t_bytes _ _ _ H)].
  - intros j x. rewrite Hlk. cbn beta zeta. case_decide as Hji; [by intros [= <-]|]. intros Hx.
    destruct (repr_entry _ _ _ _ _ H Hx) as [-> Hxo]. split; [done|]. destruct (decide (x = Free)) as [->|Hxf]; [done|].
    rewrite (proj2 (Z.eqb_neq _ _)) by (rewrite (slot_size_0 _ _ _ _ _ H Hx); done). cbn [negb andb].
    destruct (off_of_removed l1 l2 j i (slot_bytes s) Hji) as [Ho1 Ho2].
    transitivity (PAGE_SIZE - area_len (l1 ++ l2) + off_of (l1 ++ l2) j); [|by destruct x].
    destruct (other_offset _ _ _ _ _ _ _ _ H Hji Hx Hxf) as [(Hjl & Hjo & Hlo')|(Hjl & Hjo & Hlo')].
    + rewrite (proj2 (Z.ltb_lt _ _)) by lia. destruct (Ho1 Hjl). lia.
    + rewrite (proj2 (Z.ltb_ge _ _)) by lia. destruct (Ho2 Hjl). lia.
Qed.

(** The writes of an update. *)
Lemma replace_bytes page p l1 l2 i b0 nb :
  let fsp := PAGE_SIZE - area_len (l1 ++ (i, b0) :: l2) in
  let n := Z.of_nat (length b0) in
  let m := Z.of_nat (length nb) in
  let off := offset_at page i in
  let moved size o := if (0 <? size) && (o <? off + n) then o + (n - m) else o in
  repr_lay page p (l1 ++ (i, b0) :: l2) -> (i < length (s_slots p))%nat -> off = fsp + area_len l1 ->
  nb <> [] -> m - n <= free_size (s_slots p) ->
  exists p1 p2 p3 p4 p5,
    memmove page (fsp + (n - m)) fsp (off - fsp) = Ok p1 /\
    SetFreeSpacePointer p1 (fsp + (n - m)) = Ok p2 /\
    memwrite p2 (off + (n - m)) nb = Ok p3 /\ SetTupleSize p3 (Z.of_nat i) m = Ok p4 /\
    shift_offsets (fun size o => (0 <? size) && (o <? off + n)) (n - m) p4 0 (length (s_slots p)) = Ok p5 /\
    laid_out page p5 (length (s_slots p)) (fsp + (n - m)) (fun j => if decide (j = i) then m else size_at page j)
      (fun j => moved (if decide (j = i) then m else size_at page j) (offset_at page j)) (area (l1 ++ (i, nb) :: l2)).
Proof.
  intros fsp n m off moved H Hlt Hoff Hnb Hfree. pose proof page_size_eq as HP. unfold free_size in Hfree. rewrite (used_area _ _ _ H) in Hfree.
  destruct (split_room _ _ _ _ _ _ H Hlt) as (Hal & N1 & N2 & Hpg & Hi & Hroom).
  destruct (split_areas _ _ _ _ _ _ H) as [A1 A2]. fold fsp in Hroom, A1. fold n in Hal.
  assert (Hm : 0 < m) by (unfold m; destruct nb; [done|simpl; lia]).
  destruct (memmove_spec page (fsp + (n - m)) fsp (off - fsp)) as (p1 & M1 & S1 & V1); [lia..|]. pose proof (proj1 S1) as L1.
  destruct (write_i32_spec p1 16 (fsp + (n - m))) as (p2 & M2 & S2 & V2); [lia|lia|unfold in_sint; lia|]. pose proof (proj1 S2) as L2.
  destruct (memwrite_spec p2 (off + (n - m)) nb) as (p3 & M3 & S3 & V3); [lia|lia|]. fold m in S3, V3. pose proof (proj1 S3) as L3.
  destruct (write_i32_spec p3 (28 + 8 * Z.of_nat i) m) as (p4 & M4 & S4 & V4); [lia|lia|unfold in_sint; lia|]. pose proof (proj1 S4) as L4.
  assert (Hsz4 : forall j, (j < length (s_slots p))%nat -> size_at p4 j = if decide (j = i) then m else size_at page j)
    by (intros j Hj; unfold size_at; case_decide; [subst j; exact V4|by frames]).
  assert (Hof4 : forall j, (j < length (s_slots p))%nat -> offset_at p4 j = offset_at page j)
    by (intros j Hj; unfold offset_at; by frames).
  destruct (shift_offsets_spec (fun size o => (0 <? size) && (o <? off + n)) (n - m) p4 (length (s_slots p)) 0)
    as (p5 & M5 & [L5 Hhd Htl Hsz5 Hof5]); [lia|lia| |].
  { intros j [_ Hj] _. rewrite Hof4 by done. destruct (lookup_lt_is_Some_2 _ _ Hj) as [x Hx].
    pose proof (offset_bounds _ _ _ _ _ H Hx). unfold in_sint. lia. }
  rewrite Nat.sub_0_r in M5. change (Z.of_nat 0) with 0 in M5. exists p1, p2, p3, p4, p5. do 5 (split; [done|]).
  split; try (rewrite Hhd by lia; by frames); try congruence.
  - rewrite Hhd by lia. frames. apply H.
  - rewrite Htl by lia. replace (PAGE_SIZE - (fsp + (n - m))) with (area_len l1 + m + area_len l2) by lia.
    rewrite !slice_split, area_app by lia. change (area ((i, nb) :: l2)) with (nb ++ area l2). rewrite <- app_assoc. f_equal; [|f_equal].
    + frames. rewrite V1 by lia. rewrite <- A1. f_equal; lia.
    + frames. etrans; [|exact V3]. f_equal; lia.
    + frames. rewrite <- A2. f_equal; lia.
  - intros j Hj. rewrite Hsz5 by done. by apply Hsz4.
  - intros j Hj. rewrite Hof5, Hsz4, Hof4 by done. by rewrite decide_True by lia.
Qed.

Lemma replace_tuple page p lay i b0 nb :
  repr_lay page p lay -> s_slots p !! i = Some (Live b0) -> nb <> [] ->
  let n := Z.of_nat (length b0) in
  let m := Z.of_nat (length nb) in
  m - n <= free_size (s_slots p) ->
  (forall j b, s_slots p !! j = Some (Marked b) -> m = n) ->
  let fsp := PAGE_SIZE - area_len lay in
  let off := offset_at page i in
  exists p1 p2 p3 p4 p5 lay',
    memmove page (fsp + (n - m)) fsp (off - fsp) = Ok p1 /\
    SetFreeSpacePointer p1 (fsp + (n - m)) = Ok p2 /\
    memwrite p2 (off + (n - m)) nb = Ok p3 /\ SetTupleSize p3 (Z.of_nat i) m = Ok p4 /\
    shift_offsets (fun size o => (0 <? size) && (o <? off + n)) (n - m) p4 0
                  (length (s_slots p)) = Ok p5 /\
    repr_lay p5 (set_slot i (Live nb) p) lay' /\ fsp <= off.
Proof.
  intros H Hs Hnb n m Hfree Hmark fsp off. destruct (lay_split _ _ _ _ _ H Hs ltac:(done)) as (l1 & l2 & Hl & H1i & H2i & Hoff & Hb).
  cbn [slot_bytes] in Hl, Hb. subst lay. pose proof (lookup_lt_Some _ _ _ Hs) as Hlt.
  destruct (split_room _ _ _ _ _ _ H Hlt) as (Hal & N1 & N2 & _ & _ & Hroom).
  destruct (replace_bytes _ _ _ _ _ _ nb H Hlt Hoff Hnb Hfree) as (p1 & p2 & p3 & p4 & p5 & M1 & M2 & M3 & M4 & M5 & Hlo).
  exists p1, p2, p3, p4, p5, (l1 ++ (i, nb) :: l2). do 5 (split; [done|]). fold n m fsp off in Hal, Hoff, Hroom, Hlo. split; [|lia].
  assert (Hal' : area_len (l1 ++ (i, nb) :: l2) = area_len l1 + m + area_len l2) by (rewrite area_len_app, area_len_cons; unfold m; lia).
  unfold free_size in Hfree. rewrite (used_area _ _ _ H) in Hfree.
  assert (Hn : 0 < n /\ 0 < m) by (unfold n, m; destruct b0, nb; simpl; try done; lia).
  pose proof (fun j => set_slot_lookup i (Live nb) p j Hlt) as Hlk. cbn [set_slot s_slots] in Hlk.
  unfold set_slot. eapply (laid_out_repr page p _ p5 (<[i:=Live nb]> (s_slots p)) (l1 ++ (i, nb) :: l2)); [done|..].
  - rewrite length_insert. replace (PAGE_SIZE - area_len (l1 ++ (i, nb) :: l2)) with (fsp + (n - m)) by lia. exact Hlo.
  - rewrite length_insert. lia.
  - pose proof (t_nodup _ _ _ H) as Hnd. by rewrite fmap_app, fmap_cons in Hnd |- *.
  - apply (lay_replace p l1 l2 i b0 _ [(i, nb)] (Live nb) (t_lay _ _ _ H) H1i H2i Hlk). by right.
  - intros j x. rewrite Hlk. case_decide; [intros [= <-]; by right|apply (t_bytes _ _ _ H)].
  - intros j x. rewrite Hlk. cbn beta zeta. case_decide as Hji.
    + intros [= <-]. subst j. split; [done|]. rewrite !(proj2 (Z.ltb_lt _ _)) by lia. cbn [andb]. rewrite off_of_mid by done. fold off. lia.
    + intros Hx. destruct (repr_entry _ _ _ _ _ H Hx) as [Hxs Hxo]. split; [done|]. rewrite Hxs, (slot_size_pos _ _ _ _ _ H Hx).
      destruct (decide (x = Free)) as [->|Hxf]; [by rewrite Hxo|].
      transitivity (PAGE_SIZE - area_len (l1 ++ (i, nb) :: l2) + off_of (l1 ++ (i, nb) :: l2) j); [|by destruct x].
      destruct (off_of_removed l1 l2 j i nb Hji) as [Ho1 Ho2]. fold m in Ho2.
      destruct (other_offset _ _ _ _ _ _ _ _ H Hji Hx Hxf) as [(Hjl & Hjo & Hlo')|(Hjl & Hjo & Hlo')].
      * rewrite (proj2 (Z.ltb_lt _ _)) by lia. rewrite andb_true_r. destruct (Ho1 Hjl) as [_ ->].
        destruct x as [|bs|bs]; cbn [is_live]; [done|lia|]. pose proof (Hmark j bs Hx). lia.
      * rewrite (proj2 (Z.ltb_ge _ _)), andb_false_r by lia. destruct (Ho2 Hjl) as [_ ->]. lia.
Qed.

(** ** The calls, one by one *)

Section Refinement.
Context {L : Type} `{LockEnv L} (logging : bool).

(** The page call does what the slot call does, faults included. *)
Definition simulates (c : call) : Prop :=
  forall page p (l : L), repr page p -> call_ok c p ->
  match exec_spec logging c p l with
  | Ok (a, p', l') => exists page', exec logging c page l = Ok (a, page', l') /\ repr page' p'
  | Fail e => exec logging c page l = Fail e
  end.

Lemma slot_z rid : 0 <= slot_num_ rid -> slot_num_ rid = Z.of_nat (slot_of rid).
Proof. intros. unfold slot_of. lia. Qed.

Lemma slot_test rid (p : SPage) :
  0 <= slot_num_ rid ->
  (Z.of_nat (length (s_slots p)) <=? slot_num_ rid) =
  bool_decide (s_slots p !! slot_of rid = None).
Proof.
  intros Hr. rewrite (slot_z _ Hr). destruct (s_slots p !! slot_of rid) as [s|] eqn:E.
  - rewrite bool_decide_eq_false_2 by done. apply Z.leb_gt. apply lookup_lt_Some in E. lia.
  - rewrite bool_decide_eq_true_2 by done. apply Z.leb_le. apply lookup_ge_None in E. lia.
Qed.

Lemma slot_test_lt rid (p : SPage) :
  0 <= slot_num_ rid ->
  (slot_num_ rid <? Z.of_nat (length (s_slots p))) =
  negb (bool_decide (s_slots p !! slot_of rid = None)).
Proof. intros Hr. rewrite Z.ltb_antisym. f_equal. by apply slot_test. Qed.

Lemma set_slot_id i s p : s_slots p !! i = Some s -> set_slot i s p = p.
Proof. intros Hs. unfold set_slot. rewrite list_insert_id by done. by destruct p. Qed.

Lemma get_simulates rid : simulates (CGet rid).
Proof.
  intros page p l [lay Hr] Hrid. cbn [exec exec_spec]. unfold GetTuple.
  rewrite (read_count _ _ _ Hr), bind_ok, slot_test by done.
  destruct (s_slots p !! slot_of rid) as [s|] eqn:Hs.
  2:{ rewrite bool_decide_eq_true_2, bind_ok by done. exists page. split; [done|by exists lay]. }
  rewrite bool_decide_eq_false_2 by done. rewrite (slot_z _ Hrid).
  rewrite (read_size _ _ _ _ _ Hr Hs), bind_ok. pose proof (slot_size_pos _ _ _ _ _ Hr Hs) as Hp.
  rewrite Z.leb_antisym, Hp.
  destruct s as [|bs|bs]; cbn [is_live negb]; try (exists page; split; [done|by exists lay]).
  destruct (acquire_shared logging rid l) as [[b l']|e]; [|done]. rewrite !bind_ok. cbn [fst snd].
  destruct b; cbn [negb]; [|exists page; split; [done|by exists lay]].
  rewrite (read_offset _ _ _ _ Hr) by (by apply lookup_lt_Some in Hs). rewrite bind_ok.
  destruct (lay_split _ _ _ _ _ Hr Hs ltac:(done)) as (l1 & l2 & Hl & _ & _ & Hoff & _).
  pose proof (t_room _ _ _ Hr). pose proof (t_len _ _ _ Hr). pose proof page_size_eq.
  pose proof (area_len_nonneg l1). pose proof (area_len_nonneg l2).
  assert (area_len lay = area_len l1 + Z.of_nat (length bs) + area_len l2)
    by (rewrite Hl, area_len_app, area_len_cons; simpl; lia).
  cbn [slot_size]. rewrite memread_ok by (rewrite ?Hoff; lia). rewrite !bind_ok.
  exists page. split; [|by exists lay]. cbn [fst snd]. rewrite Hoff.
  pose proof (tuple_bytes _ _ _ _ _ _ _ Hr Hl) as Hbs. cbn [slot_bytes] in Hbs. by rewrite Hbs.
Qed.

Lemma mark_simulates rid : simulates (CMark rid).
Proof.
  intros page p l [lay Hr] Hrid. cbn [exec exec_spec]. unfold MarkDelete.
  rewrite (read_count _ _ _ Hr), bind_ok, slot_test by done.
  destruct (s_slots p !! slot_of rid) as [s|] eqn:Hs.
  2:{ rewrite bool_decide_eq_true_2, bind_ok by done. exists page. split; [done|by exists lay]. }
  rewrite bool_decide_eq_false_2 by done. rewrite (slot_z _ Hrid).
  rewrite (read_size _ _ _ _ _ Hr Hs), bind_ok.
  destruct s as [|bs|bs]; cbn [slot_size].
  - simpl (0 <? 0). destruct (acquire_exclusive logging rid l) as [[b l']|e]; [|done].
    rewrite !bind_ok. cbn [fst snd]. exists page.
    destruct b; cbn [negb mark]; rewrite ?bind_ok; (split; [done|]);
      [rewrite (set_slot_id _ _ _ Hs)|]; by exists lay.
  - rewrite (proj2 (Z.ltb_ge _ 0)) by lia.
    destruct (acquire_exclusive logging rid l) as [[b l']|e]; [|done].
    rewrite !bind_ok. cbn [fst snd].
    destruct b; cbn [negb mark]; [|rewrite bind_ok; exists page; split; [done|by exists lay]].
    pose proof (slot_size_pos _ _ _ _ _ Hr Hs) as Hp. cbn [slot_size is_live] in Hp. rewrite Hp.
    destruct (resign_tuple page p lay _ (Live bs) (Marked bs) Hr Hs) as (p1 & H1 & Hr1); try done.
    cbn [slot_size] in H1. rewrite H1, !bind_ok. exists p1. split; [done|by exists lay].
  - destruct (t_bytes _ _ _ Hr _ _ Hs) as [?|Hb]; [done|]. cbn [slot_bytes] in Hb.
    rewrite (proj2 (Z.ltb_lt _ 0)) by (destruct bs; [done|simpl; lia]).
    rewrite bind_ok. exists page. split; [done|by exists lay].
Qed.

Lemma rollback_simulates rid : simulates (CRollback rid).
Proof.
  intros page p l [lay Hr] Hrid. cbn [exec exec_spec]. unfold RollbackDelete.
  destruct (negb logging || lk_in_exclusive rid l); [|done]. rewrite !assert_true.
  rewrite (read_count _ _ _ Hr), bind_ok, slot_test_lt by done.
  destruct (s_slots p !! slot_of rid) as [s|] eqn:Hs; [|by rewrite bool_decide_eq_true_2].
  rewrite bool_decide_eq_false_2 by done. rewrite assert_true, (slot_z _ Hrid).
  rewrite (read_size _ _ _ _ _ Hr Hs), bind_ok.
  destruct s as [|bs|bs]; cbn [slot_size unmark].
  - simpl. exists page. split; [done|]. rewrite set_slot_id by done. by exists lay.
  - rewrite (proj2 (Z.ltb_ge _ 0)) by lia. rewrite bind_ok. exists page. split; [done|].
    rewrite set_slot_id by done. by exists lay.
  - destruct (t_bytes _ _ _ Hr _ _ Hs) as [?|Hb]; [done|]. cbn [slot_bytes] in Hb.
    rewrite (proj2 (Z.ltb_lt _ 0)) by (destruct bs; [done|simpl; lia]).
    destruct (resign_tuple page p lay _ (Marked bs) (Live bs) Hr Hs) as (p1 & H1 & Hr1); try done.
    rewrite Z.opp_involutive. cbn [slot_size] in H1. rewrite H1, bind_ok.
    exists p1. split; [done|by exists lay].
Qed.

Lemma apply_simulates rid : simulates (CApply rid).
Proof.
  intros page p l [lay Hr] Hrid. cbn [exec exec_spec]. unfold ApplyDelete.
  rewrite (read_count _ _ _ Hr), bind_ok, slot_test_lt by done.
  pose proof (t_room _ _ _ Hr) as Hroom. pose proof (t_len _ _ _ Hr) as Hlen.
  pose proof page_size_eq. pose proof (area_len_nonneg lay).
  destruct (s_slots p !! slot_of rid) as [s|] eqn:Hs; [|by rewrite bool_decide_eq_true_2].
  rewrite bool_decide_eq_false_2 by done. rewrite assert_true, (slot_z _ Hrid).
  rewrite (read_offset _ _ _ _ Hr) by (by apply lookup_lt_Some in Hs).
  rewrite bind_ok, (read_size _ _ _ _ _ Hr Hs), bind_ok.
  assert (Habs : (if slot_size s <? 0 then - slot_size s else slot_size s) =
                 Z.of_nat (length (slot_bytes s))).
  { destruct s as [|bs|bs]; cbn [slot_size slot_bytes]; [done| |];
      destruct (_ <? 0) eqn:E; zify_bool; simpl; lia. }
  rewrite Habs. destruct (decide (s = Free)) as [->|Hf].
  - rewrite (t_free _ _ _ Hr _ Hs). rewrite memread_ok by (simpl; lia). rewrite bind_ok.
    destruct (negb logging || lk_in_exclusive rid l); [|done]. rewrite assert_true.
    rewrite (read_fsp _ _ _ Hr), bind_ok.
    rewrite (proj2 (Z.leb_gt _ _)); [done|]. destruct (s_slots p); [done|simpl in *; lia].
  - destruct (lay_split _ _ _ _ _ Hr Hs Hf) as (l1 & l2 & Hl & _ & _ & Hoff & _).
    pose proof (area_len_nonneg l1). pose proof (area_len_nonneg l2).
    assert (area_len lay = area_len l1 + Z.of_nat (length (slot_bytes s)) + area_len l2)
      by (rewrite Hl, area_len_app, area_len_cons; lia).
    rewrite memread_ok by (rewrite ?Hoff; lia). rewrite bind_ok.
    replace (match s with Free => Fail AssertFail | _ => _ end)
      with (let* _ := assert_ (negb logging || lk_in_exclusive rid l) in
            Ok (ADone, set_slot (slot_of rid) Free p, l)) by (by destruct s).
    destruct (negb logging || lk_in_exclusive rid l); [|done]. rewrite !assert_true.
    destruct (remove_tuple _ _ _ _ _ Hr Hs Hf) as (p1 & p2 & p3 & p4 & p5 & lay' & M1 & M2 & M3 & M4 & M5 & Hr' & Hle).
    rewrite (read_fsp _ _ _ Hr), bind_ok, (proj2 (Z.leb_le _ _) Hle), assert_true.
    rewrite M1, bind_ok, M2, bind_ok, M3, bind_ok, M4, bind_ok, Nat2Z.id, M5, bind_ok.
    exists p5. split; [done|by exists lay'].
Qed.

Lemma first_free_le slots : (first_free slots <= length slots)%nat.
Proof.
  unfold first_free. destruct (list_find _ slots) as [[i s]|] eqn:E; [|done].
  apply list_find_Some in E as (Hi & _). apply lookup_lt_Some in Hi. lia.
Qed.

Lemma first_free_slot slots s : slots !! first_free slots = Some s -> s = Free.
Proof.
  unfold first_free. destruct (list_find _ slots) as [[i x]|] eqn:E.
  - apply list_find_Some in E as (Hi & Hx & _). rewrite Hi. by intros [= <-].
  - intros Hs. apply lookup_lt_Some in Hs. lia.
Qed.

Lemma insert_simulates bs : simulates (CInsert bs).
Proof.
  intros page p l [lay Hr] _. cbn [exec exec_spec]. unfold InsertTuple, insert_spec, size_.
  cbn [data_]. destruct (0 <? Z.of_nat (length bs)) eqn:Hb; [|done]. rewrite !assert_true.
  rewrite (read_free _ _ _ Hr), bind_ok.
  destruct (free_size (s_slots p) <? Z.of_nat (length bs)) eqn:Hfree.
  { exists page. split; [done|by exists lay]. }
  rewrite (read_count _ _ _ Hr), bind_ok, (read_page_id _ _ _ Hr), bind_ok, Nat2Z.id.
  pose proof (free_slot_spec page p lay 0 Hr) as Hff. rewrite Nat.sub_0_r, drop_0 in Hff.
  change (Z.of_nat 0) with 0 in Hff. rewrite Hff, bind_ok by lia. clear Hff. cbn [Nat.add].
  set (i := first_free (s_slots p)). set (rid := mkRID _ _).
  pose proof (first_free_le (s_slots p)) as Hle. fold i in Hle.
  assert (Heq : (Z.of_nat i =? Z.of_nat (length (s_slots p))) = (i =? length (s_slots p))%nat).
  { destruct (Nat.eqb_spec i (length (s_slots p))); [apply Z.eqb_eq|apply Z.eqb_neq]; lia. }
  assert (Hlt : (Z.of_nat i <? Z.of_nat (length (s_slots p))) = negb (i =? length (s_slots p))%nat).
  { destruct (Nat.eqb_spec i (length (s_slots p))); [apply Z.ltb_ge|apply Z.ltb_lt]; lia. }
  rewrite Hlt, Heq.
  destruct (negb (logging && _) || _); [|done]. rewrite !assert_true.
  destruct (_ && _) eqn:Hroom; [exists page; split; [done|by exists lay]|].
  zify_bool. destruct (place_tuple page p lay i bs Hr) as
    (p1 & p2 & p3 & p4 & p5 & M1 & M2 & M3 & M4 & M5 & M6 & Hr'); try done.
  { by intros ->. }
  { intros s Hs. by apply (first_free_slot _ _ Hs). }
  { destruct (i =? length (s_slots p))%nat; [cbn [andb] in Hroom; zify_bool|]; lia. }
  rewrite (read_fsp _ _ _ Hr), bind_ok, M1, bind_ok, M2, bind_ok, M3, bind_ok, M4, bind_ok,
    M5, bind_ok.
  rewrite Heq in M6. rewrite M6, bind_ok.
  assert (Hrid : of_int64 (Get rid) = rid).
  { apply unpack_pack; [|simpl; lia]. split; simpl.
    - rewrite <- (t_id _ _ _ Hr). apply i32_at_range.
    - pose proof (t_room _ _ _ Hr). pose proof page_size_eq. pose proof (area_len_nonneg lay).
      unfold in_sint. lia. }
  rewrite Hrid. destruct logging.
  - destruct (lk_lock_exclusive rid l) as [[b l']|e]; [|done]. rewrite !bind_ok. cbn [fst snd].
    destruct b; [|done]. rewrite !assert_true, !bind_ok. exists p5. split; [done|]. by eexists.
  - rewrite bind_ok. exists p5. split; [done|]. by eexists.
Qed.

Lemma update_simulates bs rid : simulates (CUpdate bs rid).
Proof.
  intros page p l [lay Hr] (Hrid & Hbs & Hmark). cbn [exec exec_spec].
  unfold UpdateTuple, update_spec, size_. cbn [data_].
  rewrite (read_count _ _ _ Hr), bind_ok, slot_test by done.
  destruct (s_slots p !! slot_of rid) as [s|] eqn:Hs.
  2:{ rewrite bool_decide_eq_true_2, bind_ok by done. exists page. split; [done|by exists lay]. }
  rewrite bool_decide_eq_false_2 by done. rewrite (slot_z _ Hrid).
  rewrite (read_size _ _ _ _ _ Hr Hs), bind_ok. pose proof (slot_size_pos _ _ _ _ _ Hr Hs) as Hp.
  rewrite Z.leb_antisym, Hp.
  destruct s as [|old|old]; cbn [is_live negb]; try (exists page; split; [done|by exists lay]).
  rewrite (read_free _ _ _ Hr), bind_ok. cbn [slot_size].
  destruct (free_size (s_slots p) <? _) eqn:Hfree; [exists page; split; [done|by exists lay]|].
  zify_bool. rewrite (read_offset _ _ _ _ Hr) by (by apply lookup_lt_Some in Hs).
  rewrite bind_ok.
  destruct (lay_split _ _ _ _ _ Hr Hs ltac:(done)) as (l1 & l2 & Hl & _ & _ & Hoff & _).
  pose proof (t_room _ _ _ Hr). pose proof (t_len _ _ _ Hr). pose proof page_size_eq.
  pose proof (area_len_nonneg l1). pose proof (area_len_nonneg l2).
  assert (area_len lay = area_len l1 + Z.of_nat (length old) + area_len l2)
    by (rewrite Hl, area_len_app, area_len_cons; simpl; lia).
  rewrite memread_ok by (rewrite ?Hoff; lia). rewrite bind_ok.
  assert (Hold : slice (offset_at page (slot_of rid)) (Z.of_nat (length old)) page = old)
    by (rewrite Hoff; apply (tuple_bytes _ _ _ _ _ _ _ Hr Hl)).
  rewrite Hold.
  destruct (acquire_exclusive logging rid l) as [[b l']|e]; [|done]. rewrite !bind_ok.
  cbn [fst snd]. destruct b; cbn [negb]; [|exists page; split; [done|by exists lay]].
  destruct (replace_tuple page p lay (slot_of rid) old bs Hr Hs Hbs) as
    (p1 & p2 & p3 & p4 & p5 & lay' & M1 & M2 & M3 & M4 & M5 & Hr' & Hle); [lia| |].
  { intros j b Hj. destruct Hmark as [->|Hall]; [done|].
    rewrite Forall_forall in Hall.
    by specialize (Hall (Marked b) (list_elem_of_lookup_2 _ _ _ Hj)). }
  rewrite (read_fsp _ _ _ Hr), bind_ok, (proj2 (Z.leb_le _ _) Hle), assert_true.
  rewrite M1, bind_ok, M2, bind_ok, M3, bind_ok, M4, bind_ok, Nat2Z.id, M5, !bind_ok.
  exists p5. split; [done|by exists lay'].
Qed.

Lemma first_simulates : simulates CFirst.
Proof.
  intros page p l [lay Hr] _. cbn [exec exec_spec]. unfold GetFirstTupleRid.
  rewrite (read_count _ _ _ Hr), bind_ok, Nat2Z.id.
  pose proof (valid_slot_spec page p lay 0 Hr) as Hv. rewrite Nat.sub_0_r in Hv.
  change (Z.of_nat 0) with 0 in Hv. rewrite Hv, bind_ok. exists page.
  split; [|by exists lay]. destruct (first_live 0 (s_slots p)); [|done]. simpl.
  by rewrite (read_page_id _ _ _ Hr).
Qed.

Lemma next_simulates rid : simulates (CNext rid).
Proof.
  intros page p l [lay Hr] Hrid. cbn [exec exec_spec]. unfold GetNextTupleRid.
  rewrite (read_page_id _ _ _ Hr), bind_ok. destruct (page_id_ rid =? s_id p); [|done].
  rewrite !assert_true, (read_count _ _ _ Hr), bind_ok.
  rewrite (slot_z _ Hrid). replace (Z.of_nat (slot_of rid) + 1) with (Z.of_nat (S (slot_of rid))) by lia.
  replace (Z.to_nat _) with (length (s_slots p) - S (slot_of rid))%nat by lia.
  rewrite (valid_slot_spec _ _ _ _ Hr), bind_ok. exists page.
  split; [|by exists lay]. by destruct (first_live _ (s_slots p)).
Qed.

Lemma table_exec_refines c : simulates c.
Proof.
  destruct c; auto using insert_simulates, mark_simulates, update_simulates, apply_simulates,
    rollback_simulates, get_simulates, first_simulates, next_simulates.
Qed.

Lemma table_run_refines cs page p (l : L) :
  repr page p -> calls_ok logging cs p l ->
  match run_spec logging cs p l with
  | Ok (a, p', l') => exists page', run logging cs page l = Ok (a, page', l') /\ repr page' p'
  | Fail e => run logging cs page l = Fail e
  end.
Proof.
  revert page p l. induction cs as [|c cs IH]; intros page p l Hr Hok; [by exists page|].
  destruct Hok as [Hc Hcs]. cbn [run_spec run].
  pose proof (table_exec_refines c page p l Hr Hc) as He.
  destruct (exec_spec logging c p l) as [[[a p1] l1]|e]; [|by rewrite He].
  destruct He as (page1 & He & Hr1). rewrite He, !bind_ok. cbn [fst snd] in *.
  specialize (IH page1 p1 l1 Hr1 Hcs).
  destruct (run_spec logging cs p1 l1) as [[[q p2] l2]|e]; [|by rewrite IH].
  destruct IH as (page2 & Hrun & Hr2). rewrite Hrun, !bind_ok. by exists page2.
Qed.

Lemma init_repr page page_id prev :
  length page = Z.to_nat PAGE_SIZE -> int32 page_id -> int32 prev ->
  exists page', Init page_id PAGE_SIZE prev page = Ok page' /\
                repr page' (mkSPage page_id prev INVALID_PAGE_ID []).
Proof.
  intros Hlen Hid Hprev. pose proof page_size_eq as HP. unfold Init, SetPrevPageId,
    SetNextPageId, SetFreeSpacePointer, SetTupleCount.
  destruct (write_i32_spec page 0 page_id) as (p1 & -> & S1 & V1); [lia|lia|done|].
  pose proof (proj1 S1) as L1. rewrite bind_ok.
  destruct (write_i32_spec p1 8 prev) as (p2 & -> & S2 & V2); [lia|lia|done|].
  pose proof (proj1 S2) as L2. rewrite bind_ok.
  destruct (write_i32_spec p2 12 INVALID_PAGE_ID) as (p3 & -> & S3 & V3); [lia|lia|by_computation|].
  pose proof (proj1 S3) as L3. rewrite bind_ok.
  destruct (write_i32_spec p3 16 PAGE_SIZE) as (p4 & -> & S4 & V4); [lia|lia|by_computation|].
  pose proof (proj1 S4) as L4. rewrite bind_ok.
  destruct (write_i32_spec p4 20 0) as (p5 & -> & S5 & V5); [lia|lia|by_computation|].
  pose proof (proj1 S5) as L5. exists p5. split; [done|]. exists [].
  split; cbn [s_id s_prev s_next s_slots]; change (area_len []) with 0; try done.
  - congruence.
  - by frames.
  - by frames.
  - by frames.
  - by frames.
  - constructor.
  - intros i bs. split; [by intros ?%not_elem_of_nil|]. by intros (_ & s & Hs & _).
Qed.
End Refinement.

(** ** Properties *)


(** ** Witnesses *)

(** A transaction that runs alone: the RIDs it holds exclusively and whether it is
    aborted. *)
#[export] Instance solo_locks : LockEnv (list RID * bool) := {
  lk_abort l := (l.1, true);
  lk_in_shared _ _ := false;
  lk_in_exclusive rid l := bool_decide (rid ∈ l.1);
  lk_lock_shared rid l := Ok (true, (rid :: l.1, l.2));
  lk_lock_exclusive rid l := Ok (true, (rid :: l.1, l.2));
  lk_lock_upgrade rid l := Ok (true, l);
  lk_unlock rid l :=
    if bool_decide (rid ∈ l.1) then Ok (filter (fun r => r <> rid) l.1, l.2) else Fail AssertFail;
  lk_aborted l := l.2
}.

Definition sample_calls : list call :=
  [CInsert [1; 2; 3]; CInsert [4; 5]; CInsert [6]; CMark (mkRID 9 1); CGet (mkRID 9 1);
   CApply (mkRID 9 1); CUpdate [7; 7; 7; 7; 7] (mkRID 9 0); CGet (mkRID 9 2);
   CNext (mkRID 9 0); CGet (mkRID 9 0); CGet (mkRID 9 1)].

Lemma table_sample_calls_ok :
  calls_ok true sample_calls (mkSPage 9 (-1) INVALID_PAGE_ID []) ([] : list RID, false).
Proof.
  by_computation.
Qed.

Definition sample_answers : list answer :=
  [ARid (Some (mkRID 9 0)); ARid (Some (mkRID 9 1)); ARid (Some (mkRID 9 2)); ABool true;
   ATuple None; ADone; AUpdate true (Some (mkTuple (mkRID 9 0) [1; 2; 3]));
   ATuple (Some (mkTuple (mkRID 9 2) [6]));
   ARid (Some (mkRID 9 2)); ATuple (Some (mkTuple (mkRID 9 0) [7; 7; 7; 7; 7]));
   ATuple None].

Lemma sample_page_run_spec :
  run_spec true sample_calls (mkSPage 9 (-1) INVALID_PAGE_ID []) ([] : list RID, false) =
  Ok (sample_answers,
      mkSPage 9 (-1) INVALID_PAGE_ID [Live [7; 7; 7; 7; 7]; Free; Live [6]],
      ([mkRID 9 2; mkRID 9 1; mkRID 9 0], true)).
Proof. vm_compute. reflexivity. Qed.


(** ** The update of a page with a marked tuple

    Tuple 1 lies below tuple 0 and is marked; shortening tuple 0 moves its bytes but
    not its offset, so that rolling its deletion back gives other bytes. *)
Definition marked_calls : list call :=
  [CInsert [1; 2; 3]; CInsert [4; 5]; CMark (mkRID 9 1); CUpdate [6; 6] (mkRID 9 0);
   CRollback (mkRID 9 1); CGet (mkRID 9 1)].

(** [UpdateTuple] moves the bytes of a tuple marked as deleted but not its offset:
    after an insertion of two tuples, a deletion mark on the second, an update that
    shortens the first and the rollback of the deletion, the second tuple reads as
    bytes nobody wrote to it. *)
Theorem table_update_corrupts_marked {L : Type} `{LockEnv L} (l : L) :
  (let* page := Init 9 PAGE_SIZE (-1) (replicate 512 0) in
   let* r := run false marked_calls page l in Ok (last r.1.1)) =
  Ok (Some (ATuple (Some (mkTuple (mkRID 9 1) [4; 4])))).
Proof. vm_compute. reflexivity. Qed.
End TablePage.
