(* ===== verification/BPlusTreePage.v ===== *)
(** * What the pages of the B+ tree share (src/src/page/b_plus_tree_page.cpp)

    The header of a tree page, the array of key/value cells after it, and sorted
    lists of entries, the specification of the pages. *)

From stdpp Require Import prelude list sorting.
From Stdlib Require Import ZArith Lia.
From S2P Require Import Prelude.

Local Open Scope Z_scope.

Module BPage.
Inductive IndexPageType := INVALID_INDEX_PAGE | LEAF_PAGE | INTERNAL_PAGE | TRIVIAL_PAGE.

#[export] Instance IndexPageType_eq_dec : EqDecision IndexPageType.
Proof. solve_decision. Defined.

Record BPlusTreePage := mkHdr {
  page_type_ : IndexPageType;
  lsn_ : Z;
  size_ : Z;
  max_size_ : Z;
  parent_page_id_ : Z;
  page_id_ : Z
}.

Definition IsLeafPage (h : BPlusTreePage) : bool := bool_decide (page_type_ h = LEAF_PAGE).
Definition IsTrivialPage (h : BPlusTreePage) : bool := bool_decide (page_type_ h = TRIVIAL_PAGE).
Definition IsRootPage (h : BPlusTreePage) : bool := parent_page_id_ h =? INVALID_PAGE_ID.
Definition SetPageType (t : IndexPageType) (h : BPlusTreePage) : BPlusTreePage :=
  mkHdr t (lsn_ h) (size_ h) (max_size_ h) (parent_page_id_ h) (page_id_ h).
Definition SetSize (n : Z) (h : BPlusTreePage) : BPlusTreePage :=
  mkHdr (page_type_ h) (lsn_ h) n (max_size_ h) (parent_page_id_ h) (page_id_ h).
Definition IncreaseSize (amount : Z) (h : BPlusTreePage) : BPlusTreePage :=
  SetSize (wrap32 (size_ h + amount)) h.
Definition SetMaxSize (n : Z) (h : BPlusTreePage) : BPlusTreePage :=
  mkHdr (page_type_ h) (lsn_ h) (size_ h) n (parent_page_id_ h) (page_id_ h).
Definition GetMinSize (h : BPlusTreePage) : Z := Z.quot (max_size_ h) 2.
Definition SetParentPageId (p : Z) (h : BPlusTreePage) : BPlusTreePage :=
  mkHdr (page_type_ h) (lsn_ h) (size_ h) (max_size_ h) p (page_id_ h).
Definition SetPageId (p : Z) (h : BPlusTreePage) : BPlusTreePage :=
  mkHdr (page_type_ h) (lsn_ h) (size_ h) (max_size_ h) (parent_page_id_ h) p.
Definition SetLSN (lsn : Z) (h : BPlusTreePage) : BPlusTreePage :=
  mkHdr (page_type_ h) lsn (size_ h) (max_size_ h) (parent_page_id_ h) (page_id_ h).

(** ** The array of cells *)

Definition cell {A} (array : list A) (i : Z) : result A :=
  if 0 <=? i then from_option_r MemFault (array !! Z.to_nat i) else Fail MemFault.

Definition set_cell {A} (array : list A) (i : Z) (x : A) : result (list A) :=
  let* _ := cell array i in Ok (<[Z.to_nat i := x]> array).

(** A loop over the cells from [i], [n] of them, that stops at the first that
    satisfies [P]. *)
Fixpoint scan {A} (P : A -> bool) (array : list A) (i : Z) (n : nat) : result (option Z) :=
  match n with
  | O => Ok None
  | S n' =>
      let* x := cell array i in
      if P x then Ok (Some i) else scan P array (i + 1) n'
  end.

(** ** Sorted entries *)

(** What the pages rely on of the key comparator: a total preorder. *)
Class KeyOrder {K : Type} (cmp : K -> K -> Z) := {
  ko_antisym a b : cmp a b < 0 <-> 0 < cmp b a;
  ko_trans a b c : cmp a b <= 0 -> cmp b c <= 0 -> cmp a c <= 0
}.

Definition first_index {A} (P : A -> bool) (l : list A) : option nat :=
  fst <$> list_find (fun x => P x = true) l.

Section Entries.
Context {K V : Type} (cmp : K -> K -> Z).

Definition sorted (l : list (K * V)) : Prop := StronglySorted (fun a b => cmp a.1 b.1 < 0) l.

Fixpoint find_entry (k : K) (l : list (K * V)) : option V :=
  match l with
  | [] => None
  | (k', v) :: l' => if cmp k k' =? 0 then Some v else find_entry k l'
  end.

Fixpoint insert_entry (k : K) (v : V) (l : list (K * V)) : list (K * V) :=
  match l with
  | [] => [(k, v)]
  | (k', v') :: l' =>
      if 0 <=? cmp k' k then if cmp k' k =? 0 then l else (k, v) :: l
      else (k', v') :: insert_entry k v l'
  end.

Fixpoint remove_entry (k : K) (l : list (K * V)) : list (K * V) :=
  match l with
  | [] => []
  | (k', v') :: l' => if cmp k k' =? 0 then l' else (k', v') :: remove_entry k l'
  end.
End Entries.

(** ** Lemmas *)

Lemma cell_ok {A} (array : list A) (i : nat) x :
  array !! i = Some x -> cell array (Z.of_nat i) = Ok x.
Proof.
  intros H. unfold cell. rewrite (proj2 (Z.leb_le _ _)) by lia. by rewrite Nat2Z.id, H.
Qed.

Lemma scan_spec {A} (P : A -> bool) (array : list A) i n :
  (i + n <= length array)%nat ->
  scan P array (Z.of_nat i) n =
  Ok ((fun j => Z.of_nat (i + j)) <$> first_index P (take n (drop i array))).
Proof.
  revert i. induction n as [|n IH]; intros i Hlen; [by rewrite take_0|].
  destruct (lookup_lt_is_Some_2 array i) as [x Hx]; [lia|].
  cbn [scan]. rewrite (cell_ok _ _ _ Hx), bind_ok, (drop_S _ x i Hx). unfold first_index. simpl.
  destruct (P x) eqn:HP; simpl; [do 3 f_equal; lia|].
  replace (Z.of_nat i + 1) with (Z.of_nat (S i)) by lia. rewrite IH by lia.
  unfold first_index. destruct (list_find _ _) as [[j y]|]; simpl; [do 3 f_equal; lia|done].
Qed.

Lemma first_index_Some {A} (P : A -> bool) (l : list A) i :
  first_index P l = Some i <->
  exists x, l !! i = Some x /\ P x = true /\
            forall j y, l !! j = Some y -> (j < i)%nat -> P y = false.
Proof.
  unfold first_index. split.
  - intros ([j x] & Hf & ->)%fmap_Some. apply list_find_Some in Hf as (Hi & HP & Hn).
    exists x. split; [done|]. split; [done|]. intros j' y Hj Hlt. simpl in Hlt.
    specialize (Hn j' y Hj Hlt). by destruct (P y).
  - intros (x & Hi & HP & Hn). apply fmap_Some. exists (i, x). split; [|done].
    apply list_find_Some. split; [done|]. split; [done|]. intros j y Hj Hlt.
    by rewrite (Hn j y Hj Hlt).
Qed.

Lemma first_index_None {A} (P : A -> bool) (l : list A) :
  first_index P l = None <-> forall x, x ∈ l -> P x = false.
Proof.
  unfold first_index. rewrite fmap_None, list_find_None, Forall_forall.
  split; intros H x Hx; specialize (H x Hx); by destruct (P x).
Qed.

Lemma set_cell_ok {A} (a : list A) i x :
  0 <= i < Z.of_nat (length a) -> set_cell a i x = Ok (<[Z.to_nat i := x]> a).
Proof.
  intros Hi. unfold set_cell. destruct (lookup_lt_is_Some_2 a (Z.to_nat i)) as [y Hy]; [lia|].
  replace i with (Z.of_nat (Z.to_nat i)) at 1 by lia. by rewrite (cell_ok _ _ _ Hy).
Qed.

Lemma take_S_insert {A} (a : list A) n x : (n < length a)%nat -> take (S n) (<[n := x]> a) = take n a ++ [x].
Proof.
  intros Hn. rewrite (take_S_r _ _ x) by (by apply list_lookup_insert_eq).
  by rewrite take_insert_ge by lia.
Qed.

(** Making room at [i] for a cell, and closing the gap. *)
Lemma shift_right {A} (a : list A) (n i : nat) x :
  (i <= n)%nat -> (n < length a)%nat ->
  exists b, memmove a (Z.of_nat i + 1) (Z.of_nat i) (Z.of_nat n - Z.of_nat i) = Ok b /\
    length b = length a /\ take (S n) (<[i := x]> b) = take i a ++ x :: drop i (take n a).
Proof.
  intros Hi Hn.
  destruct (memmove_spec a (Z.of_nat i + 1) (Z.of_nat i) (Z.of_nat n - Z.of_nat i))
    as (b & Hb & [Hl Ho] & Hin); [lia..|].
  exists b. split; [done|]. split; [done|].
  assert (H1 : take i b = take i a).
  { specialize (Ho 0 (Z.of_nat i)). unfold slice in Ho. rewrite Nat2Z.id in Ho.
    change (Z.to_nat 0) with 0%nat in Ho. rewrite !drop_0 in Ho. apply Ho; lia. }
  assert (H2 : take (n - i) (drop (S i) b) = drop i (take n a)).
  { specialize (Hin (Z.of_nat i + 1) (Z.of_nat n - Z.of_nat i)). unfold slice in Hin.
    replace (Z.to_nat (Z.of_nat i + 1)) with (S i) in Hin by lia.
    replace (Z.to_nat (Z.of_nat i + (Z.of_nat i + 1 - (Z.of_nat i + 1)))) with i in Hin by lia.
    replace (Z.to_nat (Z.of_nat n - Z.of_nat i)) with (n - i)%nat in Hin by lia.
    rewrite Hin by lia. by rewrite skipn_firstn_comm. }
  rewrite <- H1, <- H2. apply list_eq. intros j. rewrite lookup_take.
  case_decide as Hj.
  - destruct (decide (j < i)%nat).
    + rewrite list_lookup_insert_ne by lia. rewrite lookup_app_l by (rewrite length_take; lia).
      by rewrite lookup_take_lt.
    + rewrite lookup_app_r by (rewrite length_take; lia). rewrite length_take, Nat.min_l by lia.
      destruct (decide (j = i)) as [->|Hne].
      * rewrite list_lookup_insert_eq by lia. by rewrite Nat.sub_diag.
      * rewrite list_lookup_insert_ne by done. replace (j - i)%nat with (S (j - S i)) by lia.
        simpl. rewrite lookup_take_lt, lookup_drop by lia. f_equal. lia.
  - symmetry. apply lookup_ge_None. rewrite length_app, length_cons, !length_take, length_drop. lia.
Qed.

Lemma shift_left {A} (a : list A) (n i : nat) :
  (i < n)%nat -> (n <= length a)%nat ->
  exists b, memmove a (Z.of_nat i) (Z.of_nat i + 1) (Z.of_nat n - Z.of_nat i - 1) = Ok b /\
    length b = length a /\ take (n - 1) b = delete i (take n a).
Proof.
  intros Hi Hn.
  destruct (memmove_spec a (Z.of_nat i) (Z.of_nat i + 1) (Z.of_nat n - Z.of_nat i - 1))
    as (b & Hb & [Hl Ho] & Hin); [lia..|].
  exists b. split; [done|]. split; [done|].
  assert (H1 : take i b = take i a).
  { specialize (Ho 0 (Z.of_nat i)). unfold slice in Ho. rewrite Nat2Z.id in Ho.
    change (Z.to_nat 0) with 0%nat in Ho. rewrite !drop_0 in Ho. apply Ho; lia. }
  assert (H2 : take (n - i - 1) (drop i b) = take (n - i - 1) (drop (S i) a)).
  { specialize (Hin (Z.of_nat i) (Z.of_nat n - Z.of_nat i - 1)). unfold slice in Hin.
    rewrite Nat2Z.id in Hin.
    replace (Z.to_nat (Z.of_nat i + 1 + (Z.of_nat i - Z.of_nat i))) with (S i) in Hin by lia.
    replace (Z.to_nat (Z.of_nat n - Z.of_nat i - 1)) with (n - i - 1)%nat in Hin by lia.
    apply Hin; lia. }
  rewrite delete_take_drop, take_take, Nat.min_l by lia.
  rewrite <- H1, <- (take_drop i (take (n - 1) b)). rewrite take_take, Nat.min_l by lia. f_equal.
  rewrite !skipn_firstn_comm. replace (n - 1 - i)%nat with (n - i - 1)%nat by lia.
  rewrite H2. f_equal. lia.
Qed.

Section EntryLemmas.
Context {K V : Type} (cmp : K -> K -> Z) `{!KeyOrder cmp}.
Implicit Types (l : list (K * V)).

Lemma cmp_refl a : cmp a a = 0.
Proof. pose proof (ko_antisym a a). lia. Qed.

Lemma cmp_eq_sym a b : cmp a b = 0 <-> cmp b a = 0.
Proof. pose proof (ko_antisym a b). pose proof (ko_antisym b a). lia. Qed.

Lemma cmp_lt_le_trans a b c : cmp a b < 0 -> cmp b c <= 0 -> cmp a c < 0.
Proof.
  intros H1 H2. destruct (Z.lt_ge_cases (cmp a c) 0) as [|H3]; [done|].
  pose proof (ko_antisym a b). pose proof (ko_antisym c a). pose proof (ko_antisym a c).
  assert (cmp c a <= 0) by lia. pose proof (ko_trans b c a). lia.
Qed.

Lemma cmp_le_lt_trans a b c : cmp a b <= 0 -> cmp b c < 0 -> cmp a c < 0.
Proof.
  intros H1 H2. destruct (Z.lt_ge_cases (cmp a c) 0) as [|H3]; [done|].
  pose proof (ko_antisym b c). pose proof (ko_antisym c a). pose proof (ko_antisym a c).
  assert (cmp c a <= 0) by lia. pose proof (ko_trans c a b). lia.
Qed.

(** Keys that compare equal compare alike. *)
Lemma cmp_eq_l a b c : cmp a b = 0 -> (cmp a c < 0 <-> cmp b c < 0).
Proof.
  intros E. pose proof (proj1 (cmp_eq_sym a b) E). split; intros Hc.
  - apply (cmp_le_lt_trans b a c); [lia|done].
  - apply (cmp_le_lt_trans a b c); [lia|done].
Qed.

Lemma cmp_eq_trans a b c : cmp a b = 0 -> cmp b c = 0 -> cmp a c = 0.
Proof.
  intros E1 E2. pose proof (proj1 (cmp_eq_sym a b) E1). pose proof (proj1 (cmp_eq_sym b c) E2).
  pose proof (ko_trans a b c). pose proof (ko_trans c b a). pose proof (ko_antisym a c).
  pose proof (ko_antisym c a). lia.
Qed.

Lemma sorted_cons_inv e l : sorted cmp (e :: l) ->
  sorted cmp l /\ forall x, x ∈ l -> cmp e.1 x.1 < 0.
Proof.
  intros H. apply StronglySorted_inv in H as [Hs Hf]. split; [done|].
  by apply Forall_forall.
Qed.

Lemma sorted_cons e l : sorted cmp l -> (forall x, x ∈ l -> cmp e.1 x.1 < 0) -> sorted cmp (e :: l).
Proof. intros Hs Hf. constructor; [done|]. by apply Forall_forall. Qed.

Lemma sorted_app l1 l2 :
  sorted cmp (l1 ++ l2) <->
  sorted cmp l1 /\ sorted cmp l2 /\ forall a b, a ∈ l1 -> b ∈ l2 -> cmp a.1 b.1 < 0.
Proof.
  induction l1 as [|e l1 IH]; simpl.
  - split; [intros H; split; [constructor|]; split; [done|]; by intros a b ?%not_elem_of_nil|tauto].
  - split.
    + intros [Hs Hlt]%sorted_cons_inv. apply IH in Hs as (H1 & H2 & H3). split; [|split; [done|]].
      * apply sorted_cons; [done|]. intros x Hx. apply Hlt, elem_of_app. by left.
      * intros a b [->|Ha]%elem_of_cons Hb; [apply Hlt, elem_of_app; by right|by apply H3].
    + intros ([H1 Hlt]%sorted_cons_inv & H2 & H3). apply sorted_cons.
      * apply IH. split; [done|]. split; [done|]. intros a b Ha Hb. apply H3; [by right|done].
      * intros x [Hx|Hx]%elem_of_app; [by apply Hlt|apply H3; [left|done]].
Qed.

Lemma find_entry_greater k l : (forall x, x ∈ l -> cmp k x.1 < 0) -> find_entry cmp k l = None.
Proof.
  induction l as [|[k' v] l IH]; intros Hl; [done|]. simpl.
  rewrite (proj2 (Z.eqb_neq _ 0)) by (specialize (Hl (k', v) (list_elem_of_here _ _)); simpl in Hl; lia).
  apply IH. intros x Hx. apply Hl. by right.
Qed.

Lemma elem_of_insert_entry k v l x : x ∈ insert_entry cmp k v l -> x = (k, v) \/ x ∈ l.
Proof.
  induction l as [|[k' v'] l IH]; simpl; [by intros ->%list_elem_of_singleton; left|].
  destruct (0 <=? _); [destruct (_ =? 0)|].
  - by right.
  - intros [->|H]%elem_of_cons; [by left|by right].
  - intros [->|H]%elem_of_cons; [right; left|]. destruct (IH H); [by left|right; by right].
Qed.

Lemma insert_entry_sorted k v l : sorted cmp l -> sorted cmp (insert_entry cmp k v l).
Proof.
  induction l as [|[k' v'] l IH]; intros Hs; simpl; [by repeat constructor|].
  destruct (sorted_cons_inv _ _ Hs) as [Hs' Hlt]. destruct (0 <=? cmp k' k) eqn:E; zify_bool.
  - destruct (cmp k' k =? 0) eqn:E0; zify_bool; [done|]. apply sorted_cons; [done|].
    assert (cmp k k' < 0) by (apply ko_antisym; lia).
    intros x [->|Hx]%elem_of_cons; [done|]. simpl.
    apply (cmp_lt_le_trans k k'); [done|]. specialize (Hlt x Hx). simpl in Hlt. lia.
  - apply sorted_cons; [auto|]. intros x [->|Hx]%elem_of_insert_entry; [done|auto].
Qed.

Lemma find_insert_entry k v l q :
  sorted cmp l ->
  find_entry cmp q (insert_entry cmp k v l) =
  if cmp q k =? 0 then Some (default v (find_entry cmp k l)) else find_entry cmp q l.
Proof.
  induction l as [|[k' v'] l IH]; intros Hs; simpl; [by destruct (_ =? 0)|].
  destruct (sorted_cons_inv _ _ Hs) as [Hs' Hlt].
  pose proof (cmp_eq_sym k' k) as Hsym. pose proof (ko_antisym k' k) as Ha.
  destruct (0 <=? cmp k' k) eqn:E; zify_bool.
  - destruct (cmp k' k =? 0) eqn:E0; zify_bool.
    + rewrite (proj2 (Z.eqb_eq (cmp k k') 0)) by lia. simpl.
      destruct (cmp q k =? 0) eqn:Eq; zify_bool; [|done].
      by rewrite (proj2 (Z.eqb_eq (cmp q k') 0)) by (apply (cmp_eq_trans q k k'); lia).
    + rewrite (proj2 (Z.eqb_neq (cmp k k') 0)) by lia. simpl.
      destruct (cmp q k =? 0) eqn:Eq; [|done]. rewrite find_entry_greater; [done|].
      intros x Hx. specialize (Hlt x Hx). simpl in Hlt.
      apply (cmp_lt_le_trans k k'); [apply ko_antisym; lia|lia].
  - simpl. rewrite (proj2 (Z.eqb_neq (cmp k k') 0)) by lia. rewrite IH by done.
    destruct (cmp q k =? 0) eqn:Eq; zify_bool; [|done].
    rewrite (proj2 (Z.eqb_neq (cmp q k') 0)); [done|]. intros Eq'.
    pose proof (proj1 (cmp_eq_sym q k') Eq').
    assert (cmp k' k = 0) by (apply (cmp_eq_trans k' q k); lia). lia.
Qed.

Lemma remove_entry_subset k l x : x ∈ remove_entry cmp k l -> x ∈ l.
Proof.
  induction l as [|[k' v'] l IH]; simpl; [done|].
  destruct (_ =? 0); [by right|]. intros [->|H]%elem_of_cons; [left|right; auto].
Qed.

Lemma remove_entry_sorted k l : sorted cmp l -> sorted cmp (remove_entry cmp k l).
Proof.
  induction l as [|[k' v'] l IH]; intros Hs; simpl; [done|].
  destruct (sorted_cons_inv _ _ Hs) as [Hs' Hlt]. destruct (_ =? 0); [done|].
  apply sorted_cons; [auto|]. intros x Hx. by apply Hlt, (remove_entry_subset k).
Qed.

Lemma find_remove_entry k l q :
  sorted cmp l ->
  find_entry cmp q (remove_entry cmp k l) =
  if cmp q k =? 0 then None else find_entry cmp q l.
Proof.
  induction l as [|[k' v'] l IH]; intros Hs; simpl; [by destruct (_ =? 0)|].
  destruct (sorted_cons_inv _ _ Hs) as [Hs' Hlt].
  destruct (cmp k k' =? 0) eqn:E; zify_bool.
  - destruct (cmp q k =? 0) eqn:Eq; zify_bool.
    + apply find_entry_greater. intros x Hx. specialize (Hlt x Hx). simpl in Hlt.
      apply (cmp_le_lt_trans q k'); [|done]. pose proof (cmp_eq_trans q k k'). lia.
    + rewrite (proj2 (Z.eqb_neq (cmp q k') 0)); [done|]. intros Eq'.
      apply Eq. apply (cmp_eq_trans q k' k); [done|]. by apply cmp_eq_sym.
  - simpl. rewrite IH by done. destruct (cmp q k =? 0) eqn:Eq; zify_bool; [|done].
    rewrite (proj2 (Z.eqb_neq (cmp q k') 0)); [done|]. intros Eq'.
    apply E. apply (cmp_eq_trans k q k'); [by apply cmp_eq_sym|done].
Qed.

Lemma insert_entry_split k v l i :
  first_index (fun e : K * V => 0 <=? cmp e.1 k) l = Some i ->
  insert_entry cmp k v l =
  match l !! i with
  | Some e => if cmp e.1 k =? 0 then l else take i l ++ (k, v) :: drop i l
  | None => l
  end.
Proof.
  revert i. induction l as [|[k' v'] l IH]; intros i Hi; [done|].
  unfold first_index in Hi. simpl in Hi. simpl. destruct (0 <=? cmp k' k).
  - injection Hi as <-. simpl. by destruct (_ =? 0).
  - simpl in Hi. destruct (list_find _ l) as [[j x]|] eqn:Ef; [|done]. injection Hi as <-.
    rewrite (IH j) by (unfold first_index; by rewrite Ef). simpl.
    destruct (l !! j) as [e|]; [|done]. by destruct (_ =? 0).
Qed.

Lemma insert_entry_last k v l :
  first_index (fun e : K * V => 0 <=? cmp e.1 k) l = None -> insert_entry cmp k v l = l ++ [(k, v)].
Proof.
  induction l as [|[k' v'] l IH]; intros Hi; [done|].
  unfold first_index in Hi. simpl in Hi. simpl. destruct (0 <=? cmp k' k); [done|].
  simpl in Hi. rewrite IH; [done|]. unfold first_index. by destruct (list_find _ l) as [[]|].
Qed.

Lemma find_entry_index k l :
  find_entry cmp k l =
  i ← first_index (fun e : K * V => cmp k e.1 =? 0) l; snd <$> l !! i.
Proof.
  induction l as [|[k' v'] l IH]; [done|]. unfold first_index. simpl.
  destruct (cmp k k' =? 0); [done|]. simpl. rewrite IH. unfold first_index.
  by destruct (list_find _ l) as [[]|].
Qed.

Lemma remove_entry_index k l :
  remove_entry cmp k l =
  match first_index (fun e : K * V => cmp k e.1 =? 0) l with
  | Some i => delete i l
  | None => l
  end.
Proof.
  induction l as [|[k' v'] l IH]; [done|]. unfold first_index. simpl.
  destruct (cmp k k' =? 0); [done|]. simpl. rewrite IH. unfold first_index.
  by destruct (list_find _ l) as [[]|].
Qed.
End EntryLemmas.

#[export] Instance Z_key_order : KeyOrder Z.sub.
Proof. split; intros; lia. Qed.
End BPage.
