(* ===== verification/LeafPage.v ===== *)
(** * The leaf page of the B+ tree (src/src/page/b_plus_tree_leaf_page.cpp)

    The in-page operations; those that reach the parent page through the buffer pool
    are in [TreeNodes].  [array] holds every cell of the page, those beyond the size
    included; [cmp] is the key comparator. *)

From stdpp Require Import prelude list sorting.
From Stdlib Require Import ZArith Lia.
From S2P Require Import Prelude BPlusTreePage.

Local Open Scope Z_scope.

Module Leaf.
Import BPage.

Section Page.
Context {K V : Type}.

Record BPlusTreeLeafPage := mkLeaf {
  hdr : BPlusTreePage;
  next_page_id_ : Z;
  array : list (K * V)
}.

Definition GetSize (p : BPlusTreeLeafPage) : Z := size_ (hdr p).
Definition GetMaxSize (p : BPlusTreeLeafPage) : Z := max_size_ (hdr p).

Definition set_hdr (p : BPlusTreeLeafPage) (h : BPlusTreePage) : BPlusTreeLeafPage :=
  mkLeaf h (next_page_id_ p) (array p).
Definition set_array (p : BPlusTreeLeafPage) (a : list (K * V)) : BPlusTreeLeafPage :=
  mkLeaf (hdr p) (next_page_id_ p) a.

(** [sizeof(BPlusTreeLeafPage)]: seven 4-byte members. *)
Definition sizeof_leaf : Z := 28.

(** [key_size] and [value_size] are the sizes of the template arguments. *)
Definition Init (key_size value_size page_id parent_id : Z) (p : BPlusTreeLeafPage) :
    BPlusTreeLeafPage :=
  let h := SetPageType LEAF_PAGE (SetSize 0 (SetParentPageId parent_id (SetPageId page_id (hdr p)))) in
  mkLeaf (SetMaxSize ((PAGE_SIZE - sizeof_leaf) / (key_size + value_size)) h)
         INVALID_PAGE_ID (array p).

Definition GetNextPageId (p : BPlusTreeLeafPage) : Z := next_page_id_ p.
Definition SetNextPageId (next_page_id : Z) (p : BPlusTreeLeafPage) : BPlusTreeLeafPage :=
  mkLeaf (hdr p) next_page_id (array p).

Definition GetItem (index : Z) (p : BPlusTreeLeafPage) : result (K * V) :=
  assert! (0 <=? index) && (index <? GetSize p) ;;
  cell (array p) index.

Definition KeyAt (index : Z) (p : BPlusTreeLeafPage) : result K :=
  assert! (0 <=? index) && (index <? GetSize p) ;;
  let* x := cell (array p) index in Ok x.1.

Section Search.
Context (cmp : K -> K -> Z).

Definition KeyIndex (key : K) (p : BPlusTreeLeafPage) : result Z :=
  let* i := scan (fun x => 0 <=? cmp x.1 key) (array p) 0 (Z.to_nat (GetSize p)) in
  Ok (default (-1) i).

Definition Lookup (key : K) (p : BPlusTreeLeafPage) : result (option V) :=
  let* i := scan (fun x => cmp key x.1 =? 0) (array p) 0 (Z.to_nat (GetSize p)) in
  match i with
  | Some i => let* x := cell (array p) i in Ok (Some x.2)
  | None => Ok None
  end.

(** The page size after the insertion, and the page. *)
Definition Insert (key : K) (value : V) (p : BPlusTreeLeafPage) :
    result (Z * BPlusTreeLeafPage) :=
  assert! GetSize p <? GetMaxSize p ;;
  let* key_index := KeyIndex key p in
  let store i a :=
    let* a := set_cell a i (key, value) in
    let p := mkLeaf (IncreaseSize 1 (hdr p)) (next_page_id_ p) a in
    Ok (GetSize p, p) in
  if key_index =? -1 then store (GetSize p) (array p)
  else
    let* k := KeyAt key_index p in
    if cmp k key =? 0 then Ok (GetSize p, p)
    else
      let* a := memmove (array p) (key_index + 1) key_index (GetSize p - key_index) in
      store key_index a.

Definition RemoveAndDeleteRecord (key : K) (p : BPlusTreeLeafPage) :
    result (Z * BPlusTreeLeafPage) :=
  assert! IsRootPage (hdr p) || (GetMinSize (hdr p) <=? GetSize p) ;;
  let* i := scan (fun x => cmp key x.1 =? 0) (array p) 0 (Z.to_nat (GetSize p)) in
  match i with
  | Some i =>
      let* a := memmove (array p) i (i + 1) (GetSize p - i - 1) in
      let p := mkLeaf (IncreaseSize (-1) (hdr p)) (next_page_id_ p) a in
      Ok (GetSize p, p)
  | None => Ok (GetSize p, p)
  end.

(** [CheckIntegrity], on the bounds its caller gives; it starts from the cell 1. *)
Fixpoint check_order (prev : K) (a : list (K * V)) (i : Z) (n : nat) : result (option K) :=
  match n with
  | O => Ok (Some prev)
  | S n' =>
      let* x := cell a i in
      if 0 <=? cmp prev x.1 then Ok None else check_order x.1 a (i + 1) n'
  end.

Definition CheckIntegrity (lower_bound higher_bound : option K) (p : BPlusTreeLeafPage) :
    result bool :=
  let* first := cell (array p) 1 in
  if match lower_bound with Some b => 0 <? cmp b first.1 | None => false end then Ok false
  else
    let* prev := check_order first.1 (array p) 2 (Z.to_nat (GetSize p - 2)) in
    match prev with
    | None => Ok false
    | Some prev =>
        if match higher_bound with Some b => 0 <=? cmp prev b | None => false end then Ok false
        else Ok (IsRootPage (hdr p) || (Z.quot (GetMaxSize p) 2 <=? GetSize p))
    end.
End Search.

(** ** Moving cells between two pages *)

Definition CopyHalfFrom (items : list (K * V)) (p : BPlusTreeLeafPage) : result BPlusTreeLeafPage :=
  let* a := memwrite (array p) 0 items in
  Ok (mkLeaf (IncreaseSize (Z.of_nat (length items)) (hdr p)) (next_page_id_ p) a).

(** This page and the recipient. *)
Definition MoveHalfTo (p recipient : BPlusTreeLeafPage) :
    result (BPlusTreeLeafPage * BPlusTreeLeafPage) :=
  let origin_size := GetSize p in
  let p := set_hdr p (SetSize (Z.quot (GetSize p) 2) (hdr p)) in
  let* items := memread (array p) (GetSize p) (origin_size - GetSize p) in
  let* recipient := CopyHalfFrom items recipient in
  let recipient := SetNextPageId (GetNextPageId p) recipient in
  Ok (SetNextPageId (page_id_ (hdr recipient)) p, recipient).

Definition CopyAllFrom (items : list (K * V)) (p : BPlusTreeLeafPage) : result BPlusTreeLeafPage :=
  let* a := memwrite (array p) (GetSize p) items in
  Ok (mkLeaf (IncreaseSize (Z.of_nat (length items)) (hdr p)) (next_page_id_ p) a).

Definition CopyLastFrom (item : K * V) (p : BPlusTreeLeafPage) : result BPlusTreeLeafPage :=
  let* a := set_cell (array p) (GetSize p) item in
  Ok (mkLeaf (IncreaseSize 1 (hdr p)) (next_page_id_ p) a).

(** The part of [CopyFirstFrom] in the page. *)
Definition push_front (item : K * V) (p : BPlusTreeLeafPage) : result BPlusTreeLeafPage :=
  let* a := memmove (array p) 1 0 (GetSize p) in
  let* a := set_cell a 0 item in
  Ok (mkLeaf (IncreaseSize 1 (hdr p)) (next_page_id_ p) a).

(** The part of [MoveAllTo] in the two pages. *)
Definition move_all (p recipient : BPlusTreeLeafPage) :
    result (BPlusTreeLeafPage * BPlusTreeLeafPage) :=
  let* items := memread (array p) 0 (GetSize p) in
  let* recipient := CopyAllFrom items recipient in
  let recipient := SetNextPageId (GetNextPageId p) recipient in
  Ok (set_hdr (SetNextPageId INVALID_PAGE_ID p) (SetSize 0 (hdr p)), recipient).

(** The part of [MoveFirstToEndOf] in the two pages. *)
Definition move_first (p recipient : BPlusTreeLeafPage) :
    result (BPlusTreeLeafPage * BPlusTreeLeafPage) :=
  let* x := cell (array p) 0 in
  let* recipient := CopyLastFrom x recipient in
  let* a := memmove (array p) 0 1 (GetSize p - 1) in
  Ok (mkLeaf (IncreaseSize (-1) (hdr p)) (next_page_id_ p) a, recipient).

(** The part of [MoveLastToFrontOf] in the two pages. *)
Definition move_last (p recipient : BPlusTreeLeafPage) :
    result (BPlusTreeLeafPage * BPlusTreeLeafPage) :=
  let* x := cell (array p) (GetSize p - 1) in
  let* recipient := push_front x recipient in
  Ok (set_hdr p (IncreaseSize (-1) (hdr p)), recipient).

(** ** Specification *)

Definition entries (p : BPlusTreeLeafPage) : list (K * V) :=
  take (Z.to_nat (GetSize p)) (array p).

Record wf (p : BPlusTreeLeafPage) : Prop := {
  l_size : 0 <= GetSize p <= GetMaxSize p;
  l_cap : Z.of_nat (length (array p)) = GetMaxSize p;
  l_max : GetMaxSize p < 2 ^ 31 - 1
}.

(** The members of the header an operation leaves alone. *)
Definition same_hdr (p p' : BPlusTreeLeafPage) : Prop :=
  GetMaxSize p' = GetMaxSize p /\ page_id_ (hdr p') = page_id_ (hdr p) /\
  parent_page_id_ (hdr p') = parent_page_id_ (hdr p) /\
  page_type_ (hdr p') = page_type_ (hdr p).

(** What an operation leaves alone. *)
Definition same_frame (p p' : BPlusTreeLeafPage) : Prop :=
  wf p' /\ GetMaxSize p' = GetMaxSize p /\ next_page_id_ p' = next_page_id_ p /\
  page_id_ (hdr p') = page_id_ (hdr p) /\
  parent_page_id_ (hdr p') = parent_page_id_ (hdr p) /\
  page_type_ (hdr p') = page_type_ (hdr p).

End Page.
Arguments BPlusTreeLeafPage : clear implicits.

(** ** Lemmas *)

Section Lemmas.
Context {K V : Type} (cmp : K -> K -> Z) `{!KeyOrder cmp}.
Implicit Types (p : BPlusTreeLeafPage K V).

Lemma leaf_entries_length p : wf p -> length (entries p) = Z.to_nat (GetSize p).
Proof. intros H. destruct (l_size _ H). pose proof (l_cap _ H). unfold entries. rewrite length_take. lia. Qed.

Lemma scan_entries P p :
  wf p -> scan P (array p) 0 (Z.to_nat (GetSize p)) = Ok (Z.of_nat <$> first_index P (entries p)).
Proof.
  intros H. destruct (l_size _ H). pose proof (l_cap _ H).
  change 0 with (Z.of_nat 0). rewrite scan_spec by lia. by rewrite drop_0.
Qed.

Lemma leaf_entry_cell p i x :
  wf p -> entries p !! i = Some x -> array p !! i = Some x /\ (i < Z.to_nat (GetSize p))%nat.
Proof.
  intros H Hi. unfold entries in Hi. apply lookup_take_Some in Hi. tauto.
Qed.

(** A page with new cells and a new size. *)
Lemma leaf_frame_intro p a n :
  wf p -> length a = length (array p) -> 0 <= size_ (hdr p) + n <= GetMaxSize p ->
  let p' := mkLeaf (IncreaseSize n (hdr p)) (next_page_id_ p) a in
  same_frame p p' /\ GetSize p' = GetSize p + n /\ entries p' = take (Z.to_nat (GetSize p + n)) a.
Proof.
  intros H Hlen Hn p'. pose proof (l_max _ H) as Hmax. pose proof (l_cap _ H) as Hcap.
  assert (Hs : GetSize p' = GetSize p + n).
  { unfold GetSize, p'. simpl. apply swrap_id; [lia|]. unfold in_sint. lia. }
  split; [|split; [done|]].
  - split; [|done]. split.
    + rewrite Hs. exact Hn.
    + simpl. rewrite Hlen. exact Hcap.
    + exact Hmax.
  - unfold entries. rewrite Hs. done.
Qed.

Lemma leaf_lookup_ok p k : wf p -> Lookup cmp k p = Ok (find_entry cmp k (entries p)).
Proof.
  intros H. unfold Lookup. rewrite (scan_entries _ _ H), bind_ok, find_entry_index.
  destruct (first_index _ (entries p)) as [i|] eqn:Ei; [|done]. cbn [fmap option_fmap option_map].
  apply first_index_Some in Ei as (x & Hx & _). destruct (leaf_entry_cell _ _ _ H Hx) as [Hc _].
  rewrite (cell_ok _ _ _ Hc), bind_ok. simpl. by rewrite Hx.
Qed.

Lemma key_index_ok p k :
  wf p -> KeyIndex cmp k p =
          Ok (from_option Z.of_nat (-1) (first_index (fun e => 0 <=? cmp e.1 k) (entries p))).
Proof.
  intros H. unfold KeyIndex. rewrite (scan_entries _ _ H), bind_ok.
  by destruct (first_index _ _).
Qed.

Lemma key_at_ok p i x : wf p -> entries p !! i = Some x -> KeyAt (Z.of_nat i) p = Ok x.1.
Proof.
  intros H Hi. destruct (leaf_entry_cell _ _ _ H Hi) as [Hc Hlt]. unfold KeyAt.
  rewrite assert_ok by (apply andb_true_iff; split; [apply Z.leb_le|apply Z.ltb_lt]; lia).
  by rewrite (cell_ok _ _ _ Hc).
Qed.

Lemma get_item_ok p i x : wf p -> entries p !! i = Some x -> GetItem (Z.of_nat i) p = Ok x.
Proof.
  intros H Hi. destruct (leaf_entry_cell _ _ _ H Hi) as [Hc Hlt]. unfold GetItem.
  rewrite assert_ok by (apply andb_true_iff; split; [apply Z.leb_le|apply Z.ltb_lt]; lia).
  by apply cell_ok.
Qed.

(** [Insert] on a page that is not full. *)
Lemma insert_ok p k v :
  wf p -> GetSize p < GetMaxSize p ->
  exists p', Insert cmp k v p = Ok (GetSize p', p') /\ same_frame p p' /\
             entries p' = insert_entry cmp k v (entries p).
Proof.
  intros H Hroom. pose proof (l_size _ H). pose proof (l_cap _ H).
  unfold Insert. rewrite assert_ok by (by apply Z.ltb_lt).
  rewrite (key_index_ok _ _ H), bind_ok.
  destruct (first_index _ (entries p)) as [i|] eqn:Ei; cbn [from_option].
  - rewrite (proj2 (Z.eqb_neq _ (-1))) by lia. rewrite (insert_entry_split _ _ _ _ _ Ei).
    apply first_index_Some in Ei as (x & Hx & HP & _).
    rewrite (key_at_ok _ _ _ H Hx), bind_ok, Hx.
    destruct (cmp x.1 k =? 0).
    + exists p. split; [done|]. by split.
    + destruct (leaf_entry_cell _ _ _ H Hx) as [_ Hlt].
      destruct (shift_right (array p) (Z.to_nat (GetSize p)) i (k, v)) as (b & Hb & Hbl & Hbe); [lia|lia|].
      rewrite Z2Nat.id in Hb by lia. rewrite Hb, bind_ok, set_cell_ok, Nat2Z.id by lia.
      rewrite bind_ok. eexists. split; [done|].
      destruct (leaf_frame_intro p (<[i := (k, v)]> b) 1 H) as (Hf & _ & He).
      { rewrite length_insert. done. }
      { unfold GetSize in *. lia. }
      split; [done|]. rewrite He. replace (Z.to_nat (GetSize p + 1)) with (S (Z.to_nat (GetSize p))) by lia.
      rewrite Hbe. unfold entries. by rewrite take_take, Nat.min_l by lia.
  - simpl. rewrite (insert_entry_last _ _ _ _ Ei), set_cell_ok, bind_ok by lia.
    eexists. split; [done|].
    destruct (leaf_frame_intro p (<[Z.to_nat (GetSize p) := (k, v)]> (array p)) 1 H) as (Hf & _ & He).
    { by rewrite length_insert. }
    { unfold GetSize in *. lia. }
    split; [done|]. rewrite He. replace (Z.to_nat (GetSize p + 1)) with (S (Z.to_nat (GetSize p))) by lia.
    apply take_S_insert. lia.
Qed.

Lemma leaf_remove_ok p k :
  wf p -> IsRootPage (hdr p) = true \/ GetMinSize (hdr p) <= GetSize p ->
  exists p', RemoveAndDeleteRecord cmp k p = Ok (GetSize p', p') /\ same_frame p p' /\
             entries p' = remove_entry cmp k (entries p).
Proof.
  intros H Hmin. pose proof (l_size _ H). pose proof (l_cap _ H).
  unfold RemoveAndDeleteRecord. rewrite assert_ok.
  2:{ apply orb_true_iff. destruct Hmin; [by left|right]. by apply Z.leb_le. }
  rewrite (scan_entries _ _ H), bind_ok, remove_entry_index.
  destruct (first_index _ (entries p)) as [i|] eqn:Ei; cbn [fmap option_fmap option_map];
    [|by exists p].
  apply first_index_Some in Ei as (x & Hx & _). destruct (leaf_entry_cell _ _ _ H Hx) as [_ Hlt].
  destruct (shift_left (array p) (Z.to_nat (GetSize p)) i) as (b & Hb & Hbl & Hbe); [lia|lia|].
  rewrite Z2Nat.id in Hb by lia. rewrite Hb, bind_ok. eexists. split; [done|].
  destruct (leaf_frame_intro p b (-1) H Hbl) as (Hf & _ & He); [unfold GetSize in *; lia|].
  split; [done|]. rewrite He.
  change (entries p) with (take (Z.to_nat (GetSize p)) (array p)). rewrite <- Hbe. f_equal. lia.
Qed.

Lemma append_ok p items :
  wf p -> GetSize p + Z.of_nat (length items) <= GetMaxSize p ->
  exists p', CopyAllFrom items p = Ok p' /\ same_frame p p' /\
             GetSize p' = GetSize p + Z.of_nat (length items) /\ entries p' = entries p ++ items.
Proof.
  intros H Hroom. pose proof (l_size _ H). pose proof (l_cap _ H). unfold CopyAllFrom.
  rewrite memwrite_ok by lia. rewrite bind_ok. eexists. split; [done|].
  destruct (leaf_frame_intro p (splice (GetSize p) items (array p)) (Z.of_nat (length items)) H)
    as (Hf & Hs & He).
  { apply length_splice; lia. }
  { unfold GetSize in *. lia. }
  split; [done|]. split; [done|]. rewrite He. unfold splice, entries.
  rewrite app_assoc, take_app_length'; [done|]. rewrite length_app, length_take. lia.
Qed.

(** Items copied to an empty page. *)
Lemma copy_half_ok p items :
  wf p -> GetSize p = 0 -> Z.of_nat (length items) <= GetMaxSize p ->
  exists p', CopyHalfFrom items p = Ok p' /\ same_frame p p' /\ entries p' = items.
Proof.
  intros H H0 Hroom. destruct (append_ok p items H) as (p' & Hp & Hf & _ & He); [lia|].
  unfold CopyAllFrom in Hp. rewrite H0 in Hp. exists p'. split; [exact Hp|]. split; [done|].
  rewrite He. unfold entries. by rewrite H0.
Qed.

Lemma set_size_ok p n :
  wf p -> 0 <= n <= GetSize p ->
  wf (set_hdr p (SetSize n (hdr p))) /\
  entries (set_hdr p (SetSize n (hdr p))) = take (Z.to_nat n) (entries p).
Proof.
  intros H Hn. pose proof (l_size _ H). split.
  - split; simpl; [|apply H..]. unfold GetSize, GetMaxSize in *. simpl. lia.
  - unfold entries, GetSize. simpl. unfold GetSize in Hn.
    rewrite take_take. f_equal. lia.
Qed.

Lemma wf_set_next p n : wf p -> wf (SetNextPageId n p).
Proof. intros H. split; apply H. Qed.

Lemma read_cells p i n :
  wf p -> 0 <= i -> 0 <= n -> i + n <= GetSize p ->
  memread (array p) i n = Ok (take (Z.to_nat n) (drop (Z.to_nat i) (entries p))).
Proof.
  intros H Hi Hn Hin. pose proof (l_size _ H). pose proof (l_cap _ H).
  rewrite memread_ok by lia. unfold slice, entries. f_equal.
  rewrite <- (take_drop (Z.to_nat (GetSize p)) (array p)) at 1.
  rewrite drop_app_le by (rewrite length_take; lia).
  rewrite take_app_le; [done|]. rewrite length_drop, length_take. lia.
Qed.

(** A split: the upper half goes to an empty page, which is linked after this one. *)
Lemma move_half_ok p r :
  wf p -> wf r -> GetSize r = 0 -> GetMaxSize r = GetMaxSize p ->
  exists p' r', MoveHalfTo p r = Ok (p', r') /\ wf p' /\ wf r' /\
    entries p' = take (Z.to_nat (GetSize p / 2)) (entries p) /\
    entries r' = drop (Z.to_nat (GetSize p / 2)) (entries p) /\
    next_page_id_ p' = page_id_ (hdr r) /\ next_page_id_ r' = next_page_id_ p /\
    same_hdr p p' /\ same_hdr r r'.
Proof.
  intros H Hr H0 Hmax. pose proof (l_size _ H) as [Hs1 Hs2].
  pose proof (l_cap _ H). unfold MoveHalfTo. rewrite Z.quot_div_nonneg by lia.
  set (n := GetSize p / 2). assert (Hn : 0 <= n <= GetSize p)
    by (unfold n; pose proof (Z.div_mod (GetSize p) 2); pose proof (Z.mod_pos_bound (GetSize p) 2); lia).
  destruct (set_size_ok p n H Hn) as [Hw He].
  change (GetSize (set_hdr p (SetSize n (hdr p)))) with n.
  change (array (set_hdr p (SetSize n (hdr p)))) with (array p).
  rewrite read_cells, bind_ok by (done || lia).
  assert (Hd : take (Z.to_nat (GetSize p - n)) (drop (Z.to_nat n) (entries p)) =
               drop (Z.to_nat n) (entries p)).
  { apply take_ge. rewrite length_drop, leaf_entries_length by done. lia. }
  rewrite Hd. destruct (copy_half_ok r (drop (Z.to_nat n) (entries p)) Hr H0) as (r' & Hc & Hf & Her).
  { rewrite length_drop, leaf_entries_length by done. lia. }
  rewrite Hc, bind_ok. eexists _, _. split; [done|].
  destruct Hf as (Hwr & Hmr & _ & Hidr & Hpr & Htr).
  split; [by apply wf_set_next|]. split; [by apply wf_set_next|].
  split; [exact He|]. split; [exact Her|]. split; [exact Hidr|]. by repeat split.
Qed.

Lemma leaf_cell_entry p i x :
  wf p -> entries p !! i = Some x -> cell (array p) (Z.of_nat i) = Ok x.
Proof. intros H Hi. apply cell_ok. by apply leaf_entry_cell. Qed.

(** A merge: all entries go to the end of the left sibling. *)
Lemma move_all_ok p r :
  wf p -> wf r -> GetSize p + GetSize r <= GetMaxSize r ->
  exists p' r', move_all p r = Ok (p', r') /\ wf p' /\ wf r' /\ entries p' = [] /\
    entries r' = entries r ++ entries p /\ next_page_id_ r' = next_page_id_ p /\
    same_hdr p p' /\ same_hdr r r'.
Proof.
  intros H Hr Hroom. pose proof (l_size _ H) as [Hs1 Hs2]. pose proof (l_size _ Hr).
  unfold move_all. rewrite read_cells, bind_ok by (done || lia).
  change (Z.to_nat 0) with 0%nat. rewrite drop_0.
  rewrite (take_ge (entries p)) by (rewrite leaf_entries_length by done; lia).
  destruct (append_ok r (entries p) Hr) as (r' & Hc & (Hwr & Hmr & _ & Hidr & Hpr & Htr) & _ & Her).
  { rewrite leaf_entries_length by done. lia. }
  rewrite Hc, bind_ok. eexists _, _. split; [done|].
  destruct (set_size_ok (SetNextPageId INVALID_PAGE_ID p) 0 (wf_set_next _ _ H)) as [Hw He].
  { change (GetSize (SetNextPageId INVALID_PAGE_ID p)) with (GetSize p). lia. }
  split; [exact Hw|]. split; [by apply wf_set_next|]. split; [exact He|].
  split; [exact Her|]. by repeat split.
Qed.

Lemma copy_last_ok p x :
  wf p -> GetSize p < GetMaxSize p ->
  exists p', CopyLastFrom x p = Ok p' /\ same_frame p p' /\ entries p' = entries p ++ [x].
Proof.
  intros H Hroom. pose proof (l_size _ H) as [Hs1 Hs2]. pose proof (l_cap _ H).
  unfold CopyLastFrom. rewrite set_cell_ok, bind_ok by lia. eexists. split; [done|].
  destruct (leaf_frame_intro p (<[Z.to_nat (GetSize p) := x]> (array p)) 1 H) as (Hf & _ & He).
  { by rewrite length_insert. }
  { unfold GetSize in *. lia. }
  split; [done|]. rewrite He. replace (Z.to_nat (GetSize p + 1)) with (S (Z.to_nat (GetSize p))) by lia.
  apply take_S_insert. lia.
Qed.

Lemma push_front_ok p x :
  wf p -> GetSize p < GetMaxSize p ->
  exists p', push_front x p = Ok p' /\ same_frame p p' /\ entries p' = x :: entries p.
Proof.
  intros H Hroom. pose proof (l_size _ H) as [Hs1 Hs2]. pose proof (l_cap _ H).
  unfold push_front.
  destruct (shift_right (array p) (Z.to_nat (GetSize p)) 0 x) as (b & Hb & Hbl & Hbe); [lia|lia|].
  change (Z.of_nat 0) with 0 in Hb. rewrite Z.add_0_l, Z2Nat.id, Z.sub_0_r in Hb by lia.
  rewrite Hb, bind_ok.
  rewrite set_cell_ok, bind_ok by lia. eexists. split; [done|].
  destruct (leaf_frame_intro p (<[0%nat := x]> b) 1 H) as (Hf & _ & He).
  { by rewrite length_insert. }
  { unfold GetSize in *. lia. }
  split; [exact Hf|]. etrans; [exact He|].
  replace (Z.to_nat (GetSize p + 1)) with (S (Z.to_nat (GetSize p))) by lia. exact Hbe.
Qed.

Lemma move_first_ok p r x l :
  wf p -> wf r -> entries p = x :: l -> GetSize r < GetMaxSize r ->
  exists p' r', move_first p r = Ok (p', r') /\ same_frame p p' /\ same_frame r r' /\
    entries p' = l /\ entries r' = entries r ++ [x].
Proof.
  intros H Hr Hx Hroom. pose proof (l_size _ H) as [Hs1 Hs2]. pose proof (l_cap _ H).
  pose proof (leaf_entries_length _ H) as Hl. rewrite Hx in Hl. simpl in Hl.
  unfold move_first. change 0 with (Z.of_nat 0) at 1.
  rewrite (leaf_cell_entry _ 0 x H) by (by rewrite Hx). rewrite bind_ok.
  destruct (copy_last_ok r x Hr Hroom) as (r' & Hc & Hfr & Her). rewrite Hc, bind_ok.
  destruct (shift_left (array p) (Z.to_nat (GetSize p)) 0) as (b & Hb & Hbl & Hbe); [lia|lia|].
  change (Z.of_nat 0) with 0 in Hb. rewrite Z.add_0_l, Z2Nat.id, Z.sub_0_r in Hb by lia.
  rewrite Hb, bind_ok.
  destruct (leaf_frame_intro p b (-1) H Hbl) as (Hf & _ & He); [unfold GetSize in *; lia|].
  eexists _, r'. split; [done|]. split; [exact Hf|]. split; [done|]. split; [|done].
  etrans; [exact He|]. replace (Z.to_nat (GetSize p + -1)) with (Z.to_nat (GetSize p) - 1)%nat by lia.
  rewrite Hbe. fold (entries p). by rewrite Hx.
Qed.

Lemma drop_last_ok p x l :
  wf p -> entries p = l ++ [x] ->
  cell (array p) (GetSize p - 1) = Ok x /\ same_frame p (set_hdr p (IncreaseSize (-1) (hdr p))) /\
  entries (set_hdr p (IncreaseSize (-1) (hdr p))) = l.
Proof.
  intros H Hx. pose proof (l_size _ H) as [Hs1 Hs2].
  pose proof (leaf_entries_length _ H) as Hl. rewrite Hx, length_app in Hl. simpl in Hl. split.
  { replace (GetSize p - 1) with (Z.of_nat (length l)) by lia. apply leaf_cell_entry; [done|].
    rewrite Hx, lookup_app_r, Nat.sub_diag by lia. done. }
  destruct (leaf_frame_intro p (array p) (-1) H eq_refl) as (Hf & _ & He); [unfold GetSize in *; lia|].
  split; [exact Hf|]. etrans; [exact He|]. replace (Z.to_nat (GetSize p + -1)) with (length l) by lia.
  assert (Hsub : take (length l) (array p) = take (length l) (entries p))
    by (unfold entries; rewrite take_take; f_equal; lia).
  rewrite Hsub, Hx. by rewrite take_app_length.
Qed.

Lemma move_last_ok p r x l :
  wf p -> wf r -> entries p = l ++ [x] -> GetSize r < GetMaxSize r ->
  exists p' r', move_last p r = Ok (p', r') /\ same_frame p p' /\ same_frame r r' /\
    entries p' = l /\ entries r' = x :: entries r.
Proof.
  intros H Hr Hx Hroom. destruct (drop_last_ok p x l H Hx) as (Hc & Hf & He).
  unfold move_last. rewrite Hc, bind_ok.
  destruct (push_front_ok r x Hr Hroom) as (r' & Hp & Hfr & Her). rewrite Hp, bind_ok.
  by eexists _, r'.
Qed.
End Lemmas.

(** ** Properties *)

Section Properties.
Context {K V : Type} (cmp : K -> K -> Z) `{!KeyOrder cmp}.

(** On a sorted leaf, [Lookup] finds the value of a key; [Insert] on a page that is
    not full adds a key that is absent and keeps the value of a key that is present,
    [RemoveAndDeleteRecord] removes the key; both keep the leaf sorted, within its
    capacity, and every other key's value. *)
Theorem leaf_page_correct (p : BPlusTreeLeafPage K V) (k : K) (v : V)
    (H : wf p) (Hsort : sorted cmp (entries p)) (Hroom : GetSize p < GetMaxSize p)
    (Hmin : IsRootPage (hdr p) = true \/ GetMinSize (hdr p) <= GetSize p) :
  exists p1 p2,
    Insert cmp k v p = Ok (GetSize p1, p1) /\ same_frame p p1 /\ sorted cmp (entries p1) /\
    (forall q, Lookup cmp q p1 =
       let* old := Lookup cmp k p in
       if cmp q k =? 0 then Ok (Some (default v old)) else Lookup cmp q p) /\
    RemoveAndDeleteRecord cmp k p = Ok (GetSize p2, p2) /\ same_frame p p2 /\
    sorted cmp (entries p2) /\
    (forall q, Lookup cmp q p2 = if cmp q k =? 0 then Ok None else Lookup cmp q p).
Proof.
  destruct (insert_ok cmp p k v H Hroom) as (p1 & Hi & Hf1 & He1).
  destruct (leaf_remove_ok cmp p k H Hmin) as (p2 & Hd & Hf2 & He2).
  exists p1, p2. split; [done|]. split; [done|].
  split; [rewrite He1; by apply insert_entry_sorted|]. split.
  - intros q. rewrite !leaf_lookup_ok by (done || apply Hf1). rewrite bind_ok, He1.
    rewrite find_insert_entry by done. by destruct (cmp q k =? 0).
  - split; [done|]. split; [done|]. split; [rewrite He2; by apply remove_entry_sorted|].
    intros q. rewrite !leaf_lookup_ok by (done || apply Hf2). rewrite He2.
    rewrite find_remove_entry by done. by destruct (cmp q k =? 0).
Qed.

(** Splitting a leaf into an empty one keeps every entry, in order, across the two
    leaves, links the new leaf after the old one, and leaves neither more than half
    full (rounded up). *)
Theorem leaf_split_correct (p r : BPlusTreeLeafPage K V) (H : wf p) (Hr : wf r)
    (H0 : GetSize r = 0) (Hmax : GetMaxSize r = GetMaxSize p) :
  exists p' r', MoveHalfTo p r = Ok (p', r') /\ wf p' /\ wf r' /\
    entries p' ++ entries r' = entries p /\
    GetSize p' = GetSize p / 2 /\ GetSize r' = GetSize p - GetSize p / 2 /\
    next_page_id_ p' = page_id_ (hdr r') /\ next_page_id_ r' = next_page_id_ p.
Proof.
  destruct (move_half_ok p r H Hr H0 Hmax) as (p' & r' & Hm & Hw & Hwr & He & Her & Hn & Hnr & _ & (_ & Hid & _)).
  exists p', r'. split; [done|]. split; [done|]. split; [done|].
  pose proof (leaf_entries_length _ H) as Hl. pose proof (leaf_entries_length _ Hw) as Hl1.
  pose proof (leaf_entries_length _ Hwr) as Hl2. pose proof (l_size _ H). pose proof (l_size _ Hw).
  pose proof (l_size _ Hwr). rewrite He, length_take in Hl1. rewrite Her, length_drop in Hl2.
  pose proof (Z.div_mod (GetSize p) 2). pose proof (Z.mod_pos_bound (GetSize p) 2).
  split; [rewrite He, Her; apply take_drop|]. split; [lia|]. split; [lia|].
  split; [congruence|done].
Qed.
End Properties.

(** ** Witnesses *)

Definition sample_leaf (id : Z) (es : list (Z * Z)) : BPlusTreeLeafPage Z Z :=
  mkLeaf (mkHdr LEAF_PAGE 0 (Z.of_nat (length es)) 6 INVALID_PAGE_ID id) 9
         (es ++ replicate (6 - length es) (0, 0)).

Lemma sample_leaf_wf id es : (length es <= 6)%nat -> wf (sample_leaf id es).
Proof.
  intros Hl. split; unfold GetSize, GetMaxSize; simpl; [lia| |lia].
  rewrite length_app, length_replicate. lia.
Qed.

Definition small_leaf : BPlusTreeLeafPage Z Z := sample_leaf 3 [(1, 10); (4, 40); (7, 70)].

Lemma small_leaf_sorted : sorted Z.sub (entries small_leaf).
Proof. vm_compute. repeat constructor. Qed.

(** The page an operation left, for the witnesses. *)
Definition page_of {A} (m : result (A * BPlusTreeLeafPage Z Z)) : BPlusTreeLeafPage Z Z :=
  match m with Ok (_, p) => p | Fail _ => small_leaf end.

Lemma leaf_page_correct_witness :
  exists p1 p2, Insert Z.sub 5 50 small_leaf = Ok (4, p1) /\
    entries p1 = [(1, 10); (4, 40); (5, 50); (7, 70)] /\
    RemoveAndDeleteRecord Z.sub 5 small_leaf = Ok (3, p2) /\ Lookup Z.sub 5 p2 = Ok None.
Proof.
  destruct (leaf_page_correct Z.sub small_leaf 5 50) as (p1 & p2 & Hi & _ & _ & _ & Hd & _ & _ & Hq).
  - apply sample_leaf_wf. simpl. lia.
  - exact small_leaf_sorted.
  - reflexivity.
  - left. reflexivity.
  - assert (E1 : p1 = page_of (Insert Z.sub 5 50 small_leaf)) by (rewrite Hi; reflexivity).
    exists p1, p2. specialize (Hq 5). subst p1.
    assert (E2 : p2 = page_of (RemoveAndDeleteRecord Z.sub 5 small_leaf)) by (rewrite Hd; reflexivity).
    subst p2. split; [vm_compute; reflexivity|]. split; [vm_compute; reflexivity|].
    split; [vm_compute; reflexivity|exact Hq].
Defined.

Lemma leaf_split_correct_witness :
  exists p' r', MoveHalfTo small_leaf (sample_leaf 8 []) = Ok (p', r') /\
    entries p' ++ entries r' = [(1, 10); (4, 40); (7, 70)] /\ next_page_id_ p' = 8.
Proof.
  destruct (leaf_split_correct small_leaf (sample_leaf 8 [])) as (p' & r' & Hm & _ & _ & He & _ & _ & Hn & _).
  - apply sample_leaf_wf. simpl. lia.
  - apply sample_leaf_wf. simpl. lia.
  - reflexivity.
  - reflexivity.
  - exists p', r'. split; [exact Hm|]. split; [exact He|].
    rewrite Hn.
    assert (E : r' = page_of (MoveHalfTo small_leaf (sample_leaf 8 []))) by (rewrite Hm; reflexivity).
    subst r'. reflexivity.
Defined.
End Leaf.
