(* ===== verification/InternalPage.v ===== *)
(** * The internal page of the B+ tree (src/src/page/b_plus_tree_internal_page.cpp)

    The in-page operations; those that reach other pages through the buffer pool are
    in [TreeNodes].  The values are page ids; the key of the cell 0 is not a key. *)

From stdpp Require Import prelude list sorting.
From Stdlib Require Import ZArith Lia.
From S2P Require Import Prelude BPlusTreePage.

Local Open Scope Z_scope.

Module Internal.
Import BPage.

Section Page.
Context {K : Type}.

Record BPlusTreeInternalPage := mkInternal { hdr : BPlusTreePage; array : list (K * Z) }.

Definition GetSize (p : BPlusTreeInternalPage) : Z := size_ (hdr p).
Definition GetMaxSize (p : BPlusTreeInternalPage) : Z := max_size_ (hdr p).

Definition set_hdr (p : BPlusTreeInternalPage) (h : BPlusTreePage) : BPlusTreeInternalPage :=
  mkInternal h (array p).

(** [sizeof(BPlusTreeInternalPage)] and [sizeof(page_id_t)]. *)
Definition sizeof_internal : Z := 24.
Definition sizeof_page_id : Z := 4.

Definition Init (key_size page_id parent_id : Z) (p : BPlusTreeInternalPage) :
    BPlusTreeInternalPage :=
  let h := SetSize 0 (SetPageType INTERNAL_PAGE (SetParentPageId parent_id (SetPageId page_id (hdr p)))) in
  mkInternal (SetMaxSize ((PAGE_SIZE - sizeof_internal) / (key_size + sizeof_page_id)) h) (array p).

Definition KeyAt (index : Z) (p : BPlusTreeInternalPage) : result K :=
  assert! (0 <=? index) && (index <? GetMaxSize p) ;;
  let* x := cell (array p) index in Ok x.1.

(** [array[index].first = key], without the assertion of [SetKeyAt]. *)
Definition put_key (index : Z) (key : K) (p : BPlusTreeInternalPage) :
    result BPlusTreeInternalPage :=
  let* x := cell (array p) index in
  let* a := set_cell (array p) index (key, x.2) in
  Ok (mkInternal (hdr p) a).

Definition SetKeyAt (index : Z) (key : K) (p : BPlusTreeInternalPage) :
    result BPlusTreeInternalPage :=
  assert! (0 <? index) && (index <? GetMaxSize p) ;;
  put_key index key p.

Definition ValueIndex (value : Z) (p : BPlusTreeInternalPage) : result Z :=
  let* i := scan (fun x => x.2 =? value) (array p) 0 (Z.to_nat (GetSize p)) in
  Ok (default (-1) i).

Definition ValueAt (index : Z) (p : BPlusTreeInternalPage) : result Z :=
  assert! (0 <=? index) && (index <? GetMaxSize p) ;;
  let* x := cell (array p) index in Ok x.2.

Definition Lookup (cmp : K -> K -> Z) (key : K) (p : BPlusTreeInternalPage) : result Z :=
  let* i := scan (fun x => cmp key x.1 <? 0) (array p) 1 (Z.to_nat (GetSize p - 1)) in
  let* x := cell (array p) (default (GetSize p) i - 1) in
  Ok x.2.

Definition PopulateNewRoot (old_value : Z) (new_key : K) (new_value : Z)
    (p : BPlusTreeInternalPage) : result BPlusTreeInternalPage :=
  let* a := set_cell (array p) 0 (new_key, old_value) in
  let* a := set_cell a 1 (new_key, new_value) in
  Ok (mkInternal (SetSize 2 (hdr p)) a).

Definition InsertNodeAfter (old_value : Z) (new_key : K) (new_value : Z)
    (p : BPlusTreeInternalPage) : result (Z * BPlusTreeInternalPage) :=
  assert! GetSize p <? GetMaxSize p ;;
  let* old_index := ValueIndex old_value p in
  assert! negb (old_index =? -1) ;;
  let* a := memmove (array p) (old_index + 2) (old_index + 1) (GetSize p - old_index - 1) in
  let* a := set_cell a (old_index + 1) (new_key, new_value) in
  let p := mkInternal (IncreaseSize 1 (hdr p)) a in
  Ok (GetSize p, p).

Definition Remove (index : Z) (p : BPlusTreeInternalPage) : result BPlusTreeInternalPage :=
  let* a := memmove (array p) index (index + 1) (GetSize p - index - 1) in
  Ok (mkInternal (IncreaseSize (-1) (hdr p)) a).

Definition RemoveAndReturnOnlyChild (p : BPlusTreeInternalPage) :
    result (Z * BPlusTreeInternalPage) :=
  assert! GetSize p =? 1 ;;
  let* x := cell (array p) 0 in
  Ok (x.2, set_hdr p (IncreaseSize (-1) (hdr p))).

(** The cells copied by [CopyHalfFrom], [CopyAllFrom] and [CopyLastFrom]. *)
Definition copy_half (items : list (K * Z)) (p : BPlusTreeInternalPage) :
    result BPlusTreeInternalPage :=
  let* a := memwrite (array p) 0 items in
  Ok (mkInternal (IncreaseSize (Z.of_nat (length items)) (hdr p)) a).

Definition copy_all (items : list (K * Z)) (p : BPlusTreeInternalPage) :
    result BPlusTreeInternalPage :=
  let* a := memwrite (array p) (GetSize p) items in
  Ok (mkInternal (IncreaseSize (Z.of_nat (length items)) (hdr p)) a).

Definition copy_last (pair : K * Z) (p : BPlusTreeInternalPage) : result BPlusTreeInternalPage :=
  let* a := set_cell (array p) (GetSize p) pair in
  Ok (mkInternal (IncreaseSize 1 (hdr p)) a).

(** The cells moved by [CopyFirstFrom]: the pair's key goes to the cell 1. *)
Definition copy_first (pair : K * Z) (p : BPlusTreeInternalPage) : result BPlusTreeInternalPage :=
  let* a := memmove (array p) 1 0 (GetSize p) in
  let* x1 := cell a 1 in
  let* a := set_cell a 1 (pair.1, x1.2) in
  let* x0 := cell a 0 in
  let* a := set_cell a 0 (x0.1, pair.2) in
  Ok (mkInternal (IncreaseSize 1 (hdr p)) a).

Fixpoint check_order (cmp : K -> K -> Z) (prev : K) (a : list (K * Z)) (i : Z) (n : nat) :
    result (option K) :=
  match n with
  | O => Ok (Some prev)
  | S n' =>
      let* x := cell a i in
      if 0 <=? cmp prev x.1 then Ok None else check_order cmp x.1 a (i + 1) n'
  end.

Definition CheckIntegrity (cmp : K -> K -> Z) (lower_bound higher_bound : option K)
    (p : BPlusTreeInternalPage) : result bool :=
  let* first := cell (array p) 1 in
  if match lower_bound with Some b => 0 <? cmp b first.1 | None => false end then Ok false
  else
    let* prev := check_order cmp first.1 (array p) 2 (Z.to_nat (GetSize p - 2)) in
    match prev with
    | None => Ok false
    | Some prev =>
        if match higher_bound with Some b => 0 <=? cmp prev b | None => false end then Ok false
        else Ok (IsRootPage (hdr p) || (Z.quot (GetMaxSize p) 2 <=? GetSize p))
    end.

(** ** Specification *)

Definition entries (p : BPlusTreeInternalPage) : list (K * Z) :=
  take (Z.to_nat (GetSize p)) (array p).

Record wf (p : BPlusTreeInternalPage) : Prop := {
  i_size : 0 <= GetSize p <= GetMaxSize p;
  i_cap : Z.of_nat (length (array p)) = GetMaxSize p;
  i_max : GetMaxSize p < 2 ^ 31 - 1
}.

Definition same_frame (p p' : BPlusTreeInternalPage) : Prop :=
  wf p' /\ GetMaxSize p' = GetMaxSize p /\ page_id_ (hdr p') = page_id_ (hdr p) /\
  parent_page_id_ (hdr p') = parent_page_id_ (hdr p) /\
  page_type_ (hdr p') = page_type_ (hdr p).
End Page.
Arguments BPlusTreeInternalPage : clear implicits.

(** ** Lemmas *)

Section Lemmas.
Context {K : Type} (cmp : K -> K -> Z) `{!KeyOrder cmp}.
Implicit Types (p : BPlusTreeInternalPage K).

Lemma internal_entries_length p : wf p -> length (entries p) = Z.to_nat (GetSize p).
Proof.
  intros H. destruct (i_size _ H). pose proof (i_cap _ H). unfold entries.
  rewrite length_take. lia.
Qed.

Lemma internal_entry_cell p i x :
  entries p !! i = Some x -> array p !! i = Some x /\ (i < Z.to_nat (GetSize p))%nat.
Proof. unfold entries. intros Hi. apply lookup_take_Some in Hi. tauto. Qed.

Lemma internal_cell_entry p i x : entries p !! i = Some x -> cell (array p) (Z.of_nat i) = Ok x.
Proof. intros Hi. apply cell_ok. by apply internal_entry_cell. Qed.

Lemma internal_frame_intro p a n :
  wf p -> length a = length (array p) -> 0 <= size_ (hdr p) + n <= GetMaxSize p ->
  let p' := mkInternal (IncreaseSize n (hdr p)) a in
  same_frame p p' /\ GetSize p' = GetSize p + n /\ entries p' = take (Z.to_nat (GetSize p + n)) a.
Proof.
  intros H Hlen Hn p'. pose proof (i_max _ H) as Hmax. pose proof (i_cap _ H) as Hcap.
  assert (Hs : GetSize p' = GetSize p + n).
  { unfold GetSize, p'. simpl. apply swrap_id; [lia|]. unfold in_sint. lia. }
  split; [|split; [done|]].
  - split; [|done]. split; [rewrite Hs; exact Hn|simpl; rewrite Hlen; exact Hcap|exact Hmax].
  - unfold entries. by rewrite Hs.
Qed.

Lemma value_index_ok p v :
  wf p -> ValueIndex v p =
          Ok (from_option Z.of_nat (-1) (first_index (fun x => x.2 =? v) (entries p))).
Proof.
  intros H. destruct (i_size _ H). pose proof (i_cap _ H). unfold ValueIndex.
  change 0 with (Z.of_nat 0). rewrite scan_spec, drop_0, bind_ok by lia.
  unfold entries. by destruct (first_index _ _).
Qed.

(** The position [Lookup] reads: the last cell whose key is not above the key. *)
Definition child_index (k : K) (es : list (K * Z)) : nat :=
  match first_index (fun x => cmp k x.1 <? 0) (drop 1 es) with
  | Some j => j
  | None => (length es - 1)%nat
  end.

Lemma internal_lookup_ok p k :
  wf p -> 1 <= GetSize p ->
  exists x, entries p !! child_index k (entries p) = Some x /\ Lookup cmp k p = Ok x.2.
Proof.
  intros H H1. destruct (i_size _ H). pose proof (i_cap _ H) as Hcap.
  pose proof (internal_entries_length _ H) as Hl.
  assert (Hscan : scan (fun x => cmp k x.1 <? 0) (array p) 1 (Z.to_nat (GetSize p - 1)) =
    Ok ((fun j => Z.of_nat (1 + j)) <$> first_index (fun x => cmp k x.1 <? 0) (drop 1 (entries p)))).
  { change 1 with (Z.of_nat 1) at 1. rewrite scan_spec by lia. unfold entries.
    rewrite skipn_firstn_comm. do 4 f_equal. lia. }
  assert (Hlt : (child_index k (entries p) < length (entries p))%nat).
  { unfold child_index. destruct (first_index _ _) as [j|] eqn:Ej; [|lia].
    apply first_index_Some in Ej as (x & Hx & _). apply lookup_lt_Some in Hx.
    rewrite length_drop in Hx. lia. }
  destruct (lookup_lt_is_Some_2 _ _ Hlt) as [x Hx]. exists x. split; [done|].
  unfold Lookup. rewrite Hscan, bind_ok.
  assert (Hi : default (GetSize p) ((fun j => Z.of_nat (1 + j)) <$>
                 first_index (fun x => cmp k x.1 <? 0) (drop 1 (entries p))) - 1 =
               Z.of_nat (child_index k (entries p))).
  { unfold child_index. destruct (first_index _ _); simpl; lia. }
  rewrite Hi, (internal_cell_entry _ _ _ Hx). done.
Qed.

Lemma insert_after_ok p old k v i :
  wf p -> GetSize p < GetMaxSize p ->
  first_index (fun x => x.2 =? old) (entries p) = Some i ->
  exists p', InsertNodeAfter old k v p = Ok (GetSize p', p') /\ same_frame p p' /\
    entries p' = take (S i) (entries p) ++ (k, v) :: drop (S i) (entries p).
Proof.
  intros H Hroom Hi. pose proof (i_size _ H). pose proof (i_cap _ H).
  unfold InsertNodeAfter. rewrite assert_ok by (by apply Z.ltb_lt).
  rewrite (value_index_ok _ _ H), bind_ok, Hi. cbn [from_option].
  rewrite assert_ok by (apply negb_true_iff, Z.eqb_neq; lia).
  apply first_index_Some in Hi as (x & Hx & _). destruct (internal_entry_cell _ _ _ Hx) as [_ Hlt].
  destruct (shift_right (array p) (Z.to_nat (GetSize p)) (S i) (k, v)) as (b & Hb & Hbl & Hbe);
    [lia|lia|].
  replace (Z.of_nat (S i) + 1) with (Z.of_nat i + 2) in Hb by lia.
  replace (Z.of_nat (Z.to_nat (GetSize p)) - Z.of_nat (S i)) with (GetSize p - Z.of_nat i - 1)
    in Hb by lia.
  replace (Z.of_nat (S i)) with (Z.of_nat i + 1) in Hb by lia.
  rewrite Hb, bind_ok, set_cell_ok by lia. rewrite bind_ok. eexists. split; [done|].
  replace (Z.to_nat (Z.of_nat i + 1)) with (S i) by lia.
  destruct (internal_frame_intro p (<[S i := (k, v)]> b) 1 H) as (Hf & _ & He).
  { by rewrite length_insert. }
  { unfold GetSize in *. lia. }
  split; [done|]. rewrite He. replace (Z.to_nat (GetSize p + 1)) with (S (Z.to_nat (GetSize p))) by lia.
  rewrite Hbe. unfold entries. by rewrite take_take, Nat.min_l by lia.
Qed.

Lemma internal_remove_ok p i x :
  wf p -> entries p !! i = Some x ->
  exists p', Remove (Z.of_nat i) p = Ok p' /\ same_frame p p' /\ entries p' = delete i (entries p).
Proof.
  intros H Hx. pose proof (i_size _ H). pose proof (i_cap _ H).
  destruct (internal_entry_cell _ _ _ Hx) as [_ Hlt]. unfold Remove.
  destruct (shift_left (array p) (Z.to_nat (GetSize p)) i) as (b & Hb & Hbl & Hbe); [lia|lia|].
  rewrite Z2Nat.id in Hb by lia. rewrite Hb, bind_ok. eexists. split; [done|].
  destruct (internal_frame_intro p b (-1) H Hbl) as (Hf & _ & He); [unfold GetSize in *; lia|].
  split; [done|]. rewrite He.
  change (entries p) with (take (Z.to_nat (GetSize p)) (array p)). rewrite <- Hbe. f_equal. lia.
Qed.

Lemma internal_append_ok p items :
  wf p -> GetSize p + Z.of_nat (length items) <= GetMaxSize p ->
  exists p', copy_all items p = Ok p' /\ same_frame p p' /\ entries p' = entries p ++ items.
Proof.
  intros H Hroom. pose proof (i_size _ H). pose proof (i_cap _ H). unfold copy_all.
  rewrite memwrite_ok by lia. rewrite bind_ok. eexists. split; [done|].
  destruct (internal_frame_intro p (splice (GetSize p) items (array p)) (Z.of_nat (length items)) H)
    as (Hf & Hs & He).
  { apply length_splice; lia. }
  { unfold GetSize in *. lia. }
  split; [done|]. rewrite He. unfold splice, entries.
  rewrite app_assoc, take_app_length'; [done|]. rewrite length_app, length_take. lia.
Qed.

Lemma internal_copy_half_ok p items :
  wf p -> GetSize p = 0 -> Z.of_nat (length items) <= GetMaxSize p ->
  exists p', copy_half items p = Ok p' /\ same_frame p p' /\ entries p' = items.
Proof.
  intros H H0 Hroom. destruct (internal_append_ok p items H) as (p' & Hp & Hf & He); [lia|].
  unfold copy_all in Hp. rewrite H0 in Hp. exists p'. split; [exact Hp|]. split; [done|].
  rewrite He. unfold entries. by rewrite H0.
Qed.

Lemma internal_set_size_ok p n :
  wf p -> 0 <= n <= GetSize p ->
  same_frame p (set_hdr p (SetSize n (hdr p))) /\
  entries (set_hdr p (SetSize n (hdr p))) = take (Z.to_nat n) (entries p).
Proof.
  intros H Hn. pose proof (i_size _ H). split.
  - split; [|done]. split; simpl; [|apply H..]. unfold GetSize, GetMaxSize in *. simpl. lia.
  - unfold entries, GetSize. simpl. unfold GetSize in Hn. rewrite take_take. f_equal. lia.
Qed.

Lemma internal_read_cells p i n :
  wf p -> 0 <= i -> 0 <= n -> i + n <= GetSize p ->
  memread (array p) i n = Ok (take (Z.to_nat n) (drop (Z.to_nat i) (entries p))).
Proof.
  intros H Hi Hn Hin. pose proof (i_size _ H). pose proof (i_cap _ H).
  rewrite memread_ok by lia. unfold slice, entries. f_equal.
  rewrite <- (take_drop (Z.to_nat (GetSize p)) (array p)) at 1.
  rewrite drop_app_le by (rewrite length_take; lia).
  rewrite take_app_le; [done|]. rewrite length_drop, length_take. lia.
Qed.

Lemma internal_key_at_ok p i x : wf p -> entries p !! i = Some x -> KeyAt (Z.of_nat i) p = Ok x.1.
Proof.
  intros H Hi. destruct (internal_entry_cell _ _ _ Hi) as [Hc Hlt]. pose proof (i_size _ H). unfold KeyAt.
  rewrite assert_ok by (apply andb_true_iff; split; [apply Z.leb_le|apply Z.ltb_lt]; lia).
  by rewrite (cell_ok _ _ _ Hc).
Qed.

Lemma internal_value_at_ok p i x : wf p -> entries p !! i = Some x -> ValueAt (Z.of_nat i) p = Ok x.2.
Proof.
  intros H Hi. destruct (internal_entry_cell _ _ _ Hi) as [Hc Hlt]. pose proof (i_size _ H). unfold ValueAt.
  rewrite assert_ok by (apply andb_true_iff; split; [apply Z.leb_le|apply Z.ltb_lt]; lia).
  by rewrite (cell_ok _ _ _ Hc).
Qed.

Lemma internal_put_key_ok p i k x :
  wf p -> entries p !! i = Some x ->
  exists p', put_key (Z.of_nat i) k p = Ok p' /\ same_frame p p' /\ GetSize p' = GetSize p /\
             entries p' = <[i := (k, x.2)]> (entries p).
Proof.
  intros H Hi. destruct (internal_entry_cell _ _ _ Hi) as [Hc Hlt]. pose proof (i_size _ H). pose proof (i_cap _ H).
  unfold put_key. rewrite (cell_ok _ _ _ Hc), bind_ok, set_cell_ok, bind_ok, Nat2Z.id by lia.
  eexists. split; [done|]. split; [|split; [done|]].
  - split; [|done]. split; simpl; [apply H|by rewrite length_insert|apply H].
  - unfold entries, GetSize in *. simpl. by rewrite take_insert_lt by lia.
Qed.

Lemma internal_set_key_ok p i k x :
  wf p -> entries p !! i = Some x -> (0 < i)%nat ->
  exists p', SetKeyAt (Z.of_nat i) k p = Ok p' /\ same_frame p p' /\
             entries p' = <[i := (k, x.2)]> (entries p).
Proof.
  intros H Hi H0. destruct (internal_put_key_ok p i k x H Hi) as (p' & Hp & Hf & _ & He).
  exists p'. split; [|done]. destruct (internal_entry_cell _ _ _ Hi) as [_ Hlt]. pose proof (i_size _ H).
  unfold SetKeyAt. by rewrite assert_ok by (apply andb_true_iff; split; apply Z.ltb_lt; lia).
Qed.

Lemma internal_copy_last_ok p x :
  wf p -> GetSize p < GetMaxSize p ->
  exists p', copy_last x p = Ok p' /\ same_frame p p' /\ entries p' = entries p ++ [x].
Proof.
  intros H Hroom. pose proof (i_size _ H). pose proof (i_cap _ H).
  unfold copy_last. rewrite set_cell_ok, bind_ok by lia. eexists. split; [done|].
  destruct (internal_frame_intro p (<[Z.to_nat (GetSize p) := x]> (array p)) 1 H) as (Hf & _ & He).
  { by rewrite length_insert. }
  { unfold GetSize in *. lia. }
  split; [done|]. rewrite He. replace (Z.to_nat (GetSize p + 1)) with (S (Z.to_nat (GetSize p))) by lia.
  apply take_S_insert. lia.
Qed.

Lemma internal_drop_last_ok p l x :
  wf p -> entries p = l ++ [x] ->
  let p' := set_hdr p (IncreaseSize (-1) (hdr p)) in same_frame p p' /\ entries p' = l.
Proof.
  intros H He p'. pose proof (i_size _ H) as Hs. pose proof (internal_entries_length _ H) as Hl.
  rewrite He, length_app in Hl. cbn [length] in Hl.
  destruct (internal_frame_intro p (array p) (-1) H eq_refl) as (Hf & _ & Hp); [unfold GetSize in *; lia|].
  split; [done|]. etrans; [exact Hp|]. replace (Z.to_nat (GetSize p + -1)) with (length l) by lia.
  transitivity (take (length l) (entries p)); [|by rewrite He, take_app_length].
  unfold entries. rewrite take_take. f_equal. lia.
Qed.

(** The pair's key becomes that of the former first cell; the key of the cell 0 is not
    one. *)
Lemma internal_copy_first_ok p x y l :
  wf p -> GetSize p < GetMaxSize p -> entries p = y :: l ->
  exists p' j, copy_first x p = Ok p' /\ same_frame p p' /\ entries p' = (j, x.2) :: (x.1, y.2) :: l.
Proof.
  intros H Hroom Hy. pose proof (i_size _ H). pose proof (i_cap _ H).
  pose proof (internal_entries_length _ H) as Hl. rewrite Hy in Hl. simpl in Hl.
  destruct (shift_right (array p) (Z.to_nat (GetSize p)) 0 x) as (b & Hb & Hbl & Hbe); [lia|lia|].
  change (Z.of_nat 0) with 0 in Hb. rewrite Z.add_0_l, Z2Nat.id, Z.sub_0_r in Hb by lia.
  rewrite take_0, drop_0 in Hbe. fold (entries p) in Hbe. rewrite Hy in Hbe.
  destruct b as [|b0 b]; [simpl in Hbl; lia|]. simpl in Hbe. injection Hbe as Hbe.
  destruct b as [|b1 b]; [by rewrite take_nil in Hbe|].
  destruct (Z.to_nat (GetSize p)) as [|n] eqn:En; [done|]. simpl in Hbe. injection Hbe as -> Hbe.
  unfold copy_first. rewrite Hb, bind_ok. change 1 with (Z.of_nat 1) at 1 2. change 0 with (Z.of_nat 0).
  rewrite (cell_ok (b0 :: y :: b) 1 y eq_refl), bind_ok.
  assert (E1 : set_cell (b0 :: y :: b) (Z.of_nat 1) (x.1, y.2) = Ok (b0 :: (x.1, y.2) :: b))
    by (rewrite set_cell_ok by (simpl; lia); done).
  rewrite E1, bind_ok, (cell_ok (b0 :: (x.1, y.2) :: b) 0 b0 eq_refl), bind_ok.
  assert (E0 : set_cell (b0 :: (x.1, y.2) :: b) (Z.of_nat 0) (b0.1, x.2) = Ok ((b0.1, x.2) :: (x.1, y.2) :: b))
    by (rewrite set_cell_ok by (simpl; lia); done).
  rewrite E0, bind_ok.
  eexists _, b0.1. split; [done|].
  destruct (internal_frame_intro p ((b0.1, x.2) :: (x.1, y.2) :: b) 1 H) as (Hf & _ & He).
  { done. } { unfold GetSize in *. lia. }
  split; [exact Hf|]. etrans; [exact He|]. replace (Z.to_nat (GetSize p + 1)) with (S (S n)) by lia.
  simpl. by rewrite Hbe.
Qed.

(** ** Separators: the keys of the cells after the first are strictly increasing. *)

Definition separators (p : BPlusTreeInternalPage K) : list (K * Z) := drop 1 (entries p).

Lemma first_above k (l : list (K * Z)) j x :
  sorted cmp l -> first_index (fun x => cmp k x.1 <? 0) l = Some j -> l !! j = Some x ->
  cmp k x.1 < 0 /\ forall i y, l !! i = Some y -> (i < j)%nat -> cmp y.1 k <= 0.
Proof.
  intros Hs Hj Hx. apply first_index_Some in Hj as (x' & Hx' & HP & Hn).
  assert (x' = x) as -> by congruence. zify_bool. split; [done|].
  intros i y Hy Hlt. specialize (Hn i y Hy Hlt). zify_bool.
  pose proof (ko_antisym (cmp := cmp) y.1 k). pose proof (ko_antisym (cmp := cmp) k y.1). lia.
Qed.

(** The cells around the one [Lookup] reads. *)
Lemma child_index_bounds k (es : list (K * Z)) :
  sorted cmp (drop 1 es) ->
  (forall j y, (1 <= j <= child_index k es)%nat -> es !! j = Some y -> cmp y.1 k <= 0) /\
  (forall j y, (child_index k es < j)%nat -> es !! j = Some y -> cmp k y.1 < 0).
Proof.
  intros Hs. unfold child_index.
  assert (Hsep : forall j y, (1 <= j)%nat -> es !! j = Some y -> drop 1 es !! (j - 1)%nat = Some y).
  { intros j y Hj Hy. rewrite lookup_drop. by replace (1 + (j - 1))%nat with j by lia. }
  destruct (first_index _ (drop 1 es)) as [m|] eqn:Em.
  - pose proof Em as (z & Hz & _)%first_index_Some.
    destruct (first_above k _ _ _ Hs Em Hz) as [Hlt Hle]. split.
    + intros j y Hj Hy. apply (Hle (j - 1)%nat); [apply Hsep; [lia|done]|lia].
    + intros j y Hj Hy. pose proof (Hsep j y ltac:(lia) Hy) as Hy'.
      destruct (decide (j - 1 = m)%nat) as [E|Hne].
      { rewrite E in Hy'. assert (z = y) as <- by congruence. done. }
      apply (cmp_lt_le_trans cmp k z.1); [done|].
      assert (Hord : cmp z.1 y.1 < 0); [|lia].
      rewrite <- (take_drop (S m) (drop 1 es)) in Hs. apply sorted_app in Hs as (_ & _ & Hs).
      apply Hs.
      * apply list_elem_of_lookup. exists m. by rewrite lookup_take_lt by lia.
      * apply list_elem_of_lookup. exists (j - 1 - S m)%nat. rewrite lookup_drop.
        rewrite <- Hy'. f_equal. lia.
  - assert (Hall := proj1 (first_index_None _ _) Em). split.
    + intros j y Hj Hy. pose proof (Hsep j y ltac:(lia) Hy) as Hy'.
      specialize (Hall y (list_elem_of_lookup_2 _ _ _ Hy')). simpl in Hall. zify_bool.
      pose proof (ko_antisym (cmp := cmp) k y.1). pose proof (ko_antisym (cmp := cmp) y.1 k). lia.
    + intros j y Hj Hy. apply lookup_lt_Some in Hy. lia.
Qed.

(** ** Properties *)

(** On an internal page with increasing separators, [Lookup] returns the child of
    the cell whose separator is the last one not above the key: the separators up to
    it are at most the key, and the next one is above it. *)
Theorem internal_lookup_correct (p : BPlusTreeInternalPage K) (k : K)
    (H : wf p) (H1 : 1 <= GetSize p) (Hs : sorted cmp (separators p)) :
  exists i x, entries p !! i = Some x /\ Lookup cmp k p = Ok x.2 /\
    (forall j y, (1 <= j <= i)%nat -> entries p !! j = Some y -> cmp y.1 k <= 0) /\
    (forall j y, (i < j)%nat -> entries p !! j = Some y -> cmp k y.1 < 0).
Proof.
  destruct (internal_lookup_ok p k H H1) as (x & Hx & Hl). exists (child_index k (entries p)), x.
  split; [done|]. split; [done|]. exact (child_index_bounds k (entries p) Hs).
Qed.

(** [InsertNodeAfter] puts the new cell right after the one of the old child and
    keeps every other cell; the separators stay increasing when the new key lies between
    its neighbours; [Remove] takes out exactly one cell. *)
Theorem internal_insert_remove (p : BPlusTreeInternalPage K) (old v : Z) (k : K) (i : nat)
    (H : wf p) (Hroom : GetSize p < GetMaxSize p)
    (Hi : first_index (fun x => x.2 =? old) (entries p) = Some i)
    (Hs : sorted cmp (separators p))
    (Hlo : forall y, y ∈ take i (separators p) -> cmp y.1 k < 0)
    (Hhi : forall y, y ∈ drop i (separators p) -> cmp k y.1 < 0) :
  exists p' p'', InsertNodeAfter old k v p = Ok (GetSize p', p') /\ same_frame p p' /\
    entries p' = take (S i) (entries p) ++ (k, v) :: drop (S i) (entries p) /\
    sorted cmp (separators p') /\
    Remove (Z.of_nat (S i)) p' = Ok p'' /\ entries p'' = entries p.
Proof.
  destruct (insert_after_ok p old k v i H Hroom Hi) as (p' & Hins & Hf & He).
  apply first_index_Some in Hi as (x & Hx & _). apply lookup_lt_Some in Hx.
  assert (Hnew : entries p' !! S i = Some (k, v)).
  { rewrite He, lookup_app_r by (rewrite length_take; lia).
    rewrite length_take, Nat.min_l, Nat.sub_diag by lia. done. }
  destruct (internal_remove_ok p' (S i) (k, v)) as (p'' & Hrem & _ & He''); [apply Hf|done|].
  exists p', p''. split; [done|]. split; [done|]. split; [done|]. split; [|split; [done|]].
  - unfold separators in *. rewrite He.
    destruct (entries p) as [|e es]; [done|]. cbn [take drop app] in *.
    rewrite <- (take_drop i es) in Hs. apply sorted_app in Hs as (H1 & H2 & H3).
    apply sorted_app. split; [done|]. split; [by apply sorted_cons|].
    intros a b Ha [->|Hb]%elem_of_cons; [by apply Hlo|by apply H3].
  - rewrite He'', He. assert (Hlen : length (take (S i) (entries p)) = S i) by (rewrite length_take; lia).
    rewrite <- Hlen at 1. rewrite delete_middle. apply take_drop.
Qed.
End Lemmas.

(** ** Witnesses *)

(** Children 11, 12, 13 with separators 20 and 40. *)
Definition sample_internal : BPlusTreeInternalPage Z :=
  mkInternal (mkHdr INTERNAL_PAGE 0 3 5 INVALID_PAGE_ID 2)
             [(0, 11); (20, 12); (40, 13); (0, 0); (0, 0)].

Lemma sample_wf : wf sample_internal.
Proof. split; unfold GetSize, GetMaxSize; simpl; lia. Qed.

Lemma sample_sorted : sorted Z.sub (separators sample_internal).
Proof. vm_compute. repeat constructor. Qed.

Lemma internal_lookup_correct_witness :
  exists i x, entries sample_internal !! i = Some x /\ Lookup Z.sub 30 sample_internal = Ok x.2 /\
              Lookup Z.sub 30 sample_internal = Ok 12.
Proof.
  destruct (internal_lookup_correct Z.sub sample_internal 30 sample_wf) as (i & x & Hx & Hl & _).
  - vm_compute. discriminate.
  - exact sample_sorted.
  - exists i, x. split; [exact Hx|]. split; [exact Hl|]. reflexivity.
Defined.

Lemma internal_insert_remove_witness :
  exists p' p'', InsertNodeAfter 12 30 17 sample_internal = Ok (GetSize p', p') /\
    entries p' = [(0, 11); (20, 12); (30, 17); (40, 13)] /\
    Remove 2 p' = Ok p'' /\ entries p'' = entries sample_internal.
Proof.
  destruct (internal_insert_remove Z.sub sample_internal 12 17 30 1 sample_wf)
    as (p' & p'' & Hi & _ & He & _ & Hr & He').
  - reflexivity.
  - reflexivity.
  - exact sample_sorted.
  - simpl. intros y ->%list_elem_of_singleton. reflexivity.
  - simpl. intros y ->%list_elem_of_singleton. reflexivity.
  - exists p', p''. split; [exact Hi|]. split; [exact He|]. split; [exact Hr|exact He'].
Defined.
End Internal.
