(* ===== verification/LockManager.v ===== *)
(** * The lock manager (src/src/concurrency/lock_manager.cpp, transaction.h)

    Tuple locks with wait-die.  A transaction is identified with its id; its thread
    is either running or blocked on the promise of one entry of a lock list.  A lock
    call that must wait is two steps: the part under the latch, which appends an entry
    with a pending promise, and the part after [get()], which runs once another
    transaction has set the promise.  The latch makes each part atomic. *)

From stdpp Require Import prelude gmap list sorting strings.
From Stdlib Require Import ZArith Lia.
From S2P Require Import Prelude Rid.

Local Open Scope Z_scope.

Module Lock.
Import Rid.

(** ** State *)

Inductive TransactionState := GROWING | SHRINKING | COMMITTED | ABORTED.
Inductive LockType := EMPTY | SHARED | EXCLUSIVE | UPDATE | DELETE.

#[export] Instance TransactionState_eq_dec : EqDecision TransactionState.
Proof. solve_decision. Defined.
#[export] Instance LockType_eq_dec : EqDecision LockType.
Proof. solve_decision. Defined.

(** [std::unique_ptr<std::promise<bool>>]: null, not set yet, or set. *)
Inductive Promise := NoPromise | Pending | Fulfilled (b : bool).
#[export] Instance Promise_eq_dec : EqDecision Promise.
Proof. solve_decision. Defined.

Record TransactionInfo := mkInfo {
  txn_ : Z;
  grated_ : bool;
  lock_type_ : LockType;
  promise_ : Promise
}.

Record LockList := mkLockList {
  lock_list_ : list TransactionInfo;
  list_lock_type_ : LockType;
  list_grant_cnt_ : Z
}.

Record Transaction := mkTxn {
  state_ : TransactionState;
  shared_lock_set_ : gset RID;
  exclusive_lock_set_ : gset RID
}.

Record LockManager := mkLM {
  strict_2PL_ : bool;
  lock_table_ : gmap RID LockList;
  txns : gmap Z Transaction
}.

Definition new_list : LockList := mkLockList [] EMPTY 0.
Definition new_txn : Transaction := mkTxn GROWING ∅ ∅.
Definition create (strict_2PL : bool) : LockManager := mkLM strict_2PL ∅ ∅.

Definition set_type (t : LockType) (e : TransactionInfo) : TransactionInfo :=
  mkInfo (txn_ e) (grated_ e) t (promise_ e).
Definition set_granted (e : TransactionInfo) : TransactionInfo :=
  mkInfo (txn_ e) true (lock_type_ e) (promise_ e).
Definition set_promise (p : Promise) (e : TransactionInfo) : TransactionInfo :=
  mkInfo (txn_ e) (grated_ e) (lock_type_ e) p.

Definition get_txn (t : Z) (s : LockManager) : result Transaction :=
  from_option_r MemFault (txns s !! t).
Definition put_txn (t : Z) (x : Transaction) (s : LockManager) : LockManager :=
  mkLM (strict_2PL_ s) (lock_table_ s) (<[t := x]> (txns s)).
Definition put_list (rid : RID) (ll : LockList) (s : LockManager) : LockManager :=
  mkLM (strict_2PL_ s) (<[rid := ll]> (lock_table_ s)) (txns s).

Definition SetState (st : TransactionState) (x : Transaction) : Transaction :=
  mkTxn st (shared_lock_set_ x) (exclusive_lock_set_ x).
Definition add_shared (rid : RID) (x : Transaction) : Transaction :=
  mkTxn (state_ x) ({[rid]} ∪ shared_lock_set_ x) (exclusive_lock_set_ x).
Definition add_exclusive (rid : RID) (x : Transaction) : Transaction :=
  mkTxn (state_ x) (shared_lock_set_ x) ({[rid]} ∪ exclusive_lock_set_ x).
Definition drop_shared (rid : RID) (x : Transaction) : Transaction :=
  mkTxn (state_ x) (shared_lock_set_ x ∖ {[rid]}) (exclusive_lock_set_ x).

(** ** Lock *)

(** What a lock call does under the latch: return, or block on its new entry. *)
Inductive outcome := Returned (b : bool) | Waits.

Definition push (e : TransactionInfo) (ll : LockList) : LockList :=
  mkLockList (lock_list_ ll ++ [e]) (list_lock_type_ ll) (list_grant_cnt_ ll).
(** A granted entry at the end of the list, the list being of type [ty]. *)
Definition push_granted (t : Z) (ty : LockType) (ll : LockList) : LockList :=
  mkLockList (lock_list_ ll ++ [mkInfo t true ty NoPromise]) ty (list_grant_cnt_ ll + 1).

Definition CheckForWaitDie (t : Z) (rid : RID) (s : LockManager) : result bool :=
  let* ll := from_option_r MemFault (lock_table_ s !! rid) in
  Ok (forallb (fun e => negb (txn_ e <? t)) (lock_list_ ll)).

(** Wait with a request of type [ty], or die. *)
Definition wait_or_die (t : Z) (rid : RID) (ty : LockType) (x : Transaction) (ll : LockList)
    (s : LockManager) : result (outcome * LockManager) :=
  let* ok := CheckForWaitDie t rid s in
  if (ok : bool) then Ok (Waits, put_list rid (push (mkInfo t false ty Pending) ll) s)
  else Ok (Returned false, put_txn t (SetState ABORTED x) s).

Definition find_list (rid : RID) (s : LockManager) : LockList :=
  default new_list (lock_table_ s !! rid).

Definition LockShared (t : Z) (rid : RID) (s : LockManager) : result (outcome * LockManager) :=
  let* x := get_txn t s in
  assert! negb (bool_decide (state_ x = SHRINKING)) ;;
  if bool_decide (state_ x = ABORTED) then Ok (Returned false, s)
  else
    let ll := find_list rid s in
    match lock_list_ ll with
    | [] =>
        Ok (Returned true, put_txn t (add_shared rid x) (put_list rid (push_granted t SHARED ll) s))
    | head :: _ =>
        if bool_decide (list_lock_type_ ll = SHARED) then
          if from_option grated_ true (last (lock_list_ ll)) then
            Ok (Returned true,
                put_txn t (add_shared rid x) (put_list rid (push_granted t SHARED ll) s))
          else wait_or_die t rid SHARED x ll s
        else
          assert! grated_ head && bool_decide (lock_type_ head = EXCLUSIVE) ;;
          if txn_ head =? t then Ok (Returned true, s)
          else wait_or_die t rid SHARED x ll s
    end.

Definition LockExclusive (t : Z) (rid : RID) (s : LockManager) : result (outcome * LockManager) :=
  let* x := get_txn t s in
  assert! negb (bool_decide (state_ x = SHRINKING)) ;;
  if bool_decide (state_ x = ABORTED) then Ok (Returned false, s)
  else
    let ll := find_list rid s in
    match lock_list_ ll with
    | [] =>
        Ok (Returned true,
            put_txn t (add_exclusive rid x) (put_list rid (push_granted t EXCLUSIVE ll) s))
    | _ :: _ => wait_or_die t rid EXCLUSIVE x ll s
    end.

Definition LockUpgrade (t : Z) (rid : RID) (s : LockManager) : result (outcome * LockManager) :=
  let* x := get_txn t s in
  assert! negb (bool_decide (state_ x = SHRINKING)) ;;
  match lock_table_ s !! rid with
  | None => Fail AssertFail
  | Some ll =>
      match lock_list_ ll with
      | [] => Fail AssertFail
      | head :: rest =>
          if bool_decide (list_lock_type_ ll = SHARED) && (list_grant_cnt_ ll =? 1) then
            assert! txn_ head =? t ;;
            Ok (Returned true,
                put_txn t (add_exclusive rid (drop_shared rid x))
                  (put_list rid (mkLockList (set_type EXCLUSIVE head :: rest) EXCLUSIVE
                                            (list_grant_cnt_ ll)) s))
          else wait_or_die t rid EXCLUSIVE x ll s
      end
  end.

(** ** After the wait *)

(** The entry a blocked transaction waits on: its only one with a promise. *)
Definition awaited (t : Z) (e : TransactionInfo) : bool :=
  (txn_ e =? t) && negb (bool_decide (promise_ e = NoPromise)).

(** [get_future().get(); promise_ = nullptr]: returns when the promise is set. *)
Definition await (t : Z) (rid : RID) (s : LockManager) : result LockManager :=
  let ll := find_list rid s in
  match list_find (fun e => awaited t e = true) (lock_list_ ll) with
  | None => Fail AssertFail
  | Some (i, e) =>
      match promise_ e with
      | Fulfilled _ =>
          Ok (put_list rid (mkLockList (<[i := set_promise NoPromise e]> (lock_list_ ll))
                                       (list_lock_type_ ll) (list_grant_cnt_ ll)) s)
      | _ => Fail Blocked
      end
  end.

(** The end of the call, given how it updates the lock sets. *)
Definition finish (grant : RID -> Transaction -> Transaction) (t : Z) (rid : RID)
    (s : LockManager) : result (bool * LockManager) :=
  let* s := await t rid s in
  let* x := get_txn t s in
  if bool_decide (state_ x = ABORTED) then Ok (false, s)
  else Ok (true, put_txn t (grant rid x) s).

Definition LockShared_end : Z -> RID -> LockManager -> result (bool * LockManager) :=
  finish add_shared.
Definition LockExclusive_end : Z -> RID -> LockManager -> result (bool * LockManager) :=
  finish add_exclusive.
Definition LockUpgrade_end : Z -> RID -> LockManager -> result (bool * LockManager) :=
  finish (fun rid x => drop_shared rid (add_exclusive rid x)).

(** ** Unlock *)

(** [promise_->set_value(b)]. *)
Definition set_value (b : bool) (e : TransactionInfo) : result TransactionInfo :=
  match promise_ e with
  | NoPromise => Fail MemFault
  | Pending => Ok (set_promise (Fulfilled b) e)
  | Fulfilled _ => Fail (Throw "future_error"%string)
  end.

(** Grants the shared requests from position [j] on, up to the first other entry. *)
Fixpoint wake_shared (es : list TransactionInfo) : result (Z * list TransactionInfo) :=
  match es with
  | [] => Ok (0, [])
  | e :: es' =>
      if bool_decide (lock_type_ e = SHARED) then
        let* e := set_value true (set_granted e) in
        let* (n, es') := wake_shared es' in
        Ok (n + 1, e :: es')
      else Ok (0, es)
  end.

(** Grants the next request, and the shared ones after it when it is shared; an
    exclusive request of the same transaction right after it is its upgrade. *)
Definition wake_next (es : list TransactionInfo) (ty : LockType) (cnt : Z) :
    result (list TransactionInfo * LockType * Z) :=
  match es with
  | [] => Ok ([], ty, cnt)
  | next :: rest =>
      let* next := set_value true (set_granted next) in
      let ty := lock_type_ next in
      let cnt := cnt + 1 in
      if bool_decide (ty = SHARED) then
        match rest with
        | nextnext :: _ =>
            if bool_decide (lock_type_ nextnext = EXCLUSIVE) then
              if txn_ nextnext =? txn_ next then Ok (set_type DELETE next :: rest, EXCLUSIVE, cnt)
              else Ok (next :: rest, ty, cnt)
            else
              let* (n, rest) := wake_shared rest in
              Ok (next :: rest, ty, cnt + n)
        | [] => Ok ([next], ty, cnt)
        end
      else Ok (next :: rest, ty, cnt)
  end.

(** One granted shared entry is left: if the third entry of the list is the upgrade
    request of its transaction, it is granted. *)
Definition wake_upgrade (l : list TransactionInfo) (ty : LockType) :
    result (list TransactionInfo * LockType) :=
  if (length l <? 2)%nat then Fail MemFault
  else
    match l !! 2%nat with
    | Some next =>
        if bool_decide (lock_type_ next = EXCLUSIVE) then
          match list_find (fun e => (txn_ e =? txn_ next) && grated_ e
                                    && bool_decide (lock_type_ e = SHARED) = true) l with
          | Some (i, update) =>
              let l := <[i := set_type DELETE update]> l in
              let* next := set_value true (set_type EXCLUSIVE (set_granted next)) in
              Ok (<[2%nat := next]> l, EXCLUSIVE)
          | None => Ok (l, ty)
          end
        else Ok (l, ty)
    | None => Ok (l, ty)
    end.

(** The list once the entry at [i] is released. *)
Definition release (i : nat) (e : TransactionInfo) (ll : LockList) : result LockList :=
  let cnt := list_grant_cnt_ ll - 1 in
  let l := <[i := set_type DELETE e]> (lock_list_ ll) in
  let ty := list_lock_type_ ll in
  let wake :=
    let* (es, ty, cnt) := wake_next (drop (S i) l) ty cnt in
    Ok (mkLockList (take (S i) l ++ es) ty cnt) in
  match lock_type_ e with
  | EXCLUSIVE => assert! cnt =? 0 ;; wake
  | SHARED =>
      if cnt =? 0 then wake
      else if cnt =? 1 then
        let* (l, ty) := wake_upgrade l ty in Ok (mkLockList l ty cnt)
      else Ok (mkLockList l ty cnt)
  | _ => Ok (mkLockList l ty cnt)
  end.

Definition sweep (ll : LockList) : LockList :=
  mkLockList (filter (fun e => lock_type_ e <> DELETE) (lock_list_ ll))
             (list_lock_type_ ll) (list_grant_cnt_ ll).

Definition Unlock (t : Z) (rid : RID) (s : LockManager) : result (bool * LockManager) :=
  let* x := get_txn t s in
  assert! negb (strict_2PL_ s) ||
          (bool_decide (state_ x = COMMITTED) || negb (bool_decide (state_ x = ABORTED))) ;;
  let x := if negb (strict_2PL_ s) && bool_decide (state_ x = GROWING)
           then SetState SHRINKING x else x in
  match lock_table_ s !! rid with
  | None => Fail AssertFail
  | Some ll =>
      match list_find (fun e => grated_ e && (txn_ e =? t) = true) (lock_list_ ll) with
      | None => Fail AssertFail
      | Some (i, e) =>
          if negb (grated_ e) then
            assert! bool_decide (state_ x = ABORTED) ;;
            let* _ := set_value false e in
            Ok (true, put_txn t x
                        (put_list rid (mkLockList (delete i (lock_list_ ll))
                                         (list_lock_type_ ll) (list_grant_cnt_ ll)) s))
          else
            let* ll := release i e ll in
            Ok (true, put_txn t x (put_list rid (sweep ll) s))
      end
  end.

(** ** Test-only observations *)

Definition IsClean (s : LockManager) : bool :=
  bool_decide (map_Forall (fun _ ll => lock_list_ ll = []) (lock_table_ s)).
Definition IsClean_txn (t : Z) (s : LockManager) : bool :=
  bool_decide (map_Forall (fun _ ll => Forall (fun e => txn_ e <> t) (lock_list_ ll))
                          (lock_table_ s)).

(** ** The invariant of a lock list *)

(** Entries that a thread waits on or is about to wake up from. *)
Definition waiting (l : list TransactionInfo) : list (Z * LockType) :=
  (fun e => (txn_ e, lock_type_ e)) <$> filter (fun e => promise_ e <> NoPromise) l.

Definition holder_ok (ty : LockType) (e : TransactionInfo) : Prop :=
  grated_ e = true /\ promise_ e <> Pending /\ lock_type_ e = ty.
Definition woken (ty : LockType) (e : TransactionInfo) : Prop :=
  grated_ e = true /\ promise_ e = Fulfilled true /\ lock_type_ e = ty.
Definition waiter_ok (e : TransactionInfo) : Prop :=
  grated_ e = false /\ promise_ e = Pending /\
  (lock_type_ e = SHARED \/ lock_type_ e = EXCLUSIVE).

(** [w] asks to upgrade the shared lock [e] of the same transaction. *)
Definition upgrades (G : list TransactionInfo) (e w : TransactionInfo) : Prop :=
  txn_ w = txn_ e /\ lock_type_ e = SHARED /\ promise_ e = NoPromise /\
  lock_type_ w = EXCLUSIVE /\ (2 <= length G)%nat.

(** The holders, then the waiters, each older (of smaller id) than all before it. *)
Record list_ok (ll : LockList) (G W : list TransactionInfo) : Prop := {
  lo_split : lock_list_ ll = G ++ W;
  lo_cnt : list_grant_cnt_ ll = Z.of_nat (length G);
  lo_mode : list_lock_type_ ll = SHARED \/
            (list_lock_type_ ll = EXCLUSIVE /\ (length G <= 1)%nat) \/ G = [];
  lo_holders : Forall (holder_ok (list_lock_type_ ll)) G;
  lo_nodup : NoDup (txn_ <$> G);
  lo_waiters : Forall waiter_ok W;
  lo_sorted : StronglySorted Z.gt (txn_ <$> W);
  lo_older e w : e ∈ G -> w ∈ W -> txn_ w < txn_ e \/ upgrades G e w;
  lo_awake : W <> [] -> G <> []
}.

Lemma set_value_ok b e :
  promise_ e = Pending -> set_value b e = Ok (set_promise (Fulfilled b) e).
Proof. unfold set_value. by intros ->. Qed.

Lemma waiting_app l1 l2 : waiting (l1 ++ l2) = waiting l1 ++ waiting l2.
Proof. unfold waiting. by rewrite filter_app, fmap_app. Qed.

Lemma waiting_cons e l :
  waiting (e :: l) =
  (if decide (promise_ e = NoPromise) then [] else [(txn_ e, lock_type_ e)]) ++ waiting l.
Proof.
  unfold waiting. rewrite filter_cons. by destruct (decide (promise_ e = NoPromise)), (decide (promise_ e <> NoPromise)).
Qed.

Lemma elem_of_waiting t ty l :
  (t, ty) ∈ waiting l <->
  exists e, e ∈ l /\ txn_ e = t /\ lock_type_ e = ty /\ promise_ e <> NoPromise.
Proof.
  unfold waiting. rewrite list_elem_of_fmap. split.
  - intros (e & [= -> ->] & [Hp He]%list_elem_of_filter). by exists e.
  - intros (e & He & <- & <- & Hp). exists e. by rewrite list_elem_of_filter.
Qed.

(** A request granted at once. *)
Lemma push_granted_ok t ty ll G :
  ty = SHARED \/ (ty = EXCLUSIVE /\ G = []) -> list_ok ll G [] ->
  (G <> [] -> list_lock_type_ ll = ty) -> (t ∉ txn_ <$> G) ->
  list_ok (push_granted t ty ll) (G ++ [mkInfo t true ty NoPromise]) [].
Proof.
  intros Hty H Hm Ht. destruct H. split; simpl; try done.
  - by rewrite lo_split0, !app_nil_r.
  - rewrite lo_cnt0, length_app. simpl. lia.
  - destruct Hty as [->|[-> ->]]; [by left|right; left; simpl; split; [done|lia]].
  - apply Forall_app. split; [|by repeat constructor].
    destruct G as [|g G]; [constructor|]. by rewrite <- Hm.
  - rewrite fmap_app. apply NoDup_app. split; [done|]. split; [|apply NoDup_singleton].
    by intros x Hx ->%list_elem_of_singleton.
  - set_solver.
Qed.

(** A request that waits. *)
Lemma push_wait_ok t ty ll G W :
  list_ok ll G W -> G <> [] -> ty = SHARED \/ ty = EXCLUSIVE ->
  Forall (fun e => t <= txn_ e) (lock_list_ ll) -> (t ∉ txn_ <$> W) ->
  (forall e, e ∈ G -> txn_ e = t -> upgrades G e (mkInfo t false ty Pending)) ->
  list_ok (push (mkInfo t false ty Pending) ll) G (W ++ [mkInfo t false ty Pending]).
Proof.
  intros H HG Hty Hle Ht Hup. destruct H. rewrite lo_split0 in Hle.
  apply Forall_app in Hle as [HleG HleW]. rewrite Forall_forall in HleG, HleW.
  split; simpl; try done.
  - by rewrite lo_split0, app_assoc.
  - apply Forall_app. split; [done|]. by apply Forall_singleton.
  - rewrite fmap_app. apply StronglySorted_app. split; [|split; [done|repeat constructor]].
    intros x ? (w & -> & Hw)%list_elem_of_fmap ->%list_elem_of_singleton. simpl.
    specialize (HleW w Hw). assert (txn_ w <> t); [|lia].
    intros <-. apply Ht. by apply list_elem_of_fmap_2.
  - intros e w He [Hw | ->%list_elem_of_singleton]%elem_of_app; [by apply lo_older0|].
    destruct (decide (txn_ e = t)); [right; by apply Hup|left]. simpl. specialize (HleG e He). lia.
Qed.

(** The only holder of a shared list upgrades at once. *)
Lemma upgrade_now_ok e ll W :
  list_ok ll [e] W -> promise_ e = NoPromise ->
  list_ok (mkLockList (set_type EXCLUSIVE e :: W) EXCLUSIVE 1) [set_type EXCLUSIVE e] W.
Proof.
  intros H Hp. destruct H. apply Forall_cons in lo_holders0 as [(Hg & _ & _) _].
  split; simpl; try done.
  - right. left. split; [done|lia].
  - repeat constructor; simpl; congruence.
  - intros e' w ->%list_elem_of_singleton Hw.
    destruct (lo_older0 e w) as [?|(_ & _ & _ & _ & Hl)];
      [by apply list_elem_of_singleton|done|by left|simpl in Hl; lia].
Qed.

(** ** Releasing a lock *)

Lemma wake_shared_ok es :
  Forall waiter_ok es ->
  exists R W, wake_shared es = Ok (Z.of_nat (length R), R ++ W) /\
    Forall (woken SHARED) R /\ txn_ <$> es = txn_ <$> (R ++ W) /\ waiting es = waiting (R ++ W) /\
    W `suffix_of` es.
Proof.
  induction 1 as [|e es (Hg & Hp & Hty) Hes (R & W & IH & HR & Ht & Hw & Hs)]; simpl.
  { by exists [], []. }
  case_bool_decide as Hsh.
  - unfold set_value. simpl. rewrite Hp. rewrite bind_ok, IH, bind_ok.
    exists (set_promise (Fulfilled true) (set_granted e) :: R), W. repeat split.
    + f_equal. f_equal. simpl. lia.
    + constructor; [|done]. by repeat split.
    + exact (f_equal (cons (txn_ e)) Ht).
    + cbn [app]. rewrite !waiting_cons, Hw. simpl. by rewrite Hp.
    + by apply suffix_cons_r.
  - exists [], (e :: es). simpl. by repeat split.
Qed.

(** The state of a list whose last holder left, from its waiters. *)
Lemma wake_next_ok W ty :
  Forall waiter_ok W -> StronglySorted Z.gt (txn_ <$> W) ->
  exists G' W' ty', wake_next W ty 0 = Ok (G' ++ W', ty', Z.of_nat (length G')) /\
    list_ok (mkLockList (G' ++ W') ty' (Z.of_nat (length G'))) G' W' /\
    txn_ <$> W = txn_ <$> (G' ++ W') /\ waiting W = waiting (G' ++ W') /\
    Forall (woken ty') G'.
Proof.
  intros HW Hs. destruct W as [|n W].
  { exists [], [], ty. split; [done|]. split; [|by repeat split].
    split; simpl; try done; try by constructor.
    { by right; right. }
    intros ?? []%not_elem_of_nil. }
  assert (Hgo : exists G' W' ty', wake_next (n :: W) ty 0 = Ok (G' ++ W', ty', Z.of_nat (length G')) /\
    G' <> [] /\ Forall (woken ty') G' /\ Forall waiter_ok W' /\
    (ty' = SHARED \/ (ty' = EXCLUSIVE /\ (length G' <= 1)%nat) \/ G' = []) /\
    txn_ <$> n :: W = txn_ <$> (G' ++ W') /\ waiting (n :: W) = waiting (G' ++ W')).
  { apply Forall_cons in HW as [(Hg & Hp & Hty) HW].
    unfold wake_next, set_value. simpl. rewrite Hp, bind_ok. simpl.
    set (n' := set_promise (Fulfilled true) (set_granted n)).
    assert (Hwn : waiting (n :: W) = waiting (n' :: W)) by (rewrite !waiting_cons; simpl; by rewrite Hp).
    assert (Hone : exists G' W' ty', Ok (n' :: W, lock_type_ n, 1) = Ok (G' ++ W', ty', Z.of_nat (length G')) /\
      G' <> [] /\ Forall (woken ty') G' /\ Forall waiter_ok W' /\
      (ty' = SHARED \/ (ty' = EXCLUSIVE /\ (length G' <= 1)%nat) \/ G' = []) /\
      txn_ <$> n :: W = txn_ <$> (G' ++ W') /\ waiting (n :: W) = waiting (G' ++ W')).
    { exists [n'], W, (lock_type_ n). repeat split; try done.
      - apply Forall_singleton. by repeat split.
      - destruct Hty; [by left|right; left; split; [done|simpl; lia]]. }
    case_bool_decide as Hsh; [|exact Hone].
    destruct W as [|m W]; [exact Hone|]. case_bool_decide as Hx.
    { assert ((txn_ m =? txn_ n) = false) as ->; [|exact Hone].
      apply Z.eqb_neq. apply StronglySorted_inv in Hs as [_ Hs].
      inversion Hs; subst. lia. }
    destruct (wake_shared_ok _ HW) as (R & W' & Hwk & HR & Ht & Hw & Hsuf).
    rewrite Hwk, bind_ok. exists (n' :: R), W', SHARED. repeat split; try done.
    - rewrite Hsh. f_equal. f_equal. simpl length. lia.
    - constructor; [by repeat split|done].
    - destruct Hsuf as [pre Hsuf]. rewrite Hsuf in HW. by apply Forall_app in HW as [_ ?].
    - by left.
    - exact (f_equal (cons (txn_ n)) Ht).
    - rewrite Hwn. cbn [app]. rewrite (waiting_cons n' (m :: W)), (waiting_cons n'). by rewrite Hw. }
  destruct Hgo as (G' & W' & ty' & Hwk & Hne & HG' & HW' & Hmode & Ht & Hw).
  exists G', W', ty'. split; [done|]. split; [|by repeat split].
  rewrite Ht, fmap_app in Hs. apply StronglySorted_app in Hs as (Hgt & HsG & HsW).
  split; simpl; try done.
  - eapply Forall_impl; [exact HG'|]. intros e (? & Hp & ?). split; [done|]. by rewrite Hp.
  - clear -HsG. induction HsG as [|x l Hs IH HF]; constructor; [|done].
    intros Hx. rewrite Forall_forall in HF. specialize (HF x Hx). lia.
  - intros e w He Hwi. left. assert (txn_ e > txn_ w); [|lia].
    apply Hgt; by apply list_elem_of_fmap_2.
Qed.

Lemma list_ok_types ll G W e :
  list_ok ll G W -> e ∈ G ++ W -> lock_type_ e <> DELETE.
Proof.
  intros H [He|He]%elem_of_app.
  - pose proof (proj1 (Forall_forall _ _) (lo_holders _ _ _ H) _ He) as (_ & _ & ->).
    destruct (lo_mode _ _ _ H) as [->|[[-> _]| ->]]; [done|done|]. by apply not_elem_of_nil in He.
  - pose proof (proj1 (Forall_forall _ _) (lo_waiters _ _ _ H) _ He) as (_ & _ & [->| ->]); done.
Qed.

Lemma sweep_list e l1 l2 ty cnt :
  (forall x, x ∈ l1 ++ l2 -> lock_type_ x <> DELETE) ->
  sweep (mkLockList (l1 ++ set_type DELETE e :: l2) ty cnt) = mkLockList (l1 ++ l2) ty cnt.
Proof.
  intros H. unfold sweep. simpl. f_equal.
  rewrite filter_app, filter_cons, decide_False by (simpl; auto).
  rewrite !list_filter_all by (intros x Hx; apply H; set_solver). done.
Qed.

(** A holder leaves and others stay: the queue does not move. *)
Lemma holder_leaves_ok e ll G1 G2 W :
  list_ok ll (G1 ++ e :: G2) W -> G1 ++ G2 <> [] ->
  (forall g w, g ∈ G1 ++ G2 -> w ∈ W -> txn_ w = txn_ g -> (2 <= length (G1 ++ G2))%nat) ->
  list_ok (mkLockList ((G1 ++ G2) ++ W) (list_lock_type_ ll) (list_grant_cnt_ ll - 1))
          (G1 ++ G2) W.
Proof.
  intros H Hne Hup. pose proof (Permutation_middle G1 G2 e) as Hperm.
  destruct H. split; simpl; try done.
  - rewrite lo_cnt0, <- Hperm. simpl. lia.
  - destruct lo_mode0 as [?|[[? Hl]|Hl]]; [by left| |by destruct G1].
    rewrite <- Hperm in Hl. simpl in Hl. destruct (G1 ++ G2); [done|simpl in Hl; lia].
  - rewrite <- Hperm in lo_holders0. by apply Forall_cons in lo_holders0 as [_ ?].
  - rewrite <- Hperm in lo_nodup0. by apply NoDup_cons in lo_nodup0 as [_ ?].
  - intros g w Hg Hw. destruct (lo_older0 g w) as [?|(Ht & Hty & Hp & Hx & _)]; [|done|by left|].
    { rewrite <- Hperm. by right. }
    right. repeat split; try done. by apply (Hup g w).
Qed.

(** What [Unlock] does to a list when a transaction with no pending request there
    releases its lock: the entry goes, requests are granted in order. *)
Definition released (e : TransactionInfo) (G W G' W' : list TransactionInfo) : Prop :=
  waiting (G' ++ W') = waiting (G ++ W) /\
  (forall x, x ∈ G' ++ W' -> txn_ x <> txn_ e /\ txn_ x ∈ txn_ <$> G ++ W) /\
  (forall x, x ∈ G' -> promise_ x = NoPromise -> x ∈ G).

Lemma release_last_ok e ll W :
  list_ok ll [e] W -> promise_ e = NoPromise -> (txn_ e ∉ txn_ <$> W) ->
  exists G' W' ty' n,
    wake_next W (list_lock_type_ ll) 0 = Ok (G' ++ W', ty', n) /\
    list_ok (sweep (mkLockList (set_type DELETE e :: G' ++ W') ty' n)) G' W' /\
    released e [e] W G' W'.
Proof.
  intros H Hp He.
  destruct (wake_next_ok W (list_lock_type_ ll) (lo_waiters _ _ _ H) (lo_sorted _ _ _ H))
    as (G' & W' & ty' & Hwk & Hok & Ht & Hw & Hwoken).
  exists G', W', ty', (Z.of_nat (length G')). split; [done|]. split; [|split; [|split]].
  - pose proof (sweep_list e [] (G' ++ W') ty' (Z.of_nat (length G'))) as Hs. simpl in Hs.
    rewrite Hs; [done|]. intros x Hx. by eapply list_ok_types.
  - cbn [app]. rewrite (waiting_cons e), decide_True by done. by rewrite <- Hw.
  - intros x Hx. assert (Hin : txn_ x ∈ txn_ <$> W) by (rewrite Ht; by apply list_elem_of_fmap_2).
    split; [by intros Hc; rewrite Hc in Hin|]. cbn [app]. by right.
  - intros x Hx Hn. apply (proj1 (Forall_forall _ _) Hwoken) in Hx as (_ & Hf & _). congruence.
Qed.

(** Only the first waiter can be an upgrade. *)
Lemma upgrade_is_head ll G w W r x :
  list_ok ll G (w :: W) -> r ∈ G -> x ∈ W -> txn_ x < txn_ r.
Proof.
  intros H Hr Hx. pose proof (lo_sorted _ _ _ H) as Hs.
  apply StronglySorted_inv in Hs as [_ Hs]. rewrite Forall_forall in Hs.
  assert (txn_ w > txn_ x) by (apply Hs; by apply list_elem_of_fmap_2).
  destruct (lo_older _ _ _ H r w Hr) as [?|(? & _)]; [by left|lia|lia].
Qed.

Definition is_shared_of (t : Z) (e : TransactionInfo) : bool :=
  (txn_ e =? t) && grated_ e && bool_decide (lock_type_ e = SHARED).

Lemma wake_upgrade_none l ty w :
  (2 <= length l)%nat -> l !! 2%nat = Some w ->
  (lock_type_ w = EXCLUSIVE -> Forall (fun e => is_shared_of (txn_ w) e = false) l) ->
  wake_upgrade l ty = Ok (l, ty).
Proof.
  intros Hl Hw Hno. unfold wake_upgrade. rewrite (proj2 (Nat.ltb_ge _ _)) by done. rewrite Hw.
  case_bool_decide as Hx; [|done].
  destruct (list_find _ l) as [[i u]|] eqn:E; [|done].
  apply list_find_Some in E as (Hu & Hc & _). specialize (Hno Hx). rewrite Forall_lookup in Hno.
  specialize (Hno _ _ Hu). unfold is_shared_of in Hno. congruence.
Qed.


(** The upgrading transaction is left alone with its request: it gets the lock. *)
Lemma upgrade_granted_ok e r w W G ll :
  list_ok ll G (w :: W) -> r ∈ G -> waiting G = [] -> (txn_ e ∉ txn_ <$> w :: W) ->
  txn_ w = txn_ r -> lock_type_ w = EXCLUSIVE ->
  let w' := set_promise (Fulfilled true) (set_type EXCLUSIVE (set_granted w)) in
  list_ok (mkLockList (w' :: W) EXCLUSIVE 1) [w'] W /\ released e G (w :: W) [w'] W.
Proof.
  intros H Hr HG He Hwr Hx w'.
  pose proof (lo_waiters _ _ _ H) as Hws. apply Forall_cons in Hws as [(_ & Hp & _) Hws].
  split; [|split; [|split]].
  - split; simpl; try done.
    + right. left. split; [done|lia].
    + apply Forall_singleton. by repeat split.
    + apply NoDup_singleton.
    + pose proof (lo_sorted _ _ _ H) as Hs. by apply StronglySorted_inv in Hs as [Hs _].
    + intros g x ->%list_elem_of_singleton Hin. left. simpl. rewrite Hwr.
      by eapply upgrade_is_head.
  - rewrite (waiting_app G), HG. cbn [app]. rewrite !waiting_cons. simpl. by rewrite Hp, Hx.
  - intros x Hin. assert (Hin' : txn_ x ∈ txn_ <$> w :: W).
    { cbn [app] in Hin. apply elem_of_cons in Hin as [->|Hin]; [by left|].
      right. by apply list_elem_of_fmap_2. }
    split; [by intros Hc; rewrite Hc in Hin'|]. rewrite fmap_app. set_solver.
  - intros x ->%list_elem_of_singleton Hn. done.
Qed.

Lemma holder_leaves_released e ll G1 G2 W :
  list_ok ll (G1 ++ e :: G2) W -> promise_ e = NoPromise -> (txn_ e ∉ txn_ <$> W) ->
  released e (G1 ++ e :: G2) W (G1 ++ G2) W.
Proof.
  intros H Hp He. pose proof (lo_nodup _ _ _ H) as Hnd.
  rewrite <- Permutation_middle in Hnd. rewrite fmap_cons in Hnd.
  apply NoDup_cons in Hnd as [Hnd _]. split; [|split].
  - rewrite !waiting_app, waiting_cons, decide_True by done. done.
  - intros x Hx. split.
    + intros Hc. rewrite <- Hc in *. apply elem_of_app in Hx as [Hx|Hx].
      * apply Hnd. by apply list_elem_of_fmap_2.
      * apply He. by apply list_elem_of_fmap_2.
    + apply list_elem_of_fmap_2. set_solver.
  - intros x Hx _. set_solver.
Qed.

Lemma third_entry e r G1 G2 w (W : list TransactionInfo) :
  G1 ++ G2 = [r] ->
  (2 <= length (G1 ++ set_type DELETE e :: G2 ++ w :: W))%nat /\
  (G1 ++ set_type DELETE e :: G2 ++ w :: W) !! 2%nat = Some w.
Proof.
  intros HG. assert (Hl : (length G1 + length G2 = 1)%nat) by (rewrite <- length_app, HG; done).
  assert (Hw : (G1 ++ set_type DELETE e :: G2 ++ w :: W) !! 2%nat = Some w).
  { replace (G1 ++ set_type DELETE e :: G2 ++ w :: W) with ((G1 ++ set_type DELETE e :: G2) ++ w :: W)
      by (rewrite <- app_assoc; done).
    apply list_lookup_middle. rewrite length_app. simpl. lia. }
  split; [|done]. apply lookup_lt_Some in Hw. lia.
Qed.

Lemma wake_upgrade_some e r w W G1 G2 :
  G1 ++ G2 = [r] -> grated_ r = true -> lock_type_ r = SHARED -> promise_ w = Pending ->
  lock_type_ w = EXCLUSIVE -> txn_ w = txn_ r -> (forall x, x ∈ W -> lock_type_ x <> DELETE) ->
  exists l', wake_upgrade (G1 ++ set_type DELETE e :: G2 ++ w :: W) SHARED = Ok (l', EXCLUSIVE) /\
    sweep (mkLockList l' EXCLUSIVE 1) =
    mkLockList (set_promise (Fulfilled true) (set_type EXCLUSIVE (set_granted w)) :: W) EXCLUSIVE 1.
Proof.
  intros HG Hrg Hrs Hwp Hx Hwr HWt. destruct (third_entry e r G1 G2 w W HG) as [Hge Hw2].
  unfold wake_upgrade. rewrite (proj2 (Nat.ltb_ge _ _)) by done. rewrite Hw2, bool_decide_true by done.
  rewrite (set_value_ok true (set_type EXCLUSIVE (set_granted w))) by done.
  assert (Hr : (txn_ r =? txn_ w) && grated_ r && bool_decide (lock_type_ r = SHARED) = true)
    by (rewrite Hrg, Hwr, Z.eqb_refl, Hrs; done).
  destruct G1 as [|g [|]], G2 as [|g2 [|]]; simplify_eq/=.
  - rewrite decide_False by (by rewrite andb_false_r).
    rewrite decide_True by done. simpl. eexists. split; [done|]. unfold sweep. simpl. f_equal.
    rewrite !filter_cons, !decide_False, decide_True by (simpl; auto). f_equal.
    by apply list_filter_all.
  - rewrite decide_True by done. simpl. eexists. split; [done|]. unfold sweep. simpl. f_equal.
    rewrite !filter_cons, !decide_False, decide_True by (simpl; auto). f_equal.
    by apply list_filter_all.
Qed.

(** The entry left is not the one of the first waiter. *)
Lemma wake_upgrade_other e r w W G1 G2 ll :
  list_ok ll (G1 ++ e :: G2) (w :: W) -> G1 ++ G2 = [r] -> txn_ w <> txn_ r ->
  wake_upgrade (G1 ++ set_type DELETE e :: G2 ++ w :: W) SHARED
  = Ok (G1 ++ set_type DELETE e :: G2 ++ w :: W, SHARED).
Proof.
  intros H HG Hwr. destruct (third_entry e r G1 G2 w W HG) as [Hge Hw2].
  apply (wake_upgrade_none _ _ w); [done|done|]. intros _.
  assert (HW : Forall (fun x => is_shared_of (txn_ w) x = false) (w :: W)).
  { eapply Forall_impl; [exact (lo_waiters _ _ _ H)|]. intros x (Hg & _ & _).
    unfold is_shared_of. by rewrite Hg, andb_false_r. }
  assert (HGf : Forall (fun x => is_shared_of (txn_ w) x = false) (G1 ++ G2)).
  { rewrite HG. apply Forall_singleton. unfold is_shared_of.
    by rewrite (proj2 (Z.eqb_neq _ _)) by congruence. }
  apply Forall_app in HGf as [? ?]. apply Forall_app. split; [done|].
  constructor; [|by apply Forall_app]. unfold is_shared_of. simpl. by rewrite andb_false_r.
Qed.

Lemma release_two_ok e r G1 G2 W ll :
  list_ok ll (G1 ++ e :: G2) W -> G1 ++ G2 = [r] -> list_lock_type_ ll = SHARED ->
  promise_ e = NoPromise -> (txn_ e ∉ txn_ <$> W) ->
  exists l' ty' G' W',
    wake_upgrade (G1 ++ set_type DELETE e :: G2 ++ W) SHARED = Ok (l', ty') /\
    list_ok (sweep (mkLockList l' ty' 1)) G' W' /\ released e (G1 ++ e :: G2) W G' W'.
Proof.
  intros H HG Hsh Hp He.
  assert (Hr : r ∈ G1 ++ e :: G2) by (rewrite <- Permutation_middle, HG; set_solver).
  assert (Hlen : (length G1 + length G2 = 1)%nat) by (rewrite <- length_app, HG; done).
  assert (Hstay : (forall w, w ∈ W -> txn_ w <> txn_ r) ->
    list_ok (sweep (mkLockList (G1 ++ set_type DELETE e :: G2 ++ W) SHARED 1)) [r] W).
  { intros Hno. rewrite sweep_list, app_assoc.
    - replace 1 with (list_grant_cnt_ ll - 1) by (rewrite (lo_cnt _ _ _ H), length_app; simpl; lia).
      rewrite <- Hsh, <- HG. apply (holder_leaves_ok e); [done|by rewrite HG|].
      rewrite HG. intros g w ->%list_elem_of_singleton Hw Heq. by apply Hno in Hw.
    - intros x Hx. apply (list_ok_types _ _ _ _ H). set_solver. }
  assert (Hrel : released e (G1 ++ e :: G2) W [r] W)
    by (rewrite <- HG; by eapply holder_leaves_released).
  destruct W as [|w W].
  { eexists _, _, [r], []. split; [|split; [apply Hstay; by intros ? ?%not_elem_of_nil|done]].
    unfold wake_upgrade.
    rewrite (proj2 (Nat.ltb_ge _ _)) by (rewrite !length_app; simpl; rewrite length_app; simpl; lia).
    rewrite lookup_ge_None_2; [done|]. rewrite !length_app. simpl. rewrite length_app. simpl. lia. }
  destruct (decide (txn_ w = txn_ r)) as [Hwr|Hwr].
  2:{ eexists _, _, [r], (w :: W). split; [by eapply wake_upgrade_other|]. split; [|done]. apply Hstay.
      intros x [-> | Hx]%elem_of_cons; [done|]. pose proof (upgrade_is_head _ _ _ _ r x H Hr Hx). lia. }
  destruct (lo_older _ _ _ H r w Hr) as [?|(_ & Hrs & Hrp & Hx & _)]; [by left|lia|].
  assert (HwG : waiting (G1 ++ e :: G2) = []).
  { rewrite waiting_app, waiting_cons, decide_True by done. cbn [app]. rewrite <- waiting_app, HG.
    rewrite waiting_cons, decide_True by done. done. }
  destruct (upgrade_granted_ok e r w W _ ll H Hr HwG He Hwr Hx) as [Hok Hrelu].
  pose proof (lo_waiters _ _ _ H) as Hws. apply Forall_cons in Hws as [(_ & Hwp & _) _].
  pose proof (proj1 (Forall_forall _ _) (lo_holders _ _ _ H) _ Hr) as (Hrg & _ & _).
  destruct (wake_upgrade_some e r w W G1 G2) as (l' & Hwk & Hsw); try done.
  { intros x Hin. apply (list_ok_types _ _ _ _ H). set_solver. }
  eexists l', EXCLUSIVE, _, W. split; [exact Hwk|]. rewrite Hsw. by split.
Qed.

Lemma release_ok i e ll G W :
  list_ok ll G W -> G !! i = Some e -> promise_ e = NoPromise -> (txn_ e ∉ txn_ <$> W) ->
  exists ll' G' W', release i e ll = Ok ll' /\ list_ok (sweep ll') G' W' /\ released e G W G' W'.
Proof.
  intros H Hi Hp He.
  pose proof (proj1 (Forall_forall _ _) (lo_holders _ _ _ H) _ (list_elem_of_lookup_2 _ _ _ Hi))
    as (Hg & _ & Hty).
  pose proof (list_elem_of_split_length _ _ _ Hi) as (G1 & G2 & -> & ->).
  assert (Hl : <[length G1 := set_type DELETE e]> (lock_list_ ll) = G1 ++ set_type DELETE e :: G2 ++ W).
  { rewrite (lo_split _ _ _ H), <- app_assoc. cbn [app]. by rewrite insert_app_r_alt, Nat.sub_diag by lia. }
  pose proof (lo_cnt _ _ _ H) as Hcnt. rewrite length_app in Hcnt. simpl in Hcnt.
  assert (Hlast : G1 ++ G2 = [] -> exists ll' G' W',
    (let* (es, ty, cnt) := wake_next (drop (S (length G1)) (G1 ++ set_type DELETE e :: G2 ++ W))
                         (list_lock_type_ ll) (list_grant_cnt_ ll - 1) in
     Ok (mkLockList (take (S (length G1)) (G1 ++ set_type DELETE e :: G2 ++ W) ++ es) ty cnt))
    = Ok ll' /\ list_ok (sweep ll') G' W' /\ released e (G1 ++ e :: G2) W G' W').
  { intros [-> ->]%app_eq_nil. cbn [length app drop take] in *.
    destruct (release_last_ok e ll W H Hp He) as (G' & W' & ty' & n & Hwk & Hok & Hrel).
    replace (list_grant_cnt_ ll - 1) with 0 by (simpl in Hcnt; lia).
    rewrite drop_0, take_0. cbn [length] in *. rewrite Hwk, bind_ok. by eexists _, G', W'. }
  unfold release. rewrite Hl, Hty.
  destruct (lo_mode _ _ _ H) as [Hm|[[Hm HG1]|Hm]]; [| |by destruct G1].
  - rewrite Hm in *. destruct (Z.eqb_spec (list_grant_cnt_ ll - 1) 0) as [H0|H0].
    { apply Hlast. destruct G1; [|simpl in *; lia]. destruct G2; [done|simpl in *; lia]. }
    destruct (Z.eqb_spec (list_grant_cnt_ ll - 1) 1) as [H1|H1].
    + assert (exists r, G1 ++ G2 = [r]) as [r HG].
      { assert (Hlen : length (G1 ++ G2) = 1%nat) by (rewrite length_app; lia).
        destruct (G1 ++ G2) as [|r [|]]; try done. by exists r. }
      destruct (release_two_ok e r G1 G2 W ll H HG Hm Hp He) as (l' & ty' & G' & W' & Hwk & Hok & Hrel).
      rewrite Hwk, bind_ok, H1. by eexists _, G', W'.
    + eexists _, (G1 ++ G2), W. split; [done|]. split; [|by eapply holder_leaves_released].
      rewrite sweep_list, app_assoc.
      * rewrite <- Hm. apply (holder_leaves_ok e); [done| |].
        -- intros HG. apply (f_equal length) in HG. rewrite length_app in HG. simpl in HG. lia.
        -- intros _ _ _ _ _. rewrite length_app. lia.
      * intros x Hx. apply (list_ok_types _ _ _ _ H). set_solver.
  - rewrite Hm in *. rewrite length_app in HG1. simpl in HG1.
    rewrite assert_ok by (apply Z.eqb_eq; lia).
    apply Hlast. destruct G1; [|simpl in *; lia]. destruct G2; [done|simpl in *; lia].
Qed.

(** ** The system: transactions calling the lock manager *)

Inductive kind := KShared | KExclusive | KUpgrade.
#[export] Instance kind_eq_dec : EqDecision kind.
Proof. solve_decision. Defined.

Definition request (k : kind) : LockType :=
  match k with KShared => SHARED | _ => EXCLUSIVE end.
Definition lock (k : kind) : Z -> RID -> LockManager -> result (outcome * LockManager) :=
  match k with KShared => LockShared | KExclusive => LockExclusive | KUpgrade => LockUpgrade end.
Definition lock_end (k : kind) : Z -> RID -> LockManager -> result (bool * LockManager) :=
  match k with
  | KShared => LockShared_end | KExclusive => LockExclusive_end | KUpgrade => LockUpgrade_end
  end.

(** The entries on a record. *)
Definition entries (rid : RID) (s : LockManager) : list TransactionInfo := lock_list_ (find_list rid s).

Definition holds (t : Z) (rid : RID) (ty : LockType) (s : LockManager) : Prop :=
  exists e, e ∈ entries rid s /\ txn_ e = t /\ grated_ e = true /\ lock_type_ e = ty.

(** The protocol of the callers: no lock call in the shrinking phase, none on a record
    the transaction has an entry for, but for the upgrade of a shared lock. *)
Definition may_lock (k : kind) (t : Z) (rid : RID) (s : LockManager) : Prop :=
  exists x, txns s !! t = Some x /\ state_ x <> SHRINKING /\
  match k with
  | KUpgrade => holds t rid SHARED s /\ state_ x <> ABORTED
  | KShared => (t ∉ txn_ <$> entries rid s) \/ holds t rid EXCLUSIVE s
  | KExclusive => t ∉ txn_ <$> entries rid s
  end.

(** The blocked transactions, each with the call it is in. *)
Abbreviation Blocks := (gmap Z (kind * RID)).

Definition after (t : Z) (k : kind) (rid : RID) (o : outcome) (pc : Blocks) : Blocks :=
  match o with Returned _ => pc | Waits => <[t := (k, rid)]> pc end.

Inductive step : LockManager * Blocks -> LockManager * Blocks -> Prop :=
| step_begin t s pc :
    txns s !! t = None -> step (s, pc) (put_txn t new_txn s, pc)
| step_lock k t rid s pc o s' :
    pc !! t = None -> may_lock k t rid s -> lock k t rid s = Ok (o, s') ->
    step (s, pc) (s', after t k rid o pc)
| step_resume k t rid s pc b s' :
    pc !! t = Some (k, rid) -> lock_end k t rid s = Ok (b, s') ->
    step (s, pc) (s', delete t pc)
| step_unlock t rid ty s pc b s' :
    pc !! t = None -> holds t rid ty s -> Unlock t rid s = Ok (b, s') ->
    step (s, pc) (s', pc)
| step_state t st x s pc :
    pc !! t = None -> txns s !! t = Some x ->
    step (s, pc) (put_txn t (SetState st x) s, pc).

Definition reachable (strict : bool) : LockManager * Blocks -> Prop :=
  rtc step (create strict, ∅).

Record inv (s : LockManager) (pc : Blocks) : Prop := {
  inv_list rid : exists G W, list_ok (find_list rid s) G W;
  inv_blocked t k rid : pc !! t = Some (k, rid) -> (t, request k) ∈ waiting (entries rid s);
  inv_waiting t ty rid : (t, ty) ∈ waiting (entries rid s) ->
                         exists k, pc !! t = Some (k, rid) /\ ty = request k;
  inv_txn rid e : e ∈ entries rid s -> is_Some (txns s !! txn_ e);
  inv_state t k rid : pc !! t = Some (k, rid) ->
                      exists x, txns s !! t = Some x /\ state_ x <> ABORTED;
}.

(** ** Preservation *)

Lemma find_put rid ll r s :
  find_list r (put_list rid ll s) = if decide (r = rid) then ll else find_list r s.
Proof.
  unfold find_list, put_list. simpl. destruct (decide (r = rid)) as [->|Hne].
  - by rewrite lookup_insert_eq.
  - by rewrite lookup_insert_ne.
Qed.

Lemma find_same rid r s : find_list r s = if decide (r = rid) then find_list rid s else find_list r s.
Proof. by destruct (decide (r = rid)) as [->|]. Qed.

(** A step of the transaction [t] on the record [rid]. *)
Lemma inv_change t rid ll' G W s s' pc pc' :
  inv s pc ->
  (forall r, find_list r s' = if decide (r = rid) then ll' else find_list r s) ->
  list_ok ll' G W ->
  (forall t', is_Some (txns s !! t') -> is_Some (txns s' !! t')) ->
  (forall e, e ∈ lock_list_ ll' -> is_Some (txns s' !! txn_ e)) ->
  (forall t', t' <> t -> pc' !! t' = pc !! t' /\ txns s' !! t' = txns s !! t') ->
  (forall t' ty, t' <> t -> (t', ty) ∈ waiting (lock_list_ ll') <-> (t', ty) ∈ waiting (entries rid s)) ->
  (forall k r, pc' !! t = Some (k, r) -> r = rid /\ (t, request k) ∈ waiting (lock_list_ ll') /\
               exists x, txns s' !! t = Some x /\ state_ x <> ABORTED) ->
  (forall ty, (t, ty) ∈ waiting (lock_list_ ll') -> exists k, pc' !! t = Some (k, rid) /\ ty = request k) ->
  (forall r ty, r <> rid -> ((t, ty) ∉ waiting (entries r s))) ->
  inv s' pc'.
Proof.
  intros H Hf Hok Hdom Hin Hother Hw Hown1 Hown2 Hown3. unfold entries in *.
  split; unfold entries.
  - intros r. rewrite Hf. case_decide; [by exists G, W|apply (inv_list _ _ H)].
  - intros t' k r Hpc. rewrite Hf. destruct (decide (t' = t)) as [->|Hne].
    + destruct (Hown1 _ _ Hpc) as (-> & Hwt & _). by rewrite decide_True.
    + destruct (Hother t' Hne) as [Hpc' _]. rewrite Hpc' in Hpc.
      apply (inv_blocked _ _ H) in Hpc. case_decide as Hr; [|done]. subst r. by apply Hw.
  - intros t' ty r. rewrite Hf. destruct (decide (t' = t)) as [->|Hne].
    + case_decide as Hr; [subst r; apply Hown2|]. intros Hwt. by apply Hown3 in Hwt.
    + destruct (Hother t' Hne) as [-> _].
      case_decide as Hr; [subst r; rewrite Hw by done|]; apply (inv_waiting _ _ H).
  - intros r e. rewrite Hf. case_decide; [apply Hin|]. intros He. by apply Hdom, (inv_txn _ _ H r).
  - intros t' k r Hpc. destruct (decide (t' = t)) as [->|Hne]; [by apply Hown1 in Hpc as (_ & _ & ?)|].
    destruct (Hother t' Hne) as [Hpc' ->]. rewrite Hpc' in Hpc. by apply (inv_state _ _ H) in Hpc.
Qed.

Lemma idle_no_wait s pc t ty r : inv s pc -> pc !! t = None -> ((t, ty) ∉ waiting (entries r s)).
Proof. intros H Hpc (k & Hk & _)%(inv_waiting _ _ H). congruence. Qed.

(** A step of a running transaction that leaves the lists as they are. *)
Lemma inv_own_txn t x s pc :
  inv s pc -> pc !! t = None -> inv (put_txn t x s) pc.
Proof.
  intros H Hpc. destruct (inv_list _ _ H invalid_rid) as (G & W & Hok).
  assert (Hdom : forall t', is_Some (txns s !! t') -> is_Some (<[t := x]> (txns s) !! t')).
  { intros t' Ht'. destruct (decide (t = t')) as [->|]; [by rewrite lookup_insert_eq|].
    by rewrite lookup_insert_ne. }
  apply (inv_change t invalid_rid _ G W s (put_txn t x s) pc pc H (fun r => find_same invalid_rid r s) Hok);
    simpl; try done.
  - intros e He. apply Hdom. by apply (inv_txn _ _ H invalid_rid).
  - intros t' Hne. split; [done|]. by rewrite lookup_insert_ne.
  - intros k r Hk. congruence.
  - intros ty Hw. by apply (idle_no_wait _ _ _ _ _ H Hpc) in Hw.
  - intros r ty _. by apply (idle_no_wait _ _ _ _ _ H Hpc).
Qed.

(** A running transaction changes a list without waiting. *)
Lemma inv_own_list t x rid ll' G W s pc :
  inv s pc -> pc !! t = None -> list_ok ll' G W ->
  waiting (lock_list_ ll') = waiting (entries rid s) ->
  (forall e, e ∈ lock_list_ ll' -> txn_ e = t \/ txn_ e ∈ txn_ <$> entries rid s) ->
  inv (put_txn t x (put_list rid ll' s)) pc.
Proof.
  intros H Hpc Hok Hw Hin.
  assert (Hdom : forall t', is_Some (txns s !! t') -> is_Some (<[t := x]> (txns s) !! t')).
  { intros t' Ht'. destruct (decide (t = t')) as [->|]; [by rewrite lookup_insert_eq|].
    by rewrite lookup_insert_ne. }
  apply (inv_change t rid ll' G W s (put_txn t x (put_list rid ll' s)) pc pc H (fun r => find_put rid ll' r s) Hok); simpl; try done.
  - intros e He. destruct (Hin e He) as [->|Ht]; [by rewrite lookup_insert_eq|].
    apply Hdom. apply list_elem_of_fmap in Ht as (e' & -> & He'). by apply (inv_txn _ _ H rid).
  - intros t' Hne. split; [done|]. by rewrite lookup_insert_ne.
  - intros t' ty _. by rewrite Hw.
  - intros k r Hk. congruence.
  - intros ty Ht. rewrite Hw in Ht. by apply (idle_no_wait _ _ _ _ _ H Hpc) in Ht.
  - intros r ty _. by apply (idle_no_wait _ _ _ _ _ H Hpc).
Qed.

(** A running transaction appends a pending request. *)
Lemma inv_wait k t x rid G W s pc :
  inv s pc -> pc !! t = None -> txns s !! t = Some x -> state_ x <> ABORTED ->
  list_ok (push (mkInfo t false (request k) Pending) (find_list rid s)) G W ->
  inv (put_list rid (push (mkInfo t false (request k) Pending) (find_list rid s)) s)
      (<[t := (k, rid)]> pc).
Proof.
  intros H Hpc Hx Hst Hok.
  assert (Hw : waiting (entries rid s ++ [mkInfo t false (request k) Pending])
               = waiting (entries rid s) ++ [(t, request k)]) by by rewrite waiting_app.
  apply (inv_change t rid (push (mkInfo t false (request k) Pending) (find_list rid s)) G W s
           (put_list rid (push (mkInfo t false (request k) Pending) (find_list rid s)) s)
           pc (<[t := (k, rid)]> pc) H (fun r => find_put rid _ r s) Hok); simpl; try done.
  - intros e [He | ->%list_elem_of_singleton]%elem_of_app; [by apply (inv_txn _ _ H rid)|by eexists].
  - intros t' Hne. split; [by rewrite lookup_insert_ne|done].
  - intros t' ty Hne. fold (entries rid s). rewrite Hw, elem_of_app, list_elem_of_singleton.
    split; [|by left]. by intros [?|[= ->]].
  - intros k' r. rewrite lookup_insert_eq. intros [= <- <-]. split; [done|]. fold (entries rid s).
    split; [|by eexists]. rewrite Hw. apply elem_of_app. right. by left.
  - intros ty. fold (entries rid s). rewrite Hw, elem_of_app, list_elem_of_singleton.
    rewrite lookup_insert_eq. intros [Ht|[= ->]]; [by apply (idle_no_wait _ _ _ _ _ H Hpc) in Ht|by exists k].
  - intros r ty _. by apply (idle_no_wait _ _ _ _ _ H Hpc).
Qed.

Lemma wait_or_die_ok k t x rid G W s pc :
  inv s pc -> pc !! t = None -> txns s !! t = Some x -> state_ x <> ABORTED ->
  list_ok (find_list rid s) G W -> G <> [] ->
  (forall e, e ∈ G -> txn_ e = t -> upgrades G e (mkInfo t false (request k) Pending)) ->
  exists o s', wait_or_die t rid (request k) x (find_list rid s) s = Ok (o, s') /\
               inv s' (after t k rid o pc).
Proof.
  intros H Hpc Hx Hst Hok HG Hup. unfold wait_or_die, CheckForWaitDie.
  assert (Htab : lock_table_ s !! rid = Some (find_list rid s)).
  { unfold find_list. destruct (lock_table_ s !! rid) eqn:E; [done|]. exfalso.
    pose proof (lo_split _ _ _ Hok) as Hl. unfold find_list in Hl. rewrite E in Hl. simpl in Hl.
    symmetry in Hl. by apply app_eq_nil in Hl as [? _]. }
  rewrite Htab. simpl. destruct (forallb _ _) eqn:Ewd; eexists _, _; (split; [done|]).
  - simpl. eapply inv_wait; [done..|]. apply push_wait_ok; [exact Hok|done|destruct k; auto| | |done].
    + rewrite forallb_forall in Ewd. apply Forall_forall. intros e He.
      apply list_elem_of_In, Ewd in He. by apply negb_true_iff, Z.ltb_ge in He.
    + intros (w & -> & Hw)%list_elem_of_fmap.
      apply (idle_no_wait _ _ _ (lock_type_ w) rid H Hpc). apply elem_of_waiting. exists w.
      pose proof (proj1 (Forall_forall _ _) (lo_waiters _ _ _ Hok) _ Hw) as (_ & Hp & _).
      unfold entries. rewrite (lo_split _ _ _ Hok), Hp. repeat split; [|done]. apply elem_of_app. by right.
  - by apply inv_own_txn.
Qed.

(** A granted entry is a holder; that of a running transaction has no promise. *)
Lemma granted_holder ll G W e :
  list_ok ll G W -> e ∈ lock_list_ ll -> grated_ e = true -> e ∈ G.
Proof.
  intros H He Hg. rewrite (lo_split _ _ _ H) in He. apply elem_of_app in He as [He|He]; [done|].
  pose proof (proj1 (Forall_forall _ _) (lo_waiters _ _ _ H) _ He) as (Hg' & _). congruence.
Qed.

Lemma idle_no_promise s pc e rid :
  inv s pc -> e ∈ entries rid s -> pc !! txn_ e = None -> promise_ e = NoPromise.
Proof.
  intros H He Hpc. destruct (decide (promise_ e = NoPromise)) as [|Hp]; [done|].
  exfalso. apply (idle_no_wait _ _ _ (lock_type_ e) rid H Hpc). apply elem_of_waiting. by exists e.
Qed.

Lemma push_granted_inv t ty x rid G s pc :
  inv s pc -> pc !! t = None -> list_ok (find_list rid s) G [] ->
  ty = SHARED \/ (ty = EXCLUSIVE /\ G = []) ->
  (G <> [] -> list_lock_type_ (find_list rid s) = ty) -> (t ∉ txn_ <$> G) ->
  inv (put_txn t x (put_list rid (push_granted t ty (find_list rid s)) s)) pc.
Proof.
  intros H Hpc Hok Hty Hm Ht. eapply inv_own_list; [done|done|by apply push_granted_ok| |].
  - simpl. rewrite waiting_app. unfold entries. cbn. by rewrite app_nil_r.
  - simpl. intros e [He | ->%list_elem_of_singleton]%elem_of_app; [right|by left].
    by apply list_elem_of_fmap_2.
Qed.

Lemma LockShared_ok t rid s pc :
  inv s pc -> pc !! t = None -> may_lock KShared t rid s ->
  exists o s', LockShared t rid s = Ok (o, s') /\ inv s' (after t KShared rid o pc).
Proof.
  intros H Hpc (x & Hx & Hst & Hmay). unfold LockShared, get_txn. rewrite Hx. cbn [from_option_r].
  rewrite bind_ok, assert_ok by (apply negb_true_iff; by apply bool_decide_false).
  case_bool_decide as Hab; [by eexists _, _|].
  destruct (inv_list _ _ H rid) as (G & W & Hok). pose proof (lo_split _ _ _ Hok) as Hl.
  destruct (lock_list_ (find_list rid s)) as [|head rest] eqn:El.
  { symmetry in Hl. apply app_eq_nil in Hl as [-> ->]. eexists _, _. split; [done|].
    eapply push_granted_inv; [done|done|exact Hok|by left|done|set_solver]. }
  assert (HG : G <> []).
  { destruct W as [|w W]; [intros ->; done|]. by apply (lo_awake _ _ _ Hok). }
  assert (Hnew : (t ∉ txn_ <$> G) -> exists o s',
    wait_or_die t rid SHARED x (find_list rid s) s = Ok (o, s') /\ inv s' (after t KShared rid o pc)).
  { intros Ht. apply (wait_or_die_ok KShared t x rid G W); try done.
    intros e He <-. destruct Ht. by apply list_elem_of_fmap_2. }
  destruct G as [|g G]; [done|]. cbn [app] in Hl. injection Hl as -> ->.
  pose proof (lo_holders _ _ _ Hok) as Hh. apply Forall_cons in Hh as [(Hg & _ & Hgt) Hh].
  destruct Hmay as [Hfree|Hx'].
  2:{ destruct Hx' as (e & He & Het & Heg & Hex).
      pose proof (granted_holder _ _ _ _ Hok He Heg) as HeG.
      pose proof (proj1 (Forall_forall _ _) (lo_holders _ _ _ Hok) _ HeG) as (_ & _ & Hty).
      rewrite bool_decide_false by congruence. rewrite Hg, Hgt, <- Hty, bool_decide_true by done. simpl.
      destruct (lo_mode _ _ _ Hok) as [Hm|[[_ Hlen]|?]]; [congruence| |done].
      destruct G; [|simpl in Hlen; lia]. apply list_elem_of_singleton in HeG as ->.
      rewrite (proj2 (Z.eqb_eq _ _)) by done. by eexists _, _. }
  assert (Ht : t ∉ txn_ <$> g :: G).
  { intros Hin. apply Hfree. unfold entries. rewrite (lo_split _ _ _ Hok), fmap_app.
    apply elem_of_app. by left. }
  case_bool_decide as Hs.
  - destruct (from_option grated_ true _) eqn:Elast; [|by apply Hnew].
    eexists _, _. split; [done|]. apply (push_granted_inv _ _ _ _ (g :: G)); try done; [|by left].
    destruct W as [|w W _] using rev_ind; [done|]. exfalso.
    replace (g :: G ++ W ++ [w]) with ((g :: G ++ W) ++ [w]) in Elast by (cbn; by rewrite <- app_assoc).
    rewrite last_snoc in Elast. simpl in Elast.
    pose proof (proj1 (Forall_forall _ _) (lo_waiters _ _ _ Hok) w) as (Hw & _); [set_solver|congruence].
  - rewrite Hg, Hgt. destruct (lo_mode _ _ _ Hok) as [|[[Hm _]|]]; [done| |done].
    rewrite Hm, bool_decide_true by done. simpl. rewrite (proj2 (Z.eqb_neq _ _)); [by apply Hnew|].
    intros Heq. apply Ht. rewrite <- Heq. by left.
Qed.

Lemma LockExclusive_ok t rid s pc :
  inv s pc -> pc !! t = None -> may_lock KExclusive t rid s ->
  exists o s', LockExclusive t rid s = Ok (o, s') /\ inv s' (after t KExclusive rid o pc).
Proof.
  intros H Hpc (x & Hx & Hst & Hfree). unfold LockExclusive, get_txn. rewrite Hx. cbn [from_option_r].
  rewrite bind_ok, assert_ok by (apply negb_true_iff; by apply bool_decide_false).
  case_bool_decide as Hab; [by eexists _, _|].
  destruct (inv_list _ _ H rid) as (G & W & Hok). pose proof (lo_split _ _ _ Hok) as Hl.
  destruct (lock_list_ (find_list rid s)) as [|head rest] eqn:El.
  { symmetry in Hl. apply app_eq_nil in Hl as [-> ->]. eexists _, _. split; [done|].
    eapply push_granted_inv; [done|done|exact Hok|by right|done|set_solver]. }
  apply (wait_or_die_ok KExclusive t x rid G W); try done.
  - destruct W as [|w W]; [intros ->; done|]. by apply (lo_awake _ _ _ Hok).
  - intros e He <-. destruct Hfree. unfold entries. apply list_elem_of_fmap_2.
    rewrite (lo_split _ _ _ Hok). apply elem_of_app. by left.
Qed.

Lemma LockUpgrade_ok t rid s pc :
  inv s pc -> pc !! t = None -> may_lock KUpgrade t rid s ->
  exists o s', LockUpgrade t rid s = Ok (o, s') /\ inv s' (after t KUpgrade rid o pc).
Proof.
  intros H Hpc (x & Hx & Hst & (e & He & Het & Heg & Hes) & Hab).
  unfold LockUpgrade, get_txn. rewrite Hx. cbn [from_option_r].
  rewrite bind_ok, assert_ok by (apply negb_true_iff; by apply bool_decide_false).
  destruct (inv_list _ _ H rid) as (G & W & Hok).
  assert (Htab : lock_table_ s !! rid = Some (find_list rid s)).
  { unfold entries, find_list in *. destruct (lock_table_ s !! rid) eqn:E; [done|].
    by apply not_elem_of_nil in He. }
  rewrite Htab. pose proof (granted_holder _ _ _ _ Hok He Heg) as HeG.
  assert (HeP : promise_ e = NoPromise) by (apply (idle_no_promise s pc e rid H He); by rewrite Het).
  pose proof (proj1 (Forall_forall _ _) (lo_holders _ _ _ Hok) _ HeG) as (_ & _ & Hty).
  pose proof (lo_split _ _ _ Hok) as Hl.
  assert (HG : G <> []) by (intros ->; by apply not_elem_of_nil in HeG).
  destruct (lock_list_ (find_list rid s)) as [|head rest] eqn:El.
  { destruct G; done. }
  rewrite bool_decide_true by congruence. simpl.
  destruct (Z.eqb_spec (list_grant_cnt_ (find_list rid s)) 1) as [H1|H1].
  - rewrite (lo_cnt _ _ _ Hok) in H1. destruct G as [|g [|]]; simpl in H1; try lia.
    cbn [app] in Hl. injection Hl as -> ->. apply list_elem_of_singleton in HeG as <-.
    rewrite assert_ok by (by apply Z.eqb_eq). eexists _, _. split; [done|].
    rewrite (lo_cnt _ _ _ Hok). simpl length.
    eapply inv_own_list; [done|done|by eapply upgrade_now_ok| |].
    + simpl. unfold entries. rewrite El, !waiting_cons. simpl. by rewrite !decide_True.
    + simpl. unfold entries. rewrite El. intros y [->|Hy]%elem_of_cons; [by left|right].
      right. by apply list_elem_of_fmap_2.
  - assert (Hcnt : (2 <= length G)%nat).
    { pose proof (lo_cnt _ _ _ Hok). destruct G as [|? [|]]; simpl in *; [done|lia|lia]. }
    apply (wait_or_die_ok KUpgrade t x rid G W); try done.
    intros g Hg Hgt. assert (g = e) as ->.
    { apply list_elem_of_lookup in Hg as [i Hi]. apply list_elem_of_lookup in HeG as [j Hj].
      assert (i = j) as ->; [|congruence].
      apply (NoDup_lookup _ i j (txn_ g) (lo_nodup _ _ _ Hok)).
      - by rewrite list_lookup_fmap, Hi.
      - rewrite list_lookup_fmap, Hj. simpl. congruence. }
    by repeat split.
Qed.

Lemma lock_ok k t rid s pc :
  inv s pc -> pc !! t = None -> may_lock k t rid s ->
  exists o s', lock k t rid s = Ok (o, s') /\ inv s' (after t k rid o pc).
Proof. destruct k; [apply LockShared_ok|apply LockExclusive_ok|apply LockUpgrade_ok]. Qed.

Lemma Unlock_ok t rid ty s pc x :
  inv s pc -> pc !! t = None -> holds t rid ty s -> txns s !! t = Some x ->
  strict_2PL_ s = false \/ state_ x <> ABORTED ->
  exists s', Unlock t rid s = Ok (true, s') /\ inv s' pc /\
             strict_2PL_ s' = strict_2PL_ s /\ (t ∉ txn_ <$> entries rid s').
Proof.
  intros H Hpc (e & He & Het & Heg & Hety) Hx Hst. unfold Unlock, get_txn. rewrite Hx. cbn [from_option_r].
  rewrite bind_ok, assert_ok.
  2:{ destruct Hst as [->|Hst]; [done|]. rewrite (bool_decide_false (state_ x = ABORTED)) by done.
      by rewrite !orb_true_r. }
  assert (Htab : lock_table_ s !! rid = Some (find_list rid s)).
  { unfold entries, find_list in *. destruct (lock_table_ s !! rid) eqn:E; [done|].
    by apply not_elem_of_nil in He. }
  rewrite Htab. destruct (inv_list _ _ H rid) as (G & W & Hok).
  destruct (list_find _ _) as [[i e']|] eqn:Ef.
  2:{ exfalso. rewrite list_find_None in Ef. rewrite Forall_forall in Ef.
      apply (Ef e He). by rewrite Heg, (proj2 (Z.eqb_eq _ _)). }
  apply list_find_Some in Ef as (Hi & [Hg' Ht']%andb_prop & _). apply Z.eqb_eq in Ht'.
  rewrite Hg'. simpl.
  pose proof (list_elem_of_lookup_2 _ _ _ Hi) as He'.
  pose proof (granted_holder _ _ _ _ Hok He' Hg') as HeG.
  assert (HiG : G !! i = Some e').
  { rewrite (lo_split _ _ _ Hok) in Hi. apply lookup_app_Some in Hi as [Hi|[_ Hi]]; [done|].
    apply list_elem_of_lookup_2 in Hi. exfalso.
    pose proof (proj1 (Forall_forall _ _) (lo_waiters _ _ _ Hok) _ Hi) as (Hw & _). congruence. }
  assert (Hp : promise_ e' = NoPromise) by (apply (idle_no_promise s pc e' rid H He'); by rewrite Ht').
  assert (HtW : txn_ e' ∉ txn_ <$> W).
  { intros (w & Hw & HwW)%list_elem_of_fmap. apply (idle_no_wait s pc t (lock_type_ w) rid H Hpc).
    apply elem_of_waiting. exists w. unfold entries. rewrite (lo_split _ _ _ Hok).
    pose proof (proj1 (Forall_forall _ _) (lo_waiters _ _ _ Hok) _ HwW) as (_ & Hwp & _).
    repeat split; [apply elem_of_app; by right|congruence|by rewrite Hwp]. }
  destruct (release_ok i e' _ G W Hok HiG Hp HtW) as (ll' & G' & W' & Hrel & Hok' & Hw & Hin & _).
  rewrite Hrel, bind_ok. eexists. split; [done|].
  pose proof (lo_split _ _ _ Hok') as Hl'. split; [|split; [done|]].
  - eapply inv_own_list; [done|done|exact Hok'| |].
    + rewrite Hl'. unfold entries. by rewrite (lo_split _ _ _ Hok).
    + rewrite Hl'. intros y Hy. right. unfold entries. rewrite (lo_split _ _ _ Hok). by apply Hin.
  - unfold entries. change (find_list rid (put_txn _ _ ?s)) with (find_list rid s).
    rewrite find_put, decide_True, Hl' by done. rewrite <- Ht'.
    intros (y & Hy & HyG)%list_elem_of_fmap. by apply Hin in HyG as [? _].
Qed.

(** What [Unlock] leaves alone. *)
Lemma Unlock_frame t rid s b s' :
  Unlock t rid s = Ok (b, s') ->
  (exists ty, holds t rid ty s) /\ strict_2PL_ s' = strict_2PL_ s /\
  (forall r, r <> rid -> find_list r s' = find_list r s) /\
  exists x x', txns s !! t = Some x /\ txns s' !! t = Some x' /\
    shared_lock_set_ x' = shared_lock_set_ x /\ exclusive_lock_set_ x' = exclusive_lock_set_ x /\
    (state_ x <> GROWING -> state_ x' = state_ x) /\
    (strict_2PL_ s = true -> state_ x <> ABORTED).
Proof.
  unfold Unlock, get_txn. destruct (txns s !! t) as [x|] eqn:Hx; [|done]. simpl. intros Hu.
  destruct (assert_ _) as [[]|] eqn:Ea; [|done]. simpl in Hu.
  assert (Hst : strict_2PL_ s = true -> state_ x <> ABORTED).
  { intros Es E. unfold assert_ in Ea. rewrite Es, E in Ea. simpl in Ea. by case_bool_decide. }
  set (x' := if _ && _ then _ else _) in Hu.
  assert (Hx' : shared_lock_set_ x' = shared_lock_set_ x /\ exclusive_lock_set_ x' = exclusive_lock_set_ x /\
                (state_ x <> GROWING -> state_ x' = state_ x)).
  { unfold x'. destruct (_ && _) eqn:E; [|done]. split; [done|]. split; [done|].
    apply andb_prop in E as [_ E]. by apply bool_decide_eq_true in E. }
  destruct (lock_table_ s !! rid) as [ll|] eqn:Hll; [|done].
  destruct (list_find _ _) as [[i e]|] eqn:Ef; [|done].
  apply list_find_Some in Ef as (Hi & [Hg Ht]%andb_prop & _). apply Z.eqb_eq in Ht.
  rewrite Hg in Hu. simpl in Hu. destruct (release i e ll) as [ll'|]; [|done]. simpl in Hu. simplify_eq.
  split.
  { exists (lock_type_ e), e. unfold entries, find_list. rewrite Hll. simpl.
    split; [by eapply list_elem_of_lookup_2|done]. }
  split; [done|]. split.
  - intros r Hr. change (find_list r (put_txn _ _ ?s)) with (find_list r s).
    rewrite find_put. by rewrite decide_False.
  - exists x, x'. split; [done|]. split; [by simpl; rewrite lookup_insert_eq|]. tauto.
Qed.

Lemma Unlock_inv t rid s pc b s' :
  inv s pc -> pc !! t = None -> Unlock t rid s = Ok (b, s') ->
  inv s' pc /\ (t ∉ txn_ <$> entries rid s').
Proof.
  intros H Hpc Hu. destruct (Unlock_frame _ _ _ _ _ Hu) as ((ty & Hh) & _ & _ & x & x' & Hx & _ & _ & _ & _ & Hst).
  destruct (Unlock_ok t rid ty s pc x H Hpc Hh Hx) as (s2 & Hu2 & Hi & _ & Hn).
  { destruct (strict_2PL_ s); [right; by apply Hst|by left]. }
  assert (s2 = s') as <- by congruence. by split.
Qed.

(** ** Waking up *)

Lemma clear_promise_ok e ll G1 G2 W :
  list_ok ll (G1 ++ e :: G2) W -> promise_ e <> NoPromise ->
  list_ok (mkLockList (G1 ++ set_promise NoPromise e :: G2 ++ W) (list_lock_type_ ll)
                      (list_grant_cnt_ ll))
          (G1 ++ set_promise NoPromise e :: G2) W.
Proof.
  intros H Hp.
  assert (Hlen : length (G1 ++ set_promise NoPromise e :: G2) = length (G1 ++ e :: G2))
    by (by rewrite !length_app).
  assert (Ht : txn_ <$> G1 ++ set_promise NoPromise e :: G2 = txn_ <$> G1 ++ e :: G2)
    by (by rewrite !fmap_app).
  destruct H. split; simpl; try done.
  - by rewrite <- app_assoc.
  - by rewrite Hlen.
  - rewrite Hlen. destruct lo_mode0 as [?|[?|Hn]]; [by left|by right; left|by destruct G1].
  - apply Forall_app in lo_holders0 as [HF1 HF2]. apply Forall_cons in HF2 as [(? & ? & ?) HF2].
    apply Forall_app. split; [done|]. by constructor.
  - by rewrite Ht.
  - unfold upgrades. rewrite Hlen. intros g w Hg Hw.
    apply elem_of_app in Hg as [Hg|[-> | Hg]%elem_of_cons].
    + apply lo_older0; [apply elem_of_app; by left|done].
    + left. simpl. destruct (lo_older0 e w) as [?|(_ & _ & ? & _)]; [set_solver|done|done|done].
    + apply lo_older0; [apply elem_of_app; right; by right|done].
  - intros _. by destruct G1.
Qed.

(** The entry a blocked transaction waits on. *)
Lemma await_entry t k rid s pc :
  inv s pc -> pc !! t = Some (k, rid) ->
  exists i e, list_find (fun e => awaited t e = true) (entries rid s) = Some (i, e) /\
              entries rid s !! i = Some e /\ txn_ e = t /\ promise_ e <> NoPromise.
Proof.
  intros H Hpc. apply (inv_blocked _ _ H) in Hpc as (e & He & Het & _ & Hp)%elem_of_waiting.
  destruct (list_find _ _) as [[i e']|] eqn:Ef.
  - exists i, e'. split; [done|]. apply list_find_Some in Ef as (Hi & Ha & _).
    unfold awaited in Ha. apply andb_prop in Ha as [Ha1 Ha2]. apply Z.eqb_eq in Ha1.
    apply negb_true_iff, bool_decide_eq_false in Ha2. done.
  - rewrite list_find_None, Forall_forall in Ef. exfalso. apply (Ef e He). unfold awaited.
    by rewrite (proj2 (Z.eqb_eq _ _)), bool_decide_false.
Qed.

Definition grant (k : kind) (rid : RID) (x : Transaction) : Transaction :=
  match k with
  | KShared => add_shared rid x
  | KExclusive => add_exclusive rid x
  | KUpgrade => drop_shared rid (add_exclusive rid x)
  end.

Lemma lock_end_finish k : lock_end k = finish (grant k).
Proof. by destruct k. Qed.

Lemma resume_waiting t k rid s pc G1 e G2 W x :
  inv s pc -> pc !! t = Some (k, rid) -> list_ok (find_list rid s) (G1 ++ e :: G2) W ->
  txn_ e = t -> promise_ e <> NoPromise ->
  inv (put_txn t x (put_list rid (mkLockList (G1 ++ set_promise NoPromise e :: G2 ++ W)
                      (list_lock_type_ (find_list rid s)) (list_grant_cnt_ (find_list rid s))) s))
      (delete t pc).
Proof.
  intros H Hpc Hok Het Hp. pose proof (clear_promise_ok _ _ _ _ _ Hok Hp) as Hok'.
  assert (Hent : entries rid s = G1 ++ e :: G2 ++ W)
    by (unfold entries; by rewrite (lo_split _ _ _ Hok), <- app_assoc).
  assert (Hdom : forall t', is_Some (txns s !! t') -> is_Some (<[t := x]> (txns s) !! t')).
  { intros t' Ht'. destruct (decide (t = t')) as [->|]; [by rewrite lookup_insert_eq|].
    by rewrite lookup_insert_ne. }
  assert (Hrest : forall ty, (t, ty) ∉ waiting (G1 ++ set_promise NoPromise e :: G2 ++ W)).
  { intros ty (y & Hy & Hyt & _ & Hyp)%elem_of_waiting.
    pose proof (lo_nodup _ _ _ Hok) as Hnd. rewrite <- Permutation_middle, fmap_cons, NoDup_cons in Hnd.
    destruct Hnd as [Hnd _]. rewrite Het, <- Hyt in Hnd.
    assert (Hy' : y ∈ G1 ++ G2 \/ y = set_promise NoPromise e \/ y ∈ W) by set_solver.
    destruct Hy' as [Hin|[->|Hin]]; [apply Hnd; by apply list_elem_of_fmap_2|done|].
    destruct (lo_older _ _ _ Hok e y) as [?|(_ & _ & ? & _)]; [set_solver|done|lia|done]. }
  match goal with |- inv ?s' _ => 
    apply (inv_change t rid _ _ _ s s' pc (delete t pc) H (fun r => find_put rid _ r s) Hok') end;
    simpl; try done.
  - intros y Hy. assert (Hy' : txn_ y ∈ txn_ <$> entries rid s).
    { rewrite Hent. apply (list_elem_of_fmap_2 txn_) in Hy.
      replace (txn_ <$> G1 ++ e :: G2 ++ W) with (txn_ <$> G1 ++ set_promise NoPromise e :: G2 ++ W);
        [done|by rewrite !fmap_app]. }
    apply list_elem_of_fmap in Hy' as (z & -> & Hz). by apply Hdom, (inv_txn _ _ H rid).
  - intros t' Hne. by rewrite lookup_delete_ne, lookup_insert_ne.
  - intros t' ty Hne. rewrite Hent, !(waiting_app G1), !elem_of_app, !waiting_cons.
    rewrite decide_True, (decide_False (P := promise_ e = _)) by done. cbn [app].
    rewrite elem_of_cons. split; [tauto|]. intros [?|[[= -> _]|?]]; auto. done.
  - intros k' r. by rewrite lookup_delete_eq.
  - intros ty Hty. by apply Hrest in Hty.
  - intros r ty Hr Hw. apply (inv_waiting _ _ H) in Hw as (k' & Hk' & _). congruence.
Qed.

Lemma resume_ok t k rid s pc :
  inv s pc -> pc !! t = Some (k, rid) ->
  (exists s', lock_end k t rid s = Ok (true, s') /\ inv s' (delete t pc) /\
              strict_2PL_ s' = strict_2PL_ s) \/
  (lock_end k t rid s = Fail Blocked /\
   exists e, e ∈ entries rid s /\ txn_ e = t /\ grated_ e = false).
Proof.
  intros H Hpc. destruct (await_entry _ _ _ _ _ H Hpc) as (i & e & Hf & Hi & Het & Hp).
  destruct (inv_list _ _ H rid) as (G & W & Hok). rewrite lock_end_finish. unfold finish, await.
  fold (entries rid s). rewrite Hf.
  pose proof (lo_split _ _ _ Hok) as Hl. fold (entries rid s) in Hl.
  destruct (promise_ e) eqn:Ep; [done| |].
  { right. split; [done|]. exists e. pose proof (list_elem_of_lookup_2 _ _ _ Hi) as He.
    repeat split; [done..|]. rewrite Hl in He. apply elem_of_app in He as [He|He].
    - pose proof (proj1 (Forall_forall _ _) (lo_holders _ _ _ Hok) _ He) as (_ & ? & _). congruence.
    - by pose proof (proj1 (Forall_forall _ _) (lo_waiters _ _ _ Hok) _ He) as (? & _ & _). }
  left. destruct (inv_state _ _ H _ _ _ Hpc) as (x & Hx & Hst).
  rewrite bind_ok. unfold get_txn. simpl. rewrite Hx. simpl. rewrite bool_decide_false by done.
  eexists. split; [done|]. split; [|done].
  assert (HiG : G !! i = Some e).
  { rewrite Hl in Hi. apply lookup_app_Some in Hi as [Hi|[_ Hi]]; [done|].
    apply list_elem_of_lookup_2 in Hi.
    pose proof (proj1 (Forall_forall _ _) (lo_waiters _ _ _ Hok) _ Hi) as (_ & ? & _). congruence. }
  pose proof (list_elem_of_split_length _ _ _ HiG) as (G1 & G2 & -> & ->).
  replace (<[length G1 := set_promise NoPromise e]> (entries rid s))
    with (G1 ++ set_promise NoPromise e :: G2 ++ W).
  - eapply resume_waiting; [done|done|done|done|by rewrite Ep].
  - rewrite Hl, <- app_assoc. cbn [app]. by rewrite insert_app_r_alt, Nat.sub_diag by lia.
Qed.

Lemma inv_create strict : inv (create strict) ∅.
Proof.
  split; unfold entries; intros *; try (rewrite lookup_empty; done);
    replace (find_list rid (create strict)) with new_list by done; simpl.
  - exists [], []. split; simpl; try done; try by constructor.
    { by right; right. }
    intros ?? []%not_elem_of_nil.
  - intros []%not_elem_of_nil.
  - intros []%not_elem_of_nil.
Qed.

Lemma lock_strict k t rid s o s' : lock k t rid s = Ok (o, s') -> strict_2PL_ s' = strict_2PL_ s.
Proof.
  assert (Hwd : forall ty x ll, wait_or_die t rid ty x ll s = Ok (o, s') -> strict_2PL_ s' = strict_2PL_ s).
  { intros ty x ll. unfold wait_or_die. intros Hw. inv_bind. by case_match; simplify_eq. }
  destruct k; simpl; unfold LockShared, LockExclusive, LockUpgrade; intros Hl; inv_bind;
    repeat (case_match; simplify_eq; try done; inv_bind; simplify_eq; try done); by eapply Hwd.
Qed.

Lemma inv_step sp sp' : inv sp.1 sp.2 -> step sp sp' -> inv sp'.1 sp'.2 /\ strict_2PL_ sp'.1 = strict_2PL_ sp.1.
Proof.
  intros H Hs. destruct Hs as [t s pc Ht|k t rid s pc o s' Hpc Hmay Hl|k t rid s pc b s' Hpc Hl
    |t rid ty s pc b s' Hpc Hh Hu|t st x s pc Hpc Hx]; simpl in *.
  - split; [|done]. apply inv_own_txn; [done|]. destruct (pc !! t) as [[k rid]|] eqn:E; [|done].
    apply (inv_state _ _ H) in E as (x & ? & _). congruence.
  - split; [|by eapply lock_strict]. destruct (lock_ok k t rid s pc H Hpc Hmay) as (o' & s'' & Hl' & Hi).
    congruence.
  - destruct (resume_ok _ _ _ _ _ H Hpc) as [(s'' & Hl' & Hi & Hst)|[Hl' _]]; [|congruence].
    split; congruence.
  - destruct Hh as (e & He & Het & Hrest). destruct (inv_txn _ _ H rid e He) as [x Hx]. rewrite Het in Hx.
    destruct (Unlock_ok t rid ty s pc x H Hpc) as (s'' & Hu' & Hi & Hst & _); [by exists e|done| |].
    + unfold Unlock, get_txn in Hu. rewrite Hx in Hu. simpl in Hu. inv_bind.
      destruct (strict_2PL_ s); [|by left]. right. intros E. rewrite E in *. simpl in *.
      unfold assert_ in *. case_match; [|done]. by case_bool_decide.
    + split; congruence.
  - split; [|done]. by apply inv_own_txn.
Qed.

Lemma inv_steps strict sp sp' :
  rtc step sp sp' -> inv sp.1 sp.2 /\ strict_2PL_ sp.1 = strict ->
  inv sp'.1 sp'.2 /\ strict_2PL_ sp'.1 = strict.
Proof.
  induction 1 as [|sp1 sp2 sp3 Hs _ IH]; [done|]. intros [Hi Hst]. apply IH.
  destruct (inv_step _ _ Hi Hs) as [? ?]. split; [done|congruence].
Qed.

Lemma inv_reachable strict s pc :
  reachable strict (s, pc) -> inv s pc /\ strict_2PL_ s = strict.
Proof. intros Hr. apply (inv_steps strict _ _ Hr). split; [apply inv_create|done]. Qed.

(** [t] waits for a lock that [h] holds. *)
Definition waits_for (s : LockManager) (pc : Blocks) (t h : Z) : Prop :=
  exists k rid ty, pc !! t = Some (k, rid) /\ lock_end k t rid s = Fail Blocked /\
                   holds h rid ty s /\ t <> h.

(** A transaction that is not in a lock call, or whose lock was granted. *)
Definition can_run (s : LockManager) (pc : Blocks) (t : Z) : Prop :=
  forall k rid, pc !! t = Some (k, rid) -> exists s', lock_end k t rid s = Ok (true, s').

Lemma zlist_bound (l : list Z) : exists M, forall x, x ∈ l -> x <= M.
Proof.
  induction l as [|y l [M HM]]; [exists 0; by intros ? ?%not_elem_of_nil|].
  exists (Z.max y M). intros x [->|Hx]%elem_of_cons; [lia|]. specialize (HM x Hx). lia.
Qed.

Lemma waits_for_younger s pc t k rid :
  inv s pc -> pc !! t = Some (k, rid) -> lock_end k t rid s = Fail Blocked ->
  exists h, waits_for s pc t h /\ t < h.
Proof.
  intros H Hpc Hb. destruct (resume_ok _ _ _ _ _ H Hpc) as [(s' & Hl & _)|(_ & w & Hw & Hwt & Hwg)];
    [congruence|].
  destruct (inv_list _ _ H rid) as (G & W & Hok). pose proof (lo_split _ _ _ Hok) as Hl.
  assert (HwW : w ∈ W).
  { unfold entries in Hw. rewrite Hl in Hw. apply elem_of_app in Hw as [Hw|Hw]; [|done].
    pose proof (proj1 (Forall_forall _ _) (lo_holders _ _ _ Hok) _ Hw) as (? & _). congruence. }
  assert (Hh : exists g, g ∈ G /\ txn_ w < txn_ g).
  { destruct G as [|g G]; [exfalso; apply (lo_awake _ _ _ Hok); [by intros ->; apply not_elem_of_nil in HwW|done]|].
    destruct (lo_older _ _ _ Hok g w) as [?|(Heq & _ & _ & _ & Hlen)]; [by left|done|exists g; by split; [left|]|].
    destruct G as [|g2 G]; [simpl in Hlen; lia|]. exists g2. split; [right; by left|].
    destruct (lo_older _ _ _ Hok g2 w) as [?|(Heq2 & _)]; [right; by left|done|done|exfalso].
    pose proof (lo_nodup _ _ _ Hok) as Hnd. rewrite !fmap_cons, NoDup_cons in Hnd.
    apply Hnd. rewrite <- Heq, Heq2. by left. }
  destruct Hh as (g & Hg & Hlt). exists (txn_ g). split; [|lia].
  exists k, rid, (lock_type_ g). split; [done|]. split; [done|]. split; [|lia].
  exists g. pose proof (proj1 (Forall_forall _ _) (lo_holders _ _ _ Hok) _ Hg) as (? & _).
  repeat split; try done. unfold entries. rewrite Hl. apply elem_of_app. by left.
Qed.

Lemma younger_chain s pc M (n : nat) t :
  inv s pc -> (forall t p, pc !! t = Some p -> t <= M) -> M - t < Z.of_nat n ->
  exists h, rtc (fun a b => waits_for s pc a b /\ a < b) t h /\ can_run s pc h.
Proof.
  intros H HM. revert t. induction n as [|n IH]; intros t Hn.
  - exists t. split; [apply rtc_refl|]. intros k rid Hpc. apply HM in Hpc. lia.
  - destruct (pc !! t) as [[k rid]|] eqn:Hpc.
    2:{ exists t. split; [apply rtc_refl|]. intros k rid. congruence. }
    destruct (resume_ok _ _ _ _ _ H Hpc) as [(s' & Hl & _)|(Hb & _)].
    { exists t. split; [apply rtc_refl|]. intros k' rid' Hpc'. simplify_eq. by exists s'. }
    destruct (waits_for_younger _ _ _ _ _ H Hpc Hb) as (h & Hh & Hlt).
    destruct (IH h) as (h' & Hr & Hc); [lia|]. exists h'. split; [|done].
    eapply rtc_l; [split; [exact Hh|exact Hlt]|exact Hr].
Qed.

(** ** Properties *)

(** C14: mutual exclusion and order of the lock table: in every reachable state a record
    held exclusively has one holder, the holders are the first entries of the list and
    [list_grant_cnt_] counts them, a record with waiters has a holder, and nobody waits
    behind an older transaction (wait-die). *)
Theorem lock_mutual_exclusion (strict : bool) (s : LockManager) (pc : Blocks)
    (H : reachable strict (s, pc)) (rid : RID) :
  (forall t t' ty, holds t rid EXCLUSIVE s -> holds t' rid ty s -> t' = t) /\
  exists G W, entries rid s = G ++ W /\ list_grant_cnt_ (find_list rid s) = Z.of_nat (length G) /\
    Forall (fun e => grated_ e = true) G /\ Forall (fun e => grated_ e = false) W /\
    (W <> [] -> G <> []) /\ NoDup (txn_ <$> G) /\
    (forall e w, e ∈ G -> w ∈ W -> txn_ w <= txn_ e) /\ StronglySorted Z.gt (txn_ <$> W).
Proof.
  apply inv_reachable in H as [H _]. destruct (inv_list _ _ H rid) as (G & W & Hok). split.
  - intros t t' ty (e & He & Het & Heg & Hex) (e' & He' & Het' & Heg' & _).
    pose proof (granted_holder _ _ _ _ Hok He Heg) as HG.
    pose proof (granted_holder _ _ _ _ Hok He' Heg') as HG'.
    pose proof (proj1 (Forall_forall _ _) (lo_holders _ _ _ Hok) _ HG) as (_ & _ & Hty).
    destruct (lo_mode _ _ _ Hok) as [|[[_ Hlen]| ->]]; [congruence| |by apply not_elem_of_nil in HG].
    destruct G as [|g [|]]; [by apply not_elem_of_nil in HG| |simpl in Hlen; lia].
    apply list_elem_of_singleton in HG, HG'. congruence.
  - exists G, W. split; [apply (lo_split _ _ _ Hok)|]. split; [apply (lo_cnt _ _ _ Hok)|].
    split; [eapply Forall_impl; [exact (lo_holders _ _ _ Hok)|by intros e (? & _)]|].
    split; [eapply Forall_impl; [exact (lo_waiters _ _ _ Hok)|by intros e (? & _)]|].
    split; [apply (lo_awake _ _ _ Hok)|]. split; [apply (lo_nodup _ _ _ Hok)|].
    split; [|apply (lo_sorted _ _ _ Hok)].
    intros e w He Hw. destruct (lo_older _ _ _ Hok e w He Hw) as [?|(? & _)]; lia.
Qed.

(** C16: no assertion of the lock manager fails and no call is undefined, in any
    interleaving of transactions that follow the protocol: a lock call of a running
    transaction returns or waits, the release of a held lock succeeds and takes the
    transaction off the list, unless the manager is strict and the transaction aborted. *)
Theorem lock_calls_total (strict : bool) (s : LockManager) (pc : Blocks) (t : Z) (rid : RID)
    (H : reachable strict (s, pc)) (Hidle : pc !! t = None) :
  (forall k, may_lock k t rid s -> is_ok (lock k t rid s) = true) /\
  (forall ty x, holds t rid ty s -> txns s !! t = Some x -> strict = false \/ state_ x <> ABORTED ->
     exists s', Unlock t rid s = Ok (true, s') /\ (t ∉ txn_ <$> entries rid s')).
Proof.
  apply inv_reachable in H as [H Hst]. split.
  - intros k Hk. by destruct (lock_ok k t rid s pc H Hidle Hk) as (o & s' & -> & _).
  - intros ty x Hh Hx Hok. rewrite <- Hst in Hok.
    destruct (Unlock_ok t rid ty s pc x H Hidle Hh Hx Hok) as (s' & Hu & _ & _ & Hnot). by exists s'.
Qed.

(** C15: wait-die prevents deadlocks: in every reachable state every transaction either
    can run or waits, through a chain of younger and younger holders, for one that can. *)
Theorem lock_no_deadlock (strict : bool) (s : LockManager) (pc : Blocks) (t : Z)
    (H : reachable strict (s, pc)) :
  exists h, rtc (fun a b => waits_for s pc a b /\ a < b) t h /\ can_run s pc h.
Proof.
  apply inv_reachable in H as [H _].
  destruct (zlist_bound (map_to_list pc).*1) as [M HM].
  apply (younger_chain s pc M (Z.to_nat (M - t + 1))); [done| |lia].
  intros t' p Hp. apply HM. apply list_elem_of_fmap. exists (t', p). split; [done|].
  by apply elem_of_map_to_list.
Qed.

(** ** Witnesses *)

(** Transaction 2 reads a record, the older transaction 1 waits to write it. *)
Definition r0 : RID := mkRID 0 0.
Definition state_of (m : result (outcome * LockManager)) : LockManager :=
  match m with Ok (_, s) => s | Fail _ => create false end.
Definition sample0 : LockManager := put_txn 2 new_txn (put_txn 1 new_txn (create false)).
Definition sample1 : LockManager := state_of (LockShared 2 r0 sample0).
Definition sample2 : LockManager := state_of (LockExclusive 1 r0 sample1).
Definition sample_pc : Blocks := {[1 := (KExclusive, r0)]}.

Lemma sample_reachable : reachable false (sample2, sample_pc).
Proof.
  apply rtc_l with (put_txn 1 new_txn (create false), ∅); [by apply step_begin|].
  apply rtc_l with (sample0, ∅); [by apply step_begin|].
  apply rtc_l with (sample1, ∅).
  { apply (step_lock KShared 2 r0 sample0 ∅ (Returned true) sample1); [done| |reflexivity].
    exists new_txn. split; [reflexivity|]. split; [done|]. left. apply not_elem_of_nil. }
  apply rtc_once. apply (step_lock KExclusive 1 r0 sample1 ∅ Waits sample2); [done| |reflexivity].
  exists new_txn. split; [reflexivity|]. split; [done|]. by_computation.
Qed.

Lemma sample_holds : holds 2 r0 SHARED sample2.
Proof. exists (mkInfo 2 true SHARED NoPromise). split; [left|done]. Qed.

Lemma lock_mutual_exclusion_witness :
  reachable false (sample2, sample_pc) /\
  ~ holds 1 r0 EXCLUSIVE sample2.
Proof.
  split; [exact sample_reachable|]. intros H.
  destruct (lock_mutual_exclusion false sample2 sample_pc sample_reachable r0) as [Hx _].
  specialize (Hx 1 2 SHARED H sample_holds). discriminate Hx.
Defined.

Lemma lock_calls_total_witness :
  exists s', Unlock 2 r0 sample2 = Ok (true, s') /\ (2 ∉ txn_ <$> entries r0 s').
Proof.
  destruct (lock_calls_total false sample2 sample_pc 2 r0 sample_reachable) as [_ Hu].
  - reflexivity.
  - apply (Hu SHARED (mkTxn GROWING {[r0]} ∅)); [exact sample_holds|reflexivity|left; reflexivity].
Defined.

Lemma lock_no_deadlock_witness :
  lock_end KExclusive 1 r0 sample2 = Fail Blocked /\
  exists h, rtc (fun a b => waits_for sample2 sample_pc a b /\ a < b) 1 h /\ can_run sample2 sample_pc h.
Proof.
  split; [reflexivity|]. exact (lock_no_deadlock false sample2 sample_pc 1 sample_reachable).
Defined.
End Lock.
