(* ===== verification/RWMutex.v ===== *)
(** * The reader-writer lock (src/src/include/common/rwmutex.h)

    A monitor: each method holds the mutex, so its parts between two waits are atomic.  A
    thread is outside, asleep or woken at one of the three waits, or inside as a reader or
    as the writer; a woken thread takes the mutex and tests its condition again.  The
    interleavings of any number of threads are a step relation. *)

From stdpp Require Import prelude list relations.
From Stdlib Require Import ZArith Lia.
From S2P Require Import Prelude.

Local Open Scope Z_scope.

Module RWMutex.

(** ** The lock *)

Definition max_readers_ : Z := 2 ^ 32 - 1.

Record RWMutex := mkRWMutex {
  reader_count_ : Z;
  writer_entered_ : bool
}.

Definition create : RWMutex := mkRWMutex 0 false.

(** Where a call stops: it returns with the lock, or it waits on [reader_] or [writer_];
    the wait of a writer on [reader_] is before it enters. *)
Inductive Wait := OnReader | OnWriter.
#[export] Instance Wait_eq_dec : EqDecision Wait.
Proof. solve_decision. Defined.

Inductive outcome := Locked | Waits (cv : Wait).

(** The end of WLock, once the writer has entered. *)
Definition drain (m : RWMutex) : RWMutex * outcome :=
  (m, if 0 <? reader_count_ m then Waits OnWriter else Locked).

Definition WLock (m : RWMutex) : RWMutex * outcome :=
  if writer_entered_ m then (m, Waits OnReader)
  else drain (mkRWMutex (reader_count_ m) true).

Definition RLock (m : RWMutex) : RWMutex * outcome :=
  if writer_entered_ m || (reader_count_ m =? max_readers_) then (m, Waits OnReader)
  else (mkRWMutex (uwrap 32 (reader_count_ m + 1)) (writer_entered_ m), Locked).

(** The calls of [notify_one] and [notify_all]. *)
Inductive Notify := Nobody | One (cv : Wait) | AllReaders.

Definition WUnlock (m : RWMutex) : RWMutex * Notify :=
  (mkRWMutex (reader_count_ m) false, AllReaders).

Definition RUnlock (m : RWMutex) : RWMutex * Notify :=
  let m := mkRWMutex (uwrap 32 (reader_count_ m - 1)) (writer_entered_ m) in
  (m, if writer_entered_ m then if reader_count_ m =? 0 then One OnWriter else Nobody
      else if reader_count_ m =? max_readers_ - 1 then One OnReader else Nobody).

(** ** Threads *)

Inductive Status :=
| Out
| Entering (awake : bool)  (* WLock, the wait for the other writer *)
| Draining (awake : bool)  (* WLock, the wait for the readers *)
| Starting (awake : bool)  (* RLock *)
| Writing
| Reading.

#[export] Instance Status_eq_dec : EqDecision Status.
Proof. solve_decision. Defined.

(** A thread that waits, and where. *)
Definition waits_on (x : Status) : option (Wait * bool) :=
  match x with
  | Entering b | Starting b => Some (OnReader, b)
  | Draining b => Some (OnWriter, b)
  | _ => None
  end.

Definition wake (x : Status) : Status :=
  match x with
  | Entering _ => Entering true
  | Draining _ => Draining true
  | Starting _ => Starting true
  | x => x
  end.

Definition wake_reader (x : Status) : Status :=
  match waits_on x with Some (OnReader, _) => wake x | _ => x end.

(** Where WLock and RLock leave their thread. *)
Definition after_wlock (o : outcome) : Status :=
  match o with Locked => Writing | Waits OnReader => Entering false | Waits OnWriter => Draining false end.
Definition after_rlock (o : outcome) : Status :=
  match o with Locked => Reading | Waits _ => Starting false end.

Definition State : Type := RWMutex * list Status.

(** [n] threads, all outside. *)
Definition start (n : nat) : State := (create, replicate n Out).

(** Which threads a notification wakes: any one of those asleep there. *)
Inductive notified : Notify -> list Status -> list Status -> Prop :=
| notified_nobody ths : notified Nobody ths ths
| notified_all ths : notified AllReaders ths (map wake_reader ths)
| notified_none cv ths :
    (forall x, x ∈ ths -> waits_on x <> Some (cv, false)) -> notified (One cv) ths ths
| notified_one cv ths i x :
    ths !! i = Some x -> waits_on x = Some (cv, false) -> notified (One cv) ths (<[i := wake x]> ths).

(** A thread outside calls WLock or RLock. *)
Inductive call : State -> State -> Prop :=
| call_wlock m ths i m' o :
    ths !! i = Some Out -> WLock m = (m', o) -> call (m, ths) (m', <[i := after_wlock o]> ths)
| call_rlock m ths i m' o :
    ths !! i = Some Out -> RLock m = (m', o) -> call (m, ths) (m', <[i := after_rlock o]> ths).

(** A call goes on: a woken thread tests its condition again, or one inside unlocks. *)
Inductive work : State -> State -> Prop :=
| work_enter m ths i m' o :
    ths !! i = Some (Entering true) -> WLock m = (m', o) -> work (m, ths) (m', <[i := after_wlock o]> ths)
| work_drain m ths i m' o :
    ths !! i = Some (Draining true) -> drain m = (m', o) -> work (m, ths) (m', <[i := after_wlock o]> ths)
| work_start m ths i m' o :
    ths !! i = Some (Starting true) -> RLock m = (m', o) -> work (m, ths) (m', <[i := after_rlock o]> ths)
| work_wunlock m ths i m' e ths' :
    ths !! i = Some Writing -> WUnlock m = (m', e) -> notified e (<[i := Out]> ths) ths' -> work (m, ths) (m', ths')
| work_runlock m ths i m' e ths' :
    ths !! i = Some Reading -> RUnlock m = (m', e) -> notified e (<[i := Out]> ths) ths' -> work (m, ths) (m', ths').

(** A wait may return without a notification. *)
Inductive spurious : State -> State -> Prop :=
| spurious_wake m ths i x : ths !! i = Some x -> spurious (m, ths) (m, <[i := wake x]> ths).

Definition step (s s' : State) : Prop := call s s' \/ work s s' \/ spurious s s'.

Definition reachable (n : nat) (s : State) : Prop := rtc step (start n) s.

(** ** Sums over the threads *)

Section Sums.
Implicit Types (f g : Status -> nat) (ths : list Status).

Definition total f ths : nat := sum_list_with f ths.

Lemma total_insert f ths i x y :
  ths !! i = Some x -> (total f (<[i := y]> ths) + f x = total f ths + f y)%nat.
Proof.
  revert i. induction ths as [|z ths IH]; intros [|i] Hi; [done|done| |].
  - injection Hi as ->. simpl. lia.
  - simpl in *. specialize (IH _ Hi). lia.
Qed.

Lemma total_lookup f ths i x : ths !! i = Some x -> (f x <= total f ths)%nat.
Proof.
  revert i. induction ths as [|z ths IH]; intros [|i] Hi; [done|done| |]; simpl in *.
  - injection Hi as ->. lia.
  - specialize (IH i Hi). lia.
Qed.

Lemma total_pair f ths i j x y : f Out = 0%nat ->
  i <> j -> ths !! i = Some x -> ths !! j = Some y -> (f x + f y <= total f ths)%nat.
Proof.
  intros H0 Hij Hi Hj. pose proof (total_insert f ths i x Out Hi).
  assert (Hj' : <[i := Out]> ths !! j = Some y) by (by rewrite list_lookup_insert_ne).
  pose proof (total_lookup f _ _ _ Hj'). lia.
Qed.

Lemma total_le f g ths : (forall x, (f x <= g x)%nat) -> (total f ths <= total g ths)%nat.
Proof. intros H. induction ths as [|x ths IH]; simpl; [done|]. specialize (H x). lia. Qed.

Lemma total_add f g ths : total (fun x => f x + g x)%nat ths = (total f ths + total g ths)%nat.
Proof. induction ths as [|x ths IH]; simpl; lia. Qed.

Lemma total_const c ths : total (fun _ => c) ths = (c * length ths)%nat.
Proof. induction ths as [|x ths IH]; simpl; lia. Qed.

Lemma total_map f w ths : total f (map w ths) = total (fun x => f (w x)) ths.
Proof. induction ths as [|x ths IH]; simpl; lia. Qed.

Lemma total_ext f g ths : (forall x, f x = g x) -> total f ths = total g ths.
Proof. intros H. induction ths as [|x ths IH]; simpl; [done|]. by rewrite H, IH. Qed.

Lemma total_pos f ths : (0 < total f ths)%nat <-> exists x, x ∈ ths /\ (0 < f x)%nat.
Proof.
  induction ths as [|y ths IH]; simpl.
  - split; [lia|]. by intros (x & ?%not_elem_of_nil & _).
  - split.
    + intros H. destruct (decide (0 < f y)%nat); [exists y; split; [left|done]|].
      destruct (proj1 IH) as (x & Hx & Hf); [lia|]. exists x. split; [by right|done].
    + intros (x & [->|Hx]%elem_of_cons & Hf); [lia|].
      enough (0 < total f ths)%nat by lia. apply IH. by exists x.
Qed.
End Sums.

(** ** Weights *)

Definition reading (x : Status) : nat := match x with Reading => 1 | _ => 0 end.
Definition writing (x : Status) : nat := match x with Writing => 1 | _ => 0 end.
(** Inside WLock past the first wait, or holding the lock. *)
Definition entered (x : Status) : nat := match x with Writing | Draining _ => 1 | _ => 0 end.
Definition asleep (cv : Wait) (x : Status) : nat :=
  match cv, waits_on x with OnReader, Some (OnReader, false) | OnWriter, Some (OnWriter, false) => 1 | _, _ => 0 end.
Definition awake (x : Status) : nat := match waits_on x with Some (_, true) => 1 | _ => 0 end.
(** The parts a call has still to run. *)
Definition left_over (x : Status) : nat :=
  match x with Out => 0 | Reading | Writing => 1 | Starting _ | Draining _ => 2 | Entering _ => 3 end.

(** A weight that does not see who is awake. *)
Definition blind (f : Status -> nat) : Prop := forall x, f (wake x) = f x.

Lemma blind_reader f x : blind f -> f (wake_reader x) = f x.
Proof. intros H. unfold wake_reader. destruct (waits_on x) as [[[] ?]|]; [apply H|done..]. Qed.

Lemma notified_blind f e ths ths' : blind f -> notified e ths ths' -> total f ths' = total f ths.
Proof.
  intros Hf Hn. destruct Hn as [| | |cv l i x Hi Hx]; try done.
  - rewrite total_map. apply total_ext. intros x. by apply blind_reader.
  - pose proof (total_insert f l i x (wake x) Hi) as E. rewrite Hf in E. lia.
Qed.

Lemma notified_length e ths ths' : notified e ths ths' -> length ths' = length ths.
Proof. intros []; [done|apply length_map|done|apply length_insert]. Qed.

(** After a notification of the readers none is asleep; after one of the writer, where at
    most one is, none is. *)
Lemma notified_readers ths ths' : notified AllReaders ths ths' -> total (asleep OnReader) ths' = 0%nat.
Proof.
  inversion_clear 1. rewrite total_map, (total_ext _ (fun _ => 0%nat)), total_const; [done|]. by intros [].
Qed.

Lemma asleep_wake cv cv' x : waits_on x = Some (cv', false) ->
  (asleep cv (wake x) = 0 /\ asleep cv x <= 1 /\ (cv = cv' -> asleep cv x = 1))%nat.
Proof. destruct x as [|[]|[]|[]| |], cv, cv'; intros [=]; simpl; split_and!; (lia || done). Qed.

Lemma notified_le cv e ths ths' : notified e ths ths' -> (total (asleep cv) ths' <= total (asleep cv) ths)%nat.
Proof.
  intros Hn. destruct Hn as [| | |cv' l i x Hi Hx].
  - done.
  - rewrite total_map. apply total_le. intros x. destruct x as [|[]|[]|[]| |], cv; simpl; lia.
  - done.
  - pose proof (total_insert (asleep cv) l i x (wake x) Hi) as E. pose proof (asleep_wake cv cv' x Hx). lia.
Qed.

Lemma notified_writer ths ths' :
  notified (One OnWriter) ths ths' -> (total (asleep OnWriter) ths <= 1)%nat -> total (asleep OnWriter) ths' = 0%nat.
Proof.
  intros H Hone. inversion H as [| |cv l Hnone|cv l i x Hi Hx]; subst.
  - destruct (total (asleep OnWriter) ths') eqn:E; [done|]. exfalso.
    destruct (proj1 (total_pos (asleep OnWriter) ths')) as (x & Hin & Hx); [lia|]. apply (Hnone x Hin).
    destruct x as [|[]|[]|[]| |]; simpl in Hx; first [lia|done].
  - pose proof (total_insert (asleep OnWriter) ths i x (wake x) Hi) as E. destruct (asleep_wake OnWriter OnWriter x Hx) as (H0 & _ & H1).
    specialize (H1 eq_refl). lia.
Qed.

(** Some thread can be chosen. *)
Lemma notified_exists e ths : exists ths', notified e ths ths'.
Proof.
  destruct e as [|cv|]; [by eexists; constructor| |by eexists; constructor].
  destruct (decide (Exists (fun x => waits_on x = Some (cv, false)) ths)) as [H|H].
  - apply Exists_exists in H as (x & [i Hi]%list_elem_of_lookup & Hx). eexists. by apply (notified_one cv ths i x).
  - exists ths. constructor. intros x Hx E. apply H, Exists_exists. by exists x.
Qed.

(** ** The invariant *)

Lemma uwrap_small w z : 0 <= z < 2 ^ w -> uwrap w z = z.
Proof. apply Z.mod_small. Qed.

(** The counters say who is inside, and a writer is inside alone. *)
Record inv (s : State) : Prop := {
  iv_readers : reader_count_ s.1 = Z.of_nat (total reading s.2);
  iv_max : reader_count_ s.1 <= max_readers_;
  iv_writer : total entered s.2 = if writer_entered_ s.1 then 1%nat else 0%nat;
  iv_alone : (0 < total writing s.2)%nat -> total reading s.2 = 0%nat
}.

(** Who sleeps has to. *)
Record sleepers (s : State) : Prop := {
  sl_readers : (0 < total (asleep OnReader) s.2)%nat -> writer_entered_ s.1 = true;
  sl_writer : (0 < total (asleep OnWriter) s.2)%nat -> 0 < reader_count_ s.1
}.

(** The weights of the threads after one of them changes. *)
Ltac weigh :=
  repeat match goal with
  | Hi : ?ths !! ?i = Some ?x |- context [total ?f (<[?i := ?y]> ?ths)] =>
      lazymatch goal with
      | _ : (total f (<[i := y]> ths) + _ = _)%nat |- _ => fail
      | _ => pose proof (total_insert f ths i x y Hi); pose proof (total_lookup f ths i x Hi)
      end
  | Hi : ?ths !! ?i = Some ?x, _ : context [total ?f (<[?i := ?y]> ?ths)] |- _ =>
      lazymatch goal with
      | _ : (total f (<[i := y]> ths) + _ = _)%nat |- _ => fail
      | _ => pose proof (total_insert f ths i x y Hi); pose proof (total_lookup f ths i x Hi)
      end
  end; cbn [reading writing entered asleep waits_on after_wlock after_rlock wake] in *.

Lemma writing_entered ths : (total writing ths <= total entered ths)%nat.
Proof. apply total_le. by intros []; simpl; lia. Qed.

Lemma reader_room ths i x : ths !! i = Some x -> reading x = 0%nat -> (total reading ths < length ths)%nat.
Proof.
  intros Hi Hx. pose proof (total_lookup (fun x => 1 - reading x)%nat ths i x Hi) as H. cbv beta in H.
  pose proof (total_add reading (fun x => 1 - reading x)%nat ths) as E.
  rewrite (total_ext _ (fun _ => 1%nat)), total_const in E by (by intros []). lia.
Qed.

(** A thread that asks for the lock, from outside or after a wait. *)
Lemma wlock_inv m ths i x m' o :
  inv (m, ths) -> ths !! i = Some x -> entered x = 0%nat -> reading x = 0%nat -> writing x = 0%nat ->
  WLock m = (m', o) -> inv (m', <[i := after_wlock o]> ths).
Proof.
  intros [H1 H2 H3 H4] Hi He Hr Hw E. unfold WLock, drain in E. cbn [fst snd reader_count_] in *.
  pose proof (writing_entered ths).
  destruct (writer_entered_ m) eqn:Em; [|destruct (Z.ltb_spec 0 (reader_count_ m))]; injection E as <- <-;
    split; cbn [fst snd reader_count_ writer_entered_] in *; rewrite ?Em in *; intros; weigh; lia.
Qed.

Lemma rlock_inv m ths i x m' o :
  inv (m, ths) -> ths !! i = Some x -> entered x = 0%nat -> reading x = 0%nat -> writing x = 0%nat ->
  RLock m = (m', o) -> inv (m', <[i := after_rlock o]> ths).
Proof.
  intros [H1 H2 H3 H4] Hi He Hr Hw E. unfold RLock in E. cbn [fst snd] in *. pose proof (writing_entered ths).
  destruct (writer_entered_ m) eqn:Em; [|destruct (Z.eqb_spec (reader_count_ m) max_readers_)]; injection E as <- <-;
    split; cbn [fst snd reader_count_ writer_entered_] in *; rewrite ?Em in *; intros; weigh;
    rewrite ?uwrap_small by (unfold max_readers_ in *; lia); lia.
Qed.

Lemma drain_inv m ths i m' o :
  inv (m, ths) -> ths !! i = Some (Draining true) -> drain m = (m', o) -> inv (m', <[i := after_wlock o]> ths).
Proof.
  intros [H1 H2 H3 H4] Hi E. unfold drain in E. cbn [fst snd] in *. pose proof (writing_entered ths).
  destruct (Z.ltb_spec 0 (reader_count_ m)); injection E as <- <-;
    split; cbn [fst snd reader_count_ writer_entered_] in *; intros; weigh; lia.
Qed.

Lemma notified_inv m e ths ths' : inv (m, ths) -> notified e ths ths' -> inv (m, ths').
Proof.
  intros [H1 H2 H3 H4] Hn. assert (B : blind reading /\ blind writing /\ blind entered) by (split_and!; by intros []).
  destruct B as (B1 & B2 & B3). cbn [fst snd] in *.
  split; cbn [fst snd]; rewrite ?(notified_blind _ _ _ _ B1 Hn), ?(notified_blind _ _ _ _ B2 Hn), ?(notified_blind _ _ _ _ B3 Hn); done.
Qed.

Lemma wunlock_inv m ths i : inv (m, ths) -> ths !! i = Some Writing -> inv ((WUnlock m).1, <[i := Out]> ths).
Proof.
  intros [H1 H2 H3 H4] Hi. cbn [fst snd WUnlock] in *. pose proof (writing_entered ths).
  split; cbn [fst snd reader_count_ writer_entered_]; intros; weigh; destruct (writer_entered_ m); lia.
Qed.

Lemma runlock_inv m ths i : inv (m, ths) -> ths !! i = Some Reading -> inv ((RUnlock m).1, <[i := Out]> ths).
Proof.
  intros [H1 H2 H3 H4] Hi. cbn [fst snd RUnlock] in *. pose proof (total_lookup reading ths i Reading Hi).
  cbn [reading] in *. unfold max_readers_ in *.
  split; cbn [fst snd reader_count_ writer_entered_]; intros; weigh; unfold max_readers_ in *;
    rewrite ?uwrap_small by lia; lia.
Qed.

Lemma step_inv s s' : inv s -> step s s' -> inv s'.
Proof.
  intros H [Hs|[Hs|Hs]].
  - destruct Hs as [m ths i m' o Hi E|m ths i m' o Hi E]; [by eapply wlock_inv|by eapply rlock_inv].
  - destruct Hs as [m ths i m' o Hi E|m ths i m' o Hi E|m ths i m' o Hi E|m ths i m' e ths' Hi E Hn|m ths i m' e ths' Hi E Hn].
    + by eapply wlock_inv.
    + by eapply drain_inv.
    + by eapply rlock_inv.
    + apply (notified_inv m' e (<[i := Out]> ths)); [|done]. pose proof (wunlock_inv m ths i H Hi) as Hw. by rewrite E in Hw.
    + apply (notified_inv m' e (<[i := Out]> ths)); [|done]. pose proof (runlock_inv m ths i H Hi) as Hw. by rewrite E in Hw.
  - destruct Hs as [m ths i x Hi]. destruct H as [H1 H2 H3 H4]. cbn [fst snd] in *.
    split; cbn [fst snd]; intros; weigh; destruct x; cbn [wake reading writing entered] in *; lia.
Qed.

Lemma start_inv n : inv (start n).
Proof.
  assert (H : forall f, f Out = 0%nat -> total f (replicate n Out) = 0%nat).
  { intros f Hf. induction n as [|n IH]; simpl; lia. }
  split; cbn [start create fst snd reader_count_ writer_entered_]; rewrite ?H by done; done.
Qed.

Lemma reachable_inv n s : reachable n s -> inv s.
Proof. intros H. apply (rtc_ind_r (R := step) inv (start n)); [apply start_inv|intros y z _ Hyz IH; by apply (step_inv y)|done]. Qed.

(** ** No wake-up is lost *)

Lemma sleeping_entered ths : (total (asleep OnWriter) ths <= total entered ths)%nat.
Proof. apply total_le. by intros [|[]|[]|[]| |]; simpl; lia. Qed.

Lemma wlock_sleepers m ths i x m' o :
  sleepers (m, ths) -> ths !! i = Some x -> asleep OnReader x = 0%nat -> asleep OnWriter x = 0%nat ->
  WLock m = (m', o) -> sleepers (m', <[i := after_wlock o]> ths).
Proof.
  intros [H1 H2] Hi Hr Hw E. unfold WLock, drain in E. cbn [fst snd reader_count_] in *.
  destruct (writer_entered_ m) eqn:Em; [|destruct (Z.ltb_spec 0 (reader_count_ m))]; injection E as <- <-;
    split; cbn [fst snd reader_count_ writer_entered_]; intros; weigh; (done || lia).
Qed.

(** A reader waits for a writer: there are not enough threads to fill the count. *)
Lemma rlock_sleepers m ths i x m' o :
  inv (m, ths) -> sleepers (m, ths) -> Z.of_nat (length ths) <= max_readers_ -> ths !! i = Some x ->
  reading x = 0%nat -> asleep OnReader x = 0%nat -> asleep OnWriter x = 0%nat ->
  RLock m = (m', o) -> sleepers (m', <[i := after_rlock o]> ths).
Proof.
  intros [H3 H4 _ _] [H1 H2] Hlen Hi Hx Hr Hw E. unfold RLock in E. cbn [fst snd] in *.
  pose proof (reader_room ths i x Hi Hx).
  destruct (writer_entered_ m) eqn:Em; [|destruct (Z.eqb_spec (reader_count_ m) max_readers_)]; injection E as <- <-;
    split; cbn [fst snd reader_count_ writer_entered_]; intros; weigh; unfold max_readers_ in *;
    rewrite ?uwrap_small by lia; (done || lia).
Qed.

Lemma drain_sleepers m ths i m' o :
  sleepers (m, ths) -> ths !! i = Some (Draining true) -> drain m = (m', o) -> sleepers (m', <[i := after_wlock o]> ths).
Proof.
  intros [H1 H2] Hi E. unfold drain in E. cbn [fst snd] in *.
  destruct (Z.ltb_spec 0 (reader_count_ m)); injection E as <- <-;
    split; cbn [fst snd]; intros; weigh; try (apply H1; lia); lia.
Qed.

Lemma wunlock_sleepers m ths i ths' :
  sleepers (m, ths) -> ths !! i = Some Writing -> notified (WUnlock m).2 (<[i := Out]> ths) ths' ->
  sleepers ((WUnlock m).1, ths').
Proof.
  intros [H1 H2] Hi Hn. cbn [fst snd WUnlock] in *. pose proof (notified_readers _ _ Hn) as H0.
  pose proof (notified_le OnWriter _ _ _ Hn). split; cbn [fst snd reader_count_ writer_entered_]; intros; weigh; lia.
Qed.

Lemma runlock_sleepers m ths i ths' :
  inv (m, ths) -> sleepers (m, ths) -> ths !! i = Some Reading -> notified (RUnlock m).2 (<[i := Out]> ths) ths' ->
  sleepers ((RUnlock m).1, ths').
Proof.
  intros [H3 H4 H5 _] [H1 H2] Hi Hn. cbn [fst snd RUnlock reader_count_ writer_entered_] in *.
  pose proof (total_lookup reading ths i Reading Hi). cbn [reading] in *. unfold max_readers_ in *.
  rewrite uwrap_small in * by lia. pose proof (sleeping_entered ths).
  pose proof (notified_le OnReader _ _ _ Hn). pose proof (notified_le OnWriter _ _ _ Hn).
  assert (Hone : (total (asleep OnWriter) (<[i := Out]> ths) <= 1)%nat).
  { weigh. destruct (writer_entered_ m); lia. }
  split; cbn [fst snd reader_count_ writer_entered_]; intros; weigh; [apply H1; lia|].
  destruct (writer_entered_ m); [|lia]. destruct (Z.eqb_spec (reader_count_ m - 1) 0); [|lia].
  pose proof (notified_writer _ _ Hn Hone). lia.
Qed.

Lemma step_sleepers s s' :
  inv s -> sleepers s -> Z.of_nat (length s.2) <= max_readers_ -> step s s' ->
  sleepers s' /\ length s'.2 = length s.2.
Proof.
  intros Hi H Hlen [Hs|[Hs|Hs]].
  - destruct Hs as [m ths i m' o Hx E|m ths i m' o Hx E]; (split; [|apply length_insert]);
      [by eapply wlock_sleepers|by eapply rlock_sleepers].
  - destruct Hs as [m ths i m' o Hx E|m ths i m' o Hx E|m ths i m' o Hx E|m ths i m' e ths' Hx E Hn|m ths i m' e ths' Hx E Hn].
    + split; [by eapply wlock_sleepers|apply length_insert].
    + split; [by eapply drain_sleepers|apply length_insert].
    + split; [by eapply rlock_sleepers|apply length_insert].
    + split; [|cbn [snd]; rewrite (notified_length _ _ _ Hn); apply length_insert].
      pose proof (wunlock_sleepers m ths i ths' H Hx) as Hw. rewrite E in Hw. by apply Hw.
    + split; [|cbn [snd]; rewrite (notified_length _ _ _ Hn); apply length_insert].
      pose proof (runlock_sleepers m ths i ths' Hi H Hx) as Hw. rewrite E in Hw. by apply Hw.
  - destruct Hs as [m ths i x Hx]. split; [|apply length_insert]. destruct H as [H1 H2]. cbn [fst snd] in *.
    split; cbn [fst snd]; intros; weigh; destruct x as [|[]|[]|[]| |]; cbn [wake asleep waits_on] in *; try (apply H1; lia); apply H2; lia.
Qed.

Lemma reachable_sleepers n s :
  Z.of_nat n <= max_readers_ -> reachable n s -> inv s /\ sleepers s /\ length s.2 = n.
Proof.
  intros Hn. apply (rtc_ind_r (R := step) (fun s => inv s /\ sleepers s /\ length s.2 = n) (start n)).
  - split; [apply start_inv|]. split; [|apply length_replicate].
    assert (H : forall f, f Out = 0%nat -> total f (replicate n Out) = 0%nat).
    { clear. intros f Hf. induction n as [|n IH]; simpl; lia. }
    split; cbn [start snd]; rewrite H by done; lia.
  - intros y z _ Hyz (Hi & Hs & Hl). split; [by apply (step_inv y)|].
    rewrite <- Hl in Hn |- *. by apply step_sleepers.
Qed.

(** ** Termination *)

(** What a state has still to do, first in parts of calls, then in woken threads. *)
Definition measure (s : State) : nat := total left_over s.2 * S (length s.2) + total awake s.2.

Lemma awake_length ths : (total awake ths <= length ths)%nat.
Proof.
  pose proof (total_le awake (fun _ => 1%nat) ths) as H. rewrite total_const, Nat.mul_1_l in H. apply H.
  intros [|[]|[]|[]| |]; cbn [awake waits_on]; lia.
Qed.

(** A part of a call is done, or a woken thread sleeps again. *)
Definition lighter (ths ths' : list Status) : Prop :=
  length ths' = length ths /\
  ((total left_over ths' < total left_over ths)%nat \/
   (total left_over ths' = total left_over ths /\ total awake ths' < total awake ths)%nat).

Lemma lighter_measure m m' ths ths' : lighter ths ths' -> (measure (m', ths') < measure (m, ths))%nat.
Proof. intros [Hl H]. unfold measure. cbn [snd]. rewrite Hl. pose proof (awake_length ths'). rewrite Hl in H0. nia. Qed.

Lemma lighter_insert ths i x y :
  ths !! i = Some x -> (left_over y < left_over x \/ left_over y = left_over x /\ awake y < awake x)%nat ->
  lighter ths (<[i := y]> ths).
Proof.
  intros Hi H. split; [apply length_insert|].
  pose proof (total_insert left_over ths i x y Hi). pose proof (total_insert awake ths i x y Hi). lia.
Qed.

Lemma lighter_unlock e ths ths' i x :
  ths !! i = Some x -> left_over x = 1%nat -> notified e (<[i := Out]> ths) ths' -> lighter ths ths'.
Proof.
  intros Hi Hx Hn. split; [rewrite (notified_length _ _ _ Hn); apply length_insert|]. left.
  assert (B : blind left_over) by (by intros []). rewrite (notified_blind _ _ _ _ B Hn).
  pose proof (total_insert left_over ths i x Out Hi). simpl in *. lia.
Qed.

Lemma work_lighter s s' : work s s' -> (measure s' < measure s)%nat.
Proof.
  intros [m ths i m' o Hi E|m ths i m' o Hi E|m ths i m' o Hi E|m ths i m' e ths' Hi E Hn|m ths i m' e ths' Hi E Hn];
    apply lighter_measure; try (by eapply lighter_unlock); eapply lighter_insert; try done.
  - destruct o as [|[]]; cbn [after_wlock after_rlock left_over awake waits_on]; lia.
  - unfold drain in E. destruct (0 <? reader_count_ m); injection E as _ <-; cbn [after_wlock left_over awake waits_on]; lia.
  - destruct o as [|[]]; cbn [after_wlock after_rlock left_over awake waits_on]; lia.
Qed.

Lemma work_sn s : sn work s.
Proof. apply (wf_projected lt measure); [intros x y; apply work_lighter|apply lt_wf]. Qed.

(** A thread that can go on does. *)
Lemma work_possible m ths i x :
  ths !! i = Some x -> (x = Reading \/ x = Writing \/ exists cv, waits_on x = Some (cv, true)) ->
  exists s', work (m, ths) s'.
Proof.
  intros Hi Hx. destruct x as [|[]|[]|[]| |];
    try (exfalso; destruct Hx as [?|[?|[cv ?]]]; done).
  - destruct (WLock m) as [m' o] eqn:E. eexists. by eapply work_enter.
  - destruct (drain m) as [m' o] eqn:E. eexists. by eapply work_drain.
  - destruct (RLock m) as [m' o] eqn:E. eexists. by eapply work_start.
  - destruct (notified_exists (WUnlock m).2 (<[i := Out]> ths)) as [ths' Hn]. eexists. by eapply work_wunlock.
  - destruct (RUnlock m) as [m' e] eqn:E. destruct (notified_exists e (<[i := Out]> ths)) as [ths' Hn].
    eexists. by eapply work_runlock.
Qed.

(** Where no thread can go on, all are outside. *)
Lemma idle_out m ths :
  inv (m, ths) -> sleepers (m, ths) -> nf work (m, ths) -> Forall (eq Out) ths.
Proof.
  intros [H1 H2 H3 H4] [H5 H6] Hnf. cbn [fst snd] in *.
  assert (Hno : forall x, x ∈ ths -> x = Out \/ exists cv, waits_on x = Some (cv, false)).
  { intros x [i Hi]%list_elem_of_lookup. pose proof (work_possible m ths i x Hi) as Hw. unfold nf, red in Hnf.
    destruct x as [|[]|[]|[]| |]; eauto; exfalso; apply Hnf, Hw; eauto. }
  assert (Hz : forall f, f Out = 0%nat -> (forall x cv, waits_on x = Some (cv, false) -> f x = 0%nat) -> total f ths = 0%nat).
  { intros f Hf Hs. destruct (total f ths) eqn:E; [done|]. exfalso.
    destruct (proj1 (total_pos f ths)) as (x & Hx & Hp); [lia|]. destruct (Hno x Hx) as [->|[cv Hcv]]; [lia|].
    rewrite (Hs x cv Hcv) in Hp. lia. }
  assert (Hr : total reading ths = 0%nat) by (apply Hz; [done|]; by intros []).
  assert (Hsw : total (asleep OnWriter) ths = 0%nat).
  { destruct (total (asleep OnWriter) ths); [done|]. specialize (H6 ltac:(lia)). lia. }
  assert (He : total entered ths = 0%nat).
  { destruct (total entered ths) as [|k] eqn:E; [done|]. exfalso.
    destruct (proj1 (total_pos entered ths)) as (x & Hx & Hp); [lia|].
    assert (0 < total (asleep OnWriter) ths)%nat; [|lia]. apply total_pos. exists x. split; [done|].
    destruct (Hno x Hx) as [->|[cv Hcv]]; [simpl in Hp; lia|]. destruct x as [|[]|[]|[]| |]; try done; simpl in *; lia. }
  rewrite He in H3. destruct (writer_entered_ m); [done|].
  apply Forall_forall. intros x Hx. destruct (Hno x Hx) as [->|[cv Hcv]]; [done|]. exfalso.
  destruct cv.
  - enough (false = true) by done. apply H5, total_pos. exists x. split; [done|]. destruct x as [|[]|[]|[]| |]; try done; simpl; lia.
  - assert (0 < total (asleep OnWriter) ths)%nat; [|lia]. apply total_pos. exists x. split; [done|].
    destruct x as [|[]|[]|[]| |]; try done; simpl; lia.
Qed.

(** ** Properties *)

Lemma total_reading ths : total reading ths = length (filter (eq Reading) ths).
Proof. induction ths as [|x ths IH]; [done|]. rewrite filter_cons. simpl. by destruct x; case_decide; simpl; rewrite IH. Qed.

Lemma entered_spec x : (0 < entered x)%nat <-> x = Writing \/ exists b, x = Draining b.
Proof. destruct x; simpl; split; try lia; try (intros [?|[? ?]]; done); eauto. Qed.

(** C17: in every interleaving of any number of threads, the writer is alone inside; the
    counter is the number of readers inside; and the flag of the writer is set just when
    a thread is inside as the writer or waits for the readers to leave. *)
Theorem rwmutex_exclusion (n : nat) (s : State) (H : reachable n s) :
  (forall i j x, s.2 !! i = Some Writing -> s.2 !! j = Some x -> i <> j ->
     x <> Writing /\ x <> Reading /\ forall b, x <> Draining b) /\
  reader_count_ s.1 = Z.of_nat (length (filter (eq Reading) s.2)) /\
  (writer_entered_ s.1 = true <-> exists x, x ∈ s.2 /\ (x = Writing \/ exists b, x = Draining b)).
Proof.
  destruct (reachable_inv n s H) as [H1 H2 H3 H4]. split_and!.
  - intros i j x Hi Hj Hij. pose proof (total_lookup writing _ _ _ Hi). pose proof (total_pair entered _ _ _ _ _ eq_refl Hij Hi Hj).
    pose proof (total_lookup reading _ _ _ Hj). simpl in *. destruct (writer_entered_ s.1); [|lia].
    split_and!; [intros ->|intros ->|intros b ->]; simpl in *; lia.
  - by rewrite <- total_reading.
  - transitivity (0 < total entered s.2)%nat; [destruct (writer_entered_ s.1); split; (done || lia)|].
    rewrite total_pos. by setoid_rewrite entered_spec.
Qed.

(** C18: no call waits for ever.  Once no new call is made, every interleaving of the
    pending ones ends, and in the end every thread is outside: for fewer than 2^32 threads
    no wake-up is lost. *)
Theorem rwmutex_calls_end (n : nat) (s : State) (Hn : Z.of_nat n <= max_readers_) (H : reachable n s) :
  sn work s /\ forall s', rtc work s s' -> nf work s' -> Forall (eq Out) s'.2.
Proof.
  split; [apply work_sn|]. intros s' Hrun Hnf.
  assert (H' : reachable n s').
  { unfold reachable in *. etrans; [exact H|]. apply (rtc_subrel work step); [|done]. intros x y Hxy. right. by left. }
  destruct (reachable_sleepers n s' Hn H') as (Hi & Hs & _). destruct s' as [m ths]. by apply (idle_out m).
Qed.

(** Two readers inside, a writer that waits for them, and a second writer behind it. *)
Definition sample : State := (mkRWMutex 2 true, [Reading; Draining false; Reading; Entering false]).

Lemma sample_lock_reachable : reachable 4 sample.
Proof.
  assert (C : forall (s s' s'' : State), call s s' -> rtc step s' s'' -> rtc step s s'').
  { intros s s' s'' Hc. apply rtc_l. by left. }
  apply (C _ (mkRWMutex 1 false, [Reading; Out; Out; Out])); [by apply (call_rlock create (replicate 4 Out) 0 (mkRWMutex 1 false) Locked)|].
  apply (C _ (mkRWMutex 2 false, [Reading; Out; Reading; Out]));
    [by apply (call_rlock (mkRWMutex 1 false) [Reading; Out; Out; Out] 2 (mkRWMutex 2 false) Locked)|].
  apply (C _ (mkRWMutex 2 true, [Reading; Draining false; Reading; Out]));
    [by apply (call_wlock (mkRWMutex 2 false) [Reading; Out; Reading; Out] 1 (mkRWMutex 2 true) (Waits OnWriter))|].
  apply (C _ sample); [|done].
  by apply (call_wlock (mkRWMutex 2 true) [Reading; Draining false; Reading; Out] 3 (mkRWMutex 2 true) (Waits OnReader)).
Qed.

(** Both readers leave and the writer is in. *)
Definition sample_writer : State := (mkRWMutex 0 true, [Out; Writing; Out; Entering false]).

Lemma sample_writer_reachable : reachable 4 sample_writer.
Proof.
  unfold reachable. etrans; [apply sample_lock_reachable|].
  assert (C : forall (s s' s'' : State), work s s' -> rtc step s' s'' -> rtc step s s'').
  { intros s s' s'' Hc. apply rtc_l. right. by left. }
  apply (C _ (mkRWMutex 1 true, [Out; Draining false; Reading; Entering false])).
  { apply (work_runlock _ _ 0 _ Nobody); [done|done|constructor]. }
  apply (C _ (mkRWMutex 0 true, [Out; Draining true; Out; Entering false])).
  { apply (work_runlock _ _ 2 _ (One OnWriter)); [done|done|].
    by apply (notified_one OnWriter [Out; Draining false; Out; Entering false] 1 (Draining false)). }
  apply (C _ sample_writer); [|done].
  by apply (work_drain (mkRWMutex 0 true) [Out; Draining true; Out; Entering false] 1 (mkRWMutex 0 true) Locked).
Qed.

Lemma rwmutex_exclusion_witness :
  (forall i j x, sample_writer.2 !! i = Some Writing -> sample_writer.2 !! j = Some x -> i <> j ->
     x <> Writing /\ x <> Reading /\ forall b, x <> Draining b) /\
  reader_count_ sample_writer.1 = Z.of_nat (length (filter (eq Reading) sample_writer.2)) /\
  (writer_entered_ sample_writer.1 = true <->
     exists x, x ∈ sample_writer.2 /\ (x = Writing \/ exists b, x = Draining b)).
Proof. exact (rwmutex_exclusion 4 sample_writer sample_writer_reachable). Defined.

Lemma rwmutex_calls_end_witness :
  sn work sample /\ forall s', rtc work sample s' -> nf work s' -> Forall (eq Out) s'.2.
Proof. apply (rwmutex_calls_end 4 sample); [vm_compute; discriminate|exact sample_lock_reachable]. Defined.
End RWMutex.
