(* ===== verification/LogManager.v ===== *)
(** * The log manager (src/src/logging/log_manager.cpp, log_record.h, log_recovery.cpp)

    Log records, the append to the log buffer, and the flush thread over the disk manager.
    The calls of the clients and the rounds of the thread are events in any order; the
    thread waits between two rounds, until it is notified, its time is out, or for no
    reason at all. *)

From stdpp Require Import prelude list.
From Stdlib Require Import ZArith Lia.
From S2P Require Import Prelude Rid DiskManager TablePage.

Local Open Scope Z_scope.

Module LogManager.
Import Rid Disk TablePage.

(** ** Records *)

Inductive LogRecordType :=
  INVALID | INSERT | MARKDELETE | APPLYDELETE | ROLLBACKDELETE | UPDATE | BEGIN | COMMIT | ABORT | NEWPAGE.
#[export] Instance LogRecordType_eq_dec : EqDecision LogRecordType.
Proof. solve_decision. Defined.

(** The number of a type. *)
Definition type_number (t : LogRecordType) : Z :=
  match t with
  | INVALID => 0 | INSERT => 1 | MARKDELETE => 2 | APPLYDELETE => 3 | ROLLBACKDELETE => 4
  | UPDATE => 5 | BEGIN => 6 | COMMIT => 7 | ABORT => 8 | NEWPAGE => 9
  end.

Record LogRecord := mkLogRecord {
  size_ : Z;
  lsn_ : Z;
  txn_id_ : Z;
  prev_lsn_ : Z;
  log_record_type_ : LogRecordType;
  delete_rid_ : RID;
  delete_tuple_ : Tuple;
  insert_rid_ : RID;
  insert_tuple_ : Tuple;
  update_rid_ : RID;
  old_tuple_ : Tuple;
  new_tuple_ : Tuple;
  prev_page_id_ : Z
}.

Definition HEADER_SIZE : Z := 20.
Definition sizeof_RID : Z := 8.

Definition no_tuple : Tuple := mkTuple invalid_rid [].
Definition tuple_length (t : Tuple) : Z := Z.of_nat (length (data_ t)).

(** The five constructors. *)
Definition LogRecord_default : LogRecord :=
  mkLogRecord 0 INVALID_LSN INVALID_TXN_ID INVALID_LSN INVALID
    invalid_rid no_tuple invalid_rid no_tuple invalid_rid no_tuple no_tuple INVALID_PAGE_ID.

Definition LogRecord_txn (txn_id prev_lsn : Z) (log_record_type : LogRecordType) : LogRecord :=
  mkLogRecord HEADER_SIZE INVALID_LSN txn_id prev_lsn log_record_type
    invalid_rid no_tuple invalid_rid no_tuple invalid_rid no_tuple no_tuple INVALID_PAGE_ID.

Definition LogRecord_tuple (txn_id prev_lsn : Z) (log_record_type : LogRecordType) (rid : RID)
    (tuple : Tuple) : result LogRecord :=
  let size := wrap32 (HEADER_SIZE + sizeof_RID + 4 + tuple_length tuple) in
  match log_record_type with
  | INSERT =>
      Ok (mkLogRecord size INVALID_LSN txn_id prev_lsn log_record_type
            invalid_rid no_tuple rid tuple invalid_rid no_tuple no_tuple INVALID_PAGE_ID)
  | APPLYDELETE | MARKDELETE | ROLLBACKDELETE =>
      Ok (mkLogRecord size INVALID_LSN txn_id prev_lsn log_record_type
            rid tuple invalid_rid no_tuple invalid_rid no_tuple no_tuple INVALID_PAGE_ID)
  | _ => Fail AssertFail
  end.

Definition LogRecord_update (txn_id prev_lsn : Z) (log_record_type : LogRecordType) (update_rid : RID)
    (old_tuple new_tuple : Tuple) : LogRecord :=
  mkLogRecord (wrap32 (HEADER_SIZE + sizeof_RID + tuple_length old_tuple + tuple_length new_tuple + 2 * 4))
    INVALID_LSN txn_id prev_lsn log_record_type
    invalid_rid no_tuple invalid_rid no_tuple update_rid old_tuple new_tuple INVALID_PAGE_ID.

Definition LogRecord_newpage (txn_id prev_lsn : Z) (log_record_type : LogRecordType) (page_id : Z) : LogRecord :=
  mkLogRecord (HEADER_SIZE + 4) INVALID_LSN txn_id prev_lsn log_record_type
    invalid_rid no_tuple invalid_rid no_tuple invalid_rid no_tuple no_tuple page_id.

Definition set_lsn (lsn : Z) (r : LogRecord) : LogRecord :=
  mkLogRecord (size_ r) lsn (txn_id_ r) (prev_lsn_ r) (log_record_type_ r)
    (delete_rid_ r) (delete_tuple_ r) (insert_rid_ r) (insert_tuple_ r)
    (update_rid_ r) (old_tuple_ r) (new_tuple_ r) (prev_page_id_ r).

(** The first 20 bytes of a record in memory: its first five fields. *)
Definition header (r : LogRecord) : list Z :=
  le_encode 4 (size_ r) ++ le_encode 4 (lsn_ r) ++ le_encode 4 (txn_id_ r) ++
  le_encode 4 (prev_lsn_ r) ++ le_encode 4 (type_number (log_record_type_ r)).

(** ** The manager *)

(** An allocated buffer: which one it is, and its bytes. *)
Record Chars := mkChars { address : nat; bytes : list Z }.

Record LogManager := mkLogManager {
  next_lsn_ : Z;
  persistent_lsn_ : Z;
  log_buffer_ : Chars;
  log_offset_ : Z;
  flush_buffer_ : Chars;
  flush_offset_ : Z
}.

(** The constructor; [uninit] gives the bytes of the two buffers. *)
Definition create (uninit : nat -> list Z) : LogManager :=
  mkLogManager 0 INVALID_LSN (mkChars 0 (uninit 0%nat)) 0 (mkChars 1 (uninit 1%nat)) 0.

Definition SetPersistentLSN (lsn : Z) (m : LogManager) : LogManager :=
  mkLogManager (next_lsn_ m) lsn (log_buffer_ m) (log_offset_ m) (flush_buffer_ m) (flush_offset_ m).

Definition need_size (r : LogRecord) : Z :=
  match log_record_type_ r with
  | INSERT | MARKDELETE | APPLYDELETE | ROLLBACKDELETE => wrap32 (24 + sizeof_RID + size_ r)
  | UPDATE => wrap32 (28 + sizeof_RID + tuple_length (old_tuple_ r) + tuple_length (new_tuple_ r))
  | NEWPAGE => 24
  | _ => 20
  end.

Definition SafetyForAppend (r : LogRecord) (m : LogManager) : result bool :=
  let left_size := wrap32 (LOG_BUFFER_SIZE - log_offset_ m) in
  assert! negb (bool_decide (log_record_type_ r = INVALID)) ;;
  Ok (need_size r <=? left_size).

Definition AppendLogRecord (r : LogRecord) (m : LogManager) : result (Z * LogRecord * LogManager) :=
  let r := set_lsn (next_lsn_ m) r in
  let m := mkLogManager (wrap32 (next_lsn_ m + 1)) (persistent_lsn_ m) (log_buffer_ m) (log_offset_ m)
             (flush_buffer_ m) (flush_offset_ m) in
  let* safe := SafetyForAppend r m in
  let m := if safe then m
           else mkLogManager (next_lsn_ m) (persistent_lsn_ m) (flush_buffer_ m) 0
                  (log_buffer_ m) (log_offset_ m) in
  let* bs := memwrite (bytes (log_buffer_ m)) (log_offset_ m) (header r) in
  let m := mkLogManager (next_lsn_ m) (persistent_lsn_ m) (mkChars (address (log_buffer_ m)) bs)
             (log_offset_ m) (flush_buffer_ m) (flush_offset_ m) in
  Ok (INVALID_LSN, r, m).

(** ** The flush thread *)

Record System := mkSystem {
  manager : LogManager;
  disk_manager_ : DiskManager;
  ENABLE_LOGGING : bool;
  flush_thread_ : bool  (* the thread is there *)
}.

(** The start of [RunFlushThread]; the thread then waits. *)
Definition RunFlushThread (s : System) : System := mkSystem (manager s) (disk_manager_ s) true true.

(** One round of the loop of the thread, from the return of [wait_for]; [ready] is what the
    disk manager's future answers. *)
Definition round (ready : bool) (s : System) : result System :=
  if negb (flush_thread_ s) then Ok s
  else if negb (ENABLE_LOGGING s) then Ok (mkSystem (manager s) (disk_manager_ s) false false)
  else
    let m := manager s in
    let* d := WriteLog (address (flush_buffer_ m)) (bytes (flush_buffer_ m)) (flush_offset_ m) ready
                (disk_manager_ s) in
    Ok (mkSystem m d true true).

(** The thread is joined once its next round has seen the flag; without a thread the
    pointer to it has no value. *)
Definition StopFlushThread (s : System) : result System :=
  if negb (flush_thread_ s) then Fail Undefined
  else round true (mkSystem (manager s) (disk_manager_ s) false true).

Inductive event := Append (r : LogRecord) | Round (ready : bool) | Start | Stop.

Definition exec (e : event) (s : System) : result System :=
  match e with
  | Append r => let* (_, m) := AppendLogRecord r (manager s) in
                Ok (mkSystem m (disk_manager_ s) (ENABLE_LOGGING s) (flush_thread_ s))
  | Round ready => round ready s
  | Start => Ok (RunFlushThread s)
  | Stop => StopFlushThread s
  end.

Fixpoint run (es : list event) (s : System) : result System :=
  match es with
  | [] => Ok s
  | e :: es => let* s := exec e s in run es s
  end.

(** ** Recovery *)

(** What [LogRecovery] does so far: nothing. *)
Definition DeserializeLogRecord (data : list Z) (r : LogRecord) : bool * LogRecord := (false, r).
Definition Redo (d : DiskManager) : DiskManager := d.
Definition Undo (d : DiskManager) : DiskManager := d.

(** ** What a record needs *)

(** The records the constructors make for each type; the tuples fit an [int]. *)
Inductive made : LogRecord -> Prop :=
| made_txn t l ty : ty ∈ [BEGIN; COMMIT; ABORT] -> made (LogRecord_txn t l ty)
| made_tuple t l ty rid tuple r :
    tuple_length tuple < 2 ^ 30 -> LogRecord_tuple t l ty rid tuple = Ok r -> made r
| made_update t l rid old new :
    tuple_length old + tuple_length new < 2 ^ 30 -> made (LogRecord_update t l UPDATE rid old new)
| made_newpage t l p : made (LogRecord_newpage t l NEWPAGE p).

Lemma tuple_length_pos t : 0 <= tuple_length t.
Proof. unfold tuple_length. lia. Qed.

Lemma made_size r : made r -> size_ r <= need_size r /\ 20 <= need_size r /\ log_record_type_ r <> INVALID.
Proof.
  intros [t l ty Hty|t l ty rid tuple r' Hl E|t l rid old new Hl|t l p].
  - repeat (apply elem_of_cons in Hty as [->|Hty]; [by vm_compute|]). by apply not_elem_of_nil in Hty.
  - pose proof (tuple_length_pos tuple) as H0. unfold LogRecord_tuple, HEADER_SIZE, sizeof_RID in E.
    destruct ty; try done; injection E as <-; cbn [size_ need_size log_record_type_];
      rewrite !swrap_id by (try done; unfold in_sint, sizeof_RID; rewrite ?swrap_id by (done || unfold in_sint; lia); lia);
      unfold sizeof_RID; (split; [lia|]); (split; [lia|done]).
  - pose proof (tuple_length_pos old). pose proof (tuple_length_pos new).
    unfold LogRecord_update, need_size, HEADER_SIZE, sizeof_RID. cbn [size_ log_record_type_ old_tuple_ new_tuple_].
    rewrite !swrap_id by (done || unfold in_sint; lia). split; [lia|]. split; [lia|done].
  - by vm_compute.
Qed.

(** A record that passes the test of the append has room in the log buffer, for its
    header and for all its bytes. *)
Theorem append_has_room (r : LogRecord) (m : LogManager) (Hr : made r)
    (Ho : 0 <= log_offset_ m <= LOG_BUFFER_SIZE) (H : SafetyForAppend r m = Ok true) :
  log_offset_ m + HEADER_SIZE <= LOG_BUFFER_SIZE /\ log_offset_ m + size_ r <= LOG_BUFFER_SIZE.
Proof.
  destruct (made_size r Hr) as (Hs & H20 & Hty). unfold SafetyForAppend in H.
  rewrite bool_decide_eq_false_2, assert_true in H by done. injection H as Hle. zify_bool.
  rewrite swrap_id in Hle by (try done; unfold in_sint, LOG_BUFFER_SIZE, BUFFER_POOL_SIZE, PAGE_SIZE in *; lia).
  unfold HEADER_SIZE. lia.
Qed.

(** ** The log that is never written *)

Lemma length_header r : length (header r) = 20%nat.
Proof. unfold header. by rewrite !length_app, !length_le_encode. Qed.

Definition fits_buffer (r : LogRecord) : Prop := log_record_type_ r <> INVALID /\ need_size r <= LOG_BUFFER_SIZE.

(** Both offsets are 0, as the constructor leaves them. *)
Definition at_start (m : LogManager) : Prop :=
  log_offset_ m = 0 /\ flush_offset_ m = 0 /\ Z.of_nat (length (bytes (log_buffer_ m))) = LOG_BUFFER_SIZE.

(** The records of the appends, numbered from [n]. *)
Fixpoint stamped (n : Z) (es : list event) : list LogRecord :=
  match es with
  | [] => []
  | Append r :: es => set_lsn n r :: stamped (wrap32 (n + 1)) es
  | _ :: es => stamped n es
  end.

Fixpoint rounds (es : list event) : nat :=
  match es with
  | [] => 0
  | Round _ :: es => S (rounds es)
  | _ :: es => rounds es
  end.

(** The buffer after the appends: the header of the last record, over what was there. *)
Definition overwritten (rs : list LogRecord) (bs : list Z) : list Z :=
  match last rs with Some r => header r ++ drop 20 bs | None => bs end.

(** Records that fit the buffer, and rounds of the thread. *)
Definition usual (e : event) : Prop :=
  match e with Append r => fits_buffer r | Round _ => True | _ => False end.

Lemma append_at_start r m : at_start m -> fits_buffer r ->
  AppendLogRecord r m = Ok (INVALID_LSN, set_lsn (next_lsn_ m) r,
    mkLogManager (wrap32 (next_lsn_ m + 1)) (persistent_lsn_ m)
      (mkChars (address (log_buffer_ m)) (overwritten [set_lsn (next_lsn_ m) r] (bytes (log_buffer_ m))))
      0 (flush_buffer_ m) 0).
Proof.
  intros (Ho & Hf & Hl) (Hty & Hn). unfold AppendLogRecord, SafetyForAppend. cbn [log_offset_]. rewrite Ho.
  rewrite bool_decide_eq_false_2, assert_true by done. cbn [result_bind].
  change (need_size (set_lsn (next_lsn_ m) r)) with (need_size r). change (wrap32 (LOG_BUFFER_SIZE - 0)) with LOG_BUFFER_SIZE.
  rewrite (proj2 (Z.leb_le _ _) Hn). cbn [log_buffer_ log_offset_ address bytes next_lsn_ persistent_lsn_ flush_buffer_ flush_offset_].
  rewrite Hf, memwrite_ok by (rewrite ?length_header; change LOG_BUFFER_SIZE with 5632 in Hl; lia). cbn [result_bind].
  unfold overwritten. cbn [last]. unfold splice. by rewrite length_header.
Qed.

Lemma overwritten_after r rs bs : Z.of_nat (length bs) = LOG_BUFFER_SIZE ->
  overwritten rs (overwritten [r] bs) = overwritten (r :: rs) bs /\
  Z.of_nat (length (overwritten [r] bs)) = LOG_BUFFER_SIZE.
Proof.
  intros Hl. change LOG_BUFFER_SIZE with 5632 in *. unfold overwritten. rewrite !last_cons. cbn [last]. split.
  - destruct (last rs); [|done]. by rewrite drop_app_length' by (by rewrite length_header).
  - rewrite length_app, length_header, length_drop. lia.
Qed.

Lemma run_usual es : forall m d, at_start m -> Forall usual es ->
  let addr := address (flush_buffer_ m) in
  if ((if decide (buffer_used d = Some addr) then 1 else 2) <=? rounds es)%nat
  then run es (mkSystem m d true true) = Fail AssertFail
  else exists m' d', run es (mkSystem m d true true) = Ok (mkSystem m' d' true true) /\
    at_start m' /\ log_io_ d' = log_io_ d /\
    bytes (log_buffer_ m') = overwritten (stamped (next_lsn_ m) es) (bytes (log_buffer_ m)) /\
    persistent_lsn_ m' = persistent_lsn_ m.
Proof.
  induction es as [|e es IH]; intros m d Hm Hes; cbv zeta.
  - destruct (decide _); by exists m, d.
  - apply Forall_cons in Hes as [He Hes]. destruct e as [r|ready| |]; [| |done|done]; cbn [run exec rounds manager disk_manager_ ENABLE_LOGGING flush_thread_].
    + rewrite append_at_start by done. cbn [result_bind]. destruct (overwritten_after (set_lsn (next_lsn_ m) r)
        (stamped (wrap32 (next_lsn_ m + 1)) es) (bytes (log_buffer_ m))) as [E Hl]; [by destruct Hm as (_ & _ & ?)|].
      match goal with |- context [mkSystem ?x d true true] => specialize (IH x d) end.
      cbv zeta in IH. cbn [flush_buffer_ log_buffer_ next_lsn_ bytes persistent_lsn_ stamped] in *.
      rewrite E in IH. by apply IH.
    + unfold round. cbn [flush_thread_ negb ENABLE_LOGGING manager disk_manager_]. unfold WriteLog.
      destruct Hm as (Ho & Hf & Hl). destruct (decide (buffer_used d = Some (address (flush_buffer_ m)))) as [Eu|Eu].
      * by rewrite bool_decide_eq_true_2.
      * rewrite bool_decide_eq_false_2, assert_true, Hf by done. cbn [Z.eqb result_bind].
        match goal with |- context [mkSystem m ?x true true] => specialize (IH m x) end. cbv zeta in IH.
        rewrite decide_True in IH by done. cbn [stamped]. change (2 <=? S (rounds es))%nat with (1 <=? rounds es)%nat.
        by apply IH.
Qed.

(** C39: whatever clients append, as long as no record is larger than the whole log buffer,
    the log file gets no byte, the buffer holds no more than the header of the last record,
    no record is ever reported as durable, and the second round of the flush thread aborts
    the process: it hands the disk manager the same buffer again. *)
Theorem log_never_written (uninit : nat -> list Z) (d : DiskManager) (es : list event)
    (Hl : Z.of_nat (length (uninit 0%nat)) = LOG_BUFFER_SIZE) (Hd : buffer_used d = None) (H : Forall usual es) :
  let s := RunFlushThread (mkSystem (create uninit) d false false) in
  if (2 <=? rounds es)%nat then run es s = Fail AssertFail
  else exists s', run es s = Ok s' /\ log_io_ (disk_manager_ s') = log_io_ d /\
    bytes (log_buffer_ (manager s')) = overwritten (stamped 0 es) (uninit 0%nat) /\
    persistent_lsn_ (manager s') = INVALID_LSN.
Proof.
  pose proof (run_usual es (create uninit) d) as Hr. cbv zeta in *. rewrite Hd in Hr. rewrite decide_False in Hr by done.
  destruct (2 <=? rounds es)%nat; [by apply Hr|].
  destruct Hr as (m' & d' & Hr & _ & Hlog & Hb & Hp); [done|done|]. by exists (mkSystem m' d' true true).
Qed.

(** ** Witnesses *)

Definition sample_buffers (i : nat) : list Z := replicate (Z.to_nat LOG_BUFFER_SIZE) (Z.of_nat i).
Definition sample_begin (t : Z) : LogRecord := LogRecord_txn t INVALID_LSN BEGIN.

Lemma append_has_room_witness :
  log_offset_ (create sample_buffers) + HEADER_SIZE <= LOG_BUFFER_SIZE /\
  log_offset_ (create sample_buffers) + size_ (sample_begin 3) <= LOG_BUFFER_SIZE.
Proof.
  apply (append_has_room (sample_begin 3) (create sample_buffers)); [apply made_txn; constructor| |done].
  split; [reflexivity|by vm_compute].
Defined.

Lemma log_never_written_witness :
  let s := RunFlushThread (mkSystem (create sample_buffers) (Disk.create true None None) false false) in
  run [Append (sample_begin 3); Round true; Append (sample_begin 4); Round true] s = Fail AssertFail.
Proof.
  apply (log_never_written sample_buffers (Disk.create true None None)
    [Append (sample_begin 3); Round true; Append (sample_begin 4); Round true]); [by vm_compute|done|].
  repeat constructor; (done || by vm_compute).
Defined.

(** A record larger than the buffer swaps the buffers, with nothing to flush. *)
Example large_record_swaps :
  let r := LogRecord_update 3 INVALID_LSN UPDATE invalid_rid (mkTuple invalid_rid (replicate 3000 1))
             (mkTuple invalid_rid (replicate 3000 2)) in
  let s := RunFlushThread (mkSystem (create sample_buffers) (Disk.create true None None) false false) in
  (let* s := run [Round true; Append r; Round true; Stop] s in
   Ok (address (log_buffer_ (manager s)), flush_offset_ (manager s), content (log_io_ (disk_manager_ s)),
       flush_thread_ s)) = Ok (1%nat, 0, [], false).
Proof. by vm_compute. Qed.
End LogManager.
