(* ===== verification/PagePool.v ===== *)
(** * The buffer pool as its clients see it

    The calls of the buffer pool with their specification, the store of pages of
    [BufferPool]: a client keeps the bytes of a page it pinned, and the bytes it changes
    through the pointer are the [CWrite] calls.  [TableHeap] is written
    and proved against this interface; the buffer pool of [BufferPool] implements it. *)

From stdpp Require Import prelude gmap list.
From Stdlib Require Import ZArith Lia.
From S2P Require Import Prelude Interfaces DiskManager BufferPool.

Local Open Scope Z_scope.

Module Pool.
Import Disk.
Export BufferPool.

Class PagePool (P : Type) := {
  pp_exec : call -> P -> result (answer * P);
  pp_repr : P -> Store -> Prop
}.

Class PagePoolLaws (P : Type) `{PagePool P} := {
  pp_law c b s :
    pp_repr b s -> call_ok c s ->
    exists b', pp_exec c b = Ok ((exec_spec c s).1, b') /\ pp_repr b' (exec_spec c s).2
}.

Section Client.
Context {P : Type} `{PagePool P}.

(** [FetchPage]: the bytes behind the pointer, [None] for a null one. *)
Definition fetch (p : Z) (b : P) : result (option Buf * P) :=
  let* (a, b) := pp_exec (CFetch p) b in
  match a with APage d => Ok (d, b) | _ => Fail MemFault end.

(** [NewPage]: the page id, which it sets even when it fails, and the bytes. *)
Definition new_page (b : P) : result (Z * option Buf * P) :=
  let* (a, b) := pp_exec CNew b in
  match a with ANew p d => Ok (p, d, b) | _ => Fail MemFault end.

Definition unpin (p : Z) (dirty : bool) (b : P) : result P :=
  let* (_, b) := pp_exec (CUnpin p dirty) b in Ok b.

(** The stores a callee made in a pinned page: [old] before, [new] after the call. *)
Definition store (p : Z) (old new : Buf) (b : P) : result P :=
  if bool_decide (old = new) then Ok b
  else let* (_, b) := pp_exec (CWrite p new) b in Ok b.

(** [page->...] on the result of [FetchPage]. *)
Definition deref_page (d : option Buf) : result Buf := from_option_r MemFault d.
End Client.

(** ** Open pages

    Between its first [fetch] and its last [unpin] of a page, a client has it open:
    the store [s1] is the store [s] at rest plus the open pages [o]. *)
Record Open := mkOpen { o_buf : Buf; o_dirty : bool; o_pins : Z }.

Definition save_page (p : Z) (buf : Buf) (s : Store) : Store :=
  mkStore (<[p := buf]> (contents s)) (pins s) (unsaved s) (next s) (capacity s).
Definition add_page (s : Store) : Store :=
  mkStore (<[next s := zero_page]> (contents s)) (pins s) (unsaved s) (next s + 1) (capacity s).

(** A store between two sessions of its client: everything is saved. *)
Record at_rest (s : Store) : Prop := {
  ar_saved : unsaved s = ∅;
  ar_pins p k : pins s !! p = Some k -> 0 < k;
  ar_id p : is_Some (contents s !! p) -> 0 <= p < next s
}.

(** The frames that no other client pins. *)
Definition room (s : Store) : Z := Z.of_nat (capacity s) - Z.of_nat (size (pins s)).

Record opened (s s1 : Store) (o : gmap Z Open) : Prop := {
  op_rest : at_rest s;
  op_contents p : contents s1 !! p = match o !! p with Some e => Some (o_buf e) | None => contents s !! p end;
  op_known p : is_Some (o !! p) -> is_Some (contents s !! p);
  op_pins p : pins s1 !! p = match o !! p with
                             | Some e => Some (default 0 (pins s !! p) + o_pins e)
                             | None => pins s !! p
                             end;
  op_pos p e : o !! p = Some e -> 0 < o_pins e;
  op_unsaved p : p ∈ unsaved s1 <-> exists e, o !! p = Some e /\ o_dirty e = true;
  op_next : next s1 = next s;
  op_cap : capacity s1 = capacity s
}.

Lemma opened_none s : at_rest s -> opened s s ∅.
Proof.
  intros H. split; try done; intros *; rewrite ?lookup_empty; try done.
  rewrite (ar_saved _ H). split; [set_solver|]. by intros (e & ? & _).
Qed.

Lemma opened_all_closed s s1 : opened s s1 ∅ -> s1 = s.
Proof.
  intros H. destruct s1 as [c1 p1 u1 n1 k1], s as [c pn u n k]. pose proof (ar_saved _ (op_rest _ _ _ H)) as Hu.
  destruct H. simpl in *. f_equal; try done.
  - apply map_eq. intros p. by rewrite op_contents0, lookup_empty.
  - apply map_eq. intros p. by rewrite op_pins0, lookup_empty.
  - subst u. apply leibniz_equiv. intros p. rewrite op_unsaved0, elem_of_empty.
    split; [intros (e & He & _); by rewrite lookup_empty in He|done].
Qed.

Lemma opened_size s s1 o : opened s s1 o -> (size (pins s1) <= size (pins s) + size o)%nat.
Proof.
  intros H. rewrite <- !size_dom.
  transitivity (size (dom (pins s) ∪ dom o)).
  2:{ rewrite size_union_alt. apply Nat.add_le_mono_l, subseteq_size. set_solver. }
  apply subseteq_size. intros p. rewrite elem_of_union, !elem_of_dom.
  rewrite (op_pins _ _ _ H). destruct (o !! p); [by right|by left].
Qed.

Section Sessions.
Context {P : Type} `{PagePoolLaws P}.

Lemma open_fetch b s s1 o p buf :
  pp_repr b s1 -> opened s s1 o -> o !! p = None -> contents s !! p = Some buf ->
  Z.of_nat (size o) < room s ->
  exists b' s2, fetch p b = Ok (Some buf, b') /\ pp_repr b' s2 /\
                opened s s2 (<[p := mkOpen buf false 1]> o).
Proof.
  intros Hb Ho Hp Hc Hroom. pose proof (op_contents _ _ _ Ho p) as Hc1. rewrite Hp, Hc in Hc1.
  destruct (pp_law (CFetch p) b s1 Hb) as (b' & He & Hb'); [by eexists|].
  assert (Hfull : full s1 = false).
  { apply bool_decide_false. pose proof (opened_size _ _ _ Ho). rewrite (op_cap _ _ _ Ho).
    unfold room in Hroom. lia. }
  cbn [exec_spec] in He, Hb'. rewrite Hfull, andb_false_r in He, Hb'. simpl in He, Hb'.
  exists b', (pin p s1). unfold fetch. rewrite He, bind_ok, Hc1. split; [done|]. split; [done|].
  destruct Ho. split; simpl; try done.
  - intros q. destruct (decide (q = p)) as [->|Hne]; [by rewrite lookup_insert_eq|].
    by rewrite lookup_insert_ne.
  - intros q. destruct (decide (q = p)) as [->|Hne]; [by eexists|]. rewrite lookup_insert_ne by done. auto.
  - intros q. destruct (decide (q = p)) as [->|Hne].
    + rewrite !lookup_insert_eq, op_pins0, Hp. done.
    + by rewrite !lookup_insert_ne.
  - intros q e. destruct (decide (q = p)) as [->|Hne].
    + rewrite lookup_insert_eq. by intros [= <-].
    + rewrite lookup_insert_ne by done. apply op_pos0.
  - intros q. rewrite op_unsaved0. destruct (decide (q = p)) as [->|Hne].
    + rewrite lookup_insert_eq, Hp. split; [by intros (e & ? & _)|by intros (e & [= <-] & ?)].
    + by rewrite lookup_insert_ne.
Qed.

Lemma open_fetch_again b s s1 o p e :
  pp_repr b s1 -> opened s s1 o -> o !! p = Some e ->
  exists b' s2, fetch p b = Ok (Some (o_buf e), b') /\ pp_repr b' s2 /\
                opened s s2 (<[p := mkOpen (o_buf e) (o_dirty e) (o_pins e + 1)]> o).
Proof.
  intros Hb Ho Hp. pose proof (op_contents _ _ _ Ho p) as Hc1. rewrite Hp in Hc1.
  pose proof (op_pins _ _ _ Ho p) as Hp1. rewrite Hp in Hp1.
  destruct (pp_law (CFetch p) b s1 Hb) as (b' & He & Hb'); [by eexists|].
  cbn [exec_spec] in He, Hb'. rewrite bool_decide_false in He, Hb' by congruence. simpl in He, Hb'.
  exists b', (pin p s1). unfold fetch. rewrite He, bind_ok, Hc1. split; [done|]. split; [done|].
  destruct Ho. split; simpl; try done.
  - intros q. destruct (decide (q = p)) as [->|Hne]; [by rewrite lookup_insert_eq|].
    by rewrite lookup_insert_ne.
  - intros q. destruct (decide (q = p)) as [->|Hne]; [intros _; apply op_known0; by eexists|].
    rewrite lookup_insert_ne by done. auto.
  - intros q. destruct (decide (q = p)) as [->|Hne].
    + rewrite !lookup_insert_eq, Hp1. simpl. f_equal. lia.
    + by rewrite !lookup_insert_ne.
  - intros q x. destruct (decide (q = p)) as [->|Hne].
    + rewrite lookup_insert_eq. intros [= <-]. simpl. pose proof (op_pos0 _ _ Hp). lia.
    + rewrite lookup_insert_ne by done. apply op_pos0.
  - intros q. rewrite op_unsaved0. destruct (decide (q = p)) as [->|Hne].
    + rewrite lookup_insert_eq, Hp. naive_solver.
    + by rewrite lookup_insert_ne.
Qed.

Lemma open_store b s s1 o p e new :
  pp_repr b s1 -> opened s s1 o -> o !! p = Some e -> length new = Z.to_nat PAGE_SIZE ->
  exists b' s2 d, store p (o_buf e) new b = Ok b' /\ pp_repr b' s2 /\
    (new = o_buf e -> d = o_dirty e) /\ opened s s2 (<[p := mkOpen new d (o_pins e)]> o).
Proof.
  intros Hb Ho Hp Hlen. unfold store. case_bool_decide as Heq.
  { exists b, s1, (o_dirty e). split; [done|]. split; [done|]. split; [done|]. subst new.
    rewrite insert_id; [done|]. by destruct e. }
  pose proof (op_pins _ _ _ Ho p) as Hp1. rewrite Hp in Hp1.
  destruct (pp_law (CWrite p new) b s1 Hb) as (b' & He & Hb'); [by split; [eexists|]|].
  cbn [exec_spec fst snd] in He, Hb'. eexists b', _, true. rewrite He, bind_ok.
  split; [done|]. split; [exact Hb'|]. split; [congruence|].
  destruct Ho. split; simpl; try done.
  - intros q. destruct (decide (q = p)) as [->|Hne]; [by rewrite !lookup_insert_eq|].
    by rewrite !lookup_insert_ne.
  - intros q. destruct (decide (q = p)) as [->|Hne]; [intros _; apply op_known0; by eexists|].
    rewrite lookup_insert_ne by done. auto.
  - intros q. destruct (decide (q = p)) as [->|Hne]; [by rewrite lookup_insert_eq|].
    by rewrite lookup_insert_ne.
  - intros q x. destruct (decide (q = p)) as [->|Hne].
    + rewrite lookup_insert_eq. intros [= <-]. simpl. apply (op_pos0 _ _ Hp).
    + rewrite lookup_insert_ne by done. apply op_pos0.
  - intros q. rewrite elem_of_union, elem_of_singleton, op_unsaved0.
    destruct (decide (q = p)) as [->|Hne].
    + rewrite lookup_insert_eq. naive_solver.
    + rewrite lookup_insert_ne by done. naive_solver.
Qed.

Lemma open_new b s s1 o :
  pp_repr b s1 -> opened s s1 o -> Z.of_nat (size o) < room s -> page_id_in_file (next s) ->
  exists b' s2, new_page b = Ok (next s, Some zero_page, b') /\ pp_repr b' s2 /\
                opened (add_page s) s2 (<[next s := mkOpen zero_page false 1]> o) /\
                o !! next s = None /\ contents s !! next s = None.
Proof.
  intros Hb Ho Hroom Hid. pose proof (op_rest _ _ _ Ho) as Hrest.
  assert (Hfresh : contents s !! next s = None).
  { apply eq_None_not_Some. intros Hc. apply (ar_id _ Hrest) in Hc. lia. }
  assert (Hno : o !! next s = None).
  { apply eq_None_not_Some. intros Hc. apply (op_known _ _ _ Ho) in Hc. rewrite Hfresh in Hc. by destruct Hc. }
  destruct (pp_law CNew b s1 Hb) as (b' & He & Hb'); [simpl; by rewrite (op_next _ _ _ Ho)|].
  assert (Hfull : full s1 = false).
  { apply bool_decide_false. pose proof (opened_size _ _ _ Ho). rewrite (op_cap _ _ _ Ho).
    unfold room in Hroom. lia. }
  cbn [exec_spec] in He, Hb'. rewrite Hfull, (op_next _ _ _ Ho) in He, Hb'. cbn [fst snd] in He, Hb'.
  eexists b', _. unfold new_page. rewrite He, bind_ok. split; [done|]. split; [exact Hb'|].
  split; [|done]. destruct Ho. split; simpl; try done.
  - destruct Hrest. split; simpl; [done|done|]. intros q.
    destruct (decide (q = next s)) as [->|Hne]; [intros _|rewrite lookup_insert_ne by done].
    + unfold page_id_in_file in Hid. lia.
    + intros Hq. apply ar_id0 in Hq. lia.
  - intros q. destruct (decide (q = next s)) as [->|Hne]; [by rewrite !lookup_insert_eq|].
    by rewrite !lookup_insert_ne.
  - intros q. destruct (decide (q = next s)) as [->|Hne]; [rewrite !lookup_insert_eq; by eexists|].
    rewrite !lookup_insert_ne by done. apply op_known0.
  - intros q. destruct (decide (q = next s)) as [->|Hne].
    + rewrite !lookup_insert_eq, op_pins0, Hno. done.
    + by rewrite !lookup_insert_ne.
  - intros q e. destruct (decide (q = next s)) as [->|Hne].
    + rewrite lookup_insert_eq. by intros [= <-].
    + rewrite lookup_insert_ne by done. apply op_pos0.
  - intros q. rewrite op_unsaved0. destruct (decide (q = next s)) as [->|Hne].
    + rewrite lookup_insert_eq, Hno. split; [by intros (e & ? & _)|by intros (e & [= <-] & ?)].
    + by rewrite lookup_insert_ne.
Qed.

(** The last unpin of a page: its bytes are those of the store at rest from now on. *)
Lemma open_unpin b s s1 o p buf d dirty :
  pp_repr b s1 -> opened s s1 o -> o !! p = Some (mkOpen buf d 1) -> dirty = true \/ d = false ->
  exists b' s2, unpin p dirty b = Ok b' /\ pp_repr b' s2 /\ opened (save_page p buf s) s2 (delete p o).
Proof.
  intros Hb Ho Hp Hd. pose proof (op_rest _ _ _ Ho) as Hrest.
  assert (Hc : is_Some (contents s !! p)) by (apply (op_known _ _ _ Ho); by eexists).
  assert (Hu : p ∈ unsaved s1 <-> d = true).
  { rewrite (op_unsaved _ _ _ Ho), Hp. naive_solver. }
  destruct (pp_law (CUnpin p dirty) b s1 Hb) as (b' & He & Hb').
  { split; [apply (ar_id _ Hrest) in Hc; unfold INVALID_PAGE_ID; lia|].
    right. rewrite (op_contents _ _ _ Ho), Hp. by eexists. }
  pose proof (op_pins _ _ _ Ho p) as Hp1. rewrite Hp in Hp1. simpl in Hp1.
  assert (Hl : loses p dirty s1 = false).
  { unfold loses. destruct Hd as [->| ->]; [done|]. rewrite (bool_decide_eq_false_2 (p ∈ _)) by (by rewrite Hu).
    by rewrite andb_false_r. }
  cbn [exec_spec] in He, Hb'. rewrite Hp1, Hl, orb_false_r in He, Hb'. cbn [fst snd] in He, Hb'.
  eexists b', _. unfold unpin. rewrite He, bind_ok. split; [done|]. split; [exact Hb'|].
  assert (Hpins : forall q, (if default 0 (pins s !! p) + 1 =? 1 then delete p (pins s1)
      else <[p := default 0 (pins s !! p) + 1 - 1]> (pins s1)) !! q =
      if decide (q = p) then pins s !! p else pins s1 !! q).
  { intros q. destruct (pins s !! p) as [k|] eqn:Ek; simpl.
    - pose proof (ar_pins _ Hrest p k Ek). rewrite (proj2 (Z.eqb_neq _ _)) by lia.
      case_decide as Hq; [subst q|by rewrite lookup_insert_ne].
      rewrite lookup_insert_eq. f_equal. lia.
    - case_decide as Hq; [subst q; by rewrite lookup_delete_eq|by rewrite lookup_delete_ne]. }
  destruct Ho. split; simpl; try done.
  - destruct Hrest. split; simpl; [done|done|]. intros q Hq. apply ar_id0.
    destruct (decide (q = p)) as [->|Hne]; [done|]. by rewrite lookup_insert_ne in Hq.
  - intros q. rewrite op_contents0. destruct (decide (q = p)) as [->|Hne].
    + by rewrite Hp, lookup_delete_eq, lookup_insert_eq.
    + by rewrite lookup_delete_ne, lookup_insert_ne.
  - intros q. destruct (decide (q = p)) as [->|Hne]; [by rewrite lookup_delete_eq; intros []|].
    rewrite lookup_delete_ne, lookup_insert_ne by done. apply op_known0.
  - intros q. rewrite Hpins. case_decide as Hq; [subst q; by rewrite lookup_delete_eq|].
    by rewrite lookup_delete_ne.
  - intros q e. destruct (decide (q = p)) as [->|Hne]; [by rewrite lookup_delete_eq|].
    rewrite lookup_delete_ne by done. apply op_pos0.
  - intros q. destruct (decide (q = p)) as [->|Hne].
    + rewrite lookup_delete_eq. split; [|by intros (e & ? & _)].
      destruct Hd as [->| ->]; [set_solver|].
      intros Hq. assert (Hq' : p ∈ unsaved s1) by (destruct dirty; [set_solver|done]). by apply Hu in Hq'.
    + rewrite lookup_delete_ne, <- op_unsaved0 by done. destruct dirty; [set_solver|done].
Qed.

Lemma open_unpin_one b s s1 o p buf d n dirty :
  pp_repr b s1 -> opened s s1 o -> o !! p = Some (mkOpen buf d n) -> 1 < n ->
  exists b' s2, unpin p dirty b = Ok b' /\ pp_repr b' s2 /\
                opened s s2 (<[p := mkOpen buf (d && negb dirty) (n - 1)]> o).
Proof.
  intros Hb Ho Hp Hn. pose proof (op_rest _ _ _ Ho) as Hrest.
  assert (Hc : is_Some (contents s !! p)) by (apply (op_known _ _ _ Ho); by eexists).
  pose proof (op_pins _ _ _ Ho p) as Hp1. rewrite Hp in Hp1. simpl in Hp1.
  assert (Hge : 0 <= default 0 (pins s !! p)).
  { destruct (pins s !! p) as [k|] eqn:Ek; simpl; [|lia]. pose proof (ar_pins _ Hrest p k Ek). lia. }
  destruct (pp_law (CUnpin p dirty) b s1 Hb) as (b' & He & Hb').
  { split; [apply (ar_id _ Hrest) in Hc; unfold INVALID_PAGE_ID; lia|].
    left. by rewrite Hp1. }
  assert (Hl : loses p dirty s1 = false).
  { unfold loses. rewrite Hp1, bool_decide_eq_false_2 by (intros [= ?]; lia). by rewrite andb_false_r. }
  cbn [exec_spec] in He, Hb'. rewrite Hp1, Hl, orb_false_r, (proj2 (Z.eqb_neq _ _)) in He, Hb' by lia.
  cbn [fst snd] in He, Hb'.
  eexists b', _. unfold unpin. rewrite He, bind_ok. split; [done|]. split; [exact Hb'|].
  destruct Ho. split; simpl; try done.
  - intros q. rewrite op_contents0. destruct (decide (q = p)) as [->|Hne]; [by rewrite Hp, lookup_insert_eq|].
    by rewrite lookup_insert_ne.
  - intros q. destruct (decide (q = p)) as [->|Hne]; [done|]. rewrite lookup_insert_ne by done. apply op_known0.
  - intros q. destruct (decide (q = p)) as [->|Hne].
    + rewrite !lookup_insert_eq. simpl. f_equal. lia.
    + by rewrite !lookup_insert_ne.
  - intros q e. destruct (decide (q = p)) as [->|Hne].
    + rewrite lookup_insert_eq. intros [= <-]. simpl. lia.
    + rewrite lookup_insert_ne by done. apply op_pos0.
  - intros q. destruct (decide (q = p)) as [->|Hne].
    + rewrite lookup_insert_eq. specialize (op_unsaved0 p). rewrite Hp in op_unsaved0.
      destruct dirty, d; simpl; set_solver.
    + rewrite lookup_insert_ne, <- op_unsaved0 by done. destruct dirty; set_solver.
Qed.
End Sessions.

(** ** The buffer pool implements the interface *)
Section Implementation.
Context {T R : Type} `{HashTable Z nat T} `{Replacer nat R}.
Context `{!HashTableLaws Z nat T} `{!ReplacerLaws nat R}.

#[export] Instance buffer_pool : PagePool (BufferPoolManager T R) := {
  pp_exec := exec;
  pp_repr b s := exists m l, rel None b m l s
}.

Lemma buffer_pool_laws :
  (forall p, page_id_in_file p -> ht_key_ok p) -> PagePoolLaws (BufferPoolManager T R).
Proof.
  intros Hkeys. split. intros c b s (m & l & Hr) Hc.
  destruct (pool_exec_refines Hkeys c b m l s Hr Hc) as (b' & m' & l' & He & Hr' & _).
  exists b'. split; [done|]. by exists m', l'.
Qed.
End Implementation.

#[export] Instance default_pool_laws : PagePoolLaws Pool := buffer_pool_laws page_id_keys.
End Pool.
