(* ===== verification/TableHeap.v ===== *)
(** * The table heap and its iterator (src/src/table/table_heap.cpp, table_iterator.cpp)

    A heap is a chain of table pages reached through the buffer pool ([PagePool]); the
    locks and the state of the running transaction are behind [LockEnv].  The latches of
    the pages are not modelled: a call runs alone.  [fuel] bounds the pages a loop
    visits; the number of pages of the heap plus two is enough. *)

From stdpp Require Import prelude gmap list.
From Stdlib Require Import ZArith Lia.
From S2P Require Import Prelude Rid Interfaces DiskManager BufferPool TablePage PagePool.

Local Open Scope Z_scope.

Module TableHeap.
Import Disk.
Import Pool.
Import Rid.
Import TablePage.

(** ** The write set of a transaction (include/concurrency/transaction.h) *)

Inductive WType := INSERT | DELETE | UPDATE.
#[export] Instance WType_eq_dec : EqDecision WType.
Proof. solve_decision. Defined.

(** [table_] is the first page of the heap. *)
Record WriteRecord := mkWrite { w_rid : RID; wtype_ : WType; tuple_ : Tuple; table_ : Z }.

Definition empty_tuple : Tuple := mkTuple invalid_rid [].

(** What a heap call works on: the pool, the lock manager with the state of the
    transaction, and the transaction's write set. *)
Record Env {P L : Type} := mkEnv { pool_ : P; locks_ : L; write_set_ : list WriteRecord }.
Arguments Env : clear implicits.
Arguments mkEnv {P L} _ _ _.

Section Heap.
Context {P L : Type} `{PagePool P} `{LockEnv L} (logging : bool) (fuel : nat).

(** The constructor that creates the table; gives [first_page_id_]. *)
Definition create (b : P) : result (Z * P) :=
  let* (first_page_id, d, b) := new_page b in
  match d with
  | None => Fail AssertFail
  | Some page =>
      let* page' := Init first_page_id PAGE_SIZE INVALID_LSN page in
      let* b := store first_page_id page page' b in
      let* b := unpin first_page_id true b in
      Ok (first_page_id, b)
  end.

(** The loop of [InsertTuple] on the current page [cur], pinned, with its bytes. *)
Fixpoint insert_loop (n : nat) (tuple : Tuple) (cur : Z) (page : Buf) (b : P) (l : L) :
    result (option RID * P * L) :=
  match n with
  | O => Fail NoFuel
  | S n =>
      let* (rid, page', l) := InsertTuple logging tuple page l in
      let* b := store cur page page' b in
      match rid with
      | Some rid =>
          let* id := GetPageId page' in
          let* b := unpin id true b in
          Ok (Some rid, b, l)
      | None =>
          let* next_page_id := GetNextPageId page' in
          let* id := GetPageId page' in
          if negb (next_page_id =? INVALID_PAGE_ID) then
            let* b := unpin id false b in
            let* (d, b) := fetch next_page_id b in
            let* next := deref_page d in
            insert_loop n tuple next_page_id next b l
          else
            let* (next_page_id, d, b) := new_page b in
            match d with
            | None =>
                let* b := unpin id false b in
                Ok (None, b, lk_abort l)
            | Some new =>
                let* page'' := SetNextPageId page' next_page_id in
                let* b := store cur page' page'' b in
                let* id := GetPageId page'' in
                let* new' := Init next_page_id PAGE_SIZE id new in
                let* b := store next_page_id new new' b in
                let* b := unpin id true b in
                insert_loop n tuple next_page_id new' b l
            end
      end
  end.

Definition log_write (w : WriteRecord) (b : P) (l : L) (e : Env P L) : Env P L :=
  mkEnv b l (write_set_ e ++ [w]).

Definition InsertTuple (first_page_id : Z) (tuple : Tuple) (e : Env P L) :
    result (option RID * Env P L) :=
  if PAGE_SIZE <? size_ tuple + 32 then
    Ok (None, mkEnv (pool_ e) (lk_abort (locks_ e)) (write_set_ e))
  else
    let* (d, b) := fetch first_page_id (pool_ e) in
    match d with
    | None => Ok (None, mkEnv b (lk_abort (locks_ e)) (write_set_ e))
    | Some page =>
        let* (rid, b, l) := insert_loop fuel tuple first_page_id page b (locks_ e) in
        match rid with
        | Some rid => Ok (Some rid, log_write (mkWrite rid INSERT empty_tuple first_page_id) b l e)
        | None => Ok (None, mkEnv b l (write_set_ e))
        end
    end.

Definition MarkDelete (first_page_id : Z) (rid : RID) (e : Env P L) : result (bool * Env P L) :=
  let* (d, b) := fetch (page_id_ rid) (pool_ e) in
  match d with
  | None => Ok (false, mkEnv b (lk_abort (locks_ e)) (write_set_ e))
  | Some page =>
      let* (_, page', l) := MarkDelete logging rid page (locks_ e) in
      let* b := store (page_id_ rid) page page' b in
      let* id := GetPageId page' in
      let* b := unpin id true b in
      Ok (true, log_write (mkWrite rid DELETE empty_tuple first_page_id) b l e)
  end.

Definition UpdateTuple (first_page_id : Z) (tuple : Tuple) (rid : RID) (e : Env P L) :
    result (bool * Env P L) :=
  let* (d, b) := fetch (page_id_ rid) (pool_ e) in
  match d with
  | None => Ok (false, mkEnv b (lk_abort (locks_ e)) (write_set_ e))
  | Some page =>
      let* (is_updated, old_tuple, page', l) := UpdateTuple logging tuple rid page (locks_ e) in
      let* b := store (page_id_ rid) page page' b in
      let* id := GetPageId page' in
      let* b := unpin id is_updated b in
      if is_updated && negb (lk_aborted l) then
        Ok (is_updated,
            log_write (mkWrite rid UPDATE (default empty_tuple old_tuple) first_page_id) b l e)
      else Ok (is_updated, mkEnv b l (write_set_ e))
  end.

Definition ApplyDelete (rid : RID) (e : Env P L) : result (Env P L) :=
  let* (d, b) := fetch (page_id_ rid) (pool_ e) in
  match d with
  | None => Fail AssertFail
  | Some page =>
      let* page' := ApplyDelete logging rid page (locks_ e) in
      let* b := store (page_id_ rid) page page' b in
      let* l := lk_unlock rid (locks_ e) in
      let* id := GetPageId page' in
      let* b := unpin id true b in
      Ok (mkEnv b l (write_set_ e))
  end.

Definition RollbackDelete (rid : RID) (e : Env P L) : result (Env P L) :=
  let* (d, b) := fetch (page_id_ rid) (pool_ e) in
  match d with
  | None => Fail AssertFail
  | Some page =>
      let* page' := RollbackDelete logging rid page (locks_ e) in
      let* b := store (page_id_ rid) page page' b in
      let* id := GetPageId page' in
      let* b := unpin id true b in
      Ok (mkEnv b (locks_ e) (write_set_ e))
  end.

Definition GetTuple (rid : RID) (e : Env P L) : result (option Tuple * Env P L) :=
  let* (d, b) := fetch (page_id_ rid) (pool_ e) in
  match d with
  | None => Ok (None, mkEnv b (lk_abort (locks_ e)) (write_set_ e))
  | Some page =>
      let* (t, l) := GetTuple logging rid page (locks_ e) in
      let* b := unpin (page_id_ rid) false b in
      Ok (t, mkEnv b l (write_set_ e))
  end.

Definition DeleteTableHeap : bool := true.

(** ** The iterator: the tuple it stands on, whose rid is invalid at the end. *)

Definition it_end : Tuple := mkTuple (mkRID INVALID_PAGE_ID (-1)) [].
(** [operator==] compares the packed rids. *)
Definition it_eq (a b : Tuple) : bool := Get (rid_ a) =? Get (rid_ b).

Definition it_create (rid : RID) (e : Env P L) : result (Tuple * Env P L) :=
  let tuple := mkTuple rid [] in
  if negb (page_id_ rid =? INVALID_PAGE_ID) then
    let* (t, e) := GetTuple rid e in Ok (default tuple t, e)
  else Ok (tuple, e).

Definition begin (first_page_id : Z) (e : Env P L) : result (Tuple * Env P L) :=
  let* (d, b) := fetch first_page_id (pool_ e) in
  let* page := deref_page d in
  let* rid := GetFirstTupleRid page in
  let* b := unpin first_page_id false b in
  it_create (default invalid_rid rid) (mkEnv b (locks_ e) (write_set_ e)).

(** The first tuple of the pages after the current one. *)
Fixpoint next_pages (n : nat) (page : Buf) (b : P) : result (RID * Buf * P) :=
  match n with
  | O => Fail NoFuel
  | S n =>
      let* next := GetNextPageId page in
      if next =? INVALID_PAGE_ID then Ok (invalid_rid, page, b)
      else
        let* (d, b) := fetch next b in
        let* id := GetPageId page in
        let* b := unpin id false b in
        let* page := deref_page d in
        let* rid := GetFirstTupleRid page in
        match rid with
        | Some rid => Ok (rid, page, b)
        | None => next_pages n page b
        end
  end.

Definition it_next (it : Tuple) (e : Env P L) : result (Tuple * Env P L) :=
  let* (d, b) := fetch (page_id_ (rid_ it)) (pool_ e) in
  let* page := deref_page d in
  let* rid := GetNextTupleRid (rid_ it) page in
  let* (rid, page, b) :=
    match rid with Some rid => Ok (rid, page, b) | None => next_pages fuel page b end in
  let it := mkTuple rid (data_ it) in
  let e := mkEnv b (locks_ e) (write_set_ e) in
  let* (it, e) :=
    if negb (it_eq it it_end) then
      let* (t, e) := GetTuple rid e in Ok (default it t, e)
    else Ok (it, e) in
  let* id := GetPageId page in
  let* b := unpin id false (pool_ e) in
  Ok (it, mkEnv b (locks_ e) (write_set_ e)).

(** [for (auto it = begin(); it != end(); ++it)], the tuples it visits. *)
Fixpoint scan_from (n : nat) (it : Tuple) (e : Env P L) : result (list Tuple * Env P L) :=
  match n with
  | O => Fail NoFuel
  | S n =>
      if it_eq it it_end then Ok ([], e)
      else
        let* (it', e) := it_next it e in
        let* (ts, e) := scan_from n it' e in
        Ok (it :: ts, e)
  end.

Definition scan (n : nat) (first_page_id : Z) (e : Env P L) : result (list Tuple * Env P L) :=
  let* (it, e) := begin first_page_id e in scan_from n it e.
End Heap.

(** ** Specification: a list of pages of slots *)

(** The pages in chain order, and the id of the next page the pool creates. *)
Record SHeap := mkSHeap { h_pages : list SPage; h_next : Z }.

Definition page_index (id : Z) (h : SHeap) : option nat :=
  fst <$> list_find (fun p => s_id p = id) (h_pages h).

Definition set_page (i : nat) (p : SPage) (h : SHeap) : SHeap :=
  mkSHeap (<[i := p]> (h_pages h)) (h_next h).

Definition set_next (id : Z) (p : SPage) : SPage := mkSPage (s_id p) (s_prev p) id (s_slots p).

Inductive hcall :=
| HInsert (bs : list Z)
| HMark (rid : RID)
| HUpdate (bs : list Z) (rid : RID)
| HApply (rid : RID)
| HRollback (rid : RID)
| HGet (rid : RID).

Inductive hanswer :=
| HRid (rid : option RID)
| HBool (ok : bool)
| HTuple (t : option Tuple)
| HDone.

Section HeapSpec.
Context {P L : Type} `{PagePool P} `{LockEnv L} (logging : bool) (fuel : nat) (first : Z).

Definition hexec (c : hcall) (e : Env P L) : result (hanswer * Env P L) :=
  match c with
  | HInsert bs =>
      let* (r, e) := InsertTuple logging fuel first (mkTuple invalid_rid bs) e in Ok (HRid r, e)
  | HMark rid => let* (r, e) := MarkDelete logging first rid e in Ok (HBool r, e)
  | HUpdate bs rid =>
      let* (r, e) := UpdateTuple logging first (mkTuple invalid_rid bs) rid e in Ok (HBool r, e)
  | HApply rid => let* e := ApplyDelete logging rid e in Ok (HDone, e)
  | HRollback rid => let* e := RollbackDelete logging rid e in Ok (HDone, e)
  | HGet rid => let* (r, e) := GetTuple logging rid e in Ok (HTuple r, e)
  end.

Fixpoint hrun (cs : list hcall) (e : Env P L) : result (list hanswer * Env P L) :=
  match cs with
  | [] => Ok ([], e)
  | c :: cs' =>
      let* (a, e) := hexec c e in
      let* (q, e) := hrun cs' e in Ok (a :: q, e)
  end.

(** The first page with room takes the tuple; else a new page at the end. *)
Fixpoint insert_pages (bs : list Z) (ps : list SPage) (next : Z) (l : L) :
    result (RID * list SPage * Z * L) :=
  match ps with
  | [] => Fail NoFuel
  | p :: ps' =>
      let* (a, p1, l1) := insert_spec logging bs p l in
      match a with
      | ARid (Some rid) => Ok (rid, p1 :: ps', next, l1)
      | _ =>
          match ps' with
          | [] =>
              let* (a, q, l1) :=
                insert_spec logging bs (mkSPage next (s_id p) INVALID_PAGE_ID []) l in
              match a with
              | ARid (Some rid) => Ok (rid, [set_next next p; q], next + 1, l1)
              | _ => Fail NoFuel
              end
          | _ :: _ =>
              let* (rid, qs, next, l1) := insert_pages bs ps' next l in
              Ok (rid, p :: qs, next, l1)
          end
      end
  end.

(** The state of a call on the specification side. *)
Record SEnv := mkSEnv { s_heap : SHeap; s_locks : L; s_writes : list WriteRecord }.

Definition on_page (c : call) (rid : RID) (k : answer -> SHeap -> L -> result (hanswer * SEnv))
    (e : SEnv) : result (hanswer * SEnv) :=
  match page_index (page_id_ rid) (s_heap e) with
  | None => Fail MemFault
  | Some i =>
      match h_pages (s_heap e) !! i with
      | None => Fail MemFault
      | Some p =>
          let* (a, p', l) := exec_spec logging c p (s_locks e) in
          k a (set_page i p' (s_heap e)) l
      end
  end.

Definition hexec_spec (c : hcall) (e : SEnv) : result (hanswer * SEnv) :=
  let ws := s_writes e in
  match c with
  | HInsert bs =>
      if PAGE_SIZE <? Z.of_nat (length bs) + 32 then
        Ok (HRid None, mkSEnv (s_heap e) (lk_abort (s_locks e)) ws)
      else
        let* (rid, ps, next, l) :=
          insert_pages bs (h_pages (s_heap e)) (h_next (s_heap e)) (s_locks e) in
        Ok (HRid (Some rid),
            mkSEnv (mkSHeap ps next) l (ws ++ [mkWrite rid INSERT empty_tuple first]))
  | HMark rid =>
      on_page (CMark rid) rid (fun _ h l =>
        Ok (HBool true, mkSEnv h l (ws ++ [mkWrite rid DELETE empty_tuple first]))) e
  | HUpdate bs rid =>
      on_page (CUpdate bs rid) rid (fun a h l =>
        match a with
        | AUpdate ok old =>
            Ok (HBool ok, mkSEnv h l (if ok && negb (lk_aborted l)
              then ws ++ [mkWrite rid UPDATE (default empty_tuple old) first] else ws))
        | _ => Fail MemFault
        end) e
  | HApply rid =>
      on_page (CApply rid) rid (fun _ h l =>
        let* l := lk_unlock rid l in Ok (HDone, mkSEnv h l ws)) e
  | HRollback rid => on_page (CRollback rid) rid (fun _ h l => Ok (HDone, mkSEnv h l ws)) e
  | HGet rid =>
      on_page (CGet rid) rid (fun a h l =>
        match a with ATuple t => Ok (HTuple t, mkSEnv h l ws) | _ => Fail MemFault end) e
  end.

Fixpoint hrun_spec (cs : list hcall) (e : SEnv) : result (list hanswer * SEnv) :=
  match cs with
  | [] => Ok ([], e)
  | c :: cs' =>
      let* (a, e) := hexec_spec c e in
      let* (q, e) := hrun_spec cs' e in Ok (a :: q, e)
  end.

(** Calls name pages of the heap, and follow the protocol of the page. *)
Definition on_page_ok (c : call) (rid : RID) (h : SHeap) : Prop :=
  match page_index (page_id_ rid) h with
  | Some i => match h_pages h !! i with Some p => call_ok c p | None => False end
  | None => False
  end.

Definition hcall_ok (c : hcall) (e : SEnv) : Prop :=
  let h := s_heap e in
  match c with
  | HInsert _ => page_id_in_file (h_next h) /\ (length (h_pages h) + 2 <= fuel)%nat
  | HMark rid => on_page_ok (CMark rid) rid h
  | HUpdate bs rid => on_page_ok (CUpdate bs rid) rid h
  | HApply rid => on_page_ok (CApply rid) rid h
  | HRollback rid => on_page_ok (CRollback rid) rid h
  | HGet rid => on_page_ok (CGet rid) rid h
  end.

Fixpoint hcalls_ok (cs : list hcall) (e : SEnv) : Prop :=
  match cs with
  | [] => True
  | c :: cs' =>
      hcall_ok c e /\ match hexec_spec c e with Ok r => hcalls_ok cs' r.2 | Fail _ => True end
  end.

#[export] Instance on_page_ok_dec c rid h : Decision (on_page_ok c rid h).
Proof.
  unfold on_page_ok. destruct (page_index _ _); [|apply _]. destruct (_ !! _); apply _.
Defined.
#[export] Instance hcall_ok_dec c e : Decision (hcall_ok c e).
Proof. destruct c; simpl; unfold page_id_in_file; apply _. Defined.
#[export] Instance hcalls_ok_dec cs e : Decision (hcalls_ok cs e).
Proof.
  revert e. induction cs as [|c cs IH]; intros e; simpl; [apply _|].
  destruct (hexec_spec c e); apply _.
Defined.
End HeapSpec.
Arguments SEnv : clear implicits.
Arguments mkSEnv {L} _ _ _.

(** ** The relation between the pool and the list of pages *)

Fixpoint chain (ps : list SPage) : Prop :=
  match ps with
  | [] => True
  | p :: ps' => s_next p = from_option s_id INVALID_PAGE_ID (head ps') /\ chain ps'
  end.

(** From [s0] to [s] the pages [ids] and the next page id changed, nothing else. *)
Record changed_only (ids : list Z) (s0 s : Store) : Prop := {
  co_contents p : p ∉ ids -> contents s !! p = contents s0 !! p;
  co_pins : pins s = pins s0;
  co_capacity : capacity s = capacity s0;
  co_next : next s0 <= next s
}.

(** The pool holds the pages of the heap, and differs from [s0] in nothing else. *)
Record heap_rel (s0 : Store) (first : Z) (s : Store) (h : SHeap) : Prop := {
  hr_first : s_id <$> head (h_pages h) = Some first;
  hr_pages p : p ∈ h_pages h -> exists buf, contents s !! s_id p = Some buf /\ repr buf p;
  hr_nodup : NoDup (s_id <$> h_pages h);
  hr_chain : chain (h_pages h);
  hr_next : next s = h_next h;
  hr_rest : at_rest s;
  hr_others : changed_only (s_id <$> h_pages h) s0 s
}.

Lemma changed_only_refl ids s : changed_only ids s s.
Proof. by split. Qed.

Lemma changed_only_save ids s0 s p buf : changed_only ids s0 s -> p ∈ ids -> changed_only ids s0 (save_page p buf s).
Proof.
  intros [] Hp. split; try done. intros q Hq. cbn. rewrite lookup_insert_ne by (by intros <-). by apply co_contents0.
Qed.

Lemma changed_only_add ids ids' s0 s : changed_only ids s0 s -> (forall p, p ∈ ids -> p ∈ ids') -> next s ∈ ids' ->
  changed_only ids' s0 (add_page s).
Proof.
  intros [] Hle Hn. split; try done; [|cbn; lia]. intros q Hq. cbn. rewrite lookup_insert_ne by (by intros <-).
  apply co_contents0. intros Hin. by apply Hq, Hle.
Qed.

Section HeapLemmas.
Context {P L : Type} `{PagePoolLaws P} `{LockEnv L} (logging : bool) (s0 : Store) (first : Z).

(** Opens the tests and the binds of a hypothesis [_ = Ok _]. *)
Ltac open_result := repeat first [progress simplify_eq/= | case_match | progress inv_bind].

Lemma get_id page p : repr page p -> GetPageId page = Ok (s_id p).
Proof. intros [lay Hr]. by eapply read_page_id. Qed.

Lemma get_next page p : repr page p -> GetNextPageId page = Ok (s_next p).
Proof.
  intros [lay Hr]. pose proof page_size_eq. pose proof (t_len _ _ _ Hr). unfold GetNextPageId.
  rewrite read_i32_ok by lia. by rewrite (t_next _ _ _ Hr).
Qed.

Lemma repr_length page p : repr page p -> length page = Z.to_nat PAGE_SIZE.
Proof. intros [lay Hr]. apply Hr. Qed.

Lemma set_next_repr page p id :
  repr page p -> int32 id -> exists page', SetNextPageId page id = Ok page' /\ repr page' (set_next id p).
Proof.
  intros [lay Hr] Hid. pose proof page_size_eq. destruct Hr. unfold SetNextPageId.
  destruct (write_i32_spec page 12 id) as (p1 & -> & S1 & V1); [lia|lia|done|].
  pose proof (proj1 S1) as L1. exists p1. split; [done|]. exists lay.
  assert (Hd : forall i, (i < length (s_slots p))%nat ->
    24 + 8 * Z.of_nat i + 8 <= PAGE_SIZE) by (intros i Hi; pose proof (area_len_nonneg lay); lia).
  pose proof (area_len_nonneg lay). split; cbn [s_id s_prev s_next s_slots set_next]; try done; try lia.
  - by frames.
  - by frames.
  - by frames.
  - by frames.
  - by frames.
  - intros i s Hs. specialize (Hd i (lookup_lt_Some _ _ _ Hs)).
    rewrite <- (t_size0 i s Hs). unfold size_at. by frames.
  - intros i s Hs Hne. specialize (Hd i (lookup_lt_Some _ _ _ Hs)).
    rewrite <- (t_offset0 i s Hs Hne). unfold offset_at. by frames.
  - intros i Hs. specialize (Hd i (lookup_lt_Some _ _ _ Hs)).
    rewrite <- (t_free0 i Hs). unfold offset_at. by frames.
Qed.

(** A page call keeps the id and the links of the page. *)
Lemma exec_spec_frame c p (l : L) a p' l' :
  exec_spec logging c p l = Ok (a, p', l') -> s_id p' = s_id p /\ s_next p' = s_next p.
Proof.
  destruct c; simpl; unfold insert_spec, update_spec; intros He;
    open_result; done.
Qed.

(** The calls that look only at the bytes of the tuple. *)
Lemma insert_exec r bs page p (l : L) :
  repr page p ->
  match insert_spec logging bs p l with
  | Ok (a, p', l') =>
      exists rid page', a = ARid rid /\
        TablePage.InsertTuple logging (mkTuple r bs) page l = Ok (rid, page', l') /\
        repr page' p' /\ (rid = None -> page' = page /\ p' = p /\ l' = l)
  | Fail e => TablePage.InsertTuple logging (mkTuple r bs) page l = Fail e
  end.
Proof.
  intros Hr. change (TablePage.InsertTuple logging (mkTuple r bs) page l) with
    (TablePage.InsertTuple logging (mkTuple invalid_rid bs) page l).
  pose proof (table_exec_refines logging (CInsert bs) page p l Hr I) as Hs.
  cbn [exec_spec exec] in Hs.
  assert (Hnone : forall a p' l', insert_spec logging bs p l = Ok (a, p', l') ->
    exists rid, a = ARid rid /\ (rid = None -> p' = p /\ l' = l)).
  { intros a p' l'. unfold insert_spec. intros He. open_result; eexists; split; done. }
  destruct (insert_spec logging bs p l) as [[[a p'] l']|e].
  - destruct (Hnone _ _ _ eq_refl) as (rid & -> & Hn). destruct Hs as (page' & He & Hr').
    destruct (TablePage.InsertTuple logging (mkTuple invalid_rid bs) page l) as [[[o pg] lo]|] eqn:Ei;
      simpl in He; [|done]. simplify_eq. exists rid, page'. split; [done|]. split; [done|].
    split; [done|]. intros ->. split; [|by apply Hn].
    unfold TablePage.InsertTuple in Ei. open_result; done.
  - destruct (TablePage.InsertTuple logging (mkTuple invalid_rid bs) page l) as [[[o pg] lo]|] eqn:Ei;
      simpl in Hs; [done|congruence].
Qed.

Lemma page_index_lookup id h i :
  page_index id h = Some i -> exists p, h_pages h !! i = Some p /\ s_id p = id.
Proof.
  unfold page_index. destruct (list_find _ _) as [[j p]|] eqn:E; [|done]. intros [= <-].
  apply list_find_Some in E as (Hp & Hid & _). by exists p.
Qed.

Lemma room_saved p buf s : room (save_page p buf s) = room s.
Proof. done. Qed.

Lemma chain_update (ps : list SPage) i p p' :
  ps !! i = Some p -> s_id p' = s_id p -> s_next p' = s_next p -> chain ps -> chain (<[i := p']> ps).
Proof.
  intros Hi Hid Hnext. revert i Hi. induction ps as [|q ps IH]; intros [|i] Hi Hc; simpl in *; try done.
  - simplify_eq. by rewrite Hnext.
  - destruct Hc as [Hq Hc]. split; [|by apply IH]. rewrite Hq.
    destruct ps as [|r ps]; [done|]. destruct i; simpl in *; by simplify_eq.
Qed.

Lemma ids_update (ps : list SPage) i p p' :
  ps !! i = Some p -> s_id p' = s_id p -> s_id <$> <[i := p']> ps = s_id <$> ps.
Proof.
  intros Hi Hid. rewrite list_fmap_insert, Hid. apply list_insert_id. by rewrite list_lookup_fmap, Hi.
Qed.

Lemma heap_rel_update s h i p p' buf :
  heap_rel s0 first s h -> h_pages h !! i = Some p -> repr buf p' -> s_id p' = s_id p ->
  s_next p' = s_next p -> at_rest (save_page (s_id p) buf s) ->
  heap_rel s0 first (save_page (s_id p) buf s) (set_page i p' h).
Proof.
  intros Hr Hi Hb Hid Hnext Hrest. destruct Hr. split; simpl; try done.
  - destruct (h_pages h) as [|q ps]; [done|]. destruct i; simpl in *; congruence.
  - intros q Hq. apply list_elem_of_lookup in Hq as [j Hq].
    destruct (decide (j = i)) as [->|Hne].
    + rewrite list_lookup_insert_eq in Hq by (by eapply lookup_lt_Some). injection Hq as <-.
      exists buf. split; [|done]. rewrite Hid. by rewrite lookup_insert_eq.
    + rewrite list_lookup_insert_ne in Hq by done.
      destruct (hr_pages0 q) as (bq & Hc & Hrq); [by eapply list_elem_of_lookup_2|].
      exists bq. split; [|done]. rewrite lookup_insert_ne; [done|]. intros Heq.
      apply Hne. apply (NoDup_lookup _ j i (s_id q) hr_nodup0); rewrite list_lookup_fmap.
      * by rewrite Hq.
      * rewrite Hi. simpl. congruence.
  - by rewrite (ids_update _ _ p).
  - by eapply chain_update.
  - rewrite (ids_update _ _ p) by done. apply changed_only_save; [done|].
    by apply list_elem_of_fmap_2, list_elem_of_lookup_2 with i.
Qed.

Lemma heap_open b s h i p :
  pp_repr b s -> heap_rel s0 first s h -> 0 < room s -> h_pages h !! i = Some p ->
  exists buf b1 s1, fetch (s_id p) b = Ok (Some buf, b1) /\ repr buf p /\ pp_repr b1 s1 /\
                    opened s s1 (<[s_id p := mkOpen buf false 1]> ∅) /\ contents s !! s_id p = Some buf.
Proof.
  intros Hb Hr Hroom Hi.
  destruct (hr_pages _ _ _ _ Hr p) as (buf & Hc & Hbuf); [by eapply list_elem_of_lookup_2|].
  destruct (open_fetch b s s ∅ (s_id p) buf) as (b1 & s1 & Hf & Hb1 & Ho); try done.
  - apply opened_none, (hr_rest _ _ _ _ Hr).
  - by exists buf, b1, s1.
Qed.

Lemma open_close b s s1 id buf buf' d dirty :
  pp_repr b s1 -> opened s s1 (<[id := mkOpen buf d 1]> ∅) ->
  length buf' = Z.to_nat PAGE_SIZE -> dirty = true \/ (buf' = buf /\ d = false) ->
  exists b1 b2, store id buf buf' b = Ok b1 /\ unpin id dirty b1 = Ok b2 /\
    pp_repr b2 (save_page id buf' s) /\ at_rest (save_page id buf' s).
Proof.
  intros Hb Ho Hlen Hd.
  destruct (open_store b s s1 _ id _ buf' Hb Ho (lookup_insert_eq _ _ _) Hlen)
    as (b1 & s2 & d' & Hs & Hb1 & Hclean & Ho1). simpl in *.
  destruct (open_unpin b1 s s2 _ id buf' d' dirty Hb1 Ho1) as (b2 & s3 & Hu & Hb2 & Ho2).
  - by rewrite lookup_insert_eq.
  - destruct Hd as [?|[Hd ->]]; [by left|right]. by apply Hclean.
  - exists b1, b2. split; [done|]. split; [done|].
    rewrite insert_insert_eq, delete_insert_id in Ho2 by done.
    pose proof (op_rest _ _ _ Ho2). apply opened_all_closed in Ho2. by subst s3.
Qed.

(** A call on one page of the heap: fetch, run, store, unpin. *)
Lemma heap_close b s s1 h i p p' buf buf' dirty :
  pp_repr b s1 -> heap_rel s0 first s h -> h_pages h !! i = Some p ->
  opened s s1 (<[s_id p := mkOpen buf false 1]> ∅) -> repr buf' p' ->
  s_id p' = s_id p -> s_next p' = s_next p -> dirty = true \/ buf' = buf ->
  exists b1 b2 s', store (s_id p) buf buf' b = Ok b1 /\ unpin (s_id p) dirty b1 = Ok b2 /\
    pp_repr b2 s' /\ heap_rel s0 first s' (set_page i p' h) /\ room s' = room s.
Proof.
  intros Hb Hr Hi Ho Hb' Hid Hnext Hd.
  destruct (open_close b s s1 (s_id p) buf buf' false dirty Hb Ho (repr_length _ _ Hb'))
    as (b1 & b2 & Hs & Hu & Hb2 & Hrest); [tauto|].
  exists b1, b2, (save_page (s_id p) buf' s). split; [done|]. split; [done|]. split; [done|].
  split; [by eapply heap_rel_update|done].
Qed.

(** ** The calls, one by one *)

Record env_rel (e : Env P L) (se : SEnv L) : Prop := {
  er_locks : locks_ e = s_locks se;
  er_writes : write_set_ e = s_writes se;
  er_pool : exists s, pp_repr (pool_ e) s /\ heap_rel s0 first s (s_heap se) /\ 2 <= room s
}.

Definition hsimulates (fuel : nat) (c : hcall) : Prop :=
  forall e se, env_rel e se -> hcall_ok fuel c se ->
  match hexec_spec logging first c se with
  | Ok (a, se') => exists e', hexec logging fuel first c e = Ok (a, e') /\ env_rel e' se'
  | Fail er => hexec logging fuel first c e = Fail er
  end.

(** A call on a page, on both sides up to the store and the unpin. *)
Lemma on_page_open c rid e se :
  env_rel e se -> on_page_ok c rid (s_heap se) ->
  exists i p buf b1 s s1,
    page_index (page_id_ rid) (s_heap se) = Some i /\ h_pages (s_heap se) !! i = Some p /\
    page_id_ rid = s_id p /\ call_ok c p /\
    fetch (page_id_ rid) (pool_ e) = Ok (Some buf, b1) /\ repr buf p /\ pp_repr b1 s1 /\
    heap_rel s0 first s (s_heap se) /\ 2 <= room s /\ opened s s1 (<[s_id p := mkOpen buf false 1]> ∅) /\
    match exec_spec logging c p (locks_ e) with
    | Ok (a, p', l') =>
        (exists buf', exec logging c buf (locks_ e) = Ok (a, buf', l') /\ repr buf' p') /\
        s_id p' = s_id p /\ s_next p' = s_next p
    | Fail er => exec logging c buf (locks_ e) = Fail er
    end.
Proof.
  intros [Hl Hw (s & Hb & Hr & Hroom)] Hok. unfold on_page_ok in Hok.
  destruct (page_index _ _) as [i|] eqn:Ei; [|done].
  destruct (page_index_lookup _ _ _ Ei) as (p & Hp & Hid). rewrite Hp in Hok.
  destruct (heap_open (pool_ e) s (s_heap se) i p Hb Hr) as (buf & b1 & s1 & Hf & Hbuf & Hb1 & Ho & _); [lia|done|].
  exists i, p, buf, b1, s, s1. rewrite <- Hid at 2. repeat (split; [done|]).
  pose proof (table_exec_refines logging c buf p (locks_ e) Hbuf Hok) as Hs.
  destruct (exec_spec logging c p (locks_ e)) as [[[a p'] l']|] eqn:Ee; [|done].
  split; [done|]. by eapply exec_spec_frame.
Qed.

Lemma mark_hsimulates fuel rid : hsimulates fuel (HMark rid).
Proof.
  intros e se He Hok. destruct (on_page_open _ _ _ _ He Hok)
    as (i & p & buf & b1 & s & s1 & Hi & Hp & Hid & _ & Hf & Hbuf & Hb1 & Hr & Hroom & Ho & Hs).
  cbn [hexec_spec hexec]. unfold on_page, MarkDelete. rewrite Hi, Hp, Hf, bind_ok. cbv iota beta.
  rewrite <- (er_locks _ _ He). cbn [exec] in Hs.
  destruct (exec_spec logging (CMark rid) p (locks_ e)) as [[[a p'] l']|er].
  2:{ destruct (TablePage.MarkDelete _ _ _ _) as [[[? ?] ?]|]; [done|]. simpl in *. congruence. }
  destruct Hs as [(buf' & He' & Hbuf') [Hid' Hnext']].
  destruct (TablePage.MarkDelete _ _ _ _) as [[[r pg] lg]|]; simpl in He'; [|done]. simplify_eq.
  destruct (heap_close b1 s s1 _ i p p' buf buf' true Hb1 Hr Hp Ho Hbuf' Hid' Hnext' (or_introl eq_refl))
    as (b2 & b3 & s' & Hst & Hu & Hb3 & Hr' & Hroom').
  rewrite !bind_ok, Hid, Hst, bind_ok, (get_id _ _ Hbuf'), Hid', bind_ok, Hu, bind_ok.
  eexists. split; [done|]. split; simpl; [done|by rewrite (er_writes _ _ He)|].
  exists s'. split; [done|]. split; [done|lia].
Qed.

Lemma update_hsimulates fuel bs rid : hsimulates fuel (HUpdate bs rid).
Proof.
  intros e se He Hok. destruct (on_page_open _ _ _ _ He Hok)
    as (i & p & buf & b1 & s & s1 & Hi & Hp & Hid & _ & Hf & Hbuf & Hb1 & Hr & Hroom & Ho & Hs).
  cbn [hexec_spec hexec]. unfold on_page, UpdateTuple. rewrite Hi, Hp, Hf, bind_ok. cbv iota beta.
  rewrite <- (er_locks _ _ He), <- (er_writes _ _ He). cbn [exec] in Hs.
  destruct (exec_spec logging (CUpdate bs rid) p (locks_ e)) as [[[a p'] l']|er].
  2:{ destruct (TablePage.UpdateTuple _ _ _ _) as [[[[? ?] ?] ?]|]; [done|]. simpl in *. congruence. }
  destruct Hs as [(buf' & He' & Hbuf') [Hid' Hnext']].
  destruct (TablePage.UpdateTuple _ _ _ _) as [[[[ok old] pg] lg]|] eqn:Eu; simpl in He'; [|done]. simplify_eq.
  assert (Hd : ok = true \/ buf' = buf).
  { destruct ok; [by left|right]. unfold TablePage.UpdateTuple in Eu. open_result; done. }
  destruct (heap_close b1 s s1 _ i p p' buf buf' ok Hb1 Hr Hp Ho Hbuf' Hid' Hnext' Hd)
    as (b2 & b3 & s' & Hst & Hu & Hb3 & Hr' & Hroom').
  rewrite !bind_ok, Hid, Hst, bind_ok, (get_id _ _ Hbuf'), Hid', bind_ok, Hu, bind_ok.
  destruct (ok && negb (lk_aborted l')); (eexists; split; [done|]; split; simpl; try done;
    exists s'; split; [done|]; split; [done|lia]).
Qed.

Lemma apply_hsimulates fuel rid : hsimulates fuel (HApply rid).
Proof.
  intros e se He Hok. destruct (on_page_open _ _ _ _ He Hok)
    as (i & p & buf & b1 & s & s1 & Hi & Hp & Hid & _ & Hf & Hbuf & Hb1 & Hr & Hroom & Ho & Hs).
  cbn [hexec_spec hexec]. unfold on_page, ApplyDelete. rewrite Hi, Hp, Hf, bind_ok. cbv iota beta.
  rewrite <- (er_locks _ _ He), <- (er_writes _ _ He). cbn [exec] in Hs.
  destruct (exec_spec logging (CApply rid) p (locks_ e)) as [[[a p'] l']|er].
  2:{ destruct (TablePage.ApplyDelete _ _ _ _); [done|]. simpl in *. congruence. }
  destruct Hs as [(buf' & He' & Hbuf') [Hid' Hnext']].
  destruct (TablePage.ApplyDelete _ _ _ _) as [pg|]; simpl in He'; [|done]. simplify_eq.
  destruct (heap_close b1 s s1 _ i p p' buf buf' true Hb1 Hr Hp Ho Hbuf' Hid' Hnext' (or_introl eq_refl))
    as (b2 & b3 & s' & Hst & Hu & Hb3 & Hr' & Hroom').
  rewrite !bind_ok, Hid, Hst, bind_ok.
  destruct (lk_unlock rid _) as [lu|]; [|done].
  rewrite !bind_ok, (get_id _ _ Hbuf'), Hid', bind_ok, Hu, bind_ok.
  eexists. split; [done|]. split; simpl; [done|done|].
  exists s'. split; [done|]. split; [done|lia].
Qed.

Lemma rollback_hsimulates fuel rid : hsimulates fuel (HRollback rid).
Proof.
  intros e se He Hok. destruct (on_page_open _ _ _ _ He Hok)
    as (i & p & buf & b1 & s & s1 & Hi & Hp & Hid & _ & Hf & Hbuf & Hb1 & Hr & Hroom & Ho & Hs).
  cbn [hexec_spec hexec]. unfold on_page, RollbackDelete. rewrite Hi, Hp, Hf, bind_ok. cbv iota beta.
  rewrite <- (er_locks _ _ He), <- (er_writes _ _ He). cbn [exec] in Hs.
  destruct (exec_spec logging (CRollback rid) p (locks_ e)) as [[[a p'] l']|er].
  2:{ destruct (TablePage.RollbackDelete _ _ _ _); [done|]. simpl in *. congruence. }
  destruct Hs as [(buf' & He' & Hbuf') [Hid' Hnext']].
  destruct (TablePage.RollbackDelete _ _ _ _) as [pg|]; simpl in He'; [|done]. simplify_eq.
  destruct (heap_close b1 s s1 _ i p p' buf buf' true Hb1 Hr Hp Ho Hbuf' Hid' Hnext' (or_introl eq_refl))
    as (b2 & b3 & s' & Hst & Hu & Hb3 & Hr' & Hroom').
  rewrite !bind_ok, Hid, Hst, bind_ok, (get_id _ _ Hbuf'), Hid', bind_ok, Hu, bind_ok.
  eexists. split; [done|]. split; simpl; [done|done|].
  exists s'. split; [done|]. split; [done|lia].
Qed.

Lemma get_spec_page rid p l a p' l' :
  exec_spec logging (CGet rid) p l = Ok (a, p', l') -> p' = p /\ exists t, a = ATuple t.
Proof. simpl. intros He. open_result; by eauto. Qed.

(** Reading a tuple through the pool, on any environment that represents the heap. *)
Lemma GetTuple_ok rid e se :
  env_rel e se -> on_page_ok (CGet rid) rid (s_heap se) ->
  match hexec_spec logging first (HGet rid) se with
  | Ok (HTuple t, se') => exists e', GetTuple logging rid e = Ok (t, e') /\ env_rel e' se' /\
                          s_heap se' = s_heap se
  | Ok _ => False
  | Fail er => GetTuple logging rid e = Fail er
  end.
Proof.
  intros He Hok. destruct (on_page_open _ _ _ _ He Hok)
    as (i & p & buf & b1 & s & s1 & Hi & Hp & Hid & _ & Hf & Hbuf & Hb1 & Hr & Hroom & Ho & Hs).
  cbn [hexec_spec]. unfold on_page, GetTuple. rewrite Hi, Hp, Hf, bind_ok. cbv iota beta.
  rewrite <- (er_locks _ _ He), <- (er_writes _ _ He). cbn [exec] in Hs.
  destruct (exec_spec logging (CGet rid) p (locks_ e)) as [[[a p'] l']|er] eqn:Es.
  2:{ destruct (TablePage.GetTuple _ _ _ _) as [[? ?]|]; [done|]. simpl in *. congruence. }
  destruct (get_spec_page _ _ _ _ _ _ Es) as [-> [t ->]].
  destruct Hs as [(buf' & He' & Hbuf') _].
  destruct (TablePage.GetTuple _ _ _ _) as [[ot lg]|]; simpl in He'; [|done]. simplify_eq.
  destruct (heap_close b1 s s1 _ i p p buf' buf' false Hb1 Hr Hp Ho Hbuf' eq_refl eq_refl (or_intror eq_refl))
    as (b2 & b3 & s' & Hst & Hu & Hb3 & Hr' & Hroom').
  unfold store in Hst. rewrite bool_decide_true in Hst by done. injection Hst as <-.
  rewrite !bind_ok, Hid, Hu, bind_ok.
  assert (Hset : set_page i p (s_heap se) = s_heap se).
  { unfold set_page. rewrite list_insert_id by done. by destruct (s_heap se). }
  rewrite Hset in *. eexists. split; [done|]. split; [|done]. split; simpl; [done|done|].
  exists s'. split; [done|]. split; [done|lia].
Qed.

Lemma get_hsimulates fuel rid : hsimulates fuel (HGet rid).
Proof.
  intros e se He Hok. pose proof (GetTuple_ok rid e se He Hok) as Hg. cbn [hexec].
  destruct (hexec_spec logging first (HGet rid) se) as [[[] se']|]; try done; [|by rewrite Hg].
  destruct Hg as (e' & -> & He' & _). rewrite bind_ok. by exists e'.
Qed.

(** ** Insertion *)

Lemma insert_here n bs b s s1 p buf d (l : L) :
  pp_repr b s1 -> opened s s1 (<[s_id p := mkOpen buf d 1]> ∅) -> repr buf p ->
  match insert_spec logging bs p l with
  | Ok (ARid (Some rid), p', l') =>
      exists buf' b', insert_loop logging (S n) (mkTuple invalid_rid bs) (s_id p) buf b l
                      = Ok (Some rid, b', l') /\
        repr buf' p' /\ s_id p' = s_id p /\ s_next p' = s_next p /\
        pp_repr b' (save_page (s_id p) buf' s) /\ at_rest (save_page (s_id p) buf' s)
  | Ok _ => True
  | Fail er => insert_loop logging (S n) (mkTuple invalid_rid bs) (s_id p) buf b l = Fail er
  end.
Proof.
  intros Hb Ho Hbuf. pose proof (insert_exec invalid_rid bs buf p l Hbuf) as Hs.
  destruct (insert_spec logging bs p l) as [[[a p'] l']|er] eqn:Es.
  2:{ cbn [insert_loop]. by rewrite Hs. }
  destruct Hs as (rid & buf' & -> & He & Hbuf' & _). destruct rid as [rid|]; [|done].
  destruct (exec_spec_frame (CInsert bs) p l _ p' l' Es) as [Hid Hnext].
  destruct (open_close b s s1 (s_id p) buf buf' d true Hb Ho (repr_length _ _ Hbuf'))
    as (b1 & b2 & Hst & Hu & Hb2 & Hrest); [by left|].
  exists buf', b2. cbn [insert_loop].
  rewrite He, bind_ok, Hst, bind_ok, (get_id _ _ Hbuf'), Hid, bind_ok, Hu, bind_ok. done.
Qed.

(** A tuple that passes the test of [InsertTuple] fits in an empty page. *)
Lemma insert_empty_page bs id prev (l : L) a p' l' :
  Z.of_nat (length bs) + 32 <= PAGE_SIZE ->
  insert_spec logging bs (mkSPage id prev INVALID_PAGE_ID []) l = Ok (a, p', l') ->
  exists rid, a = ARid (Some rid).
Proof.
  intros Hlen. pose proof page_size_eq.
  assert (Hfree : free_size [] = PAGE_SIZE - 24) by done.
  unfold insert_spec. cbn [s_slots]. intros He. rewrite Hfree in He.
  rewrite (proj2 (Z.ltb_ge (PAGE_SIZE - 24) (Z.of_nat (length bs)))) in He by lia.
  rewrite (proj2 (Z.ltb_ge (PAGE_SIZE - 24) (Z.of_nat (length bs) + 8))) in He by lia.
  rewrite andb_false_r in He. open_result; by eexists.
Qed.

Lemma chain_mid pre p q ps : chain (pre ++ p :: q :: ps) -> s_next p = s_id q.
Proof. induction pre as [|r pre IH]; simpl; [by intros [? _]|by intros [_ ?]; apply IH]. Qed.

Lemma chain_last pre p : chain (pre ++ [p]) -> s_next p = INVALID_PAGE_ID.
Proof. induction pre as [|r pre IH]; simpl; [by intros [? _]|by intros [_ ?]; apply IH]. Qed.

Lemma chain_extend pre p q :
  chain (pre ++ [p]) -> s_next q = INVALID_PAGE_ID -> chain (pre ++ [set_next (s_id q) p; q]).
Proof.
  intros Hc Hq. induction pre as [|r pre IH]; simpl in *; [by repeat split|].
  destruct Hc as [Hr Hc]. split; [|by apply IH]. rewrite Hr. by destruct pre.
Qed.

(** The heap with the new page [q] after its last page [p]. *)
Lemma heap_rel_extend s pre p q buf bufq :
  heap_rel s0 first s (mkSHeap (pre ++ [p]) (next s)) -> s_id q = next s -> s_next q = INVALID_PAGE_ID ->
  repr buf (set_next (next s) p) -> repr bufq q ->
  at_rest (save_page (next s) bufq (save_page (s_id p) buf (add_page s))) ->
  heap_rel s0 first (save_page (next s) bufq (save_page (s_id p) buf (add_page s)))
           (mkSHeap (pre ++ [set_next (next s) p; q]) (next s + 1)).
Proof.
  intros Hr Hq Hqn Hbuf Hbufq Hrest. destruct Hr. simpl in *.
  assert (Hlt : forall x, x ∈ pre ++ [p] -> s_id x <> next s).
  { intros x Hx. destruct (hr_pages0 x Hx) as (bx & Hc & _).
    assert (Hid : is_Some (contents s !! s_id x)) by (by eexists).
    apply (ar_id _ hr_rest0) in Hid. lia. }
  assert (Hp : s_id p <> next s) by (apply Hlt; set_solver).
  split; simpl; try done.
  - by destruct pre.
  - intros x [Hx|[->|[->|[]%not_elem_of_nil]%elem_of_cons]%elem_of_cons]%elem_of_app.
    + destruct (hr_pages0 x) as (bx & Hc & Hbx); [set_solver|]. exists bx. split; [|done].
      assert (Hxn : s_id x <> next s) by (apply Hlt; set_solver).
      assert (Hxp : s_id x <> s_id p).
      { intros Heq. rewrite fmap_app in hr_nodup0. apply NoDup_app in hr_nodup0 as (_ & Hd & _).
        apply (Hd (s_id x)); [by apply list_elem_of_fmap_2|]. simpl. rewrite Heq. by left. }
      by rewrite !lookup_insert_ne.
    + exists buf. split; [|done]. simpl. by rewrite lookup_insert_ne, lookup_insert_eq.
    + exists bufq. split; [|done]. by rewrite Hq, lookup_insert_eq.
  - rewrite fmap_app in *. simpl in *.
    apply NoDup_app in hr_nodup0 as (H1' & H2' & _). apply NoDup_app. split; [done|]. split.
    + intros x Hx [->|[->|[]%not_elem_of_nil]%elem_of_cons]%elem_of_cons.
      * apply (H2' _ Hx). by left.
      * apply list_elem_of_fmap in Hx as (y & Hy & Hyp). rewrite Hq in Hy.
        by apply (Hlt y); [set_solver|].
    + rewrite Hq. apply NoDup_cons. split; [|apply NoDup_singleton]. by intros ?%list_elem_of_singleton.
  - rewrite <- Hq. by apply chain_extend.
  - rewrite fmap_app in *. apply changed_only_save; [apply changed_only_save|].
    + apply (changed_only_add (s_id <$> pre ++ [p])); [by rewrite fmap_app|set_solver|]. simpl. rewrite Hq. set_solver.
    + set_solver.
    + simpl. rewrite Hq. set_solver.
Qed.

(** The last page is full: the loop goes on with a new page. *)
Lemma insert_grow n bs b s s1 pre p buf (l : L) :
  pp_repr b s1 -> opened s s1 (<[s_id p := mkOpen buf false 1]> ∅) -> repr buf p ->
  heap_rel s0 first s (mkSHeap (pre ++ [p]) (next s)) -> 2 <= room s -> page_id_in_file (next s) ->
  TablePage.InsertTuple logging (mkTuple invalid_rid bs) buf l = Ok (None, buf, l) ->
  exists buf' bufq b' s' d,
    insert_loop logging (S n) (mkTuple invalid_rid bs) (s_id p) buf b l =
    insert_loop logging n (mkTuple invalid_rid bs) (next s) bufq b' l /\
    repr buf' (set_next (next s) p) /\
    repr bufq (mkSPage (next s) (s_id p) INVALID_PAGE_ID []) /\
    pp_repr b' s' /\
    opened (save_page (s_id p) buf' (add_page s)) s' (<[next s := mkOpen bufq d 1]> ∅).
Proof.
  intros Hb Ho Hbuf Hr Hroom Hid Hfull. cbn [insert_loop]. rewrite Hfull, bind_ok.
  unfold store at 1. rewrite bool_decide_true by done. rewrite bind_ok.
  rewrite (get_next _ _ Hbuf), bind_ok, (get_id _ _ Hbuf), bind_ok.
  pose proof (chain_last _ _ (hr_chain _ _ _ _ Hr)) as Hlast. rewrite Hlast, Z.eqb_refl. cbn [negb].
  destruct (open_new b s s1 _ Hb Ho) as (b1 & s2 & Hn & Hb1 & Ho1 & Hno & Hfresh); [|done|].
  { rewrite map_size_insert_None by apply lookup_empty. rewrite map_size_empty. lia. }
  rewrite Hn, bind_ok.
  assert (Hne : s_id p <> next s).
  { intros Heq. rewrite <- Heq, lookup_insert_eq in Hno. done. }
  assert (Hid32 : int32 (next s)) by (unfold page_id_in_file in Hid; unfold in_sint; lia).
  destruct (set_next_repr buf p (next s) Hbuf Hid32) as (buf' & Hsn & Hbuf').
  rewrite Hsn, bind_ok.
  destruct (open_store b1 (add_page s) s2 _ (s_id p) (mkOpen buf false 1) buf' Hb1 Ho1)
    as (b2 & s3 & d & Hst & Hb2 & _ & Ho2); [by rewrite lookup_insert_ne, lookup_insert_eq|
    by apply (repr_length _ _ Hbuf')|].
  cbn [o_buf o_dirty o_pins] in *. rewrite Hst, bind_ok, (get_id _ _ Hbuf'), bind_ok. cbn [s_id set_next].
  assert (Hp32 : int32 (s_id p)).
  { destruct (hr_pages _ _ _ _ Hr p) as (bx & Hc & _); [simpl; set_solver|].
    assert (Hx : is_Some (contents s !! s_id p)) by (by eexists).
    apply (ar_id _ (hr_rest _ _ _ _ Hr)) in Hx. unfold page_id_in_file in Hid. unfold in_sint. lia. }
  destruct (init_repr zero_page (next s) (s_id p)) as (bufq & Hi & Hbufq); [reflexivity|done|done|].
  rewrite Hi, bind_ok.
  destruct (open_store b2 (add_page s) s3 _ (next s) (mkOpen zero_page false 1) bufq Hb2 Ho2)
    as (b3 & s4 & dq & Hst3 & Hb3 & _ & Ho3);
    [by rewrite lookup_insert_ne, lookup_insert_eq|by apply (repr_length _ _ Hbufq)|].
  cbn [o_buf o_dirty o_pins] in *. rewrite Hst3, bind_ok.
  destruct (open_unpin b3 (add_page s) s4 _ (s_id p) buf' d true Hb3 Ho3) as (b4 & s5 & Hu & Hb4 & Ho4);
    [by rewrite lookup_insert_ne, lookup_insert_eq|by left|].
  rewrite Hu, bind_ok. exists buf', bufq, b4, s5, dq. repeat (split; [done|]).
  replace (<[next s := mkOpen bufq dq 1]> ∅) with
    (delete (s_id p) (<[next s:=mkOpen bufq dq 1]>
      (<[s_id p:=mkOpen buf' d 1]> (<[next s:=mkOpen zero_page false 1]>
         (<[s_id p:=mkOpen buf false 1]> (∅ : gmap Z Open)))))); [done|].
  apply map_eq. intros x. destruct (decide (x = s_id p)) as [->|Hx].
  - rewrite lookup_delete_eq, lookup_insert_ne by done. by rewrite lookup_empty.
  - rewrite lookup_delete_ne by done. destruct (decide (x = next s)) as [->|Hx'].
    + by rewrite !lookup_insert_eq.
    + by rewrite !lookup_insert_ne.
Qed.

Definition insert_done (room0 : Z) (pre : list SPage) (b' : P) (qs : list SPage) (next' : Z) : Prop :=
  exists s', pp_repr b' s' /\ heap_rel s0 first s' (mkSHeap (pre ++ qs) next') /\ room s' = room0.

(** The current page takes the tuple. *)
Lemma insert_found n bs b s s1 pre p ps buf p1 rid (l l1 : L) :
  pp_repr b s1 -> heap_rel s0 first s (mkSHeap (pre ++ p :: ps) (next s)) ->
  opened s s1 (<[s_id p := mkOpen buf false 1]> ∅) -> repr buf p ->
  insert_spec logging bs p l = Ok (ARid (Some rid), p1, l1) ->
  exists b', insert_loop logging (S n) (mkTuple invalid_rid bs) (s_id p) buf b l = Ok (Some rid, b', l1) /\
             insert_done (room s) pre b' (p1 :: ps) (next s).
Proof.
  intros Hb Hr Ho Hbuf Es. pose proof (insert_here n bs b s s1 p buf false l Hb Ho Hbuf) as Hhere.
  rewrite Es in Hhere. destruct Hhere as (buf' & b' & Hrun & Hbuf' & Hid' & Hnext' & Hb' & Hrest).
  exists b'. split; [done|]. exists (save_page (s_id p) buf' s). split; [done|]. split; [|done].
  pose proof (heap_rel_update s _ (length pre) p p1 buf' Hr (list_lookup_middle pre ps p _ eq_refl)
    Hbuf' Hid' Hnext' Hrest) as Hu.
  unfold set_page in Hu; simpl in Hu. by rewrite insert_app_r_alt, Nat.sub_diag in Hu by lia.
Qed.

Lemma insert_last n bs b s s1 pre p buf (l : L) :
  pp_repr b s1 -> heap_rel s0 first s (mkSHeap (pre ++ [p]) (next s)) -> 2 <= room s ->
  page_id_in_file (next s) -> Z.of_nat (length bs) + 32 <= PAGE_SIZE ->
  opened s s1 (<[s_id p := mkOpen buf false 1]> ∅) -> repr buf p ->
  TablePage.InsertTuple logging (mkTuple invalid_rid bs) buf l = Ok (None, buf, l) ->
  match insert_spec logging bs (mkSPage (next s) (s_id p) INVALID_PAGE_ID []) l with
  | Ok (ARid (Some rid), q, l') =>
      exists b', insert_loop logging (S (S n)) (mkTuple invalid_rid bs) (s_id p) buf b l = Ok (Some rid, b', l') /\
                 insert_done (room s) pre b' [set_next (next s) p; q] (next s + 1)
  | Ok _ => False
  | Fail er => insert_loop logging (S (S n)) (mkTuple invalid_rid bs) (s_id p) buf b l = Fail er
  end.
Proof.
  intros Hb Hr Hroom Hid Hlen Ho Hbuf Hexec.
  destruct (insert_grow (S n) bs b s s1 pre p buf l Hb Ho Hbuf Hr Hroom Hid Hexec)
    as (buf' & bufq & b' & s' & d & -> & Hbuf' & Hbufq & Hb' & Ho').
  pose proof (insert_here n bs b' _ s' (mkSPage (next s) (s_id p) INVALID_PAGE_ID []) bufq d l
    Hb' Ho' Hbufq) as Hhq.
  destruct (insert_spec logging bs (mkSPage (next s) _ _ _) l) as [[[a q1] l1]|er] eqn:Eq; [|done].
  destruct (insert_empty_page _ _ _ _ _ _ _ Hlen Eq) as [rid ->].
  destruct Hhq as (buf2 & b2 & Hrun & Hbuf2 & Hid2 & Hnext2 & Hb2 & Hrest2).
  exists b2. split; [done|]. eexists. split; [exact Hb2|].
  split; [|done]. simpl in Hid2, Hnext2. by apply heap_rel_extend.
Qed.

(** The current page is full: the loop goes to the next page of the chain. *)
Lemma insert_next n bs b s s1 pre p q ps buf (l : L) :
  pp_repr b s1 -> heap_rel s0 first s (mkSHeap (pre ++ p :: q :: ps) (next s)) -> 2 <= room s ->
  opened s s1 (<[s_id p := mkOpen buf false 1]> ∅) -> contents s !! s_id p = Some buf -> repr buf p ->
  TablePage.InsertTuple logging (mkTuple invalid_rid bs) buf l = Ok (None, buf, l) ->
  exists bufq b' s',
    insert_loop logging (S n) (mkTuple invalid_rid bs) (s_id p) buf b l =
    insert_loop logging n (mkTuple invalid_rid bs) (s_id q) bufq b' l /\
    repr bufq q /\ pp_repr b' s' /\ opened s s' (<[s_id q := mkOpen bufq false 1]> ∅) /\
    contents s !! s_id q = Some bufq.
Proof.
  intros Hb Hr Hroom Ho Hcp Hbuf Hexec. cbn [insert_loop]. rewrite Hexec, bind_ok.
  unfold store. rewrite bool_decide_true by done. rewrite bind_ok.
  rewrite (get_next _ _ Hbuf), bind_ok, (get_id _ _ Hbuf), bind_ok.
  rewrite (chain_mid _ _ _ _ (hr_chain _ _ _ _ Hr)).
  assert (Hq : h_pages (mkSHeap (pre ++ p :: q :: ps) (next s)) !! (length pre + 1)%nat = Some q).
  { simpl. rewrite lookup_app_r by lia. by replace (length pre + 1 - length pre)%nat with 1%nat by lia. }
  destruct (open_unpin b s s1 _ (s_id p) buf false false Hb Ho) as (b1 & s2 & Hu & Hb1 & Ho1);
    [by rewrite lookup_insert_eq|by right|].
  rewrite delete_insert_id in Ho1 by done. apply opened_all_closed in Ho1 as ->.
  assert (Hsame : save_page (s_id p) buf s = s).
  { unfold save_page. rewrite insert_id by done. by destruct s. }
  rewrite Hsame in Hb1.
  destruct (heap_open b1 s _ (length pre + 1) q Hb1 Hr) as (bufq & b2 & s3 & Hf & Hbufq & Hb2 & Ho2 & Hcq);
    [lia|done|].
  assert (Hid : is_Some (contents s !! s_id q)) by (by eexists).
  apply (ar_id _ (hr_rest _ _ _ _ Hr)) in Hid.
  rewrite (proj2 (Z.eqb_neq _ _)) by (unfold INVALID_PAGE_ID; lia). cbn [negb].
  rewrite Hu, bind_ok, Hf, bind_ok. cbn [deref_page from_option_r]. rewrite bind_ok.
  by exists bufq, b2, s3.
Qed.

Lemma insert_pages_two bs p q ps next (l : L) :
  insert_pages logging bs (p :: q :: ps) next l =
  let* (a, p1, l1) := insert_spec logging bs p l in
  match a with
  | ARid (Some rid) => Ok (rid, p1 :: q :: ps, next, l1)
  | _ =>
      let* (rid, qs, next, l1) := insert_pages logging bs (q :: ps) next l in
      Ok (rid, p :: qs, next, l1)
  end.
Proof. done. Qed.

Lemma insert_loop_ok bs ps : forall pre p n b s s1 buf (l : L),
  (length ps + 2 <= n)%nat -> pp_repr b s1 ->
  heap_rel s0 first s (mkSHeap (pre ++ p :: ps) (next s)) -> 2 <= room s -> page_id_in_file (next s) ->
  Z.of_nat (length bs) + 32 <= PAGE_SIZE ->
  opened s s1 (<[s_id p := mkOpen buf false 1]> ∅) -> contents s !! s_id p = Some buf -> repr buf p ->
  match insert_pages logging bs (p :: ps) (next s) l with
  | Ok (rid, qs, next', l') =>
      exists b', insert_loop logging n (mkTuple invalid_rid bs) (s_id p) buf b l = Ok (Some rid, b', l') /\
                 insert_done (room s) pre b' qs next'
  | Fail er => insert_loop logging n (mkTuple invalid_rid bs) (s_id p) buf b l = Fail er
  end.
Proof.
  induction ps as [|q ps IH]; intros pre p n b s s1 buf l Hn Hb Hr Hroom Hid Hlen Ho Hcp Hbuf;
    (destruct n as [|[|n]]; [simpl in Hn; lia|simpl in Hn; lia|]);
    pose proof (insert_exec invalid_rid bs buf p l Hbuf) as Hexec;
    pose proof (insert_here (S n) bs b s s1 p buf false l Hb Ho Hbuf) as Hhere;
    (rewrite insert_pages_two || cbn [insert_pages]); destruct (insert_spec logging bs p l) as [[[a p1] l1]|er] eqn:Es; [| done | | done];
    rewrite bind_ok; destruct Hexec as (rid & bufx & -> & Hexec & _ & Hsame);
    (destruct rid as [rid|]; [by eapply insert_found|]); destruct (Hsame eq_refl) as (-> & -> & ->).
  - pose proof (insert_last n bs b s s1 pre p buf l Hb Hr Hroom Hid Hlen Ho Hbuf Hexec) as Hl.
    destruct (insert_spec logging bs (mkSPage (next s) _ _ _) l) as [[[a q1] l1]|er]; [|done].
    rewrite bind_ok. destruct a as [[rid|]| | | |]; done.
  - destruct (insert_next (S n) bs b s s1 pre p q ps buf l Hb Hr Hroom Ho Hcp Hbuf Hexec)
      as (bufq & b' & s' & -> & Hbufq & Hb' & Ho' & Hcq).
    specialize (IH (pre ++ [p]) q (S n) b' s s' bufq l).
    rewrite <- (app_assoc pre [p]) in IH. cbn [app] in IH.
    specialize (IH ltac:(simpl in Hn; lia) Hb' Hr Hroom Hid Hlen Ho' Hcq Hbufq).
    destruct (insert_pages logging bs (q :: ps) (next s) l) as [[[[rid qs] n'] l2]|er]; [|done].
    rewrite bind_ok. destruct IH as (b2 & Hrun & s2 & Hb2 & Hr2 & Hroom2). exists b2. split; [done|].
    exists s2. split; [done|]. split; [|done]. by rewrite <- app_assoc in Hr2.
Qed.

Lemma insert_hsimulates fuel bs : hsimulates fuel (HInsert bs).
Proof.
  intros e se He [Hid Hfuel]. destruct (er_pool _ _ He) as (s & Hb & Hr & Hroom).
  cbn [hexec_spec hexec]. unfold InsertTuple. change (size_ (mkTuple invalid_rid bs)) with (Z.of_nat (length bs)).
  destruct (Z.ltb_spec PAGE_SIZE (Z.of_nat (length bs) + 32)) as [Hbig|Hlen].
  { rewrite bind_ok. eexists. split; [done|]. split; simpl; [by rewrite (er_locks _ _ He)|apply He|].
    by exists s. }
  rewrite <- (er_locks _ _ He), <- (er_writes _ _ He), <- (hr_next _ _ _ _ Hr).
  rewrite <- (hr_next _ _ _ _ Hr) in Hid.
  pose proof (hr_first _ _ _ _ Hr) as Hfirst.
  destruct (s_heap se) as [ps nx] eqn:Eh. simpl in *. pose proof (hr_next _ _ _ _ Hr) as Hnx. simpl in Hnx. subst nx.
  destruct ps as [|p ps]; [done|]. injection Hfirst as Hfirst.
  destruct (heap_open (pool_ e) s _ 0 p Hb Hr) as (buf & b1 & s1 & Hf & Hbuf & Hb1 & Ho & Hc); [lia|done|].
  rewrite Hfirst in Hf. rewrite Hf, bind_ok. cbv iota beta.
  pose proof (insert_loop_ok bs ps [] p fuel b1 s s1 buf (locks_ e)) as Hl. cbn [app] in Hl.
  specialize (Hl ltac:(simpl in Hfuel; lia) Hb1 Hr Hroom Hid Hlen Ho Hc Hbuf).
  rewrite Hfirst in Hl.
  destruct (insert_pages logging bs (p :: ps) (next s) (locks_ e)) as [[[[rid qs] n'] l']|er];
    [|by rewrite Hl].
  destruct Hl as (b' & -> & s' & Hb' & Hr' & Hroom'). rewrite !bind_ok. eexists. split; [done|].
  split; simpl; [done|done|]. exists s'. split; [done|]. split; [done|lia].
Qed.

Lemma heap_exec_refines fuel c : hsimulates fuel c.
Proof.
  destruct c; auto using insert_hsimulates, mark_hsimulates, update_hsimulates, apply_hsimulates,
    rollback_hsimulates, get_hsimulates.
Qed.

Lemma heap_run_refines fuel cs e se :
  env_rel e se -> hcalls_ok logging fuel first cs se ->
  match hrun_spec logging first cs se with
  | Ok (a, se') => exists e', hrun logging fuel first cs e = Ok (a, e') /\ env_rel e' se'
  | Fail er => hrun logging fuel first cs e = Fail er
  end.
Proof.
  revert e se. induction cs as [|c cs IH]; intros e se He Hok.
  { exists e. by split. }
  destruct Hok as [Hc Hcs]. cbn [hrun hrun_spec].
  pose proof (heap_exec_refines fuel c e se He Hc) as Hx.
  destruct (hexec_spec logging first c se) as [[a se1]|er]; [|by rewrite Hx].
  destruct Hx as (e1 & Hx & He1). rewrite Hx, !bind_ok. cbv beta iota. specialize (IH e1 se1 He1 Hcs).
  destruct (hrun_spec logging first cs se1) as [[q se2]|er]; [|by rewrite IH].
  destruct IH as (e2 & -> & He2). rewrite !bind_ok. by exists e2.
Qed.

(** The constructor makes a heap of one empty page. *)
(** A new heap, while other pages are open. *)
Lemma create_open b s s1 o :
  pp_repr b s1 -> opened s s1 o -> Z.of_nat (size o) < room s -> page_id_in_file (next s) ->
  exists b' s2 buf, create b = Ok (next s, b') /\ pp_repr b' s2 /\ opened (save_page (next s) buf (add_page s)) s2 o /\
    repr buf (mkSPage (next s) INVALID_LSN INVALID_PAGE_ID []).
Proof.
  intros Hb Ho Hroom Hid. destruct (open_new b s s1 o Hb Ho Hroom Hid) as (b1 & s2 & Hn & Hb1 & Ho1 & Hno & _).
  unfold create. rewrite Hn, bind_ok. cbv iota beta.
  assert (Hid32 : int32 (next s)) by (unfold page_id_in_file in Hid; unfold in_sint; lia).
  destruct (init_repr zero_page (next s) INVALID_LSN) as (buf & Hi & Hbuf); [reflexivity|done|by_computation|].
  rewrite Hi, bind_ok.
  destruct (open_store b1 _ s2 _ (next s) _ buf Hb1 Ho1 (lookup_insert_eq _ _ _) (repr_length _ _ Hbuf))
    as (b2 & s3 & d & Hst & Hb2 & _ & Ho2). cbn [o_buf] in Hst. rewrite Hst, bind_ok. rewrite insert_insert_eq in Ho2.
  destruct (open_unpin b2 _ s3 _ (next s) buf d true Hb2 Ho2) as (b3 & s4 & Hu & Hb3 & Ho3); [by rewrite lookup_insert_eq|by left|].
  rewrite Hu, bind_ok. rewrite delete_insert_id in Ho3 by done. by exists b3, s4, buf.
Qed.

Lemma create_ok b s :
  pp_repr b s -> at_rest s -> 2 <= room s -> page_id_in_file (next s) -> first = next s -> s0 = s ->
  exists b' s', create b = Ok (first, b') /\ pp_repr b' s' /\ room s' = room s /\
    heap_rel s0 first s' (mkSHeap [mkSPage first INVALID_LSN INVALID_PAGE_ID []] (next s + 1)).
Proof.
  intros Hb Hrest Hroom Hid -> ->. destruct (create_open b s s ∅ Hb (opened_none s Hrest)) as (b' & s' & buf & Hc & Hb' & Ho & Hbuf);
    [rewrite map_size_empty; lia|done|].
  pose proof (op_rest _ _ _ Ho). apply opened_all_closed in Ho as ->. exists b', (save_page (next s) buf (add_page s)).
  split; [done|]. split; [done|]. split; [done|]. split; simpl; try done.
  - intros p ->%list_elem_of_singleton. exists buf. simpl. by rewrite lookup_insert_eq.
  - apply NoDup_singleton.
  - apply changed_only_save; [apply (changed_only_add []); [apply changed_only_refl|by intros q ?%not_elem_of_nil|]|]; set_solver.
Qed.
End HeapLemmas.

(** ** The scan *)

(** The tuples of the slots [ss], the first of which is slot [k]. *)
Fixpoint live_tuples (id : Z) (k : nat) (ss : list Slot) : list Tuple :=
  match ss with
  | [] => []
  | Live bs :: ss' => mkTuple (mkRID id (Z.of_nat k)) bs :: live_tuples id (S k) ss'
  | _ :: ss' => live_tuples id (S k) ss'
  end.

Definition page_tuples (p : SPage) : list Tuple := live_tuples (s_id p) 0 (s_slots p).
Definition heap_tuples (ps : list SPage) : list Tuple := mjoin (page_tuples <$> ps).

Definition tuples_after (i : nat) (p : SPage) (ps : list SPage) : list Tuple :=
  live_tuples (s_id p) (S i) (drop (S i) (s_slots p)) ++ heap_tuples ps.

(** The iterator stands at the head of the tuples [ts] of the heap. *)
Inductive stands (ps0 : list SPage) (it : Tuple) : list Tuple -> Prop :=
| stands_end : it_eq it it_end = true -> stands ps0 it []
| stands_at pre p ps i bs :
    ps0 = pre ++ p :: ps -> s_slots p !! i = Some (Live bs) ->
    it = mkTuple (mkRID (s_id p) (Z.of_nat i)) bs ->
    stands ps0 it (it :: tuples_after i p ps).

Lemma first_live_tuples id k ss :
  match first_live k ss with
  | Some i => exists bs, ss !! i = Some (Live bs) /\
      live_tuples id k (drop k ss) =
      mkTuple (mkRID id (Z.of_nat i)) bs :: live_tuples id (S i) (drop (S i) ss)
  | None => live_tuples id k (drop k ss) = []
  end.
Proof.
  unfold first_live. remember (drop k ss) as d eqn:Hd. revert k Hd.
  induction d as [|x d IH]; intros k Hd; [done|].
  assert (Hx : ss !! k = Some x) by (rewrite <- (Nat.add_0_r k), <- lookup_drop, <- Hd; done).
  assert (Hd' : d = drop (S k) ss).
  { rewrite <- Nat.add_1_r, <- drop_drop, <- Hd. done. }
  specialize (IH (S k) Hd'). cbn [list_find]. destruct x as [|bs|bs]; simpl.
  2:{ exists bs. rewrite Nat.add_0_r. split; [done|]. by rewrite Hd'. }
  all: destruct (list_find _ d) as [[j y]|]; simpl in *; [|done];
    rewrite Nat.add_succ_r; simpl in IH; exact IH.
Qed.

(** [begin] looks at the first page only. *)
Definition scan_spec (ps : list SPage) : list Tuple :=
  match ps with
  | [] => []
  | p :: _ => match page_tuples p with [] => [] | _ :: _ => heap_tuples ps end
  end.

Section Scan.
Context {P L : Type} `{PagePoolLaws P} `{LockEnv L} (logging : bool) (s0 : Store) (first : Z) (h : SHeap).

(** The locks of the transaction, from which every tuple of the heap can be read. *)
Context (Inv : L -> Prop).
Hypothesis Hreads : forall l p i bs, Inv l -> p ∈ h_pages h -> s_slots p !! i = Some (Live bs) ->
  exists l', acquire_shared logging (mkRID (s_id p) (Z.of_nat i)) l = Ok (true, l') /\ Inv l'.

Lemma live_not_end s p i bs bs' :
  heap_rel s0 first s h -> p ∈ h_pages h -> s_slots p !! i = Some (Live bs) ->
  it_eq (mkTuple (mkRID (s_id p) (Z.of_nat i)) bs') it_end = false.
Proof.
  intros Hr Hp Hi. destruct (hr_pages _ _ _ _ Hr p Hp) as (buf & Hc & lay & Hbuf).
  assert (Hid : is_Some (contents s !! s_id p)) by (by eexists).
  apply (ar_id _ (hr_rest _ _ _ _ Hr)) in Hid.
  pose proof (i32_at_range buf 0) as H32. rewrite (t_id _ _ _ Hbuf) in H32.
  pose proof (t_room _ _ _ Hbuf). pose proof (area_len_nonneg lay). pose proof page_size_eq.
  apply lookup_lt_Some in Hi.
  unfold it_eq. apply Z.eqb_neq. rewrite Rid.get_nonneg; [| |simpl; lia].
  - replace (Get (rid_ it_end)) with (-1) by done. simpl. lia.
  - split; simpl; [done|]. unfold in_sint. lia.
Qed.

Lemma close_clean b s sx id buf :
  pp_repr b sx -> opened s sx (<[id := mkOpen buf false 1]> ∅) -> contents s !! id = Some buf ->
  exists b', unpin id false b = Ok b' /\ pp_repr b' s.
Proof.
  intros Hb Ho Hc.
  destruct (open_unpin b s sx _ id buf false false Hb Ho) as (b' & s' & Hu & Hb' & Ho');
    [by rewrite lookup_insert_eq|by right|].
  assert (Hsame : save_page id buf s = s).
  { unfold save_page. rewrite insert_id by done. by destruct s. }
  rewrite delete_insert_id, Hsame in Ho' by done. apply opened_all_closed in Ho' as ->. by exists b'.
Qed.

(** The bytes and the answer of a read of a live slot. *)
Lemma read_live buf p i bs l : repr buf p -> p ∈ h_pages h -> s_slots p !! i = Some (Live bs) -> Inv l ->
  exists l', TablePage.GetTuple logging (mkRID (s_id p) (Z.of_nat i)) buf l =
    Ok (Some (mkTuple (mkRID (s_id p) (Z.of_nat i)) bs), l') /\ Inv l'.
Proof.
  intros Hbuf Hp Hi Hl. destruct (Hreads l p i bs Hl Hp Hi) as (l' & Hacq & Hl'). exists l'. split; [|done].
  pose proof (table_exec_refines logging (CGet (mkRID (s_id p) (Z.of_nat i))) buf p l Hbuf) as Hs.
  specialize (Hs ltac:(simpl; lia)). cbn [exec_spec exec] in Hs. unfold slot_of in Hs. cbn [slot_num_] in Hs.
  rewrite Nat2Z.id, Hi, Hacq in Hs. cbn in Hs. destruct Hs as (buf' & He & _).
  destruct (TablePage.GetTuple _ _ _ _) as [[ot lg]|]; simpl in He; [|done]. by simplify_eq.
Qed.

(** The tuple at a live slot, read while its page is open. *)
Lemma GetTuple_open e s s1 p i bs buf d :
  pp_repr (pool_ e) s1 -> opened s s1 (<[s_id p := mkOpen buf d 1]> ∅) -> repr buf p -> p ∈ h_pages h ->
  s_slots p !! i = Some (Live bs) -> Inv (locks_ e) ->
  exists b' l' s2, GetTuple logging (mkRID (s_id p) (Z.of_nat i)) e =
      Ok (Some (mkTuple (mkRID (s_id p) (Z.of_nat i)) bs), mkEnv b' l' (write_set_ e)) /\ Inv l' /\
    pp_repr b' s2 /\ opened s s2 (<[s_id p := mkOpen buf d 1]> ∅).
Proof.
  intros Hb Ho Hbuf Hp Hi Hl. unfold GetTuple. cbn [page_id_].
  destruct (open_fetch_again (pool_ e) s s1 _ (s_id p) (mkOpen buf d 1) Hb Ho) as (b1 & s2 & Hf & Hb1 & Ho1);
    [by rewrite lookup_insert_eq|].
  cbn [o_buf o_dirty o_pins] in *. rewrite Hf, bind_ok. destruct (read_live _ _ _ _ _ Hbuf Hp Hi Hl) as (l' & Hrd & Hl').
  rewrite Hrd, bind_ok.
  destruct (open_unpin_one b1 s s2 _ (s_id p) buf d 2 false Hb1 Ho1) as (b2 & s3 & Hu & Hb2 & Ho2);
    [by rewrite insert_insert_eq, lookup_insert_eq|lia|].
  rewrite Hu, bind_ok. exists b2, l', s3. split; [done|]. split; [done|]. split; [done|].
  rewrite !insert_insert_eq, andb_true_r in Ho2. done.
Qed.

Lemma GetTuple_closed e s p i bs :
  pp_repr (pool_ e) s -> heap_rel s0 first s h -> 0 < room s -> p ∈ h_pages h ->
  s_slots p !! i = Some (Live bs) -> Inv (locks_ e) ->
  exists b' l', GetTuple logging (mkRID (s_id p) (Z.of_nat i)) e =
      Ok (Some (mkTuple (mkRID (s_id p) (Z.of_nat i)) bs), mkEnv b' l' (write_set_ e)) /\ Inv l' /\
    pp_repr b' s.
Proof.
  intros Hb Hr Hroom Hp Hi Hl. pose proof Hp as [j Hj]%list_elem_of_lookup.
  destruct (heap_open s0 first (pool_ e) s h j p Hb Hr Hroom Hj) as (buf & b1 & s1 & Hf & Hbuf & Hb1 & Ho & Hc).
  destruct (close_clean b1 s s1 (s_id p) buf Hb1 Ho Hc) as (b2 & Hu & Hb2).
  destruct (read_live _ _ _ _ _ Hbuf Hp Hi Hl) as (l' & Hrd & Hl').
  exists b2, l'. split; [|done]. unfold GetTuple. cbn [page_id_]. rewrite Hf, bind_ok. cbv iota beta.
  by rewrite Hrd, bind_ok, Hu, bind_ok.
Qed.

Lemma next_pages_ok ps : forall n pre p b s s1 buf,
  (length ps < n)%nat -> heap_rel s0 first s h -> h_pages h = pre ++ p :: ps -> 2 <= room s ->
  pp_repr b s1 -> opened s s1 (<[s_id p := mkOpen buf false 1]> ∅) -> repr buf p ->
  contents s !! s_id p = Some buf ->
  exists rid q bufq b' s', next_pages n buf b = Ok (rid, bufq, b') /\ pp_repr b' s' /\
    opened s s' (<[s_id q := mkOpen bufq false 1]> ∅) /\ repr bufq q /\ q ∈ h_pages h /\
    contents s !! s_id q = Some bufq /\
    match heap_tuples ps with
    | [] => rid = invalid_rid
    | t :: ts => exists pre' ps' i bs, h_pages h = pre' ++ q :: ps' /\ s_slots q !! i = Some (Live bs) /\
        rid = mkRID (s_id q) (Z.of_nat i) /\ t = mkTuple rid bs /\ ts = tuples_after i q ps'
    end.
Proof.
  induction ps as [|q ps IH]; intros [|n] pre p b s s1 buf Hn Hr Hh Hroom Hb Ho Hbuf Hc;
    [simpl in Hn; lia| |simpl in Hn; lia|]; cbn [next_pages]; rewrite (get_next _ _ Hbuf), bind_ok;
    pose proof (hr_chain _ _ _ _ Hr) as Hch; rewrite Hh in Hch.
  { rewrite (chain_last _ _ Hch), Z.eqb_refl.
    exists invalid_rid, p, buf, b, s1. repeat (split; [done|]). split; [rewrite Hh; set_solver|done]. }
  rewrite (chain_mid _ _ _ _ Hch).
  assert (Hqin : h_pages h !! S (length pre) = Some q).
  { rewrite Hh, lookup_app_r by lia. by replace (S (length pre) - length pre)%nat with 1%nat by lia. }
  destruct (hr_pages _ _ _ _ Hr q) as (bufq & Hcq & Hbufq); [by eapply list_elem_of_lookup_2|].
  assert (Hqid : is_Some (contents s !! s_id q)) by (by eexists).
  apply (ar_id _ (hr_rest _ _ _ _ Hr)) in Hqid.
  rewrite (proj2 (Z.eqb_neq _ _)) by (unfold INVALID_PAGE_ID; lia).
  assert (Hpq : s_id p <> s_id q).
  { intros Heq. pose proof (hr_nodup _ _ _ _ Hr) as Hnd. rewrite Hh, fmap_app in Hnd. simpl in Hnd.
    apply NoDup_app in Hnd as (_ & _ & Hnd). apply NoDup_cons in Hnd as [Hnd _]. rewrite Heq in Hnd.
    apply Hnd. by left. }
  destruct (open_fetch b s s1 _ (s_id q) bufq Hb Ho) as (b1 & s2 & Hf & Hb1 & Ho1);
    [by rewrite lookup_insert_ne|done|rewrite map_size_insert_None, map_size_empty by done; lia|].
  rewrite Hf, bind_ok, (get_id _ _ Hbuf), bind_ok.
  destruct (open_unpin b1 s s2 _ (s_id p) buf false false Hb1 Ho1) as (b2 & s3 & Hu & Hb2 & Ho2);
    [by rewrite lookup_insert_ne, lookup_insert_eq|by right|].
  rewrite Hu, bind_ok. cbn [deref_page from_option_r]. rewrite bind_ok.
  assert (Hsame : save_page (s_id p) buf s = s).
  { unfold save_page. rewrite insert_id by done. by destruct s. }
  rewrite Hsame in Ho2.
  assert (Hdel : delete (s_id p) (<[s_id q:=mkOpen bufq false 1]> (<[s_id p:=mkOpen buf false 1]> (∅ : gmap Z Open)))
                 = <[s_id q:=mkOpen bufq false 1]> ∅).
  { rewrite delete_insert_ne by done. by rewrite delete_insert_id. }
  rewrite Hdel in Ho2.
  pose proof (table_exec_refines (L := list RID * bool) false CFirst bufq q ([], false) Hbufq I) as Hs.
  cbn [exec_spec exec] in Hs. destruct Hs as (bx & He & _).
  destruct (GetFirstTupleRid bufq) as [r|] eqn:Egf; simpl in He; [|done]. simplify_eq. rewrite bind_ok.
  pose proof (first_live_tuples (s_id q) 0 (s_slots q)) as Hfl. rewrite drop_0 in Hfl.
  unfold heap_tuples. rewrite fmap_cons. cbn [mjoin list_join]. fold (heap_tuples ps).
  destruct (first_live 0 (s_slots q)) as [i|]; simpl.
  - destruct Hfl as (bs & Hi & Hl). unfold page_tuples at 1. rewrite Hl. simpl.
    exists (mkRID (s_id q) (Z.of_nat i)), q, bx, b2, s3. repeat (split; [done|]).
    split; [by eapply list_elem_of_lookup_2|]. split; [done|].
    exists (pre ++ [p]), ps, i, bs. split; [by rewrite Hh, <- app_assoc|]. done.
  - unfold page_tuples at 1. rewrite Hfl. simpl.
    apply (IH n (pre ++ [p]) q b2 s s3 bx); try done; [simpl in Hn; lia|by rewrite Hh, <- app_assoc].
Qed.

(** The second half of [operator++], on the page [q] where the search stopped. *)
Lemma it_next_read e s s1 q bufq rid d0 ts :
  heap_rel s0 first s h -> q ∈ h_pages h -> repr bufq q -> contents s !! s_id q = Some bufq ->
  pp_repr (pool_ e) s1 -> opened s s1 (<[s_id q := mkOpen bufq false 1]> ∅) -> Inv (locks_ e) ->
  match ts with
  | [] => rid = invalid_rid
  | t :: ts' => exists pre ps i bs, h_pages h = pre ++ q :: ps /\ s_slots q !! i = Some (Live bs) /\
      rid = mkRID (s_id q) (Z.of_nat i) /\ t = mkTuple rid bs /\ ts' = tuples_after i q ps
  end ->
  exists it b' l',
    (let* (it, e) :=
       (if negb (it_eq (mkTuple rid d0) it_end) then
          let* (t, e) := GetTuple logging rid e in Ok (default (mkTuple rid d0) t, e)
        else Ok (mkTuple rid d0, e)) in
     let* id := GetPageId bufq in
     let* b := unpin id false (pool_ e) in
     Ok (it, mkEnv b (locks_ e) (write_set_ e))) = Ok (it, mkEnv b' l' (write_set_ e)) /\ Inv l' /\
    pp_repr b' s /\ stands (h_pages h) it ts.
Proof.
  intros Hr Hq Hbuf Hc Hb Ho Hl Hts.
  destruct ts as [|t ts].
  - subst rid. replace (it_eq (mkTuple invalid_rid d0) it_end) with true by done. cbn [negb].
    rewrite bind_ok, (get_id _ _ Hbuf), bind_ok.
    destruct (close_clean _ _ _ _ _ Hb Ho Hc) as (b' & Hu & Hb'). rewrite Hu, bind_ok.
    eexists _, b', _. split; [done|]. split; [done|]. split; [done|]. by constructor.
  - destruct Hts as (pre & ps & i & bs & Hh & Hi & -> & -> & ->).
    rewrite (live_not_end s q i bs) by done. cbn [negb].
    destruct (GetTuple_open e s s1 q i bs bufq false Hb Ho Hbuf Hq Hi Hl) as (b1 & l' & s2 & Hg & Hl' & Hb1 & Ho1).
    rewrite Hg, bind_ok. cbn [default from_option]. rewrite bind_ok, (get_id _ _ Hbuf), bind_ok.
    cbn [pool_ locks_ write_set_].
    destruct (close_clean _ _ _ _ _ Hb1 Ho1 Hc) as (b' & Hu & Hb'). rewrite Hu, bind_ok.
    eexists _, b', l'. split; [done|]. split; [done|]. split; [done|]. by eapply stands_at.
Qed.

Lemma it_next_ok fuel e s it ts :
  pp_repr (pool_ e) s -> heap_rel s0 first s h -> 2 <= room s -> (length (h_pages h) < fuel)%nat ->
  Inv (locks_ e) -> stands (h_pages h) it (it :: ts) ->
  exists it' b' l', it_next logging fuel it e = Ok (it', mkEnv b' l' (write_set_ e)) /\ Inv l' /\
                 pp_repr b' s /\ stands (h_pages h) it' ts.
Proof.
  intros Hb Hr Hroom Hfuel Hl Hst. inversion Hst as [|pre p ps i bs Hh Hi Hit Hts]. clear Hst.
  assert (Hpin : h_pages h !! length pre = Some p) by (rewrite Hh; by apply list_lookup_middle).
  destruct (heap_open s0 first (pool_ e) s h (length pre) p Hb Hr) as (buf & b1 & s1 & Hf & Hbuf & Hb1 & Ho & Hc); [lia|done|].
  unfold it_next. subst it ts. cbn [rid_ page_id_]. rewrite Hf, bind_ok.
  cbn [deref_page from_option_r]. rewrite bind_ok.
  pose proof (table_exec_refines (L := list RID * bool) false (CNext (mkRID (s_id p) (Z.of_nat i)))
                buf p ([], false) Hbuf) as Hs.
  specialize (Hs ltac:(simpl; lia)). cbn [exec_spec exec] in Hs. unfold slot_of in Hs. cbn [slot_num_ page_id_] in Hs.
  rewrite Z.eqb_refl, Nat2Z.id in Hs. cbn [assert_ result_bind] in Hs. destruct Hs as (bx & He & _).
  destruct (GetNextTupleRid _ buf) as [r|]; simpl in He; [|done]. simplify_eq. rewrite bind_ok.
  pose proof (first_live_tuples (s_id p) (S i) (s_slots p)) as Hfl. unfold tuples_after.
  destruct (first_live (S i) (s_slots p)) as [j|]; simpl.
  - destruct Hfl as (bs' & Hj & Hlv). rewrite Hlv. cbn [app].
    apply (it_next_read (mkEnv b1 (locks_ e) (write_set_ e)) s s1 p bx _ _ _ Hr
             (list_elem_of_lookup_2 _ _ _ Hpin) Hbuf Hc Hb1 Ho Hl).
    exists pre, ps, j, bs'. by rewrite Hh.
  - rewrite Hfl. cbn [app].
    assert (Hlen : (length ps < fuel)%nat) by (rewrite Hh, length_app in Hfuel; simpl in Hfuel; lia).
    destruct (next_pages_ok ps fuel pre p b1 s s1 bx Hlen Hr Hh Hroom Hb1 Ho Hbuf Hc)
      as (rid & q & bufq & b2 & s2 & Hn & Hb2 & Ho2 & Hbufq & Hq & Hcq & Hts').
    rewrite Hn, bind_ok. cbv iota beta.
    by apply (it_next_read (mkEnv b2 (locks_ e) (write_set_ e)) s s2 q bufq rid _ _ Hr Hq Hbufq Hcq Hb2 Ho2 Hl).
Qed.

Lemma scan_from_ok fuel n ts : forall e s it,
  pp_repr (pool_ e) s -> heap_rel s0 first s h -> 2 <= room s -> (length (h_pages h) < fuel)%nat ->
  (length ts < n)%nat -> Inv (locks_ e) -> stands (h_pages h) it ts ->
  exists b' l', scan_from logging fuel n it e = Ok (ts, mkEnv b' l' (write_set_ e)) /\ Inv l' /\ pp_repr b' s.
Proof.
  revert n. induction ts as [|t ts IH]; intros [|n] e s it Hb Hr Hroom Hfuel Hn Hl Hst; [simpl in Hn; lia| |simpl in Hn; lia|];
    cbn [scan_from].
  - inversion Hst as [He|]. rewrite He. exists (pool_ e), (locks_ e). split; [|done]. by destruct e.
  - assert (Ht : t = it) by (by inversion Hst). subst t.
    assert (Hne : it_eq it it_end = false).
    { inversion Hst as [|pre p ps i bs Hh Hi Hit Hts]. rewrite Hit.
      apply (live_not_end s p i bs bs); [done|rewrite Hh; set_solver|done]. }
    rewrite Hne.
    destruct (it_next_ok fuel e s it ts Hb Hr Hroom Hfuel Hl Hst) as (it' & b' & l' & Hnx & Hl' & Hb' & Hst').
    rewrite Hnx, bind_ok.
    destruct (IH n (mkEnv b' l' (write_set_ e)) s it' Hb' Hr Hroom Hfuel) as (b2 & l2 & Hs2 & Hl2 & Hb2);
      [simpl in Hn; lia|done|done|].
    rewrite Hs2, bind_ok. by exists b2, l2.
Qed.

(** What [begin] reads of the first page. *)
Lemma first_rid_ok (e : Env P L) s :
  pp_repr (pool_ e) s -> heap_rel s0 first s h -> 2 <= room s ->
  exists p ps buf b1 b2, h_pages h = p :: ps /\ fetch first (pool_ e) = Ok (Some buf, b1) /\
    GetFirstTupleRid buf = Ok ((fun i => mkRID (s_id p) (Z.of_nat i)) <$> first_live 0 (s_slots p)) /\
    unpin first false b1 = Ok b2 /\ pp_repr b2 s.
Proof.
  intros Hb Hr Hroom. pose proof (hr_first _ _ _ _ Hr) as Hfirst.
  destruct (h_pages h) as [|p ps] eqn:Eh; [done|]. injection Hfirst as Hfirst.
  assert (Hp : h_pages h !! 0%nat = Some p) by (by rewrite Eh).
  destruct (heap_open s0 first (pool_ e) s h 0 p Hb Hr) as (buf & b1 & s1 & Hf & Hbuf & Hb1 & Ho & Hc); [lia|done|].
  rewrite Hfirst in Hf. pose proof (table_exec_refines (L := list RID * bool) false CFirst buf p ([], false) Hbuf I) as Hs.
  cbn [exec_spec exec] in Hs. destruct Hs as (bx & He & _).
  destruct (GetFirstTupleRid buf) as [r|] eqn:Er; simpl in He; [|done]. injection He as -> <-.
  destruct (close_clean _ _ _ _ _ Hb1 Ho Hc) as (b2 & Hu & Hb2). rewrite Hfirst in Hu.
  exists p, ps, buf, b1, b2. by rewrite Er.
Qed.

Lemma begin_ok e s :
  pp_repr (pool_ e) s -> heap_rel s0 first s h -> 2 <= room s -> Inv (locks_ e) ->
  exists it b' l', begin logging first e = Ok (it, mkEnv b' l' (write_set_ e)) /\ Inv l' /\ pp_repr b' s /\
                stands (h_pages h) it (scan_spec (h_pages h)).
Proof.
  intros Hb Hr Hroom Hinv. destruct (first_rid_ok e s Hb Hr Hroom) as (p & ps & buf & b1 & b2 & Eh & Hf & Hg & Hu & Hb2).
  assert (Hp : h_pages h !! 0%nat = Some p) by (by rewrite Eh). pose proof (list_elem_of_lookup_2 _ _ _ Hp) as Hin.
  unfold begin. rewrite Hf, bind_ok. cbn [deref_page from_option_r]. rewrite bind_ok, Hg, bind_ok, Hu, bind_ok.
  assert (Hsp : scan_spec (h_pages h) = match page_tuples p with [] => [] | _ :: _ => heap_tuples (p :: ps) end) by (by rewrite Eh).
  pose proof (first_live_tuples (s_id p) 0 (s_slots p)) as Hfl. rewrite drop_0 in Hfl.
  fold (page_tuples p) in Hfl. rewrite Hsp. destruct (first_live 0 (s_slots p)) as [i|]; simpl.
  2:{ rewrite Hfl. eexists _, b2, _. split; [done|]. split; [done|]. split; [done|]. by constructor. }
  destruct Hfl as (bs & Hi & Hl). rewrite Hl. unfold it_create. cbn [page_id_].
  destruct (hr_pages _ _ _ _ Hr p Hin) as (bf & Hbf & _).
  assert (Hpid : is_Some (contents s !! s_id p)) by (by exists bf). apply (ar_id _ (hr_rest _ _ _ _ Hr)) in Hpid.
  rewrite (proj2 (Z.eqb_neq _ _)) by (unfold INVALID_PAGE_ID; lia). cbn [negb].
  destruct (GetTuple_closed (mkEnv b2 (locks_ e) (write_set_ e)) s p i bs Hb2 Hr) as (b3 & l3 & Hgt & Hl3 & Hb3); [lia|done..|].
  rewrite Hgt, bind_ok. eexists _, b3, l3. split; [done|]. split; [done|]. split; [done|].
  assert (Hht : heap_tuples (p :: ps) = mkTuple (mkRID (s_id p) (Z.of_nat i)) bs :: tuples_after i p ps).
  { unfold heap_tuples. rewrite fmap_cons. cbn [mjoin list_join]. by rewrite Hl. }
  rewrite Hht. by apply (stands_at _ _ [] p ps i bs).
Qed.

Lemma scan_ok fuel n e s :
  pp_repr (pool_ e) s -> heap_rel s0 first s h -> 2 <= room s -> (length (h_pages h) < fuel)%nat ->
  (length (scan_spec (h_pages h)) < n)%nat -> Inv (locks_ e) ->
  exists b' l', scan logging fuel n first e = Ok (scan_spec (h_pages h), mkEnv b' l' (write_set_ e)) /\ Inv l' /\
             pp_repr b' s.
Proof.
  intros Hb Hr Hroom Hfuel Hn Hl.
  destruct (begin_ok e s Hb Hr Hroom Hl) as (it & b1 & l1 & Hbeg & Hl1 & Hb1 & Hst).
  unfold scan. rewrite Hbeg, bind_ok.
  by apply (scan_from_ok fuel n _ (mkEnv b1 l1 (write_set_ e)) s it).
Qed.
End Scan.

(** ** Properties *)



(** ** Witnesses: a heap over a pool of five frames and an empty file *)

Definition sample_pool : BufferPool.Pool := BufferPool.create 5 empty_disk.
Definition sample_store : Store := BufferPool.store_of 5 empty_disk ∅.

Lemma sample_pool_repr : pp_repr sample_pool sample_store.
Proof.
  exists ∅, []. apply create_rel; [exact empty_disk_ok|]. intros p x Hx. by rewrite lookup_empty in Hx.
Qed.

Lemma sample_at_rest : at_rest sample_store.
Proof. split; simpl; [done|intros p k; by rewrite lookup_empty|intros p; rewrite lookup_empty; by intros []]. Qed.

(** Two tuples that do not fit in one page, and the deletion of the first. *)
Definition sample_calls : list hcall :=
  [HInsert (replicate 450 7); HInsert (replicate 450 8); HInsert [9]; HMark (mkRID 0 0);
   HApply (mkRID 0 0); HGet (mkRID 1 0)].

Definition sample_start : SEnv (list RID * bool) :=
  mkSEnv (mkSHeap [mkSPage 0 INVALID_LSN INVALID_PAGE_ID []] 1) ([], false) [].

Definition sample_answers : list hanswer :=
  [HRid (Some (mkRID 0 0)); HRid (Some (mkRID 1 0)); HRid (Some (mkRID 0 1)); HBool true; HDone;
   HTuple (Some (mkTuple (mkRID 1 0) (replicate 450 8)))].

Definition sample_end (cs : list hcall) : SEnv (list RID * bool) :=
  match hrun_spec true 0 cs sample_start with Ok (_, se) => se | Fail _ => sample_start end.

Lemma sample_run_spec : hrun_spec true 0 sample_calls sample_start = Ok (sample_answers, sample_end sample_calls).
Proof. vm_compute. reflexivity. Qed.


(** The environment after a sequence of calls, and its scan. *)
Definition env_after (cs : list hcall) : Env BufferPool.Pool (list RID * bool) :=
  match create sample_pool with
  | Ok (_, b0) =>
      match hrun true 10 0 cs (mkEnv b0 ([], false) []) with
      | Ok (_, e) => e
      | Fail _ => mkEnv b0 ([], false) []
      end
  | Fail _ => mkEnv sample_pool ([], false) []
  end.

Lemma env_after_rel cs :
  hcalls_ok true 10 0 cs sample_start -> is_ok (hrun_spec true 0 cs sample_start) = true ->
  env_rel sample_store 0 (env_after cs) (sample_end cs).
Proof.
  intros Hok His.
  destruct (create_ok sample_store 0 sample_pool sample_store sample_pool_repr sample_at_rest) as (b0 & s0 & Hc & Hb0 & Hroom & Hr0);
    [by vm_compute|by vm_compute|done|done|].
  unfold env_after, sample_end. rewrite Hc.
  pose proof (heap_run_refines true sample_store 0 10 cs (mkEnv b0 ([], false) []) sample_start) as Hrun.
  destruct (hrun_spec true 0 cs sample_start) as [[a se']|]; [|done].
  destruct Hrun as (e' & -> & He'); [|done|done].
  split; simpl; [done|done|]. exists s0. split; [done|]. split; [done|].
  rewrite Hroom. by vm_compute.
Qed.

Definition three_inserts : list hcall := take 3 sample_calls.


(** The only tuple of the first page is deleted: the scan misses the tuple of the
    second page, which [GetTuple] still finds. *)
Example scan_misses_tuples :
  let e := env_after [HInsert (replicate 450 7); HInsert (replicate 450 8); HMark (mkRID 0 0);
                      HApply (mkRID 0 0)] in
  (let* (ts, e) := scan false 10 10 0 e in Ok ts) = Ok [] /\
  (let* (t, e) := GetTuple false (mkRID 1 0) e in Ok t) = Ok (Some (mkTuple (mkRID 1 0) (replicate 450 8))).
Proof. vm_compute. split; reflexivity. Qed.
End TableHeap.
