(* ===== verification/TransactionManager.v ===== *)
(** * Transactions (src/src/concurrency/transaction_manager.cpp)

    [Begin], [Commit] and [Abort] over table heaps and the lock manager.  The state of
    a transaction is its entry in [Lock.txns] and, in [TableHeap.Env], its write set.
    A lock call that would wait blocks the only thread of the model. *)

From stdpp Require Import prelude gmap list.
From Stdlib Require Import ZArith Lia.
From S2P Require Import Prelude Rid Interfaces BufferPool TablePage PagePool LockManager TableHeap.

Local Open Scope Z_scope.

Module TransactionManager.
Import Pool Rid Lock.
#[local] Existing Instance TableHeap.WType_eq_dec.

(** ** The lock manager as the transaction [l.2] sees it *)

Abbreviation Locks := (LockManager * Z)%type.

Definition my_txn (l : Locks) : Transaction := default new_txn (txns l.1 !! l.2).

Definition call_lock (k : kind) (rid : RID) (l : Locks) : result (bool * Locks) :=
  let* (o, s) := lock k l.2 rid l.1 in
  match o with
  | Returned ok => Ok (ok, (s, l.2))
  | Waits => Fail Blocked
  end.

#[export] Instance lock_env : LockEnv Locks := {
  lk_abort l := (put_txn l.2 (SetState ABORTED (my_txn l)) l.1, l.2);
  lk_in_shared rid l := bool_decide (rid ∈ shared_lock_set_ (my_txn l));
  lk_in_exclusive rid l := bool_decide (rid ∈ exclusive_lock_set_ (my_txn l));
  lk_lock_shared := call_lock KShared;
  lk_lock_exclusive := call_lock KExclusive;
  lk_lock_upgrade := call_lock KUpgrade;
  lk_unlock rid l := let* (_, s) := Unlock l.2 rid l.1 in Ok (s, l.2);
  lk_aborted l := bool_decide (state_ (my_txn l) = ABORTED)
}.

Section Transactions.
Context {P : Type} `{PagePool P} (logging : bool).

Abbreviation TEnv := (TableHeap.Env P Locks).

Definition set_locks (l : Locks) (e : TEnv) : TEnv :=
  TableHeap.mkEnv (TableHeap.pool_ e) l (TableHeap.write_set_ e).

Definition set_state (st : TransactionState) (e : TEnv) : TEnv :=
  let l := TableHeap.locks_ e in set_locks (put_txn l.2 (SetState st (my_txn l)) l.1, l.2) e.

Definition pop_back (e : TEnv) : TEnv :=
  TableHeap.mkEnv (TableHeap.pool_ e) (TableHeap.locks_ e) (removelast (TableHeap.write_set_ e)).

(** A new transaction, with the next id. *)
Definition Begin (next_txn_id : Z) (s : LockManager) : Z * LockManager * Z :=
  (next_txn_id, put_txn next_txn_id new_txn s, next_txn_id + 1).

(** [while (!write_set->empty())], the records from the last to the first. *)
Fixpoint drain (undo : TableHeap.WriteRecord -> TEnv -> result TEnv) (n : nat) (e : TEnv) : result TEnv :=
  match last (TableHeap.write_set_ e) with
  | None => Ok e
  | Some item =>
      match n with
      | O => Fail NoFuel
      | S n => let* e := undo item e in drain undo n (pop_back e)
      end
  end.

(** The rids of both lock sets, each once. *)
Definition lock_set (l : Locks) : list RID :=
  elements (shared_lock_set_ (my_txn l) ∪ exclusive_lock_set_ (my_txn l)).

Fixpoint release_all (rids : list RID) (l : Locks) : result Locks :=
  match rids with
  | [] => Ok l
  | rid :: rids => let* l := lk_unlock rid l in release_all rids l
  end.

Definition release_locks (e : TEnv) : result TEnv :=
  let* l := release_all (lock_set (TableHeap.locks_ e)) (TableHeap.locks_ e) in Ok (set_locks l e).

Definition commit_record (item : TableHeap.WriteRecord) (e : TEnv) : result TEnv :=
  match TableHeap.wtype_ item with
  | TableHeap.DELETE => TableHeap.ApplyDelete logging (TableHeap.w_rid item) e
  | _ => Ok e
  end.

Definition Commit (e : TEnv) : result TEnv :=
  let e := set_state COMMITTED e in
  let* e := drain commit_record (length (TableHeap.write_set_ e)) e in
  release_locks e.

Definition abort_record (item : TableHeap.WriteRecord) (e : TEnv) : result TEnv :=
  match TableHeap.wtype_ item with
  | TableHeap.DELETE => TableHeap.RollbackDelete logging (TableHeap.w_rid item) e
  | TableHeap.INSERT => TableHeap.ApplyDelete logging (TableHeap.w_rid item) e
  | TableHeap.UPDATE =>
      let* (_, e) := TableHeap.UpdateTuple logging (TableHeap.table_ item) (TableHeap.tuple_ item)
                                           (TableHeap.w_rid item) e in Ok e
  end.

Definition Abort (e : TEnv) : result TEnv :=
  let e := set_state ABORTED e in
  let* e := drain abort_record (length (TableHeap.write_set_ e)) e in
  release_locks e.

(** ** The locks of a commit and of an abort *)

Definition holding (rid : RID) (l : Locks) : Prop := l.2 ∈ txn_ <$> entries rid l.1.

Lemma release_all_app r1 r2 l :
  release_all (r1 ++ r2) l = let* l := release_all r1 l in release_all r2 l.
Proof.
  revert l. induction r1 as [|r r1 IH]; intros l; [done|]. cbn [app release_all].
  destruct (lk_unlock r l) as [l'|]; [|done]. rewrite !bind_ok. apply IH.
Qed.

Lemma unlock_parts rid l l' :
  lk_unlock rid l = Ok l' -> l'.2 = l.2 /\ exists b, Unlock l.2 rid l.1 = Ok (b, l'.1).
Proof.
  simpl. intros Hu. destruct (Unlock _ _ _) as [[b s]|]; [|done]. simpl in Hu. simplify_eq. by eauto.
Qed.

Lemma unlock_keeps rid l l' :
  lk_unlock rid l = Ok l' ->
  lock_set l' = lock_set l /\ (forall r, r <> rid -> holding r l' <-> holding r l) /\ holding rid l.
Proof.
  intros (Ht & b & Hu)%unlock_parts.
  destruct (Unlock_frame _ _ _ _ _ Hu) as ((ty & e & He & Het & _) & _ & Hr & x & x' & Hx & Hx' & Hs & Hxs & _).
  split; [|split].
  - unfold lock_set, my_txn. rewrite Ht, Hx', Hx. simpl. by rewrite Hs, Hxs.
  - intros r Hne. unfold holding, entries. by rewrite Ht, Hr.
  - unfold holding. rewrite <- Het. by apply list_elem_of_fmap_2.
Qed.

(** A successful sequence of releases is of distinct held records, and gives them up. *)
Lemma release_all_inv pc rids : forall l l',
  inv l.1 pc -> pc !! l.2 = None -> release_all rids l = Ok l' ->
  inv l'.1 pc /\ l'.2 = l.2 /\ NoDup rids /\ lock_set l' = lock_set l /\
  (forall r, r ∈ rids -> holding r l) /\ (forall r, holding r l' <-> holding r l /\ r ∉ rids).
Proof.
  induction rids as [|r rids IH]; intros l l' Hi Hpc Hr; cbn [release_all] in Hr.
  { simplify_eq. split; [done|]. split; [done|]. split; [constructor|]. split; [done|].
    split; [by intros ? ?%not_elem_of_nil|].
    intros r. split; [intros ?; split; [done|apply not_elem_of_nil]|by intros [? _]]. }
  destruct (lk_unlock r l) as [l1|] eqn:Hu; [|done]. rewrite bind_ok in Hr.
  pose proof (unlock_keeps _ _ _ Hu) as (Hset & Hkeep & Hheld).
  apply unlock_parts in Hu as (Ht & b & Hu).
  destruct (Unlock_inv _ _ _ _ _ _ Hi Hpc Hu) as [H1 Hgone]. rewrite <- Ht in Hpc.
  destruct (IH l1 l' H1 Hpc Hr) as (H' & Ht' & Hnd & Hset' & Hall & Hiff).
  assert (Hnot : ~ holding r l1) by (unfold holding; by rewrite Ht).
  assert (Hnin : r ∉ rids) by (intros Hin; by apply Hnot, Hall).
  split; [done|]. split; [congruence|]. split; [by constructor|]. split; [congruence|]. split.
  - intros r' [-> | Hr']%elem_of_cons; [done|]. apply Hkeep; [by intros ->|]. by apply Hall.
  - intros r'. rewrite Hiff, not_elem_of_cons. destruct (decide (r' = r)) as [->|Hne]; [tauto|].
    rewrite Hkeep by done. tauto.
Qed.

Definition deletions (ws : list TableHeap.WriteRecord) : list RID :=
  TableHeap.w_rid <$> filter (fun w => TableHeap.wtype_ w = TableHeap.DELETE) (rev ws).

Lemma apply_delete_locks rid (e e' : TEnv) :
  TableHeap.ApplyDelete logging rid e = Ok e' ->
  lk_unlock rid (TableHeap.locks_ e) = Ok (TableHeap.locks_ e') /\
  TableHeap.write_set_ e' = TableHeap.write_set_ e.
Proof.
  unfold TableHeap.ApplyDelete. intros Ha.
  destruct (fetch _ _) as [[d b]|]; [|done]. cbn [result_bind] in Ha. destruct d as [page|]; [|done].
  destruct (TablePage.ApplyDelete _ _ _ _) as [page'|]; [|done]. cbn [result_bind] in Ha.
  destruct (store _ _ _ _) as [b1|]; [|done]. cbn [result_bind] in Ha.
  destruct (lk_unlock _ _) as [l|]; [|done]. cbn [result_bind] in Ha.
  destruct (TablePage.GetPageId _) as [id|]; [|done]. cbn [result_bind] in Ha.
  destruct (unpin _ _ _) as [b2|]; [|done]. cbn [result_bind] in Ha. by simplify_eq.
Qed.

(** The locks after the loop of [Commit]: those of the deleted tuples are released. *)
Lemma drain_commit_locks n : forall e e',
  drain commit_record n e = Ok e' ->
  release_all (deletions (TableHeap.write_set_ e)) (TableHeap.locks_ e) = Ok (TableHeap.locks_ e').
Proof.
  induction n as [|n IH]; intros e e'; cbn [drain];
    destruct (TableHeap.write_set_ e) as [|w ws _] eqn:Ew using rev_ind; try (cbn; by intros [= <-]);
    rewrite last_snoc; [done|].
  unfold commit_record at 1. unfold deletions. rewrite rev_app_distr. cbn [rev app].
  rewrite filter_cons. destruct (TableHeap.wtype_ w) eqn:Ety.
  - rewrite decide_False by done. rewrite bind_ok. intros Hd. specialize (IH _ _ Hd).
    unfold pop_back in IH. cbn [TableHeap.write_set_ TableHeap.locks_] in IH.
    rewrite Ew, removelast_last in IH. exact IH.
  - rewrite decide_True by done. cbn [fmap list_fmap release_all].
    destruct (TableHeap.ApplyDelete _ _ _) as [e1|] eqn:Ea; [|done]. rewrite bind_ok.
    apply apply_delete_locks in Ea as [-> Hws]. rewrite bind_ok. intros Hd. specialize (IH _ _ Hd).
    unfold pop_back in IH. cbn [TableHeap.write_set_ TableHeap.locks_] in IH.
    rewrite Hws, Ew, removelast_last in IH. exact IH.
  - rewrite decide_False by done. rewrite bind_ok. intros Hd. specialize (IH _ _ Hd).
    unfold pop_back in IH. cbn [TableHeap.write_set_ TableHeap.locks_] in IH.
    rewrite Ew, removelast_last in IH. exact IH.
Qed.
End Transactions.

Section CommitLemmas.
Context {P : Type} `{PagePool P} (logging : bool).

Lemma set_state_parts st (e : TableHeap.Env P Locks) pc :
  inv (TableHeap.locks_ e).1 pc -> pc !! (TableHeap.locks_ e).2 = None ->
  inv (TableHeap.locks_ (set_state st e)).1 pc /\
  (TableHeap.locks_ (set_state st e)).2 = (TableHeap.locks_ e).2 /\
  lock_set (TableHeap.locks_ (set_state st e)) = lock_set (TableHeap.locks_ e) /\
  state_ (my_txn (TableHeap.locks_ (set_state st e))) = st /\
  (forall r, holding r (TableHeap.locks_ (set_state st e)) <-> holding r (TableHeap.locks_ e)).
Proof.
  intros Hi Hpc. split; [by apply inv_own_txn|]. split; [done|].
  unfold set_state, lock_set, my_txn. simpl. rewrite lookup_insert_eq. done.
Qed.

(** A running transaction has only granted entries. *)
Lemma holding_holds rid (l : Locks) pc :
  inv l.1 pc -> pc !! l.2 = None -> holding rid l -> exists ty, holds l.2 rid ty l.1.
Proof.
  intros Hi Hpc (e & Ht & He)%list_elem_of_fmap. exists (lock_type_ e), e.
  split; [done|]. split; [done|]. split; [|done].
  destruct (inv_list _ _ Hi rid) as (G & W & Hok).
  pose proof (lo_split _ _ _ Hok) as Hl. unfold entries in He. rewrite Hl in He.
  apply elem_of_app in He as [He|He].
  - by pose proof (proj1 (Forall_forall _ _) (lo_holders _ _ _ Hok) _ He) as (? & _).
  - exfalso. pose proof (proj1 (Forall_forall _ _) (lo_waiters _ _ _ Hok) _ He) as (_ & Hp & _).
    apply (idle_no_wait _ _ _ (lock_type_ e) rid Hi Hpc). apply elem_of_waiting. exists e.
    unfold entries. rewrite Hl, Hp. repeat split; [apply elem_of_app; by right|done|done].
Qed.

Lemma release_all_ok pc rids : forall l x,
  inv l.1 pc -> pc !! l.2 = None -> txns l.1 !! l.2 = Some x -> state_ x = COMMITTED -> NoDup rids ->
  (forall r, r ∈ rids -> holding r l) ->
  exists l' x', release_all rids l = Ok l' /\ txns l'.1 !! l'.2 = Some x' /\ state_ x' = COMMITTED.
Proof.
  induction rids as [|r rids IH]; intros l x Hi Hpc Hx Hst Hnd Hh; [by exists l, x|].
  apply NoDup_cons in Hnd as [Hr Hnd]. cbn [release_all].
  destruct (holding_holds r l pc Hi Hpc) as [ty Hty]; [apply Hh; by left|].
  destruct (Unlock_ok _ r ty _ pc x Hi Hpc Hty Hx) as (s' & Hu & Hi' & _); [right; by rewrite Hst|].
  destruct (Unlock_frame _ _ _ _ _ Hu) as (_ & _ & _ & y & y' & Hy & Hy' & _ & _ & Hsame & _).
  assert (Hlk : lk_unlock r l = Ok (s', l.2)) by (simpl; by rewrite Hu).
  rewrite Hlk, bind_ok. apply (IH _ y'); try done.
  - assert (y = x) as -> by congruence. rewrite Hsame; [done|by rewrite Hst].
  - intros r' Hr'. destruct (unlock_keeps _ _ _ Hlk) as (_ & Hk & _). apply Hk; [by intros ->|].
    apply Hh. by right.
Qed.

(** A strict manager, an aborted transaction and a lock to release. *)
Definition stuck (l : Locks) : Prop :=
  strict_2PL_ l.1 = true /\
  exists x rid, txns l.1 !! l.2 = Some x /\ state_ x = ABORTED /\
                rid ∈ shared_lock_set_ x ∪ exclusive_lock_set_ x.

Lemma stuck_unlock rid l : stuck l -> lk_unlock rid l = Fail AssertFail.
Proof.
  intros (Hs & x & r & Hx & Ha & _). simpl. unfold Unlock, get_txn. rewrite Hx. simpl.
  by rewrite Hs, Ha.
Qed.

Lemma stuck_release l : stuck l -> release_all (lock_set l) l = Fail AssertFail.
Proof.
  intros Hst. pose proof Hst as (_ & x & r & Hx & _ & Hr).
  destruct (lock_set l) as [|r' rs] eqn:E.
  - exfalso. unfold lock_set, my_txn in E. rewrite Hx in E. simpl in E.
    apply elements_empty_inv in E. set_solver.
  - cbn [release_all]. by rewrite (stuck_unlock r' l Hst).
Qed.

Lemma stuck_call k rid l b l' : stuck l -> call_lock k rid l = Ok (b, l') -> stuck l'.
Proof.
  intros (Hs & x & r & Hx & Ha & Hr) Hc. unfold call_lock in Hc.
  destruct (lock k l.2 rid l.1) as [[o s]|] eqn:Hl; [|done]. simpl in Hc.
  destruct o as [ok|]; [|done]. simplify_eq. split; [by erewrite lock_strict|]. simpl.
  destruct k; simpl in Hl; unfold LockShared, LockExclusive, LockUpgrade, get_txn in Hl; rewrite Hx in Hl;
    simpl in Hl; rewrite Ha in Hl; simpl in Hl; [simplify_eq; by exists x, r|simplify_eq; by exists x, r|].
  destruct (lock_table_ l.1 !! rid) as [ll|]; [|done]. destruct (lock_list_ ll) as [|head rest]; [done|].
  destruct (_ && _).
  - destruct (assert_ _); [|done]. simpl in Hl. simplify_eq. simpl. rewrite lookup_insert_eq.
    exists (add_exclusive rid (drop_shared rid x)), (if decide (r = rid) then rid else r).
    split; [done|]. split; [done|]. simpl. case_decide; set_solver.
  - unfold wait_or_die in Hl. destruct (CheckForWaitDie _ _ _) as [[]|]; [done| |done]. simpl in Hl.
    simplify_eq. simpl. rewrite lookup_insert_eq. by exists (SetState ABORTED x), r.
Qed.

Lemma stuck_abort l : stuck l -> stuck (lk_abort l).
Proof.
  intros (Hs & x & r & Hx & Ha & Hr). split; [done|]. simpl. rewrite lookup_insert_eq.
  exists (SetState ABORTED x), r. unfold my_txn. rewrite Hx. done.
Qed.

Lemma stuck_update t rid page l r :
  stuck l -> TablePage.UpdateTuple logging t rid page l = Ok r -> stuck r.2.
Proof.
  intros Hst. unfold TablePage.UpdateTuple.
  assert (Hacq : forall b, TablePage.acquire_exclusive logging rid l = Ok b -> stuck b.2).
  { intros [b l']. unfold TablePage.acquire_exclusive. destruct (negb logging); [by intros [= <- <-]|].
    destruct (lk_in_shared rid l); [by apply stuck_call|].
    destruct (lk_in_exclusive rid l); [by intros [= <- <-]|by apply stuck_call]. }
  assert (Hab : stuck (TablePage.abort logging l)).
  { unfold TablePage.abort. destruct logging; [by apply stuck_abort|done]. }
  intros Hu. repeat first [done | case_match | progress simplify_eq/= | progress inv_bind]; by eapply Hacq.
Qed.

(** The loop of [Abort] cannot free a stuck transaction. *)
Lemma stuck_record item e e' :
  stuck (TableHeap.locks_ e) -> abort_record logging item e = Ok e' -> stuck (TableHeap.locks_ e').
Proof.
  intros Hst. unfold abort_record. destruct (TableHeap.wtype_ item).
  - intros (Hu & _)%apply_delete_locks. by rewrite (stuck_unlock _ _ Hst) in Hu.
  - unfold TableHeap.RollbackDelete. intros Hr.
    repeat first [done | case_match | progress simplify_eq/= | progress inv_bind].
  - unfold TableHeap.UpdateTuple. intros Hr.
    destruct (fetch _ _) as [[[page|] b]|]; simpl in Hr; [| |done].
    + destruct (TablePage.UpdateTuple _ _ _ _ _) as [[[[ok old] page'] l]|] eqn:Eu; [|done].
      pose proof (stuck_update _ _ _ _ _ Hst Eu) as Hl. simpl in *.
      repeat first [done | case_match | progress simplify_eq/= | progress inv_bind].
    + simplify_eq. simpl. by apply stuck_abort.
Qed.

Lemma stuck_drain n : forall e e',
  stuck (TableHeap.locks_ e) -> drain (abort_record logging) n e = Ok e' -> stuck (TableHeap.locks_ e').
Proof.
  induction n as [|n IH]; intros e e' Hst; cbn [drain]; destruct (last _) as [w|]; [done|by intros [= <-]| |by intros [= <-]].
  destruct (abort_record logging w e) as [e1|] eqn:Ea; [|done]. rewrite bind_ok.
  apply (stuck_record _ _ _ Hst) in Ea. by apply (IH (pop_back e1)).
Qed.
End CommitLemmas.

(** ** Properties *)

Section Properties.
Context {P : Type} `{PagePool P} (logging : bool).


(** The commit of a transaction that deleted a tuple fails an assertion, with
    logging or without, whatever the pool does: [ApplyDelete] releases the lock of the
    tuple, if the transaction holds one, and the release of the lock sets asks for it
    a second time. *)
Theorem commit_of_delete_faults (strict : bool) (e : TableHeap.Env P Locks) (pc : Blocks)
    (w : TableHeap.WriteRecord)
    (Hreach : reachable strict ((TableHeap.locks_ e).1, pc)) (Hidle : pc !! (TableHeap.locks_ e).2 = None)
    (Hsets : forall rid, holding rid (TableHeap.locks_ e) -> rid ∈ lock_set (TableHeap.locks_ e))
    (Hw : w ∈ TableHeap.write_set_ e) (Hdel : TableHeap.wtype_ w = TableHeap.DELETE) :
  is_ok (Commit logging e) = false.
Proof.
  apply inv_reachable in Hreach as [Hi _].
  destruct (set_state_parts COMMITTED e pc Hi Hidle) as (Hi1 & Ht1 & Hset1 & _ & Hh1).
  unfold Commit. change (TableHeap.write_set_ (set_state COMMITTED e)) with (TableHeap.write_set_ e).
  set (e1 := set_state COMMITTED e) in *.
  destruct (drain _ _ e1) as [e2|] eqn:Ed; [|done]. rewrite bind_ok.
  unfold release_locks. destruct (release_all _ _) as [l'|] eqn:Er; [exfalso|done].
  apply drain_commit_locks in Ed. change (TableHeap.write_set_ e1) with (TableHeap.write_set_ e) in Ed.
  rewrite <- Ht1 in Hidle.
  destruct (release_all_inv pc _ _ _ Hi1 Hidle Ed) as (Hi2 & Ht2 & _ & Hset2 & Hheld & Hiff).
  assert (Hin : TableHeap.w_rid w ∈ deletions (TableHeap.write_set_ e)).
  { unfold deletions. apply list_elem_of_fmap_2, list_elem_of_filter. split; [done|].
    rewrite list_elem_of_In, <- in_rev, <- list_elem_of_In. done. }
  rewrite <- Ht2 in Hidle.
  destruct (release_all_inv pc _ _ _ Hi2 Hidle Er) as (_ & _ & _ & _ & Hheld2 & _).
  assert (Hset : TableHeap.w_rid w ∈ lock_set (TableHeap.locks_ e2)).
  { rewrite Hset2, Hset1. by apply Hsets, Hh1, Hheld. }
  by apply Hheld2, Hiff in Hset as [_ ?].
Qed.

(** Under strict two-phase locking no transaction that holds a lock can abort: the
    assertion of [Unlock] on the state of the transaction refuses an aborted one. *)
Theorem strict_abort_faults (e : TableHeap.Env P Locks) (x : Transaction) (rid : RID)
    (Hstrict : strict_2PL_ (TableHeap.locks_ e).1 = true)
    (Hx : txns (TableHeap.locks_ e).1 !! (TableHeap.locks_ e).2 = Some x)
    (Hrid : rid ∈ shared_lock_set_ x ∪ exclusive_lock_set_ x) :
  is_ok (Abort logging e) = false.
Proof.
  unfold Abort. set (e1 := set_state ABORTED e).
  assert (Hst : stuck (TableHeap.locks_ e1)).
  { split; [done|]. exists (SetState ABORTED x), rid. simpl. unfold my_txn. rewrite Hx.
    by rewrite lookup_insert_eq. }
  destruct (drain _ _ _) as [e2|] eqn:Ed; [|done]. rewrite bind_ok.
  apply (stuck_drain _ _ _ _ Hst) in Ed. unfold release_locks. by rewrite (stuck_release _ Ed).
Qed.
End Properties.

(** ** Witnesses: transaction 2 reads a record that transaction 1 waits to write *)

Definition sample_env (ws : list TableHeap.WriteRecord) : TableHeap.Env BufferPool.Pool Locks :=
  TableHeap.mkEnv TableHeap.sample_pool (sample2, 2) ws.

Lemma sample_lock_set : lock_set (sample2, 2) = [r0].
Proof. vm_compute. reflexivity. Qed.

Lemma sample_held rid : holding rid (sample2, 2) <-> rid = r0.
Proof.
  unfold holding. split; [|by intros ->; by_computation]. unfold entries, find_list. cbn [fst snd].
  intros Hin. destruct (lock_table_ sample2 !! rid) as [ll|] eqn:E; [|by apply not_elem_of_nil in Hin].
  assert (Hall : map_Forall (fun r _ => r = r0) (lock_table_ sample2)) by by_computation.
  by apply (Hall rid ll E).
Qed.

(** What the theorems suppose of the locks of transaction 2. *)
Lemma sample_sets rid : rid ∈ lock_set (sample2, 2) <-> holding rid (sample2, 2).
Proof. by rewrite sample_lock_set, list_elem_of_singleton, sample_held. Qed.


Lemma commit_of_delete_faults_witness :
  is_ok (Commit true (sample_env [TableHeap.mkWrite r0 TableHeap.DELETE TableHeap.empty_tuple 0])) = false.
Proof.
  apply (commit_of_delete_faults true false _ sample_pc
           (TableHeap.mkWrite r0 TableHeap.DELETE TableHeap.empty_tuple 0)).
  - exact sample_reachable.
  - reflexivity.
  - intros rid. exact (proj2 (sample_sets rid)).
  - left.
  - reflexivity.
Defined.

(** Transaction 5 of a strict manager holds a shared lock. *)
Definition strict_locks : LockManager :=
  state_of (LockShared 5 r0 (put_txn 5 new_txn (create true))).

Lemma strict_abort_faults_witness :
  is_ok (Abort true (TableHeap.mkEnv TableHeap.sample_pool (strict_locks, 5) [])) = false.
Proof.
  apply (strict_abort_faults true _ (mkTxn GROWING {[r0]} ∅) r0).
  - reflexivity.
  - reflexivity.
  - by_computation.
Defined.
End TransactionManager.
