(* ===== verification/TableRows.v ===== *)
(** * A table heap as a map of rows

    The table heap of TableHeap.v has the contract [HeapLaws] that the virtual table relies
    on: for the only running transaction it is a map from record ids to rows, on top of any
    buffer pool and of any lock manager that grants that transaction its locks. *)

From stdpp Require Import prelude gmap list.
From Stdlib Require Import ZArith Lia.
From S2P Require Import Prelude Rid Interfaces DiskManager BufferPool TablePage PagePool TableHeap.

Local Open Scope Z_scope.

Module TableRows.
Import Disk Pool Rid TablePage TableHeap.

(** ** Slots of a list of pages *)

(** The record [rid] is the slot [s] of one of the pages. *)
Definition has_slot (ps : list SPage) (rid : RID) (s : Slot) : Prop :=
  exists p, p ∈ ps /\ s_id p = page_id_ rid /\ 0 <= slot_num_ rid /\ s_slots p !! slot_of rid = Some s.

(** The rows of the pages: the live slots. *)
Definition rows_are (ps : list SPage) (m : gmap RID (list Z)) : Prop :=
  forall rid t, m !! rid = Some t <-> has_slot ps rid (Live t).

Definition one_row (m : gmap RID (list Z)) (rid : RID) (s : Slot) : gmap RID (list Z) :=
  match s with Live t => <[rid := t]> m | _ => delete rid m end.

Lemma id_unique (ps : list SPage) p q : NoDup (s_id <$> ps) -> p ∈ ps -> q ∈ ps -> s_id p = s_id q -> p = q.
Proof.
  intros Hnd (i & Hi)%list_elem_of_lookup (j & Hj)%list_elem_of_lookup E.
  assert (i = j) as -> by (eapply NoDup_lookup; [exact Hnd|by rewrite list_lookup_fmap, Hi|by rewrite list_lookup_fmap, Hj, E]).
  congruence.
Qed.

Lemma has_slot_fun ps rid s1 s2 : NoDup (s_id <$> ps) -> has_slot ps rid s1 -> has_slot ps rid s2 -> s1 = s2.
Proof.
  intros Hnd (p & Hp & Ep & _ & Hs1) (q & Hq & Eq & _ & Hs2).
  assert (p = q) as -> by (apply (id_unique ps); congruence). congruence.
Qed.

Lemma rid_slot rid k : 0 <= slot_num_ rid -> slot_of rid = k -> rid = mkRID (page_id_ rid) (Z.of_nat k).
Proof. unfold slot_of. destruct rid as [p n]; simpl. intros H <-. f_equal. lia. Qed.

(** A page whose slot [k] alone changes. *)
Lemma has_slot_update pre p p' post k s0 rid s :
  NoDup (s_id <$> pre ++ p :: post) -> s_id p' = s_id p ->
  (forall j, s_slots p' !! j = if decide (j = k) then Some s0 else s_slots p !! j) ->
  has_slot (pre ++ p' :: post) rid s <->
  if decide (rid = mkRID (s_id p) (Z.of_nat k)) then s = s0 else has_slot (pre ++ p :: post) rid s.
Proof.
  intros Hnd Hid Hk. set (r0 := mkRID (s_id p) (Z.of_nat k)).
  assert (Hother : forall q, q ∈ pre ++ post -> s_id q <> s_id p).
  { intros q Hq E. rewrite fmap_app, fmap_cons in Hnd. apply NoDup_app in Hnd as (_ & H1 & [H2 _]%NoDup_cons).
    apply elem_of_app in Hq as [Hq|Hq]; apply (list_elem_of_fmap_2 s_id) in Hq; rewrite E in Hq; [|done].
    by apply (H1 _ Hq), list_elem_of_here. }
  assert (Hin : forall (x q : SPage), q ∈ pre ++ x :: post <-> q = x \/ q ∈ pre ++ post) by (intros; set_solver).
  unfold has_slot. setoid_rewrite Hin. split.
  - intros (q & [->|Hq] & Eq & H0 & Hs).
    + rewrite Hk in Hs. case_decide as Ek; [simplify_eq|].
      * rewrite decide_True; [done|]. unfold r0. rewrite <- Hid, Eq. by apply rid_slot.
      * rewrite decide_False; [exists p; split; [apply Hin; by left|]; split; [congruence|done]|].
        intros ->. apply Ek. unfold slot_of, r0. simpl. lia.
    + rewrite decide_False; [exists q; split; [apply Hin; by right|done]|]. intros ->. by apply (Hother q Hq).
  - case_decide as Er.
    + intros ->. exists p'. split; [by left|]. rewrite Er. simpl. split; [done|]. split; [lia|].
      rewrite Hk. unfold slot_of, r0. simpl. by rewrite Nat2Z.id, decide_True.
    + intros (q & [->|Hq]%Hin & Eq & H0 & Hs); [|exists q; split; [by right|done]].
      exists p'. split; [by left|]. split; [congruence|]. split; [done|]. rewrite Hk, decide_False; [done|].
      intros Ek. apply Er. unfold r0. rewrite Eq. by apply rid_slot.
Qed.

Lemma rows_update pre p p' post k s0 m :
  NoDup (s_id <$> pre ++ p :: post) -> s_id p' = s_id p ->
  (forall j, s_slots p' !! j = if decide (j = k) then Some s0 else s_slots p !! j) ->
  rows_are (pre ++ p :: post) m -> rows_are (pre ++ p' :: post) (one_row m (mkRID (s_id p) (Z.of_nat k)) s0).
Proof.
  intros Hnd Hid Hk Hm rid t. rewrite (has_slot_update _ _ _ _ _ _ _ _ Hnd Hid Hk). unfold one_row.
  case_decide as E.
  - subst rid. destruct s0; rewrite ?lookup_insert_eq, ?lookup_delete_eq; split; congruence.
  - destruct s0; rewrite ?lookup_insert_ne, ?lookup_delete_ne by done; apply Hm.
Qed.

(** A new page at the end, with no slot. *)
Lemma has_slot_extend pre p q id rid s : s_slots q = [] ->
  has_slot (pre ++ [set_next id p; q]) rid s <-> has_slot (pre ++ [p]) rid s.
Proof.
  intros Hq. split.
  - intros (x & Hx & E & H0 & Hs). apply elem_of_app in Hx as [Hx|Hx]; [exists x; set_solver|].
    apply elem_of_cons in Hx as [->| ->%list_elem_of_singleton]; [exists p; split; [set_solver|done]|].
    by rewrite Hq in Hs.
  - intros (x & Hx & E & H0 & Hs). apply elem_of_app in Hx as [Hx| ->%list_elem_of_singleton].
    + exists x. split; [set_solver|done].
    + exists (set_next id p). split; [set_solver|done].
Qed.

(** The page of a record, as the calls find it. *)
Lemma has_slot_page h rid s : NoDup (s_id <$> h_pages h) -> has_slot (h_pages h) rid s ->
  exists pre p post, h_pages h = pre ++ p :: post /\ page_index (page_id_ rid) h = Some (length pre) /\
    s_id p = page_id_ rid /\ 0 <= slot_num_ rid /\ s_slots p !! slot_of rid = Some s.
Proof.
  intros Hnd (p & Hp & E & H0 & Hs). unfold page_index.
  destruct (list_find (fun q => s_id q = page_id_ rid) (h_pages h)) as [[i q]|] eqn:Ef.
  2:{ apply list_find_None in Ef. rewrite Forall_forall in Ef. by specialize (Ef p Hp). }
  apply list_find_Some in Ef as (Hi & Hq & _).
  assert (q = p) as -> by (apply (id_unique (h_pages h)); [done|by eapply list_elem_of_lookup_2|done|congruence]).
  exists (take i (h_pages h)), p, (drop (S i) (h_pages h)). split; [by rewrite take_drop_middle|].
  split; [|done]. simpl. rewrite length_take. apply lookup_lt_Some in Hi. f_equal. lia.
Qed.

(** ** The rows of a scan *)

Definition row_of (t : Tuple) : RID * list Z := (rid_ t, data_ t).

Lemma has_slot_live ps p i s : p ∈ ps -> s_slots p !! i = Some s -> has_slot ps (mkRID (s_id p) (Z.of_nat i)) s.
Proof. intros Hp Hi. exists p. split; [done|]. split; [done|]. split; [simpl; lia|]. unfold slot_of. simpl. by rewrite Nat2Z.id. Qed.

Lemma elem_of_live_tuples id ss : forall k t,
  t ∈ live_tuples id k ss <-> exists i bs, ss !! i = Some (Live bs) /\ t = mkTuple (mkRID id (Z.of_nat (k + i))) bs.
Proof.
  induction ss as [|x ss IH]; intros k t; cbn [live_tuples].
  - split; [by intros ?%not_elem_of_nil|by intros (i & bs & ? & _)].
  - assert (Hrest : t ∈ live_tuples id (S k) ss <->
      exists i bs, (x :: ss) !! S i = Some (Live bs) /\ t = mkTuple (mkRID id (Z.of_nat (k + S i))) bs).
    { rewrite IH. by setoid_rewrite Nat.add_succ_r. }
    split.
    + destruct x as [|b|b]; [|intros [->|Hin]%elem_of_cons|]; [intros Hin|exists 0%nat, b; by rewrite Nat.add_0_r| |intros Hin];
        apply Hrest in Hin as (i & bs & ? & ?); by exists (S i), bs.
    + intros ([|i] & bs & Hi & Ht).
      * simpl in Hi. injection Hi as ->. rewrite Nat.add_0_r in Ht. subst t. by left.
      * assert (Hin : t ∈ live_tuples id (S k) ss) by (apply Hrest; by exists i, bs). destruct x; [done|by right|done].
Qed.

Lemma elem_of_heap_tuples ps t :
  t ∈ heap_tuples ps <-> exists p i bs, p ∈ ps /\ s_slots p !! i = Some (Live bs) /\ t = mkTuple (mkRID (s_id p) (Z.of_nat i)) bs.
Proof.
  unfold heap_tuples. rewrite list_elem_of_join. split.
  - intros (l & Ht & (p & -> & Hp)%list_elem_of_fmap). apply elem_of_live_tuples in Ht as (i & bs & Hi & ->). by exists p, i, bs.
  - intros (p & i & bs & Hp & Hi & ->). exists (page_tuples p). split; [|by apply list_elem_of_fmap_2].
    apply elem_of_live_tuples. by exists i, bs.
Qed.

Lemma elem_of_rows ps m rid t : rows_are ps m -> (rid, t) ∈ row_of <$> heap_tuples ps <-> m !! rid = Some t.
Proof.
  intros Hm. rewrite (Hm rid t), list_elem_of_fmap. setoid_rewrite elem_of_heap_tuples. split.
  - intros (x & [= -> ->] & p & i & bs & Hp & Hi & ->). by apply has_slot_live.
  - intros (p & Hp & Hid & Hpos & Hi). exists (mkTuple rid t). split; [done|]. exists p, (slot_of rid), t.
    split; [done|]. split; [done|]. f_equal. rewrite Hid. by apply rid_slot.
Qed.

Lemma NoDup_live_tuples id ss : forall k, NoDup (live_tuples id k ss).
Proof.
  induction ss as [|x ss IH]; intros k; cbn [live_tuples]; [constructor|]. destruct x as [|bs|bs]; try apply IH.
  apply NoDup_cons. split; [|apply IH]. intros (i & b & _ & [= E _])%elem_of_live_tuples. lia.
Qed.

Lemma NoDup_heap_tuples ps : NoDup (s_id <$> ps) -> NoDup (row_of <$> heap_tuples ps).
Proof.
  intros Hnd. apply NoDup_fmap_2; [intros [] [] [= -> ->]; done|]. induction ps as [|p ps IH]; [constructor|].
  cbn [fmap list_fmap] in Hnd. apply NoDup_cons in Hnd as [Hp Hnd].
  change (heap_tuples (p :: ps)) with (page_tuples p ++ heap_tuples ps). apply NoDup_app.
  split; [apply NoDup_live_tuples|]. split; [|by apply IH].
  intros t (i & bs & _ & ->)%elem_of_live_tuples (q & j & b & Hq & _ & [= E _ _])%elem_of_heap_tuples.
  apply Hp. rewrite E. by apply list_elem_of_fmap_2.
Qed.

Lemma scan_spec_scanned first ps m : NoDup (s_id <$> ps) -> s_id <$> head ps = Some first -> rows_are ps m ->
  scanned first m (row_of <$> scan_spec ps).
Proof.
  intros Hnd Hfirst Hm. destruct ps as [|p ps]; [done|]. simpl in Hfirst. injection Hfirst as Hid. unfold scan_spec.
  assert (Hseen : (exists rid t, m !! rid = Some t /\ page_id_ rid = first) <-> page_tuples p <> []).
  { split.
    - intros (rid & t & Ht & Ep) Hnil. apply Hm in Ht as (q & Hq & Eq & Hpos & Hi).
      assert (q = p) as -> by (apply (id_unique (p :: ps)); [done|done|by left|congruence]).
      assert (Hin : mkTuple (mkRID (s_id p) (Z.of_nat (0 + slot_of rid))) t ∈ page_tuples p) by (apply elem_of_live_tuples; by exists (slot_of rid), t).
      rewrite Hnil in Hin. by apply not_elem_of_nil in Hin.
    - destruct (page_tuples p) as [|x l] eqn:El; [done|]. intros _.
      assert (Hx : x ∈ page_tuples p) by (rewrite El; by left). apply elem_of_live_tuples in Hx as (i & bs & Hi & ->).
      exists (mkRID (s_id p) (Z.of_nat i)), bs. split; [|done]. apply Hm, has_slot_live; [by left|done]. }
  split; intros Hs; rewrite Hseen in Hs.
  - destruct (page_tuples p) as [|x l]; [done|]. clear Hs.
    apply NoDup_Permutation; [by apply NoDup_heap_tuples|apply NoDup_map_to_list|].
    intros [rid t]. by rewrite elem_of_map_to_list, (elem_of_rows _ m).
  - destruct (page_tuples p) as [|x l]; [done|]. by destruct Hs.
Qed.

(** ** The locks of the calls *)

Section Rows.
Context {P L : Type} `{PagePoolLaws P} `{LockGrants L} (logging : bool) (fuel : nat) (first : Z).
Implicit Types (h : SHeap) (l : L) (X : gset RID) (m : gmap RID (list Z)).

(** With logging on, the transaction holds the locks on the records [X]. *)
Definition locked l X : Prop := logging = true -> lg_holds l X.

Lemma acquire_exclusive_ok rid l X : locked l X ->
  exists l', acquire_exclusive logging rid l = Ok (true, l') /\ locked l' ({[rid]} ∪ X).
Proof.
  intros Hl. unfold acquire_exclusive, locked in *. destruct logging; cbn [negb]; [|by exists l].
  specialize (Hl eq_refl). pose proof (lg_sets l X rid Hl) as Hset.
  destruct (decide (rid ∈ X)) as [Hin|Hin].
  - rewrite bool_decide_eq_true_2 in Hset by done. replace ({[rid]} ∪ X) with X by set_solver.
    destruct (lk_in_shared rid l) eqn:Es.
    + destruct (lg_upgrade l X rid Hl Es) as (l' & -> & Hl'). by exists l'.
    + cbn [orb] in Hset. rewrite Hset. by exists l.
  - rewrite bool_decide_eq_false_2 in Hset by done. apply orb_false_iff in Hset as [-> ->].
    destruct (lg_exclusive l X rid Hl Hin) as (l' & -> & Hl'). by exists l'.
Qed.

Lemma acquire_shared_ok rid l X : locked l X ->
  exists l', acquire_shared logging rid l = Ok (true, l') /\ locked l' ({[rid]} ∪ X).
Proof.
  intros Hl. unfold acquire_shared, locked in *. destruct logging; cbn [negb]; [|by exists l].
  specialize (Hl eq_refl). pose proof (lg_sets l X rid Hl) as Hset. rewrite orb_comm, Hset.
  case_bool_decide as Hin.
  - replace ({[rid]} ∪ X) with X by set_solver. by exists l.
  - destruct (lg_shared l X rid Hl Hin) as (l' & -> & Hl'). by exists l'.
Qed.

(** ** Insertion *)

(** A slot that an insertion may take: free, or the first after the last. *)
Definition free_slot_at (p : SPage) (k : nat) : Prop :=
  match s_slots p !! k with Some s => s = Free | None => True end.

(** A row that fits a page. *)
Definition row_ok (t : list Z) : Prop := 0 < Z.of_nat (length t) <= PAGE_SIZE - 32.

(** An insertion takes a free slot of the page, unless the page is too full. *)
Lemma insert_page_ok t p l X : row_ok t -> locked l X ->
  (forall k, free_slot_at p k -> mkRID (s_id p) (Z.of_nat k) ∉ X) ->
  insert_spec logging t p l = Ok (ARid None, p, l) \/
  exists k p' l', insert_spec logging t p l = Ok (ARid (Some (mkRID (s_id p) (Z.of_nat k))), p', l') /\
    free_slot_at p k /\ s_id p' = s_id p /\ (forall j, s_slots p' !! j = if decide (j = k) then Some (Live t) else s_slots p !! j) /\
    locked l' ({[mkRID (s_id p) (Z.of_nat k)]} ∪ X).
Proof.
  intros Ht Hl HX. unfold insert_spec. unfold row_ok in Ht. rewrite assert_ok by (apply Z.ltb_lt; lia).
  destruct (free_size (s_slots p) <? _); [by left|]. set (k := first_free (s_slots p)).
  pose proof (first_free_le (s_slots p)) as Hle. fold k in Hle.
  assert (Hk : free_slot_at p k).
  { unfold free_slot_at. destruct (s_slots p !! k) eqn:E; [by apply (first_free_slot (s_slots p))|done]. }
  specialize (HX k Hk). set (rid := mkRID _ _) in *.
  rewrite assert_ok.
  2:{ unfold locked in Hl. destruct logging; [|done]. specialize (Hl eq_refl). rewrite (lg_sets l X rid Hl).
      rewrite bool_decide_eq_false_2 by done. apply orb_true_r. }
  destruct ((k =? length (s_slots p))%nat && _) eqn:E1; [by left|]. right. clear E1.
  assert (Hslots : forall j, (if (k =? length (s_slots p))%nat then s_slots p ++ [Live t] else <[k := Live t]> (s_slots p)) !! j =
    if decide (j = k) then Some (Live t) else s_slots p !! j).
  { intros j. destruct (Nat.eqb_spec k (length (s_slots p))) as [E|E].
    - rewrite E. case_decide as Ej; [subst j; by rewrite lookup_app_r, Nat.sub_diag by lia|].
      destruct (decide (j < length (s_slots p))%nat); [by rewrite lookup_app_l|].
      rewrite lookup_app_r, (lookup_ge_None_2 (s_slots p)) by lia. apply lookup_ge_None_2. simpl. lia.
    - case_decide as Ej; [subst j; apply list_lookup_insert_eq; lia|by apply list_lookup_insert_ne]. }
  destruct logging eqn:El.
  - destruct (lg_exclusive l X rid (Hl El) HX) as (l' & Hlk & Hl'). rewrite Hlk. cbn [result_bind fst snd]. rewrite assert_true.
    eexists k, _, l'. split; [done|]. split; [done|]. split; [done|]. split; [exact Hslots|]. by intros _.
  - eexists k, _, l. split; [done|]. split; [done|]. split; [done|]. split; [exact Hslots|]. unfold locked. by rewrite El.
Qed.

(** An empty page has room. *)
Lemma insert_new_page t id prev l X : row_ok t -> locked l X -> (forall n, mkRID id n ∉ X) ->
  exists p' l', insert_spec logging t (mkSPage id prev INVALID_PAGE_ID []) l = Ok (ARid (Some (mkRID id 0)), p', l') /\
    s_id p' = id /\ s_slots p' = [Live t] /\ locked l' ({[mkRID id 0]} ∪ X).
Proof.
  intros Ht Hl HX. unfold insert_spec, row_ok in *. cbn [s_slots s_id s_prev s_next].
  change (free_size []) with 488. change (first_free []) with 0%nat. change (length (A := Slot) []) with 0%nat.
  change PAGE_SIZE with 512 in Ht. rewrite assert_ok by (apply Z.ltb_lt; lia).
  rewrite (proj2 (Z.ltb_ge _ _)) by lia. cbn [Nat.eqb negb]. rewrite andb_false_r. cbn [negb orb]. rewrite assert_true.
  cbn [andb]. rewrite (proj2 (Z.ltb_ge _ _)) by lia. cbn [app]. change (Z.of_nat 0) with 0. unfold locked in *. destruct logging.
  - destruct (lg_exclusive l X (mkRID id 0) (Hl eq_refl) (HX 0)) as (l' & Hlk & Hl'). rewrite Hlk. cbn [result_bind fst snd].
    rewrite assert_true. eexists _, l'. split; [done|]. split; [done|]. split; [done|]. by intros _.
  - by eexists _, l.
Qed.

(** The pages after an insertion: one of them has a new row, or a new page has it. *)
Inductive inserted (t : list Z) (next : Z) (ps : list SPage) : RID -> list SPage -> Z -> Prop :=
| inserted_in pre p p' post k :
    ps = pre ++ p :: post -> free_slot_at p k -> s_id p' = s_id p ->
    (forall j, s_slots p' !! j = if decide (j = k) then Some (Live t) else s_slots p !! j) ->
    inserted t next ps (mkRID (s_id p) (Z.of_nat k)) (pre ++ p' :: post) next
| inserted_new pre p q :
    ps = pre ++ [p] -> s_id q = next -> s_slots q = [Live t] ->
    inserted t next ps (mkRID next 0) (pre ++ [set_next next p; q]) (next + 1).

Lemma insert_pages_spec t next X ps : forall l, row_ok t -> locked l X -> ps <> [] ->
  (forall p k, p ∈ ps -> free_slot_at p k -> mkRID (s_id p) (Z.of_nat k) ∉ X) -> (forall n, mkRID next n ∉ X) ->
  exists rid qs next' l', insert_pages logging t ps next l = Ok (rid, qs, next', l') /\
    inserted t next ps rid qs next' /\ locked l' ({[rid]} ∪ X).
Proof.
  induction ps as [|p ps IH]; intros l Ht Hl Hne HX Hnew; [done|]. cbn [insert_pages].
  destruct (insert_page_ok t p l X Ht Hl) as [->|(k & p' & l' & -> & Hk & Hid & Hs & Hl')].
  { intros k. apply HX. by left. }
  - cbn [result_bind]. destruct ps as [|p2 ps].
    + destruct (insert_new_page t next (s_id p) l X Ht Hl Hnew) as (q & l' & -> & Hid & Hs & Hl').
      cbn [result_bind]. eexists _, _, _, l'. split; [done|]. split; [|done].
      by apply (inserted_new t next [p] [] p q).
    + destruct (IH l Ht Hl) as (rid & qs & next' & l' & -> & Hins & Hl'); [done| |done|].
      { intros q k Hq. apply HX. by right. }
      cbn [result_bind]. exists rid, (p :: qs), next', l'. split; [done|]. split; [|done].
      destruct Hins as [pre x x' post k Hps Hk Hid Hs|pre x q Hps Hid Hs]; rewrite Hps.
      * by apply (inserted_in t next (p :: pre ++ x :: post) (p :: pre) x x' post k).
      * by apply (inserted_new t next (p :: pre ++ [x]) (p :: pre) x q).
  - cbn [result_bind]. eexists _, _, _, l'. split; [done|]. split; [|done].
    by apply (inserted_in t next (p :: ps) [] p p' ps k).
Qed.

(** ** The contract *)

(** The environment of a heap that holds the rows [m], with room for [n] more pages. *)
Record holds_rows (n : nat) (marked : bool) (m : gmap RID (list Z)) (se : SEnv L) (X : gset RID) : Prop := {
  hs_rows : rows_are (h_pages (s_heap se)) m;
  hs_locks : locked (s_locks se) X;
  hs_used rid : rid ∈ X -> exists s, has_slot (h_pages (s_heap se)) rid s /\ s <> Free;
  hs_next : 0 <= h_next (s_heap se) /\ page_id_in_file (h_next (s_heap se) + Z.of_nat n);
  hs_fuel : (length (h_pages (s_heap se)) + n + 2 <= fuel)%nat;
  hs_clean : marked = false -> forall rid t, ~ has_slot (h_pages (s_heap se)) rid (Marked t)
}.

Definition rows (n : nat) (marked : bool) (e : Env P L) m : Prop :=
  exists s0 se X, env_rel s0 first e se /\ holds_rows n marked m se X.

Lemma env_facts s0 (e : Env P L) se : env_rel s0 first e se ->
  let ps := h_pages (s_heap se) in
  NoDup (s_id <$> ps) /\ ps <> [] /\ 0 <= h_next (s_heap se) /\ forall p, p ∈ ps -> 0 <= s_id p < h_next (s_heap se).
Proof.
  intros [_ _ (s & _ & Hr & _)]. cbv zeta. split; [apply Hr|]. pose proof (hr_first _ _ _ _ Hr) as Hf.
  assert (Hlt : forall p, p ∈ h_pages (s_heap se) -> 0 <= s_id p < h_next (s_heap se)).
  { intros p Hp. destruct (hr_pages _ _ _ _ Hr p Hp) as (buf & Hb & _). rewrite <- (hr_next _ _ _ _ Hr).
    apply (ar_id _ (hr_rest _ _ _ _ Hr)). by exists buf. }
  destruct (h_pages (s_heap se)) as [|p ps]; [done|]. split; [done|]. split; [|done].
  specialize (Hlt p (list_elem_of_here _ _)). lia.
Qed.

Lemma on_page_slot c rid s k se : NoDup (s_id <$> h_pages (s_heap se)) -> has_slot (h_pages (s_heap se)) rid s ->
  exists pre p post, h_pages (s_heap se) = pre ++ p :: post /\ s_id p = page_id_ rid /\ 0 <= slot_num_ rid /\
    s_slots p !! slot_of rid = Some s /\ on_page_ok c rid (s_heap se) = call_ok c p /\
    on_page (L := L) logging c rid k se =
      let* (a, p', l) := exec_spec logging c p (s_locks se) in
      k a (mkSHeap (pre ++ p' :: post) (h_next (s_heap se))) l.
Proof.
  intros Hnd Hs. destruct (has_slot_page (s_heap se) rid s Hnd Hs) as (pre & p & post & E & Hi & Hid & Hpos & Hsl).
  assert (Hp : h_pages (s_heap se) !! length pre = Some p) by (by rewrite E, lookup_app_r, Nat.sub_diag by lia).
  exists pre, p, post. split; [done|]. split; [done|]. split; [done|]. split; [done|]. unfold on_page, on_page_ok.
  rewrite Hi, Hp. split; [done|]. destruct (exec_spec logging c p (s_locks se)) as [[[a p'] l]|er]; [|done].
  cbn [result_bind]. unfold set_page. rewrite E. do 2 f_equal.
  rewrite <- (Nat.add_0_r (length pre)), insert_app_r. done.
Qed.

(** A call that changes the slot of one record. *)
Lemma holds_update n marked n' marked' m se X l' writes rid s s' pre p p' post :
  holds_rows n marked m se X -> NoDup (s_id <$> h_pages (s_heap se)) ->
  h_pages (s_heap se) = pre ++ p :: post -> s_id p = page_id_ rid -> 0 <= slot_num_ rid ->
  s_slots p !! slot_of rid = Some s -> p' = set_slot (slot_of rid) s' p -> s' <> Free ->
  locked l' ({[rid]} ∪ X) -> (n' <= n)%nat -> (marked' = false -> marked = false /\ forall t, s' <> Marked t) ->
  holds_rows n' marked' (one_row m rid s')
    (mkSEnv (mkSHeap (pre ++ p' :: post) (h_next (s_heap se))) l' writes) ({[rid]} ∪ X).
Proof.
  intros [Hm Hl Hu Hnx Hf Hc] Hnd E Hid Hpos Hs -> Hne Hl' Hn Hmk. rewrite E in *.
  assert (Hr : rid = mkRID (s_id p) (Z.of_nat (slot_of rid))) by (rewrite Hid; by apply rid_slot).
  assert (Hk : forall j, s_slots (set_slot (slot_of rid) s' p) !! j = if decide (j = slot_of rid) then Some s' else s_slots p !! j).
  { intros j. cbn [set_slot s_slots]. case_decide as Ej; [subst j|by apply list_lookup_insert_ne].
    apply list_lookup_insert_eq. by apply lookup_lt_Some in Hs. }
  pose proof (fun r x => has_slot_update pre p (set_slot (slot_of rid) s' p) post (slot_of rid) s' r x Hnd eq_refl Hk) as Hup. rewrite <- Hr in Hup.
  split; cbn [s_heap s_locks h_pages h_next].
  - rewrite Hr at 2. by apply (rows_update pre p (set_slot (slot_of rid) s' p) post (slot_of rid) s').
  - done.
  - intros r [->%elem_of_singleton|Hin]%elem_of_union.
    + exists s'. split; [|done]. apply Hup. by rewrite decide_True.
    + destruct (decide (r = rid)) as [->|Hr2]; [exists s'; split; [apply Hup; by rewrite decide_True|done]|].
      destruct (Hu r Hin) as (x & Hx & Hxf). exists x. split; [|done]. apply Hup. by rewrite decide_False.
  - unfold page_id_in_file in *. lia.
  - rewrite !length_app in *. cbn [length] in *. lia.
  - intros [Hmf Hst]%Hmk r t Hh. apply Hup in Hh. case_decide; [by apply (Hst t)|by apply (Hc Hmf r t)].
Qed.

(** ** The calls *)

#[local] Instance heap_calls : Heap (Env P L) := {|
  th_insert t e := InsertTuple logging fuel first (mkTuple invalid_rid t) e;
  th_mark rid e := MarkDelete logging first rid e;
  th_update t rid e := UpdateTuple logging first (mkTuple invalid_rid t) rid e;
  th_get rid e := let* (t, e) := GetTuple logging rid e in Ok (data_ <$> t, e);
  th_begin e := let* (it, e) := begin logging first e in Ok (rid_ it, data_ it, e);
  th_next it e := let* (it, e) := it_next logging fuel (mkTuple it.1 it.2) e in Ok (rid_ it, data_ it, e)
|}.

Lemma mark_law n marked e m rid : rows n marked e m -> is_Some (m !! rid) ->
  exists e', th_mark rid e = Ok (true, e') /\ rows n true e' (delete rid m).
Proof.
  intros (s0 & se & X & He & Hh) [t Ht]. destruct (env_facts s0 e se He) as (Hnd & _).
  apply (hs_rows _ _ _ _ _ Hh) in Ht. pose proof (heap_exec_refines logging s0 first fuel (HMark rid) e se He) as Hex.
  cbn [hexec_spec hcall_ok hexec] in Hex.
  destruct (on_page_slot (CMark rid) rid _ (fun _ h l => Ok (HBool true, mkSEnv h l (s_writes se ++ [mkWrite rid DELETE empty_tuple first]))) se Hnd Ht)
    as (pre & p & post & E & Hid & Hpos & Hs & Hok & Hrun).
  rewrite Hrun, Hok in Hex. cbn [exec_spec call_ok] in Hex. rewrite Hs in Hex.
  destruct (acquire_exclusive_ok rid (s_locks se) X (hs_locks _ _ _ _ _ Hh)) as (l' & Hacq & Hl'). rewrite Hacq in Hex.
  destruct (Hex Hpos) as (e' & Hm & He'). cbn [th_mark heap_calls]. exists e'.
  destruct (MarkDelete logging first rid e) as [[b e2]|]; [|done]. cbn [result_bind] in Hm. split; [by simplify_eq|].
  eexists s0, _, _. split; [exact He'|]. apply (holds_update n marked n true m se X l' _ rid (Live t) (Marked t) pre p _ post); done || lia.
Qed.

Lemma update_law n marked e m rid old t : rows n marked e m -> m !! rid = Some old -> row_ok t ->
  marked = false \/ length t = length old ->
  exists ok e', th_update t rid e = Ok (ok, e') /\ rows n marked e' (if ok : bool then <[rid := t]> m else m).
Proof.
  intros (s0 & se & X & He & Hh) Ho Ht Hlen. destruct (env_facts s0 e se He) as (Hnd & _).
  apply (hs_rows _ _ _ _ _ Hh) in Ho. pose proof (heap_exec_refines logging s0 first fuel (HUpdate t rid) e se He) as Hex.
  cbn [hexec_spec hcall_ok hexec] in Hex.
  match type of Hex with context [on_page _ _ _ ?k _] => destruct (on_page_slot (CUpdate t rid) rid _ k se Hnd Ho)
    as (pre & p & post & E & Hid & Hpos & Hs & Hok & Hrun) end.
  rewrite Hrun, Hok in Hex. cbn [exec_spec call_ok] in Hex. unfold update_spec in Hex. rewrite Hs in Hex.
  assert (Hcall : 0 <= slot_num_ rid /\ t <> [] /\ (length t = length old \/ Forall (fun s => is_marked s = false) (s_slots p))).
  { split; [done|]. split; [intros ->; unfold row_ok in Ht; simpl in Ht; lia|]. destruct Hlen as [Hmk|]; [right|by left]. apply Forall_lookup. intros j x Hj.
    destruct x as [| |bs]; try done. exfalso. apply (hs_clean _ _ _ _ _ Hh Hmk (mkRID (s_id p) (Z.of_nat j)) bs).
    exists p. rewrite E. split; [apply elem_of_app; right; left|]. split; [done|]. split; [simpl; lia|].
    unfold slot_of. simpl. by rewrite Nat2Z.id. }
  cbn [th_update heap_calls].
  destruct (free_size (s_slots p) <? _) eqn:Efree.
  - destruct (Hex Hcall) as (e' & Hu & He'). destruct (UpdateTuple _ _ _ _ _) as [[b e2]|]; [|done].
    cbn [result_bind andb] in Hu. simplify_eq. exists false, e'. split; [done|]. eexists s0, _, X. split; [exact He'|].
    destruct Hh. by split; cbn [s_heap s_locks h_pages h_next]; rewrite <- ?E.
  - destruct (acquire_exclusive_ok rid (s_locks se) X (hs_locks _ _ _ _ _ Hh)) as (l' & Hacq & Hl'). rewrite Hacq in Hex.
    destruct (Hex Hcall) as (e' & Hu & He'). destruct (UpdateTuple _ _ _ _ _) as [[b e2]|]; [|done].
    cbn [result_bind andb fst snd] in Hu. simplify_eq. exists true, e'. split; [done|]. eexists s0, _, _. split; [exact He'|].
    by apply (holds_update n marked n marked m se X l' _ rid (Live old) (Live t) pre p _ post).
Qed.

Lemma one_row_live m rid t : m !! rid = Some t -> one_row m rid (Live t) = m.
Proof. intros Hr. by apply insert_id. Qed.

Lemma get_law n marked e m rid t : rows n marked e m -> m !! rid = Some t ->
  exists e', th_get rid e = Ok (Some t, e') /\ rows n marked e' m.
Proof.
  intros (s0 & se & X & He & Hh) Ht. destruct (env_facts s0 e se He) as (Hnd & _). pose proof Ht as Hrow.
  apply (hs_rows _ _ _ _ _ Hh) in Ht. pose proof (heap_exec_refines logging s0 first fuel (HGet rid) e se He) as Hex.
  cbn [hexec_spec hcall_ok hexec] in Hex.
  match type of Hex with context [on_page _ _ _ ?k _] => destruct (on_page_slot (CGet rid) rid _ k se Hnd Ht)
    as (pre & p & post & E & Hid & Hpos & Hs & Hok & Hrun) end.
  rewrite Hrun, Hok in Hex. cbn [exec_spec call_ok] in Hex. rewrite Hs in Hex.
  destruct (acquire_shared_ok rid (s_locks se) X (hs_locks _ _ _ _ _ Hh)) as (l' & Hacq & Hl'). rewrite Hacq in Hex.
  destruct (Hex Hpos) as (e' & Hg & He'). cbn [th_get heap_calls]. exists e'.
  destruct (GetTuple logging rid e) as [[b e2]|]; [|done]. cbn [result_bind fst snd] in Hg. simplify_eq.
  split; [done|]. eexists s0, _, _. split; [exact He'|]. rewrite <- (one_row_live m rid t Hrow).
  apply (holds_update n marked n marked m se X l' _ rid (Live t) (Live t) pre p _ post); try done.
  by rewrite set_slot_id.
Qed.

Lemma rows_le n marked e m : rows (S n) marked e m -> rows n marked e m.
Proof.
  intros (s0 & se & X & He & []). exists s0, se, X. split; [done|]. split; try done; [|lia].
  destruct hs_next0 as [? Hn]. split; [done|]. unfold page_id_in_file in *. lia.
Qed.

Lemma free_not_used n marked m se X p k : holds_rows n marked m se X -> NoDup (s_id <$> h_pages (s_heap se)) ->
  p ∈ h_pages (s_heap se) -> free_slot_at p k -> mkRID (s_id p) (Z.of_nat k) ∉ X.
Proof.
  intros Hh Hnd Hp Hk Hin. destruct (hs_used _ _ _ _ _ Hh _ Hin) as (s & (q & Hq & Eq & _ & Hs) & Hne). simpl in Eq.
  assert (q = p) as -> by (by apply (id_unique (h_pages (s_heap se)))). unfold slot_of in Hs. simpl in Hs.
  rewrite Nat2Z.id in Hs. unfold free_slot_at in Hk. by rewrite Hs in Hk.
Qed.

(** The rows after an insertion. *)
Lemma holds_insert n marked m se X t rid qs next' l' writes :
  holds_rows (S n) marked m se X -> NoDup (s_id <$> h_pages (s_heap se)) -> NoDup (s_id <$> qs) ->
  inserted t (h_next (s_heap se)) (h_pages (s_heap se)) rid qs next' ->
  (forall p, p ∈ h_pages (s_heap se) -> s_id p <> h_next (s_heap se)) -> locked l' ({[rid]} ∪ X) ->
  m !! rid = None /\ holds_rows n marked (<[rid := t]> m) (mkSEnv (mkSHeap qs next') l' writes) ({[rid]} ∪ X).
Proof.
  intros Hh Hnd Hnd' Hins Hnew Hl'. set (ps := h_pages (s_heap se)) in *.
  (* The pages before the slot is filled, with the same slots. *)
  assert (exists pre p p' post k, qs = pre ++ p' :: post /\ rid = mkRID (s_id p) (Z.of_nat k) /\ free_slot_at p k /\
    s_id p' = s_id p /\ (forall j, s_slots p' !! j = if decide (j = k) then Some (Live t) else s_slots p !! j) /\
    (forall r s, has_slot (pre ++ p :: post) r s <-> has_slot ps r s) /\
    (length qs <= S (length ps))%nat /\ h_next (s_heap se) <= next' <= h_next (s_heap se) + 1)
    as (pre & p & p' & post & k & -> & -> & Hk & Hid & Hs & Hsame & Hlen & Hnx).
  { destruct Hins as [pre p p' post k E Hk Hid Hs|pre p q E Hid Hs].
    - exists pre, p, p', post, k. rewrite E, !length_app. cbn [length]. repeat (split; [done || lia|]). lia.
    - exists (pre ++ [set_next (h_next (s_heap se)) p]), (mkSPage (h_next (s_heap se)) 0 0 []), q, [], 0%nat.
      rewrite <- !app_assoc. cbn [app]. rewrite E, !length_app. cbn [length].
      split; [done|]. split; [done|]. split; [done|]. split; [done|]. split; [by intros [|j]; rewrite Hs|].
      split; [intros r s; by apply (has_slot_extend pre p (mkSPage (h_next (s_heap se)) 0 0 []))|]. lia. }
  assert (Hnd2 : NoDup (s_id <$> pre ++ p :: post)).
  { rewrite fmap_app, fmap_cons in *. by rewrite Hid in Hnd'. }
  assert (Hm : rows_are (pre ++ p :: post) m) by (intros r x; rewrite Hsame; apply (hs_rows _ _ _ _ _ Hh)).
  pose proof (fun r x => has_slot_update pre p p' post k (Live t) r x Hnd2 Hid Hs) as Hup.
  set (rid := mkRID _ _) in *. split.
  - destruct (m !! rid) as [x|] eqn:Ex; [|done]. apply Hm in Ex as (q & Hq & Eq & _ & Hx). simpl in Eq.
    assert (q = p) as -> by (apply (id_unique (pre ++ p :: post)); [done|done|set_solver|done]).
    unfold free_slot_at in Hk. unfold slot_of in Hx. simpl in Hx. rewrite Nat2Z.id in Hx. by rewrite Hx in Hk.
  - pose proof (rows_update pre p p' post k (Live t) m Hnd2 Hid Hs Hm) as Hm'.
    destruct Hh as [_ Hl Hu [Hn0 Hn] Hf Hc]. split; cbn [s_heap s_locks h_pages h_next].
    + exact Hm'.
    + done.
    + intros r [->%elem_of_singleton|Hin]%elem_of_union; [exists (Live t); split; [apply Hup; by rewrite decide_True|done]|].
      destruct (decide (r = rid)) as [->|Hr2]; [exists (Live t); split; [apply Hup; by rewrite decide_True|done]|].
      destruct (Hu r Hin) as (x & Hx & Hxf). exists x. split; [|done]. apply Hup. rewrite decide_False by done. by apply Hsame.
    + split; [lia|]. unfold page_id_in_file in *. lia.
    + unfold ps in Hlen. lia.
    + intros Hmf r x Hh. apply Hup in Hh. case_decide; [done|]. by apply Hsame, (Hc Hmf r x) in Hh.
Qed.

Lemma insert_law n marked e m t : rows (S n) marked e m -> row_ok t ->
  exists rid e', th_insert t e = Ok (Some rid, e') /\ m !! rid = None /\ rows n marked e' (<[rid := t]> m).
Proof.
  intros (s0 & se & X & He & Hh) Ht. destruct (env_facts s0 e se He) as (Hnd & Hne & _ & Hlt).
  pose proof (heap_exec_refines logging s0 first fuel (HInsert t) e se He) as Hex. cbn [hexec_spec hcall_ok hexec] in Hex.
  assert (Hnew : forall p, p ∈ h_pages (s_heap se) -> s_id p <> h_next (s_heap se)) by (intros p Hp; specialize (Hlt p Hp); lia).
  destruct (insert_pages_spec t (h_next (s_heap se)) X (h_pages (s_heap se)) (s_locks se) Ht (hs_locks _ _ _ _ _ Hh) Hne)
    as (rid & qs & next' & l' & Hrun & Hins & Hl').
  { intros p k Hp. by apply (free_not_used _ _ _ _ _ _ _ Hh Hnd). }
  { intros k Hin. destruct (hs_used _ _ _ _ _ Hh _ Hin) as (s & (q & Hq & Eq & _) & _). by apply (Hnew q). }
  unfold row_ok in Ht. rewrite (proj2 (Z.ltb_ge _ _)) in Hex by lia. rewrite Hrun in Hex. cbn [result_bind] in Hex.
  destruct Hex as (e' & Hi & He').
  { destruct Hh as [_ _ _ [? ?] ? _]. unfold page_id_in_file in *. split; lia. }
  cbn [th_insert heap_calls]. exists rid, e'. destruct (InsertTuple logging fuel first (mkTuple invalid_rid t) e) as [[b e2]|]; [|done].
  cbn [result_bind] in Hi. simplify_eq. split; [done|]. destruct (env_facts s0 e' _ He') as (Hnd' & _).
  destruct (holds_insert n marked m se X t rid qs next' l' (s_writes se ++ [mkWrite rid INSERT empty_tuple first])) as [Hm Hh'];
    [done..|]. split; [done|]. by eexists s0, _, _.
Qed.

(** *** Iteration *)

(** What the iteration may assume of the locks: they are on records that are not free. *)
Definition reading h l : Prop :=
  exists X, locked l X /\ forall rid, rid ∈ X -> exists s, has_slot (h_pages h) rid s /\ s <> Free.

Lemma reading_acquire h l p i bs : reading h l -> p ∈ h_pages h -> s_slots p !! i = Some (Live bs) ->
  exists l', acquire_shared logging (mkRID (s_id p) (Z.of_nat i)) l = Ok (true, l') /\ reading h l'.
Proof.
  intros (X & Hl & Hu) Hp Hi. destruct (acquire_shared_ok (mkRID (s_id p) (Z.of_nat i)) l X Hl) as (l' & Hacq & Hl').
  exists l'. split; [done|]. eexists. split; [exact Hl'|]. intros rid [->%elem_of_singleton|Hin]%elem_of_union; [|by apply Hu].
  exists (Live bs). split; [|done]. by apply has_slot_live.
Qed.

Lemma reading_rows n marked m se X l' : holds_rows n marked m se X -> reading (s_heap se) l' ->
  exists X', holds_rows n marked m (mkSEnv (s_heap se) l' (s_writes se)) X'.
Proof. intros [] (X' & Hl & Hu). by exists X'. Qed.

(** The iterator [it] stands at the head of the rows [ts]. *)
Definition iterator_at (n : nat) (marked : bool) (e : Env P L) m (it : RID * list Z) (ts : list (RID * list Z)) : Prop :=
  exists s0 se X tuples, env_rel s0 first e se /\ holds_rows n marked m se X /\
    stands (h_pages (s_heap se)) (mkTuple it.1 it.2) tuples /\ ts = row_of <$> tuples.

Lemma iterator_at_rows n marked e m it ts : iterator_at n marked e m it ts -> rows n marked e m.
Proof. intros (s0 & se & X & tuples & He & Hh & _). by exists s0, se, X. Qed.

Lemma iterator_at_end n marked e m it : iterator_at n marked e m it [] -> Get it.1 = Get invalid_rid.
Proof.
  intros (s0 & se & X & [|? tuples] & _ & _ & Hst & Hts); [|done]. inversion Hst as [Hend|]. by apply Z.eqb_eq in Hend.
Qed.

Lemma iterator_at_row n marked e m it x ts : iterator_at n marked e m it (x :: ts) -> x = it /\ Get it.1 <> Get invalid_rid.
Proof.
  intros (s0 & se & X & [|y tuples] & He & Hh & Hst & Hts); [done|]. cbn [fmap list_fmap] in Hts. injection Hts as -> ->.
  inversion Hst as [|pre p ps i bs E Hi Hit]. subst y. destruct (er_pool _ _ _ _ He) as (s & _ & Hr & _).
  split; [by destruct it|]. apply Z.eqb_neq. change (it_eq (mkTuple it.1 it.2) it_end = false). rewrite Hit.
  apply (live_not_end s0 first (s_heap se) s p i bs bs Hr); [rewrite E; set_solver|done].
Qed.

Lemma rows_iterated s0 n marked m se X e b' l' s : env_rel s0 first e se -> holds_rows n marked m se X ->
  reading (s_heap se) l' -> pp_repr b' s -> heap_rel s0 first s (s_heap se) -> 2 <= room s ->
  exists X' se', s_heap se' = s_heap se /\ env_rel s0 first (mkEnv b' l' (write_set_ e)) se' /\ holds_rows n marked m se' X'.
Proof.
  intros He Hh Hl Hb Hr Hroom. destruct (reading_rows _ _ _ _ _ _ Hh Hl) as (X' & Hh').
  eexists X', _. split; [|split; [|exact Hh']]; [done|]. destruct He. split; [done|done|]. by exists s.
Qed.

Lemma next_law n marked e m it x ts : iterator_at n marked e m it (x :: ts) ->
  exists it' e', th_next it e = Ok (it', e') /\ iterator_at n marked e' m it' ts.
Proof.
  intros (s0 & se & X & [|y tuples] & He & Hh & Hst & Hts); [done|]. cbn [fmap list_fmap] in Hts. injection Hts as -> ->.
  destruct (er_pool _ _ _ _ He) as (s & Hb & Hr & Hroom).
  assert (y = mkTuple it.1 it.2) as -> by (by inversion Hst).
  destruct (it_next_ok logging s0 first (s_heap se) (reading (s_heap se)) (reading_acquire (s_heap se)) fuel e s
    (mkTuple it.1 it.2) tuples Hb Hr Hroom)
    as (it' & b' & l' & Hrun & Hl' & Hb' & Hst'); [destruct Hh; lia| |done|].
  { rewrite (er_locks _ _ _ _ He). exists X. split; apply Hh. }
  destruct (rows_iterated _ _ _ _ _ _ _ b' l' s He Hh Hl' Hb' Hr Hroom) as (X' & se' & Es & He' & Hh').
  cbn [th_next heap_calls]. rewrite Hrun. cbn [result_bind]. eexists _, _. split; [done|].
  exists s0, se', X', tuples. rewrite Es. by destruct it'.
Qed.

Lemma begin_law n marked e m : rows n marked e m ->
  exists it ts e', th_begin e = Ok (it, e') /\ iterator_at n marked e' m it ts /\ scanned first m ts.
Proof.
  intros (s0 & se & X & He & Hh). destruct (er_pool _ _ _ _ He) as (s & Hb & Hr & Hroom).
  destruct (begin_ok logging s0 first (s_heap se) (reading (s_heap se)) (reading_acquire (s_heap se)) e s Hb Hr Hroom)
    as (it & b' & l' & Hrun & Hl' & Hb' & Hst).
  { rewrite (er_locks _ _ _ _ He). exists X. split; apply Hh. }
  destruct (rows_iterated _ _ _ _ _ _ _ b' l' s He Hh Hl' Hb' Hr Hroom) as (X' & se' & Es & He' & Hh').
  cbn [th_begin heap_calls]. rewrite Hrun. cbn [result_bind]. eexists _, _, _. split; [done|]. split.
  - exists s0, se', X', (scan_spec (h_pages (s_heap se))). rewrite Es. by destruct it.
  - apply scan_spec_scanned; [by apply (env_facts s0 e se)|apply Hr|apply Hh].
Qed.

#[export] Instance heap_laws : HeapLaws (Env P L) := {|
  th_repr := rows;
  th_row_ok := row_ok;
  th_repr_le := rows_le;
  th_insert_law := insert_law;
  th_mark_law := mark_law;
  th_update_law := update_law;
  th_get_law := get_law;
  th_first := first;
  th_at := iterator_at;
  th_at_repr := iterator_at_rows;
  th_at_end := iterator_at_end;
  th_at_row := iterator_at_row;
  th_begin_law := begin_law;
  th_next_law := next_law
|}.
End Rows.

(** A new heap has no rows. *)
Lemma new_heap_rows {P L : Type} `{PagePoolLaws P} `{LockGrants L} (logging : bool) (fuel n : nat) (b : P) (s : Store) (l : L) :
  pp_repr b s -> at_rest s -> 2 <= room s -> page_id_in_file (next s + 1 + Z.of_nat n) -> 0 <= next s -> (n + 3 <= fuel)%nat ->
  locked logging l ∅ ->
  exists b0, create b = Ok (next s, b0) /\ rows logging fuel (next s) n false (mkEnv b0 l []) ∅.
Proof.
  intros Hb Hrest Hroom Hn Hpos Hf Hl.
  destruct (create_ok s (next s) b s Hb Hrest Hroom) as (b0 & s0 & Hc & Hb0 & Hroom0 & Hr0);
    [unfold page_id_in_file in *; lia|done|done|].
  exists b0. split; [done|].
  exists s, (mkSEnv (mkSHeap [mkSPage (next s) INVALID_LSN INVALID_PAGE_ID []] (next s + 1)) l []), ∅. split.
  - split; [done|done|]. exists s0. split; [done|]. split; [exact Hr0|lia].
  - assert (Hno : forall rid x, ~ has_slot [mkSPage (next s) INVALID_LSN INVALID_PAGE_ID []] rid x).
    { intros rid x (p & ->%list_elem_of_singleton & _ & _ & Hx). done. }
    split; cbn [s_heap s_locks h_pages h_next length].
    + intros rid t. rewrite lookup_empty. split; [done|]. by intros ?%Hno.
    + done.
    + by intros rid ?%not_elem_of_empty.
    + split; [lia|done].
    + lia.
    + intros _ rid t. apply Hno.
Qed.
End TableRows.
