(* ===== verification/SoleTransaction.v ===== *)
(** * The only running transaction

    SQLite runs one transaction at a time.  For it the lock manager of LockManager.v has
    the contract [LockGrants]: every lock is granted at once. *)

From stdpp Require Import prelude gmap list.
From Stdlib Require Import ZArith Lia.
From S2P Require Import Prelude Rid Interfaces PagePool LockManager TableHeap TransactionManager.

Local Open Scope Z_scope.

Module SoleTransaction.
Import Rid Lock TransactionManager.

(** The transaction [l.2] runs alone, and holds the locks on [X]. *)
Record sole (l : Locks) (X : gset RID) (x : Transaction) : Prop := {
  so_txn : txns l.1 !! l.2 = Some x;
  so_state : state_ x = GROWING;
  so_locks : X = shared_lock_set_ x ∪ exclusive_lock_set_ x;
  so_shared rid : rid ∈ shared_lock_set_ x ->
    lock_table_ l.1 !! rid = Some (mkLockList [mkInfo l.2 true SHARED NoPromise] SHARED 1);
  so_free rid : rid ∉ X -> exists ty, find_list rid l.1 = mkLockList [] ty 0
}.

Definition holds (l : Locks) (X : gset RID) : Prop := exists x, sole l X x.

(** A new transaction of a manager without locks. *)
Lemma sole_start strict t : holds (put_txn t new_txn (create strict), t) ∅.
Proof.
  exists new_txn. split.
  - apply lookup_insert_eq.
  - done.
  - cbn. set_solver.
  - intros rid. cbn. set_solver.
  - intros rid _. by exists EMPTY.
Qed.

Lemma sets_ok l X rid : holds l X -> lk_in_shared rid l || lk_in_exclusive rid l = bool_decide (rid ∈ X).
Proof.
  intros [x [Hx _ -> _ _]]. cbn [lk_in_shared lk_in_exclusive lock_env]. unfold my_txn. rewrite Hx. cbn [default from_option].
  change (id x) with x. rewrite <- bool_decide_or. apply bool_decide_ext. set_solver.
Qed.

Lemma get_sole l X x : sole l X x -> get_txn l.2 l.1 = Ok x.
Proof. intros H. unfold get_txn. by rewrite (so_txn _ _ _ H). Qed.

(** A lock on a free record: the list gets one granted entry. *)
Lemma sole_granted l X x rid ty ty0 grant :
  sole l X x -> rid ∉ X -> find_list rid l.1 = mkLockList [] ty0 0 ->
  ty = SHARED /\ grant = add_shared \/ ty = EXCLUSIVE /\ grant = add_exclusive ->
  holds (put_txn l.2 (grant rid x) (put_list rid (push_granted l.2 ty (mkLockList [] ty0 0)) l.1), l.2) ({[rid]} ∪ X).
Proof.
  intros [Hx Hst -> Hs Hf] Hr Hl Hty. exists (grant rid x).
  split; cbn [fst snd put_txn put_list lock_table_ txns].
  - apply lookup_insert_eq.
  - by destruct Hty as [[_ ->]|[_ ->]].
  - destruct Hty as [[_ ->]|[_ ->]]; cbn; set_solver.
  - intros r Hin. destruct Hty as [[-> ->]|[-> ->]]; cbn in Hin.
    + apply elem_of_union in Hin as [->%elem_of_singleton|Hin]; [apply lookup_insert_eq|].
      rewrite lookup_insert_ne by (intros ->; set_solver). by apply Hs.
    + rewrite lookup_insert_ne by (intros ->; set_solver). by apply Hs.
  - intros r Hin. unfold find_list. cbn [fst put_txn put_list lock_table_]. rewrite lookup_insert_ne by set_solver. apply Hf. set_solver.
Qed.

Lemma shared_ok l X rid : holds l X -> rid ∉ X ->
  exists l', lk_lock_shared rid l = Ok (true, l') /\ holds l' ({[rid]} ∪ X).
Proof.
  intros [x H] Hr. destruct (so_free _ _ _ H rid Hr) as [ty0 Hl]. eexists. split.
  - cbn [lk_lock_shared lock_env]. unfold call_lock. cbn [lock]. unfold LockShared. rewrite (get_sole _ _ _ H). cbn [result_bind].
    rewrite (so_state _ _ _ H), Hl. reflexivity.
  - apply (sole_granted l X x rid SHARED ty0 add_shared); [done..|by left].
Qed.

Lemma exclusive_ok l X rid : holds l X -> rid ∉ X ->
  exists l', lk_lock_exclusive rid l = Ok (true, l') /\ holds l' ({[rid]} ∪ X).
Proof.
  intros [x H] Hr. destruct (so_free _ _ _ H rid Hr) as [ty0 Hl]. eexists. split.
  - cbn [lk_lock_exclusive lock_env]. unfold call_lock. cbn [lock]. unfold LockExclusive. rewrite (get_sole _ _ _ H). cbn [result_bind].
    rewrite (so_state _ _ _ H), Hl. reflexivity.
  - apply (sole_granted l X x rid EXCLUSIVE ty0 add_exclusive); [done..|by right].
Qed.

Lemma upgrade_ok l X rid : holds l X -> lk_in_shared rid l = true ->
  exists l', lk_lock_upgrade rid l = Ok (true, l') /\ holds l' X.
Proof.
  intros [x H] Hin. pose proof H as [Hx Hst HX Hs Hf]. cbn [lk_in_shared lock_env] in Hin. unfold my_txn in Hin.
  rewrite Hx in Hin. apply bool_decide_eq_true in Hin. cbn in Hin. specialize (Hs rid Hin) as Hl. eexists. split.
  - cbn [lk_lock_upgrade lock_env]. unfold call_lock. cbn [lock]. unfold LockUpgrade. rewrite (get_sole _ _ _ H). cbn [result_bind].
    rewrite Hst, Hl. cbn [bool_decide assert_ negb result_bind lock_list_ list_lock_type_ list_grant_cnt_ txn_].
    rewrite bool_decide_eq_false_2, !Z.eqb_refl by done. reflexivity.
  - exists (add_exclusive rid (drop_shared rid x)). split; cbn [fst snd put_txn put_list lock_table_ txns].
    + apply lookup_insert_eq.
    + done.
    + subst X. cbn. apply set_eq. intros r. destruct (decide (r = rid)); set_solver.
    + intros r Hr. cbn in Hr. rewrite lookup_insert_ne by set_solver. apply Hs. set_solver.
    + intros r Hr. unfold find_list. cbn [fst put_txn put_list lock_table_]. rewrite lookup_insert_ne by (intros ->; apply Hr; subst X; set_solver). by apply Hf.
Qed.

#[export] Instance sole_grants : LockGrants Locks := {|
  lg_holds := holds;
  lg_sets := sets_ok;
  lg_shared := shared_ok;
  lg_exclusive := exclusive_ok;
  lg_upgrade := upgrade_ok
|}.

(** Transactions one after the other: the next one has the next id, and an empty write set. *)
#[export] Instance sole_transactions {P} `{!Pool.PagePool P} (logging : bool) : Transactions (TableHeap.Env P Locks) := {|
  tm_begin e :=
    let l := TableHeap.locks_ e in
    let '(t, s, _) := TransactionManager.Begin (l.2 + 1) l.1 in
    TableHeap.mkEnv (TableHeap.pool_ e) (s, t) [];
  tm_commit := TransactionManager.Commit logging
|}.
End SoleTransaction.
