(* ===== verification/StorageEngine.v ===== *)
(** * The storage engine behind the tables (src/src/vtable/virtual_table.h, virtual_table.cpp)

    The construction of the engine, its initialisation when SQLite loads the module, and the
    heap of a new or reopened table. *)

From stdpp Require Import prelude gmap list.
From Stdlib Require Import ZArith Lia.
From S2P Require Import Prelude Rid Interfaces DiskManager BufferPool TablePage PagePool LockManager TableHeap.
From S2P Require Import TransactionManager TableRows SoleTransaction.

Local Open Scope Z_scope.

Module StorageEngine.
Import Pool TransactionManager SoleTransaction.

(** The storage of the engine: the buffer pool over the database file, the strict lock
    manager with the id of the last transaction, none so far. *)
Abbreviation Storage := (TableHeap.Env BufferPool.Pool Locks).

Definition StorageEngine_create (file log : option (list Z)) : Storage :=
  TableHeap.mkEnv (BufferPool.create (Z.to_nat BUFFER_POOL_SIZE) (Disk.create true file log))
    (Lock.create true, INVALID_TXN_ID) [].

(** On a file that is new the header page is the first page of the pool. *)
Definition sqlite3_vtable_init (file log : option (list Z)) : result Storage :=
  let e := StorageEngine_create file log in
  match file with
  | Some _ => Ok e
  | None =>
      let* (header_page_id, _, b) := new_page (TableHeap.pool_ e) in
      assert! header_page_id =? HEADER_PAGE_ID ;;
      let* b := unpin header_page_id true b in
      Ok (TableHeap.mkEnv b (TableHeap.locks_ e) (TableHeap.write_set_ e))
  end.

(** The heap of a table: reopened at its first page, or created in a transaction. *)
Definition VirtualTable_create {P} `{PagePool P} (logging : bool) (first_page_id : Z) (e : TableHeap.Env P Locks) :
    result (Z * TableHeap.Env P Locks) :=
  if negb (first_page_id =? INVALID_PAGE_ID) then Ok (first_page_id, e)
  else
    let e := @tm_begin _ (sole_transactions logging) e in
    let* (first_page_id, b) := TableHeap.create (TableHeap.pool_ e) in
    let* e := @tm_commit _ (sole_transactions logging) (TableHeap.mkEnv b (TableHeap.locks_ e) (TableHeap.write_set_ e)) in
    Ok (first_page_id, e).

Lemma my_txn_put t x s : my_txn (Lock.put_txn t x s, t) = x.
Proof. unfold my_txn. cbn [fst snd Lock.put_txn Lock.txns]. by rewrite lookup_insert_eq. Qed.

(** The commit of a transaction that did nothing. *)
Lemma commit_new {P} `{PagePool P} (logging : bool) t s (b : P) :
  Commit logging (TableHeap.mkEnv b (Lock.put_txn t Lock.new_txn s, t) []) =
  Ok (TableHeap.mkEnv b (Lock.put_txn t (Lock.SetState Lock.COMMITTED Lock.new_txn) (Lock.put_txn t Lock.new_txn s), t) []).
Proof.
  unfold Commit, set_state. cbn [TableHeap.locks_ TableHeap.write_set_ set_locks TableHeap.pool_ length drain last fst snd result_bind].
  rewrite my_txn_put. unfold release_locks, lock_set, set_locks. cbn [TableHeap.locks_ TableHeap.pool_ TableHeap.write_set_]. by rewrite my_txn_put.
Qed.

(** The transaction of a new table locks nothing and writes no record. *)
Lemma new_table_ok {P} `{PagePoolLaws P} (logging : bool) (e : TableHeap.Env P Locks) s s1 o :
  pp_repr (TableHeap.pool_ e) s1 -> opened s s1 o -> Z.of_nat (size o) < room s -> Disk.page_id_in_file (next s) ->
  exists e' s2 buf, VirtualTable_create logging INVALID_PAGE_ID e = Ok (next s, e') /\ pp_repr (TableHeap.pool_ e') s2 /\
    opened (save_page (next s) buf (add_page s)) s2 o /\
    TablePage.repr buf (TablePage.mkSPage (next s) INVALID_LSN INVALID_PAGE_ID []) /\ TableHeap.write_set_ e' = [].
Proof.
  intros Hb Ho Hroom Hid. destruct (TableHeap.create_open (TableHeap.pool_ e) s s1 o Hb Ho Hroom Hid)
    as (b' & s2 & buf & Hc & Hb' & Ho' & Hbuf).
  unfold VirtualTable_create. change (negb (INVALID_PAGE_ID =? INVALID_PAGE_ID)) with false. cbv iota.
  cbn [tm_begin tm_commit sole_transactions Begin TableHeap.pool_ TableHeap.locks_ TableHeap.write_set_]. rewrite Hc.
  cbn [result_bind TableHeap.locks_ TableHeap.write_set_]. rewrite commit_new. cbn [result_bind].
  eexists _, s2, buf. split; [done|]. by split.
Qed.

(** When SQLite loads the module and there is no database file, the initialisation
    fails an assertion: the first page the disk manager gives is the page 0, not
    [HEADER_PAGE_ID], which is 1. *)
Theorem init_fresh_fails (log : option (list Z)) : sqlite3_vtable_init None log = Fail AssertFail.
Proof. by vm_compute. Qed.

(** On a file that exists a table can be created and is then empty. *)
Example create_on_old_file :
  (let* e := sqlite3_vtable_init (Some []) None in
   let* (first, e) := VirtualTable_create true INVALID_PAGE_ID e in
   let* (rids, _) := TableHeap.scan true 5 5 first (@tm_begin _ (sole_transactions true) e) in
   Ok (first, rids)) = Ok (0, []).
Proof. by vm_compute. Qed.
End StorageEngine.
