(* ===== verification/SqlValue.v ===== *)
(** * SQL values: the class Value and the static parts of Type

    Module [SqlValue] models [type/value.h], [type/value.cpp], [type/limits.h],
    [type/type_id.h] and the functions of [type/type.cpp] that need no dispatch:
    the tagged union, its constructors with their NULL sentinels, the tests
    [CheckComparable] and [CheckInteger], sizes, names, coercibility, and the
    smallest and largest value of a type. *)

From stdpp Require Import prelude list strings.
From Stdlib Require Import ZArith Lia SpecFloat.
From S2P Require Import Prelude CppStd.

Local Open Scope Z_scope.

Module SqlValue.
Import CppStd.Double.

(** ** Types and limits *)

Inductive TypeId :=
| INVALID | BOOLEAN | TINYINT | SMALLINT | INTEGER | BIGINT | DECIMAL | VARCHAR | TIMESTAMP.

Global Instance TypeId_eq_dec : EqDecision TypeId.
Proof. solve_decision. Defined.

Inductive CmpBool := CMP_FALSE | CMP_TRUE | CMP_NULL.

Global Instance CmpBool_eq_dec : EqDecision CmpBool.
Proof. solve_decision. Defined.

Definition GetCmpBool (boolean : bool) : CmpBool := if boolean then CMP_TRUE else CMP_FALSE.

Definition PELOTON_VALUE_NULL : Z := 2 ^ 32 - 1.
Definition PELOTON_VARCHAR_MAX_LEN : Z := 2 ^ 32 - 1.
Definition PELOTON_BOOLEAN_NULL : Z := - 2 ^ 7.
Definition PELOTON_TIMESTAMP_NULL : Z := 2 ^ 64 - 1.
Definition PELOTON_TIMESTAMP_MAX : Z := 11231999986399999999.
Definition PELOTON_DECIMAL_NULL : double := DBL_LOWEST.
Definition PELOTON_DECIMAL_MIN : double := FLT_LOWEST.
Definition PELOTON_DECIMAL_MAX : double := DBL_MAX.

(** The signed integer types of the four SQL integers, with the limits
    [PELOTON_INT8_MIN], [PELOTON_INT8_MAX], [PELOTON_INT8_NULL] and so on. *)
Inductive CType := int8_t | int16_t | int32_t | int64_t.

Global Instance CType_eq_dec : EqDecision CType.
Proof. solve_decision. Defined.

Definition width (T : CType) : Z :=
  match T with int8_t => 8 | int16_t => 16 | int32_t => 32 | int64_t => 64 end.

Definition INT_MIN (T : CType) : Z := - 2 ^ (width T - 1) + 1.
Definition INT_MAX (T : CType) : Z := 2 ^ (width T - 1) - 1.
Definition INT_NULL (T : CType) : Z := - 2 ^ (width T - 1).

(** ** The value *)

(** The union [Val] by its last written member; [VUninit] before any write. *)
Inductive Val :=
| VUninit
| VBoolean (z : Z) | VTinyint (z : Z) | VSmallint (z : Z) | VInteger (z : Z)
| VBigint (z : Z) | VDecimal (d : double) | VTimestamp (z : Z)
| VVarlen (p : option Buf).

Record Value := MkValue {
  value_ : Val;
  len : Z;
  manage_data_ : bool;
  type_id_ : TypeId
}.

Definition IsNull (v : Value) : bool := len v =? PELOTON_VALUE_NULL.

Definition null_len (null : bool) : Z := if null then PELOTON_VALUE_NULL else 0.

(** [Value(const TypeId)]: a NULL whose member is never written. *)
Definition Value_null (type : TypeId) : Value :=
  MkValue VUninit PELOTON_VALUE_NULL false type.

(** The constructors from [int8_t], [int16_t], [int32_t] and [int64_t], whose
    bodies are the same text: [i] is converted to the member of the type. *)
Definition Value_int (type : TypeId) (i : Z) : result Value :=
  match type with
  | BOOLEAN =>
      let b := swrap 8 i in
      Ok (MkValue (VBoolean b) (null_len (b =? PELOTON_BOOLEAN_NULL)) false type)
  | TINYINT =>
      let b := swrap 8 i in
      Ok (MkValue (VTinyint b) (null_len (b =? INT_NULL int8_t)) false type)
  | SMALLINT =>
      let b := swrap 16 i in
      Ok (MkValue (VSmallint b) (null_len (b =? INT_NULL int16_t)) false type)
  | INTEGER =>
      let b := swrap 32 i in
      Ok (MkValue (VInteger b) (null_len (b =? INT_NULL int32_t)) false type)
  | BIGINT =>
      let b := swrap 64 i in
      Ok (MkValue (VBigint b) (null_len (b =? INT_NULL int64_t)) false type)
  | TIMESTAMP =>
      let b := uwrap 64 i in
      Ok (MkValue (VTimestamp b) (null_len (b =? PELOTON_TIMESTAMP_NULL)) false type)
  | _ => Fail (Throw "INCOMPATIBLE_TYPE")
  end.

(** The constructor from [uint64_t]; for BIGINT it writes the member [boolean]. *)
Definition Value_uint64 (type : TypeId) (i : Z) : result Value :=
  match type with
  | BIGINT =>
      let b := swrap 8 i in
      Ok (MkValue (VBoolean b) (null_len (b =? PELOTON_BOOLEAN_NULL)) false type)
  | TIMESTAMP =>
      let b := uwrap 64 i in
      Ok (MkValue (VTimestamp b) (null_len (b =? PELOTON_TIMESTAMP_NULL)) false type)
  | _ => Fail (Throw "INCOMPATIBLE_TYPE")
  end.

Definition Value_double (type : TypeId) (d : double) : result Value :=
  match type with
  | DECIMAL =>
      Ok (MkValue (VDecimal d) (null_len (SFeqb d PELOTON_DECIMAL_NULL)) false type)
  | _ => Fail (Throw "INCOMPATIBLE_TYPE")
  end.

(** [Value(type, data, len, manage_data)]: [data] is the memory behind the
    pointer, [None] for [nullptr]; a managed value owns a copy of it. *)
Definition Value_varlen (type : TypeId) (data : option Buf) (n : Z) (manage_data : bool)
    : result Value :=
  match type with
  | VARCHAR =>
      match data with
      | None => Ok (MkValue (VVarlen None) PELOTON_VALUE_NULL false type)
      | Some bytes =>
          if manage_data then
            assert! (n <? PELOTON_VARCHAR_MAX_LEN) ;;
            let* copy := memread bytes 0 n in
            Ok (MkValue (VVarlen (Some copy)) n true type)
          else Ok (MkValue (VVarlen (Some bytes)) n false type)
      end
  | _ => Fail (Throw "INCOMPATIBLE_TYPE")
  end.

(** [Value(type, data)] of a [std::string]: its bytes and the final zero. *)
Definition Value_string (type : TypeId) (data : Buf) : result Value :=
  match type with
  | VARCHAR =>
      let n := uwrap 32 (Z.of_nat (length data) + 1) in
      let* copy := memread (data ++ [0]) 0 n in
      Ok (MkValue (VVarlen (Some copy)) n true type)
  | _ => Fail (Throw "INCOMPATIBLE_TYPE")
  end.

(** [Value(const Value &)]. *)
Definition Value_copy (other : Value) : result Value :=
  match type_id_ other with
  | VARCHAR =>
      if len other =? PELOTON_VALUE_NULL then
        Ok (MkValue (VVarlen None) (len other) (manage_data_ other) (type_id_ other))
      else if manage_data_ other then
        match value_ other with
        | VVarlen (Some bytes) =>
            let* copy := memread bytes 0 (len other) in
            Ok (MkValue (VVarlen (Some copy)) (len other) (manage_data_ other) (type_id_ other))
        | _ => Fail MemFault
        end
      else Ok other
  | _ => Ok other
  end.

(** [GetAs<T>] and the members read by name: the member last written. *)
Definition GetAs (T : CType) (v : Value) : result Z :=
  match T, value_ v with
  | int8_t, (VBoolean z | VTinyint z) => Ok z
  | int16_t, VSmallint z => Ok z
  | int32_t, VInteger z => Ok z
  | int64_t, VBigint z => Ok z
  | _, _ => Fail Undefined
  end.

Definition GetDouble (v : Value) : result double :=
  match value_ v with VDecimal d => Ok d | _ => Fail Undefined end.

Definition CheckComparable (this o : Value) : bool :=
  match type_id_ this with
  | BOOLEAN => match type_id_ o with BOOLEAN | VARCHAR => true | _ => false end
  | TINYINT | SMALLINT | INTEGER | BIGINT | DECIMAL =>
      match type_id_ o with
      | TINYINT | SMALLINT | INTEGER | BIGINT | DECIMAL | VARCHAR => true
      | _ => false
      end
  | VARCHAR => true
  | _ => false
  end.

Definition CheckInteger (this : Value) : bool :=
  match type_id_ this with TINYINT | SMALLINT | INTEGER | BIGINT => true | _ => false end.

(** ** The static functions of Type *)

Definition GetTypeSize (type_id : TypeId) : result Z :=
  match type_id with
  | BOOLEAN | TINYINT => Ok 1
  | SMALLINT => Ok 2
  | INTEGER => Ok 4
  | BIGINT | DECIMAL | TIMESTAMP => Ok 8
  | VARCHAR => Ok 0
  | INVALID => Fail (Throw "UNKNOWN_TYPE")
  end.

Definition IsCoercableFrom (this type_id : TypeId) : bool :=
  match this with
  | INVALID => false
  | BOOLEAN => true
  | TINYINT | SMALLINT | INTEGER | BIGINT | DECIMAL =>
      match type_id with
      | TINYINT | SMALLINT | INTEGER | BIGINT | DECIMAL | VARCHAR => true
      | _ => false
      end
  | TIMESTAMP => match type_id with VARCHAR | TIMESTAMP => true | _ => false end
  | VARCHAR =>
      match type_id with
      | BOOLEAN | TINYINT | SMALLINT | INTEGER | BIGINT | DECIMAL | TIMESTAMP | VARCHAR => true
      | _ => false
      end
  end.

Definition TypeIdToString (type_id : TypeId) : string :=
  match type_id with
  | INVALID => "INVALID"
  | BOOLEAN => "BOOLEAN"
  | TINYINT => "TINYINT"
  | SMALLINT => "SMALLINT"
  | INTEGER => "INTEGER"
  | BIGINT => "BIGINT"
  | DECIMAL => "DECIMAL"
  | TIMESTAMP => "TIMESTAMP"
  | VARCHAR => "VARCHAR"
  end.

Definition GetMinValue (type_id : TypeId) : result Value :=
  match type_id with
  | BOOLEAN => Value_int type_id 0
  | TINYINT => Value_int type_id (INT_MIN int8_t)
  | SMALLINT => Value_int type_id (INT_MIN int16_t)
  | INTEGER => Value_int type_id (INT_MIN int32_t)
  | BIGINT => Value_int type_id (INT_MIN int64_t)
  | DECIMAL => Value_double type_id PELOTON_DECIMAL_MIN
  | TIMESTAMP => Value_int type_id 0
  | VARCHAR => Value_string type_id []
  | INVALID => Fail (Throw "MISMATCH_TYPE")
  end.

Definition GetMaxValue (type_id : TypeId) : result Value :=
  match type_id with
  | BOOLEAN => Value_int type_id 1
  | TINYINT => Value_int type_id (INT_MAX int8_t)
  | SMALLINT => Value_int type_id (INT_MAX int16_t)
  | INTEGER => Value_int type_id (INT_MAX int32_t)
  | BIGINT => Value_int type_id (INT_MAX int64_t)
  | DECIMAL => Value_double type_id PELOTON_DECIMAL_MAX
  | TIMESTAMP => Value_uint64 type_id PELOTON_TIMESTAMP_MAX
  | VARCHAR => Value_varlen type_id None 0 false
  | INVALID => Fail (Throw "MISMATCH_TYPE")
  end.

(** ** Well-formed integer values *)

Definition type_of (T : CType) : TypeId :=
  match T with
  | int8_t => TINYINT | int16_t => SMALLINT | int32_t => INTEGER | int64_t => BIGINT
  end.

Definition member (T : CType) (z : Z) : Val :=
  match T with
  | int8_t => VTinyint z | int16_t => VSmallint z | int32_t => VInteger z | int64_t => VBigint z
  end.

(** The value of type [T] that holds [z]; NULL exactly for the sentinel. *)
Definition mk_int (T : CType) (z : Z) : Value :=
  MkValue (member T z) (null_len (z =? INT_NULL T)) false (type_of T).

(** The numbers a non-NULL value of type [T] can hold. *)
Definition int_range (T : CType) (z : Z) : Prop := INT_MIN T <= z <= INT_MAX T.

Global Instance int_range_dec T z : Decision (int_range T z).
Proof. unfold int_range. apply _. Defined.

Lemma width_pos T : 0 < width T.
Proof. destruct T; cbn; lia. Qed.

Lemma int_range_sint T z : int_range T z <-> in_sint (width T) z /\ z <> INT_NULL T.
Proof. unfold int_range, in_sint, INT_MIN, INT_MAX, INT_NULL. lia. Qed.

Lemma Value_int_mk T z : in_sint (width T) z -> Value_int (type_of T) z = Ok (mk_int T z).
Proof.
  intros Hz. pose proof (swrap_id (width T) z (width_pos T) Hz) as E.
  destruct T; cbn [width] in E; cbn [type_of Value_int]; rewrite E; reflexivity.
Qed.

Lemma GetAs_mk T z : GetAs T (mk_int T z) = Ok z.
Proof. by destruct T. Qed.

Lemma IsNull_mk T z : IsNull (mk_int T z) = (z =? INT_NULL T).
Proof. unfold IsNull, mk_int, null_len. cbn [len]. by destruct (z =? INT_NULL T). Qed.

Lemma IsNull_mk_range T z : int_range T z -> IsNull (mk_int T z) = false.
Proof. rewrite int_range_sint, IsNull_mk, Z.eqb_neq. tauto. Qed.

Lemma CheckInteger_mk T z : CheckInteger (mk_int T z) = true.
Proof. by destruct T. Qed.

Lemma CheckComparable_mk T1 x T2 y : CheckComparable (mk_int T1 x) (mk_int T2 y) = true.
Proof. by destruct T1, T2. Qed.

Lemma type_id_mk T z : type_id_ (mk_int T z) = type_of T.
Proof. reflexivity. Qed.

End SqlValue.
