(* ===== verification/TypeCast.v ===== *)
(** * Printing, copying and casting SQL values

    Module [TypeCast] models [ToString], [Copy] and [CastAs] of every class
    under [src/type], and the dispatch on the type id that [Value::ToString],
    [Value::Copy] and [Value::CastAs] make through the table [Type::kTypes].
    A prefix of a name is the class of the source. *)

From stdpp Require Import prelude list strings.
From Stdlib Require Import ZArith Lia SpecFloat.
From S2P Require Import Prelude CppStd SqlValue.

Local Open Scope Z_scope.

Module TypeCast.
Import CppStd.Double SqlValue.SqlValue.

(** ** ToString *)

Definition BooleanType_ToString (val : Value) : result Buf :=
  let* b := GetAs int8_t val in
  if b =? 1 then Ok (Text.lit "true")
  else if b =? 0 then Ok (Text.lit "false")
  else Ok (Text.lit "boolean_null").

Definition TinyintType_ToString (val : Value) : result Buf :=
  assert! CheckInteger val ;;
  if IsNull val then Ok (Text.lit "tinyint_null")
  else let* z := GetAs int8_t val in Ok (Text.to_string z).

Definition SmallintType_ToString (val : Value) : result Buf :=
  assert! CheckInteger val ;;
  match type_id_ val with
  | TINYINT =>
      if IsNull val then Ok (Text.lit "tinyint_null")
      else let* z := GetAs int8_t val in Ok (Text.to_string z)
  | SMALLINT =>
      if IsNull val then Ok (Text.lit "smallint_null")
      else let* z := GetAs int16_t val in Ok (Text.to_string z)
  | INTEGER =>
      if IsNull val then Ok (Text.lit "integer_null")
      else let* z := GetAs int32_t val in Ok (Text.to_string z)
  | BIGINT =>
      if IsNull val then Ok (Text.lit "bigint_null")
      else let* z := GetAs int64_t val in Ok (Text.to_string z)
  | _ => Fail (Throw "type error")
  end.

Definition IntegerType_ToString (val : Value) : result Buf :=
  assert! CheckInteger val ;;
  if IsNull val then Ok (Text.lit "integer_null")
  else let* z := GetAs int32_t val in Ok (Text.to_string z).

Definition BigintType_ToString (val : Value) : result Buf :=
  assert! CheckInteger val ;;
  if IsNull val then Ok (Text.lit "bigint_null")
  else let* z := GetAs int64_t val in Ok (Text.to_string z).

Definition DecimalType_ToString (val : Value) : result Buf :=
  if IsNull val then Ok (Text.lit "decimal_null")
  else let* d := GetDouble val in Ok (Double.to_string d).

(** The bytes behind the pointer [GetData()] returns, [None] for [nullptr]. *)
Definition VarlenType_GetData (val : Value) : result (option Buf) :=
  match value_ val with VVarlen p => Ok p | _ => Fail Undefined end.

Definition VarlenType_GetLength (val : Value) : Z := len val.

Definition VarlenType_ToString (val : Value) : result Buf :=
  let n := VarlenType_GetLength val in
  if IsNull val then Ok (Text.lit "varlen_null")
  else if n =? PELOTON_VARCHAR_MAX_LEN then Ok (Text.lit "varlen_max")
  else if n =? 0 then Ok []
  else let* p := VarlenType_GetData val in
       match p with
       | Some bytes => memread bytes 0 (n - 1)
       | None => Fail MemFault
       end.

(** [Type::GetInstance(type_id_)->ToString]: INVALID is the base class, whose
    methods throw; the table has no object for TIMESTAMP. *)
Definition ToString (val : Value) : result Buf :=
  match type_id_ val with
  | INVALID => Fail (Throw "NOT_IMPLEMENTED")
  | BOOLEAN => BooleanType_ToString val
  | TINYINT => TinyintType_ToString val
  | SMALLINT => SmallintType_ToString val
  | INTEGER => IntegerType_ToString val
  | BIGINT => BigintType_ToString val
  | DECIMAL => DecimalType_ToString val
  | VARCHAR => VarlenType_ToString val
  | TIMESTAMP => Fail Undefined
  end.

(** ** Copy *)

Definition BooleanType_Copy (val : Value) : result Value :=
  let* b := GetAs int8_t val in Value_int BOOLEAN b.

Definition TinyintType_Copy (val : Value) : result Value :=
  assert! CheckInteger val ;;
  let* z := GetAs int8_t val in Value_int TINYINT z.

Definition SmallintType_Copy (val : Value) : result Value :=
  assert! CheckInteger val ;;
  let* z := GetAs int16_t val in Value_int SMALLINT z.

Definition IntegerType_Copy (val : Value) : result Value :=
  assert! CheckInteger val ;;
  let* z := GetAs int32_t val in Value_int (type_id_ val) z.

Definition BigintType_Copy (val : Value) : result Value :=
  let* z := GetAs int64_t val in Value_int BIGINT z.

Definition DecimalType_Copy (val : Value) : result Value :=
  let* d := GetDouble val in Value_double DECIMAL d.

Definition VarlenType_Copy (val : Value) : result Value := Value_copy val.

Definition Copy (val : Value) : result Value :=
  match type_id_ val with
  | INVALID => Fail (Throw "NOT_IMPLEMENTED")
  | BOOLEAN => BooleanType_Copy val
  | TINYINT => TinyintType_Copy val
  | SMALLINT => SmallintType_Copy val
  | INTEGER => IntegerType_Copy val
  | BIGINT => BigintType_Copy val
  | DECIMAL => DecimalType_Copy val
  | VARCHAR => VarlenType_Copy val
  | TIMESTAMP => Fail Undefined
  end.

(** ** CastAs *)

Definition not_coercable (what : string) (type_id : TypeId) : result Value :=
  Fail (Throw (what +:+ " is not coercable to " +:+ TypeIdToString type_id)).

(** The test of the narrowing casts, for the destination type [T]. *)
Definition out_of_range (T : CType) (z : Z) : bool :=
  (INT_MAX T <? z) || (z <? INT_MIN T).

Definition narrow (T : CType) (type_id : TypeId) (z : Z) : result Value :=
  if out_of_range T z then Fail (Throw "OUT_OF_RANGE")
  else Value_int type_id (swrap (width T) z).

(** The branch to VARCHAR that every class but VarlenType has. *)
Definition cast_varchar (val : Value) : result Value :=
  if IsNull val then Value_varlen VARCHAR None 0 false
  else let* s := ToString val in Value_string VARCHAR s.

Definition BooleanType_CastAs (val : Value) (type_id : TypeId) : result Value :=
  match type_id with
  | BOOLEAN => BooleanType_Copy val
  | VARCHAR => cast_varchar val
  | _ => not_coercable "BOOLEAN" type_id
  end.

Definition TinyintType_CastAs (val : Value) (type_id : TypeId) : result Value :=
  match type_id with
  | TINYINT =>
      if IsNull val then Value_int type_id (INT_NULL int8_t) else TinyintType_Copy val
  | SMALLINT =>
      if IsNull val then Value_int type_id (INT_NULL int16_t)
      else let* z := GetAs int8_t val in Value_int type_id z
  | INTEGER =>
      if IsNull val then Value_int type_id (INT_NULL int32_t)
      else let* z := GetAs int8_t val in Value_int type_id z
  | BIGINT =>
      if IsNull val then Value_int type_id (INT_NULL int64_t)
      else let* z := GetAs int8_t val in Value_int type_id z
  | DECIMAL =>
      if IsNull val then Value_double type_id PELOTON_DECIMAL_NULL
      else let* z := GetAs int8_t val in Value_double type_id (of_Z z)
  | VARCHAR => cast_varchar val
  | _ => not_coercable "tinyint" type_id
  end.

Definition SmallintType_CastAs (val : Value) (type_id : TypeId) : result Value :=
  match type_id with
  | TINYINT =>
      if IsNull val then Value_int type_id (INT_NULL int8_t)
      else let* z := GetAs int16_t val in narrow int8_t type_id z
  | SMALLINT =>
      if IsNull val then Value_int type_id (INT_NULL int16_t) else SmallintType_Copy val
  | INTEGER =>
      if IsNull val then Value_int type_id (INT_NULL int32_t)
      else let* z := GetAs int16_t val in Value_int type_id z
  | BIGINT =>
      if IsNull val then Value_int type_id (INT_NULL int64_t)
      else let* z := GetAs int16_t val in Value_int type_id z
  | DECIMAL =>
      if IsNull val then Value_double type_id PELOTON_DECIMAL_NULL
      else let* z := GetAs int16_t val in Value_double type_id (of_Z z)
  | VARCHAR => cast_varchar val
  | _ => not_coercable "smallint" type_id
  end.

Definition IntegerType_CastAs (val : Value) (type_id : TypeId) : result Value :=
  match type_id with
  | TINYINT =>
      if IsNull val then Value_int type_id (INT_NULL int8_t)
      else let* z := GetAs int32_t val in narrow int8_t type_id z
  | SMALLINT =>
      if IsNull val then Value_int type_id (INT_NULL int16_t)
      else let* z := GetAs int32_t val in narrow int16_t type_id z
  | INTEGER =>
      if IsNull val then Value_int type_id (INT_NULL int32_t)
      else let* z := GetAs int32_t val in Value_int type_id z
  | BIGINT =>
      if IsNull val then Value_int type_id (INT_NULL int64_t)
      else let* z := GetAs int32_t val in Value_int type_id z
  | DECIMAL =>
      if IsNull val then Value_double type_id PELOTON_DECIMAL_NULL
      else let* z := GetAs int32_t val in Value_double type_id (of_Z z)
  | VARCHAR => cast_varchar val
  | _ => not_coercable "Integer" type_id
  end.

Definition BigintType_CastAs (val : Value) (type_id : TypeId) : result Value :=
  match type_id with
  | TINYINT =>
      if IsNull val then Value_int type_id (INT_NULL int8_t)
      else let* z := GetAs int64_t val in narrow int8_t type_id z
  | SMALLINT =>
      if IsNull val then Value_int type_id (INT_NULL int16_t)
      else let* z := GetAs int64_t val in narrow int16_t type_id z
  | INTEGER =>
      if IsNull val then Value_int type_id (INT_NULL int32_t)
      else let* z := GetAs int64_t val in narrow int32_t type_id z
  | BIGINT =>
      if IsNull val then Value_int type_id (INT_NULL int64_t) else BigintType_Copy val
  | DECIMAL =>
      if IsNull val then Value_double type_id PELOTON_DECIMAL_NULL
      else let* z := GetAs int64_t val in Value_double type_id (of_Z z)
  | VARCHAR => cast_varchar val
  | _ => not_coercable "bigint" type_id
  end.

(** The test of the casts from DECIMAL, made between doubles. *)
Definition decimal_out_of_range (T : CType) (d : double) : bool :=
  SFltb (of_Z (INT_MAX T)) d || SFltb d (of_Z (INT_MIN T)).

Definition decimal_narrow (T : CType) (type_id : TypeId) (d : double) : result Value :=
  if decimal_out_of_range T d then Fail (Throw "OUT_OF_RANGE")
  else let* z := to_int (width T) d in Value_int type_id z.

Definition DecimalType_CastAs (val : Value) (type_id : TypeId) : result Value :=
  match type_id with
  | TINYINT =>
      if IsNull val then Value_int type_id (INT_NULL int8_t)
      else let* d := GetDouble val in decimal_narrow int8_t type_id d
  | SMALLINT =>
      if IsNull val then Value_int type_id (INT_NULL int16_t)
      else let* d := GetDouble val in decimal_narrow int16_t type_id d
  | INTEGER =>
      if IsNull val then Value_int type_id (INT_NULL int32_t)
      else let* d := GetDouble val in decimal_narrow int32_t type_id d
  | BIGINT =>
      if IsNull val then Value_int type_id (INT_NULL int64_t)
      else let* d := GetDouble val in decimal_narrow int64_t type_id d
  | DECIMAL => Copy val
  | VARCHAR => cast_varchar val
  | _ => not_coercable "DECIMAL" type_id
  end.

(** [catch (std::out_of_range &e) { throw Exception(OUT_OF_RANGE) }]. *)
Definition catch_range {A} (m : result A) : result A :=
  match m with
  | Fail e => Fail (if decide (e = Throw "std::out_of_range") then Throw "OUT_OF_RANGE" else e)
  | Ok a => Ok a
  end.

Definition VarlenType_CastAs (value : Value) (type_id : TypeId) : result Value :=
  match type_id with
  | BOOLEAN =>
      let* str := ToString value in
      let str := map Text.tolower str in
      if bool_decide (str = Text.lit "true" \/ str = Text.lit "1" \/ str = Text.lit "t")
      then Value_int type_id 1
      else if bool_decide (str = Text.lit "false" \/ str = Text.lit "0" \/ str = Text.lit "f")
      then Value_int type_id 0
      else Fail (Throw "Boolean value format error.")
  | TINYINT =>
      let* str := ToString value in
      let* i := catch_range (Text.stoi str) in
      let tinyint := swrap 8 i in
      if tinyint <? INT_MIN int8_t then Fail (Throw "OUT_OF_RANGE")
      else Value_int type_id tinyint
  | SMALLINT =>
      let* str := ToString value in
      let* i := catch_range (Text.stoi str) in
      let smallint := swrap 16 i in
      if smallint <? INT_MIN int16_t then Fail (Throw "OUT_OF_RANGE")
      else Value_int type_id smallint
  | INTEGER =>
      let* str := ToString value in
      let* integer := catch_range (Text.stoi str) in
      if (INT_MAX int32_t <? integer) || (integer <? INT_MIN int32_t)
      then Fail (Throw "OUT_OF_RANGE") else Value_int type_id integer
  | BIGINT =>
      let* str := ToString value in
      let* bigint := catch_range (Text.stoll str) in
      if (INT_MAX int64_t <? bigint) || (bigint <? INT_MIN int64_t)
      then Fail (Throw "OUT_OF_RANGE") else Value_int type_id bigint
  | DECIMAL =>
      let* str := ToString value in
      let* res := catch_range (stod str) in
      if SFltb PELOTON_DECIMAL_MAX res || SFltb res PELOTON_DECIMAL_MIN
      then Fail (Throw "OUT_OF_RANGE") else Value_double type_id res
  | VARCHAR => Copy value
  | _ => not_coercable "VARCHAR" type_id
  end.

Definition CastAs (val : Value) (type_id : TypeId) : result Value :=
  match type_id_ val with
  | INVALID => Fail (Throw "NOT_IMPLEMENTED")
  | BOOLEAN => BooleanType_CastAs val type_id
  | TINYINT => TinyintType_CastAs val type_id
  | SMALLINT => SmallintType_CastAs val type_id
  | INTEGER => IntegerType_CastAs val type_id
  | BIGINT => BigintType_CastAs val type_id
  | DECIMAL => DecimalType_CastAs val type_id
  | VARCHAR => VarlenType_CastAs val type_id
  | TIMESTAMP => Fail Undefined
  end.

(** ** Casts between integer types *)

Definition cast_spec (T2 : CType) (null : bool) (z : Z) : result Value :=
  if null then Ok (mk_int T2 (INT_NULL T2))
  else if decide (int_range T2 z) then Ok (mk_int T2 z) else Fail (Throw "OUT_OF_RANGE").

Lemma Value_int_null T : Value_int (type_of T) (INT_NULL T) = Ok (mk_int T (INT_NULL T)).
Proof. destruct T; reflexivity. Qed.

Lemma Value_int_range T z : int_range T z -> Value_int (type_of T) z = Ok (mk_int T z).
Proof. intros Hz. apply Value_int_mk, int_range_sint, Hz. Qed.

Lemma narrow_spec T z : narrow T (type_of T) z = cast_spec T false z.
Proof.
  unfold narrow, cast_spec. case_decide as Hr.
  - assert (E : out_of_range T z = false).
    { unfold out_of_range. unfold int_range in Hr. apply orb_false_iff.
      rewrite !Z.ltb_ge. lia. }
    pose proof (proj1 (int_range_sint T z) Hr) as [Hs _].
    rewrite E, swrap_id by eauto using width_pos. by apply Value_int_mk.
  - assert (E : out_of_range T z = true).
    { unfold out_of_range. unfold int_range in Hr. apply orb_true_iff.
      rewrite !Z.ltb_lt. lia. }
    by rewrite E.
Qed.

Lemma wide_spec T z : int_range T z -> Value_int (type_of T) z = cast_spec T false z.
Proof.
  intros Hr. unfold cast_spec. case_decide; [by apply Value_int_range | done].
Qed.

Lemma int_range_mono T1 T2 z :
  width T1 <= width T2 -> int_range T1 z -> int_range T2 z.
Proof.
  intros Hw. unfold int_range, INT_MIN, INT_MAX.
  pose proof (Z.pow_le_mono_r 2 (width T1 - 1) (width T2 - 1)). lia.
Qed.

Lemma copy_int_spec T z : in_sint (width T) z -> Copy (mk_int T z) = Ok (mk_int T z).
Proof. intros Hz. rewrite <- (Value_int_mk T z Hz). by destruct T. Qed.

(** C34: casting an integer value to an integer type gives NULL for NULL, the
    same number when the destination type can hold it, and an out-of-range
    exception otherwise. *)
Theorem cast_int_exact (T1 T2 : CType) (z : Z) (Hz : in_sint (width T1) z) :
  CastAs (mk_int T1 z) (type_of T2) = cast_spec T2 (z =? INT_NULL T1) z.
Proof.
  destruct (z =? INT_NULL T1) eqn:E.
  - destruct T1, T2; unfold CastAs; cbn [type_id_ mk_int type_of];
      cbn [TinyintType_CastAs SmallintType_CastAs IntegerType_CastAs BigintType_CastAs];
      rewrite IsNull_mk, E; reflexivity.
  - assert (Hr : int_range T1 z) by (rewrite int_range_sint; zify_bool; tauto).
    pose proof (copy_int_spec T1 z Hz) as Hc.
    destruct T1, T2; unfold CastAs; cbn [type_id_ mk_int type_of];
      cbn [TinyintType_CastAs SmallintType_CastAs IntegerType_CastAs BigintType_CastAs];
      rewrite IsNull_mk, E; rewrite ?GetAs_mk, ?bind_ok; cbn iota;
      first
        [ apply narrow_spec
        | etransitivity; [exact Hc|]; unfold cast_spec; by rewrite decide_True
        | first [apply (wide_spec int16_t) | apply (wide_spec int32_t)
                | apply (wide_spec int64_t)];
          eapply int_range_mono; [|exact Hr]; cbn; lia ].
Qed.

Lemma cast_int_exact_witness :
  CastAs (mk_int int32_t 70000) SMALLINT = Fail (Throw "OUT_OF_RANGE") /\
  CastAs (mk_int int64_t (-5)) TINYINT = Ok (mk_int int8_t (-5)).
Proof.
  split; [apply (cast_int_exact int32_t int16_t 70000)
         | apply (cast_int_exact int64_t int8_t (-5))]; by_computation.
Defined.

(** ** Casts through VARCHAR *)

(** The VARCHAR value of a string. *)
Definition mk_varchar (s : Buf) : Value :=
  MkValue (VVarlen (Some (s ++ [0]))) (Z.of_nat (length s) + 1) true VARCHAR.

Lemma Value_string_mk s :
  Z.of_nat (length s) + 1 < PELOTON_VARCHAR_MAX_LEN ->
  Value_string VARCHAR s = Ok (mk_varchar s).
Proof.
  unfold PELOTON_VARCHAR_MAX_LEN. intros Hs. unfold Value_string, uwrap.
  rewrite Z.mod_small, memread_ok by (rewrite ?length_app; simpl length; lia).
  unfold result_bind, slice, mk_varchar. rewrite drop_0, take_ge; [done|].
  rewrite length_app. simpl length. lia.
Qed.

Lemma mk_varchar_ToString s :
  Z.of_nat (length s) + 1 < PELOTON_VARCHAR_MAX_LEN -> ToString (mk_varchar s) = Ok s.
Proof.
  unfold PELOTON_VARCHAR_MAX_LEN. intros Hs.
  unfold ToString. cbn [type_id_ mk_varchar]. unfold VarlenType_ToString, IsNull.
  cbn [VarlenType_GetLength mk_varchar len]. unfold VarlenType_GetLength.
  cbn [mk_varchar len].
  unfold PELOTON_VALUE_NULL, PELOTON_VARCHAR_MAX_LEN.
  rewrite (proj2 (Z.eqb_neq _ (2 ^ 32 - 1))), (proj2 (Z.eqb_neq _ 0)) by lia.
  cbn [VarlenType_GetData value_ mk_varchar result_bind].
  rewrite memread_ok by (rewrite ?length_app; simpl length; lia).
  f_equal. unfold slice. rewrite drop_0, take_app_le by lia. apply take_ge. lia.
Qed.

Lemma length_digits f n acc : (length (Text.digits f n acc) <= f + length acc)%nat.
Proof.
  revert n acc. induction f as [|f IH]; intros n acc; cbn [Text.digits]; [lia|].
  destruct (n <? 10); [simpl; lia|].
  etransitivity; [apply IH|]. simpl. lia.
Qed.

Lemma length_to_string z : (length (Text.to_string z) <= 21)%nat.
Proof.
  unfold Text.to_string. destruct (z <? 0); cbn [length];
    [pose proof (length_digits 20 (- z) []) | pose proof (length_digits 20 z [])];
    cbn [length] in *; lia.
Qed.

Lemma to_string_fits z : Z.of_nat (length (Text.to_string z)) + 1 < PELOTON_VARCHAR_MAX_LEN.
Proof. pose proof (length_to_string z). unfold PELOTON_VARCHAR_MAX_LEN. lia. Qed.

Lemma int_ToString T z : int_range T z -> ToString (mk_int T z) = Ok (Text.to_string z).
Proof.
  intros Hr. pose proof (IsNull_mk_range T z Hr) as Hn. destruct T; unfold ToString;
    cbn [type_id_ mk_int type_of];
    unfold TinyintType_ToString, SmallintType_ToString, IntegerType_ToString,
      BigintType_ToString; rewrite CheckInteger_mk, assert_true;
    cbn [type_id_ mk_int type_of]; rewrite Hn, GetAs_mk; reflexivity.
Qed.

Lemma cast_int_varchar T z :
  int_range T z -> CastAs (mk_int T z) VARCHAR = Ok (mk_varchar (Text.to_string z)).
Proof.
  intros Hr. transitivity (cast_varchar (mk_int T z)); [by destruct T|].
  unfold cast_varchar. rewrite IsNull_mk_range, int_ToString by done.
  cbn [result_bind]. apply Value_string_mk, to_string_fits.
Qed.

Lemma sto_range T z : int_range T z -> Text.sto (width T) (Text.to_string z) = Ok z.
Proof.
  intros Hr. apply Text.sto_to_string.
  - by apply int_range_sint.
  - unfold int_range, INT_MIN, INT_MAX in Hr. destruct T; cbn in Hr; lia.
Qed.

Lemma out_of_range_false T z :
  int_range T z -> (INT_MAX T <? z) || (z <? INT_MIN T) = false.
Proof. intros []. apply orb_false_iff. rewrite !Z.ltb_ge. lia. Qed.

(** The casts of the decimal notation of a 32-bit number to the two narrow types. *)
Lemma varchar_narrow T z :
  T = int8_t \/ T = int16_t -> in_sint 32 z ->
  CastAs (mk_varchar (Text.to_string z)) (type_of T) =
  if swrap (width T) z <? INT_MIN T then Fail (Throw "OUT_OF_RANGE")
  else Value_int (type_of T) (swrap (width T) z).
Proof.
  intros HT Hz.
  assert (E : Text.stoi (Text.to_string z) = Ok z).
  { apply Text.sto_to_string; [done|]. unfold in_sint in Hz. lia. }
  destruct HT as [-> | ->]; unfold CastAs; cbn [type_id_ mk_varchar type_of];
    unfold VarlenType_CastAs; rewrite mk_varchar_ToString by apply to_string_fits;
    cbn [result_bind]; rewrite E; reflexivity.
Qed.

Lemma varchar_cast_back T z :
  int_range T z -> CastAs (mk_varchar (Text.to_string z)) (type_of T) = Ok (mk_int T z).
Proof.
  intros Hz.
  assert (Hn : forall T, T = int8_t \/ T = int16_t -> int_range T z ->
            CastAs (mk_varchar (Text.to_string z)) (type_of T) = Ok (mk_int T z)).
  { intros U HU Hr. pose proof (proj1 (int_range_sint U z) Hr) as [Hs _].
    assert (in_sint 32 z).
    { unfold int_range, INT_MIN, INT_MAX, in_sint in *. destruct HU; subst U; cbn in *; lia. }
    rewrite varchar_narrow, swrap_id by eauto using width_pos.
    rewrite (proj2 (Z.ltb_ge _ _)) by (unfold int_range in Hr; lia).
    by apply Value_int_range. }
  destruct T; [by apply Hn; auto | by apply Hn; auto |..]; unfold CastAs;
    cbn [type_id_ mk_varchar type_of]; unfold VarlenType_CastAs;
    rewrite mk_varchar_ToString by apply to_string_fits; cbn [result_bind].
  - change (Text.stoi (Text.to_string z)) with
      (Text.sto (width int32_t) (Text.to_string z)).
    rewrite sto_range by done. cbn [catch_range result_bind].
    rewrite out_of_range_false by done. by apply (Value_int_range int32_t).
  - change (Text.stoll (Text.to_string z)) with
      (Text.sto (width int64_t) (Text.to_string z)).
    rewrite sto_range by done. cbn [catch_range result_bind].
    rewrite out_of_range_false by done. by apply (Value_int_range int64_t).
Qed.

(** Every non-NULL integer value is unchanged by a cast to VARCHAR and
    back to its own type. *)
Theorem cast_varchar_roundtrip (T : CType) (z : Z) (Hz : int_range T z) :
  (let* s := CastAs (mk_int T z) VARCHAR in CastAs s (type_of T)) = Ok (mk_int T z).
Proof.
  rewrite cast_int_varchar by done. cbn [result_bind]. by apply varchar_cast_back.
Qed.

Lemma cast_varchar_roundtrip_witness :
  (let* s := CastAs (mk_int int64_t (-9223372036854775807)) VARCHAR in CastAs s BIGINT)
  = Ok (mk_int int64_t (-9223372036854775807)).
Proof. apply (cast_varchar_roundtrip int64_t). by_computation. Defined.

(** A VARCHAR that writes a 32-bit number is cast to TINYINT and SMALLINT
    by wrap-around: a number above the range is no error, only a number that
    wraps to the NULL sentinel is. *)
Theorem cast_varchar_wraps (T : CType) (z : Z)
    (HT : T = int8_t \/ T = int16_t) (Hz : int_range int32_t z) :
  (let* s := CastAs (mk_int int32_t z) VARCHAR in CastAs s (type_of T)) =
  if swrap (width T) z =? INT_NULL T then Fail (Throw "OUT_OF_RANGE")
  else Ok (mk_int T (swrap (width T) z)).
Proof.
  rewrite cast_int_varchar by done.
  pose proof (proj1 (int_range_sint _ _) Hz) as [Hz' _].
  cbn [result_bind]. rewrite varchar_narrow by done.
  pose proof (swrap_range (width T) z (width_pos T)) as Hs.
  destruct (swrap (width T) z =? INT_NULL T) eqn:Es; zify_bool.
  - rewrite (proj2 (Z.ltb_lt _ _)); [done|]. rewrite Es. unfold INT_MIN, INT_NULL. lia.
  - rewrite (proj2 (Z.ltb_ge _ _)) by (unfold in_sint, INT_MIN, INT_NULL in *; lia).
    by apply Value_int_mk.
Qed.

Lemma cast_varchar_wraps_witness :
  (let* s := CastAs (mk_int int32_t 300) VARCHAR in CastAs s TINYINT) = Ok (mk_int int8_t 44).
Proof. apply (cast_varchar_wraps int8_t 300); [auto | by_computation]. Defined.

(** A NULL VARCHAR has no NULL cast: its text is parsed. *)
Example null_varchar_casts :
  (let* s := CastAs (mk_int int32_t (INT_NULL int32_t)) VARCHAR in CastAs s INTEGER)
  = Fail (Throw "std::invalid_argument") /\
  (let* s := CastAs (mk_int int32_t (INT_NULL int32_t)) VARCHAR in CastAs s BOOLEAN)
  = Fail (Throw "Boolean value format error.").
Proof. split; vm_compute; reflexivity. Qed.

End TypeCast.
