(* ===== verification/TypeCompare.v ===== *)
(** * Comparing SQL values

    Module [TypeCompare] models the six comparisons of every class under
    [src/type] (the macros TINYINT_COMPARE_FUNC and so on with the operator as
    an argument), [TypeUtil::CompareStrings], and the dispatch of
    [Value::CompareEquals] and its companions.  The theorems give the
    comparisons of integers, of strings, and of an integer with a string. *)

From stdpp Require Import prelude list strings.
From Stdlib Require Import ZArith Lia SpecFloat.
From S2P Require Import Prelude CppStd SqlValue TypeCast.

Local Open Scope Z_scope.

Module TypeCompare.
Import CppStd.Double SqlValue.SqlValue TypeCast.TypeCast.

(** The comparison operator a macro is expanded with. *)
Inductive CmpOp := EQ | NE | LT | LE | GT | GE.

Definition cmpZ (op : CmpOp) (x y : Z) : bool :=
  match op with
  | EQ => x =? y | NE => negb (x =? y)
  | LT => x <? y | LE => x <=? y | GT => y <? x | GE => y <=? x
  end.

Definition cmpD (op : CmpOp) (x y : double) : bool :=
  match op with
  | EQ => SFeqb x y | NE => negb (SFeqb x y)
  | LT => SFltb x y | LE => SFleb x y | GT => SFltb y x | GE => SFleb y x
  end.

(** [left.value_ OP right.GetAs<T2>()] for a member of type [T1], with
    integers, and with a double on one side. *)
Definition compare_ints (op : CmpOp) (T1 T2 : CType) (left right : Value) : result CmpBool :=
  let* x := GetAs T1 left in
  let* y := GetAs T2 right in
  Ok (GetCmpBool (cmpZ op x y)).

Definition compare_int_double (op : CmpOp) (T1 : CType) (left right : Value) : result CmpBool :=
  let* x := GetAs T1 left in
  let* y := GetDouble right in
  Ok (GetCmpBool (cmpD op (of_Z x) y)).

Definition compare_double_int (op : CmpOp) (T2 : CType) (left right : Value) : result CmpBool :=
  let* x := GetDouble left in
  let* y := GetAs T2 right in
  Ok (GetCmpBool (cmpD op x (of_Z y))).

Definition compare_doubles (op : CmpOp) (left right : Value) : result CmpBool :=
  let* x := GetDouble left in
  let* y := GetDouble right in
  Ok (GetCmpBool (cmpD op x y)).


(** ** TinyintType *)

Definition TINYINT_COMPARE_FUNC (op : CmpOp) (left right : Value) : result CmpBool :=
  match type_id_ right with
  | TINYINT => compare_ints op int8_t int8_t left right
  | SMALLINT => compare_ints op int8_t int16_t left right
  | INTEGER => compare_ints op int8_t int32_t left right
  | BIGINT => compare_ints op int8_t int64_t left right
  | DECIMAL => compare_int_double op int8_t left right
  | VARCHAR =>
      let* r_value := CastAs right TINYINT in
      compare_ints op int8_t int8_t left r_value
  | _ => Fail (Throw "type error")
  end.

Definition TinyintType_CompareEquals (left right : Value) : result CmpBool :=
  assert! CheckInteger left ;;
  assert! CheckComparable left right ;;
  if IsNull left || IsNull right then Ok CMP_NULL
  else TINYINT_COMPARE_FUNC EQ left right.

Definition TinyintType_CompareNotEquals (left right : Value) : result CmpBool :=
  assert! CheckInteger left ;;
  assert! CheckComparable left right ;;
  if IsNull left || IsNull right then Ok CMP_NULL
  else TINYINT_COMPARE_FUNC NE left right.

Definition TinyintType_CompareLessThan (left right : Value) : result CmpBool :=
  assert! CheckInteger left ;;
  assert! CheckComparable left right ;;
  if IsNull left || IsNull right then Ok CMP_NULL
  else TINYINT_COMPARE_FUNC LT left right.

Definition TinyintType_CompareLessThanEquals (left right : Value) : result CmpBool :=
  assert! CheckInteger left ;;
  assert! CheckComparable left right ;;
  if IsNull left || IsNull right then Ok CMP_NULL
  else TINYINT_COMPARE_FUNC LE left right.

Definition TinyintType_CompareGreaterThan (left right : Value) : result CmpBool :=
  assert! CheckInteger left ;;
  assert! CheckComparable left right ;;
  if IsNull left || IsNull right then Ok CMP_NULL
  else TINYINT_COMPARE_FUNC GT left right.

Definition TinyintType_CompareGreaterThanEquals (left right : Value) : result CmpBool :=
  assert! CheckInteger left ;;
  assert! CheckComparable left right ;;
  if IsNull left || IsNull right then Ok CMP_NULL
  else TINYINT_COMPARE_FUNC GE left right.

(** ** SmallintType *)

Definition SMALLINT_COMPARE_FUNC (op : CmpOp) (left right : Value) : result CmpBool :=
  match type_id_ right with
  | TINYINT => compare_ints op int16_t int8_t left right
  | SMALLINT => compare_ints op int16_t int16_t left right
  | INTEGER => compare_ints op int16_t int32_t left right
  | BIGINT => compare_ints op int16_t int64_t left right
  | DECIMAL => compare_int_double op int16_t left right
  | VARCHAR =>
      let* r_value := CastAs right SMALLINT in
      compare_ints op int16_t int16_t left r_value
  | _ => Fail (Throw "type error")
  end.

Definition SmallintType_CompareEquals (left right : Value) : result CmpBool :=
  assert! CheckInteger left ;;
  assert! CheckComparable left right ;;
  if IsNull left || IsNull right then Ok CMP_NULL
  else SMALLINT_COMPARE_FUNC EQ left right.

Definition SmallintType_CompareNotEquals (left right : Value) : result CmpBool :=
  assert! CheckInteger left ;;
  assert! CheckComparable left right ;;
  if IsNull left || IsNull right then Ok CMP_NULL
  else SMALLINT_COMPARE_FUNC NE left right.

Definition SmallintType_CompareLessThan (left right : Value) : result CmpBool :=
  assert! CheckInteger left ;;
  assert! CheckComparable left right ;;
  if IsNull left || IsNull right then Ok CMP_NULL
  else SMALLINT_COMPARE_FUNC LT left right.

Definition SmallintType_CompareLessThanEquals (left right : Value) : result CmpBool :=
  assert! CheckInteger left ;;
  assert! CheckComparable left right ;;
  if IsNull left || IsNull right then Ok CMP_NULL
  else SMALLINT_COMPARE_FUNC LE left right.

Definition SmallintType_CompareGreaterThan (left right : Value) : result CmpBool :=
  assert! CheckInteger left ;;
  assert! CheckComparable left right ;;
  if IsNull left || IsNull right then Ok CMP_NULL
  else SMALLINT_COMPARE_FUNC GT left right.

Definition SmallintType_CompareGreaterThanEquals (left right : Value) : result CmpBool :=
  assert! CheckInteger left ;;
  assert! CheckComparable left right ;;
  if IsNull left || IsNull right then Ok CMP_NULL
  else SMALLINT_COMPARE_FUNC GE left right.

(** ** IntegerType *)

Definition INT_COMPARE_FUNC (op : CmpOp) (left right : Value) : result CmpBool :=
  match type_id_ right with
  | TINYINT => compare_ints op int32_t int8_t left right
  | SMALLINT => compare_ints op int32_t int16_t left right
  | INTEGER => compare_ints op int32_t int32_t left right
  | BIGINT => compare_ints op int32_t int64_t left right
  | DECIMAL => compare_int_double op int32_t left right
  | VARCHAR =>
      let* r_value := CastAs right INTEGER in
      compare_ints op int32_t int32_t left r_value
  | _ => Fail (Throw "type error")
  end.

Definition IntegerType_CompareEquals (left right : Value) : result CmpBool :=
  assert! CheckInteger left ;;
  assert! CheckComparable left right ;;
  if IsNull left || IsNull right then Ok CMP_NULL
  else INT_COMPARE_FUNC EQ left right.

Definition IntegerType_CompareNotEquals (left right : Value) : result CmpBool :=
  assert! CheckInteger left ;;
  assert! CheckComparable left right ;;
  if IsNull left || IsNull right then Ok CMP_NULL
  else INT_COMPARE_FUNC NE left right.

Definition IntegerType_CompareLessThan (left right : Value) : result CmpBool :=
  assert! CheckInteger left ;;
  assert! CheckComparable left right ;;
  if IsNull left || IsNull right then Ok CMP_NULL
  else INT_COMPARE_FUNC LT left right.

Definition IntegerType_CompareLessThanEquals (left right : Value) : result CmpBool :=
  assert! CheckInteger left ;;
  assert! CheckComparable left right ;;
  if IsNull left || IsNull right then Ok CMP_NULL
  else INT_COMPARE_FUNC LE left right.

Definition IntegerType_CompareGreaterThan (left right : Value) : result CmpBool :=
  assert! CheckInteger left ;;
  assert! CheckComparable left right ;;
  if IsNull left || IsNull right then Ok CMP_NULL
  else INT_COMPARE_FUNC GT left right.

Definition IntegerType_CompareGreaterThanEquals (left right : Value) : result CmpBool :=
  assert! CheckInteger left ;;
  assert! CheckComparable left right ;;
  if IsNull left || IsNull right then Ok CMP_NULL
  else INT_COMPARE_FUNC GE left right.

(** ** BigintType *)

Definition BIGINT_COMPARE_FUNC (op : CmpOp) (left right : Value) : result CmpBool :=
  match type_id_ right with
  | TINYINT => compare_ints op int64_t int8_t left right
  | SMALLINT => compare_ints op int64_t int16_t left right
  | INTEGER => compare_ints op int64_t int32_t left right
  | BIGINT => compare_ints op int64_t int64_t left right
  | DECIMAL => compare_int_double op int64_t left right
  | VARCHAR =>
      let* r_value := CastAs right BIGINT in
      compare_ints op int64_t int64_t left r_value
  | _ => Fail (Throw "type error")
  end.

Definition BigintType_CompareEquals (left right : Value) : result CmpBool :=
  assert! CheckInteger left ;;
  assert! CheckComparable left right ;;
  if IsNull left || IsNull right then Ok CMP_NULL
  else BIGINT_COMPARE_FUNC EQ left right.

Definition BigintType_CompareNotEquals (left right : Value) : result CmpBool :=
  assert! CheckInteger left ;;
  assert! CheckComparable left right ;;
  if IsNull left || IsNull right then Ok CMP_NULL
  else BIGINT_COMPARE_FUNC NE left right.

Definition BigintType_CompareLessThan (left right : Value) : result CmpBool :=
  assert! CheckInteger left ;;
  assert! CheckComparable left right ;;
  if IsNull left || IsNull right then Ok CMP_NULL
  else BIGINT_COMPARE_FUNC LT left right.

Definition BigintType_CompareLessThanEquals (left right : Value) : result CmpBool :=
  assert! CheckInteger left ;;
  assert! CheckComparable left right ;;
  if IsNull left || IsNull right then Ok CMP_NULL
  else BIGINT_COMPARE_FUNC LE left right.

Definition BigintType_CompareGreaterThan (left right : Value) : result CmpBool :=
  assert! CheckInteger left ;;
  assert! CheckComparable left right ;;
  if IsNull left || IsNull right then Ok CMP_NULL
  else BIGINT_COMPARE_FUNC GT left right.

Definition BigintType_CompareGreaterThanEquals (left right : Value) : result CmpBool :=
  assert! CheckInteger left ;;
  assert! CheckComparable left right ;;
  if IsNull left || IsNull right then Ok CMP_NULL
  else BIGINT_COMPARE_FUNC GE left right.

(** ** DecimalType *)

Definition DECIMAL_COMPARE_FUNC (op : CmpOp) (left right : Value) : result CmpBool :=
  match type_id_ right with
  | TINYINT => compare_double_int op int8_t left right
  | SMALLINT => compare_double_int op int16_t left right
  | INTEGER => compare_double_int op int32_t left right
  | BIGINT => compare_double_int op int64_t left right
  | DECIMAL => compare_doubles op left right
  | VARCHAR =>
      let* r_value := CastAs right DECIMAL in
      compare_doubles op left r_value
  | _ => Fail (Throw "type error")
  end.

Definition DecimalType_CompareEquals (left right : Value) : result CmpBool :=
  assert! CheckComparable left right ;;
  if IsNull left || IsNull right then Ok CMP_NULL
  else DECIMAL_COMPARE_FUNC EQ left right.

Definition DecimalType_CompareNotEquals (left right : Value) : result CmpBool :=
  assert! CheckComparable left right ;;
  if IsNull left || IsNull right then Ok CMP_NULL
  else DECIMAL_COMPARE_FUNC NE left right.

Definition DecimalType_CompareLessThan (left right : Value) : result CmpBool :=
  assert! CheckComparable left right ;;
  if IsNull left || IsNull right then Ok CMP_NULL
  else DECIMAL_COMPARE_FUNC LT left right.

Definition DecimalType_CompareLessThanEquals (left right : Value) : result CmpBool :=
  assert! CheckComparable left right ;;
  if IsNull left || IsNull right then Ok CMP_NULL
  else DECIMAL_COMPARE_FUNC LE left right.

Definition DecimalType_CompareGreaterThan (left right : Value) : result CmpBool :=
  assert! CheckComparable left right ;;
  if IsNull left || IsNull right then Ok CMP_NULL
  else DECIMAL_COMPARE_FUNC GT left right.

Definition DecimalType_CompareGreaterThanEquals (left right : Value) : result CmpBool :=
  assert! CheckComparable left right ;;
  if IsNull left || IsNull right then Ok CMP_NULL
  else DECIMAL_COMPARE_FUNC GE left right.

(** ** BooleanType *)

Definition BOOLEAN_COMPARE_FUNC (op : CmpOp) (left right : Value) : result CmpBool :=
  let* x := GetAs int8_t left in
  let* r_value := CastAs right BOOLEAN in
  let* y := GetAs int8_t r_value in
  Ok (GetCmpBool (cmpZ op x y)).

Definition BooleanType_CompareEquals (left right : Value) : result CmpBool :=
  assert! CheckComparable left right ;;
  if IsNull left || IsNull right then Ok CMP_NULL
  else BOOLEAN_COMPARE_FUNC EQ left right.

Definition BooleanType_CompareNotEquals (left right : Value) : result CmpBool :=
  assert! CheckComparable left right ;;
  if IsNull left || IsNull right then Ok CMP_NULL
  else BOOLEAN_COMPARE_FUNC NE left right.

Definition BooleanType_CompareLessThan (left right : Value) : result CmpBool :=
  assert! CheckComparable left right ;;
  if IsNull left || IsNull right then Ok CMP_NULL
  else BOOLEAN_COMPARE_FUNC LT left right.

Definition BooleanType_CompareLessThanEquals (left right : Value) : result CmpBool :=
  assert! CheckComparable left right ;;
  if IsNull left || IsNull right then Ok CMP_NULL
  else BOOLEAN_COMPARE_FUNC LE left right.

Definition BooleanType_CompareGreaterThan (left right : Value) : result CmpBool :=
  assert! CheckComparable left right ;;
  if IsNull left || IsNull right then Ok CMP_NULL
  else BOOLEAN_COMPARE_FUNC GT left right.

Definition BooleanType_CompareGreaterThanEquals (left right : Value) : result CmpBool :=
  assert! CheckComparable left right ;;
  if IsNull left || IsNull right then Ok CMP_NULL
  else BOOLEAN_COMPARE_FUNC GE left right.

(** ** VarlenType *)

(** [memcmp] on [n] bytes of each string: the sign of the first difference. *)
Fixpoint memcmp_bytes (s1 s2 : Buf) : Z :=
  match s1, s2 with
  | a :: s1, b :: s2 => if a =? b then memcmp_bytes s1 s2 else if a <? b then -1 else 1
  | _, _ => 0
  end.

Definition memcmp (s1 s2 : Buf) (n : Z) : result Z :=
  let* b1 := memread s1 0 n in
  let* b2 := memread s2 0 n in
  Ok (memcmp_bytes b1 b2).

(** [TypeUtil::CompareStrings]; its lengths are [int], so the callers'
    [uint32_t] lengths are converted. *)
Definition CompareStrings (str1 : option Buf) (len1 : Z) (str2 : option Buf) (len2 : Z)
    : result Z :=
  match str1, str2 with
  | Some b1, Some b2 =>
      assert! (0 <=? len1) ;;
      assert! (0 <=? len2) ;;
      let* ret := memcmp b1 b2 (Z.min len1 len2) in
      Ok (if (ret =? 0) && negb (len1 =? len2) then len1 - len2 else ret)
  | _, _ => Fail AssertFail
  end.

Definition VARLEN_COMPARE_FUNC (op : CmpOp) (left right : Value) : result CmpBool :=
  let* str1 := VarlenType_GetData left in
  let len1 := wrap32 (VarlenType_GetLength left - 1) in
  let* r_value := match type_id_ right with
                  | VARCHAR => Ok right
                  | _ => CastAs right VARCHAR
                  end in
  let* str2 := VarlenType_GetData r_value in
  let len2 := wrap32 (VarlenType_GetLength r_value - 1) in
  let* ret := CompareStrings str1 len1 str2 len2 in
  Ok (GetCmpBool (cmpZ op ret 0)).

Definition VarlenType_CompareEquals (left right : Value) : result CmpBool :=
  assert! CheckComparable left right ;;
  if IsNull left || IsNull right then Ok CMP_NULL
  else if (VarlenType_GetLength left =? PELOTON_VARCHAR_MAX_LEN)
          || (VarlenType_GetLength right =? PELOTON_VARCHAR_MAX_LEN)
  then Ok (GetCmpBool (cmpZ EQ (VarlenType_GetLength left) (VarlenType_GetLength right)))
  else VARLEN_COMPARE_FUNC EQ left right.

Definition VarlenType_CompareNotEquals (left right : Value) : result CmpBool :=
  assert! CheckComparable left right ;;
  if IsNull left || IsNull right then Ok CMP_NULL
  else if (VarlenType_GetLength left =? PELOTON_VARCHAR_MAX_LEN)
          || (VarlenType_GetLength right =? PELOTON_VARCHAR_MAX_LEN)
  then Ok (GetCmpBool (cmpZ NE (VarlenType_GetLength left) (VarlenType_GetLength right)))
  else VARLEN_COMPARE_FUNC NE left right.

Definition VarlenType_CompareLessThan (left right : Value) : result CmpBool :=
  assert! CheckComparable left right ;;
  if IsNull left || IsNull right then Ok CMP_NULL
  else if (VarlenType_GetLength left =? PELOTON_VARCHAR_MAX_LEN)
          || (VarlenType_GetLength right =? PELOTON_VARCHAR_MAX_LEN)
  then Ok (GetCmpBool (cmpZ LT (VarlenType_GetLength left) (VarlenType_GetLength right)))
  else VARLEN_COMPARE_FUNC LT left right.

Definition VarlenType_CompareLessThanEquals (left right : Value) : result CmpBool :=
  assert! CheckComparable left right ;;
  if IsNull left || IsNull right then Ok CMP_NULL
  else if (VarlenType_GetLength left =? PELOTON_VARCHAR_MAX_LEN)
          || (VarlenType_GetLength right =? PELOTON_VARCHAR_MAX_LEN)
  then Ok (GetCmpBool (cmpZ LE (VarlenType_GetLength left) (VarlenType_GetLength right)))
  else VARLEN_COMPARE_FUNC LE left right.

Definition VarlenType_CompareGreaterThan (left right : Value) : result CmpBool :=
  assert! CheckComparable left right ;;
  if IsNull left || IsNull right then Ok CMP_NULL
  else if (VarlenType_GetLength left =? PELOTON_VARCHAR_MAX_LEN)
          || (VarlenType_GetLength right =? PELOTON_VARCHAR_MAX_LEN)
  then Ok (GetCmpBool (cmpZ GT (VarlenType_GetLength left) (VarlenType_GetLength right)))
  else VARLEN_COMPARE_FUNC GT left right.

Definition VarlenType_CompareGreaterThanEquals (left right : Value) : result CmpBool :=
  assert! CheckComparable left right ;;
  if IsNull left || IsNull right then Ok CMP_NULL
  else if (VarlenType_GetLength left =? PELOTON_VARCHAR_MAX_LEN)
          || (VarlenType_GetLength right =? PELOTON_VARCHAR_MAX_LEN)
  then Ok (GetCmpBool (cmpZ GE (VarlenType_GetLength left) (VarlenType_GetLength right)))
  else VARLEN_COMPARE_FUNC GE left right.

(** ** Value: dispatch on the type of the left operand *)

Definition CompareEquals (this o : Value) : result CmpBool :=
  match type_id_ this with
  | INVALID => Fail (Throw "NOT_IMPLEMENTED")
  | BOOLEAN => BooleanType_CompareEquals this o
  | TINYINT => TinyintType_CompareEquals this o
  | SMALLINT => SmallintType_CompareEquals this o
  | INTEGER => IntegerType_CompareEquals this o
  | BIGINT => BigintType_CompareEquals this o
  | DECIMAL => DecimalType_CompareEquals this o
  | VARCHAR => VarlenType_CompareEquals this o
  | TIMESTAMP => Fail Undefined
  end.

Definition CompareNotEquals (this o : Value) : result CmpBool :=
  match type_id_ this with
  | INVALID => Fail (Throw "NOT_IMPLEMENTED")
  | BOOLEAN => BooleanType_CompareNotEquals this o
  | TINYINT => TinyintType_CompareNotEquals this o
  | SMALLINT => SmallintType_CompareNotEquals this o
  | INTEGER => IntegerType_CompareNotEquals this o
  | BIGINT => BigintType_CompareNotEquals this o
  | DECIMAL => DecimalType_CompareNotEquals this o
  | VARCHAR => VarlenType_CompareNotEquals this o
  | TIMESTAMP => Fail Undefined
  end.

Definition CompareLessThan (this o : Value) : result CmpBool :=
  match type_id_ this with
  | INVALID => Fail (Throw "NOT_IMPLEMENTED")
  | BOOLEAN => BooleanType_CompareLessThan this o
  | TINYINT => TinyintType_CompareLessThan this o
  | SMALLINT => SmallintType_CompareLessThan this o
  | INTEGER => IntegerType_CompareLessThan this o
  | BIGINT => BigintType_CompareLessThan this o
  | DECIMAL => DecimalType_CompareLessThan this o
  | VARCHAR => VarlenType_CompareLessThan this o
  | TIMESTAMP => Fail Undefined
  end.

Definition CompareLessThanEquals (this o : Value) : result CmpBool :=
  match type_id_ this with
  | INVALID => Fail (Throw "NOT_IMPLEMENTED")
  | BOOLEAN => BooleanType_CompareLessThanEquals this o
  | TINYINT => TinyintType_CompareLessThanEquals this o
  | SMALLINT => SmallintType_CompareLessThanEquals this o
  | INTEGER => IntegerType_CompareLessThanEquals this o
  | BIGINT => BigintType_CompareLessThanEquals this o
  | DECIMAL => DecimalType_CompareLessThanEquals this o
  | VARCHAR => VarlenType_CompareLessThanEquals this o
  | TIMESTAMP => Fail Undefined
  end.

Definition CompareGreaterThan (this o : Value) : result CmpBool :=
  match type_id_ this with
  | INVALID => Fail (Throw "NOT_IMPLEMENTED")
  | BOOLEAN => BooleanType_CompareGreaterThan this o
  | TINYINT => TinyintType_CompareGreaterThan this o
  | SMALLINT => SmallintType_CompareGreaterThan this o
  | INTEGER => IntegerType_CompareGreaterThan this o
  | BIGINT => BigintType_CompareGreaterThan this o
  | DECIMAL => DecimalType_CompareGreaterThan this o
  | VARCHAR => VarlenType_CompareGreaterThan this o
  | TIMESTAMP => Fail Undefined
  end.

Definition CompareGreaterThanEquals (this o : Value) : result CmpBool :=
  match type_id_ this with
  | INVALID => Fail (Throw "NOT_IMPLEMENTED")
  | BOOLEAN => BooleanType_CompareGreaterThanEquals this o
  | TINYINT => TinyintType_CompareGreaterThanEquals this o
  | SMALLINT => SmallintType_CompareGreaterThanEquals this o
  | INTEGER => IntegerType_CompareGreaterThanEquals this o
  | BIGINT => BigintType_CompareGreaterThanEquals this o
  | DECIMAL => DecimalType_CompareGreaterThanEquals this o
  | VARCHAR => VarlenType_CompareGreaterThanEquals this o
  | TIMESTAMP => Fail Undefined
  end.

(** The comparison the operator names. *)
Definition Compare (op : CmpOp) : Value -> Value -> result CmpBool :=
  match op with
  | EQ => CompareEquals
  | NE => CompareNotEquals
  | LT => CompareLessThan
  | LE => CompareLessThanEquals
  | GT => CompareGreaterThan
  | GE => CompareGreaterThanEquals
  end.

Definition INTEGRAL_COMPARE_FUNC (T : CType) : CmpOp -> Value -> Value -> result CmpBool :=
  match T with
  | int8_t => TINYINT_COMPARE_FUNC
  | int16_t => SMALLINT_COMPARE_FUNC
  | int32_t => INT_COMPARE_FUNC
  | int64_t => BIGINT_COMPARE_FUNC
  end.

(** ** Integers *)

Lemma Compare_int_unfold op T x right :
  Compare op (mk_int T x) right =
  (assert! CheckComparable (mk_int T x) right ;;
   if IsNull (mk_int T x) || IsNull right then Ok CMP_NULL
   else INTEGRAL_COMPARE_FUNC T op (mk_int T x) right).
Proof. destruct op, T; reflexivity. Qed.

Lemma integral_compare_ints op T1 T2 x y :
  INTEGRAL_COMPARE_FUNC T1 op (mk_int T1 x) (mk_int T2 y) = Ok (GetCmpBool (cmpZ op x y)).
Proof. destruct T1, T2; reflexivity. Qed.

(** C36: comparing two integer values of any widths answers NULL when one of
    them is NULL, and the comparison of the two numbers otherwise. *)
Theorem int_compare_exact (op : CmpOp) (T1 T2 : CType) (x y : Z) :
  Compare op (mk_int T1 x) (mk_int T2 y) =
  Ok (if (x =? INT_NULL T1) || (y =? INT_NULL T2) then CMP_NULL
      else GetCmpBool (cmpZ op x y)).
Proof.
  rewrite Compare_int_unfold, CheckComparable_mk, assert_true, !IsNull_mk.
  destruct ((x =? INT_NULL T1) || (y =? INT_NULL T2)); [done|].
  apply integral_compare_ints.
Qed.

Lemma Compare_lt_mk T1 T2 x y :
  int_range T1 x -> int_range T2 y ->
  CompareLessThan (mk_int T1 x) (mk_int T2 y) = Ok (GetCmpBool (x <? y)).
Proof.
  intros. change CompareLessThan with (Compare LT).
  rewrite Compare_int_unfold, CheckComparable_mk, assert_true, !IsNull_mk_range by done.
  apply (integral_compare_ints LT).
Qed.

Lemma Compare_gt_mk T1 T2 x y :
  int_range T1 x -> int_range T2 y ->
  CompareGreaterThan (mk_int T1 x) (mk_int T2 y) = Ok (GetCmpBool (y <? x)).
Proof.
  intros. change CompareGreaterThan with (Compare GT).
  rewrite Compare_int_unfold, CheckComparable_mk, assert_true, !IsNull_mk_range by done.
  apply (integral_compare_ints GT).
Qed.

(** ** Strings *)

(** Lexicographic order on bytes, a proper prefix being smaller. *)
Fixpoint lex (s1 s2 : Buf) : comparison :=
  match s1, s2 with
  | [], [] => Eq
  | [], _ :: _ => Lt
  | _ :: _, [] => Gt
  | a :: s1, b :: s2 => match a ?= b with Eq => lex s1 s2 | c => c end
  end.

(** A comparison operator applied to the outcome of a three-way comparison. *)
Definition holds (op : CmpOp) (c : comparison) : bool :=
  match op, c with
  | EQ, Eq | NE, (Lt | Gt) | LT, Lt | LE, (Lt | Eq) | GT, Gt | GE, (Gt | Eq) => true
  | _, _ => false
  end.

Lemma cmpZ_sign op z : cmpZ op z 0 = holds op (z ?= 0).
Proof. destruct op, z; reflexivity. Qed.

Lemma lex_memcmp s1 s2 :
  let n := Nat.min (length s1) (length s2) in
  let ret := memcmp_bytes (take n s1) (take n s2) in
  ((if (ret =? 0) && negb (Z.of_nat (length s1) =? Z.of_nat (length s2))
    then Z.of_nat (length s1) - Z.of_nat (length s2) else ret) ?= 0) = lex s1 s2.
Proof.
  revert s2. induction s1 as [|a s1 IH]; intros [|b s2]; cbn [length Nat.min take]; try done.
  cbn [memcmp_bytes lex]. specialize (IH s2). cbn zeta in *.
  destruct (Z.compare_spec a b) as [->|Hab|Hab].
  - rewrite Z.eqb_refl, <- IH.
    replace (Z.of_nat (S (length s1)) - Z.of_nat (S (length s2)))
      with (Z.of_nat (length s1) - Z.of_nat (length s2)) by lia.
    replace (Z.of_nat (S (length s1)) =? Z.of_nat (S (length s2)))
      with (Z.of_nat (length s1) =? Z.of_nat (length s2)); [done|].
    destruct (Z.eqb_spec (Z.of_nat (length s1)) (Z.of_nat (length s2)));
      symmetry; [apply Z.eqb_eq | apply Z.eqb_neq]; lia.
  - rewrite (proj2 (Z.eqb_neq a b)), (proj2 (Z.ltb_lt a b)) by lia. done.
  - rewrite (proj2 (Z.eqb_neq a b)), (proj2 (Z.ltb_ge a b)) by lia. done.
Qed.

(** A string [CompareStrings] can be given: shorter than an [int]. *)
Definition int_sized (s : Buf) : Prop := Z.of_nat (length s) < 2 ^ 31.

Global Instance int_sized_dec s : Decision (int_sized s).
Proof. unfold int_sized. apply _. Defined.

Lemma varlen_compare op s1 right s2 :
  int_sized s1 -> int_sized s2 ->
  match type_id_ right with VARCHAR => Ok right | _ => CastAs right VARCHAR end
    = Ok (mk_varchar s2) ->
  VARLEN_COMPARE_FUNC op (mk_varchar s1) right = Ok (GetCmpBool (holds op (lex s1 s2))).
Proof.
  unfold int_sized. intros H1 H2 Hr. unfold VARLEN_COMPARE_FUNC. rewrite Hr.
  cbn [VarlenType_GetData value_ mk_varchar result_bind].
  unfold VarlenType_GetLength. cbn [len mk_varchar]. rewrite !Z.add_simpl_r.
  rewrite !swrap_id by (unfold in_sint; lia).
  unfold CompareStrings. rewrite !assert_ok by (apply Z.leb_le; lia).
  unfold memcmp. rewrite !memread_ok by (rewrite ?length_app; simpl length; lia).
  cbn [result_bind]. rewrite cmpZ_sign.
  replace (slice 0 (Z.min (Z.of_nat (length s1)) (Z.of_nat (length s2))) (s1 ++ [0]))
    with (take (Nat.min (length s1) (length s2)) s1).
  2: { unfold slice. rewrite drop_0, take_app_le by lia. f_equal. lia. }
  replace (slice 0 (Z.min (Z.of_nat (length s1)) (Z.of_nat (length s2))) (s2 ++ [0]))
    with (take (Nat.min (length s1) (length s2)) s2).
  2: { unfold slice. rewrite drop_0, take_app_le by lia. f_equal. lia. }
  pose proof (lex_memcmp s1 s2) as E. cbn zeta in E. rewrite E. reflexivity.
Qed.

Lemma varchar_not_null s : int_sized s -> IsNull (mk_varchar s) = false.
Proof.
  unfold int_sized. intros. unfold IsNull, PELOTON_VALUE_NULL. cbn [len mk_varchar].
  apply Z.eqb_neq. lia.
Qed.

Lemma Compare_varlen_unfold op s right :
  int_sized s -> IsNull right = false ->
  Compare op (mk_varchar s) right = VARLEN_COMPARE_FUNC op (mk_varchar s) right.
Proof.
  intros Hs Hn. pose proof (varchar_not_null s Hs) as Hs'.
  destruct op; unfold Compare;
    unfold CompareEquals, CompareNotEquals, CompareLessThan, CompareLessThanEquals,
      CompareGreaterThan, CompareGreaterThanEquals; cbn [type_id_ mk_varchar];
    unfold VarlenType_CompareEquals, VarlenType_CompareNotEquals, VarlenType_CompareLessThan,
      VarlenType_CompareLessThanEquals, VarlenType_CompareGreaterThan,
      VarlenType_CompareGreaterThanEquals;
    change (CheckComparable (mk_varchar s) right) with true;
    rewrite assert_true, Hs', Hn; cbn [orb];
    unfold VarlenType_GetLength; unfold IsNull in Hn, Hs';
    change PELOTON_VARCHAR_MAX_LEN with PELOTON_VALUE_NULL; rewrite Hn, Hs'; reflexivity.
Qed.

(** C37: comparing two VARCHAR values is the lexicographic order of their
    bytes. *)
Theorem varchar_compare_lex (op : CmpOp) (s1 s2 : Buf)
    (H1 : int_sized s1) (H2 : int_sized s2) :
  Compare op (mk_varchar s1) (mk_varchar s2) = Ok (GetCmpBool (holds op (lex s1 s2))).
Proof.
  rewrite Compare_varlen_unfold by eauto using varchar_not_null.
  by apply varlen_compare.
Qed.

Lemma varchar_compare_lex_witness :
  Compare GT (mk_varchar (Text.lit "abd")) (mk_varchar (Text.lit "abcz")) = Ok CMP_TRUE.
Proof. apply (varchar_compare_lex GT); by_computation. Defined.

(** ** An integer and a string *)

(** An integer on the left of a string compares the numbers, but with the
    string on the left the decimal notations are compared as texts: the two
    orders of the operands do not agree. *)
Theorem mixed_compare (op : CmpOp) (T : CType) (x y : Z)
    (Hx : int_range T x) (Hy : int_range T y) :
  Compare op (mk_int T x) (mk_varchar (Text.to_string y)) = Ok (GetCmpBool (cmpZ op x y)) /\
  Compare op (mk_varchar (Text.to_string y)) (mk_int T x) =
  Ok (GetCmpBool (holds op (lex (Text.to_string y) (Text.to_string x)))).
Proof.
  assert (Hl : forall z, int_sized (Text.to_string z)).
  { intros z. pose proof (length_to_string z). unfold int_sized. lia. }
  split.
  - rewrite Compare_int_unfold. replace (CheckComparable _ _) with true by (by destruct T).
    rewrite assert_true, IsNull_mk_range, varchar_not_null by done. cbn [orb].
    assert (E : CastAs (mk_varchar (Text.to_string y)) (type_of T) = Ok (mk_int T y)).
    { pose proof (varchar_cast_back T y Hy). done. }
    destruct T; cbn [INTEGRAL_COMPARE_FUNC type_of] in *;
      [unfold TINYINT_COMPARE_FUNC | unfold SMALLINT_COMPARE_FUNC
      |unfold INT_COMPARE_FUNC | unfold BIGINT_COMPARE_FUNC];
      cbn [type_id_ mk_varchar]; rewrite E; reflexivity.
  - rewrite Compare_varlen_unfold by eauto using IsNull_mk_range.
    apply varlen_compare; [done..|].
    transitivity (CastAs (mk_int T x) VARCHAR); [by destruct T|]. by apply cast_int_varchar.
Qed.

Lemma mixed_compare_witness :
  Compare LT (mk_int int32_t 9) (mk_varchar (Text.lit "10")) = Ok CMP_TRUE /\
  Compare LT (mk_varchar (Text.lit "10")) (mk_int int32_t 9) = Ok CMP_TRUE.
Proof. apply (mixed_compare LT int32_t 9 10); by_computation. Defined.

End TypeCompare.
