(* ===== verification/TypeArith.v ===== *)
(** * Arithmetic on SQL values

    Module [TypeArith] models the arithmetic of every class under [src/type]:
    the templates of [type/integer_parent_type.h] with the promotions and the
    wrap-around of their machine integers, the methods of the four integer
    classes and of DecimalType, the NULL results, [Min] and [Max], and the
    dispatch of [Value::Add] and its companions.  Signed overflow wraps, which
    is what the source's overflow detection relies on. *)

From stdpp Require Import prelude list strings.
From Stdlib Require Import ZArith Lia SpecFloat.
From S2P Require Import Prelude CppStd SqlValue TypeCast TypeCompare.

Local Open Scope Z_scope.

Module TypeArith.
Import CppStd.Double SqlValue.SqlValue TypeCast.TypeCast TypeCompare.TypeCompare.

(** ** The templates of IntegerParentType *)

(** The type the operands of types [T1] and [T2] are promoted to has this width. *)
Definition arith_width (T1 T2 : CType) : Z := Z.max 32 (Z.max (width T1) (width T2)).

Definition out_of_range_exception {A} : result A := Fail (Throw "OUT_OF_RANGE").

Definition AddValue (T1 T2 : CType) (left right : Value) : result Value :=
  let* x := GetAs T1 left in
  let* y := GetAs T2 right in
  let sum := swrap (arith_width T1 T2) (x + y) in
  let sum1 := swrap (width T1) sum in
  let sum2 := swrap (width T2) sum in
  if negb (sum =? sum1) && negb (sum =? sum2) then out_of_range_exception
  else if width T2 <=? width T1 then
    if ((0 <? x) && (0 <? y) && (sum1 <? 0)) || ((x <? 0) && (y <? 0) && (0 <? sum1))
    then out_of_range_exception
    else Value_int (type_id_ left) sum1
  else if ((0 <? x) && (0 <? y) && (sum2 <? 0)) || ((x <? 0) && (y <? 0) && (0 <? sum2))
  then out_of_range_exception
  else Value_int (type_id_ right) sum2.

Definition SubtractValue (T1 T2 : CType) (left right : Value) : result Value :=
  let* x := GetAs T1 left in
  let* y := GetAs T2 right in
  let diff := swrap (arith_width T1 T2) (x - y) in
  let diff1 := swrap (width T1) diff in
  let diff2 := swrap (width T2) diff in
  if negb (diff =? diff1) && negb (diff =? diff2) then out_of_range_exception
  else if width T2 <=? width T1 then
    if ((0 <? x) && (y <? 0) && (diff1 <? 0)) || ((x <? 0) && (0 <? y) && (0 <? diff1))
    then out_of_range_exception
    else Value_int (type_id_ left) diff1
  else if ((0 <? x) && (y <? 0) && (diff2 <? 0)) || ((x <? 0) && (0 <? y) && (0 <? diff2))
  then out_of_range_exception
  else Value_int (type_id_ right) diff2.

(** [a / b] and [a % b] at width [w]; the quotient that overflows and the
    division by zero have no result. *)
Definition int_div (w a b : Z) : result Z :=
  if (b =? 0) || ((a =? - 2 ^ (w - 1)) && (b =? -1)) then Fail Undefined
  else Ok (Z.quot a b).

Definition int_rem (w a b : Z) : result Z :=
  if (b =? 0) || ((a =? - 2 ^ (w - 1)) && (b =? -1)) then Fail Undefined
  else Ok (Z.rem a b).

Definition MultiplyValue (T1 T2 : CType) (left right : Value) : result Value :=
  let* x := GetAs T1 left in
  let* y := GetAs T2 right in
  let prod := swrap (arith_width T1 T2) (x * y) in
  let prod1 := swrap (width T1) prod in
  let prod2 := swrap (width T2) prod in
  if negb (prod =? prod1) && negb (prod =? prod2) then out_of_range_exception
  else if width T2 <=? width T1 then
    if y =? 0 then Value_int (type_id_ left) prod1
    else let* q := int_div (arith_width T1 T2) prod1 y in
         if negb (q =? x) then out_of_range_exception
         else Value_int (type_id_ left) prod1
  else if y =? 0 then Value_int (type_id_ right) prod2
  else let* q := int_div (arith_width T1 T2) prod2 y in
       if negb (q =? x) then out_of_range_exception
       else Value_int (type_id_ right) prod2.

Definition DivideValue (T1 T2 : CType) (left right : Value) : result Value :=
  let* x := GetAs T1 left in
  let* y := GetAs T2 right in
  if y =? 0 then Fail (Throw "DIVIDE_BY_ZERO")
  else
    let* q := int_div (arith_width T1 T2) x y in
    let quot1 := swrap (width T1) q in
    let quot2 := swrap (width T2) q in
    if width T2 <=? width T1 then Value_int (type_id_ left) quot1
    else Value_int (type_id_ right) quot2.

Definition ModuloValue (T1 T2 : CType) (left right : Value) : result Value :=
  let* x := GetAs T1 left in
  let* y := GetAs T2 right in
  if y =? 0 then Fail (Throw "DIVIDE_BY_ZERO")
  else
    let* q := int_rem (arith_width T1 T2) x y in
    let quot1 := swrap (width T1) q in
    let quot2 := swrap (width T2) q in
    if width T2 <=? width T1 then Value_int (type_id_ left) quot1
    else Value_int (type_id_ right) quot2.

(** [NumericType::ValMod]. *)
Definition ValMod (x y : double) : double := sub x (mul (trunc (div x y)) y).

(** [Value(TypeId::DECIMAL, left.value_ OP right.GetAs<double>())] for a member
    of an integer type, and the two forms of DecimalType. *)
Definition int_op_double (op : double -> double -> double) (T1 : CType)
    (left right : Value) : result Value :=
  let* x := GetAs T1 left in
  let* y := GetDouble right in
  Value_double DECIMAL (op (of_Z x) y).

Definition double_op_int (op : double -> double -> double) (T2 : CType)
    (left right : Value) : result Value :=
  let* x := GetDouble left in
  let* y := GetAs T2 right in
  Value_double DECIMAL (op x (of_Z y)).

Definition double_op_double (op : double -> double -> double)
    (left right : Value) : result Value :=
  let* x := GetDouble left in
  let* y := GetDouble right in
  Value_double DECIMAL (op x y).

(** ** OperateNull and IsZero *)

Definition TinyintType_OperateNull (left right : Value) : result Value :=
  match type_id_ right with
  | TINYINT => Value_int TINYINT (INT_NULL int8_t)
  | SMALLINT => Value_int SMALLINT (INT_NULL int16_t)
  | INTEGER => Value_int INTEGER (INT_NULL int32_t)
  | BIGINT => Value_int BIGINT (INT_NULL int64_t)
  | DECIMAL => Value_double DECIMAL PELOTON_DECIMAL_NULL
  | _ => Fail (Throw "type error")
  end.

Definition SmallintType_OperateNull (left right : Value) : result Value :=
  match type_id_ right with
  | TINYINT | SMALLINT => Value_int SMALLINT (INT_NULL int16_t)
  | INTEGER => Value_int INTEGER (INT_NULL int32_t)
  | BIGINT => Value_int BIGINT (INT_NULL int64_t)
  | DECIMAL => Value_double DECIMAL PELOTON_DECIMAL_NULL
  | _ => Fail (Throw "type error")
  end.

Definition IntegerType_OperateNull (left right : Value) : result Value :=
  match type_id_ right with
  | TINYINT | SMALLINT | INTEGER => Value_int INTEGER (INT_NULL int32_t)
  | BIGINT => Value_int BIGINT (INT_NULL int64_t)
  | DECIMAL => Value_double DECIMAL PELOTON_DECIMAL_NULL
  | _ => Fail (Throw "type error")
  end.

Definition BigintType_OperateNull (left right : Value) : result Value :=
  match type_id_ right with
  | TINYINT | SMALLINT | INTEGER | BIGINT => Value_int BIGINT (INT_NULL int64_t)
  | DECIMAL => Value_double DECIMAL PELOTON_DECIMAL_NULL
  | _ => Fail (Throw "type error")
  end.

Definition DecimalType_OperateNull (left right : Value) : result Value :=
  Value_double DECIMAL PELOTON_DECIMAL_NULL.

(** The classes without the method inherit that of the base class, which throws. *)
Definition OperateNull (this o : Value) : result Value :=
  match type_id_ this with
  | INVALID | BOOLEAN | VARCHAR => Fail (Throw "NOT_IMPLEMENTED")
  | TINYINT => TinyintType_OperateNull this o
  | SMALLINT => SmallintType_OperateNull this o
  | INTEGER => IntegerType_OperateNull this o
  | BIGINT => BigintType_OperateNull this o
  | DECIMAL => DecimalType_OperateNull this o
  | TIMESTAMP => Fail Undefined
  end.

Definition TinyintType_IsZero (val : Value) : result bool :=
  let* z := GetAs int8_t val in Ok (z =? 0).

Definition SmallintType_IsZero (val : Value) : result bool :=
  let* z := GetAs int16_t val in Ok (z =? 0).

Definition IntegerType_IsZero (val : Value) : result bool :=
  let* z := GetAs int32_t val in Ok (z =? 0).

Definition BigintType_IsZero (val : Value) : result bool :=
  let* z := GetAs int64_t val in Ok (z =? 0).

Definition DecimalType_IsZero (val : Value) : result bool :=
  let* d := GetDouble val in Ok (SFeqb d (S754_zero false)).

Definition IsZero (this : Value) : result bool :=
  match type_id_ this with
  | INVALID | BOOLEAN | VARCHAR => Fail (Throw "NOT_IMPLEMENTED")
  | TINYINT => TinyintType_IsZero this
  | SMALLINT => SmallintType_IsZero this
  | INTEGER => IntegerType_IsZero this
  | BIGINT => BigintType_IsZero this
  | DECIMAL => DecimalType_IsZero this
  | TIMESTAMP => Fail Undefined
  end.

(** ** TinyintType *)

Definition TINYINT_MODIFY_FUNC (METHOD : CType -> CType -> Value -> Value -> result Value)
    (op : double -> double -> double) (left right : Value) : result Value :=
  match type_id_ right with
  | TINYINT => METHOD int8_t int8_t left right
  | SMALLINT => METHOD int8_t int16_t left right
  | INTEGER => METHOD int8_t int32_t left right
  | BIGINT => METHOD int8_t int64_t left right
  | DECIMAL => int_op_double op int8_t left right
  | VARCHAR =>
      let* r_value := CastAs right TINYINT in
      METHOD int8_t int8_t left r_value
  | _ => Fail (Throw "type error")
  end.

Definition TinyintType_Add (left right : Value) : result Value :=
  assert! CheckInteger left ;;
  assert! CheckComparable left right ;;
  if IsNull left || IsNull right then OperateNull left right
  else TINYINT_MODIFY_FUNC AddValue add left right.

Definition TinyintType_Subtract (left right : Value) : result Value :=
  assert! CheckInteger left ;;
  assert! CheckComparable left right ;;
  if IsNull left || IsNull right then OperateNull left right
  else TINYINT_MODIFY_FUNC SubtractValue sub left right.

Definition TinyintType_Multiply (left right : Value) : result Value :=
  assert! CheckInteger left ;;
  assert! CheckComparable left right ;;
  if IsNull left || IsNull right then OperateNull left right
  else TINYINT_MODIFY_FUNC MultiplyValue mul left right.

Definition TinyintType_Divide (left right : Value) : result Value :=
  assert! CheckInteger left ;;
  assert! CheckComparable left right ;;
  if IsNull left || IsNull right then OperateNull left right
  else
    let* zero := IsZero right in
    if zero then Fail (Throw "DIVIDE_BY_ZERO")
    else TINYINT_MODIFY_FUNC DivideValue div left right.

Definition TinyintType_Modulo (left right : Value) : result Value :=
  assert! CheckInteger left ;;
  assert! CheckComparable left right ;;
  if IsNull left || IsNull right then OperateNull left right
  else
    let* zero := IsZero right in
    if zero then Fail (Throw "DIVIDE_BY_ZERO")
    else
      match type_id_ right with
      | TINYINT => ModuloValue int8_t int8_t left right
      | SMALLINT => ModuloValue int8_t int16_t left right
      | INTEGER => ModuloValue int8_t int32_t left right
      | BIGINT => ModuloValue int8_t int64_t left right
      | DECIMAL => int_op_double ValMod int8_t left right
      | VARCHAR =>
          let* r_value := CastAs right TINYINT in
          ModuloValue int8_t int8_t left r_value
      | _ => Fail (Throw "type error")
      end.

Definition TinyintType_Sqrt (val : Value) : result Value :=
  assert! CheckInteger val ;;
  if IsNull val then Value_double DECIMAL PELOTON_DECIMAL_NULL
  else
    let* z := GetAs int8_t val in
    if z <? 0 then Fail (Throw "DECIMAL") else Value_double DECIMAL (sqrt (of_Z z)).

(** ** SmallintType *)

Definition SMALLINT_MODIFY_FUNC (METHOD : CType -> CType -> Value -> Value -> result Value)
    (op : double -> double -> double) (left right : Value) : result Value :=
  match type_id_ right with
  | TINYINT => METHOD int16_t int8_t left right
  | SMALLINT => METHOD int16_t int16_t left right
  | INTEGER => METHOD int16_t int32_t left right
  | BIGINT => METHOD int16_t int64_t left right
  | DECIMAL => int_op_double op int16_t left right
  | VARCHAR =>
      let* r_value := CastAs right SMALLINT in
      METHOD int16_t int16_t left r_value
  | _ => Fail (Throw "type error")
  end.

Definition SmallintType_Add (left right : Value) : result Value :=
  assert! CheckInteger left ;;
  assert! CheckComparable left right ;;
  if IsNull left || IsNull right then OperateNull left right
  else SMALLINT_MODIFY_FUNC AddValue add left right.

Definition SmallintType_Subtract (left right : Value) : result Value :=
  assert! CheckInteger left ;;
  assert! CheckComparable left right ;;
  if IsNull left || IsNull right then OperateNull left right
  else SMALLINT_MODIFY_FUNC SubtractValue sub left right.

Definition SmallintType_Multiply (left right : Value) : result Value :=
  assert! CheckInteger left ;;
  assert! CheckComparable left right ;;
  if IsNull left || IsNull right then OperateNull left right
  else SMALLINT_MODIFY_FUNC MultiplyValue mul left right.

Definition SmallintType_Divide (left right : Value) : result Value :=
  assert! CheckInteger left ;;
  assert! CheckComparable left right ;;
  if IsNull left || IsNull right then OperateNull left right
  else
    let* zero := IsZero right in
    if zero then Fail (Throw "DIVIDE_BY_ZERO")
    else SMALLINT_MODIFY_FUNC DivideValue div left right.

Definition SmallintType_Modulo (left right : Value) : result Value :=
  assert! CheckInteger left ;;
  assert! CheckComparable left right ;;
  if IsNull left || IsNull right then OperateNull left right
  else
    let* zero := IsZero right in
    if zero then Fail (Throw "DIVIDE_BY_ZERO")
    else
      match type_id_ right with
      | TINYINT => ModuloValue int16_t int8_t left right
      | SMALLINT => ModuloValue int16_t int16_t left right
      | INTEGER => ModuloValue int16_t int32_t left right
      | BIGINT => ModuloValue int16_t int64_t left right
      | DECIMAL => int_op_double ValMod int16_t left right
      | VARCHAR =>
          let* r_value := CastAs right SMALLINT in
          ModuloValue int16_t int16_t left r_value
      | _ => Fail (Throw "type error")
      end.

Definition SmallintType_Sqrt (val : Value) : result Value :=
  assert! CheckInteger val ;;
  if IsNull val then Value_double DECIMAL PELOTON_DECIMAL_NULL
  else
    let* z := GetAs int16_t val in
    if z <? 0 then Fail (Throw "DECIMAL") else Value_double DECIMAL (sqrt (of_Z z)).

(** ** IntegerType *)

Definition INT_MODIFY_FUNC (METHOD : CType -> CType -> Value -> Value -> result Value)
    (op : double -> double -> double) (left right : Value) : result Value :=
  match type_id_ right with
  | TINYINT => METHOD int32_t int8_t left right
  | SMALLINT => METHOD int32_t int16_t left right
  | INTEGER => METHOD int32_t int32_t left right
  | BIGINT => METHOD int32_t int64_t left right
  | DECIMAL => int_op_double op int32_t left right
  | VARCHAR =>
      let* r_value := CastAs right INTEGER in
      METHOD int32_t int32_t left r_value
  | _ => Fail (Throw "type error")
  end.

Definition IntegerType_Add (left right : Value) : result Value :=
  assert! CheckInteger left ;;
  assert! CheckComparable left right ;;
  if IsNull left || IsNull right then OperateNull left right
  else INT_MODIFY_FUNC AddValue add left right.

Definition IntegerType_Subtract (left right : Value) : result Value :=
  assert! CheckInteger left ;;
  assert! CheckComparable left right ;;
  if IsNull left || IsNull right then OperateNull left right
  else INT_MODIFY_FUNC SubtractValue sub left right.

Definition IntegerType_Multiply (left right : Value) : result Value :=
  assert! CheckInteger left ;;
  assert! CheckComparable left right ;;
  if IsNull left || IsNull right then OperateNull left right
  else INT_MODIFY_FUNC MultiplyValue mul left right.

Definition IntegerType_Divide (left right : Value) : result Value :=
  assert! CheckInteger left ;;
  assert! CheckComparable left right ;;
  if IsNull left || IsNull right then OperateNull left right
  else
    let* zero := IsZero right in
    if zero then Fail (Throw "DIVIDE_BY_ZERO")
    else INT_MODIFY_FUNC DivideValue div left right.

Definition IntegerType_Modulo (left right : Value) : result Value :=
  assert! CheckInteger left ;;
  assert! CheckComparable left right ;;
  if IsNull left || IsNull right then OperateNull left right
  else
    let* zero := IsZero right in
    if zero then Fail (Throw "DIVIDE_BY_ZERO")
    else
      match type_id_ right with
      | TINYINT => ModuloValue int32_t int8_t left right
      | SMALLINT => ModuloValue int32_t int16_t left right
      | INTEGER => ModuloValue int32_t int32_t left right
      | BIGINT => ModuloValue int32_t int64_t left right
      | DECIMAL => int_op_double ValMod int32_t left right
      | VARCHAR =>
          let* r_value := CastAs right INTEGER in
          ModuloValue int32_t int32_t left r_value
      | _ => Fail (Throw "type error")
      end.

Definition IntegerType_Sqrt (val : Value) : result Value :=
  assert! CheckInteger val ;;
  if IsNull val then IntegerType_OperateNull val val
  else
    let* z := GetAs int32_t val in
    if z <? 0 then Fail (Throw "DECIMAL") else Value_double DECIMAL (sqrt (of_Z z)).

(** ** BigintType *)

Definition BIGINT_MODIFY_FUNC (METHOD : CType -> CType -> Value -> Value -> result Value)
    (op : double -> double -> double) (left right : Value) : result Value :=
  match type_id_ right with
  | TINYINT => METHOD int64_t int8_t left right
  | SMALLINT => METHOD int64_t int16_t left right
  | INTEGER => METHOD int64_t int32_t left right
  | BIGINT => METHOD int64_t int64_t left right
  | DECIMAL => int_op_double op int64_t left right
  | VARCHAR =>
      let* r_value := CastAs right BIGINT in
      METHOD int64_t int64_t left r_value
  | _ => Fail (Throw "type error")
  end.

Definition BigintType_Add (left right : Value) : result Value :=
  assert! CheckInteger left ;;
  assert! CheckComparable left right ;;
  if IsNull left || IsNull right then OperateNull left right
  else BIGINT_MODIFY_FUNC AddValue add left right.

Definition BigintType_Subtract (left right : Value) : result Value :=
  assert! CheckInteger left ;;
  assert! CheckComparable left right ;;
  if IsNull left || IsNull right then OperateNull left right
  else BIGINT_MODIFY_FUNC SubtractValue sub left right.

Definition BigintType_Multiply (left right : Value) : result Value :=
  assert! CheckInteger left ;;
  assert! CheckComparable left right ;;
  if IsNull left || IsNull right then OperateNull left right
  else BIGINT_MODIFY_FUNC MultiplyValue mul left right.

Definition BigintType_Divide (left right : Value) : result Value :=
  assert! CheckInteger left ;;
  assert! CheckComparable left right ;;
  if IsNull left || IsNull right then OperateNull left right
  else
    let* zero := IsZero right in
    if zero then Fail (Throw "DIVIDE_BY_ZERO")
    else BIGINT_MODIFY_FUNC DivideValue div left right.

Definition BigintType_Modulo (left right : Value) : result Value :=
  assert! CheckInteger left ;;
  assert! CheckComparable left right ;;
  if IsNull left || IsNull right then OperateNull left right
  else
    let* zero := IsZero right in
    if zero then Fail (Throw "DIVIDE_BY_ZERO")
    else
      match type_id_ right with
      | TINYINT => ModuloValue int64_t int8_t left right
      | SMALLINT => ModuloValue int64_t int16_t left right
      | INTEGER => ModuloValue int64_t int32_t left right
      | BIGINT => ModuloValue int64_t int64_t left right
      | DECIMAL => int_op_double ValMod int64_t left right
      | VARCHAR =>
          let* r_value := CastAs right BIGINT in
          ModuloValue int64_t int64_t left r_value
      | _ => Fail (Throw "type error")
      end.

Definition BigintType_Sqrt (val : Value) : result Value :=
  assert! CheckInteger val ;;
  if IsNull val then Value_double DECIMAL PELOTON_DECIMAL_NULL
  else
    let* z := GetAs int64_t val in
    if z <? 0 then Fail (Throw "DECIMAL") else Value_double DECIMAL (sqrt (of_Z z)).

(** ** DecimalType *)

Definition DECIMAL_MODIFY_FUNC (op : double -> double -> double) (left right : Value)
    : result Value :=
  match type_id_ right with
  | TINYINT => double_op_int op int8_t left right
  | SMALLINT => double_op_int op int16_t left right
  | INTEGER => double_op_int op int32_t left right
  | BIGINT => double_op_int op int64_t left right
  | DECIMAL => double_op_double op left right
  | VARCHAR =>
      let* r_value := CastAs right DECIMAL in
      double_op_double op left r_value
  | _ => Fail (Throw "type error")
  end.

Definition DecimalType_Add (left right : Value) : result Value :=
  assert! CheckComparable left right ;;
  if IsNull left || IsNull right then OperateNull left right
  else DECIMAL_MODIFY_FUNC add left right.

Definition DecimalType_Subtract (left right : Value) : result Value :=
  assert! CheckComparable left right ;;
  if IsNull left || IsNull right then OperateNull left right
  else DECIMAL_MODIFY_FUNC sub left right.

Definition DecimalType_Multiply (left right : Value) : result Value :=
  assert! CheckComparable left right ;;
  if IsNull left || IsNull right then OperateNull left right
  else DECIMAL_MODIFY_FUNC mul left right.

Definition DecimalType_Divide (left right : Value) : result Value :=
  assert! CheckComparable left right ;;
  if IsNull left || IsNull right then OperateNull left right
  else
    let* zero := IsZero right in
    if zero then Fail (Throw "DIVIDE_BY_ZERO")
    else DECIMAL_MODIFY_FUNC div left right.

Definition DecimalType_Modulo (left right : Value) : result Value :=
  assert! CheckComparable left right ;;
  if IsNull left || IsNull right then DecimalType_OperateNull left right
  else
    let* zero := IsZero right in
    if zero then Fail (Throw "DIVIDE_BY_ZERO")
    else
      match type_id_ right with
      | TINYINT => double_op_int ValMod int8_t left right
      | SMALLINT => double_op_int ValMod int16_t left right
      | INTEGER => double_op_int ValMod int32_t left right
      | BIGINT => double_op_int ValMod int64_t left right
      | DECIMAL => double_op_double ValMod left right
      | VARCHAR =>
          let* r_value := CastAs right DECIMAL in
          double_op_double ValMod left r_value
      | _ => Fail (Throw "type error")
      end.

Definition DecimalType_Sqrt (val : Value) : result Value :=
  if IsNull val then Value_double DECIMAL PELOTON_DECIMAL_NULL
  else
    let* d := GetDouble val in
    if SFltb d (S754_zero false) then Fail (Throw "DECIMAL")
    else Value_double DECIMAL (sqrt d).

(** ** Min and Max *)

Definition is_true_cmp (c : CmpBool) : bool := match c with CMP_TRUE => true | _ => false end.

Definition IntegerParentType_Min (left right : Value) : result Value :=
  assert! CheckInteger left ;;
  assert! CheckComparable left right ;;
  if IsNull left || IsNull right then OperateNull left right
  else let* c := CompareLessThan left right in
       if is_true_cmp c then Copy left else Copy right.

Definition IntegerParentType_Max (left right : Value) : result Value :=
  assert! CheckInteger left ;;
  assert! CheckComparable left right ;;
  if IsNull left || IsNull right then OperateNull left right
  else let* c := CompareGreaterThanEquals left right in
       if is_true_cmp c then Copy left else Copy right.

Definition DecimalType_Min (left right : Value) : result Value :=
  assert! CheckComparable left right ;;
  if IsNull left || IsNull right then OperateNull left right
  else let* c := CompareLessThanEquals left right in
       if is_true_cmp c then Copy left else Copy right.

Definition DecimalType_Max (left right : Value) : result Value :=
  assert! CheckComparable left right ;;
  if IsNull left || IsNull right then OperateNull left right
  else let* c := CompareGreaterThanEquals left right in
       if is_true_cmp c then Copy left else Copy right.

Definition VarlenType_Min (left right : Value) : result Value :=
  assert! CheckComparable left right ;;
  if IsNull left || IsNull right then OperateNull left right
  else let* c := CompareLessThan left right in
       if is_true_cmp c then Copy left else Copy right.

Definition VarlenType_Max (left right : Value) : result Value :=
  assert! CheckComparable left right ;;
  if IsNull left || IsNull right then OperateNull left right
  else let* c := CompareGreaterThan left right in
       if is_true_cmp c then Copy left else Copy right.

Definition Min (this o : Value) : result Value :=
  match type_id_ this with
  | INVALID | BOOLEAN => Fail (Throw "NOT_IMPLEMENTED")
  | TINYINT | SMALLINT | INTEGER | BIGINT => IntegerParentType_Min this o
  | DECIMAL => DecimalType_Min this o
  | VARCHAR => VarlenType_Min this o
  | TIMESTAMP => Fail Undefined
  end.

Definition Max (this o : Value) : result Value :=
  match type_id_ this with
  | INVALID | BOOLEAN => Fail (Throw "NOT_IMPLEMENTED")
  | TINYINT | SMALLINT | INTEGER | BIGINT => IntegerParentType_Max this o
  | DECIMAL => DecimalType_Max this o
  | VARCHAR => VarlenType_Max this o
  | TIMESTAMP => Fail Undefined
  end.

(** ** Value: dispatch on the type of the left operand *)

Definition Add (this o : Value) : result Value :=
  match type_id_ this with
  | INVALID | BOOLEAN | VARCHAR => Fail (Throw "NOT_IMPLEMENTED")
  | TINYINT => TinyintType_Add this o
  | SMALLINT => SmallintType_Add this o
  | INTEGER => IntegerType_Add this o
  | BIGINT => BigintType_Add this o
  | DECIMAL => DecimalType_Add this o
  | TIMESTAMP => Fail Undefined
  end.

Definition Subtract (this o : Value) : result Value :=
  match type_id_ this with
  | INVALID | BOOLEAN | VARCHAR => Fail (Throw "NOT_IMPLEMENTED")
  | TINYINT => TinyintType_Subtract this o
  | SMALLINT => SmallintType_Subtract this o
  | INTEGER => IntegerType_Subtract this o
  | BIGINT => BigintType_Subtract this o
  | DECIMAL => DecimalType_Subtract this o
  | TIMESTAMP => Fail Undefined
  end.

Definition Multiply (this o : Value) : result Value :=
  match type_id_ this with
  | INVALID | BOOLEAN | VARCHAR => Fail (Throw "NOT_IMPLEMENTED")
  | TINYINT => TinyintType_Multiply this o
  | SMALLINT => SmallintType_Multiply this o
  | INTEGER => IntegerType_Multiply this o
  | BIGINT => BigintType_Multiply this o
  | DECIMAL => DecimalType_Multiply this o
  | TIMESTAMP => Fail Undefined
  end.

Definition Divide (this o : Value) : result Value :=
  match type_id_ this with
  | INVALID | BOOLEAN | VARCHAR => Fail (Throw "NOT_IMPLEMENTED")
  | TINYINT => TinyintType_Divide this o
  | SMALLINT => SmallintType_Divide this o
  | INTEGER => IntegerType_Divide this o
  | BIGINT => BigintType_Divide this o
  | DECIMAL => DecimalType_Divide this o
  | TIMESTAMP => Fail Undefined
  end.

Definition Modulo (this o : Value) : result Value :=
  match type_id_ this with
  | INVALID | BOOLEAN | VARCHAR => Fail (Throw "NOT_IMPLEMENTED")
  | TINYINT => TinyintType_Modulo this o
  | SMALLINT => SmallintType_Modulo this o
  | INTEGER => IntegerType_Modulo this o
  | BIGINT => BigintType_Modulo this o
  | DECIMAL => DecimalType_Modulo this o
  | TIMESTAMP => Fail Undefined
  end.

Definition Sqrt (this : Value) : result Value :=
  match type_id_ this with
  | INVALID | BOOLEAN | VARCHAR => Fail (Throw "NOT_IMPLEMENTED")
  | TINYINT => TinyintType_Sqrt this
  | SMALLINT => SmallintType_Sqrt this
  | INTEGER => IntegerType_Sqrt this
  | BIGINT => BigintType_Sqrt this
  | DECIMAL => DecimalType_Sqrt this
  | TIMESTAMP => Fail Undefined
  end.
(** ** Exactness of the integer arithmetic *)

Definition wider (T1 T2 : CType) : CType := if width T2 <=? width T1 then T1 else T2.

(** The outcome of an operation whose exact result is [z]. *)
Definition arith_spec (T : CType) (z : Z) : result Value :=
  if decide (in_sint (width T) z) then Ok (mk_int T z) else out_of_range_exception.

Lemma width_cases T : width T = 8 \/ width T = 16 \/ width T = 32 \/ width T = 64.
Proof. destruct T; cbn; tauto. Qed.

Lemma in_sint_mono w1 w2 z : 0 < w1 <= w2 -> in_sint w1 z -> in_sint w2 z.
Proof.
  intros Hw. unfold in_sint. pose proof (Z.pow_le_mono_r 2 (w1 - 1) (w2 - 1)). lia.
Qed.

Lemma wider_width T1 T2 : width (wider T1 T2) = Z.max (width T1) (width T2).
Proof. unfold wider. destruct (width T2 <=? width T1) eqn:E; zify_bool; lia. Qed.

(** The exact result [z], in the width [W] of the promoted operands. *)
Section Narrowing.
Context (T1 T2 : CType) (z : Z).
Let w := width (wider T1 T2).
Let W := arith_width T1 T2.

Lemma arith_width_ge : 0 < w <= W.
Proof.
  unfold w, W, arith_width. rewrite wider_width.
  pose proof (width_pos T1). pose proof (width_pos T2). lia.
Qed.

Lemma narrow_fits :
  in_sint w z ->
  swrap W z = z /\ swrap (width (wider T1 T2)) z = z.
Proof.
  intros Hz. pose proof arith_width_ge.
  split; apply swrap_id; [lia | by eapply in_sint_mono | unfold w in *; lia | done].
Qed.

Lemma narrow_misfit T : T = T1 \/ T = T2 -> ~ in_sint w z -> in_sint W z ->
  (swrap W z =? swrap (width T) (swrap W z)) = false.
Proof.
  intros HT Hn HW. pose proof arith_width_ge as Hw.
  rewrite (swrap_id W z) by (unfold w in *; lia || done).
  apply Z.eqb_neq. intros E. apply Hn. rewrite E.
  pose proof (width_pos T). eapply in_sint_mono; [|by apply swrap_range].
  unfold w in *. rewrite wider_width. destruct HT; subst T; lia.
Qed.
End Narrowing.

(** A sum of two numbers in range overflows a promoted width only by wrapping
    to the other sign. *)
Lemma swrap_overflow w z :
  0 < w -> - 2 ^ w <= z < 2 ^ w ->
  (in_sint w z /\ swrap w z = z) \/
  (2 ^ (w - 1) <= z /\ swrap w z = z - 2 ^ w) \/
  (z < - 2 ^ (w - 1) /\ swrap w z = z + 2 ^ w).
Proof.
  intros Hw Hz.
  assert (E : 2 ^ w = 2 * 2 ^ (w - 1)).
  { rewrite <- Z.pow_succ_r by lia. f_equal. lia. }
  destruct (decide (in_sint w z)) as [Hs|Hs]; [left; split; [done | by apply swrap_id]|].
  right. unfold in_sint in Hs. unfold swrap.
  destruct (decide (2 ^ (w - 1) <= z)) as [Hp|Hp]; [left | right]; (split; [lia|]).
  - replace (z + 2 ^ (w - 1)) with (z - 2 ^ (w - 1) + 1 * 2 ^ w) by lia.
    rewrite Z.mod_add, Z.mod_small by lia. lia.
  - replace (z + 2 ^ (w - 1)) with (z + 2 ^ (w - 1) + 2 ^ w + (-1) * 2 ^ w) by lia.
    rewrite Z.mod_add, Z.mod_small by lia. lia.
Qed.

Lemma operand_bounds T1 T2 x y :
  int_range T1 x -> int_range T2 y ->
  let w := width (wider T1 T2) in
  2 ^ w = 2 * 2 ^ (w - 1) /\
  - 2 ^ (w - 1) < x < 2 ^ (w - 1) /\ - 2 ^ (w - 1) < y < 2 ^ (w - 1).
Proof.
  intros Hx Hy w.
  assert (Hx' : int_range (wider T1 T2) x).
  { eapply int_range_mono; [|exact Hx]. rewrite wider_width. lia. }
  assert (Hy' : int_range (wider T1 T2) y).
  { eapply int_range_mono; [|exact Hy]. rewrite wider_width. lia. }
  unfold int_range, INT_MIN, INT_MAX in Hx', Hy'. fold w in Hx', Hy'.
  pose proof (width_pos (wider T1 T2)) as Hw. fold w in Hw.
  assert (2 ^ w = 2 * 2 ^ (w - 1)).
  { rewrite <- Z.pow_succ_r by lia. f_equal. lia. }
  repeat split; lia.
Qed.

(** The body that AddValue and SubtractValue share: [s] is the exact result,
    [both_pos] and [both_neg] the tests on the operands. *)
Definition checked (T1 T2 : CType) (both_pos both_neg : bool) (s : Z) (t1 t2 : TypeId)
    : result Value :=
  let sum := swrap (arith_width T1 T2) s in
  let sum1 := swrap (width T1) sum in
  let sum2 := swrap (width T2) sum in
  if negb (sum =? sum1) && negb (sum =? sum2) then out_of_range_exception
  else if width T2 <=? width T1 then
    if (both_pos && (sum1 <? 0)) || (both_neg && (0 <? sum1)) then out_of_range_exception
    else Value_int t1 sum1
  else if (both_pos && (sum2 <? 0)) || (both_neg && (0 <? sum2)) then out_of_range_exception
  else Value_int t2 sum2.

Lemma checked_wider T1 T2 p n s :
  checked T1 T2 p n s (type_of T1) (type_of T2) =
  let sum := swrap (arith_width T1 T2) s in
  let sumw := swrap (width (wider T1 T2)) sum in
  if negb (sum =? swrap (width T1) sum) && negb (sum =? swrap (width T2) sum)
  then out_of_range_exception
  else if (p && (sumw <? 0)) || (n && (0 <? sumw)) then out_of_range_exception
  else Value_int (type_of (wider T1 T2)) sumw.
Proof. unfold checked, wider. by destruct (width T2 <=? width T1). Qed.

Lemma wider_either T1 T2 : wider T1 T2 = T1 \/ wider T1 T2 = T2.
Proof. unfold wider. destruct (width T2 <=? width T1); auto. Qed.

Lemma first_test T1 T2 sum :
  (sum =? swrap (width (wider T1 T2)) sum) = true ->
  negb (sum =? swrap (width T1) sum) && negb (sum =? swrap (width T2) sum) = false.
Proof. intros H. destruct (wider_either T1 T2) as [E|E]; rewrite E in H; rewrite H; cbn;
  [done | apply andb_false_r]. Qed.

(** The detection is exact when a result out of range comes from operands of
    one sign. *)
Lemma checked_spec T1 T2 (p n : bool) s :
  let w := width (wider T1 T2) in
  - 2 ^ w + 2 <= s <= 2 ^ w - 2 ->
  (p = true -> 0 < s) -> (n = true -> s < 0) ->
  (2 ^ (w - 1) <= s -> p = true) -> (s < - 2 ^ (w - 1) -> n = true) ->
  checked T1 T2 p n s (type_of T1) (type_of T2) = arith_spec (wider T1 T2) s.
Proof.
  intros w Hs Hp Hn Hop Hon. rewrite checked_wider. cbn zeta. unfold arith_spec. fold w.
  pose proof (arith_width_ge T1 T2) as Hw. fold w in Hw. case_decide as Hf.
  - destruct (narrow_fits T1 T2 s Hf) as [E1 E2]. fold w in E2. rewrite E1.
    rewrite first_test by (fold w; rewrite E2; apply Z.eqb_refl). rewrite E2.
    replace ((p && (s <? 0)) || (n && (0 <? s))) with false; [by apply Value_int_mk|].
    symmetry. apply orb_false_iff. rewrite !andb_false_iff, !Z.ltb_ge.
    destruct p, n; intuition lia.
  - destruct (decide (in_sint (arith_width T1 T2) s)) as [HW|HW].
    + rewrite !narrow_misfit by auto. reflexivity.
    + assert (Ew : arith_width T1 T2 = w).
      { unfold w, arith_width in *. rewrite wider_width in *.
        pose proof (width_cases T1). pose proof (width_cases T2).
        destruct (decide (Z.max (width T1) (width T2) <= 16)); [|lia].
        exfalso. apply HW. unfold in_sint.
        pose proof (Z.pow_le_mono_r 2 (Z.max (width T1) (width T2)) 16).
        replace (Z.max 32 _) with 32 by lia. lia. }
      rewrite Ew. fold w.
      rewrite first_test by (fold w; rewrite (swrap_id w (swrap w s)), Z.eqb_refl;
        [done | lia | apply swrap_range; lia]).
      fold w. rewrite (swrap_id w (swrap w s)) by (lia || apply swrap_range; lia).
      destruct (swrap_overflow w s) as [[? _]|[[Ho E]|[Ho E]]]; [lia|lia|done|..];
        rewrite E.
      * rewrite (Hop Ho), (proj2 (Z.ltb_lt _ 0)) by lia. reflexivity.
      * rewrite (Hon Ho), (proj2 (Z.ltb_lt 0 _)) by lia. by rewrite orb_true_r.
Qed.

(** The operations between integer values. *)
Inductive ArithOp := PLUS | MINUS | TIMES.

Definition Arith (op : ArithOp) : Value -> Value -> result Value :=
  match op with PLUS => Add | MINUS => Subtract | TIMES => Multiply end.

Definition exact (op : ArithOp) : Z -> Z -> Z :=
  match op with PLUS => Z.add | MINUS => Z.sub | TIMES => Z.mul end.

Definition METHOD (op : ArithOp) : CType -> CType -> Value -> Value -> result Value :=
  match op with PLUS => AddValue | MINUS => SubtractValue | TIMES => MultiplyValue end.

Lemma OperateNull_mk T1 x T2 y :
  OperateNull (mk_int T1 x) (mk_int T2 y) = Ok (mk_int (wider T1 T2) (INT_NULL (wider T1 T2))).
Proof. destruct T1, T2; reflexivity. Qed.

Lemma Arith_unfold op T1 x T2 y :
  Arith op (mk_int T1 x) (mk_int T2 y) =
  if IsNull (mk_int T1 x) || IsNull (mk_int T2 y)
  then Ok (mk_int (wider T1 T2) (INT_NULL (wider T1 T2)))
  else METHOD op T1 T2 (mk_int T1 x) (mk_int T2 y).
Proof. rewrite <- (OperateNull_mk T1 x T2 y). destruct op, T1, T2; reflexivity. Qed.

Lemma AddValue_spec T1 T2 x y :
  int_range T1 x -> int_range T2 y ->
  AddValue T1 T2 (mk_int T1 x) (mk_int T2 y) = arith_spec (wider T1 T2) (x + y).
Proof.
  intros Hx Hy. pose proof (operand_bounds T1 T2 x y Hx Hy) as (Hw & Bx & By).
  transitivity (checked T1 T2 ((0 <? x) && (0 <? y)) ((x <? 0) && (y <? 0)) (x + y)
                  (type_of T1) (type_of T2)).
  { unfold AddValue. rewrite !GetAs_mk. reflexivity. }
  apply checked_spec; rewrite ?andb_true_iff, ?Z.ltb_lt; lia.
Qed.

Lemma SubtractValue_spec T1 T2 x y :
  int_range T1 x -> int_range T2 y ->
  SubtractValue T1 T2 (mk_int T1 x) (mk_int T2 y) = arith_spec (wider T1 T2) (x - y).
Proof.
  intros Hx Hy. pose proof (operand_bounds T1 T2 x y Hx Hy) as (Hw & Bx & By).
  transitivity (checked T1 T2 ((0 <? x) && (y <? 0)) ((x <? 0) && (0 <? y)) (x - y)
                  (type_of T1) (type_of T2)).
  { unfold SubtractValue. rewrite !GetAs_mk. reflexivity. }
  apply checked_spec; rewrite ?andb_true_iff, ?Z.ltb_lt; lia.
Qed.

Lemma MultiplyValue_wider T1 T2 x y :
  MultiplyValue T1 T2 (mk_int T1 x) (mk_int T2 y) =
  let prod := swrap (arith_width T1 T2) (x * y) in
  let prodw := swrap (width (wider T1 T2)) prod in
  if negb (prod =? swrap (width T1) prod) && negb (prod =? swrap (width T2) prod)
  then out_of_range_exception
  else if y =? 0 then Value_int (type_of (wider T1 T2)) prodw
  else let* q := int_div (arith_width T1 T2) prodw y in
       if negb (q =? x) then out_of_range_exception
       else Value_int (type_of (wider T1 T2)) prodw.
Proof.
  unfold MultiplyValue, wider. rewrite !GetAs_mk. cbn [result_bind].
  by destruct (width T2 <=? width T1).
Qed.

(** A wrapped product divided by one factor is not the other one. *)
Lemma wrapped_quot w x y :
  0 < w -> y <> 0 -> - 2 ^ (w - 1) < y < 2 ^ (w - 1) -> ~ in_sint w (x * y) ->
  Z.quot (swrap w (x * y)) y <> x.
Proof.
  intros Hw Hy By Hn E. apply Hn.
  pose proof (Z.quot_rem (swrap w (x * y)) y Hy) as Hq. rewrite E in Hq.
  pose proof (Z.rem_bound_abs (swrap w (x * y)) y Hy) as Hr.
  assert (E2 : 2 ^ w = 2 * 2 ^ (w - 1)).
  { rewrite <- Z.pow_succ_r by lia. f_equal. lia. }
  assert (Hk : exists k, swrap w (x * y) = x * y - k * 2 ^ w).
  { exists ((x * y + 2 ^ (w - 1)) / 2 ^ w). unfold swrap.
    rewrite Z.mod_eq by lia. lia. }
  destruct Hk as [k Hk].
  assert (k = 0) by nia. subst k.
  replace (x * y) with (swrap w (x * y)) by lia. by apply swrap_range.
Qed.

Lemma MultiplyValue_spec T1 T2 x y :
  int_range T1 x -> int_range T2 y ->
  MultiplyValue T1 T2 (mk_int T1 x) (mk_int T2 y) = arith_spec (wider T1 T2) (x * y).
Proof.
  intros Hx Hy. pose proof (operand_bounds T1 T2 x y Hx Hy) as (Hw & Bx & By).
  pose proof (arith_width_ge T1 T2) as HW.
  rewrite MultiplyValue_wider. cbn zeta. unfold arith_spec.
  set (w := width (wider T1 T2)) in *. case_decide as Hf.
  - destruct (narrow_fits T1 T2 (x * y) Hf) as [E1 E2]. fold w in E2. rewrite E1.
    rewrite first_test by (fold w; rewrite E2; apply Z.eqb_refl). rewrite E2.
    destruct (Z.eqb_spec y 0) as [->|Hy0]; [by apply Value_int_mk|].
    unfold int_div. rewrite (proj2 (Z.eqb_neq y 0)) by done.
    rewrite (proj2 (andb_false_iff _ _)); cbn [orb result_bind].
    + rewrite Z.quot_mul, Z.eqb_refl by done. by apply Value_int_mk.
    + destruct (Z.eqb_spec y (-1)) as [->|]; [left | by right].
      apply Z.eqb_neq. pose proof (Z.pow_le_mono_r 2 (w - 1) (arith_width T1 T2 - 1)). lia.
  - destruct (decide (in_sint (arith_width T1 T2) (x * y))) as [Hs|Hs].
    { rewrite !narrow_misfit by auto. reflexivity. }
    assert (Ew : arith_width T1 T2 = w).
    { unfold w, arith_width in *. rewrite wider_width in *.
      destruct (decide (Z.max (width T1) (width T2) <= 16)) as [Hle|];
        [|pose proof (width_cases T1); pose proof (width_cases T2); lia].
      exfalso. apply Hs. unfold in_sint.
      pose proof (Z.pow_le_mono_r 2 (Z.max (width T1) (width T2) - 1) 15).
      replace (Z.max 32 _) with 32 by lia. nia. }
    rewrite Ew. rewrite first_test by (fold w; rewrite (swrap_id w (swrap w (x * y))), Z.eqb_refl;
        [done | lia | apply swrap_range; lia]).
    rewrite (swrap_id w (swrap w (x * y))) by (lia || apply swrap_range; lia).
    assert (Hy0 : y <> 0) by (intros ->; apply Hf; unfold in_sint; lia).
    rewrite (proj2 (Z.eqb_neq y 0)) by done.
    unfold int_div. rewrite (proj2 (Z.eqb_neq y 0)) by done.
    rewrite (proj2 (andb_false_iff _ _)); cbn [orb result_bind].
    + rewrite (proj2 (Z.eqb_neq _ x)) by (apply wrapped_quot; lia || done). reflexivity.
    + destruct (Z.eqb_spec y (-1)) as [->|]; [left | by right].
      exfalso. apply Hf. unfold in_sint. lia.
Qed.

(** C32: the sum, difference and product of two integer values of any widths
    is NULL when one of them is, and otherwise the exact result in the wider of
    the two types, or an out-of-range exception when it does not fit. *)
Theorem int_arith_exact (op : ArithOp) (T1 T2 : CType) (x y : Z)
    (Hx : in_sint (width T1) x) (Hy : in_sint (width T2) y) :
  Arith op (mk_int T1 x) (mk_int T2 y) =
  if (x =? INT_NULL T1) || (y =? INT_NULL T2)
  then Ok (mk_int (wider T1 T2) (INT_NULL (wider T1 T2)))
  else arith_spec (wider T1 T2) (exact op x y).
Proof.
  rewrite Arith_unfold, !IsNull_mk.
  destruct (x =? INT_NULL T1) eqn:Ex; [done|].
  destruct (y =? INT_NULL T2) eqn:Ey; [done|]. cbn [orb].
  assert (int_range T1 x) by (rewrite int_range_sint; zify_bool; tauto).
  assert (int_range T2 y) by (rewrite int_range_sint; zify_bool; tauto).
  destruct op; [by apply AddValue_spec | by apply SubtractValue_spec
               | by apply MultiplyValue_spec].
Qed.

Lemma int_arith_exact_witness :
  Arith TIMES (mk_int int32_t 65536) (mk_int int32_t (-65536)) = Fail (Throw "OUT_OF_RANGE") /\
  Arith PLUS (mk_int int8_t 100) (mk_int int16_t 100) = Ok (mk_int int16_t 200).
Proof.
  split; [apply (int_arith_exact TIMES int32_t int32_t)
         | apply (int_arith_exact PLUS int8_t int16_t)]; by_computation.
Defined.

(** The one result in range that is not a number: the NULL sentinel. *)
Example sum_is_null :
  (let* v := Add (mk_int int32_t (INT_MIN int32_t)) (mk_int int8_t (-1)) in Ok (IsNull v))
  = Ok true.
Proof. vm_compute. reflexivity. Qed.

(** ** Division *)

Inductive DivOp := QUOT | REM.

Definition Division (op : DivOp) : Value -> Value -> result Value :=
  match op with QUOT => Divide | REM => Modulo end.

Definition div_exact (op : DivOp) : Z -> Z -> Z :=
  match op with QUOT => Z.quot | REM => Z.rem end.

Definition DIV_METHOD (op : DivOp) : CType -> CType -> Value -> Value -> result Value :=
  match op with QUOT => DivideValue | REM => ModuloValue end.

Lemma Division_unfold op T1 x T2 y :
  Division op (mk_int T1 x) (mk_int T2 y) =
  if IsNull (mk_int T1 x) || IsNull (mk_int T2 y)
  then Ok (mk_int (wider T1 T2) (INT_NULL (wider T1 T2)))
  else if y =? 0 then Fail (Throw "DIVIDE_BY_ZERO")
  else DIV_METHOD op T1 T2 (mk_int T1 x) (mk_int T2 y).
Proof. rewrite <- (OperateNull_mk T1 x T2 y). destruct op, T1, T2; reflexivity. Qed.

Lemma quot_rem_bounds x y m :
  y <> 0 -> - m < x < m -> - m < y < m -> - m < Z.quot x y < m /\ - m < Z.rem x y < m.
Proof.
  intros Hy Hx Hm. pose proof (Z.quot_rem x y Hy). pose proof (Z.rem_bound_abs x y Hy).
  split; [|lia].
  pose proof (Z.quot_abs x y Hy) as Ha.
  pose proof (Z.quot_le_upper_bound (Z.abs x) (Z.abs y) (Z.abs x)).
  assert (Z.abs (Z.quot x y) <= Z.abs x); [|lia].
  rewrite <- Ha. apply H1; nia.
Qed.

Lemma DIV_METHOD_spec op T1 T2 x y :
  int_range T1 x -> int_range T2 y -> y <> 0 ->
  DIV_METHOD op T1 T2 (mk_int T1 x) (mk_int T2 y) =
  Ok (mk_int (wider T1 T2) (div_exact op x y)).
Proof.
  intros Hx Hy Hy0. pose proof (operand_bounds T1 T2 x y Hx Hy) as (Hw & Bx & By).
  pose proof (arith_width_ge T1 T2) as HW.
  set (w := width (wider T1 T2)) in *.
  pose proof (quot_rem_bounds x y (2 ^ (w - 1)) Hy0 Bx By) as [Bq Br].
  assert (Hs : in_sint w (div_exact op x y)) by (unfold in_sint; destruct op; cbn; lia).
  assert (Ht : (x =? - 2 ^ (arith_width T1 T2 - 1)) = false).
  { apply Z.eqb_neq. pose proof (Z.pow_le_mono_r 2 (w - 1) (arith_width T1 T2 - 1)). lia. }
  transitivity (Value_int (type_of (wider T1 T2)) (swrap w (div_exact op x y))).
  - unfold w, wider. destruct op; cbn [DIV_METHOD div_exact];
      unfold DivideValue, ModuloValue, int_div, int_rem; rewrite !GetAs_mk;
      cbn [result_bind]; rewrite (proj2 (Z.eqb_neq y 0)) by done; rewrite Ht;
      cbn [orb andb result_bind]; by destruct (width T2 <=? width T1).
  - rewrite swrap_id by (lia || done). by apply Value_int_mk.
Qed.

(** C33: the quotient and the remainder of two integer values is NULL when one
    of them is, a division-by-zero exception when the divisor is 0, and
    otherwise the exact truncated result in the wider type. *)
Theorem int_division_exact (op : DivOp) (T1 T2 : CType) (x y : Z)
    (Hx : in_sint (width T1) x) (Hy : in_sint (width T2) y) :
  Division op (mk_int T1 x) (mk_int T2 y) =
  if (x =? INT_NULL T1) || (y =? INT_NULL T2)
  then Ok (mk_int (wider T1 T2) (INT_NULL (wider T1 T2)))
  else if y =? 0 then Fail (Throw "DIVIDE_BY_ZERO")
  else Ok (mk_int (wider T1 T2) (div_exact op x y)).
Proof.
  rewrite Division_unfold, !IsNull_mk.
  destruct (x =? INT_NULL T1) eqn:Ex; [done|].
  destruct (y =? INT_NULL T2) eqn:Ey; [done|]. cbn [orb].
  destruct (Z.eqb_spec y 0) as [|Hy0]; [done|].
  apply DIV_METHOD_spec; [rewrite int_range_sint; zify_bool; tauto.. | done].
Qed.

Lemma int_division_exact_witness :
  Division QUOT (mk_int int8_t (-127)) (mk_int int64_t 2) = Ok (mk_int int64_t (-63)) /\
  Division REM (mk_int int32_t 7) (mk_int int32_t 0) = Fail (Throw "DIVIDE_BY_ZERO").
Proof.
  split; [apply (int_division_exact QUOT int8_t int64_t)
         | apply (int_division_exact REM int32_t int32_t)]; by_computation.
Defined.

(** An integer value is never divided by a VARCHAR: VarlenType has no
    IsZero, so the exception of the base class is thrown before the branch that
    would cast the divisor, whatever it holds. *)
Theorem division_by_varchar_throws (op : DivOp) (T : CType) (x : Z) (s : Buf)
    (Hx : int_range T x) (Hs : int_sized s) :
  Division op (mk_int T x) (mk_varchar s) = Fail (Throw "NOT_IMPLEMENTED").
Proof.
  pose proof (IsNull_mk_range T x Hx) as En. pose proof (varchar_not_null s Hs) as Es.
  destruct op, T; cbn [Division]; unfold Divide, Modulo; cbn [type_id_ mk_int type_of];
    unfold TinyintType_Divide, SmallintType_Divide, IntegerType_Divide, BigintType_Divide,
      TinyintType_Modulo, SmallintType_Modulo, IntegerType_Modulo, BigintType_Modulo;
    rewrite En, Es; reflexivity.
Qed.

Lemma division_by_varchar_throws_witness :
  Division QUOT (mk_int int32_t 6) (mk_varchar (Text.lit "3")) = Fail (Throw "NOT_IMPLEMENTED").
Proof. apply (division_by_varchar_throws QUOT int32_t 6); by_computation. Defined.

(** ** Min and Max *)

(** [Min] and [Max] of two non-NULL integer values are the operand with the
    smaller and the larger number, unchanged and with its own type. *)
Theorem int_min_max (T1 T2 : CType) (x y : Z) (Hx : int_range T1 x) (Hy : int_range T2 y) :
  Min (mk_int T1 x) (mk_int T2 y) = Ok (if x <? y then mk_int T1 x else mk_int T2 y) /\
  Max (mk_int T1 x) (mk_int T2 y) = Ok (if y <=? x then mk_int T1 x else mk_int T2 y).
Proof.
  assert (Hc : forall T z, int_range T z -> Copy (mk_int T z) = Ok (mk_int T z)).
  { intros T z Hz. apply copy_int_spec. by apply int_range_sint. }
  assert (Hlt : CompareLessThan (mk_int T1 x) (mk_int T2 y) = Ok (GetCmpBool (x <? y))).
  { change CompareLessThan with (Compare LT). rewrite Compare_int_unfold, CheckComparable_mk,
      assert_true, !IsNull_mk_range by done. apply (integral_compare_ints LT). }
  assert (Hge : CompareGreaterThanEquals (mk_int T1 x) (mk_int T2 y) = Ok (GetCmpBool (y <=? x))).
  { change CompareGreaterThanEquals with (Compare GE). rewrite Compare_int_unfold,
      CheckComparable_mk, assert_true, !IsNull_mk_range by done.
    apply (integral_compare_ints GE). }
  split.
  - transitivity (IntegerParentType_Min (mk_int T1 x) (mk_int T2 y)); [by destruct T1|].
    unfold IntegerParentType_Min. rewrite CheckInteger_mk, CheckComparable_mk, !assert_true,
      !IsNull_mk_range, Hlt by done. cbn [orb result_bind].
    destruct (x <? y); cbn; by apply Hc.
  - transitivity (IntegerParentType_Max (mk_int T1 x) (mk_int T2 y)); [by destruct T1|].
    unfold IntegerParentType_Max. rewrite CheckInteger_mk, CheckComparable_mk, !assert_true,
      !IsNull_mk_range, Hge by done. cbn [orb result_bind].
    destruct (y <=? x); cbn; by apply Hc.
Qed.

Lemma int_min_max_witness :
  Min (mk_int int8_t 3) (mk_int int64_t 3) = Ok (mk_int int64_t 3) /\
  Max (mk_int int8_t 3) (mk_int int64_t 3) = Ok (mk_int int8_t 3).
Proof. apply (int_min_max int8_t int64_t 3 3); by_computation. Defined.

End TypeArith.
