(* ===== verification/TypeSerialize.v ===== *)
(** * The memory image of SQL values

    Module [TypeSerialize] models [SerializeTo] and [DeserializeFrom] of every
    class under [src/type] on a byte buffer and an offset into it, with the
    dispatch of [Value::SerializeTo] and [Value::DeserializeFrom], and proves
    that a stored value is read back. *)

From stdpp Require Import prelude list strings.
From Stdlib Require Import ZArith Lia SpecFloat.
From S2P Require Import Prelude CppStd SqlValue TypeCast.

Local Open Scope Z_scope.

Module TypeSerialize.
Import CppStd.Double SqlValue.SqlValue TypeCast.TypeCast.

(** [*reinterpret_cast<T *>(storage) = z] and [*reinterpret_cast<T *>(storage)]
    for an integer of [n] bytes; [storage] is an offset in a buffer. *)
Definition store (n : nat) (z : Z) (buf : Buf) (storage : Z) : result Buf :=
  memwrite buf storage (le_encode n z).

Definition load (n : nat) (buf : Buf) (storage : Z) : result Z :=
  let* bs := memread buf storage (Z.of_nat n) in Ok (le_decode bs).

Definition BooleanType_SerializeTo (val : Value) (buf : Buf) (storage : Z) : result Buf :=
  let* b := GetAs int8_t val in store 1 b buf storage.

Definition TinyintType_SerializeTo (val : Value) (buf : Buf) (storage : Z) : result Buf :=
  let* z := GetAs int8_t val in store 1 z buf storage.

Definition SmallintType_SerializeTo (val : Value) (buf : Buf) (storage : Z) : result Buf :=
  let* z := GetAs int16_t val in store 2 z buf storage.

Definition IntegerType_SerializeTo (val : Value) (buf : Buf) (storage : Z) : result Buf :=
  let* z := GetAs int32_t val in store 4 z buf storage.

Definition BigintType_SerializeTo (val : Value) (buf : Buf) (storage : Z) : result Buf :=
  let* z := GetAs int64_t val in store 8 z buf storage.

Definition DecimalType_SerializeTo (val : Value) (buf : Buf) (storage : Z) : result Buf :=
  let* d := GetDouble val in store 8 (encode d) buf storage.

Definition VarlenType_SerializeTo (val : Value) (buf : Buf) (storage : Z) : result Buf :=
  let n := VarlenType_GetLength val in
  if n =? PELOTON_VALUE_NULL then store 4 n buf storage
  else
    let* buf := store 4 n buf storage in
    let* p := VarlenType_GetData val in
    match p with
    | Some bytes =>
        let* bs := memread bytes 0 n in
        memwrite buf (storage + 4) bs
    | None => Fail MemFault
    end.

Definition SerializeTo (this : Value) (buf : Buf) (storage : Z) : result Buf :=
  match type_id_ this with
  | INVALID => Fail (Throw "NOT_IMPLEMENTED")
  | BOOLEAN => BooleanType_SerializeTo this buf storage
  | TINYINT => TinyintType_SerializeTo this buf storage
  | SMALLINT => SmallintType_SerializeTo this buf storage
  | INTEGER => IntegerType_SerializeTo this buf storage
  | BIGINT => BigintType_SerializeTo this buf storage
  | DECIMAL => DecimalType_SerializeTo this buf storage
  | VARCHAR => VarlenType_SerializeTo this buf storage
  | TIMESTAMP => Fail Undefined
  end.

Definition BooleanType_DeserializeFrom (buf : Buf) (storage : Z) : result Value :=
  let* u := load 1 buf storage in Value_int BOOLEAN (swrap 8 u).

Definition TinyintType_DeserializeFrom (buf : Buf) (storage : Z) : result Value :=
  let* u := load 1 buf storage in Value_int TINYINT (swrap 8 u).

Definition SmallintType_DeserializeFrom (buf : Buf) (storage : Z) : result Value :=
  let* u := load 2 buf storage in Value_int SMALLINT (swrap 16 u).

Definition IntegerType_DeserializeFrom (buf : Buf) (storage : Z) : result Value :=
  let* u := load 4 buf storage in Value_int INTEGER (swrap 32 u).

Definition BigintType_DeserializeFrom (buf : Buf) (storage : Z) : result Value :=
  let* u := load 8 buf storage in Value_int BIGINT (swrap 64 u).

Definition DecimalType_DeserializeFrom (buf : Buf) (storage : Z) : result Value :=
  let* u := load 8 buf storage in Value_double DECIMAL (decode u).

Definition VarlenType_DeserializeFrom (buf : Buf) (storage : Z) : result Value :=
  let* n := load 4 buf storage in
  if n =? PELOTON_VALUE_NULL then Value_varlen VARCHAR None n false
  else Value_varlen VARCHAR (Some (drop (Z.to_nat (storage + 4)) buf)) n true.

Definition DeserializeFrom (buf : Buf) (storage : Z) (type_id : TypeId) : result Value :=
  match type_id with
  | INVALID => Fail (Throw "NOT_IMPLEMENTED")
  | BOOLEAN => BooleanType_DeserializeFrom buf storage
  | TINYINT => TinyintType_DeserializeFrom buf storage
  | SMALLINT => SmallintType_DeserializeFrom buf storage
  | INTEGER => IntegerType_DeserializeFrom buf storage
  | BIGINT => BigintType_DeserializeFrom buf storage
  | DECIMAL => DecimalType_DeserializeFrom buf storage
  | VARCHAR => VarlenType_DeserializeFrom buf storage
  | TIMESTAMP => Fail Undefined
  end.

(** ** Well-formed values *)

Definition mk_bool (b : Z) : Value :=
  MkValue (VBoolean b) (null_len (b =? PELOTON_BOOLEAN_NULL)) false BOOLEAN.

Definition mk_decimal (d : double) : Value :=
  MkValue (VDecimal d) (null_len (SFeqb d PELOTON_DECIMAL_NULL)) false DECIMAL.

Definition mk_bytes (data : Buf) : Value :=
  MkValue (VVarlen (Some data)) (Z.of_nat (length data)) true VARCHAR.

Definition null_varchar : Value := MkValue (VVarlen None) PELOTON_VALUE_NULL false VARCHAR.

(** The values the constructors build, [Value(TypeId)] and the timestamps apart. *)
Inductive well_formed : Value -> Prop :=
| wf_int T z : in_sint (width T) z -> well_formed (mk_int T z)
| wf_bool b : in_sint 8 b -> well_formed (mk_bool b)
| wf_decimal d : valid_binary prec emax d = true -> well_formed (mk_decimal d)
| wf_bytes data :
    Z.of_nat (length data) < PELOTON_VARCHAR_MAX_LEN -> well_formed (mk_bytes data)
| wf_null_varchar : well_formed null_varchar.

(** The bytes [SerializeTo] writes. *)
Definition image (v : Value) : Buf :=
  match value_ v with
  | VBoolean z | VTinyint z => le_encode 1 z
  | VSmallint z => le_encode 2 z
  | VInteger z => le_encode 4 z
  | VBigint z => le_encode 8 z
  | VDecimal d => le_encode 8 (encode d)
  | VVarlen (Some data) => le_encode 4 (len v) ++ data
  | VVarlen None => le_encode 4 (len v)
  | _ => []
  end.

Lemma memwrite_app (buf : Buf) off b1 b2 :
  0 <= off -> off + Z.of_nat (length b1) + Z.of_nat (length b2) <= Z.of_nat (length buf) ->
  (let* buf := memwrite buf off b1 in memwrite buf (off + Z.of_nat (length b1)) b2) =
  Ok (splice off (b1 ++ b2) buf).
Proof.
  intros H0 H1. rewrite memwrite_ok by lia. cbn [result_bind].
  rewrite memwrite_ok by (rewrite ?length_splice; lia). f_equal.
  apply list_eq. intros i.
  rewrite !lookup_splice by (rewrite ?length_splice, ?length_app; lia).
  rewrite length_app. repeat case_decide; try lia; try done.
  - by rewrite lookup_app_l by lia.
  - rewrite lookup_app_r by lia. f_equal. lia.
Qed.

(** Storing a well-formed value writes its image, at any place with room. *)
Lemma SerializeTo_spec v buf off :
  well_formed v -> 0 <= off -> off + Z.of_nat (length (image v)) <= Z.of_nat (length buf) ->
  SerializeTo v buf off = Ok (splice off (image v) buf).
Proof.
  intros Hv H0 H1. destruct Hv as [T z Hz|b Hb|d Hd|data Hl|]; unfold SerializeTo, store.
  - destruct T; apply memwrite_ok; done.
  - by apply memwrite_ok.
  - by apply memwrite_ok.
  - cbn [type_id_ mk_bytes]. unfold VarlenType_SerializeTo, VarlenType_GetLength, store.
    unfold image in *. cbn [len mk_bytes value_] in *. rewrite length_app, length_le_encode in H1.
    unfold PELOTON_VALUE_NULL, PELOTON_VARCHAR_MAX_LEN in *.
    rewrite (proj2 (Z.eqb_neq _ (2 ^ 32 - 1))) by lia.
    pose proof (memwrite_app buf off (le_encode 4 (Z.of_nat (length data))) data) as Ha.
    rewrite length_le_encode in Ha. rewrite <- Ha by lia.
    rewrite memwrite_ok by (rewrite ?length_le_encode; lia).
    cbn [result_bind VarlenType_GetData value_ mk_bytes].
    rewrite memread_ok by lia. cbn [result_bind]. unfold slice.
    rewrite drop_0, take_ge by lia. done.
  - by apply memwrite_ok.
Qed.

Lemma load_image n z (buf : Buf) off :
  0 <= off -> off + Z.of_nat n <= Z.of_nat (length buf) ->
  slice off (Z.of_nat n) buf = le_encode n z -> load n buf off = Ok (z mod 2 ^ (8 * Z.of_nat n)).
Proof.
  intros H0 H1 Hs. unfold load. rewrite memread_ok, Hs by lia. cbn [result_bind].
  by rewrite le_decode_encode.
Qed.

Lemma swrap_load w z : 0 < w -> in_sint w z -> swrap w (z mod 2 ^ w) = z.
Proof. intros. rewrite swrap_mod by lia. by apply swrap_id. Qed.

(** Wherever the image of a well-formed value lies, its type reads it back. *)
Lemma DeserializeFrom_spec v (buf : Buf) off :
  well_formed v -> 0 <= off -> off + Z.of_nat (length (image v)) <= Z.of_nat (length buf) ->
  slice off (Z.of_nat (length (image v))) buf = image v ->
  DeserializeFrom buf off (type_id_ v) = Ok v.
Proof.
  intros Hv H0 H1 Hs. destruct Hv as [T z Hz|b Hb|d Hd|data Hl|]; unfold DeserializeFrom.
  - assert (E : exists n, 8 * Z.of_nat n = width T /\ image (mk_int T z) = le_encode n z /\
               DeserializeFrom buf off (type_of T) =
               let* u := load n buf off in Value_int (type_of T) (swrap (width T) u)).
    { destruct T; [exists 1%nat|exists 2%nat|exists 4%nat|exists 8%nat]; done. }
    destruct E as (n & En & Ei & Ed). rewrite Ei, length_le_encode in *.
    change (DeserializeFrom buf off (type_of T) = Ok (mk_int T z)). rewrite Ed.
    rewrite (load_image n z) by done. cbn [result_bind]. rewrite En, swrap_load by
      eauto using width_pos. by apply Value_int_mk.
  - cbn [type_id_ mk_bool]. unfold BooleanType_DeserializeFrom.
    rewrite (load_image 1 b) by done. cbn [result_bind]. change (8 * Z.of_nat 1) with 8.
    rewrite swrap_load by (lia || done). unfold Value_int. by rewrite swrap_id by (lia || done).
  - cbn [type_id_ mk_decimal]. unfold DecimalType_DeserializeFrom.
    rewrite (load_image 8 (encode d)) by done. cbn [result_bind].
    change (8 * Z.of_nat 8) with 64.
    rewrite Z.mod_small by (by apply encode_range). by rewrite decode_encode.
  - cbn [type_id_ mk_bytes]. unfold VarlenType_DeserializeFrom.
    unfold image in *. cbn [value_ mk_bytes len] in *.
    rewrite length_app, length_le_encode in *.
    unfold PELOTON_VALUE_NULL, PELOTON_VARCHAR_MAX_LEN in *.
    rewrite Nat2Z.inj_add, (slice_split off) in Hs by lia.
    apply app_inj_1 in Hs as [Hs1 Hs2]; [|rewrite length_slice, length_le_encode; lia].
    rewrite (load_image 4 (Z.of_nat (length data))) by (try done; lia).
    cbn [result_bind]. change (8 * Z.of_nat 4) with 32. rewrite Z.mod_small by lia.
    rewrite (proj2 (Z.eqb_neq _ (2 ^ 32 - 1))) by lia.
    unfold Value_varlen. rewrite assert_ok by (apply Z.ltb_lt; unfold PELOTON_VARCHAR_MAX_LEN; lia).
    rewrite memread_ok by (rewrite ?length_drop; lia). cbn [result_bind]. unfold mk_bytes.
    do 4 f_equal. rewrite <- Hs2 at 2. unfold slice. rewrite drop_0. do 2 f_equal; lia.
  - cbn [type_id_ null_varchar]. unfold VarlenType_DeserializeFrom.
    rewrite (load_image 4 PELOTON_VALUE_NULL) by done. reflexivity.
Qed.

(** C35: storing any well-formed value, NULL included, at a place with room
    changes exactly the bytes of its image there, and reading its type at that
    place gives the value back. *)
Theorem value_serialize_roundtrip (v : Value) (buf : Buf) (off : Z)
    (Hv : well_formed v) (H0 : 0 <= off)
    (H1 : off + Z.of_nat (length (image v)) <= Z.of_nat (length buf)) :
  SerializeTo v buf off = Ok (splice off (image v) buf) /\
  (let* buf' := SerializeTo v buf off in DeserializeFrom buf' off (type_id_ v)) = Ok v.
Proof.
  rewrite SerializeTo_spec by done. split; [done|]. cbn [result_bind].
  apply DeserializeFrom_spec; [done | done | by rewrite length_splice |].
  apply slice_splice_eq; lia.
Qed.

Lemma value_serialize_roundtrip_witness :
  (let* buf' := SerializeTo (mk_bytes [104; 105; 0]) (replicate 10 7) 2 in
   DeserializeFrom buf' 2 VARCHAR) = Ok (mk_bytes [104; 105; 0]).
Proof.
  apply (value_serialize_roundtrip (mk_bytes [104; 105; 0])); [|by_computation..].
  apply wf_bytes. by_computation.
Defined.

(** ** Casts build well-formed values *)

Lemma Value_int_wf type z v :
  Value_int type z = Ok v -> type <> TIMESTAMP -> type_id_ v = type /\ well_formed v.
Proof.
  intros H Ht.
  assert (Hs : forall w, 0 < w -> in_sint w (swrap w z)) by (intros; by apply swrap_range).
  destruct type; try discriminate H; try done; injection H as <-; (split; [done|]);
    [apply wf_bool | apply (wf_int int8_t) | apply (wf_int int16_t)
    | apply (wf_int int32_t) | apply (wf_int int64_t)]; by apply Hs.
Qed.

Lemma Value_string_wf s v :
  Value_string VARCHAR s = Ok v -> Z.of_nat (length s) + 1 < PELOTON_VARCHAR_MAX_LEN ->
  type_id_ v = VARCHAR /\ well_formed v.
Proof.
  intros H Hs. rewrite Value_string_mk in H by done. injection H as <-. split; [done|].
  replace (mk_varchar s) with (mk_bytes (s ++ [0])).
  - apply wf_bytes. rewrite length_app. cbn [length]. lia.
  - unfold mk_bytes, mk_varchar. rewrite length_app. cbn [length]. f_equal. lia.
Qed.

Lemma length_six k n acc : length (six_digits k n acc) = (k + length acc)%nat.
Proof.
  revert n acc. induction k as [|k IH]; intros n acc; cbn [six_digits]; [done|].
  rewrite IH. cbn [length]. lia.
Qed.

Lemma length_double_to_string d : (length (Double.to_string d) <= 330)%nat.
Proof.
  destruct d as [s|s| |s m e]; cbn [Double.to_string];
    [destruct s; by_computation..|by_computation|].
  rewrite !length_app, length_six. cbn [length].
  pose proof (length_digits 310) as Hl.
  etransitivity; [apply Nat.add_le_mono; [|apply Nat.add_le_mono; [apply Hl|reflexivity]]|].
  - instantiate (1 := 1%nat). destruct s; cbn; lia.
  - cbn [length]. lia.
Qed.

(** The text of a well-formed value that is no string is short. *)
Lemma ToString_short v s :
  well_formed v -> type_id_ v <> VARCHAR -> ToString v = Ok s ->
  Z.of_nat (length s) + 1 < PELOTON_VARCHAR_MAX_LEN.
Proof.
  intros Hv Hn H. enough (length s <= 330)%nat by (unfold PELOTON_VARCHAR_MAX_LEN; lia).
  destruct Hv as [T z Hz|b Hb|d Hd|data Hl|]; try done.
  - destruct (z =? INT_NULL T) eqn:E.
    + zify_bool. subst z. destruct T; vm_compute in H; injection H as <-; by_computation.
    + rewrite int_ToString in H by (rewrite int_range_sint; zify_bool; tauto).
      injection H as <-. pose proof (length_to_string z). lia.
  - unfold ToString in H. cbn in H. unfold BooleanType_ToString in H. cbn in H.
    destruct (b =? 1), (b =? 0); injection H as <-; by_computation.
  - unfold ToString in H. cbn in H. unfold DecimalType_ToString in H.
    destruct (IsNull _); cbn in H; injection H as <-; [by_computation|].
    apply length_double_to_string.
Qed.

Lemma cast_varchar_wf v v' :
  well_formed v -> type_id_ v <> VARCHAR -> cast_varchar v = Ok v' ->
  type_id_ v' = VARCHAR /\ well_formed v'.
Proof.
  intros Hv Hn H. unfold cast_varchar in H. destruct (IsNull v).
  - injection H as <-. split; [done | apply wf_null_varchar].
  - apply bind_ok_inv in H as (s & Es & H). eapply Value_string_wf; [done|].
    by eapply ToString_short.
Qed.

Lemma Copy_wf v v' : well_formed v -> Copy v = Ok v' -> v' = v.
Proof.
  intros Hv H. destruct Hv as [T z Hz|b Hb|d Hd|data Hl|].
  - rewrite copy_int_spec in H by done. by injection H as <-.
  - unfold Copy in H. cbn in H. unfold BooleanType_Copy in H. cbn in H.
    rewrite swrap_id in H by (lia || done). by injection H as <-.
  - by injection H as <-.
  - unfold Copy in H. cbn [type_id_ mk_bytes] in H.
    unfold VarlenType_Copy, Value_copy in H. cbn [type_id_ mk_bytes len manage_data_ value_] in H.
    unfold PELOTON_VALUE_NULL, PELOTON_VARCHAR_MAX_LEN in *.
    rewrite (proj2 (Z.eqb_neq _ (2 ^ 32 - 1))), memread_ok in H by lia.
    cbn [result_bind] in H. injection H as <-. unfold mk_bytes, slice.
    rewrite drop_0, take_ge by lia. done.
  - by injection H as <-.
Qed.

(** Opens one cast to an integer type or to BOOLEAN. *)
Ltac cast_cases H :=
  repeat (repeat apply bind_ok_inv in H as (? & ? & H);
    match type of H with
    | (if ?b then _ else _) = Ok _ => destruct b
    | narrow _ _ _ = Ok _ => unfold narrow in H
    | decimal_narrow _ _ _ = Ok _ => unfold decimal_narrow in H
    end; try discriminate H); repeat apply bind_ok_inv in H as (? & ? & H);
  first [ by apply Value_int_wf in H
        | apply Copy_wf in H; [by rewrite H | eauto using well_formed] ].

Lemma int_cast_wf v type v' :
  well_formed v -> CastAs v type = Ok v' ->
  type <> DECIMAL -> type <> VARCHAR ->
  type_id_ v' = type /\ well_formed v'.
Proof.
  intros Hv H Hd Hs. unfold CastAs in H.
  destruct (type_id_ v) eqn:Et; try discriminate H;
    destruct type; try discriminate H; try done;
    cbn [BooleanType_CastAs TinyintType_CastAs SmallintType_CastAs IntegerType_CastAs
         BigintType_CastAs DecimalType_CastAs VarlenType_CastAs] in H;
    cast_cases H.
Qed.

Lemma varchar_cast_wf v v' :
  well_formed v -> CastAs v VARCHAR = Ok v' -> type_id_ v' = VARCHAR /\ well_formed v'.
Proof.
  intros Hv H. destruct (decide (type_id_ v = VARCHAR)) as [E|E].
  - unfold CastAs in H. rewrite E in H. cbn [VarlenType_CastAs] in H.
    apply Copy_wf in H; [|done]. by subst.
  - apply cast_varchar_wf with v; [done..|]. unfold CastAs in H.
    destruct (type_id_ v); done.
Qed.



End TypeSerialize.
