(* ===== verification/SqlTuple.v ===== *)
(** * Schemas, tuples and index keys

    Module [SqlTuple] models [catalog/column], [catalog/schema], the layout half
    of [table/tuple] (building a tuple from values and reading a column back)
    and [index/generic_key.h].  The bytes [new char[n]] returns are the
    parameter [uninit]. *)

From stdpp Require Import prelude list strings.
From Stdlib Require Import ZArith Lia.
From S2P Require Import Prelude CppStd SqlValue TypeCast TypeCompare TypeSerialize BPlusTreePage.

Local Open Scope Z_scope.

Module SqlTuple.
Import SqlValue.SqlValue TypeCast.TypeCast TypeCompare.TypeCompare TypeSerialize.TypeSerialize.

(** ** Column *)

Record Column := mkColumn {
  column_type : TypeId;
  fixed_length : Z;
  variable_length : Z;
  column_name : string;
  is_inlined : bool;
  column_offset : Z
}.

Definition SetInlined (c : Column) : Column :=
  let b := match column_type c with VARCHAR => false | _ => true end in
  mkColumn (column_type c) (fixed_length c) (variable_length c) (column_name c) b
           (column_offset c).

Definition SetLength (column_length : Z) (c : Column) : Column :=
  if is_inlined c
  then mkColumn (column_type c) column_length 0 (column_name c) (is_inlined c) (column_offset c)
  else mkColumn (column_type c) 4 column_length (column_name c) (is_inlined c) (column_offset c).

(** The constructor from a type, a length and a name. *)
Definition Column_create (value_type : TypeId) (column_length : Z) (name : string)
    : result Column :=
  let c := SetInlined (mkColumn value_type (-1) (-1) name false (-1)) in
  if is_inlined c && (column_length <=? 0) then Fail (Throw "CONSTRAINT")
  else Ok (SetLength column_length c).

Definition Column_GetLength (c : Column) : Z :=
  if is_inlined c then fixed_length c else variable_length c.

(** [operator==]: the type and the inlined flag only. *)
Definition Column_eq (this other : Column) : bool :=
  negb (negb (bool_decide (column_type other = column_type this))
        || negb (Bool.eqb (is_inlined other) (is_inlined this))).

(** ** Schema *)

Record Schema := mkSchema {
  length_ : Z;
  columns : list Column;
  tuple_is_inlined : bool;
  uninlined_columns : list nat
}.

Definition set_offset (c : Column) (offset : Z) : Column :=
  mkColumn (column_type c) (fixed_length c) (variable_length c) (column_name c)
           (is_inlined c) offset.

(** The loop of the constructor, from the column [index]. *)
Fixpoint schema_loop (cols : list Column) (index : nat) (column_offset : Z) (s : Schema)
    : Schema :=
  match cols with
  | [] => mkSchema column_offset (columns s) (tuple_is_inlined s) (uninlined_columns s)
  | column :: cols =>
      let s := if is_inlined column then s
               else mkSchema (length_ s) (columns s) false (uninlined_columns s ++ [index]) in
      schema_loop cols (S index) (wrap32 (column_offset + fixed_length column))
        (mkSchema (length_ s) (columns s ++ [set_offset column column_offset])
                  (tuple_is_inlined s) (uninlined_columns s))
  end.

Definition Schema_create (cols : list Column) : Schema :=
  schema_loop cols 0 0 (mkSchema 0 [] true []).

Definition GetColumnCount (s : Schema) : Z := wrap32 (Z.of_nat (length (columns s))).

(** [columns[column_id]]. *)
Definition GetColumn (s : Schema) (column_id : Z) : result Column :=
  BPage.cell (columns s) column_id.

Definition GetOffset (s : Schema) (column_id : Z) : result Z :=
  let* c := GetColumn s column_id in Ok (column_offset c).

Definition GetType (s : Schema) (column_id : Z) : result TypeId :=
  let* c := GetColumn s column_id in Ok (column_type c).

Definition IsInlined (s : Schema) (column_id : Z) : result bool :=
  let* c := GetColumn s column_id in Ok (is_inlined c).

Definition GetAppropriateLength (s : Schema) (column_id : Z) : result Z :=
  let* c := GetColumn s column_id in
  Ok (if is_inlined c then fixed_length c else variable_length c).

Fixpoint column_id_loop (cols : list Column) (i : Z) (name : string) : Z :=
  match cols with
  | [] => -1
  | c :: cols => if String.eqb (column_name c) name then i else column_id_loop cols (i + 1) name
  end.

Definition GetColumnID (s : Schema) (col_name : string) : Z :=
  column_id_loop (columns s) 0 col_name.

Fixpoint copy_columns (schema : Schema) (ids : list Z) : result (list Column) :=
  match ids with
  | [] => Ok []
  | id :: ids =>
      assert! id <? GetColumnCount schema ;;
      let* c := GetColumn schema id in
      let* cs := copy_columns schema ids in
      Ok (c :: cs)
  end.

Definition CopySchema (schema : Schema) (ids : list Z) : result Schema :=
  let* column_list := copy_columns schema ids in Ok (Schema_create column_list).

Fixpoint columns_eq (this other : list Column) : bool :=
  match this, other with
  | c :: this, d :: other => Column_eq c d && columns_eq this other
  | _, _ => true
  end.

Definition Schema_eq (this other : Schema) : bool :=
  if negb (GetColumnCount other =? GetColumnCount this)
     || negb (Bool.eqb (tuple_is_inlined other) (tuple_is_inlined this))
  then false else columns_eq (columns this) (columns other).

(** ** Tuple *)

(** [Value::GetLength]: only VarlenType has one. *)
Definition GetLength (v : Value) : result Z :=
  match type_id_ v with
  | VARCHAR => Ok (VarlenType_GetLength v)
  | TIMESTAMP => Fail Undefined
  | _ => Fail (Throw "NOT_IMPLEMENTED")
  end.

Section Build.
(** The bytes of a new array. *)
Context (uninit : Z -> Buf).

Definition new_chars (n : Z) : result Buf :=
  if n <? 0 then Fail (Throw "std::bad_alloc") else Ok (uninit n).

Fixpoint tuple_size_loop (values : list Value) (uninlined : list nat) (tuple_size : Z)
    : result Z :=
  match uninlined with
  | [] => Ok tuple_size
  | i :: uninlined =>
      let* v := from_option_r MemFault (values !! i) in
      let* n := GetLength v in
      tuple_size_loop values uninlined (wrap32 (tuple_size + (n + 4)))
  end.

(** The loop over the columns from [i], with their values. *)
Fixpoint serialize_loop (cols : list Column) (values : list Value) (data : Buf) (offset : Z)
    : result Buf :=
  match cols, values with
  | [], _ => Ok data
  | _ :: _, [] => Fail MemFault
  | c :: cols, v :: values =>
      if is_inlined c then
        let* data := TypeSerialize.SerializeTo v data (column_offset c) in
        serialize_loop cols values data offset
      else
        let* data := write_i32 data (column_offset c) offset in
        let* data := TypeSerialize.SerializeTo v data offset in
        let* n := GetLength v in
        serialize_loop cols values data (wrap32 (offset + (n + 4)))
  end.

(** [Tuple(values, schema)]: its data, whose length is [size_]. *)
Definition Tuple_create (values : list Value) (schema : Schema) : result Buf :=
  assert! wrap32 (Z.of_nat (length values)) =? GetColumnCount schema ;;
  let* tuple_size := tuple_size_loop values (uninlined_columns schema) (length_ schema) in
  let* data := new_chars tuple_size in
  serialize_loop (columns schema) values data (length_ schema).

(** [Tuple::DeserializeFrom], from an offset of a page. *)
Definition Tuple_DeserializeFrom (storage : Buf) (off : Z) : result Buf :=
  let* size := read_i32 storage off in
  let* _ := new_chars size in
  memread storage (off + 4) size.
End Build.

(** [Tuple::SerializeTo]. *)
Definition Tuple_SerializeTo (data storage : Buf) (off : Z) : result Buf :=
  let* storage := write_i32 storage off (Z.of_nat (length data)) in
  memwrite storage (off + 4) data.

(** The offset [GetDataPtr] points at. *)
Definition GetDataPtr (data : Buf) (schema : Schema) (column_id : Z) : result Z :=
  let* is_inlined := IsInlined schema column_id in
  let* off := GetOffset schema column_id in
  if is_inlined : bool then Ok off else read_i32 data off.

Definition GetValue (data : Buf) (schema : Schema) (column_id : Z) : result Value :=
  let* column_type := GetType schema column_id in
  let* data_ptr := GetDataPtr data schema column_id in
  DeserializeFrom data data_ptr column_type.

Definition Tuple_IsNull (data : Buf) (schema : Schema) (column_id : Z) : result bool :=
  let* value := GetValue data schema column_id in Ok (IsNull value).

(** ** GenericKey and GenericComparator *)

Section Key.
Context (KeySize : Z).

Definition zero_key : Buf := replicate (Z.to_nat KeySize) 0.

Definition SetFromKey (tuple : Buf) : result Buf := memwrite zero_key 0 tuple.

Definition SetFromInteger (key : Z) : result Buf := memwrite zero_key 0 (le_encode 8 key).

Definition ToValue (key : Buf) (schema : Schema) (column_id : Z) : result Value :=
  let* column_type := GetType schema column_id in
  let* is_inlined := IsInlined schema column_id in
  let* off := GetOffset schema column_id in
  let* data_ptr := if is_inlined : bool then Ok off else read_i32 key off in
  DeserializeFrom key data_ptr column_type.

Definition Key_ToString (key : Buf) : result Z :=
  let* bs := memread key 0 8 in Ok (swrap 64 (le_decode bs)).

(** The loop of [GenericComparator::operator()] over [n] columns from [i]. *)
Fixpoint compare_loop (key_schema : Schema) (lhs rhs : Buf) (i : Z) (n : nat) : result Z :=
  match n with
  | O => Ok 0
  | S n =>
      let* lhs_value := ToValue lhs key_schema i in
      let* rhs_value := ToValue rhs key_schema i in
      let* lt := CompareLessThan lhs_value rhs_value in
      if bool_decide (lt = CMP_TRUE) then Ok (-1)
      else
        let* gt := CompareGreaterThan lhs_value rhs_value in
        if bool_decide (gt = CMP_TRUE) then Ok 1
        else compare_loop key_schema lhs rhs (i + 1) n
  end.

Definition compare_keys (key_schema : Schema) (lhs rhs : Buf) : result Z :=
  compare_loop key_schema lhs rhs 0 (length (columns key_schema)).
End Key.

(** ** The layout *)

Fixpoint place (off : Z) (cols : list Column) : list Column :=
  match cols with
  | [] => []
  | c :: cols => set_offset c off :: place (off + fixed_length c) cols
  end.

Fixpoint fixed_total (cols : list Column) : Z :=
  match cols with [] => 0 | c :: cols => fixed_length c + fixed_total cols end.

Fixpoint uninlined_from (i : nat) (cols : list Column) : list nat :=
  match cols with
  | [] => []
  | c :: cols => (if is_inlined c then [] else [i]) ++ uninlined_from (S i) cols
  end.

(** The bytes the values of the columns stored out of line take. *)
Fixpoint payload (cols : list Column) (values : list Value) : Z :=
  match cols, values with
  | c :: cols, v :: values =>
      (if is_inlined c then 0 else Z.of_nat (length (image v))) + payload cols values
  | _, _ => 0
  end.

(** A column [Column_create] builds, with room for the values of its type. *)
Definition column_ok (c : Column) : Prop :=
  0 < fixed_length c /\ is_inlined c = negb (bool_decide (column_type c = VARCHAR)) /\
  (is_inlined c = false -> fixed_length c = 4) /\
  (forall n, is_inlined c = true -> GetTypeSize (column_type c) = Ok n -> n <= fixed_length c).

(** A value the column can store: no NULL string. *)
Definition fits (c : Column) (v : Value) : Prop :=
  type_id_ v = column_type c /\ well_formed v /\ (is_inlined c = false -> IsNull v = false).

Lemma fixed_total_pos cols : Forall column_ok cols -> 0 <= fixed_total cols.
Proof. induction 1 as [|c cols [Hc _] _ IH]; simpl; lia. Qed.

Lemma payload_pos cols values : 0 <= payload cols values.
Proof.
  revert values. induction cols as [|c cols IH]; intros [|v values]; simpl; try lia.
  specialize (IH values). destruct (is_inlined c); lia.
Qed.

Lemma schema_loop_spec cols i off s :
  Forall column_ok cols -> 0 <= off -> off + fixed_total cols < 2 ^ 31 ->
  exists b, schema_loop cols i off s =
  mkSchema (off + fixed_total cols) (columns s ++ place off cols) b
           (uninlined_columns s ++ uninlined_from i cols).
Proof.
  intros Hc. revert i off s. induction Hc as [|c cols Hc Hcs IH]; intros i off s H0 Hs; simpl in *.
  - exists (tuple_is_inlined s). by rewrite Z.add_0_r, !app_nil_r.
  - pose proof (fixed_total_pos _ Hcs). destruct Hc as [Hc _].
    rewrite swrap_id by (unfold in_sint; lia).
    destruct (IH (S i) (off + fixed_length c)
      (mkSchema (length_ s) (columns s ++ [set_offset c off])
        (if is_inlined c then tuple_is_inlined s else false)
        (if is_inlined c then uninlined_columns s else uninlined_columns s ++ [i])))
      as [b Hb]; [lia..|].
    exists b. destruct (is_inlined c); cbn [columns tuple_is_inlined uninlined_columns length_] in *;
      rewrite Hb, Z.add_assoc, <- !app_assoc; reflexivity.
Qed.

(** The space the image of a value takes in its column. *)
Lemma image_inlined c v :
  column_ok c -> fits c v -> is_inlined c = true ->
  Z.of_nat (length (image v)) <= fixed_length c.
Proof.
  intros (_ & Hi & _ & Hsz) (Ht & Hv & _) Hin. rewrite Hin in Hi.
  assert (Hn : column_type c <> VARCHAR).
  { destruct (bool_decide (column_type c = VARCHAR)) eqn:E; [done|].
    by apply bool_decide_eq_false in E. }
  destruct Hv as [T z Hz|b Hb|d Hd|data Hl|]; simpl in Ht; try congruence.
  - rewrite <- Ht in Hsz. destruct T; by apply Hsz.
  - rewrite <- Ht in Hsz. by apply Hsz.
  - rewrite <- Ht in Hsz. by apply Hsz.
Qed.

Lemma image_uninlined c v :
  column_ok c -> fits c v -> is_inlined c = false ->
  GetLength v = Ok (Z.of_nat (length (image v)) - 4) /\ 4 <= Z.of_nat (length (image v)).
Proof.
  intros (_ & Hi & _) (Ht & Hv & Hn) Hin. rewrite Hin in Hi.
  assert (E : column_type c = VARCHAR).
  { destruct (bool_decide (column_type c = VARCHAR)) eqn:E; [|done].
    by apply bool_decide_eq_true in E. }
  rewrite E in Ht. destruct Hv as [T z Hz|b Hb|d Hd|data Hl|]; try (by destruct T); try done.
  - unfold GetLength, image. cbn [type_id_ mk_bytes value_ len]. rewrite length_app, length_le_encode.
    split; [|lia]. f_equal. unfold VarlenType_GetLength. cbn [len mk_bytes]. lia.
  - by specialize (Hn Hin).
Qed.

Lemma tuple_size_spec cols values done more ids acc :
  Forall column_ok cols -> Forall2 fits cols values -> 0 <= acc ->
  acc + payload cols values < 2 ^ 31 ->
  tuple_size_loop (done ++ values ++ more) (uninlined_from (length done) cols ++ ids) acc =
  tuple_size_loop (done ++ values ++ more) ids (acc + payload cols values).
Proof.
  intros Hc Hf. revert done acc. induction Hf as [|c v cols values Hv Hf IH];
    intros done acc H0 Hs; simpl in *; [by rewrite Z.add_0_r|].
  inversion Hc as [|? ? Hc1 Hc2]; subst. pose proof (payload_pos cols values).
  assert (Hd : forall acc, 0 <= acc -> acc + payload cols values < 2 ^ 31 ->
    tuple_size_loop (done ++ v :: values ++ more)
      (uninlined_from (S (length done)) cols ++ ids) acc =
    tuple_size_loop (done ++ v :: values ++ more) ids (acc + payload cols values)).
  { intros acc' Ha Hb. specialize (IH Hc2 (done ++ [v]) acc' Ha Hb).
    rewrite <- app_assoc, length_app, Nat.add_1_r in IH. exact IH. }
  destruct (is_inlined c) eqn:Ei; cbn [app]; [rewrite Hd by lia; f_equal; lia|].
  destruct (image_uninlined c v Hc1 Hv Ei) as [El Hl].
  cbn [tuple_size_loop]. rewrite lookup_app_r, Nat.sub_diag by lia. cbn [lookup list_lookup].
  cbn [from_option_r result_bind]. rewrite El. cbn [result_bind].
  rewrite swrap_id by (unfold in_sint; lia). rewrite Hd by lia. f_equal. lia.
Qed.

(** Where a value lies in the data of a tuple. *)
Definition col_stored (data : Buf) (c : Column) (v : Value) : Prop :=
  exists ptr,
    (if is_inlined c then ptr = column_offset c else read_i32 data (column_offset c) = Ok ptr) /\
    0 <= ptr /\ ptr + Z.of_nat (length (image v)) <= Z.of_nat (length data) /\
    slice ptr (Z.of_nat (length (image v))) data = image v.

Lemma read_i32_slice buf off : 
  0 <= off -> off + 4 <= Z.of_nat (length buf) ->
  read_i32 buf off = Ok (wrap32 (le_decode (slice off 4 buf))).
Proof. intros. unfold read_i32. by rewrite memread_ok by lia. Qed.

(** Serializing the columns from [lo] on, with the payload from [off] on. *)
Lemma serialize_loop_spec cols values data lo slen off :
  Forall column_ok cols -> Forall2 fits cols values ->
  0 <= lo -> lo + fixed_total cols <= slen -> slen <= off ->
  off + payload cols values <= Z.of_nat (length data) -> off + payload cols values < 2 ^ 31 ->
  exists data',
    (forall more mv, serialize_loop (place lo cols ++ more) (values ++ mv) data off =
                     serialize_loop more mv data' (off + payload cols values)) /\
    length data' = length data /\
    (forall o m, 0 <= o -> 0 <= m -> o + m <= lo \/ slen <= o /\ o + m <= off ->
       slice o m data' = slice o m data) /\
    Forall2 (col_stored data') (place lo cols) values.
Proof.
  intros Hc Hf. revert data lo off. induction Hf as [|c v cols values Hv Hf IH];
    intros data lo off H0 Hlo Hoff Hlen Hmax; simpl in *.
  { exists data. rewrite Z.add_0_r. repeat split; auto. }
  inversion Hc as [|? ? Hc1 Hc2]; subst. pose proof (payload_pos cols values).
  pose proof (fixed_total_pos _ Hc2). pose proof (proj1 Hc1).
  change (is_inlined (set_offset c lo)) with (is_inlined c).
  change (column_offset (set_offset c lo)) with lo.
  destruct (is_inlined c) eqn:Ei.
  - pose proof (image_inlined c v Hc1 Hv Ei) as Hi. destruct Hv as (Ht & Hw & _).
    assert (Hl : length (splice lo (image v) data) = length data) by (apply length_splice; lia).
    destruct (IH Hc2 (splice lo (image v) data) (lo + fixed_length c) off)
      as (d & Hd & Hdl & Hfr & Hst); [lia..|].
    exists d. split; [|split; [lia|split]].
    + intros more mv. rewrite SerializeTo_spec by (try done; lia). cbn [result_bind].
      by rewrite Hd.
    + intros o m Ho Hm Hr. rewrite Hfr by lia. apply slice_splice_disj; lia.
    + constructor; [|exact Hst]. exists lo. cbn [is_inlined set_offset column_offset].
      rewrite Ei. repeat split; [lia | lia |]. rewrite Hfr by lia. apply slice_splice_eq; lia.
  - destruct (image_uninlined c v Hc1 Hv Ei) as [El Hl4].
    assert (E4 : fixed_length c = 4) by (by apply Hc1). destruct Hv as (Ht & Hw & _).
    destruct (write_i32_spec data lo off) as (d1 & Hd1 & [Hl1 Hs1] & Hr1);
      [lia | lia | unfold in_sint; lia |].
    assert (Hl : length (splice off (image v) d1) = length data) by (rewrite length_splice; lia).
    destruct (IH Hc2 (splice off (image v) d1) (lo + fixed_length c)
                (off + (Z.of_nat (length (image v)) - 4 + 4)))
      as (d & Hd & Hdl & Hfr & Hst); [lia..|].
    exists d. split; [|split; [lia|split]].
    + intros more mv. rewrite Hd1. cbn [result_bind].
      rewrite SerializeTo_spec by (try done; lia). cbn [result_bind]. rewrite El.
      cbn [result_bind]. rewrite swrap_id by (unfold in_sint; lia). rewrite Hd. f_equal. lia.
    + intros o m Ho Hm Hr. rewrite Hfr by lia. rewrite slice_splice_disj by lia.
      apply Hs1; lia.
    + constructor; [|exact Hst]. exists off. cbn [is_inlined set_offset column_offset].
      rewrite Ei. repeat split; [|lia | lia |].
      * rewrite read_i32_slice, Hfr, slice_splice_disj by lia. f_equal. exact Hr1.
      * rewrite Hfr by lia. apply slice_splice_eq; lia.
Qed.

(** A tuple that fits an [int32_t]. *)
Definition tuple_fits (cols : list Column) (values : list Value) : Prop :=
  Forall column_ok cols /\ Forall2 fits cols values /\
  fixed_total cols + payload cols values < 2 ^ 31 /\ Z.of_nat (length cols) < 2 ^ 31.

(** [new char[n]] returns [n] bytes. *)
Definition allocator (uninit : Z -> Buf) : Prop :=
  forall n, 0 <= n -> Z.of_nat (length (uninit n)) = n.

Lemma Schema_create_spec cols :
  Forall column_ok cols -> fixed_total cols < 2 ^ 31 ->
  columns (Schema_create cols) = place 0 cols /\
  length_ (Schema_create cols) = fixed_total cols /\
  uninlined_columns (Schema_create cols) = uninlined_from 0 cols.
Proof.
  intros Hc Hs. unfold Schema_create.
  destruct (schema_loop_spec cols 0 0 (mkSchema 0 [] true []) Hc) as [b ->]; [lia..|].
  done.
Qed.

Lemma length_place off cols : length (place off cols) = length cols.
Proof. revert off. induction cols; intros; simpl; auto. Qed.

Lemma Tuple_create_spec uninit cols values :
  allocator uninit -> tuple_fits cols values ->
  exists data,
    Tuple_create uninit values (Schema_create cols) = Ok data /\
    Z.of_nat (length data) = fixed_total cols + payload cols values /\
    Forall2 (col_stored data) (columns (Schema_create cols)) values.
Proof.
  intros Ha (Hc & Hf & Hs & Hn). pose proof (payload_pos cols values).
  pose proof (fixed_total_pos _ Hc). pose proof (Forall2_length _ _ _ Hf) as Hlen.
  destruct (Schema_create_spec cols Hc) as (E1 & E2 & E3); [lia|].
  unfold Tuple_create, GetColumnCount. rewrite E1, E2, E3, length_place, <- Hlen.
  rewrite assert_ok by apply Z.eqb_refl.
  pose proof (tuple_size_spec cols values [] [] [] (fixed_total cols)) as Ht.
  cbn [app length] in Ht. rewrite !app_nil_r in Ht.
  rewrite Ht by (done || lia). cbn [tuple_size_loop result_bind]. unfold new_chars.
  rewrite (proj2 (Z.ltb_ge _ 0)) by lia. cbn [result_bind].
  destruct (serialize_loop_spec cols values (uninit (fixed_total cols + payload cols values))
              0 (fixed_total cols) (fixed_total cols)) as (d & Hd & Hl & _ & Hst);
    [done | done | lia | lia | lia | by rewrite Ha by lia | lia |].
  exists d. specialize (Hd [] []). rewrite !app_nil_r in Hd. split; [exact Hd|]. split; [rewrite Hl, Ha by lia; lia | exact Hst].
Qed.

(** Reading a stored column back, from a tuple or from a longer key. *)
Lemma ToValue_spec data s i c v :
  columns s !! i = Some c -> col_stored data c v -> type_id_ v = column_type c ->
  well_formed v -> ToValue data s (Z.of_nat i) = Ok v.
Proof.
  intros Hi (ptr & Hp & H0 & Hl & Hs) Ht Hw.
  unfold ToValue, GetType, IsInlined, GetOffset, GetColumn.
  rewrite (BPage.cell_ok _ _ _ Hi). cbn [result_bind].
  destruct (is_inlined c); [subst ptr; cbn [result_bind] | rewrite Hp; cbn [result_bind]];
    rewrite <- Ht; by apply DeserializeFrom_spec.
Qed.

Lemma place_types off cols i c :
  place off cols !! i = Some c -> exists c', cols !! i = Some c' /\ column_type c = column_type c'.
Proof.
  revert off i. induction cols as [|c' cols IH]; intros off [|i] H; simpl in *; try done.
  - injection H as <-. by exists c'.
  - by apply IH in H.
Qed.

Lemma stored_ToValue cols values data i v :
  tuple_fits cols values -> Forall2 (col_stored data) (columns (Schema_create cols)) values ->
  values !! i = Some v -> ToValue data (Schema_create cols) (Z.of_nat i) = Ok v.
Proof.
  intros (Hc & Hf & Hs & _) Hst Hi. pose proof (payload_pos cols values).
  destruct (Forall2_lookup_r _ _ _ _ _ Hst Hi) as (c & Hci & Hcv).
  destruct (Schema_create_spec cols Hc) as (E1 & _); [lia|].
  rewrite E1 in Hci. destruct (place_types _ _ _ _ Hci) as (c' & Hc' & Et).
  destruct (Forall2_lookup_lr _ _ _ _ _ _ Hf Hc' Hi) as (Ht & Hw & _).
  eapply ToValue_spec; [by rewrite E1 | done | congruence | done].
Qed.

Lemma stored_GetValue cols values data i v :
  tuple_fits cols values -> Forall2 (col_stored data) (columns (Schema_create cols)) values ->
  values !! i = Some v -> GetValue data (Schema_create cols) (Z.of_nat i) = Ok v.
Proof.
  intros Hf Hst Hi. pose proof (stored_ToValue cols values data i v Hf Hst Hi) as Ht.
  unfold ToValue in Ht. unfold GetValue, GetDataPtr. revert Ht.
  destruct (GetType _ _); [|done]. cbn [result_bind].
  destruct (IsInlined _ _); [|done]. cbn [result_bind].
  by destruct (GetOffset _ _).
Qed.

(** C31: a tuple built from values that fit the columns of a schema, strings that
    are not NULL included, has the length of its fixed part and its strings, and
    every column reads back the value it was built from. *)
Theorem tuple_roundtrip (uninit : Z -> Buf) (cols : list Column) (values : list Value)
    (Ha : allocator uninit) (Hf : tuple_fits cols values) :
  exists data,
    Tuple_create uninit values (Schema_create cols) = Ok data /\
    Z.of_nat (length data) = fixed_total cols + payload cols values /\
    forall i v, values !! i = Some v -> GetValue data (Schema_create cols) (Z.of_nat i) = Ok v.
Proof.
  destruct (Tuple_create_spec uninit cols values Ha Hf) as (data & Hd & Hl & Hst).
  exists data. split; [done|]. split; [done|]. intros i v. by apply stored_GetValue.
Qed.

(** The sample schema (id INTEGER, name VARCHAR, score BIGINT). *)
Definition sample_columns : list Column :=
  [mkColumn INTEGER 4 0 "id" true (-1); mkColumn VARCHAR 4 20 "name" false (-1);
   mkColumn BIGINT 8 0 "score" true (-1)].
Definition sample_values : list Value :=
  [mk_int int32_t 7; mk_bytes [97; 98; 0]; mk_int int64_t (-1)].
Definition sample_uninit (n : Z) : Buf := replicate (Z.to_nat n) 205.

Lemma sample_allocator : allocator sample_uninit.
Proof. intros n Hn. unfold sample_uninit. rewrite length_replicate. lia. Qed.

Lemma sample_fits : tuple_fits sample_columns sample_values.
Proof.
  split; [|split; [|split; by_computation]].
  - repeat constructor; try done; intros n _ [= <-]; cbn; lia.
  - constructor; [|constructor; [|constructor; [|constructor]]];
      (split; [done|split; [|done]]);
      [apply (wf_int int32_t) | apply wf_bytes | apply (wf_int int64_t)]; by_computation.
Qed.

Lemma tuple_roundtrip_witness :
  exists data, Tuple_create sample_uninit sample_values (Schema_create sample_columns) = Ok data /\
    GetValue data (Schema_create sample_columns) 1 = Ok (mk_bytes [97; 98; 0]).
Proof.
  destruct (tuple_roundtrip sample_uninit sample_columns sample_values sample_allocator
              sample_fits) as (data & Hd & _ & Hv).
  exists data. split; [exact Hd | exact (Hv 1%nat _ eq_refl)].
Defined.

Example Column_create_examples :
  Column_create INTEGER 4 "id" = Ok (mkColumn INTEGER 4 0 "id" true (-1)) /\
  Column_create VARCHAR 20 "name" = Ok (mkColumn VARCHAR 4 20 "name" false (-1)) /\
  Column_create BIGINT 0 "score" = Fail (Throw "CONSTRAINT").
Proof. repeat split; reflexivity. Qed.

(** ** NULL strings *)

Lemma fixed_total_app cols cols' : fixed_total (cols ++ cols') = fixed_total cols + fixed_total cols'.
Proof. induction cols as [|c cols IH]; simpl; lia. Qed.

Lemma fixed_total_snoc cols c : fixed_length c = 4 -> fixed_total (cols ++ [c]) = fixed_total cols + 4.
Proof. intros E. rewrite fixed_total_app. simpl. lia. Qed.

Lemma uninlined_from_app i cols cols' :
  uninlined_from i (cols ++ cols') =
  uninlined_from i cols ++ uninlined_from (i + length cols) cols'.
Proof.
  revert i. induction cols as [|c cols IH]; intros i; simpl; [by rewrite Nat.add_0_r|].
  rewrite IH, <- app_assoc. do 3 f_equal. lia.
Qed.

Lemma place_app off cols cols' :
  place off (cols ++ cols') = place off cols ++ place (off + fixed_total cols) cols'.
Proof.
  revert off. induction cols as [|c cols IH]; intros off; simpl; [by rewrite Z.add_0_r|].
  by rewrite IH, Z.add_assoc.
Qed.

(** The size [GetLength] of NULL adds to an [int32_t]. *)
Lemma null_size acc :
  0 <= acc -> acc + 3 < 2 ^ 31 -> wrap32 (acc + (PELOTON_VALUE_NULL + 4)) = acc + 3.
Proof.
  intros. unfold PELOTON_VALUE_NULL, swrap.
  replace (acc + (2 ^ 32 - 1 + 4) + 2 ^ (32 - 1)) with (acc + 3 + 2 ^ 31 + 1 * 2 ^ 32) by lia.
  rewrite Z.mod_add, Z.mod_small by lia. lia.
Qed.

(** A tuple whose last value is a NULL string is given one byte less than
    its image takes: [GetLength] of NULL is 2^32 - 1, so that
    [GetLength + sizeof(uint32_t)] is 3 in the [int32_t] sizes, and storing
    the value writes past the end of the array. *)
Theorem tuple_null_varchar_overflow (uninit : Z -> Buf) (cols : list Column)
    (values : list Value) (name : string) (n : Z)
    (Ha : allocator uninit) (Hf : tuple_fits cols values)
    (Hr : fixed_total cols + 4 + payload cols values + 3 < 2 ^ 31)
    (Hn : Z.of_nat (length cols) + 1 < 2 ^ 31) :
  Tuple_create uninit (values ++ [null_varchar])
    (Schema_create (cols ++ [mkColumn VARCHAR 4 n name false (-1)])) = Fail MemFault.
Proof.
  destruct Hf as (Hc & Hv & _). pose proof (payload_pos cols values).
  pose proof (fixed_total_pos _ Hc). pose proof (Forall2_length _ _ _ Hv) as Hlen.
  set (c := mkColumn VARCHAR 4 n name false (-1)).
  assert (Hcs : Forall column_ok (cols ++ [c])).
  { apply Forall_app. split; [done|]. constructor; [|done]. repeat split; try done. }
  rewrite <- (fixed_total_snoc cols c) in Hr by done.
  destruct (Schema_create_spec (cols ++ [c]) Hcs) as (E1 & E2 & E3); [lia|].
  rewrite fixed_total_snoc in * by done.
  unfold Tuple_create, GetColumnCount. rewrite E1, E2, E3, length_place, !length_app, <- Hlen.
  cbn [length]. rewrite assert_ok by apply Z.eqb_refl.
  rewrite uninlined_from_app, place_app. cbn [uninlined_from place is_inlined c app Nat.add].
  pose proof (tuple_size_spec cols values [] [null_varchar] [length cols]
                (fixed_total cols + 4)) as Ht. cbn [app length] in Ht.
  rewrite Ht by (done || lia). cbn [tuple_size_loop].
  rewrite lookup_app_r, Hlen, Nat.sub_diag by lia. cbn [lookup list_lookup from_option_r result_bind].
  change (GetLength null_varchar) with (Ok PELOTON_VALUE_NULL). cbn [result_bind].
  rewrite null_size by lia. unfold new_chars. rewrite (proj2 (Z.ltb_ge _ 0)) by lia.
  cbn [result_bind].
  destruct (serialize_loop_spec cols values (uninit (fixed_total cols + 4 + payload cols values + 3))
              0 (fixed_total cols + 4) (fixed_total cols + 4)) as (d & Hd & Hl & _ & _);
    [done | done | lia | lia | lia | rewrite Ha by lia; lia | lia |].
  rewrite Hd. cbn [serialize_loop is_inlined set_offset column_offset c].
  assert (Hll : Z.of_nat (length d) = fixed_total cols + 4 + payload cols values + 3)
    by (rewrite Hl, Ha; lia).
  rewrite write_i32_ok by lia. cbn [result_bind].
  change (TypeSerialize.SerializeTo null_varchar) with (VarlenType_SerializeTo null_varchar).
  unfold VarlenType_SerializeTo. cbn [null_varchar VarlenType_GetLength len].
  change (PELOTON_VALUE_NULL =? PELOTON_VALUE_NULL) with true. cbn iota.
  unfold store, memwrite, in_range. rewrite length_splice, length_le_encode by
    (rewrite ?length_le_encode; lia).
  rewrite (proj2 (Z.leb_gt _ (Z.of_nat (length d)))) by lia.
  by rewrite andb_false_r.
Qed.

Lemma tuple_null_varchar_overflow_witness :
  Tuple_create sample_uninit (sample_values ++ [null_varchar])
    (Schema_create (sample_columns ++ [mkColumn VARCHAR 4 8 "note" false (-1)])) = Fail MemFault.
Proof.
  apply (tuple_null_varchar_overflow sample_uninit sample_columns sample_values "note" 8
           sample_allocator sample_fits); by_computation.
Defined.

(** With another string after it, the NULL is overwritten: it reads back as a
    string of 2^24 + ... bytes outside the tuple. *)
Example null_before_string :
  (let* data := Tuple_create sample_uninit [null_varchar; mk_bytes [97; 0]]
                  (Schema_create [mkColumn VARCHAR 4 8 "a" false (-1);
                                  mkColumn VARCHAR 4 8 "b" false (-1)]) in
   GetValue data (Schema_create [mkColumn VARCHAR 4 8 "a" false (-1);
                                 mkColumn VARCHAR 4 8 "b" false (-1)]) 0) = Fail MemFault.
Proof. vm_compute. reflexivity. Qed.

(** ** Storing a tuple in a page *)

(** The bytes [Tuple::SerializeTo] stores at a place with room are read
    back by [Tuple::DeserializeFrom]. *)
Theorem tuple_storage_roundtrip (uninit : Z -> Buf) (data storage : Buf) (off : Z)
    (H0 : 0 <= off) (Hd : Z.of_nat (length data) < 2 ^ 31)
    (H1 : off + 4 + Z.of_nat (length data) <= Z.of_nat (length storage)) :
  (let* storage := Tuple_SerializeTo data storage off in
   Tuple_DeserializeFrom uninit storage off) = Ok data.
Proof.
  unfold Tuple_SerializeTo.
  destruct (write_i32_spec storage off (Z.of_nat (length data))) as (s1 & E1 & [Hl1 _] & Hr1);
    [lia | lia | unfold in_sint; lia |].
  rewrite E1. cbn [result_bind].
  destruct (memwrite_spec s1 (off + 4) data) as (s2 & E2 & S2 & Hr2); [lia | lia |].
  rewrite E2. cbn [result_bind]. unfold Tuple_DeserializeFrom.
  pose proof (proj1 S2) as Hl2. rewrite read_i32_ok by lia. frames. rewrite Hr1.
  cbn [result_bind]. unfold new_chars. rewrite (proj2 (Z.ltb_ge _ 0)) by lia.
  cbn [result_bind]. rewrite memread_ok by lia. by rewrite Hr2.
Qed.

Lemma tuple_storage_roundtrip_witness :
  (let* storage := Tuple_SerializeTo [1; 2; 3] (replicate 9 0) 1 in
   Tuple_DeserializeFrom sample_uninit storage 1) = Ok [1; 2; 3].
Proof. apply tuple_storage_roundtrip; by_computation. Defined.

(** ** The comparator *)

(** The comparison the loop makes, on the values of the columns. *)
Fixpoint compare_values (l r : list Value) : result Z :=
  match l, r with
  | x :: l, y :: r =>
      let* lt := CompareLessThan x y in
      if bool_decide (lt = CMP_TRUE) then Ok (-1)
      else
        let* gt := CompareGreaterThan x y in
        if bool_decide (gt = CMP_TRUE) then Ok 1 else compare_values l r
  | _, _ => Ok 0
  end.

Lemma col_stored_app data rest c v : col_stored data c v -> col_stored (data ++ rest) c v.
Proof.
  intros (ptr & Hp & H0 & Hl & Hs).
  assert (Hsl : forall o n, 0 <= o -> 0 <= n -> o + n <= Z.of_nat (length data) ->
            slice o n (data ++ rest) = slice o n data).
  { intros o n Ho Hn Hb. unfold slice. rewrite drop_app_le by lia.
    apply take_app_le. rewrite length_drop. lia. }
  exists ptr. split.
  - destruct (is_inlined c); [done|]. unfold read_i32 in *.
    destruct (memread data (column_offset c) 4) as [b|] eqn:E; [|done].
    apply memread_inv in E as (Ho & _ & Hb & ->).
    rewrite memread_ok by (rewrite ?length_app; lia). by rewrite Hsl by lia.
  - split; [done|]. rewrite length_app. split; [lia|]. by rewrite Hsl by lia.
Qed.

(** The key made from a tuple that is not longer than it. *)
Lemma SetFromKey_spec KeySize tuple :
  0 <= KeySize -> Z.of_nat (length tuple) <= KeySize ->
  SetFromKey KeySize tuple =
  Ok (tuple ++ replicate (Z.to_nat KeySize - length tuple) 0).
Proof.
  intros H0 H1. unfold SetFromKey, zero_key.
  rewrite memwrite_ok by (rewrite ?length_replicate; lia).
  unfold splice. cbn [Z.to_nat take app Nat.add]. by rewrite drop_replicate.
Qed.

(** A key that holds these values. *)
Definition key_of (cols : list Column) (values : list Value) (key : Buf) : Prop :=
  tuple_fits cols values /\ Forall2 (col_stored key) (columns (Schema_create cols)) values.

Lemma key_of_tuple uninit KeySize cols values :
  allocator uninit -> tuple_fits cols values ->
  fixed_total cols + payload cols values <= KeySize ->
  exists key, (let* tuple := Tuple_create uninit values (Schema_create cols) in
               SetFromKey KeySize tuple) = Ok key /\ key_of cols values key.
Proof.
  intros Ha Hf Hs. destruct (Tuple_create_spec uninit cols values Ha Hf) as (data & Hd & Hl & Hst).
  rewrite Hd. cbn [result_bind]. rewrite SetFromKey_spec by lia. eexists. split; [done|].
  split; [done|]. eapply Forall2_impl; [exact Hst|]. intros. by apply col_stored_app.
Qed.

Lemma compare_loop_spec cols l r kl kr :
  key_of cols l kl -> key_of cols r kr ->
  compare_keys (Schema_create cols) kl kr = compare_values l r.
Proof.
  intros [Fl Sl] [Fr Sr].
  pose proof (Forall2_length _ _ _ Sl) as Ll. pose proof (Forall2_length _ _ _ Sr) as Lr.
  assert (H : forall n i, (i + n = length l)%nat ->
    compare_loop (Schema_create cols) kl kr (Z.of_nat i) n = compare_values (drop i l) (drop i r)).
  { induction n as [|n IH]; intros i Hi.
    - rewrite (drop_ge l) by lia. reflexivity.
    - destruct (lookup_lt_is_Some_2 l i) as [x Hx]; [lia|].
      destruct (lookup_lt_is_Some_2 r i) as [y Hy]; [lia|].
      rewrite (drop_S _ _ _ Hx), (drop_S _ _ _ Hy). cbn [compare_loop compare_values].
      rewrite (stored_ToValue cols l kl i x Fl Sl Hx), (stored_ToValue cols r kr i y Fr Sr Hy).
      cbn [result_bind]. replace (Z.of_nat i + 1) with (Z.of_nat (S i)) by lia.
      by rewrite IH by lia. }
  unfold compare_keys. rewrite Ll. specialize (H (length l) 0%nat). rewrite !drop_0 in H.
  by apply H.
Qed.

(** Lexicographic order on lists of numbers, as -1, 0 and 1. *)
Fixpoint lexZ (x y : list Z) : Z :=
  match x, y with
  | a :: x, b :: y => if a <? b then -1 else if b <? a then 1 else lexZ x y
  | _, _ => 0
  end.

(** The values of a key all of whose columns are integers. *)
Definition int_values (Ts : list CType) (x : list Z) : list Value := zip_with mk_int Ts x.

Lemma compare_int_values Ts x y :
  Forall2 int_range Ts x -> Forall2 int_range Ts y ->
  compare_values (int_values Ts x) (int_values Ts y) = Ok (lexZ x y).
Proof.
  intros Hx. revert y. induction Hx as [|T a Ts x Ha Hx IH]; intros y Hy;
    inversion Hy as [|? b ? y' Hb Hy']; subst; [done|].
  unfold int_values in *. cbn [zip_with compare_values lexZ].
  rewrite Compare_lt_mk, Compare_gt_mk by done. cbn [result_bind].
  destruct (a <? b); [done|]. cbn [result_bind]. destruct (b <? a); [done|].
  cbn. by apply IH.
Qed.

Lemma lexZ_antisym x y : lexZ x y < 0 <-> 0 < lexZ y x.
Proof.
  revert y. induction x as [|a x IH]; intros [|b y]; simpl; try lia.
  destruct (a <? b) eqn:E1, (b <? a) eqn:E2; zify_bool; try lia. apply IH.
Qed.

Lemma lexZ_trans x y z :
  length x = length y -> length y = length z -> lexZ x y <= 0 -> lexZ y z <= 0 -> lexZ x z <= 0.
Proof.
  revert y z. induction x as [|a x IH]; intros [|b y] [|c z]; simpl; try lia.
  intros L1 L2. destruct (a <? b) eqn:E1, (b <? a) eqn:E2, (b <? c) eqn:E3, (c <? b) eqn:E4,
    (a <? c) eqn:E5, (c <? a) eqn:E6; zify_bool; try lia.
  intros. apply (IH y z); lia.
Qed.

#[export] Instance lexZ_order n : BPage.KeyOrder (fun x y : vec Z n => lexZ x y).
Proof.
  split.
  - intros x y. apply lexZ_antisym.
  - intros x y z. apply lexZ_trans; by rewrite !length_vec_to_list.
Qed.

(** On keys made from integer values none of which is NULL the comparator
    is the lexicographic order of the numbers, which is the total order that the
    pages of the B+ tree rely on. *)
Theorem comparator_lexicographic (uninit : Z -> Buf) (KeySize : Z) (cols : list Column)
    (Ts : list CType) (x y : vec Z (length Ts))
    (Ha : allocator uninit)
    (Hx : Forall2 int_range Ts x) (Hy : Forall2 int_range Ts y)
    (Fx : tuple_fits cols (int_values Ts x)) (Fy : tuple_fits cols (int_values Ts y))
    (Sx : fixed_total cols + payload cols (int_values Ts x) <= KeySize)
    (Sy : fixed_total cols + payload cols (int_values Ts y) <= KeySize) :
  (let key v := let* tuple := Tuple_create uninit v (Schema_create cols) in
                SetFromKey KeySize tuple in
   let* kx := key (int_values Ts x) in
   let* ky := key (int_values Ts y) in
   compare_keys (Schema_create cols) kx ky) = Ok (lexZ x y) /\
  BPage.KeyOrder (fun x y : vec Z (length Ts) => lexZ x y).
Proof.
  split; [|apply _].
  destruct (key_of_tuple uninit KeySize cols _ Ha Fx Sx) as (kx & Ex & Kx).
  destruct (key_of_tuple uninit KeySize cols _ Ha Fy Sy) as (ky & Ey & Ky).
  cbv beta zeta. rewrite Ex, Ey. cbn [result_bind].
  rewrite (compare_loop_spec _ _ _ _ _ Kx Ky). by apply compare_int_values.
Qed.

Definition two_columns : list Column :=
  [mkColumn INTEGER 4 0 "a" true (-1); mkColumn SMALLINT 2 0 "b" true (-1)].

Lemma two_columns_fit x y :
  int_range int32_t x -> int_range int16_t y ->
  tuple_fits two_columns (int_values [int32_t; int16_t] [x; y]).
Proof.
  rewrite !int_range_sint. intros [Hx _] [Hy _]. split; [|split; [|split; by_computation]].
  - repeat constructor; try done; intros n _ [= <-]; cbn; lia.
  - constructor; [|constructor; [|constructor]]; (split; [done|split; [|done]]);
      [apply (wf_int int32_t) | apply (wf_int int16_t)]; done.
Qed.

Lemma comparator_lexicographic_witness :
  lexZ [5; -3] [5; 2] = -1 /\
  (let key v := let* tuple := Tuple_create sample_uninit v (Schema_create two_columns) in
                SetFromKey 8 tuple in
   let* kx := key (int_values [int32_t; int16_t] [5; -3]) in
   let* ky := key (int_values [int32_t; int16_t] [5; 2]) in
   compare_keys (Schema_create two_columns) kx ky) = Ok (-1).
Proof.
  split; [reflexivity|].
  apply (comparator_lexicographic sample_uninit 8 two_columns [int32_t; int16_t]
           [# 5; -3] [# 5; 2] sample_allocator);
    [by_computation | by_computation | apply two_columns_fit; by_computation
    | apply two_columns_fit; by_computation | by_computation | by_computation].
Defined.

(** A key with a NULL is equal to every other key for the comparator, which
    is therefore not transitive: the tree has no order to rely on. *)
Theorem null_keys_break_order (c : Column) (T : CType) (x y : Z) (kx kn ky : Buf)
    (Hx : int_range T x) (Hy : int_range T y) (Hxy : x < y)
    (Kx : key_of [c] [mk_int T x] kx) (Kn : key_of [c] [mk_int T (INT_NULL T)] kn)
    (Ky : key_of [c] [mk_int T y] ky) :
  compare_keys (Schema_create [c]) ky kn = Ok 0 /\
  compare_keys (Schema_create [c]) kn kx = Ok 0 /\
  compare_keys (Schema_create [c]) ky kx = Ok 1.
Proof.
  assert (Hl : forall z op, Compare op (mk_int T z) (mk_int T (INT_NULL T)) = Ok CMP_NULL).
  { intros z op. rewrite Compare_int_unfold, CheckComparable_mk, assert_true, !IsNull_mk,
      Z.eqb_refl, orb_true_r. reflexivity. }
  assert (Hr : forall z op, Compare op (mk_int T (INT_NULL T)) (mk_int T z) = Ok CMP_NULL).
  { intros z op. rewrite Compare_int_unfold, CheckComparable_mk, assert_true, !IsNull_mk,
      Z.eqb_refl. reflexivity. }
  rewrite (compare_loop_spec _ _ _ _ _ Ky Kn), (compare_loop_spec _ _ _ _ _ Kn Kx),
    (compare_loop_spec _ _ _ _ _ Ky Kx). cbn [compare_values].
  change CompareLessThan with (Compare LT). change CompareGreaterThan with (Compare GT).
  rewrite !Hl, !Hr. change (Compare LT) with CompareLessThan.
  change (Compare GT) with CompareGreaterThan.
  rewrite Compare_lt_mk, Compare_gt_mk by done.
  rewrite (proj2 (Z.ltb_ge y x)), (proj2 (Z.ltb_lt x y)) by lia. done.
Qed.

Lemma null_key_witness_key z :
  in_sint 32 z -> exists key, key_of [mkColumn INTEGER 4 0 "a" true (-1)] [mk_int int32_t z] key.
Proof.
  intros Hz. destruct (key_of_tuple sample_uninit 4 [mkColumn INTEGER 4 0 "a" true (-1)]
    [mk_int int32_t z] sample_allocator) as (k & _ & Hk); [|by_computation|by exists k].
  split; [|split; [|split; by_computation]].
  - repeat constructor; try done; intros n _ [= <-]; cbn; lia.
  - constructor; [|constructor]. split; [done|split; [by apply (wf_int int32_t)|done]].
Qed.

Lemma null_keys_break_order_witness :
  exists kx kn ky,
    compare_keys (Schema_create [mkColumn INTEGER 4 0 "a" true (-1)]) ky kn = Ok 0 /\
    compare_keys (Schema_create [mkColumn INTEGER 4 0 "a" true (-1)]) kn kx = Ok 0 /\
    compare_keys (Schema_create [mkColumn INTEGER 4 0 "a" true (-1)]) ky kx = Ok 1.
Proof.
  destruct (null_key_witness_key 1) as [kx Kx]; [by_computation|].
  destruct (null_key_witness_key (INT_NULL int32_t)) as [kn Kn]; [by_computation|].
  destruct (null_key_witness_key 2) as [ky Ky]; [by_computation|].
  exists kx, kn, ky.
  apply (null_keys_break_order _ int32_t 1 2 kx kn ky); [by_computation..| | |]; done.
Defined.

End SqlTuple.
