(* ===== verification/VtabSchema.v ===== *)
(** * Table and index declarations (src/src/vtable/virtual_table.cpp, string_utility.h, index.h)

    The helpers of the virtual table module that turn the text of a CREATE statement into
    a schema, the text of its index clause into the metadata of an index, and that choose
    the size of the index keys. *)

From stdpp Require Import prelude list strings.
From Stdlib Require Import ZArith Lia.
From S2P Require Import Prelude CppStd SqlValue TypeCast TypeSerialize BPlusTreePage SqlTuple.

Local Open Scope Z_scope.

Module VtabSchema.
Import CppStd.Text SqlValue.SqlValue TypeCast.TypeCast TypeSerialize.TypeSerialize SqlTuple.SqlTuple.

(** ** std::string *)

(** The bytes of a string as the name of a column. *)
Definition to_name (s : Buf) : string :=
  String.string_of_list_ascii (map (fun c => Ascii.ascii_of_N (Z.to_N c)) s).

(** [find_first_of] of one character. *)
Fixpoint find_first_of (c : Z) (s : Buf) : option nat :=
  match s with
  | [] => None
  | x :: s => if x =? c then Some O else S <$> find_first_of c s
  end.

(** [substr(0, n)] and [substr(n + 1)], where [n] is a result of [find_first_of]: [npos] is
    the largest size, and its successor is 0. *)
Definition substr_to (n : option nat) (s : Buf) : Buf :=
  match n with Some n => take n s | None => s end.
Definition substr_after (n : option nat) (s : Buf) : Buf :=
  match n with Some n => drop (S n) s | None => s end.

(** ** StringUtility *)

Definition LTrim (s : Buf) : Buf := skip_space s.
Definition RTrim (s : Buf) : Buf := rev (skip_space (rev s)).
Definition Trim (s : Buf) : Buf := RTrim (LTrim s).

(** The lines [std::getline] reads, the characters of the current one in reverse. *)
Fixpoint getlines (delim : Z) (s item : Buf) : list Buf :=
  match s with
  | [] => match item with [] => [] | _ => [rev item] end
  | c :: s => if c =? delim then rev item :: getlines delim s [] else getlines delim s (c :: item)
  end.

Definition Split (s : Buf) (delim : Z) : list Buf := map Trim (getlines delim s []).

(** ** ParseCreateStatement *)

Definition comma : Z := 44.
Definition blank : Z := 32.
Definition paren : Z := 40.

Definition is_lit (s : Buf) (l : string) : bool := bool_decide (s = lit l).

Definition type_of_text (column_type : Buf) : TypeId :=
  if is_lit column_type "bool" || is_lit column_type "boolean" then BOOLEAN
  else if is_lit column_type "tinyint" then TINYINT
  else if is_lit column_type "smallint" then SMALLINT
  else if is_lit column_type "int" || is_lit column_type "integer" then INTEGER
  else if is_lit column_type "bigint" then BIGINT
  else if is_lit column_type "double" || is_lit column_type "float" then DECIMAL
  else if is_lit column_type "varchar" || is_lit column_type "char" then VARCHAR
  else INVALID.

(** The body of the loop: the column one part of the statement declares. *)
Definition parse_column (t : Buf) : result Column :=
  let n := find_first_of blank t in
  let column_name := substr_to n t in
  let column_type := substr_after n t in
  let n := find_first_of paren column_type in
  let* (column_length, column_type) :=
    match n with
    | Some _ => let* l := stoi (substr_after n column_type) in Ok (l, substr_to n column_type)
    | None => Ok (0, column_type)
    end in
  let type := type_of_text column_type in
  match type with
  | INVALID => Fail (Throw "UNKNOWN_TYPE")
  | VARCHAR => Column_create type (if column_length =? 0 then 32 else column_length) (to_name column_name)
  | _ => let* size := GetTypeSize type in Column_create type size (to_name column_name)
  end.

Fixpoint parse_columns (tok : list Buf) : result (list Column) :=
  match tok with
  | [] => Ok []
  | t :: tok =>
      let* col := parse_column t in
      let* v := parse_columns tok in
      Ok (col :: v)
  end.

Definition ParseCreateStatement (sql_base : Buf) : result Schema :=
  let sql := map tolower sql_base in
  let* v := parse_columns (Split sql comma) in
  Ok (Schema_create v).

(** ** IndexMetadata and ParseIndexStatement *)

Record IndexMetadata := mkMetadata {
  name_ : Buf;
  table_name_ : Buf;
  key_attrs_ : list Z;
  key_schema_ : Schema
}.

Definition IndexMetadata_create (index_name table_name : Buf) (tuple_schema : Schema)
    (key_attrs : list Z) : result IndexMetadata :=
  let* key_schema := CopySchema tuple_schema key_attrs in
  Ok (mkMetadata index_name table_name key_attrs key_schema).

Definition GetIndexColumnCount (m : IndexMetadata) : Z := wrap32 (Z.of_nat (length (key_attrs_ m))).

(** The columns of the table the parts of the clause name; other parts are passed over. *)
Fixpoint index_columns (schema : Schema) (tok : list Buf) : list Z :=
  match tok with
  | [] => []
  | t :: tok =>
      let column_id := GetColumnID schema (to_name (Trim t)) in
      if negb (column_id =? -1) then column_id :: index_columns schema tok else index_columns schema tok
  end.

Definition ParseIndexStatement (sql table_name : Buf) (schema : Schema) : result IndexMetadata :=
  let sql := map tolower sql in
  let n := find_first_of blank sql in
  assert! bool_decide (n <> None) ;;
  let index_name := substr_to n sql in
  let sql := substr_after n sql in
  let key_attrs := index_columns schema (Split sql comma) in
  if GetColumnCount schema <? wrap32 (Z.of_nat (length key_attrs)) then Fail (Throw "INDEX")
  else IndexMetadata_create index_name table_name schema key_attrs.

(** ** ConstructIndex *)

(** The size of the keys of the index: each string is taken to need 16 bytes. *)
Definition index_key_size (metadata : IndexMetadata) : Z :=
  let key_schema := key_schema_ metadata in
  let key_size := wrap32 (length_ key_schema + 16 * Z.of_nat (length (uninlined_columns key_schema))) in
  if key_size <=? 4 then 4
  else if key_size <=? 8 then 8
  else if key_size <=? 16 then 16
  else if key_size <=? 32 then 32
  else 64.

(** ** What a declaration says *)

(** The text [parts] joined by commas. *)
Fixpoint join (parts : list Buf) : Buf :=
  match parts with
  | [] => []
  | [p] => p
  | p :: parts => p ++ comma :: join parts
  end.

Definition spaces (s : Buf) : Prop := Forall (fun c => isspace c = true) s.

(** A name: no space and no comma. *)
Definition word (s : Buf) : Prop := s <> [] /\ Forall (fun c => isspace c = false /\ c <> comma) s.

(** A lower-case type, what it stands for, and the length its column has. *)
Inductive type_text : Buf -> TypeId -> Z -> Prop :=
| text_fixed l ty size :
    (l, ty) ∈ [("bool", BOOLEAN); ("boolean", BOOLEAN); ("tinyint", TINYINT); ("smallint", SMALLINT);
               ("int", INTEGER); ("integer", INTEGER); ("bigint", BIGINT); ("double", DECIMAL); ("float", DECIMAL)]%string ->
    GetTypeSize ty = Ok size -> type_text (lit l) ty size
| text_string l : l ∈ ["varchar"; "char"]%string -> type_text (lit l) VARCHAR 32
| text_sized l n :
    l ∈ ["varchar"; "char"]%string -> in_sint 32 n -> n <> 0 ->
    type_text (lit l ++ paren :: to_string n ++ lit ")") VARCHAR n.

(** The part declares the column, in any case and with any spaces around. *)
Definition declares (part : Buf) (c : Column) : Prop :=
  exists l name ty r type size,
    part = l ++ (name ++ blank :: ty) ++ r /\ spaces l /\ spaces r /\ word name /\
    type_text (map tolower ty) type size /\ Column_create type size (to_name (map tolower name)) = Ok c.

(** *** Strings *)

Lemma isspace_tolower c : isspace (tolower c) = isspace c.
Proof.
  unfold tolower, isspace. destruct ((65 <=? c) && (c <=? 90)) eqn:E; [|done]. zify_bool.
  apply eq_bool_prop_intro. rewrite !orb_True, !andb_True, !Is_true_true, !Z.eqb_eq, !Z.leb_le. lia.
Qed.

Lemma tolower_comma c : tolower c = comma <-> c = comma.
Proof. unfold tolower, comma. destruct ((65 <=? c) && (c <=? 90)) eqn:E; zify_bool; lia. Qed.

Lemma map_tolower_join parts : map tolower (join parts) = join (map (map tolower) parts).
Proof.
  induction parts as [|p [|q parts] IH]; [done|done|]. cbn [join map] in *. rewrite map_app. cbn [map]. by rewrite IH.
Qed.

Lemma getlines_part d p s item : d ∉ p -> getlines d (p ++ d :: s) item = (rev item ++ p) :: getlines d s [].
Proof.
  revert item. induction p as [|c p IH]; intros item Hd; cbn [app getlines].
  - by rewrite Z.eqb_refl, app_nil_r.
  - apply not_elem_of_cons in Hd as [Hc Hd]. rewrite (proj2 (Z.eqb_neq c d)) by congruence.
    rewrite IH by done. cbn [rev]. by rewrite <- app_assoc.
Qed.

Lemma getlines_last d p item : d ∉ p -> rev item ++ p <> [] -> getlines d p item = [rev item ++ p].
Proof.
  revert item. induction p as [|c p IH]; intros item Hd Hne; cbn [getlines].
  - rewrite app_nil_r in *. by destruct item.
  - apply not_elem_of_cons in Hd as [Hc Hd]. rewrite (proj2 (Z.eqb_neq c d)) by congruence.
    rewrite IH; cbn [rev]; rewrite <- ?app_assoc; [done|done|]. by destruct (rev item).
Qed.

Lemma getlines_join parts :
  Forall (fun p => comma ∉ p /\ p <> []) parts -> getlines comma (join parts) [] = parts.
Proof.
  induction 1 as [|p parts [Hc Hne] _ IH]; [done|]. destruct parts as [|q parts]; [by apply getlines_last|].
  change (join (p :: q :: parts)) with (p ++ comma :: join (q :: parts)). rewrite getlines_part by done. cbn [rev app]. by rewrite IH.
Qed.

Lemma skip_spaces l s : spaces l -> skip_space (l ++ s) = skip_space s.
Proof. induction 1 as [|c l Hc _ IH]; [done|]. cbn [app skip_space]. by rewrite Hc. Qed.

(** A text that neither starts nor ends with a space. *)
Definition tight (s : Buf) : Prop :=
  (exists c r, s = c :: r /\ isspace c = false) /\ (exists r c, s = r ++ [c] /\ isspace c = false).

Lemma trim_tight l s r : spaces l -> spaces r -> tight s -> Trim (l ++ s ++ r) = s.
Proof.
  intros Hl Hr [(c & s1 & -> & Hc) (s2 & d & E & Hd)]. unfold Trim, LTrim, RTrim. rewrite skip_spaces by done.
  cbn [app skip_space]. rewrite Hc. change (c :: s1 ++ r) with ((c :: s1) ++ r). rewrite E, rev_app_distr.
  rewrite skip_spaces by (by apply Forall_rev). rewrite rev_app_distr. cbn [rev app skip_space]. rewrite Hd.
  cbn [rev]. by rewrite rev_involutive.
Qed.

Lemma find_first_of_app c s r : c ∉ s -> find_first_of c (s ++ c :: r) = Some (length s).
Proof.
  induction s as [|x s IH]; intros Hc; cbn [app find_first_of length]; [by rewrite Z.eqb_refl|].
  apply not_elem_of_cons in Hc as [Hx Hs]. rewrite (proj2 (Z.eqb_neq x c)), IH by congruence. done.
Qed.

Lemma take_drop_word (s r : Buf) c : take (length s) (s ++ c :: r) = s /\ drop (S (length s)) (s ++ c :: r) = r.
Proof. split; [apply take_app_length|]. by rewrite (cons_middle c s r), app_assoc, drop_app_length' by (rewrite length_app; simpl; lia). Qed.

(** The parts of a statement, without the spaces around them. *)
Lemma Split_join parts : Forall (fun p => comma ∉ p /\ p <> []) parts ->
  Split (map tolower (join parts)) comma = map (fun p => Trim (map tolower p)) parts.
Proof.
  intros H. unfold Split. rewrite map_tolower_join, getlines_join; [by rewrite map_map|].
  apply Forall_map. eapply Forall_impl; [exact H|]. intros p [Hc Hne]. split; [|by destruct p].
  intros Hin. apply list_elem_of_fmap in Hin as (x & Hx & Hin). symmetry in Hx. by rewrite tolower_comma in Hx; subst x.
Qed.

Lemma Forall2_parts {A} (P : Buf -> A -> Prop) parts xs : Forall2 P parts xs ->
  (forall part x, P part x -> comma ∉ part /\ part <> []) -> Forall (fun p => comma ∉ p /\ p <> []) parts.
Proof. intros H HP. induction H as [|part x parts xs Hx _ IH]; constructor; [by apply (HP part x)|done]. Qed.

(** *** One column *)

Lemma word_tolower s : word s -> word (map tolower s).
Proof.
  intros [Hne H]. split; [by destruct s|]. apply Forall_map. eapply Forall_impl; [exact H|].
  intros c [Hs Hc]. by rewrite isspace_tolower, tolower_comma.
Qed.

Lemma word_blank s : word s -> blank ∉ s.
Proof. intros [_ H] Hin. rewrite Forall_forall in H. by destruct (H _ Hin). Qed.

Lemma digits_Forall (P : Z -> Prop) : (forall d, 0 <= d < 10 -> P (48 + d)) -> forall f n acc,
  0 <= n -> Forall P acc -> Forall P (digits f n acc).
Proof.
  intros HP. induction f as [|f IH]; intros n acc Hn Ha; cbn [digits]; [done|].
  destruct (Z.ltb_spec n 10); [constructor; [apply HP; lia|done]|].
  apply IH; [apply Z.div_pos; lia|]. constructor; [apply HP, Z.mod_pos_bound; lia|done].
Qed.

Lemma to_string_Forall (P : Z -> Prop) n : (forall d, 0 <= d < 10 -> P (48 + d)) -> P 45 -> Forall P (to_string n).
Proof.
  intros HP H45. unfold to_string. destruct (Z.ltb_spec n 0); [constructor; [done|]|];
    apply digits_Forall; (done || lia || constructor).
Qed.

(** The characters of a type: no space, no comma. *)
Lemma type_text_word s type size : type_text s type size -> word s.
Proof.
  intros [l ty n Hl _|l Hl|l n Hl _ _].
  - repeat (apply elem_of_cons in Hl as [[= -> ->]|Hl]; [by split; [|repeat constructor]|]). by apply not_elem_of_nil in Hl.
  - repeat (apply elem_of_cons in Hl as [->|Hl]; [by split; [|repeat constructor]|]). by apply not_elem_of_nil in Hl.
  - split; [by destruct (lit l)|]. apply Forall_app. split.
    + repeat (apply elem_of_cons in Hl as [->|Hl]; [by repeat constructor|]). by apply not_elem_of_nil in Hl.
    + constructor; [done|]. apply Forall_app. split; [|by repeat constructor]. apply to_string_Forall; [|done].
      intros d Hd. split; [|unfold comma; lia]. unfold isspace.
      rewrite (proj2 (Z.eqb_neq _ _)), (proj2 (Z.leb_gt (48 + d) 13)), andb_false_r by lia. done.
Qed.

Lemma not_space_tolower s : Forall (fun c => isspace c = false /\ c <> comma) (map tolower s) ->
  Forall (fun c => isspace c = false /\ c <> comma) s.
Proof.
  rewrite Forall_map. intros H. eapply Forall_impl; [exact H|]. intros c. cbn.
  by rewrite isspace_tolower, tolower_comma.
Qed.

Lemma word_of_lower s : word (map tolower s) -> word s.
Proof. intros [Hne H]. split; [by destruct s|by apply not_space_tolower]. Qed.

Lemma word_tight name ty : word name -> word ty -> tight (name ++ blank :: ty).
Proof.
  intros [Hn Fn] [Ht Ft]. split.
  - destruct name as [|c name]; [done|]. apply Forall_cons in Fn as [[Hc _] _]. by exists c, (name ++ blank :: ty).
  - destruct (exists_last Ht) as (r & c & ->). apply Forall_app in Ft as [_ [[Hc _] _]%Forall_cons].
    exists (name ++ blank :: r), c. split; [by rewrite <- app_assoc|done].
Qed.

Lemma find_first_of_none c s : c ∉ s -> find_first_of c s = None.
Proof.
  induction s as [|x s IH]; intros Hc; cbn [find_first_of]; [done|].
  apply not_elem_of_cons in Hc as [Hx Hs]. by rewrite (proj2 (Z.eqb_neq x c)), IH by congruence.
Qed.

(** The type and the length of a column, from its text. *)
Lemma type_text_parse s type size : type_text s type size ->
  let n := find_first_of paren s in
  exists l t,
    match n with
    | Some _ => let* l := stoi (substr_after n s) in Ok (l, substr_to n s)
    | None => Ok (0, s)
    end = Ok (l, t) /\ type_of_text t = type /\
    match type with
    | INVALID => False
    | VARCHAR => (if l =? 0 then 32 else l) = size
    | _ => GetTypeSize type = Ok size
    end.
Proof.
  intros [l ty n Hl Hn|l Hl|l n Hl Hn H0]; cbv zeta.
  - repeat (apply elem_of_cons in Hl as [[= -> ->]|Hl]; [by eexists _, _|]). by apply not_elem_of_nil in Hl.
  - repeat (apply elem_of_cons in Hl as [->|Hl]; [by eexists _, _|]). by apply not_elem_of_nil in Hl.
  - assert (Hp : paren ∉ lit l).
    { repeat (apply elem_of_cons in Hl as [->|Hl]; [by_computation|]). by apply not_elem_of_nil in Hl. }
    rewrite find_first_of_app by done. unfold substr_after, substr_to.
    destruct (take_drop_word (lit l) (to_string n ++ lit ")") paren) as [-> ->]. exists n, (lit l). split.
    + unfold stoi. rewrite sto_to_string_app; [done|done| |done]. unfold in_sint in Hn. lia.
    + rewrite (proj2 (Z.eqb_neq n 0)) by done. split; [|done].
      repeat (apply elem_of_cons in Hl as [->|Hl]; [done|]). by apply not_elem_of_nil in Hl.
Qed.

Lemma parse_column_ok name ty type size c :
  word name -> type_text ty type size -> Column_create type size (to_name name) = Ok c ->
  parse_column (name ++ blank :: ty) = Ok c.
Proof.
  intros Hname Hty Hc. unfold parse_column. rewrite find_first_of_app by (by apply word_blank).
  destruct (take_drop_word name ty blank) as [E1 E2].
  change (substr_to (Some (length name)) (name ++ blank :: ty)) with (take (length name) (name ++ blank :: ty)).
  change (substr_after (Some (length name)) (name ++ blank :: ty)) with (drop (S (length name)) (name ++ blank :: ty)).
  rewrite E1, E2. cbv zeta.
  destruct (type_text_parse ty type size Hty) as (l & t & E & Et & Hsize). rewrite E. cbn [result_bind]. rewrite Et.
  destruct type; try done; rewrite Hsize; try done.
Qed.

(** *** The statement *)

Lemma declares_part part c : declares part c ->
  comma ∉ part /\ part <> [] /\ parse_column (Trim (map tolower part)) = Ok c.
Proof.
  intros (l & name & ty & r & type & size & -> & Hl & Hr & Hn & Ht & Hc).
  pose proof (word_of_lower ty (type_text_word _ _ _ Ht)) as Hty. split; [|split].
  - assert (Hs : forall s, spaces s -> comma ∉ s) by (intros s Hs Hin; unfold spaces in Hs; rewrite Forall_forall in Hs; by specialize (Hs _ Hin)).
    assert (Hw : forall s, word s -> comma ∉ s) by (intros s [_ Hw] Hin; rewrite Forall_forall in Hw; by destruct (Hw _ Hin)).
    rewrite !elem_of_app, elem_of_cons. specialize (Hs l Hl) as H1. specialize (Hs r Hr) as H2.
    specialize (Hw name Hn) as H3. specialize (Hw ty Hty) as H4. unfold comma, blank in *. intuition lia.
  - destruct Hn as [Hne _]. by destruct l, name.
  - rewrite !map_app. cbn [map]. change (tolower blank) with blank.
    assert (Hs : forall s, spaces s -> spaces (map tolower s)).
    { intros s H. apply Forall_map. eapply Forall_impl; [exact H|]. intros x. cbn. by rewrite isspace_tolower. }
    rewrite trim_tight; [|by apply Hs|by apply Hs|].
    + by apply (parse_column_ok _ _ type size); [apply word_tolower|..].
    + apply word_tight; [by apply word_tolower|by apply (type_text_word _ _ _ Ht)].
Qed.

(** C23: the text of a CREATE statement whose parts declare columns, in any case and with
    any spaces around the commas, parses to the schema of these columns: a name of letters
    in lower case, its type, the width of the type, and the length a string declares or 32. *)
Theorem parse_create_statement (parts : list Buf) (cols : list Column) (H : Forall2 declares parts cols) :
  ParseCreateStatement (join parts) = Ok (Schema_create cols).
Proof.
  unfold ParseCreateStatement. rewrite Split_join.
  - replace (parse_columns _) with (Ok cols); [done|]. symmetry.
    induction H as [|part c parts cols Hc _ IH]; [done|]. cbn [map parse_columns].
    destruct (declares_part part c Hc) as (_ & _ & ->). cbn [result_bind]. by rewrite IH.
  - apply (Forall2_parts _ _ _ H). intros part c Hc. by destruct (declares_part part c Hc) as (? & ? & _).
Qed.

(** ** The index clause *)

(** A part of the clause, and the name of the column it writes. *)
Definition names (part : Buf) (col : string) : Prop :=
  exists l w r, part = l ++ w ++ r /\ spaces l /\ spaces r /\ word w /\ to_name (map tolower w) = col.

Lemma spaces_lower s : spaces s -> spaces (map tolower s).
Proof. intros H. apply Forall_map. eapply Forall_impl; [exact H|]. intros x. cbn. by rewrite isspace_tolower. Qed.

Lemma spaces_comma s : spaces s -> comma ∉ s.
Proof. intros Hs Hin. unfold spaces in Hs. rewrite Forall_forall in Hs. by specialize (Hs _ Hin). Qed.

Lemma word_comma s : word s -> comma ∉ s.
Proof. intros [_ Hw] Hin. rewrite Forall_forall in Hw. by destruct (Hw _ Hin). Qed.

Lemma tight_word w : word w -> tight w.
Proof.
  intros [Hn Fn]. split.
  - destruct w as [|c w]; [done|]. apply Forall_cons in Fn as [[Hc _] _]. by exists c, w.
  - destruct (exists_last Hn) as (r & c & ->). apply Forall_app in Fn as [_ [[Hc _] _]%Forall_cons]. by exists r, c.
Qed.

Lemma Trim_tight w : tight w -> Trim w = w.
Proof. intros H. rewrite <- (app_nil_r w) at 1. apply (trim_tight [] w []); [constructor|constructor|done]. Qed.

Lemma names_part part col : names part col ->
  comma ∉ part /\ part <> [] /\ to_name (Trim (Trim (map tolower part))) = col.
Proof.
  intros (l & w & r & -> & Hl & Hr & Hw & <-). split; [|split].
  - rewrite !elem_of_app. pose proof (spaces_comma l Hl). pose proof (spaces_comma r Hr). pose proof (word_comma w Hw). tauto.
  - destruct Hw as [Hne _]. by destruct l, w.
  - pose proof (tight_word _ (word_tolower w Hw)) as Ht.
    rewrite !map_app, trim_tight, Trim_tight; [done|done|by apply spaces_lower|by apply spaces_lower|done].
Qed.

Lemma index_columns_spec schema tok :
  index_columns schema tok = filter (fun i => i <> -1) (map (fun t => GetColumnID schema (to_name (Trim t))) tok).
Proof.
  induction tok as [|t tok IH]; [done|]. cbn [index_columns map]. rewrite filter_cons, IH.
  destruct (Z.eqb_spec (GetColumnID schema (to_name (Trim t))) (-1)); by case_decide.
Qed.

Lemma column_id_loop_spec cols i name :
  column_id_loop cols i name = -1 \/
  exists k c, column_id_loop cols i name = i + Z.of_nat k /\ cols !! k = Some c /\ column_name c = name.
Proof.
  revert i. induction cols as [|c cols IH]; intros i; cbn [column_id_loop]; [by left|].
  destruct (String.eqb_spec (column_name c) name) as [E|E].
  - right. exists O, c. split; [lia|done].
  - destruct (IH (i + 1)) as [->|(k & c' & -> & Hk & Hc)]; [by left|]. right. exists (S k), c'. split; [lia|done].
Qed.

Lemma copy_columns_ok schema ids :
  Z.of_nat (length (columns schema)) < 2 ^ 31 ->
  Forall (fun id => 0 <= id /\ is_Some (columns schema !! Z.to_nat id)) ids ->
  exists cols, copy_columns schema ids = Ok cols /\
               Forall2 (fun id c => columns schema !! Z.to_nat id = Some c) ids cols.
Proof.
  intros Hlen. induction 1 as [|id ids [H0 [c Hc]] _ (cols & E & Hcols)]; [by exists []|].
  exists (c :: cols). cbn [copy_columns]. rewrite assert_ok.
  - unfold GetColumn. rewrite <- (Z2Nat.id id) at 1 by lia. rewrite (BPage.cell_ok _ _ _ Hc). cbn [result_bind].
    rewrite E. split; [done|]. by constructor.
  - apply Z.ltb_lt. unfold GetColumnCount. rewrite swrap_id by (done || unfold in_sint; lia).
    apply lookup_lt_Some in Hc. lia.
Qed.

(** C24: an index clause, a name and then column names between commas, gives the index
    the columns of the table it names, in the order of the clause, unknown names being
    passed over; its key schema has these columns. *)
Theorem parse_index_statement (name table : Buf) (parts : list Buf) (cols : list string) (schema : Schema)
    (Hlen : Z.of_nat (length (columns schema)) < 2 ^ 31) (Hname : word name) (H : Forall2 names parts cols)
    (Hids : Z.of_nat (length (filter (fun i => i <> -1) (map (GetColumnID schema) cols))) <= Z.of_nat (length (columns schema))) :
  exists m kcols, ParseIndexStatement (name ++ blank :: join parts) table schema = Ok m /\
    name_ m = map tolower name /\ table_name_ m = table /\
    key_attrs_ m = filter (fun i => i <> -1) (map (GetColumnID schema) cols) /\ key_schema_ m = Schema_create kcols /\
    Forall2 (fun id c => 0 <= id /\ columns schema !! Z.to_nat id = Some c /\ column_name c ∈ cols) (key_attrs_ m) kcols.
Proof.
  set (ids := filter _ _) in *.
  assert (Hok : Forall (fun id => 0 <= id /\ exists c, columns schema !! Z.to_nat id = Some c /\ column_name c ∈ cols) ids).
  { apply Forall_forall. intros id [Hid Hin]%list_elem_of_filter. apply list_elem_of_fmap in Hin as (col & -> & Hcol).
    destruct (column_id_loop_spec (columns schema) 0 col) as [E|(k & c & E & Hk & Hc)]; [done|].
    unfold GetColumnID. rewrite E. split; [lia|]. exists c. rewrite Z.add_0_l, Nat2Z.id. split; [done|by rewrite Hc]. }
  destruct (copy_columns_ok schema ids Hlen) as (kcols & Ecopy & Hk).
  { eapply Forall_impl; [exact Hok|]. intros id (H0 & c & Hc & _). split; [done|by exists c]. }
  exists (mkMetadata (map tolower name) table ids (Schema_create kcols)), kcols. split; [|split_and!; try done].
  - pose proof (word_tolower name Hname) as Hw. unfold ParseIndexStatement. rewrite map_app. cbn [map]. change (tolower blank) with blank.
    rewrite find_first_of_app by (by apply word_blank). rewrite assert_ok by done.
    destruct (take_drop_word (map tolower name) (map tolower (join parts)) blank) as [E1 E2].
    unfold substr_to, substr_after. rewrite E1, E2. cbv zeta.
    assert (E : index_columns schema (Split (map tolower (join parts)) comma) = ids).
    { rewrite Split_join, index_columns_spec, map_map.
      - unfold ids. f_equal. clear - H. induction H as [|part col parts cols Hp _ IH]; [done|]. cbn [map].
        destruct (names_part part col Hp) as (_ & _ & ->). by rewrite IH.
      - apply (Forall2_parts _ _ _ H). intros part c Hc. by destruct (names_part part c Hc) as (? & ? & _). }
    rewrite E. unfold GetColumnCount. rewrite !swrap_id by (done || unfold in_sint; lia).
    rewrite (proj2 (Z.ltb_ge _ _)) by lia. unfold IndexMetadata_create, CopySchema. by rewrite Ecopy.
  - cbn [key_attrs_]. rewrite Forall2_lookup in Hk |- *. rewrite Forall_lookup in Hok. intros i. specialize (Hk i). specialize (Hok i).
    destruct (ids !! i) as [id|]; destruct (kcols !! i) as [c|]; inversion Hk as [? ? Hic|]; subst; constructor.
    destruct (Hok id eq_refl) as (H0 & c' & Hc' & Hin). rewrite Hic in Hc'. by injection Hc' as <-.
Qed.

(** ** The size of the keys *)

Lemma index_key_size_spec m : 0 <= length_ (key_schema_ m) + 16 * Z.of_nat (length (uninlined_columns (key_schema_ m))) < 2 ^ 31 ->
  let need := length_ (key_schema_ m) + 16 * Z.of_nat (length (uninlined_columns (key_schema_ m))) in
  index_key_size m ∈ [4; 8; 16; 32; 64] /\ (need <= 64 -> need <= index_key_size m).
Proof.
  intros Hneed. cbv zeta. unfold index_key_size. rewrite swrap_id by (done || unfold in_sint; lia).
  set (need := length_ _ + _) in *.
  destruct (Z.leb_spec need 4); [|destruct (Z.leb_spec need 8); [|destruct (Z.leb_spec need 16); [|destruct (Z.leb_spec need 32)]]];
    (split; [by_computation|lia]).
Qed.

Lemma payload_bound cols values i n :
  Forall2 fits cols values -> Forall (fun v => Z.of_nat (length (image v)) <= n) values -> 0 <= n ->
  payload cols values <= n * Z.of_nat (length (uninlined_from i cols)).
Proof.
  intros H. revert i. induction H as [|c v cols values Hf H IH]; intros i Hn H0; cbn [payload uninlined_from]; [simpl; lia|].
  apply Forall_cons in Hn as [Hv Hn]. specialize (IH (S i) Hn H0). rewrite length_app.
  destruct (is_inlined c); cbn [length]; lia.
Qed.

(** C25: the key of an index is large enough for the key tuples whose strings take at most
    16 bytes each, their length and final zero included, when 64 bytes are enough for
    them; but SetFromKey never compares sizes, and a longer tuple writes past the key. *)
Theorem index_key_room (uninit : Z -> Buf) (m : IndexMetadata) (cols : list Column) (values : list Value)
    (Hm : key_schema_ m = Schema_create cols) (Ha : allocator uninit) (Hf : tuple_fits cols values) :
  let key := let* tuple := Tuple_create uninit values (key_schema_ m) in SetFromKey (index_key_size m) tuple in
  let size := fixed_total cols + payload cols values in
  (Forall (fun v => Z.of_nat (length (image v)) <= 16) values ->
   fixed_total cols + 16 * Z.of_nat (length (uninlined_from 0 cols)) <= 64 ->
   exists k, key = Ok k /\ key_of cols values k) /\
  (index_key_size m < size -> key = Fail MemFault).
Proof.
  cbv zeta. pose proof Hf as (Hc & Hv & Hs & Hn). pose proof (payload_pos cols values). pose proof (fixed_total_pos cols Hc).
  destruct (Schema_create_spec cols Hc) as (_ & El & Eu); [lia|]. rewrite Hm. split.
  - intros Hb Hneed. apply key_of_tuple; [done|done|].
    pose proof (payload_bound cols values 0 16 Hv Hb ltac:(lia)).
    destruct (index_key_size_spec m) as [_ Hk]; rewrite Hm, El, Eu in *; lia.
  - intros Hlt. destruct (Tuple_create_spec uninit cols values Ha Hf) as (data & -> & Hl & _). cbn [result_bind].
    unfold SetFromKey, memwrite, zero_key. destruct (in_range _ _ _) eqn:E; [|done]. exfalso.
    apply in_range_spec in E as (_ & _ & E). rewrite length_replicate in E.
    assert (0 < index_key_size m).
    { unfold index_key_size. repeat case_match; lia. }
    lia.
Qed.

(** ** Examples *)

(** The schema of the test programs, in mixed case. *)
Definition sample_sql : list Buf := [lit "A int"; lit "  b Varchar(13)"; lit " c SMALLINT "; lit "d double"].
Definition sample_table : list Column :=
  [mkColumn INTEGER 4 0 "a" true (-1); mkColumn VARCHAR 4 13 "b" false (-1);
   mkColumn SMALLINT 2 0 "c" true (-1); mkColumn DECIMAL 8 0 "d" true (-1)].

Lemma parse_create_statement_witness :
  Forall2 declares sample_sql sample_table /\
  ParseCreateStatement (lit "A int,  b Varchar(13), c SMALLINT ,d double") = Ok (Schema_create sample_table).
Proof.
  assert (H : Forall2 declares sample_sql sample_table).
  { repeat constructor;
      [exists [], (lit "A"), (lit "int"), [], INTEGER, 4|exists (lit "  "), (lit "b"), (lit "Varchar(13)"), [], VARCHAR, 13|
       exists (lit " "), (lit "c"), (lit "SMALLINT"), (lit " "), SMALLINT, 2|exists [], (lit "d"), (lit "double"), [], DECIMAL, 8];
      (split_and!; [done|by repeat constructor|by repeat constructor|by split; [|repeat constructor]| |done]).
    - apply (text_fixed "int"); [by_computation|done].
    - apply (text_sized "varchar" 13); [by_computation|unfold in_sint; lia|lia].
    - apply (text_fixed "smallint"); [by_computation|done].
    - apply (text_fixed "double"); [by_computation|done]. }
  split; [exact H|]. exact (parse_create_statement sample_sql sample_table H).
Defined.

Lemma parse_index_statement_witness :
  Forall2 names [lit " C"; lit "nothing"; lit "b "] ["c"; "nothing"; "b"]%string /\
  exists m kcols, ParseIndexStatement (lit "Idx  C,nothing,b ") (lit "t") (Schema_create sample_table) = Ok m /\
    name_ m = lit "idx" /\ table_name_ m = lit "t" /\ key_attrs_ m = [2; 1] /\ key_schema_ m = Schema_create kcols /\
    Forall2 (fun id c => 0 <= id /\ columns (Schema_create sample_table) !! Z.to_nat id = Some c /\
                         column_name c ∈ ["c"; "nothing"; "b"]%string) (key_attrs_ m) kcols.
Proof.
  assert (H : Forall2 names [lit " C"; lit "nothing"; lit "b "] ["c"; "nothing"; "b"]%string).
  { repeat constructor.
    - exists (lit " "), (lit "C"), []. by split_and!; repeat constructor.
    - exists [], (lit "nothing"), []. by split_and!; repeat constructor.
    - exists [], (lit "b"), (lit " "). by split_and!; repeat constructor. }
  split; [exact H|].
  apply (parse_index_statement (lit "Idx") (lit "t") [lit " C"; lit "nothing"; lit "b "] ["c"; "nothing"; "b"]%string);
    [by vm_compute|by repeat constructor|exact H|by vm_compute].
Defined.

(** Two spaces before the type, an unknown type, and a text without a space. *)
Example parse_errors :
  ParseCreateStatement (lit "a  int") = Fail (Throw "UNKNOWN_TYPE") /\
  ParseCreateStatement (lit "a decimal") = Fail (Throw "UNKNOWN_TYPE") /\
  ParseCreateStatement (lit "a varchar(x)") = Fail (Throw "std::invalid_argument") /\
  ParseCreateStatement (lit "int") = Ok (Schema_create [mkColumn INTEGER 4 0 "int" true (-1)]) /\
  ParseIndexStatement (lit "idx") (lit "t") (Schema_create sample_table) = Fail AssertFail.
Proof. by vm_compute. Qed.

(** An index of one string column: keys of 32 bytes, enough for 23 characters. *)
Definition string_index : IndexMetadata :=
  mkMetadata (lit "idx") (lit "t") [1] (Schema_create [mkColumn VARCHAR 4 40 "b" false (-1)]).

Lemma index_key_room_witness :
  let key v := let* tuple := Tuple_create sample_uninit [mk_bytes (lit v ++ [0])] (key_schema_ string_index) in
               SetFromKey (index_key_size string_index) tuple in
  (exists k, key "eleven char"%string = Ok k) /\ key "a string of 24 characters"%string = Fail MemFault.
Proof.
  assert (F : forall v, Z.of_nat (length (lit v)) < 40 ->
    tuple_fits [mkColumn VARCHAR 4 40 "b" false (-1)] [mk_bytes (lit v ++ [0])]).
  { intros v Hv. split; [|split; [|split; [|done]]].
    - repeat constructor; try done; intros n _ [= <-]; cbn; lia.
    - constructor; [|constructor]. split; [done|]. split.
      2:{ intros _. apply Z.eqb_neq. cbn [len mk_bytes]. rewrite length_app. unfold PELOTON_VALUE_NULL. cbn [length]. lia. }
      apply wf_bytes. rewrite length_app. cbn [length].
      unfold PELOTON_VARCHAR_MAX_LEN. lia.
    - cbn [fixed_total payload is_inlined fixed_length image mk_bytes value_ len]. rewrite length_app, length_le_encode, length_app. cbn [length]. lia. }
  cbv zeta. split.
  - destruct (index_key_room sample_uninit string_index _ _ eq_refl sample_allocator (F "eleven char"%string ltac:(by vm_compute))) as [Hok _].
    destruct Hok as (k & Hk & _); [constructor; [by vm_compute|constructor]|by vm_compute|]. exists k. exact Hk.
  - destruct (index_key_room sample_uninit string_index _ _ eq_refl sample_allocator (F "a string of 24 characters"%string ltac:(by vm_compute))) as [_ Hbad].
    apply Hbad. by vm_compute.
Defined.
End VtabSchema.
