(* ===== verification/VtabQuery.v ===== *)
(** * Rows and plans (src/src/vtable/virtual_table.cpp)

    ConstructTuple and VtabColumn, which carry rows from and to SQLite, and VtabBestIndex
    and VtabFilter, which decide on a lookup in the index and build its key.  The values
    of SQLite are a parameter with the accessors of its interface. *)

From stdpp Require Import prelude list strings.
From Stdlib Require Import ZArith Lia SpecFloat.
From S2P Require Import Prelude CppStd SqlValue TypeCast TypeSerialize BPlusTreePage SqlTuple VtabSchema.

Local Open Scope Z_scope.

Module VtabQuery.
Import CppStd.Double SqlValue.SqlValue TypeCast.TypeCast TypeSerialize.TypeSerialize SqlTuple.SqlTuple VtabSchema.

(** [sqlite3_value]: its conversions to the C types, the text without its final zero and
    [None] for the null pointer. *)
Class SqliteValue (A : Type) := {
  value_int : A -> Z;
  value_int64 : A -> Z;
  value_double : A -> double;
  value_text : A -> option Buf
}.

(** What the interface of SQLite says of them. *)
Class SqliteLaws (A : Type) `{SqliteValue A} := {
  value_int_range a : in_sint 32 (value_int a);
  value_int64_range a : in_sint 64 (value_int64 a);
  value_double_valid a : valid_binary prec emax (value_double a) = true;
  value_text_zero a s : value_text a = Some s -> 0 ∉ s
}.

Section Rows.
Context {A : Type} `{SqliteValue A} (uninit : Z -> Buf).

(** ** ConstructTuple *)

(** The switch of the loop: [v] is the value of the column before. *)
Definition column_value (type : TypeId) (a : A) (v : Value) : result Value :=
  match type with
  | BOOLEAN | INTEGER | SMALLINT | TINYINT => Value_int type (value_int a)
  | BIGINT => Value_int type (value_int64 a)
  | DECIMAL => Value_double type (value_double a)
  | VARCHAR =>
      let* text := from_option_r Undefined (value_text a) in
      Value_string type text
  | _ => Ok v
  end.

(** The loop over the [n] columns from [i]. *)
Fixpoint construct_values (schema : Schema) (argv : list A) (i : Z) (n : nat) (v : Value) : result (list Value) :=
  match n with
  | O => Ok []
  | S n =>
      let* type := GetType schema i in
      let* a := from_option_r MemFault (argv !! Z.to_nat i) in
      let* v := column_value type a v in
      let* values := construct_values schema argv (i + 1) n v in
      Ok (v :: values)
  end.

Definition ConstructTuple (schema : Schema) (argv : list A) : result Buf :=
  let* values := construct_values schema argv 0 (Z.to_nat (GetColumnCount schema)) (Value_null INVALID) in
  Tuple_create uninit values schema.
End Rows.

(** ** VtabColumn *)

(** The result a column is given: an integer, a wide integer, a double, or the text up to
    its first zero. *)
Inductive SqliteResult :=
| result_int (z : Z)
| result_int64 (z : Z)
| result_double (d : double)
| result_text (s : option Buf).

(** The bytes before the first zero; a text without one is read out of its bounds. *)
Fixpoint c_string (s : Buf) : result Buf :=
  match s with
  | [] => Fail MemFault
  | c :: s => if c =? 0 then Ok [] else let* t := c_string s in Ok (c :: t)
  end.

(** [None] is SQLITE_ERROR. *)
Definition VtabColumn (schema : Schema) (tuple : Buf) (i : Z) : result (option SqliteResult) :=
  let* type := GetType schema i in
  let* v := GetValue tuple schema i in
  match type with
  | TINYINT | BOOLEAN => let* z := GetAs int8_t v in Ok (Some (result_int z))
  | SMALLINT => let* z := GetAs int16_t v in Ok (Some (result_int z))
  | INTEGER => let* z := GetAs int32_t v in Ok (Some (result_int z))
  | BIGINT => let* z := GetAs int64_t v in Ok (Some (result_int64 z))
  | DECIMAL => let* d := GetDouble v in Ok (Some (result_double d))
  | VARCHAR =>
      let* data := VarlenType_GetData v in
      match data with
      | None => Ok (Some (result_text None))
      | Some bytes => let* s := c_string bytes in Ok (Some (result_text (Some s)))
      end
  | _ => Ok None
  end.

(** ** VtabBestIndex *)

Definition SQLITE_INDEX_CONSTRAINT_EQ : Z := 2.

(** [sqlite3_index_constraint], and what the planner returns of [sqlite3_index_info]. *)
Record Constraint := mkConstraint {
  iColumn : Z;
  op : Z;
  usable : bool
}.

Record Plan := mkPlan {
  argvIndex : list Z;
  idxNum : Z
}.

(** The loop over the constraints from [i]: the plan, the counter, the flag. *)
Fixpoint plan_loop (key_attrs : list Z) (cs : list Constraint) (i : nat) (argv : list Z) (counter : Z)
    : list Z * Z * bool :=
  match cs with
  | [] => (argv, counter, true)
  | c :: cs =>
      if negb (usable c) then plan_loop key_attrs cs (S i) argv counter
      else if bool_decide (iColumn c ∈ key_attrs) then
        if negb (op c =? SQLITE_INDEX_CONSTRAINT_EQ) then (argv, counter, false)
        else plan_loop key_attrs cs (S i) (<[i := Z.of_nat i + 1]> argv) (counter + 1)
      else plan_loop key_attrs cs (S i) argv counter
  end.

(** The attributes of the index of the table, if it has one. *)
Definition VtabBestIndex (index : option (list Z)) (cs : list Constraint) (plan : Plan) : Plan :=
  match index with
  | None => plan
  | Some key_attrs =>
      if negb (Z.of_nat (length cs) =? wrap32 (Z.of_nat (length key_attrs))) then plan
      else
        let '(argv, counter, is_index_scan) := plan_loop key_attrs cs 0 (argvIndex plan) 0 in
        mkPlan argv (if (counter =? wrap32 (Z.of_nat (length key_attrs))) && is_index_scan then 1 else idxNum plan)
  end.

(** ** A row there and back *)

Section RowFacts.
Context {A : Type} `{Hv : SqliteValue A} `{Hl : !SqliteLaws A} (uninit : Z -> Buf).

(** The value a column of the type stores. *)
Definition val_of (type : TypeId) (a : A) : Value :=
  match type with
  | BOOLEAN => mk_bool (swrap 8 (value_int a))
  | TINYINT => mk_int int8_t (swrap 8 (value_int a))
  | SMALLINT => mk_int int16_t (swrap 16 (value_int a))
  | INTEGER => mk_int int32_t (value_int a)
  | BIGINT => mk_int int64_t (value_int64 a)
  | DECIMAL => mk_decimal (value_double a)
  | VARCHAR => mk_bytes (default [] (value_text a) ++ [0])
  | _ => Value_null INVALID
  end.

(** What SQLite reads of it. *)
Definition read_back (type : TypeId) (a : A) : SqliteResult :=
  match type with
  | SMALLINT => result_int (swrap 16 (value_int a))
  | INTEGER => result_int (value_int a)
  | BIGINT => result_int64 (value_int64 a)
  | DECIMAL => result_double (value_double a)
  | VARCHAR => result_text (value_text a)
  | _ => result_int (swrap 8 (value_int a))
  end.

(** An argument for a column: a text for a string, the type one a table can declare. *)
Definition accepts (type : TypeId) (a : A) : Prop :=
  match type with
  | INVALID | TIMESTAMP => False
  | VARCHAR => exists s, value_text a = Some s /\ Z.of_nat (length s) < 2 ^ 31
  | _ => True
  end.

Lemma column_value_ok type a v : accepts type a -> column_value type a v = Ok (val_of type a).
Proof.
  intros Ha. pose proof (value_int_range a) as H32. pose proof (value_int64_range a) as H64.
  destruct type; try done; cbn [column_value val_of].
  - by apply (Value_int_mk int32_t).
  - by apply (Value_int_mk int64_t).
  - destruct Ha as (s & E & Hs). rewrite E. change (default [] (Some s)) with s. cbn [from_option_r result_bind].
    rewrite Value_string_mk by (unfold PELOTON_VARCHAR_MAX_LEN; lia). unfold mk_varchar, mk_bytes.
    by rewrite length_app, Nat2Z.inj_add.
Qed.

Lemma val_of_fits c a : column_ok c -> accepts (column_type c) a -> fits c (val_of (column_type c) a).
Proof.
  intros (H0 & Hi & _) Ha. pose proof (value_int_range a) as H32. pose proof (value_int64_range a) as H64.
  unfold fits. destruct (column_type c); try done; cbn [val_of]; (split; [done|]); try (split; [|by rewrite Hi]).
  - apply wf_bool, swrap_range. lia.
  - apply (wf_int int8_t), swrap_range. done.
  - apply (wf_int int16_t), swrap_range. done.
  - by apply (wf_int int32_t).
  - by apply (wf_int int64_t).
  - apply wf_decimal, value_double_valid.
  - destruct Ha as (s & E & Hs). rewrite E. change (default [] (Some s)) with s. split; [|intros _; apply Z.eqb_neq];
      [apply wf_bytes|cbn [len mk_bytes]]; rewrite length_app; cbn [length]; unfold PELOTON_VARCHAR_MAX_LEN, PELOTON_VALUE_NULL; lia.
Qed.

Definition row_values (cols : list Column) (argv : list A) : list Value :=
  zip_with (fun c a => val_of (column_type c) a) cols argv.

(** The loop over the columns, whose types are those of [cols]. *)
Lemma construct_values_ok schema cols argv : map column_type (columns schema) = map column_type cols ->
  Forall2 (fun c a => accepts (column_type c) a) cols argv ->
  forall n i v, (i + n = length cols)%nat ->
  construct_values schema argv (Z.of_nat i) n v = Ok (drop i (row_values cols argv)).
Proof.
  intros Ht H. induction n as [|n IH]; intros i v Hn; cbn [construct_values].
  - rewrite drop_ge; [done|]. unfold row_values. rewrite length_zip_with_l_eq; [lia|by apply Forall2_length in H].
  - destruct (lookup_lt_is_Some_2 cols i) as [c Hc]; [lia|]. destruct (Forall2_lookup_l _ _ _ _ _ H Hc) as (a & Ha & Hca).
    assert (Hty : map column_type (columns schema) !! i = Some (column_type c)) by (by rewrite Ht, list_lookup_fmap, Hc).
    rewrite list_lookup_fmap in Hty. destruct (columns schema !! i) as [c'|] eqn:Hc'; [|done]. injection Hty as Ety.
    unfold GetType, GetColumn. rewrite (BPage.cell_ok _ _ _ Hc'). cbn [result_bind]. rewrite Nat2Z.id, Ha. cbn [from_option_r result_bind].
    rewrite Ety, (column_value_ok _ a v Hca). cbn [result_bind].
    replace (Z.of_nat i + 1) with (Z.of_nat (S i)) by lia. rewrite IH by lia. cbn [result_bind].
    symmetry. f_equal. apply drop_S. unfold row_values. rewrite lookup_zip_with, Hc, Ha. done.
Qed.

Lemma place_map_type off cols : map column_type (place off cols) = map column_type cols.
Proof. revert off. induction cols as [|c cols IH]; intros off; [done|]. cbn. by rewrite IH. Qed.

Lemma c_string_zero s : 0 ∉ s -> c_string (s ++ [0]) = Ok s.
Proof.
  induction s as [|c s IH]; intros H; [done|]. apply not_elem_of_cons in H as [Hc H]. cbn [app c_string].
  by rewrite (proj2 (Z.eqb_neq c 0)), IH by congruence.
Qed.

Lemma read_back_ok type a : accepts type a ->
  match type with
  | TINYINT | BOOLEAN => let* z := GetAs int8_t (val_of type a) in Ok (Some (result_int z))
  | SMALLINT => let* z := GetAs int16_t (val_of type a) in Ok (Some (result_int z))
  | INTEGER => let* z := GetAs int32_t (val_of type a) in Ok (Some (result_int z))
  | BIGINT => let* z := GetAs int64_t (val_of type a) in Ok (Some (result_int64 z))
  | DECIMAL => let* d := GetDouble (val_of type a) in Ok (Some (result_double d))
  | VARCHAR =>
      let* data := VarlenType_GetData (val_of type a) in
      match data with
      | None => Ok (Some (result_text None))
      | Some bytes => let* s := c_string bytes in Ok (Some (result_text (Some s)))
      end
  | _ => Ok None
  end = Ok (Some (read_back type a)).
Proof.
  intros Ha. destruct type; try done. destruct Ha as (s & E & _). cbn [val_of read_back].
  rewrite E. change (default [] (Some s)) with s. cbn [VarlenType_GetData mk_bytes value_ result_bind].
  by rewrite c_string_zero by (by apply (value_text_zero a)).
Qed.

End RowFacts.

(** ** Plans *)

(** A constraint the plan can serve: an equality on a column of the index. *)
Definition serves (key_attrs : list Z) (c : Constraint) : Prop :=
  usable c = true /\ iColumn c ∈ key_attrs /\ op c = SQLITE_INDEX_CONSTRAINT_EQ.

Lemma plan_loop_spec key_attrs cs : forall i argv counter,
  let '(argv', counter', flag) := plan_loop key_attrs cs i argv counter in
  counter' <= counter + Z.of_nat (length cs) /\
  (counter' = counter + Z.of_nat (length cs) /\ flag = true <-> Forall (serves key_attrs) cs) /\
  (Forall (serves key_attrs) cs -> argv' = foldl (fun a j => <[j := Z.of_nat j + 1]> a) argv (seq i (length cs))).
Proof.
  induction cs as [|c cs IH]; intros i argv counter; cbn [plan_loop length].
  - split; [lia|]. split; [|done]. split; [done|]. intros _. split; [lia|done].
  - assert (Hno : ~ serves key_attrs c -> forall P : Prop, (Forall (serves key_attrs) (c :: cs) -> P)).
    { intros Hc P [Hs _]%Forall_cons. done. }
    destruct (usable c) eqn:Eu; cbn [negb].
    2:{ assert (Hc : ~ serves key_attrs c) by (intros (E & _); congruence).
        specialize (IH (S i) argv counter). destruct (plan_loop key_attrs cs (S i) argv counter) as [[argv' counter'] flag].
        destruct IH as (IH & _). split; [lia|]. split; [|by apply Hno]. split; [lia|by apply Hno]. }
    case_bool_decide as Hin.
    2:{ assert (Hc : ~ serves key_attrs c) by (by intros (_ & ? & _)).
        specialize (IH (S i) argv counter). destruct (plan_loop key_attrs cs (S i) argv counter) as [[argv' counter'] flag].
        destruct IH as (IH & _). split; [lia|]. split; [|by apply Hno]. split; [lia|by apply Hno]. }
    destruct (Z.eqb_spec (op c) SQLITE_INDEX_CONSTRAINT_EQ) as [Eo|Eo]; cbn [negb].
    + specialize (IH (S i) (<[i := Z.of_nat i + 1]> argv) (counter + 1)).
      destruct (plan_loop key_attrs cs (S i) _ (counter + 1)) as [[argv' counter'] flag].
      destruct IH as (Hle & Hiff & Hargv). split; [lia|]. rewrite Forall_cons. split.
      * rewrite <- (and_iff_compat_l (serves key_attrs c) Hiff). split; [intros [E ->]; split; [done|]; split; [lia|done]|].
        intros (_ & E & ->). split; [lia|done].
      * intros [_ Hs]. cbn [seq foldl]. by apply Hargv.
    + assert (Hc : ~ serves key_attrs c) by (by intros (_ & _ & ?)).
      split; [lia|]. split; [|by apply Hno]. split; [by intros [_ ?]|by apply Hno].
Qed.

(** The numbers of the arguments, one after the other. *)
Lemma foldl_insert_seq n : forall i (argv : list Z), length argv = (i + n)%nat ->
  foldl (fun a j => <[j := Z.of_nat j + 1]> a) argv (seq i n) = take i argv ++ map (fun j => Z.of_nat j + 1) (seq i n).
Proof.
  induction n as [|n IH]; intros i argv Hl; cbn [seq foldl map].
  - rewrite app_nil_r, take_ge; [done|lia].
  - rewrite IH by (rewrite length_insert; lia). rewrite (take_S_r _ i (Z.of_nat i + 1)) by (apply list_lookup_insert_eq; lia).
    rewrite take_insert_ge by lia. by rewrite <- app_assoc.
Qed.

(** C27: VtabBestIndex chooses the lookup in the index exactly when there are as many
    constraints as key columns and each is a usable equality on a key column; it then
    numbers the arguments in the order of the constraints, whatever columns they are on,
    though VtabFilter makes the key from them in the order of the key columns. *)
Theorem best_index_plan (key_attrs : list Z) (cs : list Constraint) (plan : Plan)
    (Hk : Z.of_nat (length key_attrs) < 2 ^ 31) (Hl : length (argvIndex plan) = length cs) (H0 : idxNum plan = 0) :
  let p := VtabBestIndex (Some key_attrs) cs plan in
  (idxNum p = 1 <-> length cs = length key_attrs /\ Forall (serves key_attrs) cs) /\
  (idxNum p = 1 -> argvIndex p = map (fun j => Z.of_nat j + 1) (seq 0 (length cs))).
Proof.
  cbv zeta. unfold VtabBestIndex. rewrite swrap_id by (done || unfold in_sint; lia).
  destruct (Z.eqb_spec (Z.of_nat (length cs)) (Z.of_nat (length key_attrs))) as [E|E]; cbn [negb].
  2:{ rewrite H0. split; [|done]. split; [done|]. intros [? _]. lia. }
  pose proof (plan_loop_spec key_attrs cs 0 (argvIndex plan) 0) as Hloop.
  destruct (plan_loop key_attrs cs 0 (argvIndex plan) 0) as [[argv counter] flag]. destruct Hloop as (Hle & Hiff & Hargv).
  assert (Hp : (if (counter =? Z.of_nat (length key_attrs)) && flag then 1 else idxNum plan) = 1 <-> Forall (serves key_attrs) cs).
  { rewrite <- Hiff, H0. destruct (Z.eqb_spec counter (Z.of_nat (length key_attrs))), flag; cbn [andb]; split; try done; intros; lia || tauto. }
  cbn [idxNum argvIndex]. split.
  - rewrite Hp. split; [intros; split; [lia|done]|tauto].
  - intros Hs%Hp. rewrite (Hargv Hs), foldl_insert_seq by lia. done.
Qed.

Lemma best_index_plan_witness :
  let p := VtabBestIndex (Some [0; 1]) [mkConstraint 1 2 true; mkConstraint 0 2 true] (mkPlan [0; 0] 0) in
  (idxNum p = 1 <-> 2%nat = 2%nat /\ Forall (serves [0; 1]) [mkConstraint 1 2 true; mkConstraint 0 2 true]) /\
  (idxNum p = 1 -> argvIndex p = [1; 2]).
Proof. apply (best_index_plan [0; 1] [mkConstraint 1 2 true; mkConstraint 0 2 true] (mkPlan [0; 0] 0)); by vm_compute. Defined.

(** The plan of [b = .. AND a = ..] is that of [a = .. AND b = ..], and a column can be
    constrained twice instead of another. *)
Example best_index_order :
  let plan cs := VtabBestIndex (Some [0; 1]) cs (mkPlan [0; 0] 0) in
  let on column := mkConstraint column 2 true in
  plan [on 1; on 0] = plan [on 0; on 1] /\ plan [on 0; on 0] = plan [on 0; on 1] /\
  plan [on 0; on 1] = mkPlan [1; 2] 1.
Proof. by vm_compute. Qed.

(** ** A sample row *)

Inductive Cell := IntCell (z : Z) | TextCell (s : Buf) | NullCell.

#[global] Instance cell_value : SqliteValue Cell := {
  value_int c := match c with IntCell z => swrap 32 z | _ => 0 end;
  value_int64 c := match c with IntCell z => swrap 64 z | _ => 0 end;
  value_double _ := S754_zero false;
  value_text c := match c with TextCell s => Some (filter (fun x => x <> 0) s) | _ => None end
}.

#[global] Instance cell_laws : SqliteLaws Cell.
Proof.
  split; cbn.
  - intros []; [by apply swrap_range| |]; unfold in_sint; lia.
  - intros []; [by apply swrap_range| |]; unfold in_sint; lia.
  - done.
  - intros [| s'|] s [=<-]. by intros [? _]%list_elem_of_filter.
Qed.

Definition sample_row : list Cell := [IntCell 7; TextCell (Text.lit "hi"); IntCell 100000; NullCell].


(** A NULL for a string column is the null pointer, of which no string can be made; NULL
    for a number is stored as 0, and a number that is too wide wraps. *)
Example null_arguments :
  ConstructTuple sample_uninit (Schema_create sample_table) [IntCell 7; NullCell; IntCell 1; IntCell 1] = Fail Undefined /\
  read_back INTEGER NullCell = result_int 0 /\ read_back SMALLINT (IntCell 100000) = result_int (-31072).
Proof. by vm_compute. Qed.
End VtabQuery.
