(* ===== verification/VtabConnect.v ===== *)
(** * The life of a virtual table (src/src/vtable/virtual_table.cpp)

    VtabCreate makes the heap of a table and records its first page in the header page;
    VtabConnect finds it there when the database is used again; VtabDisconnect deletes the
    storage engine. *)

From stdpp Require Import prelude gmap list strings.
From Stdlib Require Import ZArith Lia.
From S2P Require Import Prelude CppStd Rid Interfaces DiskManager BufferPool HeaderPage TablePage PagePool LockManager TableHeap.
From S2P Require Import TransactionManager TableRows SoleTransaction StorageEngine SqlValue SqlTuple VtabSchema.

Local Open Scope Z_scope.

Module VtabConnect.
Import Pool TransactionManager VtabSchema StorageEngine CppStd.Text.
Import SqlTuple.SqlTuple(Schema, Schema_create).
Import TablePage.TablePage(mkSPage, s_id).

(** The index of a table; [None] is a root page id that no one has set. *)
Record TableIndex := mkIndex {
  metadata_ : IndexMetadata;
  key_size_ : Z;
  root_page_id_ : option Z
}.

Record Table := mkTable {
  schema_ : Schema;
  first_page_id_ : Z;
  index_ : option TableIndex
}.

(** The size of the keys chooses the class of the index. *)
Definition ConstructIndex (metadata : IndexMetadata) (root_id : option Z) : TableIndex :=
  mkIndex metadata (index_key_size metadata) root_id.

(** [substr(1, size() - 2)]: the length wraps round for one character, which is more than
    is left. *)
Definition unquote (s : Buf) : result Buf :=
  match s with
  | [] => Fail (Throw "std::out_of_range")
  | _ :: r => Ok (take (length s - 2) r)
  end.

(** The statement that registers the columns. *)
Definition declaration (schema_string : Buf) : Buf := lit "CREATE TABLE X(" ++ schema_string ++ lit ");".

(** The fifth argument, if there is one. *)
Definition parse_index (argv : list Buf) (schema : Schema) : result (option IndexMetadata) :=
  match argv !! 4%nat with
  | None => Ok None
  | Some index_string =>
      let* index_string := unquote index_string in
      let* index_metadata := ParseIndexStatement index_string (nth 2 argv []) schema in
      Ok (Some index_metadata)
  end.

Section Calls.
Context {P : Type} `{PagePool P} (logging : bool).

(** [sqlite3_declare_vtab(db, sql) == SQLITE_OK]. *)
Context (declare_vtab : Buf -> bool).

Abbreviation Env := (TableHeap.Env P Locks).

Definition with_pool (b : P) (e : Env) : Env := TableHeap.mkEnv b (TableHeap.locks_ e) (TableHeap.write_set_ e).

(** The header page stays pinned from the first statement to the last, and only
    InsertRecord writes it. *)
Definition VtabCreate (argv : list Buf) (e : Env) : result (Table * Env) :=
  let* (header_page, b) := fetch HEADER_PAGE_ID (TableHeap.pool_ e) in
  let e := with_pool b e in
  assert! 4 <=? Z.of_nat (length argv) ;;
  let* schema_string := unquote (nth 3 argv []) in
  let* schema := ParseCreateStatement schema_string in
  let* index_metadata := parse_index argv schema in
  let index := (fun m => ConstructIndex m (Some INVALID_PAGE_ID)) <$> index_metadata in
  let* (first_page_id, e) := VirtualTable_create logging INVALID_PAGE_ID e in
  let* header_page := deref_page header_page in
  let* (_, header_page') := Header.InsertRecord (nth 2 argv []) first_page_id header_page in
  let* b := store HEADER_PAGE_ID header_page header_page' (TableHeap.pool_ e) in
  let* b := unpin HEADER_PAGE_ID true b in
  assert! declare_vtab (declaration schema_string) ;;
  Ok (mkTable schema first_page_id index, with_pool b e).

(** The root page ids that GetRootId does not find are variables without a value; the one
    of the table is compared with [INVALID_PAGE_ID]. *)
Definition VtabConnect (argv : list Buf) (e : Env) : result (Table * Env) :=
  assert! 4 <=? Z.of_nat (length argv) ;;
  let* schema_string := unquote (nth 3 argv []) in
  let* schema := ParseCreateStatement schema_string in
  let* (header_page, b) := fetch HEADER_PAGE_ID (TableHeap.pool_ e) in
  let e := with_pool b e in
  let* header_page := deref_page header_page in
  let* table_root_id := Header.GetRootId (nth 2 argv []) header_page in
  let* index_metadata := parse_index argv schema in
  let* index :=
    match index_metadata with
    | None => Ok None
    | Some m =>
        let* index_root_id := Header.GetRootId (name_ m) header_page in
        Ok (Some (ConstructIndex m index_root_id))
    end in
  let* table_root_id := from_option_r Undefined table_root_id in
  let* (first_page_id, e) := VirtualTable_create logging table_root_id e in
  assert! declare_vtab (declaration schema_string) ;;
  let* b := unpin HEADER_PAGE_ID false (TableHeap.pool_ e) in
  Ok (mkTable schema first_page_id index, with_pool b e).
End Calls.

(** The global [storage_engine_] after its deletion points to no engine, and a second
    deletion is undefined; what is left is the file. *)
Definition VtabDisconnect (engine : option Storage) : result (list Z) :=
  let* e := from_option_r Undefined engine in
  Ok (Disk.content (Disk.db_io_ (BufferPool.disk_manager_ (TableHeap.pool_ e)))).

(** ** Creation, then connection *)

Definition root_of (name : Buf) (rs : Header.Records) : option Z :=
  i ← Header.index_of name rs; snd <$> rs !! i.

(** What the arguments say. *)
Record declared (declare_vtab : Buf -> bool) (argv : list Buf) (table : Buf) (schema : Schema)
    (metadata : option IndexMetadata) : Prop := {
  de_argc : 4 <= Z.of_nat (length argv);
  de_table : nth 2 argv [] = table;
  de_schema : exists text, unquote (nth 3 argv []) = Ok text /\ ParseCreateStatement text = Ok schema /\
                           declare_vtab (declaration text) = true;
  de_index : parse_index argv schema = Ok metadata;
  de_name m : metadata = Some m -> Header.name_ok (name_ m)
}.

Lemma get_root page rs name : Header.repr page rs -> Header.name_ok name ->
  Header.GetRootId name page = Ok (root_of name rs).
Proof.
  intros Hr Hn. pose proof (Header.get_refines page rs name Hr Hn) as Hg. cbn [Header.exec Header.exec_spec fst] in Hg.
  destruct (Header.GetRootId name page) as [r|]; [|done]. cbn [result_bind] in Hg. by simplify_eq.
Qed.

Lemma insert_root page rs name r : Header.repr page rs -> Header.name_ok name -> name ∉ rs.*1 ->
  (length rs < Header.max_records)%nat -> 0 <= r -> int32 r ->
  exists page', Header.InsertRecord name r page = Ok (true, page') /\ Header.repr page' (rs ++ [(name, r)]).
Proof.
  intros Hr Hn Hnew Hlen H0 Hr32. destruct (Header.insert_refines page rs name r Hr) as (page' & Hi & Hr'); [done|].
  cbn [Header.exec Header.exec_spec] in Hi, Hr'. rewrite (proj2 (Header.index_of_None name rs) Hnew) in Hi, Hr'.
  cbn [fst snd] in Hi, Hr'. exists page'. split; [|done].
  destruct (Header.InsertRecord name r page) as [[ok p]|]; [|done]. cbn [result_bind fst snd] in Hi. by simplify_eq.
Qed.

Lemma root_of_snoc rs name r : name ∉ rs.*1 -> root_of name (rs ++ [(name, r)]) = Some r.
Proof.
  intros Hnew. unfold root_of, Header.index_of.
  rewrite (list_find_app_r _ _ _) by (apply list_find_None, Forall_forall; intros x Hx E; apply Hnew; rewrite <- E; by apply list_elem_of_fmap_2).
  cbn. rewrite decide_True by done. cbn. by rewrite lookup_app_r, Nat.sub_diag by lia.
Qed.

Section Proofs.
Context {P : Type} `{PagePoolLaws P} (logging : bool) (declare_vtab : Buf -> bool).
Implicit Types (e : TableHeap.Env P Locks) (s : Store).

(** The database: a pool at rest whose header page has the records [rs]. *)
Definition database e s (rs : Header.Records) : Prop :=
  pp_repr (TableHeap.pool_ e) s /\ at_rest s /\
  exists page, contents s !! HEADER_PAGE_ID = Some page /\ Header.repr page rs.

Lemma open_header e s rs : database e s rs -> 1 <= room s ->
  exists page b s1, fetch HEADER_PAGE_ID (TableHeap.pool_ e) = Ok (Some page, b) /\ Header.repr page rs /\ pp_repr b s1 /\
    opened s s1 (<[HEADER_PAGE_ID := mkOpen page false 1]> ∅) /\ contents s !! HEADER_PAGE_ID = Some page.
Proof.
  intros (Hb & Hrest & page & Hp & Hr) Hroom.
  destruct (open_fetch _ s s ∅ HEADER_PAGE_ID page Hb (opened_none s Hrest)) as (b & s1 & Hf & Hb1 & Ho);
    [apply lookup_empty|done|rewrite map_size_empty; lia|]. by exists page, b, s1.
Qed.

Lemma vtab_create_ok argv table schema metadata e s rs :
  declared declare_vtab argv table schema metadata -> database e s rs -> 2 <= room s -> Disk.page_id_in_file (next s) ->
  Header.name_ok table -> table ∉ rs.*1 -> (length rs < Header.max_records)%nat ->
  exists e' s', VtabCreate logging declare_vtab argv e =
      Ok (mkTable schema (next s) ((fun m => ConstructIndex m (Some INVALID_PAGE_ID)) <$> metadata), e') /\
    database e' s' (rs ++ [(table, next s)]) /\ room s' = room s /\
    TableHeap.heap_rel s' (next s) s' (TableHeap.mkSHeap [mkSPage (next s) INVALID_LSN INVALID_PAGE_ID []] (next s + 1)).
Proof.
  intros [Hargc Htable (text & Ht & Hschema & Hdecl) Hindex _] Hdb Hroom Hid Hn Hnew Hlen.
  destruct (open_header e s rs Hdb) as (page & b & s1 & Hf & Hr & Hb & Ho & Hp); [lia|].
  destruct (new_table_ok logging (with_pool b e) s s1 _ Hb Ho) as (e1 & s2 & buf & Hc & Hb1 & Ho1 & Hbuf & _);
    [rewrite map_size_insert_None, map_size_empty by done; lia|done|].
  destruct (insert_root page rs table (next s) Hr Hn Hnew Hlen) as (page' & Hi & Hr');
    [unfold Disk.page_id_in_file in Hid; lia|unfold Disk.page_id_in_file in Hid; unfold in_sint; lia|].
  destruct (TableHeap.open_close _ _ s2 HEADER_PAGE_ID page page' false true Hb1 Ho1) as (b2 & b3 & Hst & Hu & Hb3 & Hrest');
    [apply (Header.h_len _ _ Hr')|by left|].
  exists (with_pool b3 e1), (save_page HEADER_PAGE_ID page' (save_page (next s) buf (add_page s))). split; [|split; [|split]].
  - unfold VtabCreate. rewrite Hf. cbn [result_bind]. rewrite (proj2 (Z.leb_le _ _) Hargc), assert_true, Ht. cbn [result_bind].
    rewrite Hschema. cbn [result_bind]. rewrite Hindex. cbn [result_bind]. rewrite Hc. cbn [result_bind deref_page from_option_r].
    rewrite Htable, Hi. cbn [result_bind]. rewrite Hst. cbn [result_bind]. rewrite Hu. cbn [result_bind]. by rewrite Hdecl, assert_true.
  - split; [done|]. split; [done|]. exists page'. split; [apply lookup_insert_eq|done].
  - done.
  - destruct Hdb as (_ & Hrest & _). assert (Hne : HEADER_PAGE_ID <> next s).
    { pose proof (ar_id _ Hrest HEADER_PAGE_ID ltac:(by exists page)). lia. }
    split; try done.
    + intros q ->%list_elem_of_singleton. exists buf. split; [|done]. cbn [s_id]. unfold save_page. cbn [contents].
      by rewrite lookup_insert_ne, lookup_insert_eq.
    + apply NoDup_singleton.
Qed.

Lemma vtab_connect_ok argv table schema metadata e s rs first :
  declared declare_vtab argv table schema metadata -> database e s rs -> 1 <= room s ->
  Header.name_ok table -> root_of table rs = Some first -> first <> INVALID_PAGE_ID ->
  exists e', VtabConnect logging declare_vtab argv e =
      Ok (mkTable schema first ((fun m => ConstructIndex m (root_of (name_ m) rs)) <$> metadata), e') /\
    pp_repr (TableHeap.pool_ e') s.
Proof.
  intros [Hargc Htable (text & Ht & Hschema & Hdecl) Hindex Hname] Hdb Hroom Hn Hroot Hfirst.
  destruct (open_header e s rs Hdb Hroom) as (page & b & s1 & Hf & Hr & Hb & Ho & Hp).
  destruct (TableHeap.close_clean b s s1 HEADER_PAGE_ID page Hb Ho Hp) as (b' & Hu & Hb').
  exists (with_pool b' (with_pool b e)). split; [|done].
  unfold VtabConnect. rewrite (proj2 (Z.leb_le _ _) Hargc), assert_true, Ht. cbn [result_bind]. rewrite Hschema. cbn [result_bind].
  rewrite Hf. cbn [result_bind deref_page from_option_r]. rewrite Htable, (get_root page rs table Hr Hn), Hroot. cbn [result_bind].
  rewrite Hindex. cbn [result_bind].
  assert (Hcreate : VirtualTable_create logging first (with_pool b e) = Ok (first, with_pool b e)).
  { unfold VirtualTable_create. by rewrite (proj2 (Z.eqb_neq _ _) Hfirst). }
  destruct metadata as [m|]; [rewrite (get_root page rs (name_ m) Hr (Hname m eq_refl))|]; cbn [result_bind from_option_r];
    rewrite Hcreate; cbn [result_bind]; rewrite Hdecl, assert_true; cbn [TableHeap.pool_ with_pool]; by rewrite Hu.
Qed.

(** C30: a table that is created and then connected to has the schema and the key columns its
    declaration says and the same first page, whose heap is empty; the header page has one
    more record, and the root of the index is the page recorded under its name, if any. *)
Theorem create_then_connect (argv : list Buf) (table : Buf) (schema : Schema) (metadata : option IndexMetadata)
    (e : TableHeap.Env P Locks) (s : Store) (rs : Header.Records)
    (Hargs : declared declare_vtab argv table schema metadata) (Hdb : database e s rs) (Hroom : 2 <= room s)
    (Hid : Disk.page_id_in_file (next s)) (Hn : Header.name_ok table) (Hnew : table ∉ rs.*1)
    (Hlen : (length rs < Header.max_records)%nat) :
  let rs' := rs ++ [(table, next s)] in
  exists e1 s1 e2,
    VtabCreate logging declare_vtab argv e =
      Ok (mkTable schema (next s) ((fun m => ConstructIndex m (Some INVALID_PAGE_ID)) <$> metadata), e1) /\
    database e1 s1 rs' /\
    VtabConnect logging declare_vtab argv e1 =
      Ok (mkTable schema (next s) ((fun m => ConstructIndex m (root_of (name_ m) rs')) <$> metadata), e2) /\
    pp_repr (TableHeap.pool_ e2) s1 /\
    TableHeap.heap_rel s1 (next s) s1 (TableHeap.mkSHeap [mkSPage (next s) INVALID_LSN INVALID_PAGE_ID []] (next s + 1)).
Proof.
  intros rs'. destruct (vtab_create_ok argv table schema metadata e s rs Hargs Hdb Hroom Hid Hn Hnew Hlen)
    as (e1 & s1 & Hc & Hdb1 & Hroom1 & Hheap).
  destruct (vtab_connect_ok argv table schema metadata e1 s1 rs' (next s) Hargs Hdb1) as (e2 & Hconn & Hb2);
    [lia|done|by apply root_of_snoc|unfold Disk.page_id_in_file in Hid; unfold INVALID_PAGE_ID; lia|].
  by exists e1, s1, e2.
Qed.
End Proofs.

(** ** Witness: a table (a INT, b VARCHAR(10)) with an index on (a) *)

Definition sample_argv : list Buf :=
  [lit "vtable"; lit "main"; lit "foo"; lit "(a int, b varchar(10))"; lit "'foo_pk a'"].

(** A pool with two pages, the second of which is the header page. *)
Definition two_pages : list BufferPool.call :=
  [BufferPool.CNew; BufferPool.CUnpin 0 true; BufferPool.CNew; BufferPool.CUnpin HEADER_PAGE_ID true].

Definition sample_pool : BufferPool.Pool :=
  match BufferPool.run two_pages TableHeap.sample_pool with Ok (_, b) => b | Fail _ => TableHeap.sample_pool end.
Definition sample_store : Store := (BufferPool.run_spec two_pages TableHeap.sample_store).2.
Definition sample_storage : Storage := TableHeap.mkEnv sample_pool (Lock.create true, INVALID_TXN_ID) [].

Definition sample_schema : Schema :=
  match ParseCreateStatement (lit "a int, b varchar(10)") with Ok s => s | Fail _ => Schema_create [] end.
Definition sample_metadata : option IndexMetadata :=
  match parse_index sample_argv sample_schema with Ok m => m | Fail _ => None end.

Lemma sample_declared : declared (fun _ => true) sample_argv (lit "foo") sample_schema sample_metadata.
Proof.
  split; [by vm_compute|done| |by vm_compute|].
  - exists (lit "a int, b varchar(10)"). split; [done|]. split; [by vm_compute|done].
  - intros m Hm. vm_compute in Hm. injection Hm as <-. split; [simpl; lia|]. by repeat constructor.
Qed.

Lemma sample_database : database sample_storage sample_store [].
Proof.
  destruct TableHeap.sample_pool_repr as (m & l & Hr).
  destruct (BufferPool.pool_run_refines BufferPool.page_id_keys two_pages _ m l _ Hr) as (b & m' & l' & Hrun & Hr').
  { repeat (cbn [BufferPool.calls_ok BufferPool.call_ok two_pages]; split); try exact I;
      try (vm_compute; by eauto); try (left; done). }
  split; [|split].
  - exists m', l'. unfold sample_storage, sample_pool. cbn [TableHeap.pool_]. by rewrite Hrun.
  - split; [by vm_compute| |].
    + intros p k. change (pins sample_store) with (∅ : gmap Z Z). by rewrite lookup_empty.
    + intros p. change (contents sample_store) with (<[1 := Disk.zero_page]> (<[0 := Disk.zero_page]> (∅ : gmap Z Buf))).
      change (next sample_store) with 2. destruct (decide (p = 1)) as [->|H1]; [lia|].
      rewrite lookup_insert_ne by done. destruct (decide (p = 0)) as [->|H0]; [lia|].
      rewrite lookup_insert_ne, lookup_empty by done. by intros [].
  - exists Disk.zero_page. split; [done|]. split; try done; [unfold Header.max_records; simpl; lia|constructor].
Qed.

Lemma create_then_connect_witness :
  exists e1 s1 e2,
    VtabCreate true (fun _ => true) sample_argv sample_storage =
      Ok (mkTable sample_schema 2 ((fun m => ConstructIndex m (Some INVALID_PAGE_ID)) <$> sample_metadata), e1) /\
    database e1 s1 [(lit "foo", 2)] /\
    VtabConnect true (fun _ => true) sample_argv e1 =
      Ok (mkTable sample_schema 2 ((fun m => ConstructIndex m None) <$> sample_metadata), e2).
Proof.
  destruct (create_then_connect true (fun _ => true) sample_argv (lit "foo") sample_schema sample_metadata
    sample_storage sample_store [] sample_declared sample_database) as (e1 & s1 & e2 & Hc & Hdb & Hconn & _);
    [by vm_compute|by_computation|by_computation|by apply not_elem_of_nil|simpl; unfold Header.max_records; lia|].
  exists e1, s1, e2. split; [exact Hc|]. split; [exact Hdb|exact Hconn].
Defined.

(** A row that is inserted and committed is not in the file when the engine is deleted: no
    destructor flushes the buffer pool. *)
Example disconnect_loses_rows :
  let begin := @tm_begin _ (SoleTransaction.SoleTransaction.sole_transactions true) in
  let commit := @tm_commit _ (SoleTransaction.SoleTransaction.sole_transactions true) in
  (let* e := sqlite3_vtable_init (Some []) None in
   let* (t, e) := VtabCreate true (fun _ => true) sample_argv e in
   let* (rid, e) := TableHeap.InsertTuple true 5 (first_page_id_ t) (TablePage.TablePage.mkTuple Rid.invalid_rid [1; 2; 3]) (begin e) in
   let* e := commit e in
   let* (tuple, _) := TableHeap.GetTuple true (default Rid.invalid_rid rid) (begin e) in
   let* file := VtabDisconnect (Some e) in
   Ok (TablePage.TablePage.data_ <$> tuple, file)) = Ok (Some [1; 2; 3], []).
Proof. by vm_compute. Qed.
End VtabConnect.
