(* ===== verification/TreeNodes.v ===== *)
(** * The pages of a B+ tree in the buffer pool

    A page of the pool is seen as the node it holds; pointers to pages are page ids,
    and following one needs the page to be pinned.  [FetchPage], [NewPage], [UnpinPage]
    and [DeletePage] keep the pins, the allocation and the capacity of [BufferPool]'s
    specification.  The second part are the members of the leaf and the internal page
    that reach other pages through the pool.  Latches are not modelled: the code runs
    in one thread. *)

From stdpp Require Import prelude gmap gmultiset list.
From Stdlib Require Import ZArith Lia.
From S2P Require Import Prelude BPlusTreePage LeafPage InternalPage.

Local Open Scope Z_scope.

Module Nodes.
Import BPage.

Section Nodes.
(** The key and value types of the template and their sizes in bytes; the key and the
    value whose bytes are zero. *)
Context {K V : Type} (key_size value_size : Z) (zero_key : K) (zero_value : V).

(** ** State *)

(** What a page holds: zeros, as [NewPage] left it, or one of the pages of the tree. *)
Inductive Node :=
| RawPage
| TrivialPage (h : BPlusTreePage)
| LeafNode (p : Leaf.BPlusTreeLeafPage K V)
| InternalNode (p : Internal.BPlusTreeInternalPage K)
| HeaderNode (page : Buf).

(** The pool: [pins] counts the pins of a page, [unsaved] are the pages written since
    they were last unpinned as dirty, [next] is the id of the next new page. *)
Record Store := mkStore {
  nodes : gmap Z Node;
  pins : gmultiset Z;
  unsaved : gset Z;
  next : Z;
  capacity : nat
}.

(** The members of [Transaction] the index uses. *)
Record Txn := mkTxn { page_set_ : list Z; deleted_page_set_ : gset Z }.

(** The members of the tree that change, the pool and the transaction. *)
Record State := mkState {
  trivial_page_id_ : Z;
  root_page_id_ : Z;
  store : Store;
  txn : Txn
}.

Definition set_nodes (n : gmap Z Node) (s : Store) : Store :=
  mkStore n (pins s) (unsaved s) (next s) (capacity s).
Definition set_pins (l : gmultiset Z) (s : Store) : Store :=
  mkStore (nodes s) l (unsaved s) (next s) (capacity s).
Definition set_unsaved (u : gset Z) (s : Store) : Store :=
  mkStore (nodes s) (pins s) u (next s) (capacity s).

Definition set_store (st : Store) (s : State) : State :=
  mkState (trivial_page_id_ s) (root_page_id_ s) st (txn s).
Definition set_txn (t : Txn) (s : State) : State :=
  mkState (trivial_page_id_ s) (root_page_id_ s) (store s) t.
Definition set_root (r : Z) (s : State) : State :=
  mkState (trivial_page_id_ s) r (store s) (txn s).

(** ** Computations *)

Definition M (A : Type) : Type := State -> result (A * State).

Definition ret {A} (x : A) : M A := fun s => Ok (x, s).
Definition bind {A B} (m : M A) (f : A -> M B) : M B := fun s =>
  let* (x, s) := m s in f x s.
Definition fault {A} (e : fault) : M A := fun _ => Fail e.
(** A call that neither reads nor changes the state. *)
Definition lift {A} (r : result A) : M A := fun s => let* x := r in Ok (x, s).
Definition asserts (b : bool) : M unit := lift (assert_ b).
Definition gets {A} (f : State -> A) : M A := fun s => Ok (f s, s).
Definition modify (f : State -> State) : M unit := fun s => Ok (tt, f s).

Notation "'let!' x ':=' m 'in' k" := (bind m (fun x => k))
  (at level 10, x pattern, m at level 99, k at level 200) : qcdb_scope.
Notation "'run!' m ';;' k" := (bind m (fun _ => k))
  (at level 10, m at level 99, k at level 200) : qcdb_scope.

(** ** The buffer pool *)

Definition pinned (p : Z) (s : Store) : bool := bool_decide (p ∈ pins s).
Definition full (s : Store) : bool := bool_decide (size (dom (pins s)) = capacity s).

(** The pointer, [None] for a null one.  A page the pool does not remember is outside
    the model: [UnpinPage] and [DeletePage] of one, too, stop it, since the page table
    may still send the id to a frame, as [BufferPool.pool_delete_page] shows. *)
Definition FetchPage (p : Z) : M (option Z) := fun s =>
  assert! negb (p =? INVALID_PAGE_ID) ;;
  let st := store s in
  match nodes st !! p with
  | Some _ =>
      if negb (pinned p st) && full st then Ok (None, s)
      else Ok (Some p, set_store (set_pins ({[+ p +]} ⊎ pins st) st) s)
  | None => Fail Undefined
  end.

(** The page id, set even when there is no frame, and the pointer. *)
Definition NewPage : M (Z * option Z) := fun s =>
  let st := store s in
  let st' := mkStore (nodes st) (pins st) (unsaved st) (next st + 1) (capacity st) in
  if full st then Ok ((next st, None), set_store st' s)
  else
    let st'' := set_pins ({[+ next st +]} ⊎ pins st) (set_nodes (<[next st := RawPage]> (nodes st)) st') in
    Ok ((next st, Some (next st)), set_store st'' s).

(** The last pin of a written page goes without the dirty flag: what the page holds is
    lost, since the pool may drop the frame without a write. *)
Definition loses (p : Z) (dirty : bool) (s : Store) : bool :=
  negb dirty && bool_decide (multiplicity p (pins s) = 1%nat) && bool_decide (p ∈ unsaved s).

Definition UnpinPage (p : Z) (dirty : bool) : M bool := fun s =>
  assert! negb (p =? INVALID_PAGE_ID) ;;
  let st := store s in
  if pinned p st then
    let lost := loses p dirty st in
    let st := set_pins (pins st ∖ {[+ p +]}) st in
    let st := if lost then set_nodes (delete p (nodes st)) st else st in
    let st := if dirty || lost then set_unsaved (unsaved st ∖ {[p]}) st else st in
    Ok (true, set_store st s)
  else
    match nodes st !! p with
    | Some _ => Ok (false, s)
    | None => Fail Undefined
    end.

Definition DeletePage (p : Z) : M bool := fun s =>
  assert! negb (p =? INVALID_PAGE_ID) ;;
  let st := store s in
  if pinned p st then Ok (false, s)
  else
    match nodes st !! p with
    | Some _ => Ok (true, set_store (set_nodes (delete p (nodes st)) st) s)
    | None => Fail Undefined
    end.

(** [page->GetData()]: a null pointer is followed. *)
Definition GetData (page : option Z) : M Z := lift (from_option_r MemFault page).

(** [buffer_pool_manager->FetchPage(p)->GetData()] *)
Definition fetch_data (p : Z) : M Z := let! page := FetchPage p in GetData page.

(** The bytes behind a pointer, and a store of new ones. *)
Definition read_node (p : Z) : M Node := fun s =>
  if pinned p (store s) then
    let* n := from_option_r MemFault (nodes (store s) !! p) in Ok (n, s)
  else Fail MemFault.

Definition write_node (p : Z) (n : Node) : M unit := fun s =>
  if pinned p (store s) then
    let st := set_nodes (<[p := n]> (nodes (store s))) (store s) in
    Ok (tt, set_store (set_unsaved ({[p]} ∪ unsaved st) st) s)
  else Fail MemFault.

(** ** Casts

    A page of zeros can be seen as any page of the tree; the other casts of one kind
    of page to another do not happen. *)

Definition zero_hdr : BPlusTreePage := mkHdr INVALID_INDEX_PAGE 0 0 0 0 0.

Definition leaf_max : Z := (PAGE_SIZE - Leaf.sizeof_leaf) / (key_size + value_size).
Definition internal_max : Z :=
  (PAGE_SIZE - Internal.sizeof_internal) / (key_size + Internal.sizeof_page_id).

Definition zero_leaf : Leaf.BPlusTreeLeafPage K V :=
  Leaf.mkLeaf zero_hdr 0 (replicate (Z.to_nat leaf_max) (zero_key, zero_value)).
Definition zero_internal : Internal.BPlusTreeInternalPage K :=
  Internal.mkInternal zero_hdr (replicate (Z.to_nat internal_max) (zero_key, 0)).

Definition as_page (n : Node) : result BPlusTreePage :=
  match n with
  | RawPage => Ok zero_hdr
  | TrivialPage h => Ok h
  | LeafNode p => Ok (Leaf.hdr p)
  | InternalNode p => Ok (Internal.hdr p)
  | HeaderNode _ => Fail Undefined
  end.

Definition as_leaf (n : Node) : result (Leaf.BPlusTreeLeafPage K V) :=
  match n with LeafNode p => Ok p | RawPage => Ok zero_leaf | _ => Fail Undefined end.

Definition as_internal (n : Node) : result (Internal.BPlusTreeInternalPage K) :=
  match n with InternalNode p => Ok p | RawPage => Ok zero_internal | _ => Fail Undefined end.

Definition as_header (n : Node) : result Buf :=
  match n with
  | HeaderNode b => Ok b
  | RawPage => Ok (replicate (Z.to_nat PAGE_SIZE) 0)
  | _ => Fail Undefined
  end.

(** The node with another header. *)
Definition with_hdr (h : BPlusTreePage) (n : Node) : Node :=
  match n with
  | RawPage | TrivialPage _ => TrivialPage h
  | LeafNode p => LeafNode (Leaf.set_hdr p h)
  | InternalNode p => InternalNode (Internal.set_hdr p h)
  | HeaderNode b => HeaderNode b
  end.

Definition get_page (p : Z) : M BPlusTreePage := let! n := read_node p in lift (as_page n).
Definition get_leaf (p : Z) : M (Leaf.BPlusTreeLeafPage K V) :=
  let! n := read_node p in lift (as_leaf n).
Definition get_internal (p : Z) : M (Internal.BPlusTreeInternalPage K) :=
  let! n := read_node p in lift (as_internal n).
Definition put_leaf (p : Z) (l : Leaf.BPlusTreeLeafPage K V) : M unit := write_node p (LeafNode l).
Definition put_internal (p : Z) (i : Internal.BPlusTreeInternalPage K) : M unit :=
  write_node p (InternalNode i).

Definition GetPageId (p : Z) : M Z := let! h := get_page p in ret (page_id_ h).
Definition GetParentPageId (p : Z) : M Z := let! h := get_page p in ret (parent_page_id_ h).
Definition set_parent (parent : Z) (p : Z) : M unit :=
  let! n := read_node p in
  let! h := lift (as_page n) in
  write_node p (with_hdr (SetParentPageId parent h) n).

(** ** The leaf page *)

(** [MoveHalfTo], whose pages are both in hand. *)
Definition leaf_MoveHalfTo (p recipient : Z) : M unit :=
  let! l := get_leaf p in
  let! r := get_leaf recipient in
  let! (l, r) := lift (Leaf.MoveHalfTo l r) in
  run! put_leaf recipient r ;; put_leaf p l.

(** [assert(parent_id == recipient->GetParentPageId())] and that it is valid. *)
Definition common_parent (p recipient : Z) : M Z :=
  let! parent_id := GetParentPageId p in
  let! other := GetParentPageId recipient in
  run! asserts (parent_id =? other) ;;
  run! asserts (negb (parent_id =? INVALID_PAGE_ID)) ;;
  ret parent_id.

Definition leaf_MoveAllTo (p recipient : Z) : M unit :=
  let! parent_id := common_parent p recipient in
  let! parent_page := fetch_data parent_id in
  let! parent := get_internal parent_page in
  let! id := GetPageId p in
  let! index := lift (Internal.ValueIndex id parent) in
  let! parent := lift (Internal.Remove index parent) in
  run! put_internal parent_page parent ;;
  run! UnpinPage parent_id true ;;
  let! l := get_leaf p in
  let! r := get_leaf recipient in
  let! (l, r) := lift (Leaf.move_all l r) in
  run! put_leaf recipient r ;; put_leaf p l.

Definition leaf_MoveFirstToEndOf (p recipient : Z) : M unit :=
  let! parent_id := common_parent p recipient in
  let! l := get_leaf p in
  let! r := get_leaf recipient in
  let! (l, r) := lift (Leaf.move_first l r) in
  run! put_leaf recipient r ;;
  run! put_leaf p l ;;
  let! parent_page := fetch_data parent_id in
  let! parent := get_internal parent_page in
  let! id := GetPageId p in
  let! index := lift (Internal.ValueIndex id parent) in
  let! x := lift (cell (Leaf.array l) 0) in
  let! parent := lift (Internal.SetKeyAt index x.1 parent) in
  run! put_internal parent_page parent ;;
  run! UnpinPage parent_id true ;; ret tt.

Definition leaf_CopyFirstFrom (item : K * V) (parentIndex : Z) (p : Z) : M unit :=
  let! parent_id := GetParentPageId p in
  run! asserts (negb (parent_id =? INVALID_PAGE_ID)) ;;
  let! l := get_leaf p in
  let! l := lift (Leaf.push_front item l) in
  run! put_leaf p l ;;
  let! parent_page := fetch_data parent_id in
  let! parent := get_internal parent_page in
  let! x := lift (cell (Leaf.array l) 0) in
  let! parent := lift (Internal.SetKeyAt parentIndex x.1 parent) in
  run! put_internal parent_page parent ;;
  run! UnpinPage parent_id true ;; ret tt.

Definition leaf_MoveLastToFrontOf (p recipient : Z) : M unit :=
  let! parent_id := common_parent p recipient in
  let! parent_page := fetch_data parent_id in
  let! parent := get_internal parent_page in
  let! id := GetPageId recipient in
  let! index := lift (Internal.ValueIndex id parent) in
  let! l := get_leaf p in
  let! item := lift (cell (Leaf.array l) (Leaf.GetSize l - 1)) in
  run! leaf_CopyFirstFrom item index recipient ;;
  let! l := get_leaf p in
  run! put_leaf p (Leaf.set_hdr l (IncreaseSize (-1) (Leaf.hdr l))) ;;
  run! UnpinPage parent_id true ;; ret tt.

(** ** The internal page *)

(** The child gets this page as its parent. *)
Definition adopt (self child : Z) : M unit :=
  let! child_page := fetch_data child in
  let! id := GetPageId self in
  run! set_parent id child_page ;;
  let! child_id := GetPageId child_page in
  run! UnpinPage child_id true ;; ret tt.

Fixpoint adopt_all (self : Z) (items : list (K * Z)) : M unit :=
  match items with
  | [] => ret tt
  | x :: items => run! adopt self x.2 ;; adopt_all self items
  end.

Definition CopyHalfFrom (items : list (K * Z)) (self : Z) : M unit :=
  run! adopt_all self items ;;
  let! p := get_internal self in
  let! p := lift (Internal.copy_half items p) in
  put_internal self p.

Definition MoveHalfTo (self recipient : Z) : M unit :=
  let! p := get_internal self in
  let origin_size := Internal.GetSize p in
  let p := Internal.set_hdr p (SetSize (Z.quot origin_size 2) (Internal.hdr p)) in
  run! put_internal self p ;;
  let! items := lift (memread (Internal.array p) (Internal.GetSize p)
                              (origin_size - Internal.GetSize p)) in
  CopyHalfFrom items recipient.

Definition CopyAllFrom (items : list (K * Z)) (self : Z) : M unit :=
  run! adopt_all self items ;;
  let! p := get_internal self in
  let! p := lift (Internal.copy_all items p) in
  put_internal self p.

(** The parent page of two siblings and their positions in it. *)
Definition sibling_indices (parent_page self recipient : Z) :
    M (Internal.BPlusTreeInternalPage K * Z * Z) :=
  let! parent := get_internal parent_page in
  let! id := GetPageId self in
  let! this_index := lift (Internal.ValueIndex id parent) in
  let! rid := GetPageId recipient in
  let! recipient_index := lift (Internal.ValueIndex rid parent) in
  run! asserts (negb (this_index =? -1) && negb (recipient_index =? -1)) ;;
  ret (parent, this_index, recipient_index).

(** [assert(GetSize() > 0 && recipient->GetSize() > 0)] *)
Definition both_filled (self recipient : Z) : M unit :=
  let! h := get_page self in
  let! r := get_page recipient in
  asserts ((0 <? size_ h) && (0 <? size_ r)).

Definition MoveAllTo (self recipient : Z) : M unit :=
  let! parent_id := common_parent self recipient in
  run! both_filled self recipient ;;
  let! parent_page := fetch_data parent_id in
  let! (parent, this_index, recipient_index) := sibling_indices parent_page self recipient in
  run! asserts (this_index =? recipient_index + 1) ;;
  let! key := lift (Internal.KeyAt this_index parent) in
  let! p := get_internal self in
  let! p := lift (Internal.put_key 0 key p) in
  run! put_internal self p ;;
  let! items := lift (memread (Internal.array p) 0 (Internal.GetSize p)) in
  run! CopyAllFrom items recipient ;;
  let! p := get_internal self in
  run! put_internal self (Internal.set_hdr p (SetSize 0 (Internal.hdr p))) ;;
  let! parent := get_internal parent_page in
  let! parent := lift (if recipient_index <? this_index then Internal.Remove this_index parent
                       else Ok parent) in
  run! put_internal parent_page parent ;;
  run! UnpinPage parent_id true ;; ret tt.

Definition CopyLastFrom (pair : K * Z) (self : Z) : M unit :=
  let! p := get_internal self in
  let! p := lift (Internal.copy_last pair p) in
  run! put_internal self p ;;
  adopt self pair.2.

Definition MoveFirstToEndOf (self recipient : Z) : M unit :=
  let! parent_id := common_parent self recipient in
  run! both_filled self recipient ;;
  let! parent_page := fetch_data parent_id in
  let! (parent, this_index, recipient_index) := sibling_indices parent_page self recipient in
  run! asserts (this_index - 1 =? recipient_index) ;;
  let! key := lift (Internal.KeyAt this_index parent) in
  let! p := get_internal self in
  let! x := lift (cell (Internal.array p) 0) in
  run! CopyLastFrom (key, x.2) recipient ;;
  let! p := get_internal self in
  let! y := lift (cell (Internal.array p) 1) in
  let! parent := get_internal parent_page in
  let! parent := lift (if recipient_index <? this_index then Internal.SetKeyAt this_index y.1 parent
                       else Ok parent) in
  run! put_internal parent_page parent ;;
  let! p := lift (Internal.Remove 0 p) in
  run! put_internal self p ;;
  let! pid := GetPageId parent_page in
  run! UnpinPage pid true ;; ret tt.

Definition CopyFirstFrom (pair : K * Z) (self : Z) : M unit :=
  let! p := get_internal self in
  let! p := lift (Internal.copy_first pair p) in
  run! put_internal self p ;;
  adopt self pair.2.

Definition MoveLastToFrontOf (self recipient : Z) : M unit :=
  let! parent_id := common_parent recipient self in
  run! both_filled self recipient ;;
  let! parent_page := fetch_data parent_id in
  let! (parent, this_index, recipient_index) := sibling_indices parent_page self recipient in
  run! asserts (recipient_index =? this_index + 1) ;;
  let! key := lift (Internal.KeyAt recipient_index parent) in
  let! p := get_internal self in
  let! x := lift (cell (Internal.array p) (Internal.GetSize p - 1)) in
  run! CopyFirstFrom (key, x.2) recipient ;;
  let! p := get_internal self in
  let! y := lift (cell (Internal.array p) (Internal.GetSize p - 1)) in
  let! parent := get_internal parent_page in
  let! parent := lift (if this_index + 1 =? recipient_index
                       then Internal.SetKeyAt recipient_index y.1 parent else Ok parent) in
  run! put_internal parent_page parent ;;
  run! put_internal self (Internal.set_hdr p (IncreaseSize (-1) (Internal.hdr p))) ;;
  run! UnpinPage parent_id true ;; ret tt.
End Nodes.

Arguments Node : clear implicits.
Arguments State : clear implicits.
Arguments Store : clear implicits.
Arguments M : clear implicits.

Notation "'let!' x ':=' m 'in' k" := (bind m (fun x => k))
  (at level 10, x pattern, m at level 99, k at level 200) : qcdb_scope.
Notation "'run!' m ';;' k" := (bind m (fun _ => k))
  (at level 10, m at level 99, k at level 200) : qcdb_scope.
End Nodes.
