(* ===== verification/BPlusTree.v ===== *)
(** * The B+ tree (src/src/index/b_plus_tree.cpp, src/src/index/index_iterator.cpp)

    The index operations over the pages of [TreeNodes].  [index_name] and [cmp] are the
    members of the tree that never change.  [txn] tells whether the caller passed a
    transaction; its page set and deleted page set are in the state.  [fuel] bounds the
    descent and the recursion up the tree; [NoFuel] stands for a run that goes on.
    ToString and the functions that print are not modelled. *)

From stdpp Require Import prelude gmap gmultiset list strings.
From Stdlib Require Import ZArith Lia.
From S2P Require Import Prelude HeaderPage BPlusTreePage LeafPage InternalPage TreeNodes.

Local Open Scope Z_scope.

(** [BPlusTreeActionType] *)
Module Action.
Inductive t := LookUp | Insert | Delete.

#[global] Instance t_eq_dec : EqDecision t.
Proof. solve_decision. Defined.
End Action.

Module BPlusTree.
Import BPage Nodes.

(** The template argument [N] of Split, CoalesceOrRedistribute, Coalesce, Redistribute. *)
Inductive Kind := KLeaf | KInternal.

Section Tree.
Context {K V : Type} (key_size value_size : Z) (zero_key : K) (zero_value : V).
Context (index_name : list Z) (cmp : K -> K -> Z).

Abbreviation M := (M K V).
Abbreviation State := (State K V).
Abbreviation get_leaf := (get_leaf key_size value_size zero_key zero_value).
Abbreviation get_internal := (get_internal key_size zero_key).

(** The constructor, from the pool and the root page id it is given. *)
Definition create (root_page_id : Z) : M unit :=
  let! (trivial_page_id, page) := NewPage in
  let! p := GetData page in
  let! n := read_node p in
  let! h := lift (as_page n) in
  run! write_node p (with_hdr (SetPageType TRIVIAL_PAGE h) n) ;;
  run! UnpinPage trivial_page_id true ;;
  modify (fun s => mkState trivial_page_id root_page_id (store s) (txn s)).

Definition IsEmpty : M bool :=
  let! root := gets root_page_id_ in
  if root =? INVALID_PAGE_ID then ret true
  else
    let! p := fetch_data root in
    let! h := get_page p in
    run! UnpinPage root false ;;
    ret (size_ h =? 0).

(** ** The page set of the transaction *)

Definition AddIntoPageSet (p : Z) : M unit :=
  modify (fun s => set_txn (mkTxn (page_set_ (txn s) ++ [p]) (deleted_page_set_ (txn s))) s).

(** [front] and [pop_front]; on an empty deque they are undefined. *)
Definition pop_page : M Z := fun s =>
  match page_set_ (txn s) with
  | [] => Fail Undefined
  | p :: ps => Ok (p, set_txn (mkTxn ps (deleted_page_set_ (txn s))) s)
  end.

Definition add_deleted (p : Z) : M unit :=
  modify (fun s => set_txn (mkTxn (page_set_ (txn s)) ({[p]} ∪ deleted_page_set_ (txn s))) s).

Definition when (b : bool) (m : M unit) : M unit := if b then m else ret tt.

Fixpoint release_loop (n : nat) (type : Action.t) (dirty : bool) : M unit :=
  match n with
  | O => ret tt
  | S n =>
      let! release_page := pop_page in
      let! release_page_id := GetPageId release_page in
      run! UnpinPage release_page_id dirty ;;
      let! deleted := gets (fun s => bool_decide (release_page_id ∈ deleted_page_set_ (txn s))) in
      run! when (negb (bool_decide (type = Action.LookUp)) && deleted)
             (run! DeletePage release_page_id ;; ret tt) ;;
      release_loop n type dirty
  end.

Definition ReleasePageSet (txn : bool) (type : Action.t) (dirty : bool) : M unit :=
  run! asserts txn ;;
  let! size := gets (fun s => length (page_set_ (Nodes.txn s))) in
  release_loop size type dirty.

(** ** Descent *)

(** The ancestors of a safe child, released by FindLeafPage. *)
Fixpoint release_ancestors (n : nat) : M unit :=
  match n with
  | O => ret tt
  | S n =>
      let! release_page := pop_page in
      let! release_page_id := GetPageId release_page in
      run! UnpinPage release_page_id false ;;
      release_ancestors n
  end.

(** From the trivial page to the root. *)
Definition enter_root (txn : bool) (type : Action.t) : M Z :=
  let! root_page_id := gets root_page_id_ in
  let! trivial := gets trivial_page_id_ in
  match type with
  | Action.LookUp =>
      let! new_page := FetchPage root_page_id in
      run! asserts (bool_decide (new_page <> None)) ;;
      let! new_page := GetData new_page in
      run! when txn (AddIntoPageSet new_page) ;;
      run! UnpinPage trivial false ;;
      run! when txn (run! pop_page ;; ret tt) ;;
      ret new_page
  | Action.Insert | Action.Delete =>
      run! asserts txn ;;
      let! new_page := fetch_data root_page_id in
      let! h := get_page new_page in
      let safe := match type with
                  | Action.Insert => size_ h <? max_size_ h
                  | _ => 1 <? size_ h
                  end in
      run! when safe (run! pop_page ;; run! UnpinPage trivial false ;; ret tt) ;;
      run! AddIntoPageSet new_page ;;
      ret new_page
  end.

(** From the internal page [page] to its child [page_id]. *)
Definition enter_child (txn : bool) (type : Action.t) (page page_id : Z) : M Z :=
  match type with
  | Action.LookUp =>
      let! new_page := FetchPage page_id in
      run! asserts (bool_decide (new_page <> None)) ;;
      let! new_page := GetData new_page in
      run! when txn (AddIntoPageSet new_page) ;;
      run! UnpinPage page false ;;
      run! when txn (run! pop_page ;; ret tt) ;;
      ret new_page
  | Action.Insert | Action.Delete =>
      run! asserts txn ;;
      let! new_page := fetch_data page_id in
      let! h := get_page new_page in
      let safe := match type with
                  | Action.Insert => size_ h <? max_size_ h
                  | _ => GetMinSize h <? size_ h
                  end in
      let! size := gets (fun s => length (page_set_ (Nodes.txn s))) in
      run! when safe (release_ancestors size) ;;
      run! AddIntoPageSet new_page ;;
      ret new_page
  end.

(** The loop of FindLeafPage, at [page]. *)
Fixpoint descend (fuel : nat) (key : K) (leftMost txn : bool) (type : Action.t) (page : Z) : M Z :=
  match fuel with
  | O => fault NoFuel
  | S fuel =>
      let! bpage := get_page page in
      if IsLeafPage bpage then ret page
      else
        let! next :=
          if IsTrivialPage bpage then enter_root txn type
          else
            let! internal_page := get_internal page in
            let! page_id := lift (if leftMost then Internal.ValueAt 0 internal_page
                                  else Internal.Lookup cmp key internal_page) in
            enter_child txn type page page_id in
        descend fuel key leftMost txn type next
  end.

Definition FindLeafPage (fuel : nat) (key : K) (leftMost txn : bool) (type : Action.t) : M Z :=
  let! trivial := gets trivial_page_id_ in
  let! page := FetchPage trivial in
  run! asserts (bool_decide (page <> None)) ;;
  let! page := GetData page in
  run! when txn (AddIntoPageSet page) ;;
  descend fuel key leftMost txn type page.

(** The value pushed to the result vector, if any. *)
Definition GetValue (fuel : nat) (key : K) (txn : bool) : M (option V) :=
  let! page := FindLeafPage fuel key false txn Action.LookUp in
  let! leaf_page := get_leaf page in
  let! value := lift (Leaf.Lookup cmp key leaf_page) in
  run! when txn (run! pop_page ;; ret tt) ;;
  run! UnpinPage (page_id_ (Leaf.hdr leaf_page)) false ;;
  ret value.

(** ** Insertion *)

Definition UpdateRootPageId (insert_record : bool) : M unit :=
  let! page := fetch_data HEADER_PAGE_ID in
  let! n := read_node page in
  let! header := lift (as_header n) in
  let! root := gets root_page_id_ in
  let! (_, header) := lift (if insert_record then Header.InsertRecord index_name root header
                            else Header.UpdateRecord index_name root header) in
  run! write_node page (HeaderNode header) ;;
  run! UnpinPage HEADER_PAGE_ID true ;; ret tt.

Definition StartNewTree (key : K) (value : V) : M unit :=
  let! (page_id, page) := NewPage in
  let! page := GetData page in
  run! modify (set_root page_id) ;;
  run! UpdateRootPageId false ;;
  let! leaf_page := get_leaf page in
  let leaf_page := Leaf.Init key_size value_size page_id INVALID_PAGE_ID leaf_page in
  let! (_, leaf_page) := lift (Leaf.Insert cmp key value leaf_page) in
  run! put_leaf page leaf_page ;;
  run! UnpinPage page_id true ;; ret tt.

(** [Split], for a leaf and for an internal page. *)
Definition Split (kind : Kind) (node : Z) : M Z :=
  let! (new_page_id, new_page) := NewPage in
  let! new_page := GetData new_page in
  let! parent := GetParentPageId node in
  match kind with
  | KLeaf =>
      let! p := get_leaf new_page in
      run! put_leaf new_page (Leaf.Init key_size value_size new_page_id parent p) ;;
      run! leaf_MoveHalfTo key_size value_size zero_key zero_value node new_page ;;
      ret new_page
  | KInternal =>
      let! p := get_internal new_page in
      run! put_internal new_page (Internal.Init key_size new_page_id parent p) ;;
      run! MoveHalfTo key_size zero_key node new_page ;;
      ret new_page
  end.

(** [page->InsertNodeAfter(old_node, key, new_node)] *)
Definition insert_after (page old_node : Z) (key : K) (new_node : Z) : M unit :=
  let! old_id := GetPageId old_node in
  let! new_id := GetPageId new_node in
  let! p := get_internal page in
  let! (_, p) := lift (Internal.InsertNodeAfter old_id key new_id p) in
  put_internal page p.

(** InsertIntoParent, where the old node was the root. *)
Definition grow_root (old_node : Z) (key : K) (new_node : Z) : M unit :=
  let! (parent_page_id, page) := NewPage in
  let! parent_page := GetData page in
  let! p := get_internal parent_page in
  let p := Internal.Init key_size parent_page_id INVALID_PAGE_ID p in
  let! old_id := GetPageId old_node in
  let! new_id := GetPageId new_node in
  let! p := lift (Internal.PopulateNewRoot old_id key new_id p) in
  run! put_internal parent_page p ;;
  run! set_parent parent_page_id old_node ;;
  run! set_parent parent_page_id new_node ;;
  run! modify (set_root parent_page_id) ;;
  run! UpdateRootPageId false ;;
  run! UnpinPage parent_page_id true ;; ret tt.

(** InsertIntoParent, where the parent is full, up to its recursive call. *)
Definition split_parent (parent_page old_node : Z) (key : K) (new_node : Z) : M (Z * K) :=
  let! new_page := Split KInternal parent_page in
  let! p := get_internal new_page in
  let! pop_key := lift (Internal.KeyAt 0 p) in
  let half := if cmp key pop_key <? 0 then parent_page else new_page in
  run! insert_after half old_node key new_node ;;
  let! half_id := GetPageId half in
  run! set_parent half_id new_node ;;
  ret (new_page, pop_key).

Fixpoint InsertIntoParent (fuel : nat) (old_node : Z) (key : K) (new_node : Z) : M unit :=
  match fuel with
  | O => fault NoFuel
  | S fuel =>
      let! parent_page_id := GetParentPageId old_node in
      if parent_page_id =? INVALID_PAGE_ID then grow_root old_node key new_node
      else
        let! parent_page := fetch_data parent_page_id in
        let! h := get_page parent_page in
        run!
          (if max_size_ h <? size_ h + 1 then
             let! (new_page, pop_key) := split_parent parent_page old_node key new_node in
             run! InsertIntoParent fuel parent_page pop_key new_page ;;
             let! new_id := GetPageId new_page in
             run! UnpinPage new_id true ;; ret tt
           else insert_after parent_page old_node key new_node) ;;
        run! UnpinPage parent_page_id true ;; ret tt
  end.

(** [page->Insert(key, value, comparator)] on a leaf *)
Definition insert_in_leaf (page : Z) (key : K) (value : V) : M unit :=
  let! p := get_leaf page in
  let! (_, p) := lift (Leaf.Insert cmp key value p) in
  put_leaf page p.

Definition InsertIntoLeaf (fuel : nat) (key : K) (value : V) (txn : bool) : M bool :=
  let! page := FindLeafPage fuel key false txn Action.Insert in
  let! set := gets (fun s => page_set_ (Nodes.txn s)) in
  run! asserts (negb (bool_decide (set = []))) ;;
  let! leaf_page := get_leaf page in
  let! old_value := lift (Leaf.Lookup cmp key leaf_page) in
  match old_value with
  | Some _ => run! ReleasePageSet txn Action.Insert false ;; ret false
  | None =>
      run!
        (if Leaf.GetMaxSize leaf_page <? Leaf.GetSize leaf_page + 1 then
           let! new_page := Split KLeaf page in
           let! p := get_leaf new_page in
           let! pop_key := lift (Leaf.KeyAt 0 p) in
           run! insert_in_leaf (if cmp key pop_key <? 0 then page else new_page) key value ;;
           run! InsertIntoParent fuel page pop_key new_page ;;
           let! new_id := GetPageId new_page in
           run! UnpinPage new_id true ;; ret tt
         else insert_in_leaf page key value) ;;
      run! ReleasePageSet txn Action.Insert true ;;
      ret true
  end.

Definition Insert (fuel : nat) (key : K) (value : V) (txn : bool) : M bool :=
  run! asserts txn ;;
  let! root := gets root_page_id_ in
  if root =? INVALID_PAGE_ID then
    run! StartNewTree key value ;; ret true
  else InsertIntoLeaf fuel key value txn.

(** ** Removal *)

Definition AdjustRoot (old_root_node : Z) : M bool :=
  let! h := get_page old_root_node in
  run! asserts (IsRootPage h) ;;
  if (IsLeafPage h && (1 <=? size_ h)) || (negb (IsLeafPage h) && (2 <=? size_ h)) then ret false
  else
    run!
      (if IsLeafPage h then modify (set_root INVALID_PAGE_ID)
       else
         let! internal_page := get_internal old_root_node in
         let! root := lift (Internal.ValueAt 0 internal_page) in
         run! modify (set_root root) ;;
         let! new_root_page := fetch_data root in
         run! set_parent INVALID_PAGE_ID new_root_page ;;
         run! UnpinPage root true ;; ret tt) ;;
    run! UpdateRootPageId false ;;
    ret true.

(** [node->MoveAllTo(neighbor_node, index, buffer_pool_manager_)] *)
Definition move_all (kind : Kind) (node neighbor_node : Z) : M unit :=
  match kind with
  | KLeaf => leaf_MoveAllTo key_size value_size zero_key zero_value node neighbor_node
  | KInternal => MoveAllTo key_size zero_key node neighbor_node
  end.

Definition Redistribute (kind : Kind) (neighbor_node node index : Z) : M unit :=
  match kind with
  | KLeaf =>
      if index =? 0
      then leaf_MoveFirstToEndOf key_size value_size zero_key zero_value neighbor_node node
      else leaf_MoveLastToFrontOf key_size value_size zero_key zero_value neighbor_node node
  | KInternal =>
      if index =? 0 then MoveFirstToEndOf key_size zero_key neighbor_node node
      else MoveLastToFrontOf key_size zero_key neighbor_node node
  end.

(** [again] is CoalesceOrRedistribute for the parent. *)
Definition Coalesce (again : Z -> M bool) (kind : Kind) (neighbor_node node parent : Z) : M bool :=
  run! move_all kind node neighbor_node ;;
  let! h := get_page parent in
  if IsRootPage h then AdjustRoot parent
  else if size_ h <? GetMinSize h then again parent
  else ret false.

(** A sibling that can give an entry: the sizes are at least a full page. *)
Definition rich (node sibling : Z) : M bool :=
  let! n := get_page node in
  let! s := get_page sibling in
  ret (max_size_ n <=? wrap32 (size_ s + size_ n)).

Definition unpin_page (p : Z) : M unit :=
  let! id := GetPageId p in run! UnpinPage id true ;; ret tt.

Definition unpin_sibling (o : option Z) : M unit :=
  match o with Some p => unpin_page p | None => ret tt end.

(** The sibling at [index] of the parent, fetched. *)
Definition fetch_sibling (parent_page index : Z) : M Z :=
  let! parent := get_internal parent_page in
  let! id := lift (Internal.ValueAt index parent) in
  fetch_data id.

(** The end of CoalesceOrRedistribute: the merge with the left sibling, if any, or of
    the right sibling.  The id of the right sibling is read after its unpin. *)
Definition merge_siblings (again : Z -> M bool) (txn : bool) (kind : Kind)
    (node parent_page : Z) (left_sibling right_sibling : option Z) : M bool :=
  let! (ok, right_sibling, delete_node) :=
    match left_sibling with
    | Some left_sibling =>
        let! ok := Coalesce again kind left_sibling node parent_page in
        ret (ok, right_sibling, true)
    | None =>
        let! right_page := GetData right_sibling in
        let! ok := Coalesce again kind node right_page parent_page in
        let! id := GetPageId right_page in
        run! UnpinPage id true ;;
        run! (if txn : bool then add_deleted id
              else let! deleted := DeletePage id in asserts deleted) ;;
        ret (ok, None, false)
    end in
  run! unpin_sibling left_sibling ;;
  run! unpin_sibling right_sibling ;;
  let! parent_id := GetPageId parent_page in
  run! UnpinPage parent_id true ;;
  run! when (ok && txn) (add_deleted parent_id) ;;
  ret delete_node.

Fixpoint CoalesceOrRedistribute (fuel : nat) (txn : bool) (kind : Kind) (node : Z) : M bool :=
  match fuel with
  | O => fault NoFuel
  | S fuel =>
      let! h := get_page node in
      let parent_page_id := parent_page_id_ h in
      run! asserts (negb (parent_page_id =? INVALID_PAGE_ID)) ;;
      if GetMinSize h <=? size_ h then ret false
      else
        let! parent_page := fetch_data parent_page_id in
        let! parent := get_internal parent_page in
        let! node_index := lift (Internal.ValueIndex (page_id_ h) parent) in
        let! left_sibling :=
          if 0 <=? node_index - 1 then
            let! p := fetch_sibling parent_page (node_index - 1) in ret (Some p)
          else ret None in
        let! left_rich := match left_sibling with Some p => rich node p | None => ret false end in
        if left_rich : bool then
          run! match left_sibling with Some p => Redistribute kind p node 1 | None => ret tt end ;;
          run! unpin_sibling left_sibling ;;
          run! unpin_page parent_page ;;
          ret false
        else
          let! right_sibling :=
            if node_index + 1 <? Internal.GetSize parent then
              let! p := fetch_sibling parent_page (node_index + 1) in ret (Some p)
            else ret None in
          let! right_rich := match right_sibling with Some p => rich node p | None => ret false end in
          if right_rich : bool then
            run! match right_sibling with Some p => Redistribute kind p node 0 | None => ret tt end ;;
            run! unpin_sibling left_sibling ;;
            run! unpin_sibling right_sibling ;;
            run! unpin_page parent_page ;;
            ret false
          else
            merge_siblings (CoalesceOrRedistribute fuel txn KInternal) txn kind node parent_page
                           left_sibling right_sibling
  end.

(** The id of the leaf is read after its unpin where there is no transaction. *)
Definition Remove (fuel : nat) (key : K) (txn : bool) : M unit :=
  let! empty := IsEmpty in
  if empty : bool then ret tt
  else
    let! page := FindLeafPage fuel key false txn Action.Delete in
    let! leaf_page := get_leaf page in
    let! (_, leaf_page) := lift (Leaf.RemoveAndDeleteRecord cmp key leaf_page) in
    run! put_leaf page leaf_page ;;
    let id := page_id_ (Leaf.hdr leaf_page) in
    if IsRootPage (Leaf.hdr leaf_page) then
      let! adjusted := AdjustRoot page in
      run! when adjusted (if txn then add_deleted id else run! DeletePage id ;; ret tt) ;;
      if txn then ReleasePageSet txn Action.Delete true
      else run! UnpinPage id true ;; ret tt
    else
      let! ok :=
        if Leaf.GetSize leaf_page <? GetMinSize (Leaf.hdr leaf_page)
        then CoalesceOrRedistribute fuel txn KLeaf page else ret false in
      run! when (negb txn) (run! UnpinPage id true ;; ret tt) ;;
      run! when ok (if txn then add_deleted id
                    else let! deleted := DeletePage id in asserts deleted) ;;
      when txn (ReleasePageSet txn Action.Delete true).

(** ** The iterator *)

Record IndexIterator := mkIterator {
  current_page_ : Z;
  current_index_in_page_ : Z;
  max_size_in_current_page_ : Z
}.

Definition Iterator (leaf_page index : Z) : M IndexIterator :=
  let! h := get_page leaf_page in ret (mkIterator leaf_page index (size_ h)).

(** The destructor. *)
Definition Iterator_release (it : IndexIterator) : M unit :=
  let! id := GetPageId (current_page_ it) in
  run! UnpinPage id false ;; ret tt.

Definition isEnd (it : IndexIterator) : M bool :=
  if max_size_in_current_page_ it <=? current_index_in_page_ it then
    let! p := get_leaf (current_page_ it) in
    ret (Leaf.GetNextPageId p =? INVALID_PAGE_ID)
  else ret false.

Definition Iterator_item (it : IndexIterator) : M (K * V) :=
  let! p := get_leaf (current_page_ it) in
  lift (Leaf.GetItem (current_index_in_page_ it) p).

Definition Iterator_next (it : IndexIterator) : M IndexIterator :=
  let index := current_index_in_page_ it + 1 in
  if max_size_in_current_page_ it <=? index then
    let! p := get_leaf (current_page_ it) in
    let next_page_id := Leaf.GetNextPageId p in
    if next_page_id =? INVALID_PAGE_ID then
      ret (mkIterator (current_page_ it) index (max_size_in_current_page_ it))
    else
      run! UnpinPage (page_id_ (Leaf.hdr p)) false ;;
      let! page := fetch_data next_page_id in
      let! h := get_page page in
      ret (mkIterator page 0 (size_ h))
  else ret (mkIterator (current_page_ it) index (max_size_in_current_page_ it)).

Definition Begin (fuel : nat) : M IndexIterator :=
  let! page := FindLeafPage fuel zero_key true false Action.LookUp in
  Iterator page 0.

Definition Begin_at (fuel : nat) (key : K) : M IndexIterator :=
  let! page := FindLeafPage fuel key false false Action.LookUp in
  let! p := get_leaf page in
  let! index := lift (Leaf.KeyIndex cmp key p) in
  if index =? -1 then fault (Throw "no such key"%string)
  else Iterator page index.

(** ** The check of the tests *)

(** The children of an internal page from the cell [i], with the bounds of their keys. *)
Fixpoint child_bounds (p : Internal.BPlusTreeInternalPage K) (lower higher : option K)
    (i : Z) (n : nat) : result (list (Z * option K * option K)) :=
  match n with
  | O => Ok []
  | S n =>
      let* v := Internal.ValueAt i p in
      let* lo := if i =? 0 then Ok lower
                 else let* k := Internal.KeyAt i p in Ok (Some k) in
      let* hi := if negb (i =? 0) && (i =? Internal.GetSize p - 1) then Ok higher
                 else let* k := Internal.KeyAt (i + 1) p in Ok (Some k) in
      let* rest := child_bounds p lower higher (i + 1) n in
      Ok ((v, lo, hi) :: rest)
  end.

Fixpoint check_queue (fuel : nat) (queue : list (Z * option K * option K)) : M bool :=
  match queue, fuel with
  | [], _ => ret true
  | _, O => fault NoFuel
  | (id, lower, higher) :: queue, S fuel =>
      let! page := fetch_data id in
      let! h := get_page page in
      if IsLeafPage h then
        let! p := get_leaf page in
        let! ok := lift (Leaf.CheckIntegrity cmp lower higher p) in
        run! UnpinPage (page_id_ h) false ;;
        if ok : bool then check_queue fuel queue else ret false
      else
        let! p := get_internal page in
        let! ok := lift (Internal.CheckIntegrity cmp lower higher p) in
        if ok : bool then
          let! children := lift (child_bounds p lower higher 0 (Z.to_nat (Internal.GetSize p))) in
          run! UnpinPage (page_id_ h) false ;;
          check_queue fuel (queue ++ children)
        else run! UnpinPage (page_id_ h) false ;; ret false
  end.

Definition CheckIntegrity (fuel : nat) : M bool :=
  let! root := gets root_page_id_ in
  if root =? INVALID_PAGE_ID then ret true
  else check_queue fuel [(root, None, None)].
End Tree.
End BPlusTree.
