(* ===== verification/TreeModel.v ===== *)
(** * Abstract B+ trees

    The tree the pages of the pool represent: its leaves in order with the separators
    between them ([tokens]), the order of the keys, the links between leaves, the page
    ids, and contexts (a tree with a hole, as the path from the hole to the root).
    [holds] ties a tree to the pages; splits, merges and rotations of pages are
    equations on [tokens]. *)

From stdpp Require Import prelude gmap gmultiset list sorting.
From Stdlib Require Import ZArith Lia.
From S2P Require Import Prelude BPlusTreePage LeafPage InternalPage TreeNodes.

Local Open Scope Z_scope.

Module TreeModel.
Import BPage Nodes.

Section Model.
Context {K V : Type}.

Inductive tree :=
| TLeaf (id next : Z) (es : list (K * V))
| TNode (id : Z) (kcs : list (K * tree)).

Definition tid (t : tree) : Z :=
  match t with TLeaf id _ _ => id | TNode id _ => id end.

Fixpoint ids (t : tree) : list Z :=
  match t with
  | TLeaf id _ _ => [id]
  | TNode id kcs => id :: concat (map (fun kc => ids kc.2) kcs)
  end.

Definition forest_ids (kcs : list (K * tree)) : list Z := concat (map (fun kc => ids kc.2) kcs).

(** A tree read from left to right; the key of the first cell of a node is no key. *)
Inductive token := Sep (k : K) | Page (id next : Z) (es : list (K * V)).

Fixpoint tokens (t : tree) : list token :=
  match t with
  | TLeaf id next es => [Page id next es]
  | TNode id kcs => tail (concat (map (fun kc => Sep kc.1 :: tokens kc.2) kcs))
  end.

Definition weave (kcs : list (K * tree)) : list token :=
  concat (map (fun kc => Sep kc.1 :: tokens kc.2) kcs).

Definition cells (kcs : list (K * tree)) : list (K * Z) := map (fun kc => (kc.1, tid kc.2)) kcs.

(** ** The entries and the leaves *)

Definition token_entries (x : token) : list (K * V) :=
  match x with Sep _ => [] | Page _ _ es => es end.
Definition entries (ts : list token) : list (K * V) := concat (map token_entries ts).

Definition token_leaf (x : token) : option (Z * Z) :=
  match x with Sep _ => None | Page id next _ => Some (id, next) end.
Definition leaves (ts : list token) : list (Z * Z) := omap token_leaf ts.

(** Every leaf is linked to the next one, the last one to [stop]. *)
Fixpoint linked (l : list (Z * Z)) (stop : Z) : Prop :=
  match l with
  | [] => True
  | (_, next) :: l' =>
      match l' with [] => next = stop | (id, _) :: _ => next = id end /\ linked l' stop
  end.

(** ** The order *)

Inductive item := ISep (k : K) | IEnt (k : K).

Definition token_items (x : token) : list item :=
  match x with Sep k => [ISep k] | Page _ _ es => map (fun e => IEnt e.1) es end.
Definition items (ts : list token) : list item := concat (map token_items ts).

Definition item_key (x : item) : K := match x with ISep k => k | IEnt k => k end.

Section Order.
Context (cmp : K -> K -> Z).

(** The keys below a separator are at least the separator. *)
Definition before (a b : item) : Prop :=
  match a, b with
  | ISep j, IEnt k => cmp j k <= 0
  | _, _ => cmp (item_key a) (item_key b) < 0
  end.

Definition ordered (ts : list token) : Prop := StronglySorted before (items ts).
End Order.

(** ** Contexts *)

(** A node with a hole in the cell of the key [f_key]. *)
Record frame := mkFrame {
  f_id : Z;
  f_left : list (K * tree);
  f_key : K;
  f_right : list (K * tree)
}.

(** The path from the hole to the root. *)
Abbreviation context := (list frame).

Definition plug (f : frame) (t : tree) : tree :=
  TNode (f_id f) (f_left f ++ (f_key f, t) :: f_right f).
Definition fill (fs : context) (t : tree) : tree := fold_left (fun t f => plug f t) fs t.

Definition frame_left (f : frame) : list token := tail (weave (f_left f) ++ [Sep (f_key f)]).
Definition frame_right (f : frame) : list token := weave (f_right f).

Fixpoint left_of (fs : context) : list token :=
  match fs with [] => [] | f :: fs => left_of fs ++ frame_left f end.
Fixpoint right_of (fs : context) : list token :=
  match fs with [] => [] | f :: fs => frame_right f ++ right_of fs end.

Definition frame_ids (f : frame) : list Z :=
  f_id f :: forest_ids (f_left f) ++ forest_ids (f_right f).
Definition context_ids (fs : context) : list Z := concat (map frame_ids fs).

Definition context_parent (fs : context) : Z :=
  match fs with [] => INVALID_PAGE_ID | f :: _ => f_id f end.

(** ** The pages of a tree *)
Section Pages.
Context (key_size value_size : Z).

Abbreviation leaf_max := (leaf_max key_size value_size).
Abbreviation internal_max := (internal_max key_size).

Record leaf_is (parent id next : Z) (es : list (K * V)) (p : Leaf.BPlusTreeLeafPage K V) : Prop := {
  li_wf : Leaf.wf p;
  li_max : Leaf.GetMaxSize p = leaf_max;
  li_type : page_type_ (Leaf.hdr p) = LEAF_PAGE;
  li_id : page_id_ (Leaf.hdr p) = id;
  li_parent : parent_page_id_ (Leaf.hdr p) = parent;
  li_next : Leaf.next_page_id_ p = next;
  li_entries : Leaf.entries p = es
}.

Record internal_is (parent id : Z) (cs : list (K * Z)) (p : Internal.BPlusTreeInternalPage K) : Prop := {
  ii_wf : Internal.wf p;
  ii_max : Internal.GetMaxSize p = internal_max;
  ii_type : page_type_ (Internal.hdr p) = INTERNAL_PAGE;
  ii_id : page_id_ (Internal.hdr p) = id;
  ii_parent : parent_page_id_ (Internal.hdr p) = parent;
  ii_entries : Internal.entries p = cs
}.

(** The pages [m] hold the tree [t] of height [h], under [parent]. *)
Fixpoint holds (h : nat) (m : gmap Z (Node K V)) (parent : Z) (t : tree) : Prop :=
  match h, t with
  | O, TLeaf id next es =>
      exists p, m !! id = Some (LeafNode p) /\ leaf_is parent id next es p
  | S h, TNode id kcs =>
      exists p, m !! id = Some (InternalNode p) /\ internal_is parent id (cells kcs) p /\
                Forall (fun kc => holds h m id kc.2) kcs
  | _, _ => False
  end.

(** Every page but the root is at least half full. *)
Fixpoint fit (h : nat) (root : bool) (t : tree) : Prop :=
  match h, t with
  | O, TLeaf _ _ es => (if root then 1 else leaf_max / 2) <= Z.of_nat (length es)
  | S h, TNode _ kcs =>
      (if root then 2 else internal_max / 2) <= Z.of_nat (length kcs) /\
      Forall (fun kc => fit h false kc.2) kcs
  | _, _ => False
  end.

(** The pages of a context whose hole, of height [h], is the page [hole]. *)
Fixpoint context_holds (h : nat) (m : gmap Z (Node K V)) (hole : Z) (fs : context) : Prop :=
  match fs with
  | [] => True
  | f :: fs =>
      (exists p, m !! f_id f = Some (InternalNode p) /\
         internal_is (context_parent fs) (f_id f)
           (cells (f_left f) ++ (f_key f, hole) :: cells (f_right f)) p) /\
      Forall (fun kc => holds h m (f_id f) kc.2) (f_left f ++ f_right f) /\
      context_holds (S h) m (f_id f) fs
  end.

Definition is_root (fs : context) : bool := match fs with [] => true | _ => false end.

Fixpoint context_fit (h : nat) (fs : context) : Prop :=
  match fs with
  | [] => True
  | f :: fs =>
      (if is_root fs then 2 else internal_max / 2) <=
        Z.of_nat (length (f_left f) + 1 + length (f_right f)) /\
      Forall (fun kc => fit h false kc.2) (f_left f ++ f_right f) /\
      context_fit (S h) fs
  end.

(** The node with another parent. *)
Definition reparented (parent : Z) (n : Node K V) : Node K V :=
  match as_page n with
  | Ok h => with_hdr (SetParentPageId parent h) n
  | Fail _ => n
  end.

(** A page of the tree that knows its own id. *)
Definition tree_page (m : gmap Z (Node K V)) (q : Z) : Prop :=
  exists n hd, m !! q = Some n /\ as_page n = Ok hd /\ page_id_ hd = q.
End Pages.
End Model.
Arguments tree : clear implicits.
Arguments token : clear implicits.
Arguments item : clear implicits.
Arguments frame : clear implicits.

(** ** Lemmas on lists of tokens *)
Section TokenLemmas.
Context {K V : Type}.
Implicit Types (ts : list (token K V)) (t : tree K V) (kcs : list (K * tree K V)) (fs : list (frame K V)).

Lemma entries_app ts1 ts2 : entries (ts1 ++ ts2) = entries ts1 ++ entries ts2.
Proof. unfold entries. by rewrite map_app, concat_app. Qed.

Lemma items_app ts1 ts2 : items (ts1 ++ ts2) = items ts1 ++ items ts2.
Proof. unfold items. by rewrite map_app, concat_app. Qed.

Lemma leaves_app ts1 ts2 : leaves (ts1 ++ ts2) = leaves ts1 ++ leaves ts2.
Proof. apply omap_app. Qed.

Lemma weave_app kcs1 kcs2 : weave (kcs1 ++ kcs2) = weave kcs1 ++ weave kcs2.
Proof. unfold weave. by rewrite map_app, concat_app. Qed.

Lemma weave_cons k t kcs : weave ((k, t) :: kcs) = Sep k :: tokens t ++ weave kcs.
Proof. done. Qed.

Lemma tokens_node id kcs : tokens (TNode id kcs) = tail (weave kcs).
Proof. done. Qed.

Lemma cells_app kcs1 kcs2 : cells (kcs1 ++ kcs2) = cells kcs1 ++ cells kcs2.
Proof. apply map_app. Qed.

Lemma cells_take n kcs : cells (take n kcs) = take n (cells kcs).
Proof. unfold cells. by rewrite firstn_map. Qed.

Lemma cells_drop n kcs : cells (drop n kcs) = drop n (cells kcs).
Proof. unfold cells. by rewrite skipn_map. Qed.

Lemma cells_length kcs : length (cells kcs) = length kcs.
Proof. apply length_map. Qed.

Lemma cells_ids kcs : (cells kcs).*2 = map (fun kc => tid kc.2) kcs.
Proof. induction kcs as [|[k t] kcs IH]; [done|]. simpl. by f_equal. Qed.

Lemma forest_ids_app kcs1 kcs2 : forest_ids (kcs1 ++ kcs2) = forest_ids kcs1 ++ forest_ids kcs2.
Proof. unfold forest_ids. by rewrite map_app, concat_app. Qed.

Lemma forest_ids_cons k t kcs : forest_ids ((k, t) :: kcs) = ids t ++ forest_ids kcs.
Proof. done. Qed.

Lemma ids_node id kcs : ids (TNode id kcs) = id :: forest_ids kcs.
Proof. done. Qed.

Lemma tid_ids t : tid t ∈ ids t.
Proof. destruct t; simpl; left. Qed.

(** The tokens of a node split at a cell: the key of the second part is a separator. *)
Lemma weave_split kcs1 k t kcs2 : kcs1 <> [] ->
  tail (weave (kcs1 ++ (k, t) :: kcs2)) = tail (weave kcs1) ++ Sep k :: tail (weave ((k, t) :: kcs2)).
Proof. intros Hne. rewrite weave_app. destruct kcs1 as [|[k1 t1] kcs1]; [done|]. done. Qed.

Lemma tokens_plug f t : tokens (plug f t) = frame_left f ++ tokens t ++ frame_right f.
Proof.
  unfold plug, frame_left, frame_right. rewrite tokens_node, weave_app, weave_cons.
  by destruct (weave (f_left f)) as [|x l]; simpl; rewrite <- ?app_assoc.
Qed.

Lemma frame_left_some (f : frame K V) :
  f_left f <> [] -> frame_left f = tail (weave (f_left f)) ++ [Sep (f_key f)].
Proof. unfold frame_left. by destruct (f_left f) as [|[k t] kcs]. Qed.

Lemma tokens_fill fs t : tokens (fill fs t) = left_of fs ++ tokens t ++ right_of fs.
Proof.
  revert t. induction fs as [|f fs IH]; intros t; simpl; [by rewrite app_nil_r|].
  rewrite IH, tokens_plug. by rewrite <- !app_assoc.
Qed.

Lemma ids_plug f t : ids (plug f t) ≡ₚ ids t ++ frame_ids f.
Proof.
  unfold plug, frame_ids. rewrite ids_node, forest_ids_app, forest_ids_cons. solve_Permutation.
Qed.

Lemma context_ids_cons (f : frame K V) fs : context_ids (f :: fs) = frame_ids f ++ context_ids fs.
Proof. done. Qed.

Lemma ids_fill fs t : ids (fill fs t) ≡ₚ ids t ++ context_ids fs.
Proof.
  revert t. induction fs as [|f fs IH]; intros t; [by rewrite app_nil_r|].
  simpl. rewrite IH, ids_plug, context_ids_cons. by rewrite <- app_assoc.
Qed.

Lemma linked_app l1 id nx l2 stop :
  linked (l1 ++ (id, nx) :: l2) stop <-> linked l1 id /\ linked ((id, nx) :: l2) stop.
Proof.
  induction l1 as [|[i n] l1 IH]; [simpl; tauto|].
  change (((i, n) :: l1) ++ (id, nx) :: l2) with ((i, n) :: (l1 ++ (id, nx) :: l2)).
  cbn [linked]. rewrite IH. destruct l1 as [|[i' n'] l1]; simpl; tauto.
Qed.
End TokenLemmas.

(** ** Lemmas on the order *)
Section OrderLemmas.
Context {K V : Type} (cmp : K -> K -> Z) `{!KeyOrder cmp}.
Implicit Types (ts : list (token K V)) (es : list (K * V)).

(** All of [ts] is before the key, or after it. *)
Definition below (k : K) (ts : list (token K V)) : Prop :=
  forall x, x ∈ items ts -> before cmp x (IEnt k).
Definition above (k : K) (ts : list (token K V)) : Prop :=
  forall x, x ∈ items ts -> before cmp (IEnt k) x.

Lemma ordered_app ts1 ts2 :
  ordered cmp (ts1 ++ ts2) <->
  ordered cmp ts1 /\ ordered cmp ts2 /\
  forall a b, a ∈ items ts1 -> b ∈ items ts2 -> before cmp a b.
Proof.
  unfold ordered. rewrite items_app. generalize (items ts1) (items ts2). clear. intros l1 l2.
  induction l1 as [|x l1 IH]; simpl.
  - split; [intros H; split; [constructor|]; split; [done|]; by intros a b ?%not_elem_of_nil|tauto].
  - split.
    + intros [Hs Hf]%StronglySorted_inv. rewrite Forall_app in Hf. destruct Hf as [Hf1 Hf2].
      apply IH in Hs as (H1 & H2 & H3). split; [by constructor|]. split; [done|].
      intros a b [->|Ha]%elem_of_cons Hb; [|by apply H3]. by eapply Forall_forall in Hf2.
    + intros ([H1 Hf]%StronglySorted_inv & H2 & H3). constructor.
      * apply IH. split; [done|]. split; [done|]. intros a b Ha Hb. apply H3; [by right|done].
      * apply Forall_app. split; [done|]. apply Forall_forall. intros b Hb. apply H3; [left|done].
Qed.

Lemma below_app k ts1 ts2 : below k (ts1 ++ ts2) <-> below k ts1 /\ below k ts2.
Proof. unfold below. rewrite items_app. setoid_rewrite elem_of_app. naive_solver. Qed.

Lemma above_app k ts1 ts2 : above k (ts1 ++ ts2) <-> above k ts1 /\ above k ts2.
Proof. unfold above. rewrite items_app. setoid_rewrite elem_of_app. naive_solver. Qed.

Lemma below_nil k : below k [].
Proof. by intros x ?%not_elem_of_nil. Qed.

Lemma above_nil k : above k [].
Proof. by intros x ?%not_elem_of_nil. Qed.

Lemma items_page id nx es : items [Page id nx es] = map (fun e => IEnt e.1) es.
Proof. apply app_nil_r. Qed.

Lemma elem_of_page x id nx es :
  x ∈ items [Page id nx es] <-> exists e, e ∈ es /\ x = IEnt e.1.
Proof. rewrite items_page, list_elem_of_In, in_map_iff. setoid_rewrite list_elem_of_In. naive_solver. Qed.

Lemma items_sep (k : K) : items [@Sep K V k] = [ISep k].
Proof. done. Qed.

Lemma entries_items e ts : e ∈ entries ts -> IEnt e.1 ∈ items ts.
Proof.
  induction ts as [|x ts IH]; [by intros ?%not_elem_of_nil|].
  change (x :: ts) with ([x] ++ ts). rewrite entries_app, items_app, !elem_of_app.
  intros [H|H]; [left|right; auto]. destruct x as [k|id nx es]; [by apply not_elem_of_nil in H|].
  unfold entries in H. simpl in H. rewrite app_nil_r in H. apply elem_of_page. by exists e.
Qed.

Lemma ordered_page id nx es : ordered cmp [Page id nx es] <-> sorted cmp es.
Proof.
  unfold ordered. rewrite items_page. induction es as [|e es IH]; simpl.
  - split; constructor.
  - split.
    + intros [Hs Hf]%StronglySorted_inv. apply sorted_cons; [by apply IH|].
      intros x Hx. rewrite Forall_forall in Hf. apply (Hf (IEnt x.1)).
      apply list_elem_of_In, in_map_iff. exists x. split; [done|]. by apply list_elem_of_In.
    + intros [Hs Hf]%sorted_cons_inv. constructor; [by apply IH|]. apply Forall_forall.
      intros x [e' [<- He']]%list_elem_of_In%in_map_iff. apply Hf. by apply list_elem_of_In.
Qed.

Lemma ordered_sorted ts : ordered cmp ts -> sorted cmp (entries ts).
Proof.
  induction ts as [|x ts IH]; [constructor|]. change (x :: ts) with ([x] ++ ts).
  intros (H1 & H2 & H3)%ordered_app. rewrite entries_app. apply sorted_app.
  split; [|split; [auto|]].
  - destruct x as [k|id nx es]; [constructor|]. unfold entries. simpl. rewrite app_nil_r.
    by apply ordered_page in H1.
  - intros a b Ha Hb. apply (H3 (IEnt a.1) (IEnt b.1)); by apply entries_items.
Qed.

Lemma below_entries k ts e : below k ts -> e ∈ entries ts -> cmp e.1 k < 0.
Proof. intros H He. apply (H (IEnt e.1)). by apply entries_items. Qed.

Lemma above_entries k ts e : above k ts -> e ∈ entries ts -> cmp k e.1 < 0.
Proof. intros H He. apply (H (IEnt e.1)). by apply entries_items. Qed.

(** Only the part of the list the key falls in matters. *)
Lemma find_entry_middle k (l1 l l2 : list (K * V)) :
  (forall e, e ∈ l1 -> cmp e.1 k < 0) -> (forall e, e ∈ l2 -> cmp k e.1 < 0) ->
  find_entry cmp k (l1 ++ l ++ l2) = find_entry cmp k l.
Proof.
  intros H1 H2. induction l1 as [|[k' v'] l1 IH]; simpl.
  - clear H1. induction l as [|[k' v'] l IH]; simpl; [by apply find_entry_greater|]. by rewrite IH.
  - rewrite (proj2 (Z.eqb_neq (cmp k k') 0)).
    + apply IH. intros e He. apply H1. by right.
    + specialize (H1 (k', v') (list_elem_of_here _ _)). simpl in H1. apply ko_antisym in H1. lia.
Qed.

Lemma insert_entry_middle k v (l1 l l2 : list (K * V)) :
  (forall e, e ∈ l1 -> cmp e.1 k < 0) -> (forall e, e ∈ l2 -> cmp k e.1 < 0) ->
  insert_entry cmp k v (l1 ++ l ++ l2) = l1 ++ insert_entry cmp k v l ++ l2.
Proof.
  intros H1 H2. induction l1 as [|[k' v'] l1 IH]; simpl.
  - clear H1. induction l as [|[k' v'] l IH]; simpl.
    + destruct l2 as [|[k' v'] l2]; [done|]. simpl.
      specialize (H2 (k', v') (list_elem_of_here _ _)). simpl in H2. apply ko_antisym in H2.
      by rewrite (proj2 (Z.leb_le 0 _)), (proj2 (Z.eqb_neq _ 0)) by lia.
    + destruct (0 <=? cmp k' k); [by destruct (_ =? 0)|]. by rewrite IH.
  - specialize (H1 (k', v') (list_elem_of_here _ _)) as Hk. simpl in Hk.
    rewrite (proj2 (Z.leb_gt 0 _)) by lia. rewrite IH; [done|]. intros e He. apply H1. by right.
Qed.

Lemma remove_entry_middle k (l1 l l2 : list (K * V)) :
  (forall e, e ∈ l1 -> cmp e.1 k < 0) -> (forall e, e ∈ l2 -> cmp k e.1 < 0) ->
  remove_entry cmp k (l1 ++ l ++ l2) = l1 ++ remove_entry cmp k l ++ l2.
Proof.
  intros H1 H2. induction l1 as [|[k' v'] l1 IH]; simpl.
  - clear H1. induction l as [|[k' v'] l IH]; simpl.
    + induction l2 as [|[k' v'] l2 IH]; [done|]. simpl.
      pose proof (H2 (k', v') (list_elem_of_here _ _)) as Hk. simpl in Hk.
      rewrite (proj2 (Z.eqb_neq _ 0)), IH; [done| |lia]. intros e He. apply H2. by right.
    + destruct (cmp k k' =? 0); [done|]. by rewrite IH.
  - specialize (H1 (k', v') (list_elem_of_here _ _)) as Hk. simpl in Hk. apply ko_antisym in Hk.
    rewrite (proj2 (Z.eqb_neq _ 0)) by lia. rewrite IH; [done|]. intros e He. apply H1. by right.
Qed.

(** A key between two parts of a list can join the page between them. *)
Lemma ordered_middle ts1 ts ts2 ts' :
  ordered cmp (ts1 ++ ts ++ ts2) -> ordered cmp ts' ->
  (forall a b, a ∈ items ts1 -> b ∈ items ts' -> before cmp a b) ->
  (forall a b, a ∈ items ts' -> b ∈ items ts2 -> before cmp a b) ->
  ordered cmp (ts1 ++ ts' ++ ts2).
Proof.
  intros (H1 & (_ & H2 & _)%ordered_app & H3)%ordered_app H' Hl Hr.
  apply ordered_app. split; [done|]. split; [by apply ordered_app|].
  intros a b Ha. rewrite items_app, elem_of_app. intros [Hb|Hb]; [by apply Hl|].
  apply H3; [done|]. rewrite items_app, elem_of_app. by right.
Qed.

Lemma ordered_insert ts1 ts2 id nx id' nx' es k v :
  ordered cmp (ts1 ++ [Page id nx es] ++ ts2) -> below k ts1 -> above k ts2 ->
  ordered cmp (ts1 ++ [Page id' nx' (insert_entry cmp k v es)] ++ ts2).
Proof.
  intros H Hl Hr. pose proof H as (_ & (Hp & _ & H2)%ordered_app & H3)%ordered_app.
  apply (ordered_middle _ _ _ _ H).
  - apply ordered_page, insert_entry_sorted; [done|]. by apply ordered_page in Hp.
  - intros a b Ha (e & He & ->)%elem_of_page. apply elem_of_insert_entry in He as [->|He]; [by apply Hl|].
    apply H3; [done|]. rewrite items_app, elem_of_app. left. apply elem_of_page. by exists e.
  - intros a b (e & He & ->)%elem_of_page Hb. apply elem_of_insert_entry in He as [->|He]; [by apply Hr|].
    apply H2; [|done]. apply elem_of_page. by exists e.
Qed.

(** Dropping entries keeps the order. *)
Lemma ordered_subset ts1 ts2 id nx id' nx' es es' :
  ordered cmp (ts1 ++ [Page id nx es] ++ ts2) -> sorted cmp es' -> (forall e, e ∈ es' -> e ∈ es) ->
  ordered cmp (ts1 ++ [Page id' nx' es'] ++ ts2).
Proof.
  intros H Hs Hsub. pose proof H as (_ & (_ & _ & H2)%ordered_app & H3)%ordered_app.
  apply (ordered_middle _ _ _ _ H).
  - by apply ordered_page.
  - intros a b Ha (e & He & ->)%elem_of_page.
    apply H3; [done|]. rewrite items_app, elem_of_app. left. apply elem_of_page. eauto.
  - intros a b (e & He & ->)%elem_of_page Hb. apply H2; [|done]. apply elem_of_page. eauto.
Qed.

(** A page cut in two, with the first key of the second half as the separator. *)
Lemma ordered_cut ts1 ts2 id nx id1 nx1 id2 nx2 es1 k v es2 :
  ordered cmp (ts1 ++ [Page id nx (es1 ++ (k, v) :: es2)] ++ ts2) -> es1 <> [] ->
  ordered cmp (ts1 ++ [Page id1 nx1 es1; Sep k; Page id2 nx2 ((k, v) :: es2)] ++ ts2).
Proof.
  intros H Hne. pose proof H as (_ & (Hp & _ & H2)%ordered_app & H3)%ordered_app.
  apply ordered_page in Hp. pose proof Hp as (Hs1 & Hs2 & Hlt)%sorted_app.
  assert (Hk : forall e, e ∈ es1 -> cmp e.1 k < 0) by (intros e He; apply (Hlt e (k, v)); [done|left]).
  assert (Hk2 : forall e, e ∈ (k, v) :: es2 -> cmp k e.1 <= 0).
  { apply sorted_cons_inv in Hs2 as [_ Hs2]. intros e [->|He]%elem_of_cons; simpl.
    - rewrite cmp_refl by done. lia.
    - specialize (Hs2 e He). simpl in Hs2. lia. }
  assert (Hin : forall x, x ∈ items [Page id1 nx1 es1; Sep k; Page id2 nx2 ((k, v) :: es2)] ->
            x = ISep k \/ x ∈ items [Page id nx (es1 ++ (k, v) :: es2)]).
  { change [Page id1 nx1 es1; Sep k; Page id2 nx2 ((k, v) :: es2)] with
      ([Page id1 nx1 es1] ++ [Sep k] ++ [Page id2 nx2 ((k, v) :: es2)]).
    intros x. rewrite !items_app, !elem_of_app, !elem_of_page, items_sep, list_elem_of_singleton.
    setoid_rewrite elem_of_app. naive_solver. }
  apply (ordered_middle _ _ _ _ H).
  - change [Page id1 nx1 es1; Sep k; Page id2 nx2 ((k, v) :: es2)] with
      ([Page id1 nx1 es1] ++ [Sep k] ++ [Page id2 nx2 ((k, v) :: es2)]).
    rewrite !ordered_app. split; [by apply ordered_page|]. split; [split; [|split]|].
    + by repeat constructor.
    + by apply ordered_page.
    + intros a b ->%list_elem_of_singleton (e & He & ->)%elem_of_page. by apply Hk2.
    + intros a b (e & He & ->)%elem_of_page. rewrite items_app, elem_of_app.
      intros [->%list_elem_of_singleton|(e' & He' & ->)%elem_of_page]; [by apply Hk|by apply Hlt].
  - intros a b Ha [->|Hb]%Hin.
    + destruct es1 as [|e1 es1]; [done|].
      assert (Ha1 : before cmp a (IEnt e1.1)).
      { apply H3; [done|]. rewrite items_app, elem_of_app. left. apply elem_of_page. exists e1.
        split; [|done]. left. }
      pose proof (Hk e1 (list_elem_of_here _ _)) as Hk1.
      destruct a as [j|j]; simpl in *; [by apply (cmp_le_lt_trans cmp j e1.1)|].
      apply (cmp_lt_le_trans cmp j e1.1); [done|lia].
    + apply H3; [done|]. rewrite items_app, elem_of_app. by left.
  - intros a b [->|Ha]%Hin Hb; [|by apply H2].
    assert (Hb1 : before cmp (IEnt k) b).
    { apply H2; [|done]. apply elem_of_page. exists (k, v). split; [|done]. apply elem_of_app.
      right. left. }
    destruct b as [j|j]; simpl in *; lia.
Qed.

Lemma cell_sep (kcs : list (K * tree K V)) x : x ∈ cells kcs -> ISep x.1 ∈ items (weave kcs).
Proof.
  induction kcs as [|[k t] kcs IH]; [by intros ?%not_elem_of_nil|].
  rewrite weave_cons. change (Sep k :: tokens t ++ weave kcs) with ([Sep k] ++ tokens t ++ weave kcs).
  rewrite !items_app, !elem_of_app, items_sep.
  intros [->|H]%elem_of_cons; [left; left|auto].
Qed.

Lemma separators_sorted (kcs : list (K * tree K V)) :
  ordered cmp (weave kcs) -> sorted cmp (cells kcs).
Proof.
  induction kcs as [|[k t] kcs IH]; [constructor|]. rewrite weave_cons.
  change (Sep k :: tokens t ++ weave kcs) with ([Sep k] ++ tokens t ++ weave kcs).
  intros (_ & (_ & H2 & _)%ordered_app & H3)%ordered_app.
  apply sorted_cons; [auto|]. intros x Hx. apply (H3 (ISep k) (ISep x.1)); [left|].
  rewrite items_app, elem_of_app. right. by apply cell_sep.
Qed.

Lemma before_trans_le a j k : before cmp a (ISep j) -> cmp j k <= 0 -> before cmp a (IEnt k).
Proof.
  intros H1 H2. assert (cmp (item_key a) k < 0).
  { apply (cmp_lt_le_trans cmp _ j); [by destruct a|done]. }
  destruct a; simpl in *; lia.
Qed.

Lemma before_trans_lt k j b : cmp k j < 0 -> before cmp (ISep j) b -> before cmp (IEnt k) b.
Proof.
  intros H1 H2. assert (cmp k (item_key b) < 0).
  { apply (cmp_lt_le_trans cmp _ j); [done|]. destruct b; simpl in *; lia. }
  by destruct b.
Qed.

(** The child whose page [Lookup] returns is the one the key falls in. *)
Lemma find_child k id (kcs : list (K * tree K V)) ts1 ts2 :
  kcs <> [] -> ordered cmp (ts1 ++ tokens (TNode id kcs) ++ ts2) -> below k ts1 -> above k ts2 ->
  exists kl kc t kr, kcs = kl ++ (kc, t) :: kr /\
    length kl = Internal.child_index cmp k (cells kcs) /\
    below k (ts1 ++ frame_left (mkFrame id kl kc kr)) /\
    above k (frame_right (mkFrame id kl kc kr) ++ ts2).
Proof.
  intros Hne (_ & (Hord & _ & _)%ordered_app & _)%ordered_app Hl Hr. rewrite tokens_node in Hord.
  assert (Hsep : sorted cmp (drop 1 (cells kcs))).
  { destruct kcs as [|[k0 t0] kcs]; [done|]. rewrite weave_cons in Hord.
    apply ordered_app in Hord as (_ & Hord & _). by apply separators_sorted. }
  destruct (Internal.child_index_bounds cmp k (cells kcs) Hsep) as [Hle Hgt].
  set (i := Internal.child_index cmp k (cells kcs)) in *.
  assert (Hi : (i < length kcs)%nat).
  { unfold i, Internal.child_index. destruct (first_index _ _) as [j|] eqn:Ej.
    - apply first_index_Some in Ej as (x & Hx & _). apply lookup_lt_Some in Hx.
      rewrite length_drop, cells_length in Hx. lia.
    - rewrite cells_length. destruct kcs; [done|]. simpl. lia. }
  destruct (lookup_lt_is_Some_2 kcs i Hi) as [[kc t] Hx].
  exists (take i kcs), kc, t, (drop (S i) kcs). set (f := mkFrame id (take i kcs) kc (drop (S i) kcs)).
  assert (Hsplit : kcs = take i kcs ++ (kc, t) :: drop (S i) kcs) by (by rewrite take_drop_middle).
  split; [done|]. split; [rewrite length_take; lia|].
  assert (Hord' : ordered cmp (frame_left f ++ tokens t ++ frame_right f)).
  { rewrite <- tokens_plug. unfold plug, f. cbn [f_left f_key f_right]. by rewrite <- Hsplit. }
  apply ordered_app in Hord' as (H1 & (_ & H2 & _)%ordered_app & _).
  rewrite below_app, above_app. split; (split; [try done|try done]).
  - destruct (decide (take i kcs = [])) as [E|E].
    { unfold frame_left, f. cbn [f_left f_key]. rewrite E. apply below_nil. }
    rewrite (frame_left_some f) in H1 |- * by done. apply ordered_app in H1 as (_ & _ & H1).
    assert (Hk : cmp kc k <= 0).
    { apply (Hle i (kc, tid t)); [|unfold cells; by rewrite list_lookup_fmap, Hx].
      split; [|lia]. destruct i; [by rewrite take_0 in E|lia]. }
    apply below_app. split; [|by intros x ->%list_elem_of_singleton].
    intros x Hin. apply (before_trans_le x kc k); [|done]. apply H1; [done|left].
  - unfold frame_right, f in *. cbn [f_right] in *.
    destruct (drop (S i) kcs) as [|[k1 t1] kr] eqn:E; [apply above_nil|].
    assert (Hk : cmp k k1 < 0).
    { apply (Hgt (S i) (k1, tid t1)); [lia|]. unfold cells. rewrite list_lookup_fmap.
      rewrite <- (Nat.add_0_r (S i)), <- lookup_drop, E. done. }
    rewrite weave_cons in H2 |- *. change (Sep k1 :: ?l) with ([Sep k1] ++ l) in *.
    apply ordered_app in H2 as (_ & _ & H2). apply above_app.
    split; [by intros x ->%list_elem_of_singleton|].
    intros x Hin. apply (before_trans_lt k k1 x); [done|]. apply H2; [left|done].
Qed.
End OrderLemmas.

(** ** Lemmas on the pages of a tree *)
Section PageLemmas.
Context {K V : Type} (key_size value_size : Z).
Implicit Types (m : gmap Z (Node K V)) (t : tree K V) (fs : list (frame K V)).

Abbreviation holds := (holds key_size value_size).
Abbreviation leaf_is := (leaf_is key_size value_size).
Abbreviation internal_is := (internal_is key_size).
Abbreviation context_holds := (context_holds key_size value_size).

Lemma elem_of_forest q (kcs : list (K * tree K V)) :
  q ∈ forest_ids kcs <-> exists kc, kc ∈ kcs /\ q ∈ ids kc.2.
Proof.
  unfold forest_ids. rewrite list_elem_of_In, in_concat. setoid_rewrite in_map_iff.
  setoid_rewrite list_elem_of_In. naive_solver.
Qed.

Lemma holds_agree h m m' parent t :
  holds h m parent t -> (forall q, q ∈ ids t -> m' !! q = m !! q) -> holds h m' parent t.
Proof.
  revert parent t. induction h as [|h IH]; intros parent [id nx es|id kcs] H Hm; simpl in *; try done.
  - by rewrite Hm by left.
  - destruct H as (p & Hp & Hi & Hf). exists p. split; [by rewrite Hm by left|]. split; [done|].
    rewrite Forall_forall in Hf |- *. intros kc Hkc. apply IH; [auto|].
    intros q Hq. apply Hm. right. apply elem_of_forest. by exists kc.
Qed.

Lemma forest_agree h m m' parent (kcs : list (K * tree K V)) :
  Forall (fun kc => holds h m parent kc.2) kcs ->
  (forall q, q ∈ forest_ids kcs -> m' !! q = m !! q) ->
  Forall (fun kc => holds h m' parent kc.2) kcs.
Proof.
  rewrite !Forall_forall. intros H Hm kc Hkc. apply (holds_agree h m); [auto|].
  intros q Hq. apply Hm, elem_of_forest. by exists kc.
Qed.

Lemma leaf_is_reparent parent parent' id nx es (p : Leaf.BPlusTreeLeafPage K V) :
  leaf_is parent id nx es p ->
  leaf_is parent' id nx es (Leaf.set_hdr p (SetParentPageId parent' (Leaf.hdr p))).
Proof. intros []. split; try done. destruct li_wf0. by split. Qed.

Lemma internal_is_reparent parent parent' id cs (p : Internal.BPlusTreeInternalPage K) :
  internal_is parent id cs p ->
  internal_is parent' id cs (Internal.set_hdr p (SetParentPageId parent' (Internal.hdr p))).
Proof. intros []. split; try done. destruct ii_wf0. by split. Qed.

Lemma holds_reparent h m m' parent parent' t :
  holds h m parent t -> NoDup (ids t) -> m' !! tid t = reparented parent' <$> m !! tid t ->
  (forall q, q ∈ ids t -> q <> tid t -> m' !! q = m !! q) -> holds h m' parent' t.
Proof.
  destruct h as [|h], t as [id nx es|id kcs]; simpl; try done; intros H Hnd Hid Hm;
    destruct H as (p & Hp & Hi); rewrite Hp in Hid; eexists; (split; [exact Hid|]).
  - by apply (leaf_is_reparent parent).
  - destruct Hi as [Hi Hf]. split; [by apply (internal_is_reparent parent)|].
    change (NoDup (id :: forest_ids kcs)) in Hnd. apply NoDup_cons in Hnd as [Hnot _].
    apply (forest_agree h m); [done|]. intros q Hq. apply Hm; [by right|]. by intros ->.
Qed.

Lemma holds_known h m parent t q : holds h m parent t -> q ∈ ids t -> tree_page m q.
Proof.
  revert parent t. induction h as [|h IH]; intros parent [id nx es|id kcs]; simpl; try done.
  - intros (p & Hp & Hi) ->%list_elem_of_singleton. exists (LeafNode p), (Leaf.hdr p).
    split; [done|]. split; [done|]. by apply Hi.
  - intros (p & Hp & Hi & Hf) [->|Hq]%elem_of_cons.
    + exists (InternalNode p), (Internal.hdr p). split; [done|]. split; [done|]. by apply Hi.
    + apply elem_of_forest in Hq as (kc & Hkc & Hq). rewrite Forall_forall in Hf. eauto.
Qed.

(** The header of the root page of a tree. *)
Lemma holds_root h m parent t :
  holds h m parent t ->
  exists n hd, m !! tid t = Some n /\ as_page n = Ok hd /\ page_id_ hd = tid t /\
    parent_page_id_ hd = parent /\ (IsLeafPage hd = true <-> h = O) /\ IsTrivialPage hd = false.
Proof.
  destruct h as [|h], t as [id nx es|id kcs]; simpl; try done.
  - intros (p & Hp & []). exists (LeafNode p), (Leaf.hdr p). do 4 (split; [done|]).
    unfold IsLeafPage, IsTrivialPage. rewrite li_type0. split; [|done]. by split.
  - intros (p & Hp & [] & _). exists (InternalNode p), (Internal.hdr p). do 4 (split; [done|]).
    unfold IsLeafPage, IsTrivialPage. rewrite ii_type0. split; [|done]. by split.
Qed.

Lemma context_agree h m m' hole fs :
  context_holds h m hole fs -> (forall q, q ∈ context_ids fs -> m' !! q = m !! q) ->
  context_holds h m' hole fs.
Proof.
  revert h hole. induction fs as [|f fs IH]; intros h hole; [done|].
  intros ((p & Hp & Hi) & Hf & Hc) Hm. cbn [context_holds].
  assert (Hin : forall q, q ∈ frame_ids f -> m' !! q = m !! q).
  { intros q Hq. apply Hm. rewrite context_ids_cons, elem_of_app. by left. }
  split; [|split].
  - exists p. split; [|done]. rewrite Hin; [done|]. left.
  - apply (forest_agree h m); [done|]. intros q Hq. apply Hin. right. by rewrite <- forest_ids_app.
  - apply IH; [done|]. intros q Hq. apply Hm. rewrite context_ids_cons, elem_of_app. by right.
Qed.

Lemma context_known h m hole fs q : context_holds h m hole fs -> q ∈ context_ids fs -> tree_page m q.
Proof.
  revert h hole. induction fs as [|f fs IH]; intros h hole; [by intros _ ?%not_elem_of_nil|].
  intros ((p & Hp & Hi) & Hf & Hc). rewrite context_ids_cons, elem_of_app.
  intros [[->|Hq]%elem_of_cons|Hq]; [| |by eapply IH].
  - exists (InternalNode p), (Internal.hdr p). split; [done|]. split; [done|]. by apply Hi.
  - rewrite <- forest_ids_app in Hq. apply elem_of_forest in Hq as (kc & Hkc & Hq).
    rewrite Forall_forall in Hf. by apply (holds_known h m (f_id f) kc.2); [apply Hf|].
Qed.

Lemma plug_holds h m f fs t :
  holds h m (f_id f) t -> context_holds h m (tid t) (f :: fs) ->
  holds (S h) m (context_parent fs) (plug f t) /\ context_holds (S h) m (tid (plug f t)) fs.
Proof.
  intros Ht ((p & Hp & Hi) & [Hl Hr]%Forall_app & Hc). split; [|done]. exists p.
  split; [done|]. split; [by rewrite cells_app|]. apply Forall_app. split; [done|]. by constructor.
Qed.

Lemma fill_holds h m fs t :
  holds h m (context_parent fs) t -> context_holds h m (tid t) fs ->
  holds (length fs + h) m INVALID_PAGE_ID (fill fs t).
Proof.
  revert h t. induction fs as [|f fs IH]; intros h t Ht Hc; [done|].
  destruct (plug_holds _ _ _ _ _ Ht Hc) as [Ht' Hc'].
  change (length (f :: fs) + h)%nat with (S (length fs + h)). rewrite plus_n_Sm. by apply IH.
Qed.

Abbreviation fit := (fit key_size value_size).
Abbreviation context_fit := (context_fit key_size value_size).

Lemma fill_fit h fs t :
  fit h (is_root fs) t -> context_fit h fs -> fit (length fs + h) true (fill fs t).
Proof.
  revert h t. induction fs as [|f fs IH]; intros h t Ht Hc; [done|].
  destruct Hc as (Hlen & [Hl Hr]%Forall_app & Hc).
  change (length (f :: fs) + h)%nat with (S (length fs + h)). rewrite plus_n_Sm. apply IH; [|done].
  split; [rewrite length_app, length_cons; destruct (is_root fs); lia|].
  apply Forall_app. split; [done|]. by constructor.
Qed.
End PageLemmas.
End TreeModel.
