(* ===== verification/TreeSteps.v ===== *)
(** * Steps of the tree code on the pool

    What the primitives of [TreeNodes] do on a pool with room, and from them the moves
    that reach other pages: adopting children and splitting a page. *)

From stdpp Require Import prelude gmap gmultiset list sorting.
From Stdlib Require Import ZArith Lia.
From S2P Require Import Prelude BPlusTreePage LeafPage InternalPage TreeNodes TreeModel BPlusTree.

Local Open Scope Z_scope.

Module TreeSteps.
Import BPage Nodes TreeModel BPlusTree.

Section State.
Context {K V : Type}.
Implicit Types (s : State K V) (m : gmap Z (Node K V)).

(** A state with other pages, pins, unsaved pages and next page id. *)
Definition upd (m : gmap Z (Node K V)) (l : gmultiset Z) (u : gset Z) (n : Z) (s : State K V) : State K V :=
  set_store (mkStore m l u n (capacity (store s))) s.

Definition pin_page (p : Z) (s : State K V) : State K V :=
  upd (nodes (store s)) ({[+ p +]} ⊎ pins (store s)) (unsaved (store s)) (next (store s)) s.

Definition drop_pin (p : Z) (dirty : bool) (s : State K V) : State K V :=
  upd (nodes (store s)) (pins (store s) ∖ {[+ p +]})
      (if dirty then unsaved (store s) ∖ {[p]} else unsaved (store s)) (next (store s)) s.

Definition put (p : Z) (n : Node K V) (s : State K V) : State K V :=
  upd (<[p := n]> (nodes (store s))) (pins (store s)) ({[p]} ∪ unsaved (store s)) (next (store s)) s.

(** Other contents only. *)
Definition edit (m : gmap Z (Node K V)) (u : gset Z) (s : State K V) : State K V :=
  upd m (pins (store s)) u (next (store s)) s.

(** [k] more pages can be pinned. *)
Definition room (k : nat) (s : State K V) : Prop :=
  (size (dom (pins (store s))) + k <= capacity (store s))%nat.

(** The pages [qs] with the parent [self]. *)
Definition adopted (self : Z) (qs : list Z) (m : gmap Z (Node K V)) : gmap Z (Node K V) :=
  foldl (fun m q => alter (reparented self) q m) m qs.
End State.

Section Steps.
Context {K V : Type}.
Implicit Types (s : State K V) (m : gmap Z (Node K V)) (n : Node K V).

Lemma bind_run {A B} (m : M K V A) (f : A -> M K V B) s x s' :
  m s = Ok (x, s') -> bind m f s = f x s'.
Proof. unfold bind. by intros ->. Qed.

Lemma bind_fail {A B} (m : M K V A) (f : A -> M K V B) s e : m s = Fail e -> bind m f s = Fail e.
Proof. unfold bind. by intros ->. Qed.

Lemma bind_from {A B} (m m' : M K V A) (f : A -> M K V B) s s' : m s = m' s' -> bind m f s = bind m' f s'.
Proof. unfold bind. by intros ->. Qed.

Lemma bind_bind {A B C} (m : M K V A) (f : A -> M K V B) (g : B -> M K V C) s :
  bind (bind m f) g s = bind m (fun x => bind (f x) g) s.
Proof. unfold bind. by destruct (m s) as [[]|]. Qed.

Lemma lift_ok {A} (r : result A) x s : r = Ok x -> lift r s = Ok (x, s).
Proof. by intros ->. Qed.

Lemma asserts_ok b s : b = true -> asserts b s = Ok (tt, s).
Proof. by intros ->. Qed.

(** ** Pins *)

Lemma elem_of_pinned p l : p ∈ ({[+ p +]} ⊎ l : gmultiset Z).
Proof. apply gmultiset_elem_of_disj_union. left. by apply gmultiset_elem_of_singleton. Qed.

Lemma elem_of_pinned_r p q l : p ∈ l -> p ∈ ({[+ q +]} ⊎ l : gmultiset Z).
Proof. intros H. apply gmultiset_elem_of_disj_union. by right. Qed.

Lemma unpin_pinned (p : Z) (l : gmultiset Z) : ({[+ p +]} ⊎ l) ∖ {[+ p +]} = l.
Proof. multiset_solver. Qed.

Lemma room_more (k : nat) s p :
  room (S k) s -> room k (pin_page p s).
Proof.
  unfold room, pin_page, upd. simpl. intros H.
  enough (size (dom ({[+ p +]} ⊎ pins (store s) : gmultiset Z)) <= S (size (dom (pins (store s)))))%nat by lia.
  transitivity (size ({[p]} ∪ dom (pins (store s)) : gset Z)).
  - apply subseteq_size. intros q. rewrite elem_of_union, elem_of_singleton, !gmultiset_elem_of_dom.
    rewrite gmultiset_elem_of_disj_union, gmultiset_elem_of_singleton. done.
  - rewrite size_union_alt, size_singleton. simpl.
    apply le_n_S, subseteq_size. set_solver.
Qed.

Lemma room_le k k' s : room k s -> (k' <= k)%nat -> room k' s.
Proof. unfold room. lia. Qed.

Lemma room_not_full k s : room (S k) s -> full (store s) = false.
Proof. unfold room, full. intros H. apply bool_decide_false. lia. Qed.

(** ** The primitives *)

Lemma pinned_true p s : p ∈ pins (store s) -> pinned p (store s) = true.
Proof. apply bool_decide_true. Qed.

Lemma fetch_ok p s k :
  room (S k) s -> p <> INVALID_PAGE_ID -> is_Some (nodes (store s) !! p) ->
  FetchPage p s = Ok (Some p, pin_page p s).
Proof.
  intros Hr Hp [n Hn]. unfold FetchPage. rewrite assert_ok by (by apply negb_true_iff, Z.eqb_neq).
  cbv zeta. by rewrite Hn, (room_not_full k), andb_false_r.
Qed.

Lemma fetch_data_ok p s k :
  room (S k) s -> p <> INVALID_PAGE_ID -> is_Some (nodes (store s) !! p) ->
  fetch_data p s = Ok (p, pin_page p s).
Proof. intros Hr Hp Hn. unfold fetch_data. by rewrite (bind_run _ _ _ _ _ (fetch_ok p s k Hr Hp Hn)). Qed.

Lemma new_page_ok s k :
  room (S k) s ->
  NewPage s = Ok ((next (store s), Some (next (store s))),
    upd (<[next (store s) := RawPage]> (nodes (store s))) ({[+ next (store s) +]} ⊎ pins (store s))
        (unsaved (store s)) (next (store s) + 1) s).
Proof. intros Hr. unfold NewPage. by rewrite (room_not_full k). Qed.

(** A page that was not written, or that is unpinned as dirty, keeps what it holds. *)
Lemma unpin_saved_ok p d s :
  p ∈ pins (store s) -> p <> INVALID_PAGE_ID -> d = true \/ p ∉ unsaved (store s) ->
  UnpinPage p d s = Ok (true, drop_pin p d s).
Proof.
  intros Hin Hp Hd. unfold UnpinPage. rewrite assert_ok by (by apply negb_true_iff, Z.eqb_neq).
  rewrite pinned_true by done. assert (Hl : loses p d (store s) = false).
  { unfold loses. destruct Hd as [->|Hu]; [done|]. by rewrite (bool_decide_eq_false_2 _ Hu), andb_false_r. }
  rewrite Hl, orb_false_r. by destruct d.
Qed.

Lemma unpin_ok p s :
  p ∈ pins (store s) -> p <> INVALID_PAGE_ID -> UnpinPage p true s = Ok (true, drop_pin p true s).
Proof. intros. apply unpin_saved_ok; auto. Qed.

Lemma read_ok p n s :
  p ∈ pins (store s) -> nodes (store s) !! p = Some n -> read_node p s = Ok (n, s).
Proof. intros Hin Hn. unfold read_node. by rewrite pinned_true, Hn by done. Qed.

Lemma write_ok p n s : p ∈ pins (store s) -> write_node p n s = Ok (tt, put p n s).
Proof. intros Hin. unfold write_node. by rewrite pinned_true by done. Qed.

Lemma get_page_ok p n h s :
  p ∈ pins (store s) -> nodes (store s) !! p = Some n -> as_page n = Ok h -> get_page p s = Ok (h, s).
Proof. intros Hin Hn Hh. unfold get_page. rewrite (bind_run _ _ _ _ _ (read_ok _ _ _ Hin Hn)). by apply lift_ok. Qed.

Lemma page_id_ok p n h s :
  p ∈ pins (store s) -> nodes (store s) !! p = Some n -> as_page n = Ok h ->
  GetPageId p s = Ok (page_id_ h, s).
Proof. intros Hin Hn Hh. unfold GetPageId. by rewrite (bind_run _ _ _ _ _ (get_page_ok _ _ _ _ Hin Hn Hh)). Qed.

Lemma parent_id_ok p n h s :
  p ∈ pins (store s) -> nodes (store s) !! p = Some n -> as_page n = Ok h ->
  GetParentPageId p s = Ok (parent_page_id_ h, s).
Proof. intros Hin Hn Hh. unfold GetParentPageId. by rewrite (bind_run _ _ _ _ _ (get_page_ok _ _ _ _ Hin Hn Hh)). Qed.

Lemma tree_page_id_ok p s :
  p ∈ pins (store s) -> tree_page (nodes (store s)) p -> GetPageId p s = Ok (p, s).
Proof. intros Hin (n & h & Hn & Hh & Hid). rewrite (page_id_ok _ _ _ _ Hin Hn Hh). by rewrite Hid. Qed.

Lemma set_parent_ok parent p n h s :
  p ∈ pins (store s) -> nodes (store s) !! p = Some n -> as_page n = Ok h ->
  set_parent parent p s = Ok (tt, put p (reparented parent n) s).
Proof.
  intros Hin Hn Hh. unfold set_parent. rewrite (bind_run _ _ _ _ _ (read_ok _ _ _ Hin Hn)).
  rewrite Hh. rewrite (bind_run _ _ s h s eq_refl), write_ok by done. unfold reparented. by rewrite Hh.
Qed.

Lemma as_page_reparented parent n h :
  as_page n = Ok h -> as_page (reparented parent n) = Ok (SetParentPageId parent h).
Proof. intros H. unfold reparented. rewrite H. destruct n; simpl in *; congruence. Qed.

Lemma tree_page_reparented parent m p : tree_page m p -> tree_page (alter (reparented parent) p m) p.
Proof.
  intros (n & h & Hn & Hh & Hid). exists (reparented parent n), (SetParentPageId parent h).
  rewrite lookup_alter_eq, Hn. split; [done|]. split; [by apply as_page_reparented|done].
Qed.

(** ** Adopting children *)

Lemma upd_eq m m' l l' (u u' : gset Z) (n : Z) s s' :
  upd m l u n s = upd m l u n s' -> m = m' -> l = l' -> u = u' -> upd m l u n s = upd m' l' u' n s'.
Proof. by intros H <- <- <-. Qed.

Lemma edit_edit m m' u u' s : edit m u (edit m' u' s) = edit m u s.
Proof. done. Qed.

Lemma adopt_ok self child s k :
  room (S k) s -> self ∈ pins (store s) -> tree_page (nodes (store s)) self ->
  tree_page (nodes (store s)) child -> child <> self -> child <> INVALID_PAGE_ID ->
  adopt self child s =
  Ok (tt, edit (alter (reparented self) child (nodes (store s))) (unsaved (store s) ∖ {[child]}) s).
Proof.
  intros Hr Hin Hself (n & h & Hn & Hh & Hid) Hne Hinv. unfold adopt.
  rewrite (bind_run _ _ _ _ _ (fetch_data_ok child s k Hr Hinv (mk_is_Some _ _ Hn))).
  rewrite (bind_run _ _ _ _ _ (tree_page_id_ok self (pin_page child s) (elem_of_pinned_r _ _ _ Hin) Hself)).
  rewrite (bind_run _ _ _ _ _ (set_parent_ok self child n h (pin_page child s) (elem_of_pinned _ _) Hn Hh)).
  erewrite bind_run.
  2:{ apply (page_id_ok child (reparented self n) (SetParentPageId self h)).
      - apply elem_of_pinned.
      - apply lookup_insert_eq.
      - by apply as_page_reparented. }
  change (page_id_ (SetParentPageId self h)) with (page_id_ h). rewrite Hid.
  set (s1 := put child (reparented self n) (pin_page child s)).
  rewrite (bind_run _ _ _ _ _ (unpin_ok child s1 (elem_of_pinned _ _) Hinv)).
  unfold ret. f_equal. f_equal. apply upd_eq; unfold s1; cbn [store set_store nodes pins unsaved next put pin_page upd].
  - done.
  - apply map_eq. intros q. destruct (decide (q = child)) as [->|Hq].
    + by rewrite lookup_insert_eq, lookup_alter_eq, Hn.
    + by rewrite lookup_insert_ne, lookup_alter_ne.
  - apply unpin_pinned.
  - set_solver.
Qed.

Lemma adopted_lookup self qs m q :
  adopted self qs m !! q = if decide (q ∈ qs) then reparented self <$> m !! q else m !! q.
Proof.
  unfold adopted. revert m. induction qs as [|x qs IH]; intros m; [done|]. cbn [foldl].
  rewrite IH. destruct (decide (q = x)) as [->|Hq].
  - rewrite lookup_alter_eq. destruct (decide (x ∈ qs)); destruct (decide (x ∈ x :: qs)) as [?|Hn];
      try done; [|exfalso; apply Hn; left..].
    destruct (m !! x) as [n|]; [|done]. simpl. f_equal. unfold reparented at 1 2 3.
    destruct (as_page n) as [h|er] eqn:E; [|by rewrite E].
    destruct n; simpl in *; try discriminate; injection E as <-; done.
  - rewrite lookup_alter_ne by done.
    destruct (decide (q ∈ qs)); destruct (decide (q ∈ x :: qs)) as [H|H]; try done; exfalso.
    + apply H. by right.
    + by apply elem_of_cons in H as [|].
Qed.

Lemma adopt_all_ok self (items : list (K * Z)) s k :
  room (S k) s -> self ∈ pins (store s) -> tree_page (nodes (store s)) self ->
  (forall x, x ∈ items.*2 -> tree_page (nodes (store s)) x /\ x <> self /\ x <> INVALID_PAGE_ID) ->
  adopt_all self items s =
  Ok (tt, edit (adopted self items.*2 (nodes (store s)))
               (unsaved (store s) ∖ list_to_set items.*2) s).
Proof.
  revert s. induction items as [|x items IH]; intros s Hr Hin Hself Hall; simpl.
  - unfold ret. do 2 f_equal. transitivity (edit (nodes (store s)) (unsaved (store s)) s);
      [by destruct s as [tr ro [] tx]|]. apply upd_eq; [done|done|done|set_solver].
  - destruct (Hall x.2) as (Hx & Hxs & Hxi); [left|].
    rewrite (bind_run _ _ _ _ _ (adopt_ok self x.2 s k Hr Hin Hself Hx Hxs Hxi)).
    rewrite IH; [|done|done| |].
    + rewrite edit_edit. do 2 f_equal. apply upd_eq; [done|done|done|].
      cbn [edit store set_store nodes pins unsaved next upd]. set_solver.
    + cbn [edit upd store set_store nodes]. destruct Hself as (n & h & Hn & Hh).
      exists n, h. by rewrite lookup_alter_ne by done.
    + intros y Hy. destruct (Hall y) as (Hy1 & Hy2); [by right|]. split; [|done].
      cbn [edit upd store set_store nodes]. destruct (decide (y = x.2)) as [->|Hne].
      * by apply tree_page_reparented.
      * destruct Hy1 as (n & h & Hn & Hh). exists n, h. by rewrite lookup_alter_ne by done.
Qed.
End Steps.

Section Moves.
Context {K V : Type} (key_size value_size : Z) (zero_key : K) (zero_value : V).
Implicit Types (s : State K V) (m : gmap Z (Node K V)) (n : Node K V).

Abbreviation leaf_max := (leaf_max key_size value_size).
Abbreviation internal_max := (internal_max key_size).
Abbreviation leaf_is := (leaf_is key_size value_size).
Abbreviation internal_is := (internal_is key_size).
Abbreviation get_leaf := (get_leaf key_size value_size zero_key zero_value).
Abbreviation get_internal := (get_internal key_size zero_key).
Abbreviation as_leaf := (as_leaf key_size value_size zero_key zero_value).
Abbreviation as_internal := (as_internal key_size zero_key).
Abbreviation Split := (Split key_size value_size zero_key zero_value).

(** The sizes of the template's types give pages of at least two cells. *)
Record sizes_ok : Prop := {
  so_leaf : 2 <= leaf_max < 2 ^ 31 - 1;
  so_internal : 2 <= internal_max < 2 ^ 31 - 1
}.

Lemma get_leaf_ok p n l s :
  p ∈ pins (store s) -> nodes (store s) !! p = Some n -> as_leaf n = Ok l -> get_leaf p s = Ok (l, s).
Proof.
  intros Hin Hn Hl. unfold Nodes.get_leaf. rewrite (bind_run _ _ _ _ _ (read_ok _ _ _ Hin Hn)).
  by apply lift_ok.
Qed.

Lemma get_internal_ok p n i s :
  p ∈ pins (store s) -> nodes (store s) !! p = Some n -> as_internal n = Ok i ->
  get_internal p s = Ok (i, s).
Proof.
  intros Hin Hn Hi. unfold Nodes.get_internal. rewrite (bind_run _ _ _ _ _ (read_ok _ _ _ Hin Hn)).
  by apply lift_ok.
Qed.

Lemma put_leaf_ok p (l : Leaf.BPlusTreeLeafPage K V) s :
  p ∈ pins (store s) -> put_leaf p l s = Ok (tt, put p (LeafNode l) s).
Proof. apply write_ok. Qed.

Lemma put_internal_ok p (i : Internal.BPlusTreeInternalPage K) s :
  p ∈ pins (store s) -> put_internal p i s = Ok (tt, put p (InternalNode i) s).
Proof. apply write_ok. Qed.

Context (Hsizes : sizes_ok).

Lemma leaf_init_is parent id :
  leaf_is parent id INVALID_PAGE_ID []
    (Leaf.Init key_size value_size id parent (zero_leaf key_size value_size zero_key zero_value)).
Proof.
  pose proof (so_leaf Hsizes) as [H1 H2]. split; try done. split.
  - change (0 <= 0 <= leaf_max). lia.
  - change (Z.of_nat (length (replicate (Z.to_nat leaf_max) (zero_key, zero_value))) = leaf_max).
    rewrite length_replicate. lia.
  - exact H2.
Qed.

Lemma internal_init_is parent id :
  internal_is parent id [] (Internal.Init key_size id parent (zero_internal key_size zero_key)).
Proof.
  pose proof (so_internal Hsizes) as [H1 H2]. split; try done. split.
  - change (0 <= 0 <= internal_max). lia.
  - change (Z.of_nat (length (replicate (Z.to_nat internal_max) (zero_key, 0))) = internal_max).
    rewrite length_replicate. lia.
  - exact H2.
Qed.

Lemma leaf_is_length parent id nx (es : list (K * V)) p :
  leaf_is parent id nx es p -> Leaf.GetSize p = Z.of_nat (length es).
Proof.
  intros []. rewrite <- li_entries0, Leaf.leaf_entries_length by done.
  pose proof (Leaf.l_size _ li_wf0). lia.
Qed.

Lemma internal_is_length parent id (cs : list (K * Z)) p :
  internal_is parent id cs p -> Internal.GetSize p = Z.of_nat (length cs).
Proof.
  intros []. rewrite <- ii_entries0, Internal.internal_entries_length by done.
  pose proof (Internal.i_size _ ii_wf0). lia.
Qed.

Lemma split_leaf_ok id p parent nx es s k :
  nodes (store s) !! id = Some (LeafNode p) -> leaf_is parent id nx es p ->
  id ∈ pins (store s) -> room (S k) s -> id <> next (store s) ->
  let N := next (store s) in
  let c := (length es / 2)%nat in
  exists p' r' u',
    Split KLeaf id s =
      Ok (N, upd (<[id := LeafNode p']> (<[N := LeafNode r']> (nodes (store s))))
                 ({[+ N +]} ⊎ pins (store s)) u' (N + 1) s) /\
    leaf_is parent id N (take c es) p' /\ leaf_is parent N nx (drop c es) r' /\
    u' ⊆ unsaved (store s) ∪ {[id; N]}.
Proof.
  intros Hp Hi Hin Hr Hne N c. unfold BPlusTree.Split.
  rewrite (bind_run _ _ _ _ _ (new_page_ok s k Hr)). fold N. cbv beta iota.
  set (s1 := upd _ _ _ _ s). rewrite (bind_run _ _ s1 N s1 eq_refl).
  assert (Hp1 : nodes (store s1) !! id = Some (LeafNode p)) by (by apply lookup_insert_Some; right).
  assert (Hin1 : id ∈ pins (store s1)) by (by apply elem_of_pinned_r).
  assert (HN1 : N ∈ pins (store s1)) by apply elem_of_pinned.
  rewrite (bind_run _ _ _ _ _ (parent_id_ok id _ _ s1 Hin1 Hp1 eq_refl)).
  erewrite bind_run by (apply (get_leaf_ok N RawPage); [done|apply lookup_insert_eq|reflexivity]).
  rewrite (bind_run _ _ _ _ _ (put_leaf_ok N _ s1 HN1)).
  rewrite (li_parent _ _ _ _ _ _ _ Hi).
  pose proof (leaf_init_is parent N) as Hinit. set (r := Leaf.Init _ _ _ _ _) in *.
  destruct (Leaf.move_half_ok p r) as (p' & r' & Hm & Hwp & Hwr & Hep & Her & Hnp & Hnr & Hhp & Hhr).
  { apply Hi. } { apply Hinit. } { done. } { rewrite (li_max _ _ _ _ _ _ _ Hi). apply Hinit. }
  set (s2 := put N (LeafNode r) s1).
  assert (Hm2 : leaf_MoveHalfTo key_size value_size zero_key zero_value id N s2 =
                Ok (tt, put id (LeafNode p') (put N (LeafNode r') s2))).
  { unfold leaf_MoveHalfTo. erewrite bind_run.
    2:{ apply (get_leaf_ok id (LeafNode p)); [done| |reflexivity].
        unfold s2, put. cbn [upd set_store store nodes]. by rewrite lookup_insert_ne. }
    erewrite bind_run by (apply (get_leaf_ok N (LeafNode r)); [done|apply lookup_insert_eq|reflexivity]).
    rewrite (bind_run _ _ s2 (p', r') s2) by (by apply lift_ok). cbv beta iota.
    rewrite (bind_run _ _ _ _ _ (put_leaf_ok N r' s2 HN1)). by apply put_leaf_ok. }
  rewrite (bind_run _ _ _ _ _ Hm2).
  assert (Hc : Z.to_nat (Leaf.GetSize p / 2) = c).
  { rewrite (leaf_is_length _ _ _ _ _ Hi). unfold c. rewrite <- (Nat2Z.inj_div _ 2). apply Nat2Z.id. }
  exists p', r', ({[id]} ∪ ({[N]} ∪ ({[N]} ∪ unsaved (store s)))). split; [|split; [|split]].
  - unfold ret. do 2 f_equal. apply upd_eq; [done| |done|done].
    unfold s2, s1, put. cbn [upd set_store store nodes]. by rewrite !insert_insert_eq.
  - destruct Hhp as (H1 & H2 & H3 & H4), Hi. split; try congruence.
    rewrite Hnp. apply Hinit.
  - destruct Hhr as (H1 & H2 & H3 & H4), Hi, Hinit. split; congruence.
  - set_solver.
Qed.

Lemma put_put p n n' s : put p n (put p n' s) = put p n s.
Proof.
  apply upd_eq; [done| |done|]; cbn [put upd set_store store nodes unsaved].
  - apply insert_insert_eq.
  - set_solver.
Qed.

Lemma internal_frame_is parent id cs cs' (p p' : Internal.BPlusTreeInternalPage K) :
  internal_is parent id cs p -> Internal.same_frame p p' -> Internal.entries p' = cs' ->
  internal_is parent id cs' p'.
Proof. intros [] (? & ? & ? & ? & ?) ?. split; congruence. Qed.

Lemma leaf_frame_is parent id nx es es' (p p' : Leaf.BPlusTreeLeafPage K V) :
  leaf_is parent id nx es p -> Leaf.same_frame p p' -> Leaf.entries p' = es' ->
  leaf_is parent id nx es' p'.
Proof. intros [] (? & ? & ? & ? & ? & ?) ?. split; congruence. Qed.

Lemma internal_tree_page m id parent cs p :
  m !! id = Some (InternalNode p) -> internal_is parent id cs p -> tree_page m id.
Proof. intros Hm []. exists (InternalNode p), (Internal.hdr p). done. Qed.

Lemma tree_page_insert_ne m q id n : tree_page m q -> q <> id -> tree_page (<[id := n]> m) q.
Proof. intros (n' & h & Hn & Hh) Hne. exists n', h. by rewrite lookup_insert_ne by done. Qed.

(** The upper half of the cells moves to an empty page, which adopts their children. *)
Lemma node_move_half_ok id N p r parent cs s k :
  nodes (store s) !! id = Some (InternalNode p) -> internal_is parent id cs p ->
  nodes (store s) !! N = Some (InternalNode r) -> internal_is parent N [] r ->
  id ∈ pins (store s) -> N ∈ pins (store s) -> room (S k) s -> id <> N ->
  let c := (length cs / 2)%nat in
  (forall q, q ∈ (drop c cs).*2 ->
     tree_page (nodes (store s)) q /\ q <> N /\ q <> id /\ q <> INVALID_PAGE_ID) ->
  exists p' r' u',
    MoveHalfTo key_size zero_key id N s =
      Ok (tt, edit (<[N := InternalNode r']>
                     (adopted N (drop c cs).*2 (<[id := InternalNode p']> (nodes (store s))))) u' s) /\
    internal_is parent id (take c cs) p' /\ internal_is parent N (drop c cs) r' /\
    u' ⊆ unsaved (store s) ∪ {[id; N]}.
Proof.
  intros Hp Hi Hr Hri Hin HNin Hroom Hne c Hch. unfold MoveHalfTo.
  erewrite bind_run by (by apply (get_internal_ok id (InternalNode p))). cbv beta zeta.
  pose proof (internal_is_length _ _ _ _ Hi) as Hlen. pose proof (ii_wf _ _ _ _ _ Hi) as Hwf.
  pose proof (Internal.i_size _ Hwf) as Hsz.
  assert (Hquot : Z.quot (Internal.GetSize p) 2 = Z.of_nat c).
  { rewrite Z.quot_div_nonneg, Hlen by lia. unfold c. by rewrite (Nat2Z.inj_div _ 2). }
  assert (Hc : (c <= length cs)%nat) by (unfold c; apply Nat.Div0.div_le_upper_bound; lia).
  rewrite Hquot. set (p' := Internal.set_hdr p (SetSize (Z.of_nat c) (Internal.hdr p))).
  destruct (Internal.internal_set_size_ok p (Z.of_nat c) Hwf) as [Hf' He']; [lia|]. fold p' in Hf', He'.
  rewrite Nat2Z.id, (ii_entries _ _ _ _ _ Hi) in He'.
  rewrite (bind_run _ _ _ _ _ (put_internal_ok id p' s Hin)).
  change (Internal.GetSize p') with (Z.of_nat c). change (Internal.array p') with (Internal.array p).
  set (s1 := put id (InternalNode p') s).
  rewrite (bind_run _ _ s1 (drop c cs) s1).
  2:{ apply lift_ok. rewrite Internal.internal_read_cells by (done || lia).
      rewrite Nat2Z.id, (ii_entries _ _ _ _ _ Hi), take_ge; [done|]. rewrite length_drop. lia. }
  unfold CopyHalfFrom.
  assert (HN1 : nodes (store s1) !! N = Some (InternalNode r)).
  { cbn [s1 put upd set_store store nodes]. by rewrite lookup_insert_ne. }
  erewrite bind_run.
  2:{ apply (adopt_all_ok N (drop c cs) s1 k); [done|done| |].
      - by apply (internal_tree_page _ _ parent [] r).
      - intros q Hq. destruct (Hch q Hq) as (H1 & H2 & H3 & H4). split; [|done].
        by apply tree_page_insert_ne. }
  destruct (Internal.internal_copy_half_ok r (drop c cs)) as (r' & Hcp & Hfr & Her).
  { apply Hri. } { apply (internal_is_length _ _ _ _ Hri). }
  { rewrite (ii_max _ _ _ _ _ Hri), <- (ii_max _ _ _ _ _ Hi), length_drop. lia. }
  erewrite bind_run.
  2:{ apply (get_internal_ok N (InternalNode r)); [exact HNin| |reflexivity].
      cbn [edit upd set_store store nodes]. rewrite adopted_lookup, decide_False, HN1; [done|].
      intros HN. by destruct (Hch N HN) as (_ & ? & _). }
  erewrite bind_run by (apply lift_ok; exact Hcp).
  rewrite put_internal_ok by exact HNin.
  exists p', r', ({[N]} ∪ (({[id]} ∪ unsaved (store s)) ∖ list_to_set (drop c cs).*2)).
  split; [done|]. split; [by apply (internal_frame_is _ _ cs _ p)|].
  split; [by apply (internal_frame_is _ _ [] _ r)|]. set_solver.
Qed.

Lemma split_internal_ok id p parent cs s k :
  nodes (store s) !! id = Some (InternalNode p) -> internal_is parent id cs p ->
  id ∈ pins (store s) -> room (S (S k)) s ->
  let N := next (store s) in
  let c := (length cs / 2)%nat in
  id <> N ->
  (forall q, q ∈ (drop c cs).*2 ->
     tree_page (nodes (store s)) q /\ q <> N /\ q <> id /\ q <> INVALID_PAGE_ID) ->
  exists p' r' m' u',
    Split KInternal id s = Ok (N, upd m' ({[+ N +]} ⊎ pins (store s)) u' (N + 1) s) /\
    (forall q, m' !! q =
       if decide (q = N) then Some (InternalNode r')
       else if decide (q = id) then Some (InternalNode p')
       else if decide (q ∈ (drop c cs).*2) then reparented N <$> nodes (store s) !! q
       else nodes (store s) !! q) /\
    internal_is parent id (take c cs) p' /\ internal_is parent N (drop c cs) r' /\
    u' ⊆ unsaved (store s) ∪ {[id; N]}.
Proof.
  intros Hp Hi Hin Hr N c Hne Hch. unfold BPlusTree.Split.
  rewrite (bind_run _ _ _ _ _ (new_page_ok s _ Hr)). fold N. cbv beta iota.
  set (s1 := upd _ _ _ _ s). rewrite (bind_run _ _ s1 N s1 eq_refl).
  assert (Hp1 : nodes (store s1) !! id = Some (InternalNode p)) by (by apply lookup_insert_Some; right).
  assert (Hin1 : id ∈ pins (store s1)) by (by apply elem_of_pinned_r).
  assert (HN1 : N ∈ pins (store s1)) by apply elem_of_pinned.
  rewrite (bind_run _ _ _ _ _ (parent_id_ok id _ _ s1 Hin1 Hp1 eq_refl)).
  erewrite bind_run by (apply (get_internal_ok N RawPage); [done|apply lookup_insert_eq|reflexivity]).
  rewrite (bind_run _ _ _ _ _ (put_internal_ok N _ s1 HN1)).
  rewrite (ii_parent _ _ _ _ _ Hi).
  pose proof (internal_init_is parent N) as Hinit. set (r := Internal.Init _ _ _ _) in *.
  set (s2 := put N (InternalNode r) s1).
  destruct (node_move_half_ok id N p r parent cs s2 k) as (p' & r' & u' & Hm & Hip & Hir & Hu).
  { cbn [s2 put upd set_store store nodes]. by rewrite lookup_insert_ne. } { done. }
  { apply lookup_insert_eq. } { done. } { done. } { done. }
  { by apply room_more. } { done. }
  { intros q Hq. destruct (Hch q Hq) as (H1 & H2 & H3). split; [|done].
    cbn [s2 s1 put upd set_store store nodes]. rewrite insert_insert_eq. by apply tree_page_insert_ne. }
  rewrite (bind_run _ _ _ _ _ Hm). eexists p', r', _, u'. split; [done|]. split; [|split; [done|split; [done|]]].
  - intros q. cbn [s2 s1 put upd set_store store nodes]. rewrite insert_insert_eq.
    destruct (decide (q = N)) as [->|HqN]; [apply lookup_insert_eq|]. rewrite lookup_insert_ne by done.
    rewrite adopted_lookup. fold c. destruct (decide (q = id)) as [->|Hqi].
    + rewrite decide_False, lookup_insert_eq; [done|]. intros Hq. by destruct (Hch _ Hq) as (_ & _ & ? & _).
    + by rewrite !lookup_insert_ne.
  - etrans; [exact Hu|]. cbn [s2 s1 put upd set_store store unsaved]. set_solver.
Qed.
End Moves.
End TreeSteps.
