(* ===== verification/TreeInsert.v ===== *)
(** * Insertion in the B+ tree

    The split of a node propagated to its ancestors, for every tree and every depth:
    InsertIntoParent turns a context whose hole holds two trees into a tree that reads
    the same.  Then Insert and GetValue against the sorted list of entries. *)

From stdpp Require Import prelude gmap gmultiset list sorting.
From Stdlib Require Import ZArith Lia.
From S2P Require Import Prelude HeaderPage BPlusTreePage LeafPage InternalPage TreeNodes BPlusTree.
From S2P Require Import TreeModel TreeSteps.

Local Open Scope Z_scope.

Module TreeInsert.
Import BPage Nodes TreeModel BPlusTree TreeSteps.

Section Insert.
Context {K V : Type} (key_size value_size : Z) (zero_key : K) (zero_value : V).
Context (index_name : list Z) (cmp : K -> K -> Z) `{!KeyOrder cmp}.
Implicit Types (s : State K V) (m : gmap Z (Node K V)) (t : tree K V) (fs : list (frame K V)).

Abbreviation leaf_max := (leaf_max key_size value_size).
Abbreviation internal_max := (internal_max key_size).
Abbreviation leaf_is := (leaf_is key_size value_size).
Abbreviation internal_is := (internal_is key_size).
Abbreviation holds := (holds key_size value_size).
Abbreviation fit := (fit key_size value_size).
Abbreviation context_holds := (context_holds key_size value_size).
Abbreviation context_fit := (context_fit key_size value_size).
Abbreviation get_internal := (get_internal key_size zero_key).
Abbreviation InsertIntoParent := (InsertIntoParent key_size value_size zero_key zero_value index_name cmp).
Abbreviation UpdateRootPageId := (UpdateRootPageId index_name).

(** ** The header page *)

(** The header page is well formed; [header_ok]: what it records for the index, if
    anything, is the root page id. *)
Definition header_page m (rs : Header.Records) : Prop :=
  exists buf, m !! HEADER_PAGE_ID = Some (HeaderNode buf) /\ Header.repr buf rs.

Definition header_ok (root : Z) m : Prop :=
  exists rs, header_page m rs /\ forall r, (index_name, r) ∈ rs -> r = wrap32 root.

(** ** What insertion keeps *)

(** Two trees to be put in the hole of a context, with the separator between them. *)
Record pending (h : nat) (fs : list (frame K V)) (told : tree K V) (k : K) (tnew : tree K V)
    (s : State K V) : Prop := {
  pe_old : holds h (nodes (store s)) (context_parent fs) told;
  pe_new : holds h (nodes (store s)) (context_parent fs) tnew;
  pe_context : context_holds h (nodes (store s)) (tid told) fs;
  pe_fit : fit h false told /\ fit h false tnew /\ context_fit h fs;
  pe_nodup : NoDup (ids told ++ ids tnew ++ context_ids fs);
  pe_ids q : q ∈ ids told ++ ids tnew ++ context_ids fs -> HEADER_PAGE_ID < q < next (store s);
  pe_order : ordered cmp (left_of fs ++ tokens told ++ Sep k :: tokens tnew ++ right_of fs);
  pe_pins : tid told ∈ pins (store s) /\ tid tnew ∈ pins (store s);
  pe_header : exists root, header_ok root (nodes (store s))
}.

(** The pages [I] of [s], and new ones, are those of the tree [t'] in [s']. *)
Record grown (s s' : State K V) (I : list Z) (touched : gset Z) (h' : nat) (t' : tree K V) : Prop := {
  g_holds : holds h' (nodes (store s')) INVALID_PAGE_ID t';
  g_fit : fit h' true t';
  g_nodup : NoDup (ids t');
  g_keep q : q ∈ I -> q ∈ ids t';
  g_ids q : q ∈ ids t' -> q ∈ I \/ next (store s) <= q < next (store s');
  g_frame q : q ∉ I -> q <> HEADER_PAGE_ID -> q < next (store s) ->
              nodes (store s') !! q = nodes (store s) !! q;
  g_next : next (store s) <= next (store s');
  g_pins : pins (store s') = pins (store s);
  g_unsaved : unsaved (store s') ⊆ unsaved (store s) ∪ touched;
  g_rest : trivial_page_id_ s' = trivial_page_id_ s /\ txn s' = txn s /\
           capacity (store s') = capacity (store s)
}.

Context (Hsizes : sizes_ok key_size value_size) (Hname : Header.name_ok index_name).

Lemma header_ok_agree root m m' :
  header_ok root m -> m' !! HEADER_PAGE_ID = m !! HEADER_PAGE_ID -> header_ok root m'.
Proof. intros (rs & (b & Hb & Hr) & Hrec) E. exists rs. split; [|done]. exists b. by rewrite E. Qed.

Lemma update_root_ok root s k :
  header_ok root (nodes (store s)) -> room (S k) s ->
  exists buf, 
    UpdateRootPageId false s =
      Ok (tt, edit (<[HEADER_PAGE_ID := HeaderNode buf]> (nodes (store s)))
                   (unsaved (store s) ∖ {[HEADER_PAGE_ID]}) s) /\
    header_ok (root_page_id_ s) (<[HEADER_PAGE_ID := HeaderNode buf]> (nodes (store s))).
Proof.
  intros (rs & (buf & Hbuf & Hrep) & _) Hr. unfold BPlusTree.UpdateRootPageId.
  rewrite (bind_run _ _ _ _ _ (fetch_data_ok HEADER_PAGE_ID s k Hr ltac:(done) (mk_is_Some _ _ Hbuf))).
  set (s1 := pin_page HEADER_PAGE_ID s).
  rewrite (bind_run _ _ _ _ _ (read_ok HEADER_PAGE_ID _ s1 (elem_of_pinned _ _) Hbuf)).
  rewrite (bind_run _ _ s1 buf s1 eq_refl). rewrite (bind_run _ _ s1 (root_page_id_ s) s1 eq_refl).
  destruct (Header.update_any buf rs index_name (root_page_id_ s) Hrep Hname) as (ok & buf' & Hu & Hrep').
  rewrite (bind_run _ _ s1 (ok, buf') s1) by (by apply lift_ok). cbv beta iota.
  rewrite (bind_run _ _ _ _ _ (write_ok HEADER_PAGE_ID (HeaderNode buf') s1 (elem_of_pinned _ _))).
  rewrite (bind_run _ _ _ _ _ (unpin_ok HEADER_PAGE_ID (put HEADER_PAGE_ID (HeaderNode buf') s1)
             (elem_of_pinned _ _) ltac:(done))).
  exists buf'. split.
  - unfold ret. do 2 f_equal. apply upd_eq; [done|done| |];
      cbn [put s1 pin_page upd set_store store nodes pins unsaved]; [apply unpin_pinned|set_solver].
  - eexists. split; [eexists; split; [apply lookup_insert_eq|exact Hrep']|].
    intros r Hin. cbn [Header.exec_spec] in Hin. pose proof (Header.h_nodup _ _ Hrep') as Hnd.
    cbn [Header.exec_spec] in Hnd.
    destruct (Header.index_of index_name rs) as [i|] eqn:Ei; simpl in Hin, Hnd.
    + apply Header.index_of_Some in Ei as (r0 & Hi & _).
      apply list_elem_of_lookup in Hin as [j Hj]. destruct (decide (i = j)) as [<-|Hne].
      * rewrite list_lookup_insert_eq in Hj by (by eapply lookup_lt_Some). by injection Hj.
      * exfalso. apply Hne. apply (NoDup_lookup _ i j index_name Hnd).
        -- by rewrite list_lookup_fmap, list_lookup_insert_eq by (by eapply lookup_lt_Some).
        -- by rewrite list_lookup_fmap, Hj.
    + apply Header.index_of_None in Ei. exfalso. apply Ei. by apply (list_elem_of_fmap_2 fst _ _ Hin).
Qed.

(** ** A cell after that of the old child *)

Lemma first_cell (cl : list (K * Z)) x cr :
  x.2 ∉ cl.*2 -> first_index (fun y => y.2 =? x.2) (cl ++ x :: cr) = Some (length cl).
Proof.
  intros Hn. apply first_index_Some. exists x. split; [by apply list_lookup_middle|].
  split; [by apply Z.eqb_eq|]. intros j y Hj Hlt. rewrite lookup_app_l in Hj by done.
  apply Z.eqb_neq. intros E. apply Hn. rewrite <- E. apply list_elem_of_fmap_2.
  by apply list_elem_of_lookup_2 in Hj.
Qed.

Lemma insert_node_ok page old k new parent p (cl : list (K * Z)) kc cr s :
  nodes (store s) !! page = Some (InternalNode p) ->
  internal_is parent page (cl ++ (kc, old) :: cr) p ->
  Z.of_nat (length (cl ++ (kc, old) :: cr)) < internal_max -> old ∉ cl.*2 ->
  page ∈ pins (store s) -> old ∈ pins (store s) -> new ∈ pins (store s) ->
  tree_page (nodes (store s)) old -> tree_page (nodes (store s)) new ->
  exists p', insert_after key_size zero_key page old k new s = Ok (tt, put page (InternalNode p') s) /\
             internal_is parent page (cl ++ (kc, old) :: (k, new) :: cr) p'.
Proof.
  intros Hp Hi Hlen Hn Hin Ho Hnw Hto Htn. unfold insert_after.
  rewrite (bind_run _ _ _ _ _ (tree_page_id_ok old s Ho Hto)).
  rewrite (bind_run _ _ _ _ _ (tree_page_id_ok new s Hnw Htn)).
  erewrite bind_run by (by apply (get_internal_ok _ _ page (InternalNode p))).
  destruct (Internal.insert_after_ok p old k new (length cl)) as (p' & Hins & Hf & He).
  { apply Hi. }
  { rewrite (internal_is_length _ _ _ _ _ Hi), (ii_max _ _ _ _ _ Hi). done. }
  { rewrite (ii_entries _ _ _ _ _ Hi). by apply (first_cell cl (kc, old) cr). }
  rewrite (bind_run _ _ s (Internal.GetSize p', p') s) by (by apply lift_ok). cbv beta iota.
  rewrite put_internal_ok by done. exists p'. split; [done|].
  apply (internal_frame_is _ _ _ (cl ++ (kc, old) :: cr) _ p); [done|done|].
  rewrite He, (ii_entries _ _ _ _ _ Hi).
  replace (S (length cl)) with (length (cl ++ [(kc, old)])) by (rewrite length_app; simpl; lia).
  rewrite (cons_middle (kc, old) cl cr), (app_assoc cl), take_app_length, drop_app_length.
  by rewrite <- app_assoc.
Qed.

Lemma populate_ok parent id (p : Internal.BPlusTreeInternalPage K) old k new :
  internal_is parent id [] p ->
  exists p', Internal.PopulateNewRoot old k new p = Ok p' /\
             internal_is parent id [(k, old); (k, new)] p'.
Proof.
  intros []. pose proof (Internal.i_cap _ ii_wf0). pose proof (so_internal _ _ Hsizes) as [H2 _].
  pose proof (Internal.i_max _ ii_wf0). rewrite ii_max0 in *.
  unfold Internal.PopulateNewRoot. rewrite set_cell_ok, bind_ok by lia.
  rewrite set_cell_ok, bind_ok by (rewrite length_insert; lia). eexists. split; [done|].
  destruct (Internal.array p) as [|c0 [|c1 a]] eqn:Ea; simpl in *; [lia..|].
  split; try done. split; simpl.
  - unfold Internal.GetSize, Internal.GetMaxSize in *. simpl. lia.
  - unfold Internal.GetMaxSize in *. simpl. lia.
  - unfold Internal.GetMaxSize in *. simpl. lia.
Qed.

(** The parents of two pages. *)
Definition reroot (R a b : Z) m : gmap Z (Node K V) :=
  alter (reparented R) b (alter (reparented R) a m).

Lemma reroot_lookup R a b m q :
  a <> b -> reroot R a b m !! q = if decide (q = a \/ q = b) then reparented R <$> m !! q else m !! q.
Proof.
  intros Hab. unfold reroot. destruct (decide (q = b)) as [->|Hb].
  - rewrite lookup_alter_eq, lookup_alter_ne, decide_True by auto. done.
  - rewrite lookup_alter_ne by done. destruct (decide (q = a)) as [->|Ha].
    + rewrite lookup_alter_eq, decide_True by auto. done.
    + rewrite lookup_alter_ne, decide_False by naive_solver. done.
Qed.

Lemma set_parent_alter parent p s :
  p ∈ pins (store s) -> tree_page (nodes (store s)) p ->
  set_parent parent p s =
  Ok (tt, edit (alter (reparented parent) p (nodes (store s))) ({[p]} ∪ unsaved (store s)) s).
Proof.
  intros Hin (n & hd & Hn & Hh & _). rewrite (set_parent_ok parent p n hd s Hin Hn Hh).
  do 2 f_equal. apply upd_eq; [done| |done|done]. apply map_eq. intros q.
  destruct (decide (q = p)) as [->|Hne].
  - by rewrite lookup_insert_eq, lookup_alter_eq, Hn.
  - by rewrite lookup_insert_ne, lookup_alter_ne.
Qed.

Lemma pending_known h fs told k tnew s q :
  pending h fs told k tnew s -> q ∈ ids told ++ ids tnew ++ context_ids fs -> tree_page (nodes (store s)) q.
Proof.
  intros []. rewrite !elem_of_app. intros [Hq|[Hq|Hq]].
  - exact (holds_known _ _ _ _ _ _ _ pe_old0 Hq).
  - exact (holds_known _ _ _ _ _ _ _ pe_new0 Hq).
  - exact (context_known _ _ _ _ _ _ _ pe_context0 Hq).
Qed.

Lemma pending_disjoint h fs told k tnew s :
  pending h fs told k tnew s ->
  (forall q, q ∈ ids told -> (q ∉ ids tnew) /\ (q ∉ context_ids fs)) /\
  (forall q, q ∈ ids tnew -> (q ∉ ids told) /\ (q ∉ context_ids fs)).
Proof.
  intros H. pose proof (pe_nodup _ _ _ _ _ _ H) as (H1 & H2 & (H3 & H4 & H5)%NoDup_app)%NoDup_app.
  split; intros q Hq; split; intros Hn.
  - apply (H2 q Hq). apply elem_of_app. by left.
  - apply (H2 q Hq). apply elem_of_app. by right.
  - apply (H2 q Hn). apply elem_of_app. by left.
  - by apply (H4 q).
Qed.

(** Two trees that wait for a common parent: distinct pages of the tree, before the next id. *)
Lemma pending_pair h fs told k tnew s : pending h fs told k tnew s ->
  tid told <> tid tnew /\ HEADER_PAGE_ID < tid told < next (store s) /\ HEADER_PAGE_ID < tid tnew < next (store s) /\
  tree_page (nodes (store s)) (tid told) /\ tree_page (nodes (store s)) (tid tnew).
Proof.
  intros H. assert (Hids : forall t, t = told \/ t = tnew -> tid t ∈ ids told ++ ids tnew ++ context_ids fs).
  { intros t Ht. rewrite !elem_of_app. destruct Ht as [->| ->]; [left|right; left]; apply tid_ids. }
  split; [|split; [|split; [|split]]].
  - intros E. destruct (proj1 (pending_disjoint _ _ _ _ _ _ H) (tid told) (tid_ids _)) as [Hd _].
    apply Hd. rewrite E. apply tid_ids.
  - apply (pe_ids _ _ _ _ _ _ H), Hids. by left.
  - apply (pe_ids _ _ _ _ _ _ H), Hids. by right.
  - eapply pending_known; [done|]. apply Hids. by left.
  - eapply pending_known; [done|]. apply Hids. by right.
Qed.

(** The pages once a new root [R] has taken [a] and [b]. *)
Lemma new_root_lookup (m : gmap Z (Node K V)) R p a b q : a <> b -> a <> R -> b <> R ->
  reroot R a b (<[R := InternalNode p]> (<[R := RawPage]> m)) !! q =
  if decide (q = a \/ q = b) then reparented R <$> m !! q
  else if decide (q = R) then Some (InternalNode p) else m !! q.
Proof.
  intros Hab Ha Hb. rewrite reroot_lookup, insert_insert_eq by done. destruct (decide (q = a \/ q = b)).
  - rewrite lookup_insert_ne by naive_solver. done.
  - destruct (decide (q = R)) as [->|Hq]; [apply lookup_insert_eq|by apply lookup_insert_ne].
Qed.

(** The run of [grow_root], and the contents it leaves. *)
Lemma grow_root_run h told k tnew s :
  pending h [] told k tnew s -> room 2 s ->
  let R := next (store s) in
  exists p' buf m' u',
    grow_root key_size zero_key index_name (tid told) k (tid tnew) s =
      Ok (tt, upd m' (pins (store s)) u' (R + 1) (set_root R s)) /\
    internal_is INVALID_PAGE_ID R [(k, tid told); (k, tid tnew)] p' /\
    header_ok R m' /\ u' ⊆ unsaved (store s) ∪ {[tid told; tid tnew]} /\
    (forall q, m' !! q = if decide (q = HEADER_PAGE_ID) then Some (HeaderNode buf)
                         else if decide (q = tid told \/ q = tid tnew)
                              then reparented R <$> nodes (store s) !! q
                              else if decide (q = R) then Some (InternalNode p')
                              else nodes (store s) !! q).
Proof.
  intros H Hr R. unfold grow_root. destruct (pe_pins _ _ _ _ _ _ H) as [Ho Hn].
  destruct (pending_pair _ _ _ _ _ _ H) as (Hne & Hto & Htn & Hpo & Hpn). fold R in Hto, Htn.
  destruct (pe_header _ _ _ _ _ _ H) as (root & rs & (b & Hb & Hrep) & Hrec).
  unfold HEADER_PAGE_ID in *.
  assert (HRinv : R <> INVALID_PAGE_ID) by (unfold INVALID_PAGE_ID; lia).
  rewrite (bind_run _ _ _ _ _ (new_page_ok s _ Hr)). fold R. cbv beta iota.
  set (s1 := upd _ _ _ _ s). rewrite (bind_run _ _ s1 R s1 eq_refl).
  assert (HR : R ∈ pins (store s1)) by apply elem_of_pinned.
  assert (Ho1 : tid told ∈ pins (store s1)) by (by apply elem_of_pinned_r).
  assert (Hn1 : tid tnew ∈ pins (store s1)) by (by apply elem_of_pinned_r).
  erewrite bind_run by (apply (get_internal_ok _ _ R RawPage); [done|apply lookup_insert_eq|reflexivity]).
  cbv zeta. rewrite (bind_run _ _ _ _ _ (tree_page_id_ok (tid told) s1 Ho1 ltac:(apply tree_page_insert_ne; [done|lia]))).
  rewrite (bind_run _ _ _ _ _ (tree_page_id_ok (tid tnew) s1 Hn1 ltac:(apply tree_page_insert_ne; [done|lia]))).
  destruct (populate_ok INVALID_PAGE_ID R _ (tid told) k (tid tnew)
              (internal_init_is _ _ zero_key Hsizes INVALID_PAGE_ID R)) as (p' & Hp' & Hip').
  rewrite (bind_run _ _ s1 p' s1) by (by apply lift_ok).
  rewrite (bind_run _ _ _ _ _ (put_internal_ok R p' s1 HR)). set (s2 := put R _ s1).
  rewrite (bind_run _ _ _ _ _ (set_parent_alter R (tid told) s2 Ho1
    ltac:(apply tree_page_insert_ne; [apply tree_page_insert_ne; [done|lia]|lia]))).
  set (s3 := edit _ _ s2).
  assert (Hp3 : tree_page (nodes (store s3)) (tid tnew)).
  { destruct Hpn as (n & hd & Hn' & Hh). exists n, hd. split; [|done]. etrans; [by apply lookup_alter_ne|].
    etrans; [apply lookup_insert_ne; lia|]. etrans; [apply lookup_insert_ne; lia|done]. }
  rewrite (bind_run _ _ _ _ _ (set_parent_alter R (tid tnew) s3 Hn1 Hp3)).
  set (s4 := edit _ _ s3). rewrite (bind_run _ _ s4 tt (set_root R s4) eq_refl). set (s5 := set_root R s4).
  assert (Hlk : forall q, nodes (store s5) !! q =
    if decide (q = tid told \/ q = tid tnew) then reparented R <$> nodes (store s) !! q
    else if decide (q = R) then Some (InternalNode p') else nodes (store s) !! q).
  { intros q. apply new_root_lookup; lia. }
  destruct (update_root_ok root s5 0) as (buf & Hu & Hok).
  { exists rs. split; [|done]. exists b. split; [|done]. rewrite Hlk.
    unfold HEADER_PAGE_ID. by rewrite !decide_False by lia. }
  { by apply (room_more 1). }
  rewrite (bind_run _ _ _ _ _ Hu). set (s6 := edit _ _ s5).
  rewrite (bind_run _ _ _ _ _ (unpin_ok R s6 HR HRinv)).
  eexists p', buf, _, _. split; [|split; [done|split; [exact Hok|split]]].
  - unfold ret. do 2 f_equal. apply upd_eq; [done|done| |reflexivity]. apply unpin_pinned.
  - cbn [s6 s5 s4 s3 s2 s1 edit put upd set_store set_root store unsaved]. set_solver.
  - intros q. destruct (decide (q = 1)) as [->|Hq]; [apply lookup_insert_eq|].
    etrans; [by apply lookup_insert_ne|apply Hlk].
Qed.

(** What a run of InsertIntoParent guarantees. *)
Definition inserted (fuel : nat) (h : nat) (fs : list (frame K V)) (told : tree K V) (k : K)
    (tnew : tree K V) (run : M K V unit) (s : State K V) : Prop :=
  exists s' h' t', run s = Ok (tt, s') /\
    grown s s' (ids told ++ ids tnew ++ context_ids fs) {[tid told; tid tnew]} h' t' /\
    tokens t' = left_of fs ++ tokens told ++ Sep k :: tokens tnew ++ right_of fs /\
    (h' <= S (length fs + h))%nat /\
    (root_page_id_ s = tid (fill fs told) -> root_page_id_ s' = tid t') /\
    (header_ok (root_page_id_ s) (nodes (store s)) -> header_ok (root_page_id_ s') (nodes (store s'))).

Lemma grow_root_ok fuel h told k tnew s :
  pending h [] told k tnew s -> room 2 s ->
  inserted fuel h [] told k tnew (grow_root key_size zero_key index_name (tid told) k (tid tnew)) s.
Proof.
  intros H Hr. destruct (grow_root_run _ _ _ _ _ H Hr) as (p' & buf & m' & u' & Hrun & Hp' & Hok & Hu & Hlk).
  set (R := next (store s)) in *. pose proof (pending_disjoint _ _ _ _ _ _ H) as [Hdo Hdn].
  assert (Hids : forall q, q ∈ ids told ++ ids tnew ++ [] -> q <> HEADER_PAGE_ID /\ q < R).
  { intros q Hq. pose proof (pe_ids _ _ _ _ _ _ H q Hq). lia. }
  assert (Hchild : forall t, t = told \/ t = tnew -> holds h m' R t).
  { intros t Ht. apply (holds_reparent _ _ h (nodes (store s)) _ INVALID_PAGE_ID).
    - destruct Ht as [->| ->]; apply H.
    - pose proof (pe_nodup _ _ _ _ _ _ H) as (H1 & _ & (H3 & _)%NoDup_app)%NoDup_app.
      by destruct Ht as [->| ->].
    - assert (Hq : tid t ∈ ids told ++ ids tnew ++ []).
      { rewrite !elem_of_app. destruct Ht as [->| ->]; [left|right; left]; apply tid_ids. }
      destruct (Hids _ Hq). rewrite Hlk, decide_False, decide_True by naive_solver. done.
    - intros q Hq Hne.
      assert (Hin : q ∈ ids told ++ ids tnew ++ []).
      { rewrite !elem_of_app. destruct Ht as [->| ->]; auto. }
      destruct (Hids _ Hin) as [Hq1 HqR]. rewrite Hlk, !decide_False; [done|lia| |done].
      pose proof (tid_ids told) as Hto. pose proof (tid_ids tnew) as Htn.
      destruct Ht as [->| ->]; intros [->| ->]; try done.
      + by apply (proj1 (Hdo _ Hq)). + by apply (proj1 (Hdn _ Hq)). }
  assert (HR : forall q, q ∈ ids told ++ ids tnew ++ [] -> q <> R) by (intros q Hq; destruct (Hids q Hq); lia).
  exists (upd m' (pins (store s)) u' (R + 1) (set_root R s)), (S h), (TNode R [(k, told); (k, tnew)]).
  split; [done|]. split; [|split; [|split; [simpl; lia|done]]].
  2:{ cbn [tokens map concat]. simpl. by rewrite !app_nil_r. }
  assert (Hm : m' !! R = Some (InternalNode p')).
  { assert (Ho : tid told ∈ ids told ++ ids tnew ++ []) by (rewrite elem_of_app; left; apply tid_ids).
    assert (Hn : tid tnew ∈ ids told ++ ids tnew ++ [])
      by (rewrite !elem_of_app; right; left; apply tid_ids).
    pose proof (pe_ids _ _ _ _ _ _ H _ Ho). pose proof (HR _ Ho). pose proof (HR _ Hn).
    rewrite Hlk, (decide_False (P := R = HEADER_PAGE_ID)) by (unfold R; lia).
    rewrite decide_False by naive_solver. by rewrite decide_True. }
  destruct (pe_fit _ _ _ _ _ _ H) as (Hf1 & Hf2 & _).
  split; cbn [upd set_store set_root store nodes pins next unsaved]; try done.
  - exists p'. split; [done|]. split; [done|]. repeat constructor; apply Hchild; auto.
  - split; [simpl; lia|]. by repeat constructor.
  - rewrite ids_node. apply NoDup_cons. split.
    + unfold forest_ids. simpl. intros Hq. by apply (HR R).
    + apply H.
  - intros q Hq. rewrite ids_node. by right.
  - intros q. rewrite ids_node. intros [->|Hq]%elem_of_cons; [right; unfold R; lia|by left].
  - intros q Hq Hh Hn. rewrite Hlk, !decide_False; [done|lia| |done].
    intros [->| ->]; apply Hq; rewrite !elem_of_app; [left|right; left]; apply tid_ids.
  - unfold R. lia.
Qed.

(** ** A parent with room *)

(** The node of the frame with a second child next to the hole's. *)
Definition widen (f : frame K V) (told : tree K V) (k : K) (tnew : tree K V) : tree K V :=
  plug (mkFrame (f_id f) (f_left f) (f_key f) ((k, tnew) :: f_right f)) told.

Lemma tokens_widen f told k tnew :
  tokens (widen f told k tnew) =
  frame_left f ++ tokens told ++ Sep k :: tokens tnew ++ frame_right f.
Proof. unfold widen. by rewrite tokens_plug. Qed.

Lemma ids_widen f told k tnew : ids (widen f told k tnew) ≡ₚ ids told ++ ids tnew ++ frame_ids f.
Proof.
  unfold widen. rewrite ids_plug. unfold frame_ids. cbn [f_id f_left f_right].
  rewrite forest_ids_cons. solve_Permutation.
Qed.

Lemma tid_fill fs t t' : tid t = tid t' -> tid (fill fs t) = tid (fill fs t').
Proof. revert t t'. induction fs as [|f fs IH]; intros t t' Ht; [done|]. by apply IH. Qed.

Lemma forest_holds h m m' parent (kcs : list (K * tree K V)) (old : Z) :
  Forall (fun kc => holds h m parent kc.2) kcs -> old ∉ forest_ids kcs ->
  (forall q, q <> old -> m' !! q = m !! q) -> Forall (fun kc => holds h m' parent kc.2) kcs.
Proof.
  intros H Hn Hm. apply (forest_agree _ _ h m); [done|]. intros q Hq. apply Hm. by intros ->.
Qed.

Lemma tid_forest (kcs : list (K * tree K V)) q : q ∈ (cells kcs).*2 -> q ∈ forest_ids kcs.
Proof.
  rewrite cells_ids. intros Hq. apply list_elem_of_In, in_map_iff in Hq as (kc & <- & Hkc).
  apply elem_of_forest. exists kc. split; [by apply list_elem_of_In|apply tid_ids].
Qed.

Lemma pending_ids_frame h f fs told k tnew s q :
  pending h (f :: fs) told k tnew s -> q ∈ frame_ids f -> q ∈ ids told ++ ids tnew ++ context_ids (f :: fs).
Proof. intros _ Hq. rewrite context_ids_cons, !elem_of_app. auto. Qed.

(** The part of InsertIntoParent after the parent's page is fetched. *)
Definition in_parent (fuel : nat) (f : frame K V) (told : tree K V) (k : K) (tnew : tree K V) : M K V unit :=
  run!
    (if internal_max <? Z.of_nat (length (f_left f) + 1 + length (f_right f)) + 1 then
       let! (new_page, pop_key) :=
         split_parent key_size value_size zero_key zero_value cmp (f_id f) (tid told) k (tid tnew) in
       run! InsertIntoParent fuel (f_id f) pop_key new_page ;;
       let! new_id := GetPageId new_page in
       run! UnpinPage new_id true ;; ret tt
     else insert_after key_size zero_key (f_id f) (tid told) k (tid tnew)) ;;
  run! UnpinPage (f_id f) true ;; ret tt.

Lemma frame_id_valid h f fs told k tnew s :
  pending h (f :: fs) told k tnew s -> HEADER_PAGE_ID < f_id f < next (store s).
Proof. intros H. apply (pe_ids _ _ _ _ _ _ H), (pending_ids_frame _ _ _ _ _ _ _ _ H). left. Qed.

Lemma enter_parent fuel h f fs told k tnew s n :
  pending h (f :: fs) told k tnew s -> room (S n) s ->
  InsertIntoParent (S fuel) (tid told) k (tid tnew) s = in_parent fuel f told k tnew (pin_page (f_id f) s).
Proof.
  intros H Hr. pose proof (frame_id_valid _ _ _ _ _ _ _ H) as Hf. unfold HEADER_PAGE_ID in Hf.
  destruct (holds_root _ _ _ _ _ _ (pe_old _ _ _ _ _ _ H)) as (nd & hd & Hn & Hh & _ & Hpar & _).
  destruct (pe_context _ _ _ _ _ _ H) as ((p & Hp & Hi) & _ & _).
  cbn [BPlusTree.InsertIntoParent].
  rewrite (bind_run _ _ _ _ _ (parent_id_ok _ _ _ s (proj1 (pe_pins _ _ _ _ _ _ H)) Hn Hh)).
  rewrite Hpar. cbn [context_parent]. rewrite (proj2 (Z.eqb_neq _ INVALID_PAGE_ID)) by (unfold INVALID_PAGE_ID; lia).
  assert (Hfi : f_id f <> INVALID_PAGE_ID) by (unfold INVALID_PAGE_ID; lia).
  rewrite (bind_run _ _ _ _ _ (fetch_data_ok (f_id f) s n Hr Hfi (mk_is_Some _ _ Hp))).
  erewrite bind_run by (by apply (get_page_ok (f_id f) (InternalNode p)); [apply elem_of_pinned| |]).
  unfold in_parent. change (max_size_ (Internal.hdr p)) with (Internal.GetMaxSize p).
  change (size_ (Internal.hdr p)) with (Internal.GetSize p).
  rewrite (ii_max _ _ _ _ _ Hi), (internal_is_length _ _ _ _ _ Hi).
  rewrite length_app, length_cons, !cells_length.
  replace (length (f_left f) + S (length (f_right f)))%nat with (length (f_left f) + 1 + length (f_right f))%nat by lia.
  done.
Qed.

Lemma pending_old_not_left h f fs told k tnew s :
  pending h (f :: fs) told k tnew s -> tid told ∉ (cells (f_left f)).*2.
Proof.
  intros H Hq%tid_forest. destruct (pending_disjoint _ _ _ _ _ _ H) as [Hd _].
  apply (proj2 (Hd (tid told) (tid_ids _))). rewrite context_ids_cons, elem_of_app. left. right.
  rewrite elem_of_app. by left.
Qed.

Lemma insert_in_parent_run fuel h f fs told k tnew s :
  pending h (f :: fs) told k tnew s -> room 1 s ->
  Z.of_nat (length (f_left f) + 1 + length (f_right f)) < internal_max ->
  exists p',
    InsertIntoParent (S fuel) (tid told) k (tid tnew) s =
      Ok (tt, edit (<[f_id f := InternalNode p']> (nodes (store s)))
                   (unsaved (store s) ∖ {[f_id f]}) s) /\
    internal_is (context_parent fs) (f_id f)
      (cells (f_left f) ++ (f_key f, tid told) :: (k, tid tnew) :: cells (f_right f)) p'.
Proof.
  intros H Hr Hlen. pose proof (frame_id_valid _ _ _ _ _ _ _ H) as Hf. unfold HEADER_PAGE_ID in Hf.
  rewrite (enter_parent _ _ _ _ _ _ _ _ _ H Hr). unfold in_parent.
  rewrite (proj2 (Z.ltb_ge internal_max _)) by lia. set (s1 := pin_page (f_id f) s).
  destruct (pe_context _ _ _ _ _ _ H) as ((p & Hp & Hi) & _ & _). destruct (pe_pins _ _ _ _ _ _ H) as [Ho Hn].
  destruct (insert_node_ok (f_id f) (tid told) k (tid tnew) (context_parent fs) p
              (cells (f_left f)) (f_key f) (cells (f_right f)) s1) as (p' & Hins & Hi').
  { done. } { done. }
  { rewrite length_app, length_cons, !cells_length. lia. }
  { by eapply pending_old_not_left. } { apply elem_of_pinned. }
  { by apply elem_of_pinned_r. } { by apply elem_of_pinned_r. }
  { eapply (pending_known _ _ _ _ _ _ _ H). rewrite elem_of_app. left. apply tid_ids. }
  { eapply (pending_known _ _ _ _ _ _ _ H). rewrite !elem_of_app. right. left. apply tid_ids. }
  assert (Hfi : f_id f <> INVALID_PAGE_ID) by (unfold INVALID_PAGE_ID; lia).
  rewrite (bind_run _ _ _ _ _ Hins). set (s2 := put _ _ s1).
  rewrite (bind_run _ _ _ _ _ (unpin_ok (f_id f) s2 (elem_of_pinned _ _) Hfi)).
  exists p'. split; [|done]. unfold ret. do 2 f_equal. apply upd_eq; [done|done| |].
  - apply unpin_pinned.
  - cbn [s2 s1 put pin_page upd set_store store unsaved]. set_solver.
Qed.

Lemma widen_ids_context h f fs told k tnew s :
  pending h (f :: fs) told k tnew s ->
  ids (fill fs (widen f told k tnew)) ≡ₚ ids told ++ ids tnew ++ context_ids (f :: fs).
Proof. intros _. rewrite ids_fill, ids_widen, context_ids_cons. by rewrite <- !app_assoc. Qed.

(** The frame's own id is not among the others. *)
Lemma frame_id_fresh h f fs told k tnew s :
  pending h (f :: fs) told k tnew s ->
  (f_id f ∉ ids told) /\ (f_id f ∉ ids tnew) /\ (f_id f ∉ forest_ids (f_left f ++ f_right f)) /\
  (f_id f ∉ context_ids fs).
Proof.
  intros H. pose proof (pe_nodup _ _ _ _ _ _ H) as Hnd. rewrite context_ids_cons in Hnd.
  unfold frame_ids in Hnd. rewrite forest_ids_app.
  apply NoDup_app in Hnd as (_ & H1 & (_ & H2 & H3)%NoDup_app).
  cbn [app] in H1, H2, H3. apply NoDup_cons in H3 as [H3 _]. rewrite elem_of_app in H3.
  split; [intros Hq; apply (H1 _ Hq); rewrite elem_of_app; right; left|].
  split; [intros Hq; apply (H2 _ Hq); left|]. tauto.
Qed.

Lemma insert_in_parent_ok fuel h f fs told k tnew s :
  pending h (f :: fs) told k tnew s -> room 1 s ->
  Z.of_nat (length (f_left f) + 1 + length (f_right f)) < internal_max ->
  inserted (S fuel) h (f :: fs) told k tnew (InsertIntoParent (S fuel) (tid told) k (tid tnew)) s.
Proof.
  intros H Hr Hlen. destruct (insert_in_parent_run fuel _ _ _ _ _ _ _ H Hr Hlen) as (p' & Hrun & Hi').
  set (m' := <[f_id f := InternalNode p']> (nodes (store s))) in *.
  pose proof (widen_ids_context _ _ _ _ _ _ _ H) as Hperm.
  pose proof (frame_id_valid _ _ _ _ _ _ _ H) as Hf.
  assert (Hm' : forall q, q <> f_id f -> m' !! q = nodes (store s) !! q) by (intros; by apply lookup_insert_ne).
  destruct (frame_id_fresh _ _ _ _ _ _ _ H) as (Hn1 & Hn2 & Hn3 & Hn4).
  destruct (pe_context _ _ _ _ _ _ H) as (_ & [Hl Hrr]%Forall_app & Hctx).
  destruct (pe_fit _ _ _ _ _ _ H) as (Hf1 & Hf2 & Hlo & [Hfl Hfr]%Forall_app & Hf4).
  rewrite forest_ids_app, elem_of_app in Hn3.
  exists (edit m' (unsaved (store s) ∖ {[f_id f]}) s), (length fs + S h)%nat, (fill fs (widen f told k tnew)).
  split; [done|]. split; [|split; [|split; [simpl; lia|split]]].
  - split; cbn [edit upd set_store store nodes pins next unsaved]; try done.
    + apply fill_holds; [|apply (context_agree _ _ (S h) (nodes (store s))); [done|]].
      2:{ intros q Hq. apply Hm'. by intros ->. }
      exists p'. split; [apply lookup_insert_eq|]. split; [by rewrite cells_app|].
      apply Forall_app. split; [|constructor; [|constructor]].
      * apply (forest_holds h (nodes (store s)) _ _ _ (f_id f)); [done|tauto|done].
      * apply (holds_agree _ _ h (nodes (store s))); [apply H|]. intros q Hq. apply Hm'. by intros ->.
      * apply (holds_agree _ _ h (nodes (store s))); [apply H|]. intros q Hq. apply Hm'. by intros ->.
      * apply (forest_holds h (nodes (store s)) _ _ _ (f_id f)); [done|tauto|done].
    + apply fill_fit; [|done]. split.
      * rewrite length_app, !length_cons. cbn [f_left f_right]. rewrite length_cons. destruct (is_root fs); lia.
      * apply Forall_app. split; [done|]. by repeat constructor.
    + rewrite Hperm. apply H.
    + intros q Hq. by rewrite Hperm.
    + intros q Hq. left. by rewrite <- Hperm.
    + intros q Hq _ _. apply Hm'. intros ->. apply Hq.
      apply (pending_ids_frame _ _ _ _ _ _ _ _ H). left.
    + set_solver.
  - rewrite tokens_fill, tokens_widen. cbn [left_of right_of]. by repeat (rewrite <- app_assoc; simpl).
  - intros E. cbn [edit upd set_store root_page_id_]. rewrite E. by apply (tid_fill fs (plug f told)).
  - intros (rs & (buf & Hb & Hrep) & Hrec). exists rs. split; [|done]. exists buf. split; [|done].
    cbn [edit upd set_store store nodes]. rewrite Hm' by lia. done.
Qed.

(** ** A full parent *)

(** The cells of the frame's node before and after the insertion, and the number of them
    that stay in it when it splits at [c]. *)
Definition narrow (f : frame K V) (told : tree K V) : list (K * tree K V) :=
  f_left f ++ (f_key f, told) :: f_right f.
Definition wide (f : frame K V) (told : tree K V) (k : K) (tnew : tree K V) : list (K * tree K V) :=
  f_left f ++ (f_key f, told) :: (k, tnew) :: f_right f.
Definition cut (f : frame K V) (c : nat) : nat :=
  if decide (length (f_left f) < c)%nat then S c else c.

Lemma narrow_left f told c :
  (length (f_left f) < c)%nat ->
  take c (narrow f told) = f_left f ++ (f_key f, told) :: take (c - S (length (f_left f))) (f_right f).
Proof.
  intros Hc. unfold narrow. rewrite take_app_ge by lia.
  by replace (c - length (f_left f))%nat with (S (c - S (length (f_left f)))) by lia.
Qed.

Lemma wide_left f told k tnew c :
  (length (f_left f) < c)%nat ->
  take (S c) (wide f told k tnew) =
    f_left f ++ (f_key f, told) :: (k, tnew) :: take (c - S (length (f_left f))) (f_right f) /\
  drop (S c) (wide f told k tnew) = drop c (narrow f told).
Proof.
  intros Hc. unfold wide, narrow. rewrite take_app_ge, !drop_app_ge by lia.
  replace (S c - length (f_left f))%nat with (S (S (c - S (length (f_left f))))) by lia.
  by replace (c - length (f_left f))%nat with (S (c - S (length (f_left f)))) by lia.
Qed.

Lemma wide_right f told k tnew c :
  (c <= length (f_left f))%nat ->
  take c (wide f told k tnew) = take c (narrow f told) /\
  drop c (narrow f told) = drop c (f_left f) ++ (f_key f, told) :: f_right f /\
  drop c (wide f told k tnew) = drop c (f_left f) ++ (f_key f, told) :: (k, tnew) :: f_right f.
Proof. intros Hc. unfold wide, narrow. by rewrite !take_app_le, !drop_app_le by lia. Qed.

(** The separators of the node are on the sides of the hole their positions say. *)
Lemma frame_seps f told j x :
  narrow f told !! j = Some x -> (1 <= j)%nat ->
  ISep x.1 ∈ (if decide (j <= length (f_left f))%nat then items (frame_left f) else items (frame_right f)).
Proof.
  intros Hx Hj. unfold narrow in Hx. case_decide as Hle.
  - assert (Hne : f_left f <> []) by (intros E; rewrite E in Hle; simpl in Hle; lia).
    rewrite frame_left_some, items_app, elem_of_app by done.
    destruct (decide (j = length (f_left f))) as [->|Hne'].
    + rewrite list_lookup_middle in Hx by done. injection Hx as <-. right. left.
    + left. rewrite lookup_app_l in Hx by lia. destruct (f_left f) as [|[k0 t0] l]; [done|].
      destruct j as [|j]; [lia|]. simpl in Hx. rewrite weave_cons. simpl tail.
      rewrite items_app, elem_of_app. right. apply (cell_sep l (x.1, tid x.2)).
      apply list_elem_of_In, in_map_iff. exists x. split; [done|].
      apply list_elem_of_In. by apply list_elem_of_lookup_2 in Hx.
  - rewrite lookup_app_r in Hx by lia. destruct (j - length (f_left f))%nat as [|j'] eqn:E; [lia|].
    simpl in Hx. apply (cell_sep (f_right f) (x.1, tid x.2)), list_elem_of_In, in_map_iff.
    exists x. split; [done|]. apply list_elem_of_In. by apply list_elem_of_lookup_2 in Hx.
Qed.

(** The comparison with the middle key finds the half of the old child. *)
Lemma pop_key_side h f fs told k tnew s c x :
  pending h (f :: fs) told k tnew s -> narrow f told !! c = Some x -> (1 <= c)%nat ->
  (cmp k x.1 <? 0) = bool_decide (length (f_left f) < c)%nat.
Proof.
  intros H Hx Hc. pose proof (frame_seps _ _ _ _ Hx Hc) as Hsep. pose proof (pe_order _ _ _ _ _ _ H) as Ho.
  cbn [left_of right_of] in Ho.
  assert (Ho' : ordered cmp (frame_left f ++ tokens told ++ [Sep k] ++ tokens tnew ++ frame_right f)).
  { replace ((left_of fs ++ frame_left f) ++ tokens told ++ Sep k :: tokens tnew ++ frame_right f ++ right_of fs)
      with (left_of fs ++ (frame_left f ++ tokens told ++ [Sep k] ++ tokens tnew ++ frame_right f) ++ right_of fs)
      in Ho by (by repeat (rewrite <- app_assoc; simpl)).
    by apply ordered_app in Ho as (_ & (Ho & _)%ordered_app & _). }
  assert (Hin : forall y ts, y ∈ items ts -> forall l r : list (token K V), y ∈ items (l ++ ts ++ r)).
  { intros y ts Hy l r. rewrite !items_app, !elem_of_app. auto. }
  case_decide as Hle.
  - rewrite bool_decide_false by lia. apply Z.ltb_ge.
    apply ordered_app in Ho' as (_ & _ & Hb).
    specialize (Hb (ISep x.1) (ISep k) Hsep). simpl in Hb.
    assert (cmp x.1 k < 0); [|pose proof (ko_antisym x.1 k); lia].
    apply Hb. apply (Hin (ISep k) [Sep k]). left.
  - rewrite bool_decide_true by lia. apply Z.ltb_lt.
    rewrite app_assoc in Ho'. apply ordered_app in Ho' as (_ & (_ & _ & Hb)%ordered_app & _).
    apply (Hb (ISep k) (ISep x.1)); [left|]. rewrite items_app, elem_of_app. by right.
Qed.

(** The children of the frame's node are pages of the trees in hand. *)
Lemma narrow_children h f fs told k tnew s q :
  pending h (f :: fs) told k tnew s -> q ∈ forest_ids (narrow f told) ->
  q ∈ ids told ++ ids tnew ++ context_ids (f :: fs) /\ q <> f_id f /\ (q ∉ ids tnew).
Proof.
  intros H. unfold narrow. rewrite forest_ids_app, forest_ids_cons, !elem_of_app. intros Hq.
  destruct (frame_id_fresh _ _ _ _ _ _ _ H) as (H1 & _ & H3 & _). rewrite forest_ids_app, elem_of_app in H3.
  destruct (pending_disjoint _ _ _ _ _ _ H) as [Hdo Hdn].
  assert (Hc : q ∈ ids told \/ q ∈ context_ids (f :: fs)).
  { rewrite context_ids_cons. unfold frame_ids. rewrite !elem_of_app, elem_of_cons, elem_of_app. tauto. }
  split; [tauto|]. split; [intros ->; tauto|].
  intros Hn. destruct (Hdn q Hn). tauto.
Qed.

(** The page a new child goes to, and its cells before and after. *)
Lemma half_cells f told k tnew c :
  let half_left := bool_decide (length (f_left f) < c)%nat in
  let before := if half_left then take c (narrow f told) else drop c (narrow f told) in
  exists cl cr, before = cl ++ (f_key f, told) :: cr /\
    (if half_left then take (cut f c) (wide f told k tnew) else drop (cut f c) (wide f told k tnew)) =
      cl ++ (f_key f, told) :: (k, tnew) :: cr /\
    (if half_left then drop (cut f c) (wide f told k tnew) = drop c (narrow f told)
     else take (cut f c) (wide f told k tnew) = take c (narrow f told)) /\
    (forall x, x ∈ cl -> x ∈ f_left f).
Proof.
  cbv zeta. unfold cut. case_bool_decide as Hc.
  - rewrite decide_True by done. destruct (wide_left f told k tnew c Hc) as [H1 H2].
    exists (f_left f), (take (c - S (length (f_left f))) (f_right f)).
    split; [by apply narrow_left|]. done.
  - rewrite decide_False by done. destruct (wide_right f told k tnew c) as (H1 & H2 & H3); [lia|].
    exists (drop c (f_left f)), (f_right f). split; [done|]. split; [done|]. split; [done|].
    intros x Hx. rewrite <- (take_drop c (f_left f)), elem_of_app. by right.
Qed.

(** The new child in one half, which becomes its parent. *)
Lemma half_step {A} (r : A) half old new k parent p (cl : list (K * Z)) kc cr s :
  nodes (store s) !! half = Some (InternalNode p) ->
  internal_is parent half (cl ++ (kc, old) :: cr) p ->
  Z.of_nat (length (cl ++ (kc, old) :: cr)) < internal_max -> old ∉ cl.*2 ->
  half ∈ pins (store s) -> old ∈ pins (store s) -> new ∈ pins (store s) ->
  tree_page (nodes (store s)) old -> tree_page (nodes (store s)) new -> new <> half ->
  exists p',
    (run! insert_after key_size zero_key half old k new ;;
     let! half_id := GetPageId half in
     run! set_parent half_id new ;; ret r) s =
      Ok (r, edit (alter (reparented half) new (<[half := InternalNode p']> (nodes (store s))))
                  ({[new]} ∪ ({[half]} ∪ unsaved (store s))) s) /\
    internal_is parent half (cl ++ (kc, old) :: (k, new) :: cr) p'.
Proof.
  intros Hp Hi Hlen Hn Hin Ho Hnw Hto Htn Hne.
  destruct (insert_node_ok half old k new parent p cl kc cr s Hp Hi Hlen Hn Hin Ho Hnw Hto Htn)
    as (p' & Hins & Hi').
  exists p'. split; [|done]. rewrite (bind_run _ _ _ _ _ Hins). set (s1 := put _ _ s).
  assert (Hh : tree_page (nodes (store s1)) half)
    by (eapply internal_tree_page; [apply lookup_insert_eq|exact Hi']).
  rewrite (bind_run _ _ _ _ _ (tree_page_id_ok half s1 Hin Hh)).
  rewrite (bind_run _ _ _ _ _ (set_parent_alter half new s1 Hnw ltac:(by apply tree_page_insert_ne))).
  done.
Qed.

(** The key and the children of a cell of the page. *)
Lemma key_at_zero parent id p (x : K * Z) cs :
  internal_is parent id (x :: cs) p -> Internal.KeyAt 0 p = Ok x.1.
Proof.
  intros Hi. unfold Internal.KeyAt. rewrite assert_ok.
  - change 0 with (Z.of_nat 0). rewrite (Internal.internal_cell_entry p 0 x), bind_ok; [done|].
    by rewrite (ii_entries _ _ _ _ _ Hi).
  - rewrite (ii_max _ _ _ _ _ Hi). pose proof (so_internal _ _ Hsizes) as [H2 _].
    apply andb_true_iff. split; [done|]. apply Z.ltb_lt. lia.
Qed.

Lemma split_frame h f fs told k tnew s :
  pending h (f :: fs) told k tnew s -> room 3 s ->
  let N := next (store s) in
  let c := (length (narrow f told) / 2)%nat in
  exists p' r' m' u',
    Split key_size value_size zero_key zero_value KInternal (f_id f) (pin_page (f_id f) s) =
      Ok (N, upd m' ({[+ N +]} ⊎ ({[+ f_id f +]} ⊎ pins (store s))) u' (N + 1) s) /\
    (forall q, m' !! q =
       if decide (q = N) then Some (InternalNode r')
       else if decide (q = f_id f) then Some (InternalNode p')
       else if decide (q ∈ (cells (drop c (narrow f told))).*2) then reparented N <$> nodes (store s) !! q
       else nodes (store s) !! q) /\
    internal_is (context_parent fs) (f_id f) (cells (take c (narrow f told))) p' /\
    internal_is (context_parent fs) N (cells (drop c (narrow f told))) r' /\
    u' ⊆ unsaved (store s) ∪ {[f_id f; N]}.
Proof.
  intros H Hr N c. destruct (pe_context _ _ _ _ _ _ H) as ((p & Hp & Hi) & _ & _).
  assert (Hcells : cells (f_left f) ++ (f_key f, tid told) :: cells (f_right f) = cells (narrow f told)).
  { unfold narrow. by rewrite cells_app. }
  rewrite Hcells in Hi. pose proof (frame_id_valid _ _ _ _ _ _ _ H) as Hf. unfold HEADER_PAGE_ID in Hf.
  destruct (split_internal_ok key_size value_size zero_key zero_value Hsizes (f_id f) p (context_parent fs)
    (cells (narrow f told)) (pin_page (f_id f) s) 0) as (p' & r' & m' & u' & Hs & Hm & Hip & Hir & Hu).
  { done. } { done. } { apply elem_of_pinned. } { by apply room_more. }
  { change (next (store (pin_page (f_id f) s))) with N. unfold N. lia. }
  { intros q Hq. rewrite <- cells_drop in Hq. apply tid_forest in Hq.
    assert (Hq' : q ∈ forest_ids (narrow f told)).
    { rewrite <- (take_drop (length (cells (narrow f told)) / 2) (narrow f told)), forest_ids_app, elem_of_app.
      by right. }
    destruct (narrow_children _ _ _ _ _ _ _ _ H Hq') as (Hin & Hne & _).
    pose proof (pe_ids _ _ _ _ _ _ H q Hin) as Hb. unfold HEADER_PAGE_ID in Hb.
    split; [by apply (pending_known _ _ _ _ _ _ _ H)|].
    change (next (store (pin_page (f_id f) s))) with N. unfold N, INVALID_PAGE_ID. split; [lia|]. split; [done|lia]. }
  rewrite cells_length in Hm, Hip, Hir. fold c in Hm, Hip, Hir. rewrite <- cells_drop in Hm, Hir.
  rewrite <- cells_take in Hip. exists p', r', m', u'. done.
Qed.

Lemma split_page_kept h f fs told k tnew s p' r' m' q :
  pending h (f :: fs) told k tnew s ->
  let N := next (store s) in
  let c := (length (narrow f told) / 2)%nat in
  (forall q, m' !! q =
     if decide (q = N) then Some (InternalNode r')
     else if decide (q = f_id f) then Some (InternalNode p')
     else if decide (q ∈ (cells (drop c (narrow f told))).*2) then reparented N <$> nodes (store s) !! q
     else nodes (store s) !! q) ->
  q ∈ ids told ++ ids tnew -> tree_page m' q.
Proof.
  intros H N c Hm Hq.
  assert (Hq' : q ∈ ids told ++ ids tnew ++ context_ids (f :: fs)).
  { rewrite app_assoc, elem_of_app. by left. }
  pose proof (pe_ids _ _ _ _ _ _ H q Hq') as Hb. unfold HEADER_PAGE_ID in Hb.
  destruct (pending_known _ _ _ _ _ _ _ H Hq') as (n & hd & Hn & Hh & Hid).
  destruct (frame_id_fresh _ _ _ _ _ _ _ H) as (H1 & H2 & _).
  unfold tree_page. setoid_rewrite Hm. rewrite decide_False by (unfold N; lia).
  rewrite decide_False by (intros ->; apply elem_of_app in Hq; tauto).
  case_decide; [|by eauto]. rewrite Hn. exists (reparented N n), (SetParentPageId N hd).
  split; [done|]. split; [by apply as_page_reparented|done].
Qed.

(** Where the two children of the split page lie. *)
Lemma pending_new_places h f fs told k tnew s c :
  pending h (f :: fs) told k tnew s ->
  (tid tnew ∉ (cells (drop c (narrow f told))).*2) /\ tid tnew <> f_id f /\ 1 < tid tnew < next (store s).
Proof.
  intros H. split; [|split].
  - intros Hq%tid_forest. destruct (narrow_children _ _ _ _ _ _ _ (tid tnew) H) as (_ & _ & Hd).
    + rewrite <- (take_drop c (narrow f told)), forest_ids_app, elem_of_app. by right.
    + apply Hd, tid_ids.
  - destruct (frame_id_fresh _ _ _ _ _ _ _ H) as (_ & Hfn & _). intros E. apply Hfn. rewrite <- E. apply tid_ids.
  - apply (pe_ids _ _ _ _ _ _ H). rewrite !elem_of_app. right. left. apply tid_ids.
Qed.

Lemma half_room h f fs told k tnew s c (cl cr : list (K * tree K V)) :
  pending h (f :: fs) told k tnew s -> Z.of_nat (length (narrow f told)) = internal_max ->
  (1 <= c < length (narrow f told))%nat ->
  (if bool_decide (length (f_left f) < c)%nat then take c (narrow f told) else drop c (narrow f told)) =
    cl ++ (f_key f, told) :: cr ->
  (forall x, x ∈ cl -> x ∈ f_left f) ->
  Z.of_nat (length (cells cl ++ (f_key f, tid told) :: cells cr)) < internal_max /\ tid told ∉ (cells cl).*2.
Proof.
  intros H Hfull Hc Hbef Hsub. split.
  - apply (f_equal length) in Hbef. rewrite length_app, length_cons, !cells_length.
    rewrite length_app, length_cons in Hbef. rewrite <- Hbef.
    case_bool_decide; rewrite ?length_take, ?length_drop; lia.
  - intros Hq. apply (pending_old_not_left _ _ _ _ _ _ _ H).
    rewrite cells_ids in *. apply list_elem_of_In, in_map_iff in Hq as (y & <- & Hy).
    apply list_elem_of_In, in_map_iff. exists y. split; [done|].
    apply list_elem_of_In, Hsub. by apply list_elem_of_In.
Qed.

(** The pages after the new child has gone to one half, [pn] being the page of that half. *)
Lemma split_contents h f fs told k tnew s p' r' pn m' (left_half : bool) :
  pending h (f :: fs) told k tnew s ->
  let N := next (store s) in
  let c := (length (narrow f told) / 2)%nat in
  let half := if left_half then f_id f else N in
  (forall q, m' !! q =
     if decide (q = N) then Some (InternalNode r')
     else if decide (q = f_id f) then Some (InternalNode p')
     else if decide (q ∈ (cells (drop c (narrow f told))).*2) then reparented N <$> nodes (store s) !! q
     else nodes (store s) !! q) ->
  f_id f < N ->
  forall q, alter (reparented half) (tid tnew) (<[half := InternalNode pn]> m') !! q =
    if decide (q = tid tnew) then reparented half <$> nodes (store s) !! q
    else if decide (q = N) then Some (InternalNode (if left_half then r' else pn))
    else if decide (q = f_id f) then Some (InternalNode (if left_half then pn else p'))
    else if decide (q ∈ (cells (drop c (narrow f told))).*2) then reparented N <$> nodes (store s) !! q
    else nodes (store s) !! q.
Proof.
  intros H N c half Hm HfN q. destruct (pending_new_places _ _ _ _ _ _ _ c H) as (Hnd & Hnf & Hnb). fold N in Hnb.
  destruct (decide (q = tid tnew)) as [->|Hq].
  - rewrite lookup_alter_eq, lookup_insert_ne by (unfold half; destruct left_half; congruence || lia).
    rewrite Hm. by rewrite !decide_False by (done || lia).
  - rewrite lookup_alter_ne by done. unfold half. clearbody N. destruct left_half.
    + destruct (decide (q = f_id f)) as [->|Hqf]; [by rewrite lookup_insert_eq, decide_False by lia|].
      by rewrite lookup_insert_ne, Hm, !(decide_False (P := q = f_id f)) by done.
    + destruct (decide (q = N)) as [->|HqN]; [by rewrite lookup_insert_eq|].
      by rewrite lookup_insert_ne, Hm, !(decide_False (P := q = N)) by done.
Qed.

Lemma split_parent_run h f fs told k tnew s :
  pending h (f :: fs) told k tnew s -> room 3 s ->
  Z.of_nat (length (narrow f told)) = internal_max ->
  let N := next (store s) in
  let c := (length (narrow f told) / 2)%nat in
  let half := if bool_decide (length (f_left f) < c)%nat then f_id f else N in
  exists x pf rf m u,
    narrow f told !! c = Some x /\
    split_parent key_size value_size zero_key zero_value cmp (f_id f) (tid told) k (tid tnew)
      (pin_page (f_id f) s) =
      Ok ((N, x.1), upd m ({[+ N +]} ⊎ ({[+ f_id f +]} ⊎ pins (store s))) u (N + 1) s) /\
    internal_is (context_parent fs) (f_id f) (cells (take (cut f c) (wide f told k tnew))) pf /\
    internal_is (context_parent fs) N (cells (drop (cut f c) (wide f told k tnew))) rf /\
    (forall q, m !! q = if decide (q = tid tnew) then reparented half <$> nodes (store s) !! q
                        else if decide (q = N) then Some (InternalNode rf)
                        else if decide (q = f_id f) then Some (InternalNode pf)
                        else if decide (q ∈ (cells (drop c (narrow f told))).*2)
                             then reparented N <$> nodes (store s) !! q
                             else nodes (store s) !! q) /\
    u ⊆ unsaved (store s) ∪ {[f_id f; N; tid tnew]}.
Proof.
  intros H Hr Hfull N c half. pose proof (so_internal _ _ Hsizes) as [Hmax _].
  destruct (split_frame _ _ _ _ _ _ _ H Hr) as (p' & r' & m' & u' & Hs & Hm & Hip & Hir & Hu).
  fold N in Hs, Hm, Hir, Hu. fold c in Hm, Hip, Hir.
  assert (Hc : (1 <= c)%nat /\ (c < length (narrow f told))%nat).
  { unfold c. split; [apply Nat.div_le_lower_bound; lia|apply Nat.div_lt; lia]. }
  destruct (lookup_lt_is_Some_2 (narrow f told) c (proj2 Hc)) as [x Hx].
  pose proof (pending_ids_frame _ _ _ _ _ _ _ (f_id f) H (list_elem_of_here _ _)) as Hfi.
  pose proof (pe_ids _ _ _ _ _ _ H _ Hfi) as Hf.
  assert (Htn : tid tnew ∈ ids told ++ ids tnew) by (rewrite elem_of_app; right; apply tid_ids).
  assert (Hto : tid told ∈ ids told ++ ids tnew) by (rewrite elem_of_app; left; apply tid_ids).
  unfold split_parent. rewrite (bind_run _ _ _ _ _ Hs). set (s2 := upd _ _ _ _ _).
  assert (HmN : nodes (store s2) !! N = Some (InternalNode r')) by (cbn; by rewrite Hm, decide_True).
  assert (Hmf : nodes (store s2) !! f_id f = Some (InternalNode p')).
  { cbn. rewrite Hm, decide_False, decide_True by (unfold N; lia || done). done. }
  erewrite bind_run by (apply (get_internal_ok _ _ N (InternalNode r')); [apply elem_of_pinned|done|done]).
  rewrite (bind_run _ _ s2 x.1 s2).
  2:{ apply lift_ok. rewrite (drop_S _ x c Hx) in Hir. by apply (key_at_zero _ _ _ _ _ Hir). }
  rewrite (pop_key_side _ _ _ _ _ _ _ _ _ H Hx (proj1 Hc)). fold half. cbv zeta.
  destruct (half_cells f told k tnew c) as (cl & cr & Hbef & Haft & Hoth & Hsub).
  destruct (half_room _ _ _ _ _ _ _ _ _ _ H Hfull Hc Hbef Hsub) as [Hhl Hho].
  set (ph := if bool_decide (length (f_left f) < c)%nat then p' else r').
  assert (Hph : nodes (store s2) !! half = Some (InternalNode ph)) by (unfold half, ph; by case_bool_decide).
  assert (Hiph : internal_is (context_parent fs) half (cells cl ++ (f_key f, tid told) :: cells cr) ph).
  { change (cells cl ++ (f_key f, tid told) :: cells cr) with (cells cl ++ cells ((f_key f, told) :: cr)).
    rewrite <- cells_app, <- Hbef. unfold half, ph. by case_bool_decide. }
  assert (Hhalf : half ∈ pins (store s2)).
  { unfold half. case_bool_decide; [apply elem_of_pinned_r|]; apply elem_of_pinned. }
  destruct (half_step (N, x.1) half (tid told) (tid tnew) k (context_parent fs) ph (cells cl) (f_key f)
              (cells cr) s2) as (pn & Hrun & Hipn);
    [done|done|done|done|done| | | | | |].
  1-2: apply elem_of_pinned_r, elem_of_pinned_r, (pe_pins _ _ _ _ _ _ H).
  1-2: by apply (split_page_kept _ _ _ _ _ _ _ _ _ _ _ H Hm).
  { destruct (pending_new_places _ _ _ _ _ _ _ c H) as (_ & Hnf & Hnb). unfold half, N. case_bool_decide; [done|lia]. }
  rewrite Hrun.
  change (cells cl ++ (f_key f, tid told) :: (k, tid tnew) :: cells cr)
    with (cells cl ++ cells ((f_key f, told) :: (k, tnew) :: cr)) in Hipn.
  rewrite <- cells_app, <- Haft in Hipn.
  exists x, (if bool_decide (length (f_left f) < c)%nat then pn else p'),
    (if bool_decide (length (f_left f) < c)%nat then r' else pn),
    (alter (reparented half) (tid tnew) (<[half := InternalNode pn]> m')),
    ({[tid tnew]} ∪ ({[half]} ∪ u')).
  split; [done|]. split; [done|]. split; [|split; [|split]].
  - unfold half in Hipn. case_bool_decide; [done|by rewrite Hoth].
  - unfold half in Hipn. case_bool_decide; [by rewrite Hoth|done].
  - apply (split_contents h f fs told k tnew s p' r' pn m' _ H Hm). fold N. lia.
  - assert (Hh : half = f_id f \/ half = N) by (unfold half; case_bool_decide; auto).
    clear - Hu Hh. clearbody half N. destruct Hh as [->| ->]; set_solver.
Qed.

(** ** The split pages as a pending pair *)

Lemma forest_moved h m m' parent parent' (kcs : list (K * tree K V)) :
  Forall (fun kc => holds h m parent kc.2) kcs -> NoDup (forest_ids kcs) ->
  (forall kc, kc ∈ kcs -> m' !! tid kc.2 = reparented parent' <$> m !! tid kc.2) ->
  (forall q, q ∈ forest_ids kcs -> q ∉ (cells kcs).*2 -> m' !! q = m !! q) ->
  Forall (fun kc => holds h m' parent' kc.2) kcs.
Proof.
  intros Hall Hnd Hroot Hrest.
  assert (Huniq : forall kc q, kc ∈ kcs -> q ∈ ids kc.2 -> q ∈ (cells kcs).*2 -> q = tid kc.2).
  { clear -Hnd. induction kcs as [|[k t] kcs IH]; [by intros ? ? ?%not_elem_of_nil|].
    rewrite forest_ids_cons in Hnd. apply NoDup_app in Hnd as (H1 & H2 & H3). intros kc q.
    change ((cells ((k, t) :: kcs)).*2) with (tid t :: (cells kcs).*2). rewrite !elem_of_cons.
    intros [->|Hkc] Hq [->|Hc]; [done| | |by apply IH].
    - exfalso. by apply (H2 q), tid_forest.
    - exfalso. apply (H2 (tid t)); [apply tid_ids|]. apply elem_of_forest. by exists kc. }
  rewrite Forall_forall in Hall |- *. intros kc Hkc.
  apply (holds_reparent _ _ h m _ parent); [by apply Hall| |by apply Hroot|].
  - clear -Hnd Hkc. induction kcs as [|x kcs IH]; [by apply not_elem_of_nil in Hkc|].
    destruct x as [k t]. rewrite forest_ids_cons in Hnd. apply NoDup_app in Hnd as (H1 & _ & H3).
    apply elem_of_cons in Hkc as [->|Hkc]; [done|by apply IH].
  - intros q Hq Hne. apply Hrest; [apply elem_of_forest; by exists kc|]. intros Hc. by apply Hne, Huniq.
Qed.

Lemma reparented_same (n : Node K V) hd parent :
  as_page n = Ok hd -> parent_page_id_ hd = parent ->
  match n with LeafNode _ | InternalNode _ => reparented parent n = n | _ => True end.
Proof.
  destruct n as [|?|p|p|?]; try done; simpl; intros [= <-] <-; unfold reparented; simpl; f_equal.
  - by destruct p as [[] ? ?].
  - by destruct p as [[] ?].
Qed.

Lemma holds_reparented_same h m parent t :
  holds h m parent t -> reparented parent <$> m !! tid t = m !! tid t.
Proof.
  destruct h as [|h], t as [id nx es|id kcs]; simpl; try done; intros (p & Hp & Hi); rewrite Hp; simpl; f_equal.
  - apply (reparented_same (LeafNode p) (Leaf.hdr p)); [done|apply Hi].
  - apply (reparented_same (InternalNode p) (Internal.hdr p)); [done|apply Hi].
Qed.

Lemma tokens_wide f told k tnew : tail (weave (wide f told k tnew)) = tokens (widen f told k tnew).
Proof. done. Qed.

Lemma wide_head f told k tnew c x :
  narrow f told !! c = Some x -> exists rest, drop (cut f c) (wide f told k tnew) = x :: rest.
Proof.
  intros Hx. unfold cut. case_decide as Hc.
  - rewrite (proj2 (wide_left f told k tnew c Hc)). exists (drop (S c) (narrow f told)). by apply drop_S.
  - destruct (wide_right f told k tnew c) as (_ & H2 & H3); [lia|]. rewrite H3.
    rewrite (drop_S _ _ _ Hx) in H2. destruct (drop c (f_left f)) as [|y l]; simpl in *;
      injection H2 as <- _; by eexists.
Qed.

Lemma split_tokens f told k tnew c x :
  narrow f told !! c = Some x -> (1 <= c)%nat -> forall N,
  tokens (TNode (f_id f) (take (cut f c) (wide f told k tnew))) ++
  Sep x.1 :: tokens (TNode N (drop (cut f c) (wide f told k tnew))) = tokens (widen f told k tnew).
Proof.
  intros Hx Hc N. rewrite <- tokens_wide, !tokens_node.
  destruct (wide_head f told k tnew c x Hx) as [rest Hrest].
  rewrite <- (take_drop (cut f c) (wide f told k tnew)) at 3. rewrite Hrest. destruct x as [kx tx].
  symmetry. apply weave_split. intros E. apply (f_equal length) in E. rewrite length_take in E.
  unfold cut, wide in E. rewrite length_app in E. simpl in E. case_decide; lia.
Qed.

Lemma split_ids f told k tnew c N (rest : list Z) :
  ids (TNode (f_id f) (take (cut f c) (wide f told k tnew))) ++
  ids (TNode N (drop (cut f c) (wide f told k tnew))) ++ rest ≡ₚ
  N :: (ids told ++ ids tnew ++ frame_ids f ++ rest).
Proof.
  rewrite !ids_node.
  assert (Hw : forest_ids (take (cut f c) (wide f told k tnew)) ++
               forest_ids (drop (cut f c) (wide f told k tnew)) ≡ₚ
               ids told ++ ids tnew ++ forest_ids (f_left f) ++ forest_ids (f_right f)).
  { rewrite <- forest_ids_app, take_drop. unfold wide.
    rewrite forest_ids_app, !forest_ids_cons. solve_Permutation. }
  unfold frame_ids. rewrite <- !app_comm_cons. rewrite app_assoc.
  transitivity (f_id f :: N :: (forest_ids (take (cut f c) (wide f told k tnew)) ++
                forest_ids (drop (cut f c) (wide f told k tnew))) ++ rest).
  - solve_Permutation.
  - rewrite Hw. solve_Permutation.
Qed.

(** What [split_parent] left in the pages. *)
Record split_left (h : nat) (f : frame K V) (fs : list (frame K V)) (told : tree K V) (k : K)
    (tnew : tree K V) (s : State K V) (x : K * tree K V) m : Prop := {
  sl_pop : narrow f told !! (length (narrow f told) / 2)%nat = Some x;
  sl_pages : exists pf rf,
    let c := (length (narrow f told) / 2)%nat in
    let N := next (store s) in
    let half := if bool_decide (length (f_left f) < c)%nat then f_id f else N in
    internal_is (context_parent fs) (f_id f) (cells (take (cut f c) (wide f told k tnew))) pf /\
    internal_is (context_parent fs) N (cells (drop (cut f c) (wide f told k tnew))) rf /\
    (forall q, m !! q = if decide (q = tid tnew) then reparented half <$> nodes (store s) !! q
                        else if decide (q = N) then Some (InternalNode rf)
                        else if decide (q = f_id f) then Some (InternalNode pf)
                        else if decide (q ∈ (cells (drop c (narrow f told))).*2)
                             then reparented N <$> nodes (store s) !! q
                             else nodes (store s) !! q)
}.

(** The pages it left alone. *)
Lemma split_frame_eq h f fs told k tnew s x m q :
  split_left h f fs told k tnew s x m -> q <> tid tnew -> q <> next (store s) -> q <> f_id f ->
  q ∉ (cells (narrow f told)).*2 -> m !! q = nodes (store s) !! q.
Proof.
  intros [_ (pf & rf & _ & _ & Hm)] H1 H2 H3 H4. rewrite Hm, !decide_False; try done.
  intros Hq. apply H4. rewrite <- (take_drop (length (narrow f told) / 2) (narrow f told)).
  rewrite cells_app, fmap_app, elem_of_app. by right.
Qed.

Lemma wide_ids f told k tnew :
  forest_ids (wide f told k tnew) ≡ₚ ids tnew ++ forest_ids (narrow f told).
Proof.
  unfold wide, narrow. rewrite !forest_ids_app, !forest_ids_cons. solve_Permutation.
Qed.

Lemma wide_nodup h f fs told k tnew s :
  pending h (f :: fs) told k tnew s -> NoDup (forest_ids (wide f told k tnew)).
Proof.
  intros H. rewrite wide_ids. unfold narrow. rewrite forest_ids_app, forest_ids_cons.
  pose proof (pe_nodup _ _ _ _ _ _ H) as Hnd. rewrite context_ids_cons in Hnd. unfold frame_ids in Hnd.
  assert (Hp : ids told ++ ids tnew ++ (f_id f :: forest_ids (f_left f) ++ forest_ids (f_right f)) ++ context_ids fs
    ≡ₚ (ids tnew ++ forest_ids (f_left f) ++ ids told ++ forest_ids (f_right f)) ++ f_id f :: context_ids fs)
    by solve_Permutation.
  rewrite Hp in Hnd. by apply NoDup_app in Hnd as (Hnd & _).
Qed.

(** The cells of the two pages: the new child, or an old one on the same side. *)
Lemma cut_cells f told k tnew c y :
  (y ∈ take (cut f c) (wide f told k tnew) ->
   (y = (k, tnew) /\ (length (f_left f) < c)%nat) \/ y ∈ take c (narrow f told)) /\
  (y ∈ drop (cut f c) (wide f told k tnew) ->
   (y = (k, tnew) /\ ~ (length (f_left f) < c)%nat) \/ y ∈ drop c (narrow f told)).
Proof.
  unfold cut. case_decide as Hc.
  - destruct (wide_left f told k tnew c Hc) as [-> ->]. rewrite (narrow_left _ _ _ Hc).
    rewrite !elem_of_app, !elem_of_cons. tauto.
  - destruct (wide_right f told k tnew c) as (-> & H2 & ->); [lia|]. rewrite H2.
    rewrite !elem_of_app, !elem_of_cons. tauto.
Qed.

Lemma drop_cells_disjoint f told c y :
  NoDup (forest_ids (narrow f told)) -> y ∈ take c (narrow f told) ->
  tid y.2 ∉ (cells (drop c (narrow f told))).*2.
Proof.
  rewrite <- (take_drop c (narrow f told)) at 1. rewrite forest_ids_app.
  intros (_ & Hd & _)%NoDup_app Hy Hq%tid_forest. apply (Hd (tid y.2)); [|done].
  apply elem_of_forest. exists y. split; [done|apply tid_ids].
Qed.

Lemma wide_id_known h f fs told k tnew s q :
  pending h (f :: fs) told k tnew s -> q ∈ forest_ids (wide f told k tnew) ->
  q ∈ ids told ++ ids tnew ++ context_ids (f :: fs) /\ q <> f_id f /\ q < next (store s).
Proof.
  intros H Hq. rewrite wide_ids, elem_of_app in Hq.
  assert (Hin : q ∈ ids told ++ ids tnew ++ context_ids (f :: fs)).
  { destruct Hq as [Hq|Hq]; [rewrite !elem_of_app; tauto|].
    exact (proj1 (narrow_children _ _ _ _ _ _ _ _ H Hq)). }
  split; [done|]. split; [|by apply (pe_ids _ _ _ _ _ _ H) in Hin as [_ ?]].
  destruct Hq as [Hq|Hq]; [|by apply (narrow_children _ _ _ _ _ _ _ _ H Hq)].
  intros ->. by destruct (frame_id_fresh _ _ _ _ _ _ _ H) as (_ & ? & _).
Qed.

(** Only the roots of the children changed. *)
Lemma split_rest h f fs told k tnew s x m q :
  pending h (f :: fs) told k tnew s -> split_left h f fs told k tnew s x m ->
  q ∈ forest_ids (wide f told k tnew) -> q ∉ (cells (wide f told k tnew)).*2 ->
  m !! q = nodes (store s) !! q.
Proof.
  intros H Hsl Hq Hn. destruct (wide_id_known _ _ _ _ _ _ _ _ H Hq) as (_ & Hf & Hlt).
  apply (split_frame_eq _ _ _ _ _ _ _ _ _ _ Hsl); [|lia|done|].
  - intros ->. apply Hn. unfold wide. rewrite cells_app, fmap_app, elem_of_app. right. right. left.
  - intros Hq'. apply Hn. unfold wide, narrow in *. rewrite cells_app, fmap_app, elem_of_app in *.
    destruct Hq' as [Hq'|Hq']; [by left|right]. apply elem_of_cons in Hq' as [->|Hq']; [left|by right; right].
Qed.

(** The two parts of a list of children. *)
Lemma forest_parts (kcs : list (K * tree K V)) c q :
  NoDup (forest_ids kcs) ->
  (q ∈ forest_ids (take c kcs) -> q ∉ (cells (take c kcs)).*2 ->
   q ∈ forest_ids kcs /\ (q ∉ (cells kcs).*2)) /\
  (q ∈ forest_ids (drop c kcs) -> q ∉ (cells (drop c kcs)).*2 ->
   q ∈ forest_ids kcs /\ (q ∉ (cells kcs).*2)).
Proof.
  rewrite <- (take_drop c kcs) at 1 4 5 8 9. rewrite !forest_ids_app, !cells_app, !fmap_app, !elem_of_app.
  intros (_ & Hd & _)%NoDup_app. split; intros Hq Hn; (split; [tauto|]); intros [Hc|Hc]; try done.
  - by apply (Hd q), tid_forest.
  - apply tid_forest in Hc. by apply (Hd q).
Qed.

Lemma narrow_root h f fs told k tnew s y :
  pending h (f :: fs) told k tnew s -> y ∈ narrow f told ->
  tid y.2 <> tid tnew /\ tid y.2 <> f_id f /\ tid y.2 <> next (store s).
Proof.
  intros H Hy. assert (Hin : tid y.2 ∈ forest_ids (narrow f told)).
  { apply elem_of_forest. exists y. split; [done|apply tid_ids]. }
  destruct (narrow_children _ _ _ _ _ _ _ _ H Hin) as (H1 & H2 & H3).
  split; [intros E; apply H3; rewrite E; apply tid_ids|]. split; [done|].
  apply (pe_ids _ _ _ _ _ _ H) in H1. lia.
Qed.

Lemma split_forests h f fs told k tnew s x m :
  pending h (f :: fs) told k tnew s -> split_left h f fs told k tnew s x m ->
  let c := (length (narrow f told) / 2)%nat in
  Forall (fun kc => holds h m (f_id f) kc.2) (take (cut f c) (wide f told k tnew)) /\
  Forall (fun kc => holds h m (next (store s)) kc.2) (drop (cut f c) (wide f told k tnew)).
Proof.
  intros H Hsl c. pose proof (wide_nodup _ _ _ _ _ _ _ H) as Hnd.
  destruct (pe_context _ _ _ _ _ _ H) as (_ & [Hfl Hfr]%Forall_app & _).
  assert (Hall : Forall (fun kc => holds h (nodes (store s)) (f_id f) kc.2) (wide f told k tnew)).
  { apply Forall_app. split; [done|]. constructor; [apply H|]. constructor; [apply H|done]. }
  assert (Hnar : NoDup (forest_ids (narrow f told))) by (rewrite wide_ids in Hnd; by apply NoDup_app in Hnd as (_ & _ & ?)).
  pose proof Hsl as [_ (pf & rf & _ & _ & Hm)]. fold c in Hm.
  pose proof (fun q => forest_parts (wide f told k tnew) (cut f c) q Hnd) as Hparts.
  rewrite <- (take_drop (cut f c) (wide f told k tnew)) in Hnd. rewrite forest_ids_app in Hnd.
  apply NoDup_app in Hnd as (Hnd1 & _ & Hnd2). rewrite Forall_forall in Hall.
  split; apply (forest_moved h (nodes (store s)) _ (f_id f)); try done.
  - apply Forall_take. by apply Forall_forall.
  - intros y Hy. pose proof Hy as [[-> Hc]|Hyn]%cut_cells.
    + rewrite Hm, decide_True by done. by rewrite bool_decide_true.
    + destruct (narrow_root _ _ _ _ _ _ _ y H) as (H1 & H2 & H3).
      { rewrite <- (take_drop c (narrow f told)), elem_of_app. by left. }
      rewrite Hm, !decide_False by (done || by apply drop_cells_disjoint).
      symmetry. apply (holds_reparented_same h), Hall.
      rewrite <- (take_drop (cut f c) (wide f told k tnew)), elem_of_app. by left.
  - intros q Hq Hn. destruct (proj1 (Hparts q) Hq Hn). by apply (split_rest _ _ _ _ _ _ _ _ _ _ H Hsl).
  - apply Forall_drop. by apply Forall_forall.
  - intros y Hy. pose proof Hy as [[-> Hc]|Hyn]%cut_cells.
    + rewrite Hm, decide_True by done. by rewrite bool_decide_false.
    + destruct (narrow_root _ _ _ _ _ _ _ y H) as (H1 & H2 & H3).
      { rewrite <- (take_drop c (narrow f told)), elem_of_app. by right. }
      rewrite Hm, decide_False, decide_False, decide_False, decide_True; [done| |done..].
      rewrite cells_ids. apply list_elem_of_In, in_map_iff. exists y. split; [done|]. by apply list_elem_of_In.
  - intros q Hq Hn. destruct (proj2 (Hparts q) Hq Hn). by apply (split_rest _ _ _ _ _ _ _ _ _ _ H Hsl).
Qed.

Lemma split_fit h f fs told k tnew s :
  pending h (f :: fs) told k tnew s -> Z.of_nat (length (narrow f told)) = internal_max ->
  let c := (length (narrow f told) / 2)%nat in
  fit (S h) false (TNode (f_id f) (take (cut f c) (wide f told k tnew))) /\
  fit (S h) false (TNode (next (store s)) (drop (cut f c) (wide f told k tnew))).
Proof.
  intros H Hfull c. destruct (pe_fit _ _ _ _ _ _ H) as (Hf1 & Hf2 & _ & [Hfl Hfr]%Forall_app & _).
  assert (Hall : Forall (fun kc => fit h false kc.2) (wide f told k tnew)).
  { apply Forall_app. split; [done|]. by repeat constructor. }
  assert (Hlen : length (wide f told k tnew) = S (length (narrow f told))).
  { unfold wide, narrow. rewrite !length_app, !length_cons. lia. }
  assert (Hc : Z.of_nat c = internal_max / 2) by (rewrite <- Hfull; apply (Nat2Z.inj_div _ 2)).
  assert (Hle : (c <= length (narrow f told) - c)%nat).
  { pose proof (Z.div_mod internal_max 2). pose proof (Z.mod_pos_bound internal_max 2). lia. }
  assert (Hcut : (c <= cut f c <= S c)%nat) by (unfold cut; case_decide; lia).
  split; (split; [|by (apply Forall_take + apply Forall_drop)]).
  - rewrite length_take. lia.
  - rewrite length_drop. unfold cut. case_decide; lia.
Qed.

Lemma split_pending h f fs told k tnew s x m u :
  pending h (f :: fs) told k tnew s -> Z.of_nat (length (narrow f told)) = internal_max ->
  split_left h f fs told k tnew s x m ->
  let N := next (store s) in
  let c := (length (narrow f told) / 2)%nat in
  pending (S h) fs (TNode (f_id f) (take (cut f c) (wide f told k tnew))) x.1
    (TNode N (drop (cut f c) (wide f told k tnew)))
    (upd m ({[+ N +]} ⊎ ({[+ f_id f +]} ⊎ pins (store s))) u (N + 1) s).
Proof.
  intros H Hfull Hsl N c. pose proof (so_internal _ _ Hsizes) as [Hmax _].
  destruct (split_forests _ _ _ _ _ _ _ _ _ H Hsl) as [Hl Hr]. fold c in Hl, Hr.
  pose proof Hsl as [Hx (pf & rf & Hpf & Hrf & Hm)]. fold c in Hx, Hpf, Hrf, Hm. fold N in Hrf, Hm.
  destruct (frame_id_fresh _ _ _ _ _ _ _ H) as (Hf1 & Hf2 & Hf3 & Hf4).
  destruct (pending_disjoint _ _ _ _ _ _ H) as [_ Hdn]. pose proof (frame_id_valid _ _ _ _ _ _ _ H) as Hfv.
  assert (Hc : (1 <= c)%nat) by (unfold c; apply Nat.div_le_lower_bound; lia).
  pose proof (split_ids f told k tnew c N (context_ids fs)) as Hids.
  assert (Hold : forall q, q ∈ ids told ++ ids tnew ++ frame_ids f ++ context_ids fs ->
                           HEADER_PAGE_ID < q < N) by (intros q Hq; by apply (pe_ids _ _ _ _ _ _ H)).
  assert (Htn : tid tnew ∈ ids tnew) by apply tid_ids.
  assert (Htnb : HEADER_PAGE_ID < tid tnew < N) by (apply Hold; rewrite !elem_of_app; auto).
  split; cbn [upd set_store store nodes pins next].
  - exists pf. split; [|split; [done|done]]. rewrite Hm. rewrite decide_False by (intros E; by rewrite E in Hf2).
    rewrite decide_False by (unfold N; lia). by rewrite decide_True.
  - exists rf. split; [|split; [done|done]]. rewrite Hm. rewrite decide_False by lia. by rewrite decide_True.
  - destruct (pe_context _ _ _ _ _ _ H) as (_ & _ & Hctx). apply (context_agree _ _ (S h) (nodes (store s))); [done|].
    intros q Hq. assert (Hb : HEADER_PAGE_ID < q < N) by (apply Hold; rewrite !elem_of_app; auto).
    apply (split_frame_eq _ _ _ _ _ _ _ _ _ _ Hsl); [|unfold N in *; lia| |].
    + intros ->. apply (proj2 (Hdn _ Htn)). rewrite context_ids_cons, elem_of_app. by right.
    + by intros ->.
    + intros Hc'%tid_forest.
      pose proof (pe_nodup _ _ _ _ _ _ H) as Hnd. rewrite context_ids_cons in Hnd.
      assert (Hp : ids told ++ ids tnew ++ frame_ids f ++ context_ids fs ≡ₚ
                   (f_id f :: ids tnew) ++ forest_ids (narrow f told) ++ context_ids fs).
      { unfold frame_ids, narrow. rewrite forest_ids_app, forest_ids_cons. solve_Permutation. }
      rewrite Hp in Hnd. apply NoDup_app in Hnd as (_ & _ & (_ & Hd & _)%NoDup_app). by apply (Hd q).
  - destruct (split_fit _ _ _ _ _ _ _ H Hfull) as [? ?]. split; [done|]. split; [done|].
    by destruct (pe_fit _ _ _ _ _ _ H) as (_ & _ & _ & _ & ?).
  - rewrite Hids. apply NoDup_cons. split; [intros Hq; apply Hold in Hq; lia|].
    pose proof (pe_nodup _ _ _ _ _ _ H) as Hnd. by rewrite context_ids_cons in Hnd.
  - intros q. rewrite Hids. intros [->|Hq]%elem_of_cons; [unfold N in *; lia|]. apply Hold in Hq. lia.
  - pose proof (pe_order _ _ _ _ _ _ H) as Ho. cbn [left_of right_of] in Ho.
    rewrite (app_comm_cons _ _ (Sep x.1)), (app_assoc (tokens _)), (split_tokens f told k tnew c x Hx Hc N), tokens_widen.
    by repeat (rewrite <- app_assoc in *; simpl in *).
  - split; [apply elem_of_pinned_r, elem_of_pinned|apply elem_of_pinned].
  - destruct (pe_header _ _ _ _ _ _ H) as (root & rs & (b & Hb & Hrep) & Hrec).
    exists root, rs. split; [|done]. exists b. split; [|done].
    rewrite (split_frame_eq _ _ _ _ _ _ _ _ _ _ Hsl); [done|lia|unfold N in *; lia|lia|].
    intros Hq%tid_forest. destruct (narrow_children _ _ _ _ _ _ _ _ H Hq) as (Hin & _).
    rewrite context_ids_cons in Hin. apply Hold in Hin. lia.
Qed.

(** ** The recursion *)

Lemma split_header h f fs told k tnew s x m root :
  pending h (f :: fs) told k tnew s -> split_left h f fs told k tnew s x m ->
  header_ok root (nodes (store s)) -> header_ok root m.
Proof.
  intros H Hsl (rs & (b & Hb & Hrep) & Hrec). exists rs. split; [|done]. exists b. split; [|done].
  assert (Hold : forall q, q ∈ ids told ++ ids tnew ++ context_ids (f :: fs) -> HEADER_PAGE_ID < q < next (store s))
    by (apply H).
  assert (Hh : HEADER_PAGE_ID < f_id f < next (store s)) by (eapply frame_id_valid; exact H).
  rewrite (split_frame_eq _ _ _ _ _ _ _ _ _ _ Hsl); [done| |lia|lia|].
  - pose proof (Hold (tid tnew) ltac:(rewrite !elem_of_app; right; left; apply tid_ids)). lia.
  - intros Hq%tid_forest. destruct (narrow_children _ _ _ _ _ _ _ _ H Hq) as (Hin & _).
    apply Hold in Hin. lia.
Qed.

(** From the tree the recursive call leaves to the one of the whole call. *)
Lemma grown_split h f fs told k tnew s x m u s' h' t' :
  pending h (f :: fs) told k tnew s -> split_left h f fs told k tnew s x m ->
  let N := next (store s) in
  let c := (length (narrow f told) / 2)%nat in
  u ⊆ unsaved (store s) ∪ {[f_id f; N; tid tnew]} ->
  grown (upd m ({[+ N +]} ⊎ ({[+ f_id f +]} ⊎ pins (store s))) u (N + 1) s) s'
    (ids (TNode (f_id f) (take (cut f c) (wide f told k tnew))) ++
     ids (TNode N (drop (cut f c) (wide f told k tnew))) ++ context_ids fs) {[f_id f; N]} h' t' ->
  grown s (drop_pin (f_id f) true (drop_pin N true s'))
    (ids told ++ ids tnew ++ context_ids (f :: fs)) {[tid told; tid tnew]} h' t'.
Proof.
  intros H Hsl N c Hu [Hh Hf Hnd Hkeep Hids Hfr Hnx Hp Hun Hrest].
  pose proof (split_ids f told k tnew c N (context_ids fs)) as Hperm. setoid_rewrite Hperm in Hkeep.
  setoid_rewrite Hperm in Hids. setoid_rewrite Hperm in Hfr.
  cbn [upd set_store store nodes pins next unsaved] in *.
  assert (Hfid : f_id f ∈ ids told ++ ids tnew ++ context_ids (f :: fs)).
  { apply (pending_ids_frame _ _ _ _ _ _ _ _ H). left. }
  split; cbn [drop_pin upd set_store store nodes pins next unsaved]; try done.
  - intros q Hq. apply Hkeep. by right.
  - intros q Hq. apply Hids in Hq as [[->|Hq]%elem_of_cons|Hq]; [right; lia|by left|right; lia].
  - intros q Hq Hhd Hlt. rewrite Hfr; [| |done|lia].
    + apply (split_frame_eq _ _ _ _ _ _ _ _ _ _ Hsl); [|lia|by intros ->|].
      * intros ->. apply Hq. rewrite !elem_of_app. right; left. apply tid_ids.
      * intros Hc%tid_forest. by destruct (narrow_children _ _ _ _ _ _ _ _ H Hc) as (Hin & _).
    + intros [->|Hc]%elem_of_cons; [lia|]. by apply Hq.
  - lia.
  - rewrite Hp. by rewrite !unpin_pinned.
  - clear -Hu Hun. set_solver.
Qed.

Lemma insert_split_ok fuel h f fs told k tnew s :
  pending h (f :: fs) told k tnew s -> room (2 * length (f :: fs) + 2) s ->
  Z.of_nat (length (narrow f told)) = internal_max ->
  (forall told' k' tnew' s', pending (S h) fs told' k' tnew' s' -> room (2 * length fs + 2) s' ->
     inserted fuel (S h) fs told' k' tnew' (InsertIntoParent fuel (tid told') k' (tid tnew')) s') ->
  inserted (S fuel) h (f :: fs) told k tnew (InsertIntoParent (S fuel) (tid told) k (tid tnew)) s.
Proof.
  intros H Hr Hfull IH. simpl in Hr.
  assert (Hr3 : room (S (S (S (2 * length fs + 1)))) s) by (apply (room_le _ _ _ Hr); lia).
  destruct (split_parent_run _ _ _ _ _ _ _ H) as (x & pf & rf & m & u & Hx & Hrun & Hpf & Hrf & Hm & Hu).
  { apply (room_le _ _ _ Hr3). lia. } { done. }
  assert (Hsl : split_left h f fs told k tnew s x m) by (split; [done|by exists pf, rf]).
  pose proof (split_pending _ _ _ _ _ _ _ _ _ u H Hfull Hsl) as Hpe.
  set (N := next (store s)) in *. set (c := (length (narrow f told) / 2)%nat) in *.
  set (s3 := upd m _ u (N + 1) s) in *.
  pose proof (so_internal _ _ Hsizes) as [Hmax _].
  assert (Hc : (1 <= c)%nat) by (unfold c; apply Nat.div_le_lower_bound; lia).
  destruct (IH _ _ _ _ Hpe) as (s' & h' & t' & Hrec & Hg & Htok & Hh' & Hroot & Hhdr).
  { pose proof (room_more _ _ (f_id f) Hr3) as Hr2. apply (room_more _ _ N) in Hr2.
    apply (room_le _ _ _ Hr2). lia. }
  pose proof (grown_split _ _ _ _ _ _ _ _ _ _ _ _ _ H Hsl Hu Hg) as Hg'.
  pose proof (frame_id_valid _ _ _ _ _ _ _ H) as Hfv. fold N in Hfv. unfold HEADER_PAGE_ID in Hfv.
  assert (HN : tree_page (nodes (store s')) N).
  { apply (holds_known _ _ _ _ _ _ _ (g_holds _ _ _ _ _ _ Hg)), (g_keep _ _ _ _ _ _ Hg).
    rewrite !elem_of_app. right; left. left. }
  assert (Hinp : N ∈ pins (store s') /\ f_id f ∈ pins (store (drop_pin N true s'))).
  { cbn [drop_pin upd set_store store pins]. rewrite (g_pins _ _ _ _ _ _ Hg).
    cbn [s3 upd set_store store pins]. rewrite unpin_pinned. split; apply elem_of_pinned. }
  exists (drop_pin (f_id f) true (drop_pin N true s')), h', t'.
  split; [|split; [done|split; [|split; [simpl in *; lia|split]]]].
  - rewrite (enter_parent _ _ _ _ _ _ _ _ _ H Hr3). unfold in_parent.
    rewrite (proj2 (Z.ltb_lt _ _)).
    2:{ rewrite <- Hfull. unfold narrow. rewrite length_app, length_cons. lia. }
    rewrite (bind_run _ _ _ tt (drop_pin N true s')).
    + rewrite (bind_run _ _ _ _ _ (unpin_ok (f_id f) _ (proj2 Hinp) ltac:(unfold INVALID_PAGE_ID; lia))).
      done.
    + rewrite (bind_run _ _ _ _ _ Hrun). cbv beta iota. fold s3. cbn [tid] in Hrec.
      rewrite (bind_run _ _ _ _ _ Hrec), (bind_run _ _ _ _ _ (tree_page_id_ok N s' (proj1 Hinp) HN)).
      by rewrite (bind_run _ _ _ _ _ (unpin_ok N s' (proj1 Hinp) ltac:(unfold INVALID_PAGE_ID; lia))).
  - rewrite Htok, (app_comm_cons _ _ (Sep x.1)), (app_assoc (tokens _)), (split_tokens f told k tnew c x Hx Hc N), tokens_widen.
    cbn [left_of right_of]. by repeat (rewrite <- app_assoc; simpl).
  - intros E. cbn [drop_pin upd set_store root_page_id_]. apply Hroot. cbn [s3 upd set_store root_page_id_].
    rewrite E. by apply (tid_fill fs (plug f told)).
  - intros Hok. apply Hhdr. apply (split_header _ _ _ _ _ _ _ _ _ _ H Hsl Hok).
Qed.

Theorem insert_into_parent_ok fs : forall fuel h told k tnew s,
  pending h fs told k tnew s -> room (2 * length fs + 2) s -> (length fs < fuel)%nat ->
  inserted fuel h fs told k tnew (InsertIntoParent fuel (tid told) k (tid tnew)) s.
Proof.
  induction fs as [|f fs IH]; intros [|fuel] h told k tnew s H Hr Hfuel; [simpl in Hfuel; lia| |simpl in Hfuel; lia|].
  - destruct (holds_root _ _ _ _ _ _ (pe_old _ _ _ _ _ _ H)) as (nd & hd & Hn & Hh & _ & Hpar & _).
    destruct (grow_root_ok (S fuel) _ _ _ _ _ H Hr) as (s' & h' & t' & Hrun & Hrest).
    exists s', h', t'. split; [|done]. cbn [BPlusTree.InsertIntoParent].
    rewrite (bind_run _ _ _ _ _ (parent_id_ok _ _ _ s (proj1 (pe_pins _ _ _ _ _ _ H)) Hn Hh)).
    by rewrite Hpar.
  - destruct (pe_context _ _ _ _ _ _ H) as ((p & Hp & Hi) & _ & _).
    assert (Hlen : Z.of_nat (length (narrow f told)) <= internal_max).
    { unfold narrow. rewrite length_app, length_cons.
      pose proof (internal_is_length _ _ _ _ _ Hi) as Hl. rewrite length_app, length_cons, !cells_length in Hl.
      pose proof (Internal.i_size _ (ii_wf _ _ _ _ _ Hi)). rewrite (ii_max _ _ _ _ _ Hi) in *. lia. }
    destruct (decide (Z.of_nat (length (narrow f told)) = internal_max)) as [Hfull|Hroom].
    + apply insert_split_ok; [done|done|done|]. intros. apply IH; [done|done|]. simpl in Hfuel. lia.
    + apply insert_in_parent_ok; [done|apply (room_le _ _ _ Hr); lia|].
      revert Hlen Hroom. unfold narrow. rewrite length_app, length_cons. lia.
Qed.
End Insert.
End TreeInsert.
