(* ===== verification/TreeSearch.v ===== *)
(** * Descent in the B+ tree

    The invariant of an index ([ready], [index_at]); FindLeafPage reaches the leaf a key
    falls in, with the pins and the page set its action keeps; GetValue. *)

From stdpp Require Import prelude gmap gmultiset list sorting.
From Stdlib Require Import ZArith Lia.
From S2P Require Import Prelude HeaderPage BPlusTreePage LeafPage InternalPage TreeNodes BPlusTree.
From S2P Require Import TreeModel TreeSteps TreeInsert.

Local Open Scope Z_scope.

Module TreeSearch.
Import BPage Nodes TreeModel BPlusTree TreeSteps TreeInsert.

Section Paged.
Context {K V : Type}.
Implicit Types (s : State K V).

(** ** The page set *)

(** [s] with the page set [l] and the pins [P]. *)
Definition paged (l : list Z) (P : gmultiset Z) (s : State K V) : State K V :=
  set_txn (mkTxn l (deleted_page_set_ (txn s))) (upd (nodes (store s)) P (unsaved (store s)) (next (store s)) s).

Lemma paged_self s : paged (page_set_ (txn s)) (pins (store s)) s = s.
Proof. by destruct s as [? ? [] []]. Qed.

Lemma paged_pin p l P s : pin_page p (paged l P s) = paged l ({[+ p +]} ⊎ P) s.
Proof. done. Qed.

Lemma paged_paged l P l' P' s : paged l P (paged l' P' s) = paged l P s.
Proof. done. Qed.

Lemma add_page_ok p l P s : AddIntoPageSet p (paged l P s) = Ok (tt, paged (l ++ [p]) P s).
Proof. done. Qed.

Lemma pop_page_ok p l P s : pop_page (paged (p :: l) P s) = Ok (p, paged l P s).
Proof. done. Qed.

Lemma paged_unpin p l P s :
  p <> INVALID_PAGE_ID -> unsaved (store s) = ∅ ->
  UnpinPage p false (paged l ({[+ p +]} ⊎ P) s) = Ok (true, paged l P s).
Proof.
  intros Hp Hu. rewrite (unpin_saved_ok p false (paged l ({[+ p +]} ⊎ P) s) (elem_of_pinned p P) Hp).
  2:{ right. cbn [paged set_txn upd set_store store unsaved]. rewrite Hu. apply not_elem_of_empty. }
  do 2 f_equal.
  unfold drop_pin, paged, upd, set_txn, set_store. cbn [store txn trivial_page_id_ root_page_id_ nodes pins unsaved next capacity].
  by rewrite unpin_pinned.
Qed.

Lemma when_true (m : M K V unit) : when true m = m.
Proof. done. Qed.

Lemma room_paged k l l' P P' s : room k (paged l P s) -> (forall q, q ∈ P' -> q ∈ P) -> room k (paged l' P' s).
Proof.
  unfold room. simpl. intros H Hsub. etrans; [|exact H]. apply Nat.add_le_mono_r, subseteq_size.
  intros q. rewrite !gmultiset_elem_of_dom. apply Hsub.
Qed.

Lemma room_pages k l l' s :
  room (length l + k) s -> room k (paged l' (list_to_set_disj l ⊎ pins (store s)) s).
Proof.
  revert k. induction l as [|p l IH]; intros k Hr.
  - replace (list_to_set_disj [] ⊎ pins (store s)) with (pins (store s)) by multiset_solver. exact Hr.
  - assert (Hr' : room (S k) (paged l' (list_to_set_disj l ⊎ pins (store s)) s)).
    { apply IH. apply (room_le _ _ _ Hr). simpl. lia. }
    apply (room_more k _ p) in Hr'. rewrite paged_pin in Hr'.
    apply (room_paged _ _ _ _ _ _ Hr'). intros q. simpl. multiset_solver.
Qed.

(** The state at the page [x]: one more pin, and the page set of the transaction. *)
Definition looking (txn : bool) (x : Z) (s : State K V) : State K V :=
  paged (if txn then [x] else []) ({[+ x +]} ⊎ pins (store s)) s.

(** One step of the descent, from a pinned page to the next. *)
Lemma step_lookup txn x y s (release : Z -> M K V bool) :
  room 2 s -> unsaved (store s) = ∅ ->
  x <> INVALID_PAGE_ID -> y <> INVALID_PAGE_ID -> is_Some (nodes (store s) !! y) ->
  release x = UnpinPage x false ->
  (let! new_page := FetchPage y in
   run! asserts (bool_decide (new_page <> None)) ;;
   let! new_page := GetData new_page in
   run! when txn (AddIntoPageSet new_page) ;;
   run! release x ;;
   run! when txn (run! pop_page ;; ret tt) ;;
   ret new_page) (looking txn x s) = Ok (y, looking txn y s).
Proof.
  intros Hr Hu Hx Hy Hn Hrel. unfold looking.
  assert (Hr1 : room 1 (paged (if txn then [x] else []) ({[+ x +]} ⊎ pins (store s)) s)).
  { apply (room_more 1 s x) in Hr. exact Hr. }
  rewrite (bind_run _ _ _ _ _ (fetch_ok y _ 0 Hr1 Hy Hn)), paged_pin.
  rewrite (bind_run _ _ _ _ _ (asserts_ok _ _ eq_refl)). unfold GetData.
  rewrite (bind_run _ _ _ y _ eq_refl).
  assert (Hcomm : {[+ y +]} ⊎ ({[+ x +]} ⊎ pins (store s)) = {[+ x +]} ⊎ ({[+ y +]} ⊎ pins (store s)))
    by multiset_solver.
  rewrite Hcomm, Hrel. destruct txn; unfold when.
  - rewrite (bind_run _ _ _ _ _ (add_page_ok y _ _ _)).
    rewrite (bind_run _ _ _ _ _ (paged_unpin x _ _ _ Hx Hu)). simpl.
    by rewrite (bind_run _ _ _ tt (paged [y] ({[+ y +]} ⊎ pins (store s)) s)).
  - rewrite (bind_run _ _ _ tt _ eq_refl), (bind_run _ _ _ _ _ (paged_unpin x _ _ _ Hx Hu)).
    by rewrite (bind_run _ _ _ tt _ eq_refl).
Qed.
End Paged.

Section Search.
Context {K V : Type} (key_size value_size : Z) (zero_key : K) (zero_value : V).
Context (index_name : list Z) (cmp : K -> K -> Z) `{!KeyOrder cmp}.
Implicit Types (s : State K V) (m : gmap Z (Node K V)) (t : tree K V) (fs : list (frame K V)).

Abbreviation internal_max := (internal_max key_size).
Abbreviation internal_is := (internal_is key_size).
Abbreviation holds := (holds key_size value_size).
Abbreviation fit := (fit key_size value_size).
Abbreviation context_holds := (context_holds key_size value_size).
Abbreviation context_fit := (context_fit key_size value_size).
Abbreviation get_leaf := (get_leaf key_size value_size zero_key zero_value).
Abbreviation get_internal := (get_internal key_size zero_key).
Abbreviation FindLeafPage := (FindLeafPage key_size zero_key cmp).
Abbreviation descend := (descend key_size zero_key cmp).
Abbreviation GetValue := (GetValue key_size value_size zero_key zero_value cmp).

(** ** The invariant *)

(** An index between two calls of one thread: its trivial page is the page 0, the
    header page agrees with its root, and nothing is unsaved or in the page set. *)
Record ready (s : State K V) : Prop := {
  rd_trivial : trivial_page_id_ s = 0;
  rd_page : exists hd, nodes (store s) !! 0 = Some (TrivialPage hd) /\ page_id_ hd = 0 /\
                       page_type_ hd = TRIVIAL_PAGE;
  rd_header : header_ok index_name (root_page_id_ s) (nodes (store s));
  rd_next : HEADER_PAGE_ID < next (store s);
  rd_pages : page_set_ (txn s) = [];
  rd_unsaved : unsaved (store s) = ∅
}.

(** The pages hold the tree [t] of height [h]; the pages the transaction deleted are
    not among them. *)
Record index_at (s : State K V) (h : nat) (t : tree K V) : Prop := {
  ix_root : root_page_id_ s = tid t;
  ix_holds : holds h (nodes (store s)) INVALID_PAGE_ID t;
  ix_fit : fit h true t;
  ix_nodup : NoDup (ids t);
  ix_ids q : q ∈ ids t -> HEADER_PAGE_ID < q < next (store s);
  ix_order : ordered cmp (tokens t);
  ix_links : linked (leaves (tokens t)) INVALID_PAGE_ID
}.

Definition undeleted (s : State K V) (l : list Z) : Prop :=
  forall q, q ∈ deleted_page_set_ (txn s) -> (q ∉ l) /\ 0 < q < next (store s).

(** The index holds the entries [es]. *)
Definition represents (s : State K V) (es : list (K * V)) : Prop :=
  ready s /\
  ((root_page_id_ s = INVALID_PAGE_ID /\ es = [] /\ undeleted s []) \/
   exists h t, index_at s h t /\ undeleted s (ids t) /\ es = entries (tokens t)).

(** ** A tree in its context *)

Record focus (h : nat) m fs t : Prop := {
  fo_holds : holds h m (context_parent fs) t;
  fo_context : context_holds h m (tid t) fs;
  fo_fit : fit h (is_root fs) t;
  fo_cfit : context_fit h fs;
  fo_order : ordered cmp (left_of fs ++ tokens t ++ right_of fs)
}.

Context (Hsizes : sizes_ok key_size value_size).

Lemma focus_node h m fs id kcs :
  focus (S h) m fs (TNode id kcs) ->
  kcs <> [] /\ forall kl kc t kr, kcs = kl ++ (kc, t) :: kr ->
  let f := mkFrame id kl kc kr in focus h m (f :: fs) t /\ plug f t = TNode id kcs.
Proof.
  intros [(p & Hp & Hi & Hf) Hc (Hlen & Hfit) Hcf Ho]. pose proof (so_internal _ _ Hsizes) as [Hmax _]. split.
  - assert (1 <= internal_max / 2) by (apply Z.div_le_lower_bound; lia).
    intros ->. simpl in Hlen. destruct (is_root fs); lia.
  - intros kl kc t kr E. rewrite E in *. cbv zeta. split; [|done].
    apply Forall_app in Hf as [Hf1 [Hf2 Hf3]%Forall_cons]. apply Forall_app in Hfit as [Hg1 [Hg2 Hg3]%Forall_cons].
    split.
    + done.
    + split; [|split; [by apply Forall_app|done]]. exists p. split; [done|].
      by rewrite cells_app in Hi.
    + done.
    + split; [|split; [by apply Forall_app|done]]. rewrite length_app in Hlen. simpl in Hlen |- *.
      destruct (is_root fs); lia.
    + change (TNode id (kl ++ (kc, t) :: kr)) with (plug (mkFrame id kl kc kr) t) in Ho.
      rewrite tokens_plug in Ho. cbn [left_of right_of]. by rewrite <- !app_assoc in *.
Qed.

(** The child [Lookup] returns, for a key between the sides of the context. *)
Lemma focus_child key h m fs id kcs :
  focus (S h) m fs (TNode id kcs) -> below cmp key (left_of fs) -> above cmp key (right_of fs) ->
  exists p f t, m !! id = Some (InternalNode p) /\ page_type_ (Internal.hdr p) = INTERNAL_PAGE /\
    Internal.Lookup cmp key p = Ok (tid t) /\ focus h m (f :: fs) t /\ plug f t = TNode id kcs /\
    below cmp key (left_of (f :: fs)) /\ above cmp key (right_of (f :: fs)).
Proof.
  intros H Hb Ha. destruct (focus_node _ _ _ _ _ H) as [Hne Hsplit].
  pose proof (fo_holds _ _ _ _ H) as (p & Hp & Hi & _).
  destruct (find_child cmp key id kcs (left_of fs) (right_of fs) Hne (fo_order _ _ _ _ H) Hb Ha)
    as (kl & kc & t & kr & Hk & Hlen & Hbf & Haf).
  destruct (Hsplit _ _ _ _ Hk) as [Hfo Hplug].
  exists p, (mkFrame id kl kc kr), t. split; [done|]. split; [apply Hi|]. split; [|done].
  pose proof (internal_is_length _ _ _ _ _ Hi) as Hl. rewrite cells_length in Hl.
  destruct (Internal.internal_lookup_ok cmp p key) as (x & Hx & ->).
  { apply Hi. } { rewrite Hl. destruct kcs; [done|]. simpl. lia. }
  rewrite (ii_entries _ _ _ _ _ Hi), <- Hlen, Hk, cells_app, lookup_app_r, cells_length, Nat.sub_diag in Hx
    by (rewrite cells_length; done).
  by injection Hx as <-.
Qed.

(** The leftmost child. *)
Lemma focus_first h m fs id kcs :
  focus (S h) m fs (TNode id kcs) ->
  exists p f t, m !! id = Some (InternalNode p) /\ page_type_ (Internal.hdr p) = INTERNAL_PAGE /\
    Internal.ValueAt 0 p = Ok (tid t) /\ focus h m (f :: fs) t /\ plug f t = TNode id kcs /\
    f_left f = [].
Proof.
  intros H. destruct (focus_node _ _ _ _ _ H) as [Hne Hsplit].
  pose proof (fo_holds _ _ _ _ H) as (p & Hp & Hi & _).
  destruct kcs as [|[kc t] kr]; [done|]. destruct (Hsplit [] kc t kr eq_refl) as [Hfo Hplug].
  exists p, (mkFrame id [] kc kr), t. split; [done|]. split; [apply Hi|]. split; [|done].
  unfold Internal.ValueAt. rewrite assert_ok.
  - change 0 with (Z.of_nat 0). rewrite (Internal.internal_cell_entry p 0 (kc, tid t)), bind_ok; [done|].
    by rewrite (ii_entries _ _ _ _ _ Hi).
  - rewrite (ii_max _ _ _ _ _ Hi). pose proof (so_internal _ _ Hsizes) as [Hmax _].
    apply andb_true_iff. split; [done|]. apply Z.ltb_lt. lia.
Qed.

(** What a descent keeps of the context: nothing on the left, or the key between the sides. *)
Definition aimed (leftMost : bool) (key : K) fs : Prop :=
  if leftMost then left_of fs = [] else below cmp key (left_of fs) /\ above cmp key (right_of fs).

Lemma focus_next leftMost key h m fs id kcs :
  focus (S h) m fs (TNode id kcs) -> aimed leftMost key fs ->
  exists p f t, m !! id = Some (InternalNode p) /\ page_type_ (Internal.hdr p) = INTERNAL_PAGE /\
    (if leftMost then Internal.ValueAt 0 p else Internal.Lookup cmp key p) = Ok (tid t) /\
    focus h m (f :: fs) t /\ plug f t = TNode id kcs /\ aimed leftMost key (f :: fs).
Proof.
  intros Hf Ha. destruct leftMost; cbn [aimed] in *.
  - destruct (focus_first _ _ _ _ _ Hf) as (p & f & t & Hp & Hty & Hv & Hf' & Hplug & Hl).
    exists p, f, t. do 5 (split; [done|]). cbn [left_of]. unfold frame_left. by rewrite Ha, Hl.
  - destruct Ha as [Hb Ha].
    destruct (focus_child _ _ _ _ _ _ Hf Hb Ha) as (p & f & t & Hp & Hty & Hl & Hf' & Hplug & Hb' & Ha').
    by exists p, f, t.
Qed.

(** ** Descent of a lookup *)

(** The root and its page, above an ordinary page. *)
Lemma focus_id h s fs t q :
  focus h (nodes (store s)) fs t -> q ∈ ids t -> is_Some (nodes (store s) !! q).
Proof.
  intros H Hq. destruct (holds_known _ _ _ _ _ _ _ (fo_holds _ _ _ _ H) Hq) as (n & hd & Hn & _).
  by exists n.
Qed.

Lemma descend_lookup h : forall fuel key leftMost txn fs t s,
  focus h (nodes (store s)) fs t -> aimed leftMost key fs ->
  (forall q, q ∈ ids t -> q <> INVALID_PAGE_ID) -> room 2 s -> unsaved (store s) = ∅ -> (h < fuel)%nat ->
  exists fs' id nx es,
    descend fuel key leftMost txn Action.LookUp (tid t) (looking txn (tid t) s) = Ok (id, looking txn id s) /\
    focus 0 (nodes (store s)) fs' (TLeaf id nx es) /\ fill fs' (TLeaf id nx es) = fill fs t /\
    length fs' = (h + length fs)%nat /\ id ∈ ids t /\
    aimed leftMost key fs'.
Proof.
  induction h as [|h IH]; intros [|fuel] key leftMost txn fs t s Hf Ha Hids Hr Hu Hfuel; try lia;
    destruct (holds_root _ _ _ _ _ _ (fo_holds _ _ _ _ Hf)) as (n & hd & Hn & Hh & _ & _ & Hleaf & Htriv);
    cbn [BPlusTree.descend];
    rewrite (bind_run _ _ _ _ _ (get_page_ok (tid t) n hd (looking txn (tid t) s) (elem_of_pinned _ _) Hn Hh)).
  - rewrite (proj2 Hleaf eq_refl). destruct t as [id nx es|id kcs]; [|by destruct (fo_holds _ _ _ _ Hf)].
    exists fs, id, nx, es. do 4 (split; [done|]). split; [left|]. done.
  - destruct (IsLeafPage hd); [by discriminate (proj1 Hleaf eq_refl)|]. rewrite Htriv.
    destruct t as [id nx es|id kcs]; [by destruct (fo_holds _ _ _ _ Hf)|]. cbn [tid] in *.
    destruct (focus_next leftMost key _ _ _ _ _ Hf Ha) as (p & f & t & Hp & Hty & Hl & Hf' & Hplug & Ha').
    assert (Hin : tid t ∈ ids (TNode id kcs)).
    { rewrite <- Hplug, ids_plug, elem_of_app. left. apply tid_ids. }
    rewrite (bind_run _ _ _ (tid t) (looking txn (tid t) s)).
    + destruct (IH fuel key leftMost txn (f :: fs) t s) as (fs' & id' & nx & es & Hd & Hfo & Hfill & Hlen & Hid & Hbl);
        [done|done| |done|done|lia|].
      { intros q Hq. apply Hids. rewrite <- Hplug, ids_plug, elem_of_app. by left. }
      exists fs', id', nx, es. split; [done|]. split; [done|]. split; [by rewrite Hfill, <- Hplug|].
      split; [rewrite Hlen; simpl; lia|]. split; [|done].
      rewrite <- Hplug, ids_plug, elem_of_app. by left.
    + erewrite bind_run by (apply (get_internal_ok _ _ id (InternalNode p)); [apply elem_of_pinned|done|done]).
      rewrite (bind_run _ _ _ (tid t) (looking txn id s)) by (by apply lift_ok).
      apply (step_lookup txn id (tid t) s (fun x => UnpinPage x false)); [done|done| | | |done].
      * apply Hids. left.
      * by apply Hids.
      * apply (focus_id _ _ _ _ _ Hf'). apply tid_ids.
Qed.

Lemma index_focus s h t : index_at s h t -> focus h (nodes (store s)) [] t.
Proof. intros []. split; try done. cbn [left_of right_of]. by rewrite app_nil_r. Qed.

Lemma index_valid s h t q : index_at s h t -> q ∈ ids t -> q <> INVALID_PAGE_ID.
Proof.
  intros H Hq. pose proof (ix_ids _ _ _ H q Hq) as Hb. unfold HEADER_PAGE_ID, INVALID_PAGE_ID in *. lia.
Qed.

Lemma ready_paged s : ready s -> paged [] (pins (store s)) s = s.
Proof. intros H. rewrite <- (rd_pages _ H). apply paged_self. Qed.

(** The trivial page, pinned and entered in the page set. *)
Lemma enter_trivial fuel key lm (with_txn : bool) type s n :
  ready s -> room (S n) s ->
  FindLeafPage fuel key lm with_txn type s = descend fuel key lm with_txn type 0 (looking with_txn 0 s).
Proof.
  intros H Hr. destruct (rd_page _ H) as (hd & Hhd & _). unfold BPlusTree.FindLeafPage.
  rewrite (bind_run _ _ s 0 s) by (unfold gets; by rewrite (rd_trivial _ H)).
  rewrite (bind_run _ _ _ _ _ (fetch_ok 0 s n Hr ltac:(done) (mk_is_Some _ _ Hhd))).
  rewrite (bind_run _ _ _ _ _ (asserts_ok _ _ eq_refl)).
  unfold GetData. rewrite (bind_run _ _ _ 0 _ eq_refl).
  rewrite <- (ready_paged _ H), paged_pin. unfold looking. rewrite paged_paged.
  by destruct with_txn.
Qed.

Lemma trivial_step fuel key lm with_txn type s st x :
  ready s -> nodes (store st) = nodes (store s) -> 0 ∈ pins (store st) ->
  enter_root with_txn type st = Ok x ->
  descend (S fuel) key lm with_txn type 0 st = descend fuel key lm with_txn type x.1 x.2.
Proof.
  intros H Hnodes Hin Hx. destruct (rd_page _ H) as (hd & Hhd & Hid & Hty). cbn [BPlusTree.descend].
  erewrite bind_run by (apply (get_page_ok 0 (TrivialPage hd)); [done|by rewrite Hnodes|done]).
  unfold IsLeafPage, IsTrivialPage. rewrite Hty.
  rewrite bool_decide_false, bool_decide_true by done. destruct x as [y st'].
  by rewrite (bind_run _ _ _ _ _ Hx).
Qed.

Lemma find_leaf_lookup fuel key leftMost with_txn s h t :
  ready s -> index_at s h t -> room 2 s -> (S h < fuel)%nat ->
  exists fs id nx es,
    FindLeafPage fuel key leftMost with_txn Action.LookUp s = Ok (id, looking with_txn id s) /\
    focus 0 (nodes (store s)) fs (TLeaf id nx es) /\ fill fs (TLeaf id nx es) = t /\
    length fs = h /\ id ∈ ids t /\
    aimed leftMost key fs.
Proof.
  intros H Hix Hr Hfuel. rewrite (enter_trivial fuel key leftMost with_txn Action.LookUp s 1 H Hr).
  destruct fuel as [|fuel]; [lia|].
  destruct (descend_lookup h fuel key leftMost with_txn [] t s) as (fs & id & nx & es & Hd & Hf & Hfill & Hlen & Hid & Hb);
    [by apply index_focus|destruct leftMost; [done|by split; [apply below_nil|apply above_nil]]|intros q Hq; by apply (index_valid _ _ _ _ Hix)|done|by apply H|lia|].
  exists fs, id, nx, es. split; [|split; [done|split; [done|split; [simpl in Hlen; lia|done]]]].
  rewrite (trivial_step fuel key leftMost with_txn Action.LookUp s (looking with_txn 0 s)
             (tid t, looking with_txn (tid t) s)); [done|done|done|apply elem_of_pinned|].
  unfold enter_root. rewrite (bind_run _ _ _ (tid t) (looking with_txn 0 s)) by (unfold gets; by rewrite <- (ix_root _ _ _ Hix)).
  rewrite (bind_run _ _ _ 0 (looking with_txn 0 s)) by (unfold gets; by rewrite <- (rd_trivial _ H)).
  apply (step_lookup with_txn 0 (tid t) s (fun _ => UnpinPage 0 false)); [done|by apply H|done| | |done].
  - apply (index_valid _ _ _ _ Hix), tid_ids.
  - apply (focus_id _ _ _ _ _ (index_focus _ _ _ Hix)), tid_ids.
Qed.

(** A leaf's entries in those of the tree. *)
Lemma leaf_entries_split fs id nx (es : list (K * V)) :
  entries (tokens (fill fs (TLeaf id nx es))) = entries (left_of fs) ++ es ++ entries (right_of fs).
Proof. rewrite tokens_fill, !entries_app. unfold entries at 2. simpl. by rewrite app_nil_r. Qed.

(** GetValue answers from the sorted list of the tree's entries, and leaves pages, pins and
    page set as they were. *)
Lemma get_value_ok fuel key with_txn s h t :
  ready s -> index_at s h t -> room 2 s -> (S h < fuel)%nat ->
  GetValue fuel key with_txn s = Ok (find_entry cmp key (entries (tokens t)), s).
Proof.
  intros H Hix Hr Hfuel. destruct (find_leaf_lookup fuel key false with_txn s h t H Hix Hr Hfuel)
    as (fs & id & nx & es & Hfind & Hf & Hfill & _ & Hid & Hb & Ha).
  unfold BPlusTree.GetValue. rewrite (bind_run _ _ _ _ _ Hfind).
  destruct (fo_holds _ _ _ _ Hf) as (p & Hp & Hi).
  erewrite bind_run by (apply (get_leaf_ok _ _ _ _ id (LeafNode p)); [apply elem_of_pinned|done|done]).
  rewrite (bind_run _ _ _ (find_entry cmp key (entries (tokens t))) (looking with_txn id s)).
  2:{ apply lift_ok. rewrite Leaf.leaf_lookup_ok by apply Hi. rewrite (li_entries _ _ _ _ _ _ _ Hi).
      rewrite <- Hfill, leaf_entries_split, find_entry_middle; [done|done| |].
      - intros e He. by apply (below_entries cmp key (left_of fs)).
      - intros e He. by apply (above_entries cmp key (right_of fs)). }
  rewrite (bind_run _ _ _ tt (paged [] ({[+ id +]} ⊎ pins (store s)) s)) by (by destruct with_txn).
  rewrite (li_id _ _ _ _ _ _ _ Hi).
  rewrite (bind_run _ _ _ _ _ (paged_unpin id [] _ s (index_valid _ _ _ _ Hix Hid) (rd_unsaved _ H))).
  unfold ret. by rewrite ready_paged.
Qed.
End Search.
End TreeSearch.
