(* ===== verification/TreeIndex.v ===== *)
(** * The index operations of the B+ tree

    Insert against the sorted list of the entries: the descent that keeps the unsafe
    ancestors pinned, the insertion in the leaf, its split, and the release of the page
    set; and any sequence of insertions and lookups. *)

From stdpp Require Import prelude gmap gmultiset list sorting.
From Stdlib Require Import ZArith Lia.
From S2P Require Import Prelude HeaderPage BPlusTreePage LeafPage InternalPage TreeNodes BPlusTree.
From S2P Require Import TreeModel TreeSteps TreeInsert TreeSearch.

Local Open Scope Z_scope.

Module TreeIndex.
Import BPage Nodes TreeModel BPlusTree TreeSteps TreeInsert TreeSearch.

Section Index.
Context {K V : Type} (key_size value_size : Z) (zero_key : K) (zero_value : V).
Context (index_name : list Z) (cmp : K -> K -> Z) `{!KeyOrder cmp}.
Implicit Types (s : State K V) (m : gmap Z (Node K V)) (t : tree K V) (fs : list (frame K V)).

Abbreviation leaf_max := (leaf_max key_size value_size).
Abbreviation holds := (holds key_size value_size).
Abbreviation fit := (fit key_size value_size).
Abbreviation focus := (focus key_size value_size cmp).
Abbreviation ready := (ready index_name).
Abbreviation index_at := (index_at key_size value_size cmp).
Abbreviation represents := (represents key_size value_size index_name cmp).
Abbreviation get_leaf := (get_leaf key_size value_size zero_key zero_value).
Abbreviation FindLeafPage := (FindLeafPage key_size zero_key cmp).
Abbreviation descend := (descend key_size zero_key cmp).
Abbreviation Insert := (Insert key_size value_size zero_key zero_value index_name cmp).

(** ** The page set of an update *)

(** [s] with the pages [l] pinned and in the page set. *)
Definition pathed (l : list Z) (s : State K V) : State K V :=
  paged l (list_to_set_disj l ⊎ pins (store s)) s.

Lemma pathed_pinned q l s : q ∈ l -> q ∈ pins (store (pathed l s)).
Proof. intros Hq. apply gmultiset_elem_of_disj_union. left. by apply elem_of_list_to_set_disj. Qed.

(** Pages that can be released. *)
Definition known (s : State K V) (l : list Z) : Prop :=
  forall q, q ∈ l -> tree_page (nodes (store s)) q /\ q <> INVALID_PAGE_ID.

Lemma release_ancestors_ok l r Q s :
  known s l -> unsaved (store s) = ∅ ->
  release_ancestors (length l) (paged (l ++ r) (list_to_set_disj l ⊎ Q) s) = Ok (tt, paged r Q s).
Proof.
  intros Hk Hu. revert Q Hk. induction l as [|q l IH]; intros Q Hk; simpl.
  - unfold ret. do 3 f_equal. multiset_solver.
  - destruct (Hk q) as [Hq Hqi]; [left|].
    replace ({[+ q +]} ⊎ list_to_set_disj l ⊎ Q) with ({[+ q +]} ⊎ (list_to_set_disj l ⊎ Q)) by multiset_solver.
    rewrite (bind_run _ _ _ _ _ (pop_page_ok q (l ++ r) _ s)).
    rewrite (bind_run _ _ _ _ _ (tree_page_id_ok q (paged (l ++ r) ({[+ q +]} ⊎ (list_to_set_disj l ⊎ Q)) s)
               (elem_of_pinned _ _) Hq)).
    rewrite (bind_run _ _ _ _ _ (paged_unpin q (l ++ r) _ s Hqi Hu)).
    apply IH. intros x Hx. apply Hk. by right.
Qed.

(** [ReleasePageSet] of an update that deletes no page. *)
Lemma release_loop_ok type dirty l Q s :
  known s l -> dirty = true \/ unsaved (store s) = ∅ -> (forall q, q ∈ l -> q ∉ deleted_page_set_ (txn s)) ->
  release_loop (length l) type dirty (paged l (list_to_set_disj l ⊎ Q) s) =
  Ok (tt, paged [] Q (edit (nodes (store s))
            (if dirty then unsaved (store s) ∖ list_to_set l else unsaved (store s)) s)).
Proof.
  revert Q s. induction l as [|q l IH]; intros Q s Hk Hu Hd; simpl.
  - unfold ret. do 3 f_equal; [multiset_solver|].
    destruct s as [? ? [] ?]. unfold edit, upd, set_store. simpl. do 2 f_equal. destruct dirty; set_solver.
  - destruct (Hk q) as [Hq Hqi]; [left|].
    replace ({[+ q +]} ⊎ list_to_set_disj l ⊎ Q) with ({[+ q +]} ⊎ (list_to_set_disj l ⊎ Q)) by multiset_solver.
    rewrite (bind_run _ _ _ _ _ (pop_page_ok q l _ s)).
    set (s1 := paged l ({[+ q +]} ⊎ (list_to_set_disj l ⊎ Q)) s).
    rewrite (bind_run _ _ _ _ _ (tree_page_id_ok q s1 (elem_of_pinned _ _) Hq)).
    rewrite (bind_run _ _ _ _ _ (unpin_saved_ok q dirty s1 (elem_of_pinned _ _) Hqi
      ltac:(destruct Hu as [Hu|Hu]; [by left|right; simpl; rewrite Hu; apply not_elem_of_empty]))).
    set (s2 := edit (nodes (store s)) (if dirty then unsaved (store s) ∖ {[q]} else unsaved (store s)) s).
    assert (E : drop_pin q dirty s1 = paged l (list_to_set_disj l ⊎ Q) s2).
    { unfold drop_pin, s1, s2, paged, edit, upd, set_txn, set_store.
      cbn [store txn trivial_page_id_ root_page_id_ nodes pins unsaved next capacity].
      by rewrite unpin_pinned. }
    rewrite E, (bind_run _ _ _ false (paged l (list_to_set_disj l ⊎ Q) s2)).
    2:{ unfold gets. do 2 f_equal. apply bool_decide_false. apply Hd. left. }
    rewrite andb_false_r. rewrite (bind_run _ _ _ tt (paged l (list_to_set_disj l ⊎ Q) s2)) by done.
    rewrite IH.
    + do 3 f_equal. unfold s2, edit, upd, set_store.
      cbn [store txn trivial_page_id_ root_page_id_ nodes pins unsaved next capacity].
      do 2 f_equal. destruct dirty; [set_solver|done].
    + intros x Hx. apply Hk. by right.
    + destruct Hu as [->|Hu]; [by left|right]. cbn [s2 edit upd set_store store unsaved]. rewrite Hu. by destruct dirty; [set_solver|].
    + intros x Hx. apply Hd. by right.
Qed.

(** ** The descent of an update *)

(** The pages above a safe child are released. *)
Lemma step_update (safe : bool) y l s :
  known s l -> unsaved (store s) = ∅ ->
  (let! size := gets (fun s => length (page_set_ (txn s))) in
   run! when safe (release_ancestors size) ;;
   run! AddIntoPageSet y ;;
   ret y) (paged l ({[+ y +]} ⊎ (list_to_set_disj l ⊎ pins (store s))) s) =
  Ok (y, pathed (if safe then [y] else l ++ [y]) s).
Proof.
  intros Hk Hu.
  assert (E : {[+ y +]} ⊎ (list_to_set_disj l ⊎ pins (store s)) =
              list_to_set_disj l ⊎ ({[+ y +]} ⊎ pins (store s))) by multiset_solver.
  rewrite E. set (s1 := paged l _ s). rewrite (bind_run _ _ s1 (length l) s1 eq_refl). destruct safe; unfold when.
  - pose proof (release_ancestors_ok l [] ({[+ y +]} ⊎ pins (store s)) s Hk Hu) as Hrel.
    rewrite app_nil_r in Hrel. rewrite (bind_run _ _ _ _ _ Hrel).
    rewrite (bind_run _ _ _ _ _ (add_page_ok y _ _ _)). unfold ret, pathed. do 3 f_equal. multiset_solver.
  - rewrite (bind_run _ _ s1 tt s1 eq_refl). unfold s1.
    rewrite (bind_run _ _ _ _ _ (add_page_ok y _ _ _)). unfold ret, pathed. do 3 f_equal.
    rewrite list_to_set_disj_app. simpl. multiset_solver.
Qed.

Definition is_update (type : Action.t) : Prop := type <> Action.LookUp.

Lemma enter_child_update type page y l s :
  is_update type -> known s l -> unsaved (store s) = ∅ -> tree_page (nodes (store s)) y -> y <> INVALID_PAGE_ID ->
  room (length l + 1) s ->
  exists safe : bool, enter_child true type page y (pathed l s) = Ok (y, pathed (if safe then [y] else l ++ [y]) s).
Proof.
  intros Htype Hk Hu (n & hd & Hn & Hh & _) Hy Hr.
  assert (Hr1 : room 1 (pathed l s)) by (by apply room_pages).
  assert (Hf : fetch_data y (pathed l s) = Ok (y, pin_page y (pathed l s))).
  { apply (fetch_data_ok y _ 0); [done|done|by exists n]. }
  assert (Hg : get_page y (pin_page y (pathed l s)) = Ok (hd, pin_page y (pathed l s))).
  { apply (get_page_ok y n); [apply elem_of_pinned|done|done]. }
  destruct type; [done|exists (size_ hd <? max_size_ hd)|exists (GetMinSize hd <? size_ hd)];
    unfold enter_child; rewrite (bind_run _ _ _ _ _ (asserts_ok true _ eq_refl));
    rewrite (bind_run _ _ _ _ _ Hf), (bind_run _ _ _ _ _ Hg); exact (step_update _ y l s Hk Hu).
Qed.

Context (Hsizes : sizes_ok key_size value_size).

Lemma known_app s l y : known s l -> tree_page (nodes (store s)) y -> y <> INVALID_PAGE_ID ->
  forall safe : bool, known s (if safe then [y] else l ++ [y]).
Proof.
  intros Hk Hy Hyi safe q. destruct safe; rewrite ?elem_of_app, list_elem_of_singleton.
  - by intros ->.
  - intros [Hq| ->]; [by apply Hk|done].
Qed.

Lemma descend_update h : forall fuel key type fs t s l,
  is_update type -> focus h (nodes (store s)) fs t ->
  below cmp key (left_of fs) -> above cmp key (right_of fs) ->
  (forall q, q ∈ ids t -> q <> INVALID_PAGE_ID) -> known s l -> unsaved (store s) = ∅ -> tid t ∈ l ->
  room (length l + h) s -> (h < fuel)%nat ->
  exists fs' id nx es l',
    descend fuel key false true type (tid t) (pathed l s) = Ok (id, pathed l' s) /\
    focus 0 (nodes (store s)) fs' (TLeaf id nx es) /\ fill fs' (TLeaf id nx es) = fill fs t /\
    length fs' = (h + length fs)%nat /\ id ∈ ids t /\
    below cmp key (left_of fs') /\ above cmp key (right_of fs') /\
    known s l' /\ id ∈ l' /\ (length l' <= length l + h)%nat /\
    (forall q, q ∈ l' -> q ∈ l \/ q ∈ ids t).
Proof.
  induction h as [|h IH]; intros [|fuel] key type fs t s l Hty Hf Hb Ha Hids Hk Hu Hin Hr Hfuel; try lia;
    destruct (holds_root _ _ _ _ _ _ (fo_holds _ _ _ _ _ _ _ Hf)) as (n & hd & Hn & Hh & _ & _ & Hleaf & Htriv);
    assert (Hpin : tid t ∈ pins (store (pathed l s))) by (by apply pathed_pinned);
    cbn [BPlusTree.descend];
    rewrite (bind_run _ _ _ _ _ (get_page_ok (tid t) n hd (pathed l s) Hpin Hn Hh)).
  - rewrite (proj2 Hleaf eq_refl). destruct t as [id nx es|id kcs]; [|by destruct (fo_holds _ _ _ _ _ _ _ Hf)].
    exists fs, id, nx, es, l. do 4 (split; [done|]). split; [left|]. do 4 (split; [done|]). split; [lia|auto].
  - destruct (IsLeafPage hd); [by discriminate (proj1 Hleaf eq_refl)|]. rewrite Htriv.
    destruct t as [id nx es|id kcs]; [by destruct (fo_holds _ _ _ _ _ _ _ Hf)|]. cbn [tid] in *.
    destruct (focus_child _ _ _ Hsizes key _ _ _ _ _ Hf Hb Ha) as (p & f & t & Hp & _ & Hl & Hf' & Hplug & Hb' & Ha').
    assert (Hsub : forall q, q ∈ ids t -> q ∈ ids (TNode id kcs)).
    { intros q Hq. rewrite <- Hplug, ids_plug, elem_of_app. by left. }
    pose proof (holds_known _ _ _ _ _ _ _ (fo_holds _ _ _ _ _ _ _ Hf') (tid_ids t)) as Hpt.
    pose proof (Hids _ (Hsub _ (tid_ids t))) as Hti.
    destruct (enter_child_update type id (tid t) l s Hty Hk Hu Hpt Hti) as [safe He]; [apply (room_le _ _ _ Hr); lia|].
    set (l1 := if safe then [tid t] else l ++ [tid t]) in *.
    assert (Hl1 : (length l1 <= length l + 1)%nat) by (unfold l1; destruct safe; rewrite ?length_app; simpl; lia).
    destruct (IH fuel key type (f :: fs) t s l1) as
      (fs' & id' & nx & es & l' & Hd & Hfo & Hfill & Hlen & Hid & Hbl & Hab & Hkn & Hil & Hll & Hlq).
    { done. } { done. } { done. } { done. } { auto. } { by apply known_app. } { done. }
    { unfold l1. destruct safe; rewrite ?elem_of_app, list_elem_of_singleton; auto. }
    { apply (room_le _ _ _ Hr). lia. } { lia. }
    exists fs', id', nx, es, l'. rewrite (bind_run _ _ _ (tid t) (pathed l1 s)).
    + split; [done|]. split; [done|]. split; [by rewrite Hfill, <- Hplug|].
      split; [rewrite Hlen; simpl; lia|]. split; [by apply Hsub|]. do 4 (split; [done|]). split; [lia|].
      intros q Hq. apply Hlq in Hq as [Hq|Hq]; [|right; by apply Hsub].
      unfold l1 in Hq. destruct safe; rewrite ?elem_of_app, list_elem_of_singleton in Hq.
      * right. subst q. apply Hsub, tid_ids.
      * destruct Hq as [Hq| ->]; [by left|right; apply Hsub, tid_ids].
    + erewrite bind_run by (apply (get_internal_ok _ _ id (InternalNode p)); [done|done|done]).
      by rewrite (bind_run _ _ _ (tid t) (pathed l s)) by (by apply lift_ok).
Qed.

Lemma pathed_trivial s : looking true 0 s = pathed [0] s.
Proof. unfold looking, pathed. f_equal; simpl; multiset_solver. Qed.

Lemma enter_root_update type s h t :
  is_update type -> ready s -> index_at s h t -> room 2 s ->
  exists safe : bool, enter_root true type (pathed [0] s) =
                      Ok (tid t, pathed (if safe then [tid t] else [0; tid t]) s).
Proof.
  intros Htype H Hix Hr.
  destruct (holds_known _ _ _ _ _ _ _ (ix_holds _ _ _ _ _ _ Hix) (tid_ids t)) as (n & hd & Hn & Hh & _).
  pose proof (index_valid _ _ _ _ _ _ _ Hix (tid_ids t)) as Hti.
  assert (Hr1 : room 1 (pathed [0] s)) by (by apply room_pages).
  pose proof (fetch_data_ok (tid t) (pathed [0] s) 0 Hr1 Hti (mk_is_Some _ _ Hn)) as Hf.
  set (s1 := pin_page (tid t) (pathed [0] s)) in *.
  assert (Hg : get_page (tid t) s1 = Ok (hd, s1)) by (apply (get_page_ok (tid t) n); [apply elem_of_pinned|done|done]).
  assert (E : s1 = paged [0] ({[+ 0 +]} ⊎ ({[+ tid t +]} ⊎ pins (store s))) s).
  { unfold s1, pathed. rewrite paged_pin. f_equal. simpl. multiset_solver. }
  assert (Hrest : forall safe : bool,
    (run! when safe (run! pop_page ;; run! UnpinPage 0 false ;; ret tt) ;;
     run! AddIntoPageSet (tid t) ;; ret (tid t)) s1 =
    Ok (tid t, pathed (if safe then [tid t] else [0; tid t]) s)).
  { intros safe. rewrite E. destruct safe; unfold when.
    - rewrite (bind_run _ _ _ tt (paged [] ({[+ tid t +]} ⊎ pins (store s)) s)).
      + rewrite (bind_run _ _ _ _ _ (add_page_ok (tid t) [] _ s)). unfold ret, pathed. do 3 f_equal.
        simpl. multiset_solver.
      + rewrite (bind_run _ _ _ _ _ (pop_page_ok 0 [] _ s)).
        by rewrite (bind_run _ _ _ _ _ (paged_unpin 0 [] _ s ltac:(done) (rd_unsaved _ _ H))).
    - rewrite (bind_run _ _ _ tt _ eq_refl), (bind_run _ _ _ _ _ (add_page_ok (tid t) [0] _ s)).
      unfold ret, pathed. do 3 f_equal. simpl. multiset_solver. }
  unfold enter_root. rewrite (bind_run _ _ _ (tid t) (pathed [0] s)) by (unfold gets; by rewrite <- (ix_root _ _ _ _ _ _ Hix)).
  rewrite (bind_run _ _ _ 0 (pathed [0] s)) by (unfold gets; by rewrite <- (rd_trivial _ _ H)).
  destruct type; [done|exists (size_ hd <? max_size_ hd)|exists (1 <? size_ hd)];
    rewrite (bind_run _ _ _ _ _ (asserts_ok true _ eq_refl)), (bind_run _ _ _ _ _ Hf), (bind_run _ _ _ _ _ Hg);
    apply Hrest.
Qed.

Lemma trivial_known s : ready s -> tree_page (nodes (store s)) 0.
Proof. intros H. destruct (rd_page _ _ H) as (hd & Hhd & Hid & _). by exists (TrivialPage hd), hd. Qed.

(** A descent ready for the change of a leaf. *)
Record reached (s : State K V) (h : nat) (t : tree K V) (key : K) (fs : list (frame K V)) (id nx : Z)
    (es : list (K * V)) (l : list Z) : Prop := {
  re_focus : focus 0 (nodes (store s)) fs (TLeaf id nx es);
  re_fill : fill fs (TLeaf id nx es) = t;
  re_length : length fs = h;
  re_below : below cmp key (left_of fs);
  re_above : above cmp key (right_of fs);
  re_known : known s l;
  re_leaf : id ∈ l;
  re_pages : (length l <= h + 2)%nat;
  re_ids q : q ∈ l -> q = 0 \/ q ∈ ids t
}.

Lemma find_leaf_update fuel key type s h t :
  is_update type -> ready s -> index_at s h t -> room (h + 2) s -> (S h < fuel)%nat ->
  exists fs id nx es l,
    FindLeafPage fuel key false true type s = Ok (id, pathed l s) /\ reached s h t key fs id nx es l.
Proof.
  intros Hty H Hix Hr Hfuel. rewrite (enter_trivial _ _ _ _ fuel key false true type s (h + 1) H); [|apply (room_le _ _ _ Hr); lia].
  destruct fuel as [|fuel]; [lia|]. rewrite pathed_trivial.
  destruct (enter_root_update type s h t Hty H Hix) as [safe He]; [apply (room_le _ _ _ Hr); lia|].
  set (l1 := if safe then [tid t] else [0; tid t]) in *.
  pose proof (holds_known _ _ _ _ _ _ _ (ix_holds _ _ _ _ _ _ Hix) (tid_ids t)) as Hroot.
  pose proof (index_valid _ _ _ _ _ _ _ Hix (tid_ids t)) as Hti.
  assert (Hl1 : forall q, q ∈ l1 -> q = 0 \/ q = tid t).
  { intros q. unfold l1. destruct safe; rewrite ?elem_of_cons, ?elem_of_nil; naive_solver. }
  destruct (descend_update h fuel key type [] t s l1) as
    (fs & id & nx & es & l & Hd & Hfo & Hfill & Hlen & Hid & Hb & Ha & Hkn & Hil & Hll & Hlq).
  { done. } { by apply index_focus. } { apply below_nil. } { apply above_nil. }
  { intros q Hq. by apply (index_valid _ _ _ _ _ _ _ Hix). }
  { intros q Hq. destruct (Hl1 q Hq) as [->| ->]; [|done]. split; [by apply trivial_known|done]. }
  { apply H. }
  { unfold l1. destruct safe; rewrite ?elem_of_cons; auto using list_elem_of_here. }
  { apply (room_le _ _ _ Hr). unfold l1. destruct safe; simpl; lia. } { lia. }
  exists fs, id, nx, es, l. split.
  - rewrite (trivial_step _ _ _ _ fuel key false true type s (pathed [0] s) (tid t, pathed l1 s) H eq_refl); [done| |done].
    apply pathed_pinned. left.
  - split; try done.
    + simpl in Hlen. lia.
    + unfold l1 in Hll. destruct safe; simpl in Hll; lia.
    + intros q Hq. apply Hlq in Hq as [Hq|Hq]; [|by right]. destruct (Hl1 q Hq) as [->| ->]; [by left|].
      right. apply tid_ids.
Qed.

Lemma release_set_ok type dirty l Q s :
  page_set_ (txn s) = l -> pins (store s) = list_to_set_disj l ⊎ Q ->
  known s l -> dirty = true \/ unsaved (store s) = ∅ -> (forall q, q ∈ l -> q ∉ deleted_page_set_ (txn s)) ->
  ReleasePageSet true type dirty s =
  Ok (tt, paged [] Q (edit (nodes (store s))
            (if dirty then unsaved (store s) ∖ list_to_set l else unsaved (store s)) s)).
Proof.
  intros Hl HQ Hk Hu Hd. unfold ReleasePageSet. rewrite (bind_run _ _ _ _ _ (asserts_ok true _ eq_refl)).
  rewrite (bind_run _ _ s (length l) s) by (unfold gets; by rewrite Hl).
  assert (E : paged l (list_to_set_disj l ⊎ Q) s = s) by (rewrite <- HQ, <- Hl; apply paged_self).
  rewrite <- (release_loop_ok type dirty l Q s Hk Hu Hd). by rewrite E.
Qed.

(** ** The outcome of an update *)

(** What an update of the index leaves: again a ready index, with the entries [es'], no
    pin more or less, and a tree at most one level higher. *)
Record updated (s s' : State K V) (h : nat) (es' : list (K * V)) (h' : nat) (t' : tree K V) : Prop := {
  up_ready : ready s';
  up_index : index_at s' h' t';
  up_undeleted : undeleted s' (ids t');
  up_entries : entries (tokens t') = es';
  up_height : (h' <= S h)%nat;
  up_pins : pins (store s') = pins (store s);
  up_capacity : capacity (store s') = capacity (store s);
  up_next : next (store s) <= next (store s')
}.

(** The leaf reached, with other entries. *)
Lemma leaf_context s h t key fs id nx es l :
  index_at s h t -> reached s h t key fs id nx es l ->
  (id ∉ context_ids fs) /\ NoDup (context_ids fs) /\
  (forall q, q ∈ id :: context_ids fs -> HEADER_PAGE_ID < q < next (store s)).
Proof.
  intros Hix Hre. pose proof (ix_nodup _ _ _ _ _ _ Hix) as Hnd.
  pose proof (ids_fill fs (TLeaf id nx es)) as Hperm. rewrite (re_fill _ _ _ _ _ _ _ _ _ Hre) in Hperm.
  rewrite Hperm in Hnd. simpl in Hnd. apply NoDup_cons in Hnd as [H1 H2].
  split; [done|]. split; [done|]. intros q Hq. apply (ix_ids _ _ _ _ _ _ Hix). by rewrite Hperm.
Qed.

Lemma entries_leaf fs id nx (es : list (K * V)) f :
  (forall e, e ∈ entries (left_of fs) -> cmp e.1 f < 0) ->
  (forall e, e ∈ entries (right_of fs) -> cmp f e.1 < 0) -> forall v,
  insert_entry cmp f v (entries (tokens (fill fs (TLeaf id nx es)))) =
  entries (tokens (fill fs (TLeaf id nx (insert_entry cmp f v es)))).
Proof. intros H1 H2 v. rewrite !leaf_entries_split. by apply insert_entry_middle. Qed.

Lemma leaves_fill_leaf fs id nx (es : list (K * V)) :
  leaves (tokens (fill fs (TLeaf id nx es))) = leaves (left_of fs) ++ (id, nx) :: leaves (right_of fs).
Proof. rewrite tokens_fill, !leaves_app. done. Qed.

(** The index after a change of the entries of one leaf. *)
Lemma index_leaf s s' h t key fs id nx es l es' p' :
  index_at s h t -> reached s h t key fs id nx es l ->
  root_page_id_ s' = root_page_id_ s -> next (store s') = next (store s) ->
  nodes (store s') = <[id := LeafNode p']> (nodes (store s)) ->
  leaf_is key_size value_size (context_parent fs) id nx es' p' ->
  fit 0 (is_root fs) (TLeaf id nx es') ->
  ordered cmp (left_of fs ++ [Page id nx es'] ++ right_of fs) ->
  index_at s' h (fill fs (TLeaf id nx es')) /\ ids (fill fs (TLeaf id nx es')) ≡ₚ ids t.
Proof.
  intros Hix Hre Hroot Hnext Hm Hleaf Hfit Hord.
  destruct (leaf_context _ _ _ _ _ _ _ _ _ Hix Hre) as (Hn & _ & _).
  pose proof (re_focus _ _ _ _ _ _ _ _ _ Hre) as Hfo.
  assert (Hperm : ids (fill fs (TLeaf id nx es')) ≡ₚ ids t).
  { rewrite <- (re_fill _ _ _ _ _ _ _ _ _ Hre), !ids_fill. done. }
  split; [|done]. rewrite <- (re_length _ _ _ _ _ _ _ _ _ Hre). split.
  - rewrite Hroot, (ix_root _ _ _ _ _ _ Hix), <- (re_fill _ _ _ _ _ _ _ _ _ Hre). by apply tid_fill.
  - rewrite <- (Nat.add_0_r (length fs)). apply fill_holds; rewrite Hm.
    + exists p'. split; [apply lookup_insert_eq|done].
    + apply (context_agree _ _ 0 (nodes (store s))); [apply Hfo|].
      intros q Hq. apply lookup_insert_ne. by intros ->.
  - rewrite <- (Nat.add_0_r (length fs)). apply fill_fit; [done|apply Hfo].
  - rewrite Hperm. apply Hix.
  - intros q. rewrite Hperm, Hnext. apply Hix.
  - by rewrite tokens_fill.
  - rewrite leaves_fill_leaf, <- (leaves_fill_leaf fs id nx es), (re_fill _ _ _ _ _ _ _ _ _ Hre). apply Hix.
Qed.

(** [ready] after a change of the pages of the tree. *)
Lemma ready_after s s' (l : list Z) :
  ready s -> (forall q, q ∈ l -> HEADER_PAGE_ID < q) ->
  trivial_page_id_ s' = trivial_page_id_ s -> page_set_ (txn s') = [] -> unsaved (store s') = ∅ ->
  next (store s) <= next (store s') ->
  (forall q, q ∉ l -> q <> HEADER_PAGE_ID -> q < next (store s) ->
             nodes (store s') !! q = nodes (store s) !! q) ->
  header_ok index_name (root_page_id_ s') (nodes (store s')) -> ready s'.
Proof.
  intros H Hl Ht Hp Hu Hn Hm Hh. destruct (rd_page _ _ H) as (hd & Hhd & Hr).
  pose proof (rd_next _ _ H) as Hnx. unfold HEADER_PAGE_ID in *. split; try done.
  - by rewrite Ht, (rd_trivial _ _ H).
  - exists hd. split; [|done]. rewrite Hm; [done| |done|lia]. intros Hq. apply Hl in Hq. lia.
  - unfold HEADER_PAGE_ID. lia.
Qed.

Lemma undeleted_known s h t (l : list Z) :
  index_at s h t -> undeleted s (ids t) -> (forall q, q ∈ l -> q = 0 \/ q ∈ ids t) ->
  forall q, q ∈ l -> q ∉ deleted_page_set_ (txn s).
Proof.
  intros Hix Hud Hl q Hq Hd. destruct (Hud q Hd) as [Hn Hb].
  destruct (Hl q Hq) as [->|Hin]; [lia|done].
Qed.

(** ** A leaf with room *)

Lemma insert_in_leaf_ok page key value p s :
  page ∈ pins (store s) -> nodes (store s) !! page = Some (LeafNode p) -> Leaf.wf p ->
  Leaf.GetSize p < Leaf.GetMaxSize p ->
  exists p', insert_in_leaf key_size value_size zero_key zero_value cmp page key value s =
               Ok (tt, put page (LeafNode p') s) /\
             Leaf.same_frame p p' /\ Leaf.entries p' = insert_entry cmp key value (Leaf.entries p).
Proof.
  intros Hin Hp Hwf Hlt. unfold insert_in_leaf.
  erewrite bind_run by (by apply (get_leaf_ok _ _ _ _ page (LeafNode p))).
  destruct (Leaf.insert_ok cmp p key value Hwf Hlt) as (p' & Hi & Hf & He).
  rewrite (bind_run _ _ s (Leaf.GetSize p', p') s) by (by apply lift_ok).
  exists p'. split; [by apply put_leaf_ok|done].
Qed.

Lemma insert_entry_length k v (l : list (K * V)) : (length l <= length (insert_entry cmp k v l))%nat.
Proof.
  induction l as [|[k' v'] l IH]; simpl; [lia|].
  destruct (0 <=? _); [destruct (_ =? 0)|]; simpl; lia.
Qed.

Lemma insert_room_ok s h t key value fs id nx es l p :
  ready s -> index_at s h t -> undeleted s (ids t) -> reached s h t key fs id nx es l ->
  nodes (store s) !! id = Some (LeafNode p) -> leaf_is key_size value_size (context_parent fs) id nx es p ->
  Z.of_nat (length es) < leaf_max ->
  exists s' t',
    (run! insert_in_leaf key_size value_size zero_key zero_value cmp id key value ;;
     run! ReleasePageSet true Action.Insert true ;; ret true) (pathed l s) = Ok (true, s') /\
    updated s s' h (insert_entry cmp key value (entries (tokens t))) h t'.
Proof.
  intros H Hix Hud Hre Hp Hi Hlen.
  destruct (insert_in_leaf_ok id key value p (pathed l s)) as (p' & Hins & Hf & He).
  { apply pathed_pinned, Hre. } { done. } { apply Hi. }
  { by rewrite (leaf_is_length _ _ _ _ _ _ _ Hi), (li_max _ _ _ _ _ _ _ Hi). }
  rewrite (li_entries _ _ _ _ _ _ _ Hi) in He.
  pose proof (leaf_frame_is _ _ _ _ _ _ _ _ _ Hi Hf He) as Hi'.
  destruct (leaf_context _ _ _ _ _ _ _ _ _ Hix Hre) as (Hn & _ & Hb).
  set (s1 := put id (LeafNode p') (pathed l s)) in *.
  assert (Hk1 : known s1 l).
  { intros q Hq. destruct (re_known _ _ _ _ _ _ _ _ _ Hre q Hq) as [Hq1 Hq2]. split; [|done].
    cbn. destruct (decide (q = id)) as [->|Hne]; [|by apply tree_page_insert_ne].
    exists (LeafNode p'), (Leaf.hdr p'). rewrite lookup_insert_eq. split; [done|]. split; [done|apply Hi']. }
  pose proof (release_set_ok Action.Insert true l (pins (store s)) s1 eq_refl eq_refl Hk1 (or_introl eq_refl)) as Hrel.
  rewrite (bind_run _ _ _ _ _ Hins), (bind_run _ _ _ _ _ (Hrel
    (undeleted_known _ _ _ _ Hix Hud (re_ids _ _ _ _ _ _ _ _ _ Hre)))).
  set (s2 := paged _ _ _). exists s2, (fill fs (TLeaf id nx (insert_entry cmp key value es))).
  split; [done|].
  destruct (index_leaf s s2 h t key fs id nx es l (insert_entry cmp key value es) p' Hix Hre eq_refl eq_refl eq_refl Hi')
    as [Hix' Hperm].
  { pose proof (fo_fit _ _ _ _ _ _ _ (re_focus _ _ _ _ _ _ _ _ _ Hre)) as Hfit. simpl in *.
    pose proof (insert_entry_length key value es). destruct (is_root fs); lia. }
  { apply (ordered_insert cmp _ _ id nx id nx es key value); [|apply Hre..].
    apply (fo_order _ _ _ _ _ _ _ (re_focus _ _ _ _ _ _ _ _ _ Hre)). }
  split; try done.
  - apply (ready_after s s2 [id] H); try done.
    + intros q ->%list_elem_of_singleton. apply Hb. left.
    + cbn [s2 s1 paged edit put pathed upd set_txn set_store store unsaved]. rewrite (rd_unsaved _ _ H).
      pose proof (re_leaf _ _ _ _ _ _ _ _ _ Hre) as Hid. clear -Hid. set_solver.
    + intros q Hq _ _. apply lookup_insert_ne. intros ->. apply Hq. left.
    + apply (header_ok_agree _ _ (nodes (store s))); [apply H|]. apply lookup_insert_ne. intros E.
      pose proof (Hb id (list_elem_of_here _ _)). lia.
  - intros q Hq. rewrite Hperm. by apply Hud.
  - rewrite <- (re_fill _ _ _ _ _ _ _ _ _ Hre). symmetry. apply entries_leaf; intros e He'.
    + apply (below_entries cmp key (left_of fs)); [apply Hre|done].
    + apply (above_entries cmp key (right_of fs)); [apply Hre|done].
  - lia.
Qed.
End Index.
End TreeIndex.
