(* ===== verification/TreeSplit.v ===== *)
(** * The split of a full leaf

    The insertion in a full leaf: its entries are cut in two, the new one goes to the half
    its key falls in, and the separator goes to the parent. *)

From stdpp Require Import prelude gmap gmultiset list sorting.
From Stdlib Require Import ZArith Lia.
From S2P Require Import Prelude HeaderPage BPlusTreePage LeafPage InternalPage TreeNodes BPlusTree.
From S2P Require Import TreeModel TreeSteps TreeInsert TreeSearch TreeIndex.

Local Open Scope Z_scope.

Module TreeSplit.
Import BPage Nodes TreeModel BPlusTree TreeSteps TreeInsert TreeSearch TreeIndex.

Section Halves.
Context {K V : Type} (cmp : K -> K -> Z) `{!KeyOrder cmp}.
Implicit Types (es : list (K * V)).

Lemma insert_entry_new k v es :
  find_entry cmp k es = None -> length (insert_entry cmp k v es) = S (length es).
Proof.
  induction es as [|[k' v'] es IH]; intros Hf; simpl in *; [done|].
  destruct (Z.eqb_spec (cmp k k') 0) as [|Hne]; [done|]. destruct (0 <=? cmp k' k); [|simpl; by rewrite IH].
  rewrite (proj2 (Z.eqb_neq _ 0)); [done|]. intros E. apply Hne. by apply cmp_eq_sym.
Qed.

Lemma insert_entry_present k v es :
  sorted cmp es -> find_entry cmp k es <> None -> insert_entry cmp k v es = es.
Proof.
  induction es as [|[k' v'] es IH]; intros Hs Hf; simpl in *; [done|].
  apply sorted_cons_inv in Hs as [Hs Hlt]. destruct (Z.eqb_spec (cmp k k') 0) as [E|Hne].
  - apply cmp_eq_sym in E; [|done]. by rewrite E.
  - assert (cmp k' k < 0).
    { destruct (Z.lt_trichotomy (cmp k' k) 0) as [|[E|E]]; [done|by apply cmp_eq_sym in E|].
      destruct Hf. apply find_entry_greater. intros x Hx. apply (cmp_lt_le_trans cmp k k').
      - by apply ko_antisym.
      - specialize (Hlt x Hx). simpl in Hlt. lia. }
    rewrite (proj2 (Z.leb_gt 0 _)) by done. by rewrite IH.
Qed.

(** The halves of a full leaf after the new entry. *)
Definition halves (k : K) (v : V) (es : list (K * V)) (pop : K) : list (K * V) * list (K * V) :=
  let c := (length es / 2)%nat in
  if cmp k pop <? 0 then (insert_entry cmp k v (take c es), drop c es)
  else (take c es, insert_entry cmp k v (drop c es)).

Lemma halves_ok k v es pop w er :
  sorted cmp es -> find_entry cmp k es = None -> (2 <= length es)%nat ->
  drop (length es / 2) es = (pop, w) :: er ->
  let (l, r) := halves k v es pop in
  l ++ r = insert_entry cmp k v es /\ l <> [] /\ (exists er', r = (pop, w) :: er') /\
  (length es / 2 <= length l)%nat /\ (length es / 2 <= length r)%nat.
Proof.
  intros Hs Hf Hlen Hd. unfold halves. set (c := (length es / 2)%nat) in *.
  assert (Hc : (1 <= c)%nat) by (apply Nat.div_le_lower_bound; lia).
  assert (Hc2 : (2 * c <= length es)%nat) by apply Nat.Div0.mul_div_le.
  pose proof (take_drop c es) as Hes. rewrite Hd in Hes.
  pose proof (length_take_le es c ltac:(lia)) as Hlt. pose proof (length_drop es c) as Hld.
  rewrite <- Hes in Hs, Hf. apply sorted_app in Hs as (_ & [_ Hr]%sorted_cons_inv & Hlr).
  rewrite Hd in *. simpl in Hld. destruct (Z.ltb_spec (cmp k pop) 0) as [Hk|Hk].
  - assert (Hab : forall e, e ∈ (pop, w) :: er -> cmp k e.1 < 0).
    { intros e [->|He]%elem_of_cons; [done|]. apply (cmp_lt_le_trans cmp k pop); [done|].
      specialize (Hr e He). simpl in Hr. lia. }
    pose proof (insert_entry_length cmp k v (take c es)) as Hi. split; [|split; [|split; [by exists er|]]].
    + rewrite <- Hes at 2. symmetry. apply (insert_entry_middle cmp k v [] (take c es)); [|done].
      by intros e ?%not_elem_of_nil.
    + intros E. rewrite E in Hi. simpl in Hi. lia.
    + simpl. lia.
  - assert (Hkp : cmp pop k < 0).
    { rewrite <- (app_nil_r ((pop, w) :: er)), find_entry_middle in Hf.
      - simpl in Hf. destruct (Z.eqb_spec (cmp k pop) 0); [done|]. apply ko_antisym. lia.
      - done.
      - intros e He. apply (cmp_lt_le_trans cmp e.1 pop); [by apply (Hlr e (pop, w)); [|left]|].
        pose proof (ko_antisym k pop). pose proof (ko_antisym pop k). lia.
      - by intros e ?%not_elem_of_nil. }
    assert (Hbl : forall e, e ∈ take c es -> cmp e.1 k < 0).
    { intros e He. apply (cmp_lt_le_trans cmp e.1 pop); [apply (Hlr e (pop, w)); [done|left]|lia]. }
    pose proof (insert_entry_length cmp k v ((pop, w) :: er)) as Hi. split; [|split; [|split; [|split]]].
    + rewrite <- Hes at 2. rewrite <- (app_nil_r ((pop, w) :: er)) at 2.
      rewrite insert_entry_middle; [by rewrite app_nil_r|done|done|by intros e ?%not_elem_of_nil].
    + intros E. apply (f_equal length) in E. simpl in E. lia.
    + exists (insert_entry cmp k v er). simpl. by rewrite (proj2 (Z.leb_gt 0 _)) by lia.
    + lia.
    + simpl in Hi |- *. lia.
Qed.
End Halves.

Section Split.
Context {K V : Type} (key_size value_size : Z) (zero_key : K) (zero_value : V).
Context (index_name : list Z) (cmp : K -> K -> Z) `{!KeyOrder cmp}.
Implicit Types (s : State K V) (m : gmap Z (Node K V)) (t : tree K V) (fs : list (frame K V)).

Abbreviation leaf_max := (leaf_max key_size value_size).
Abbreviation leaf_is := (leaf_is key_size value_size).
Abbreviation holds := (holds key_size value_size).
Abbreviation fit := (fit key_size value_size).
Abbreviation focus := (focus key_size value_size cmp).
Abbreviation ready := (ready index_name).
Abbreviation index_at := (index_at key_size value_size cmp).
Abbreviation reached := (reached key_size value_size cmp).
Abbreviation updated := (updated key_size value_size index_name cmp).
Abbreviation get_leaf := (get_leaf key_size value_size zero_key zero_value).
Abbreviation Split := (Split key_size value_size zero_key zero_value).
Abbreviation insert_in_leaf := (insert_in_leaf key_size value_size zero_key zero_value cmp).

Context (Hsizes : sizes_ok key_size value_size) (Hname : Header.name_ok index_name).

(** The insertion in one of the two leaves [id] and [N]. *)
Lemma insert_in_half half key value parent nx es p s :
  half ∈ pins (store s) -> nodes (store s) !! half = Some (LeafNode p) -> leaf_is parent half nx es p ->
  Z.of_nat (length es) < leaf_max ->
  exists p', insert_in_leaf half key value s = Ok (tt, put half (LeafNode p') s) /\
             leaf_is parent half nx (insert_entry cmp key value es) p'.
Proof.
  intros Hin Hp Hi Hlen.
  destruct (insert_in_leaf_ok key_size value_size zero_key zero_value cmp half key value p s Hin Hp) as (p' & Hins & Hf & He).
  { apply Hi. } { by rewrite (leaf_is_length _ _ _ _ _ _ _ Hi), (li_max _ _ _ _ _ _ _ Hi). }
  exists p'. split; [done|]. rewrite (li_entries _ _ _ _ _ _ _ Hi) in He.
  by apply (leaf_frame_is _ _ _ _ _ _ _ _ _ Hi).
Qed.

(** The run up to the call of InsertIntoParent. *)
Lemma split_insert_run id p parent nx es key value s k :
  nodes (store s) !! id = Some (LeafNode p) -> leaf_is parent id nx es p ->
  id ∈ pins (store s) -> room (S k) s -> id <> next (store s) -> Z.of_nat (length es) = leaf_max ->
  let N := next (store s) in
  exists pop w er m' u',
    drop (length es / 2) es = (pop, w) :: er /\
    (forall A (f : Z -> K -> M K V A),
      (let! new_page := Split KLeaf id in
       let! p := get_leaf new_page in
       let! pop_key := lift (Leaf.KeyAt 0 p) in
       run! insert_in_leaf (if cmp key pop_key <? 0 then id else new_page) key value ;;
       f new_page pop_key) s =
      f N pop (upd m' ({[+ N +]} ⊎ pins (store s)) u' (N + 1) s)) /\
    (exists pl, m' !! id = Some (LeafNode pl) /\ leaf_is parent id N (halves cmp key value es pop).1 pl) /\
    (exists pr, m' !! N = Some (LeafNode pr) /\ leaf_is parent N nx (halves cmp key value es pop).2 pr) /\
    (forall q, q <> id -> q <> N -> m' !! q = nodes (store s) !! q) /\
    u' ⊆ unsaved (store s) ∪ {[id; N]}.
Proof.
  intros Hp Hi Hin Hr Hne Hfull N.
  destruct (split_leaf_ok key_size value_size zero_key zero_value Hsizes id p parent nx es s k Hp Hi Hin Hr Hne)
    as (p' & r' & u' & Hsp & Hl & Hrt & Hu).
  pose proof (so_leaf _ _ Hsizes) as [H2 _].
  assert (Hc2 : (2 * (length es / 2) <= length es)%nat) by apply Nat.Div0.mul_div_le.
  assert (Hc1 : (1 <= length es / 2)%nat) by (apply Nat.div_le_lower_bound; lia).
  destruct (drop (length es / 2) es) as [|[pop w] er] eqn:Hd.
  { apply (f_equal length) in Hd. rewrite length_drop in Hd. cbn [length] in Hd. lia. }
  set (s1 := upd _ _ _ _ s) in Hsp. fold N in s1.
  assert (HN1 : N ∈ pins (store s1)) by apply elem_of_pinned.
  assert (Hin1 : id ∈ pins (store s1)) by (by apply elem_of_pinned_r).
  assert (Hr1 : nodes (store s1) !! N = Some (LeafNode r')) by (etrans; [apply lookup_insert_ne, Hne|apply lookup_insert_eq]).
  assert (Hl1 : nodes (store s1) !! id = Some (LeafNode p')) by apply lookup_insert_eq.
  assert (Hrun : forall A (f : Z -> K -> M K V A) s2,
    insert_in_leaf (if cmp key pop <? 0 then id else N) key value s1 = Ok (tt, s2) ->
    (let! new_page := Split KLeaf id in let! p := get_leaf new_page in
     let! pop_key := lift (Leaf.KeyAt 0 p) in
     run! insert_in_leaf (if cmp key pop_key <? 0 then id else new_page) key value ;;
     f new_page pop_key) s = f N pop s2).
  { intros A f s2 Hs2. rewrite (bind_run _ _ _ _ _ Hsp).
    erewrite bind_run by (by apply (get_leaf_ok _ _ _ _ N (LeafNode r'))).
    rewrite (bind_run _ _ s1 pop s1); [by rewrite (bind_run _ _ _ _ _ Hs2)|]. apply lift_ok.
    apply (Leaf.key_at_ok r' 0 (pop, w)); [apply Hrt|by rewrite (li_entries _ _ _ _ _ _ _ Hrt)]. }
  assert (Hh : halves cmp key value es pop = if cmp key pop <? 0
    then (insert_entry cmp key value (take (length es / 2) es), (pop, w) :: er)
    else (take (length es / 2) es, insert_entry cmp key value ((pop, w) :: er))) by (unfold halves; by rewrite Hd).
  destruct (cmp key pop <? 0) eqn:Ek.
  - destruct (insert_in_half id key value parent N (take (length es / 2) es) p' s1 Hin1 Hl1 Hl) as (pl & Hins & Hpl).
    { rewrite length_take_le by lia. lia. }
    exists pop, w, er, (<[id := LeafNode pl]> (nodes (store s1))), ({[id]} ∪ u'). rewrite Hh. split; [done|].
    split; [intros A f; apply Hrun, Hins|]. split; [exists pl; split; [apply lookup_insert_eq|done]|].
    split; [exists r'; split; [etrans; [apply lookup_insert_ne, Hne|done]|done]|].
    split; [|clear -Hu; set_solver]. intros q Hq1 Hq2.
    rewrite lookup_insert_ne by done. etrans; [by apply lookup_insert_ne|by apply lookup_insert_ne].
  - destruct (insert_in_half N key value parent nx ((pop, w) :: er) r' s1 HN1 Hr1 Hrt) as (pr & Hins & Hpr).
    { rewrite <- Hd, length_drop. lia. }
    exists pop, w, er, (<[N := LeafNode pr]> (nodes (store s1))), ({[N]} ∪ u'). rewrite Hh. split; [done|].
    split; [intros A f; apply Hrun, Hins|].
    split; [exists p'; split; [by rewrite lookup_insert_ne|done]|].
    split; [exists pr; split; [apply lookup_insert_eq|done]|].
    split; [|clear -Hu; set_solver]. intros q Hq1 Hq2.
    rewrite lookup_insert_ne by done. etrans; [by apply lookup_insert_ne|by apply lookup_insert_ne].
Qed.

(** The two leaves, ready for the parent. *)
Lemma leaf_pending s h t key value fs id nx es l pop w er m' u' :
  ready s -> index_at s h t -> reached s h t key fs id nx es l ->
  find_entry cmp key es = None -> Z.of_nat (length es) = leaf_max ->
  drop (length es / 2) es = (pop, w) :: er ->
  (exists pl, m' !! id = Some (LeafNode pl) /\
     leaf_is (context_parent fs) id (next (store s)) (halves cmp key value es pop).1 pl) ->
  (exists pr, m' !! next (store s) = Some (LeafNode pr) /\
     leaf_is (context_parent fs) (next (store s)) nx (halves cmp key value es pop).2 pr) ->
  (forall q, q <> id -> q <> next (store s) -> m' !! q = nodes (store s) !! q) ->
  pending key_size value_size index_name cmp 0 fs
    (TLeaf id (next (store s)) (halves cmp key value es pop).1) pop
    (TLeaf (next (store s)) nx (halves cmp key value es pop).2)
    (upd m' ({[+ next (store s) +]} ⊎ pins (store (pathed l s))) u' (next (store s) + 1) (pathed l s)).
Proof.
  intros H Hix Hre Hf Hfull Hd Hl Hr Hm. set (N := next (store s)) in *.
  destruct (leaf_context _ _ _ _ _ _ _ _ _ _ _ _ Hix Hre) as (Hn & Hnd & Hb).
  pose proof (re_focus _ _ _ _ _ _ _ _ _ _ _ _ Hre) as Hfo.
  pose proof (fo_order _ _ _ _ _ _ _ Hfo) as Hord.
  pose proof (so_leaf _ _ Hsizes) as [H2 _].
  assert (Hs : sorted cmp es) by (apply ordered_app in Hord as (_ & (Hp & _)%ordered_app & _); by apply ordered_page in Hp).
  pose proof (halves_ok cmp key value es pop w er Hs Hf ltac:(lia) Hd) as Hh.
  destruct (halves cmp key value es pop) as [L R] eqn:EH. cbn [fst snd] in *.
  destruct Hh as (Happ & Hne & (er' & HR) & HlL & HlR).
  assert (Hc : leaf_max / 2 <= Z.of_nat (length es / 2)) by (rewrite Nat2Z.inj_div, Hfull; reflexivity).
  assert (HN : forall q, q ∈ id :: context_ids fs -> q <> N) by (intros q Hq; specialize (Hb q Hq); unfold N; lia).
  split; cbn [upd pathed paged set_store set_txn store nodes pins next tid context_parent ids].
  - exact Hl.
  - exact Hr.
  - apply (context_agree _ _ 0 (nodes (store s))); [apply Hfo|]. intros q Hq. apply Hm.
    + by intros ->.
    + apply HN. by right.
  - split; [cbn; lia|]. split; [cbn; lia|apply Hfo].
  - simpl. apply NoDup_cons. split; [|apply NoDup_cons; split; [|done]].
    + intros [E|?]%elem_of_cons; [|done]. by apply (HN id); [left|].
    + intros Hq. apply (HN N); [by right|done].
  - simpl. pose proof (rd_next _ _ H). intros q [->|[->|Hq]%elem_of_cons]%elem_of_cons.
    + specialize (Hb id (list_elem_of_here _ _)). fold N in Hb. lia.
    + fold N in H0. lia.
    + specialize (Hb q (list_elem_of_further _ _ _ Hq)). fold N in Hb. lia.
  - cbn [tokens app]. rewrite HR. apply (ordered_cut cmp _ _ id nx); [|done]. rewrite <- HR, Happ.
    by apply (ordered_insert cmp _ _ id nx); [|apply Hre..].
  - split; [apply elem_of_pinned_r, pathed_pinned, Hre|apply elem_of_pinned].
  - exists (root_page_id_ s). apply (header_ok_agree _ _ (nodes (store s))); [apply H|]. apply Hm.
    + specialize (Hb id (list_elem_of_here _ _)). lia.
    + pose proof (rd_next _ _ H). unfold N. lia.
Qed.

(** ** After the call of InsertIntoParent *)

Section Outcome.
Context (s s2 s3 : State K V) (h h' : nat) (t t' : tree K V) (key pop : K) (value : V)
  (fs : list (frame K V)) (id nx : Z) (es L R : list (K * V)) (l : list Z) (m' : gmap Z (Node K V)) (u' : gset Z).
Let N : Z := next (store s).
Context (H : ready s) (Hix : index_at s h t) (Hud : undeleted s (ids t)).
Context (Hre : reached s h t key fs id nx es l) (Happ : L ++ R = insert_entry cmp key value es).
Context (Hs2 : s2 = upd m' ({[+ N +]} ⊎ pins (store (pathed l s))) u' (N + 1) (pathed l s)).
Context (Hm : forall q, q <> id -> q <> N -> m' !! q = nodes (store s) !! q).
Context (Hu : u' ⊆ unsaved (store s) ∪ {[id; N]}).
Context (G : grown key_size value_size s2 s3 ((id :: [N]) ++ context_ids fs) {[id; N]} h' t').
Context (Htok : tokens t' = left_of fs ++ [Page id N L] ++ Sep pop :: [Page N nx R] ++ right_of fs).
Context (Hord : ordered cmp (tokens t')) (Hh : (h' <= S h)%nat).
Context (Hroot : root_page_id_ s3 = tid t') (Hhd : header_ok index_name (root_page_id_ s3) (nodes (store s3))).

Lemma outcome_ids q : q ∈ id :: [N] ++ context_ids fs <-> q ∈ ids t \/ q = N.
Proof.
  rewrite <- (re_fill _ _ _ _ _ _ _ _ _ _ _ _ Hre), ids_fill. simpl. rewrite !elem_of_cons. tauto.
Qed.

Lemma outcome_next : 1 < N < next (store s3).
Proof.
  pose proof (rd_next _ _ H). pose proof (g_next _ _ _ _ _ _ _ _ G) as Hnx. rewrite Hs2 in Hnx. cbn in Hnx.
  unfold HEADER_PAGE_ID, N in *. lia.
Qed.

Lemma outcome_frame q : (q ∉ ids t) -> q <> HEADER_PAGE_ID -> q < N -> nodes (store s3) !! q = nodes (store s) !! q.
Proof.
  intros Hq Hq1 HqN. rewrite (g_frame _ _ _ _ _ _ _ _ G); [|intros [|]%outcome_ids; [done|lia]|done|].
  - rewrite Hs2. apply Hm; [|lia]. intros ->. apply Hq. assert (id ∈ ids t \/ id = N) as [|]; [|done|lia].
    apply outcome_ids. left.
  - rewrite Hs2. cbn. lia.
Qed.

Lemma outcome_known q : q ∈ ids t' -> tree_page (nodes (store s3)) q.
Proof. apply (holds_known _ _ _ _ _ _ _ (g_holds _ _ _ _ _ _ _ _ G)). Qed.

Lemma outcome_new : N ∈ ids t'.
Proof. apply (g_keep _ _ _ _ _ _ _ _ G), outcome_ids. by right. Qed.

Lemma outcome_pins : pins (store s3) = {[+ N +]} ⊎ (list_to_set_disj l ⊎ pins (store s)).
Proof. rewrite (g_pins _ _ _ _ _ _ _ _ G), Hs2. done. Qed.

Lemma outcome_page q : q = 0 \/ q ∈ ids t -> tree_page (nodes (store s3)) q.
Proof.
  intros [->|Hq]; [|apply outcome_known, (g_keep _ _ _ _ _ _ _ _ G), outcome_ids; by left].
  destruct (trivial_known _ _ H) as (n & hd & Hn & Hrest). exists n, hd. split; [|done].
  rewrite outcome_frame; [done| |done|pose proof outcome_next; lia].
  intros Hq. apply (ix_ids _ _ _ _ _ _ Hix) in Hq. unfold HEADER_PAGE_ID in Hq. lia.
Qed.

(** The release of the new leaf and of the page set. *)
Lemma outcome_release :
  (let! new_id := GetPageId N in run! UnpinPage new_id true ;;
   run! ReleasePageSet true Action.Insert true ;; ret true) s3 =
  Ok (true, paged [] (pins (store s)) (edit (nodes (store s3)) ∅ s3)).
Proof.
  pose proof outcome_next as HN. pose proof outcome_pins as Hpins.
  assert (HNpin : N ∈ pins (store s3)) by (rewrite Hpins; apply elem_of_pinned).
  rewrite (bind_run _ _ _ _ _ (tree_page_id_ok N s3 HNpin (outcome_known N outcome_new))).
  rewrite (bind_run _ _ _ _ _ (unpin_ok N s3 HNpin ltac:(unfold INVALID_PAGE_ID; lia))).
  destruct (g_rest _ _ _ _ _ _ _ _ G) as (Htr & Htx & Hcap). rewrite Hs2 in Htx. cbn in Htx.
  set (s4 := drop_pin N true s3).
  assert (Hp4 : pins (store s4) = list_to_set_disj l ⊎ pins (store s)).
  { unfold s4, drop_pin. cbn [upd set_store store pins]. rewrite Hpins. apply unpin_pinned. }
  assert (Hk4 : known s4 l).
  { intros q Hq. split; [|by apply (re_known _ _ _ _ _ _ _ _ _ _ _ _ Hre)].
    apply outcome_page. by apply (re_ids _ _ _ _ _ _ _ _ _ _ _ _ Hre). }
  assert (Hl4 : page_set_ (txn s4) = l) by (unfold s4; cbn; by rewrite Htx).
  assert (Hd4 : forall q, q ∈ l -> q ∉ deleted_page_set_ (txn s4)).
  { unfold s4. cbn. rewrite Htx. apply (undeleted_known _ _ _ _ _ _ _ Hix Hud), Hre. }
  rewrite (bind_run _ _ _ _ _ (release_set_ok cmp Action.Insert true l (pins (store s)) s4 Hl4 Hp4 Hk4 (or_introl eq_refl) Hd4)).
  unfold ret, s4, drop_pin, paged, edit, upd, set_store, set_txn.
  cbn [store txn trivial_page_id_ root_page_id_ nodes pins unsaved next capacity].
  do 4 f_equal. apply leibniz_equiv. intros q. split; [|by intros ?%not_elem_of_empty].
  pose proof (g_unsaved _ _ _ _ _ _ _ _ G q) as Hun. rewrite Hs2 in Hun. cbn [upd set_store store unsaved] in Hun.
  specialize (Hu q). rewrite (rd_unsaved _ _ H) in Hu. pose proof (re_leaf _ _ _ _ _ _ _ _ _ _ _ _ Hre) as Hid.
  clear - Hun Hu Hid. set_solver.
Qed.

Lemma outcome_index : index_at (paged [] (pins (store s)) (edit (nodes (store s3)) ∅ s3)) h' t'.
Proof.
  pose proof outcome_next as HN. split.
  - exact Hroot.
  - apply (g_holds _ _ _ _ _ _ _ _ G).
  - apply (g_fit _ _ _ _ _ _ _ _ G).
  - apply (g_nodup _ _ _ _ _ _ _ _ G).
  - intros q Hq. cbn [paged edit upd set_store set_txn store next]. apply (g_ids _ _ _ _ _ _ _ _ G) in Hq as [[Hq|Hq]%outcome_ids|Hq].
    + apply (ix_ids _ _ _ _ _ _ Hix) in Hq. fold N in Hq. lia.
    + unfold HEADER_PAGE_ID. lia.
    + rewrite Hs2 in Hq. cbn in Hq. unfold HEADER_PAGE_ID. lia.
  - exact Hord.
  - pose proof (ix_links _ _ _ _ _ _ Hix) as Hl. rewrite <- (re_fill _ _ _ _ _ _ _ _ _ _ _ _ Hre), leaves_fill_leaf in Hl.
    rewrite Htok, !leaves_app. apply linked_app in Hl as [H1 H2].
    change (leaves (Sep pop :: [Page N nx R] ++ right_of fs)) with ((N, nx) :: leaves (right_of fs)).
    change (leaves [Page id N L]) with [(id, N)].
    apply linked_app. split; [done|]. split; [done|exact H2].
Qed.

Lemma outcome_entries : entries (tokens t') = insert_entry cmp key value (entries (tokens t)).
Proof.
  rewrite <- (re_fill _ _ _ _ _ _ _ _ _ _ _ _ Hre), leaf_entries_split, insert_entry_middle.
  - rewrite Htok, <- Happ, !entries_app. unfold entries at 2. simpl.
    change (entries (Sep pop :: Page N nx R :: right_of fs)) with (R ++ entries (right_of fs)).
    by rewrite app_nil_r, <- app_assoc.
  - done.
  - intros e He. apply (below_entries cmp key (left_of fs)); [apply Hre|done].
  - intros e He. apply (above_entries cmp key (right_of fs)); [apply Hre|done].
Qed.

Lemma outcome_updated :
  updated s (paged [] (pins (store s)) (edit (nodes (store s3)) ∅ s3)) h
          (insert_entry cmp key value (entries (tokens t))) h' t'.
Proof.
  destruct (g_rest _ _ _ _ _ _ _ _ G) as (Htr & Htx & Hcap). rewrite Hs2 in Htr, Htx, Hcap.
  pose proof outcome_next as HN. pose proof outcome_index as Hix'. split; try done.
  - apply (ready_after _ s _ (ids t) H); try done.
    + intros q Hq. by apply (ix_ids _ _ _ _ _ _ Hix).
    + cbn [paged edit upd set_store set_txn store next]. fold N. lia.
    + intros q. apply outcome_frame.
  - intros q Hq. cbn in Hq. rewrite Htx in Hq. destruct (Hud q Hq) as [Hq1 Hq2].
    cbn [paged edit upd set_store set_txn store next]. fold N in Hq2. split; [|lia].
    intros [[|]%outcome_ids|Hq']%(g_ids _ _ _ _ _ _ _ _ G); [done|lia|].
    rewrite Hs2 in Hq'. cbn in Hq'. fold N in Hq'. lia.
  - apply outcome_entries.
  - cbn [paged edit upd set_store set_txn store next]. fold N. lia.
Qed.
End Outcome.

Lemma pathed_room s h t key fs id nx es l (p N : Z) u m' n k :
  reached s h t key fs id nx es l -> room (k + (h + 3)) s ->
  room k (upd m' ({[+ N +]} ⊎ pins (store (pathed l s))) u n (pathed l s)).
Proof.
  intros Hre Hr. assert (Hr1 : room (S k) (pathed l s)).
  { apply room_pages. apply (room_le _ _ _ Hr). pose proof (re_pages _ _ _ _ _ _ _ _ _ _ _ _ Hre). lia. }
  by apply (room_more k _ N) in Hr1.
Qed.

Lemma insert_full_ok fuel s h t key value fs id nx es l p :
  ready s -> index_at s h t -> undeleted s (ids t) -> reached s h t key fs id nx es l ->
  nodes (store s) !! id = Some (LeafNode p) -> leaf_is (context_parent fs) id nx es p ->
  find_entry cmp key es = None -> Z.of_nat (length es) = leaf_max ->
  room (3 * h + 5) s -> (h < fuel)%nat ->
  exists s' h' t',
    (run!
       (let! new_page := Split KLeaf id in
        let! p := get_leaf new_page in
        let! pop_key := lift (Leaf.KeyAt 0 p) in
        run! insert_in_leaf (if cmp key pop_key <? 0 then id else new_page) key value ;;
        run! InsertIntoParent key_size value_size zero_key zero_value index_name cmp fuel id pop_key new_page ;;
        let! new_id := GetPageId new_page in
        run! UnpinPage new_id true ;; ret tt) ;;
     run! ReleasePageSet true Action.Insert true ;; ret true) (pathed l s) = Ok (true, s') /\
    updated s s' h (insert_entry cmp key value (entries (tokens t))) h' t'.
Proof.
  intros H Hix Hud Hre Hp Hi Hf Hfull Hr Hfuel.
  destruct (leaf_context _ _ _ _ _ _ _ _ _ _ _ _ Hix Hre) as (_ & _ & Hb).
  pose proof (re_length _ _ _ _ _ _ _ _ _ _ _ _ Hre) as Hlen.
  destruct (split_insert_run id p (context_parent fs) nx es key value (pathed l s) 0 Hp Hi)
    as (pop & w & er & m' & u' & Hd & Hrun & Hl & Hrt & Hm & Hu).
  { apply pathed_pinned, Hre. }
  { apply room_pages. pose proof (re_pages _ _ _ _ _ _ _ _ _ _ _ _ Hre). apply (room_le _ _ _ Hr). lia. }
  { specialize (Hb id (list_elem_of_here _ _)). cbn. lia. } { done. }
  change (next (store (pathed l s))) with (next (store s)) in *.
  pose proof (leaf_pending s h t key value fs id nx es l pop w er m' u' H Hix Hre Hf Hfull Hd Hl Hrt Hm) as Hpe.
  pose proof (fo_order _ _ _ _ _ _ _ (re_focus _ _ _ _ _ _ _ _ _ _ _ _ Hre)) as Hord.
  assert (Hs : sorted cmp es) by (apply ordered_app in Hord as (_ & (Ho & _)%ordered_app & _); by apply ordered_page in Ho).
  pose proof (so_leaf _ _ Hsizes) as [H2 _].
  pose proof (halves_ok cmp key value es pop w er Hs Hf ltac:(lia) Hd) as Hh.
  destruct (halves cmp key value es pop) as [L R]. cbn [fst snd] in *. destruct Hh as (Happ & _).
  set (s2 := upd m' _ u' _ _) in *.
  destruct (insert_into_parent_ok _ _ zero_key zero_value _ cmp Hsizes Hname fs fuel 0 _ _ _ s2 Hpe) as
    (s3 & h' & t' & Hins & G & Htok & Hh' & Hroot & Hhd).
  { apply (pathed_room s h t key fs id nx es l 0); [done|]. apply (room_le _ _ _ Hr). lia. } { lia. }
  pose proof (outcome_release s s2 s3 h h' t t' key fs id nx es l m' u' H Hix Hud Hre eq_refl Hm Hu G ltac:(lia)) as Hrel.
  exists (paged [] (pins (store s)) (edit (nodes (store s3)) ∅ s3)), h', t'. split.
  - rewrite (bind_from _ _ _ _ _ (Hrun unit _)), bind_bind. cbn [tid] in Hins.
    rewrite (bind_run _ _ _ _ _ Hins), bind_bind, <- Hrel.
    unfold bind. destruct (GetPageId _ s3) as [[x sx]|]; [|done]. cbn.
    by destruct (UnpinPage x true sx) as [[]|].
  - assert (Ht : tid t = tid (fill fs (TLeaf id nx es))) by (by rewrite (re_fill _ _ _ _ _ _ _ _ _ _ _ _ Hre)).
    apply (outcome_updated s s2 s3 h h' t t' key pop value fs id nx es L R l m' u' H Hix Hud Hre Happ eq_refl Hm G Htok).
    + rewrite Htok. apply (pe_order _ _ _ _ _ _ _ _ _ _ Hpe).
    + lia.
    + apply Hroot. cbn. rewrite (ix_root _ _ _ _ _ _ Hix), Ht. by apply tid_fill.
    + apply Hhd, (header_ok_agree _ _ (nodes (store s))); [apply H|]. pose proof (rd_next _ _ H).
      specialize (Hb id (list_elem_of_here _ _)). apply Hm; lia.
Qed.
End Split.
End TreeSplit.
