(* ===== verification/TreeHeight.v ===== *)
(** * The height of the B+ tree

    Every page but the root is at least half full, so the height is logarithmic in the
    number of entries. *)

From stdpp Require Import prelude gmap gmultiset list sorting.
From Stdlib Require Import ZArith Lia.
From S2P Require Import Prelude BPlusTreePage LeafPage InternalPage TreeNodes TreeModel TreeSteps.

Local Open Scope Z_scope.

Module TreeHeight.
Import BPage Nodes TreeModel TreeSteps.

Section Height.
Context {K V : Type} (key_size value_size : Z).
Implicit Types (t : tree K V) (kcs : list (K * tree K V)).

Abbreviation leaf_max := (leaf_max key_size value_size).
Abbreviation internal_max := (internal_max key_size).
Abbreviation fit := (fit key_size value_size).

Lemma entries_page id nx (es : list (K * V)) : entries (tokens (TLeaf id nx es)) = es.
Proof. unfold entries. simpl. apply app_nil_r. Qed.

Lemma entries_weave kcs : entries (weave kcs) = concat (map (fun kc => entries (tokens kc.2)) kcs).
Proof.
  induction kcs as [|[k t] kcs IH]; [done|]. rewrite weave_cons, <- (app_nil_l (_ ++ _)), app_comm_cons.
  rewrite entries_app. simpl. by rewrite <- IH, <- entries_app.
Qed.

Lemma entries_node id kcs :
  entries (tokens (TNode id kcs)) = concat (map (fun kc => entries (tokens kc.2)) kcs).
Proof. rewrite tokens_node, <- entries_weave. by destruct kcs as [|[]]. Qed.

Lemma length_forest (kcs : list (K * tree K V)) n :
  Forall (fun kc => n <= Z.of_nat (length (entries (tokens kc.2)))) kcs ->
  Z.of_nat (length kcs) * n <= Z.of_nat (length (concat (map (fun kc => entries (tokens kc.2)) kcs))).
Proof. induction 1; simpl; rewrite ?length_app; lia. Qed.

(** The least number of entries of a subtree of height [h]. *)
Definition least (h : nat) : Z := leaf_max / 2 * (internal_max / 2) ^ Z.of_nat h.

Lemma least_S h : least (S h) = internal_max / 2 * least h.
Proof. unfold least. rewrite Nat2Z.inj_succ, Z.pow_succ_r by lia. ring. Qed.

Context (Hsizes : sizes_ok key_size value_size).

Lemma least_pos h : 1 <= least h.
Proof.
  destruct Hsizes as [Hl Hi]. assert (1 <= leaf_max / 2) by (apply Z.div_le_lower_bound; lia).
  assert (1 <= internal_max / 2) by (apply Z.div_le_lower_bound; lia). unfold least.
  pose proof (Z.pow_pos_nonneg (internal_max / 2) (Z.of_nat h)). nia.
Qed.

Lemma subtree_entries h : forall t, fit h false t -> least h <= Z.of_nat (length (entries (tokens t))).
Proof.
  induction h as [|h IH]; intros [id nx es|id kcs] Hf; try done.
  - rewrite entries_page. unfold least. cbn [TreeModel.fit] in Hf. simpl Z.of_nat. lia.
  - destruct Hf as [Hlen Hf]. rewrite entries_node, least_S. pose proof (least_pos h).
    etrans; [|apply (length_forest kcs (least h))]; [nia|]. eapply Forall_impl; [exact Hf|]. intros kc. apply IH.
Qed.

Lemma tree_entries h t : fit (S h) true t -> 2 * least h <= Z.of_nat (length (entries (tokens t))).
Proof.
  destruct t as [id nx es|id kcs]; [done|]. intros [Hlen Hf]. rewrite entries_node. pose proof (least_pos h).
  etrans; [|apply (length_forest kcs (least h))]; [nia|]. eapply Forall_impl; [exact Hf|]. intros kc. apply subtree_entries.
Qed.

Lemma entries_pos h t : fit h true t -> entries (tokens t) <> [].
Proof.
  intros Hf E. destruct h as [|h].
  - destruct t as [id nx es|]; [|done]. rewrite entries_page in E. subst es. simpl in Hf. lia.
  - apply tree_entries in Hf. rewrite E in Hf. pose proof (least_pos h). simpl in Hf. lia.
Qed.

Lemma height_entries h t :
  4 <= internal_max -> fit h true t -> 2 ^ Z.of_nat h <= Z.of_nat (length (entries (tokens t))).
Proof.
  intros H4. destruct h as [|h]; intros Hf.
  - destruct t as [id nx es|]; [|done]. rewrite entries_page. exact Hf.
  - apply tree_entries in Hf. rewrite Nat2Z.inj_succ, Z.pow_succ_r by lia. etrans; [|exact Hf].
    apply Z.mul_le_mono_nonneg_l; [lia|]. destruct Hsizes as [Hl _]. unfold least.
    assert (1 <= leaf_max / 2) by (apply Z.div_le_lower_bound; lia).
    assert (2 <= internal_max / 2) by (apply Z.div_le_lower_bound; lia).
    pose proof (Z.pow_le_mono_l 2 (internal_max / 2) (Z.of_nat h)). nia.
Qed.
End Height.
End TreeHeight.
