(* ===== verification/TreeScan.v ===== *)
(** * Iteration over the index

    The iterator from [Begin] visits the leaves by their links: the loop
    [for (it = Begin(); !it.isEnd(); ++it)] reads the entries of the tree in order. *)

From stdpp Require Import prelude gmap gmultiset list sorting strings.
From Stdlib Require Import ZArith Lia.
From S2P Require Import Prelude HeaderPage BPlusTreePage LeafPage InternalPage TreeNodes BPlusTree.
From S2P Require Import TreeModel TreeSteps TreeInsert TreeSearch TreeHeight.

Local Open Scope Z_scope.

Module TreeScan.
Import BPage Nodes TreeModel BPlusTree TreeSteps TreeInsert TreeSearch TreeHeight.

Section Scan.
Context {K V : Type} (key_size value_size : Z) (zero_key : K) (zero_value : V).
Context (index_name : list Z) (cmp : K -> K -> Z) `{!KeyOrder cmp}.
Implicit Types (s : State K V) (m : gmap Z (Node K V)) (t : tree K V) (ts : list (token K V)).

Abbreviation leaf_is := (leaf_is key_size value_size).
Abbreviation holds := (holds key_size value_size).
Abbreviation fit := (fit key_size value_size).
Abbreviation ready := (ready index_name).
Abbreviation index_at := (index_at key_size value_size cmp).
Abbreviation get_leaf := (get_leaf key_size value_size zero_key zero_value).
Abbreviation isEnd := (isEnd key_size value_size zero_key zero_value).
Abbreviation Iterator_item := (Iterator_item key_size value_size zero_key zero_value).
Abbreviation Iterator_next := (Iterator_next key_size value_size zero_key zero_value).
Abbreviation Begin := (Begin key_size zero_key cmp).
Abbreviation Begin_at := (Begin_at key_size value_size zero_key zero_value cmp).

(** The loop over an iterator: the items read, and the iterator at the end. *)
Fixpoint scan (fuel : nat) (it : IndexIterator) : M K V (list (K * V) * IndexIterator) :=
  match fuel with
  | O => fault NoFuel
  | S fuel =>
      let! stop := isEnd it in
      if stop : bool then ret ([], it)
      else
        let! x := Iterator_item it in
        let! it := Iterator_next it in
        let! (l, it) := scan fuel it in
        ret (x :: l, it)
  end.

(** The loop, and the destructor of its iterator. *)
Definition walk (fuel : nat) (it : IndexIterator) : M K V (list (K * V)) :=
  let! (l, it) := scan fuel it in
  run! Iterator_release it ;;
  ret l.

Definition scan_all (fuel : nat) : M K V (list (K * V)) :=
  let! it := Begin fuel in walk fuel it.

Definition scan_from (fuel : nat) (key : K) : M K V (list (K * V)) :=
  let! it := Begin_at fuel key in walk fuel it.

(** The entries from the first one that is not below the key. *)
Fixpoint from_key (key : K) (l : list (K * V)) : list (K * V) :=
  match l with
  | [] => []
  | e :: l' => if 0 <=? cmp e.1 key then l else from_key key l'
  end.

(** ** The leaves of a tree *)

Abbreviation page := (Z * Z * list (K * V))%type.

Definition token_page (x : token K V) : option page :=
  match x with Sep _ => None | Page id next es => Some (id, next, es) end.

Definition pages ts : list page := omap token_page ts.

Lemma pages_app ts1 ts2 : pages (ts1 ++ ts2) = pages ts1 ++ pages ts2.
Proof. apply omap_app. Qed.

Lemma entries_pages ts : entries ts = concat (pages ts).*2.
Proof. induction ts as [|[k|id nx es] ts IH]; unfold entries in *; simpl; [done|done|by rewrite IH]. Qed.

Lemma leaves_pages ts : leaves ts = (pages ts).*1.
Proof.
  unfold leaves. induction ts as [|[k|id nx es] ts IH]; [done|done|]. exact (f_equal (cons (id, nx)) IH).
Qed.

Lemma pages_weave (kcs : list (K * tree K V)) : pages (weave kcs) = concat (map (fun kc => pages (tokens kc.2)) kcs).
Proof.
  induction kcs as [|[k t] kcs IH]; [done|]. rewrite weave_cons. simpl. by rewrite pages_app, IH.
Qed.

Lemma pages_node id (kcs : list (K * tree K V)) :
  pages (tokens (TNode id kcs)) = concat (map (fun kc => pages (tokens kc.2)) kcs).
Proof. rewrite tokens_node, <- pages_weave. by destruct kcs as [|[]]. Qed.

(** A leaf that is one of the pages, with at least one entry. *)
Definition held m (x : page) : Prop :=
  x.1.1 <> INVALID_PAGE_ID /\ x.2 <> [] /\
  exists parent p, m !! x.1.1 = Some (LeafNode p) /\ leaf_is parent x.1.1 x.1.2 x.2 p.

Context (Hsizes : sizes_ok key_size value_size).

Lemma pages_held h : forall m parent root t,
  holds h m parent t -> fit h root t -> (forall q, q ∈ ids t -> q <> INVALID_PAGE_ID) ->
  Forall (held m) (pages (tokens t)).
Proof.
  induction h as [|h IH]; intros m parent root [id nx es|id kcs] Hh Hf Hid; try done.
  - destruct Hh as (p & Hp & Hi). constructor; [|done]. split; [apply Hid; left|]. split; [|by exists parent, p].
    cbn [snd]. intros ->. simpl in Hf. destruct Hsizes as [H2 _].
    assert (1 <= leaf_max key_size value_size / 2) by (apply Z.div_le_lower_bound; lia). destruct root; lia.
  - destruct Hh as (p & _ & _ & Hh), Hf as [_ Hf]. rewrite pages_node. apply Forall_concat, Forall_map.
    rewrite Forall_forall in *. intros kc Hkc. apply (IH m id false); [by apply Hh|by apply Hf|].
    intros q Hq. apply Hid. rewrite ids_node. right. apply elem_of_forest. by exists kc.
Qed.

(** ** The loop *)

Definition sized (x : page) : Z := Z.of_nat (length x.2).

Lemma held_leaf (x : page) s P txn :
  held (nodes (store s)) x -> x.1.1 ∈ P ->
  exists p parent, get_leaf x.1.1 (paged txn P s) = Ok (p, paged txn P s) /\
    get_page x.1.1 (paged txn P s) = Ok (Leaf.hdr p, paged txn P s) /\
    leaf_is parent x.1.1 x.1.2 x.2 p.
Proof.
  intros (_ & _ & parent & p & Hp & Hi) HP. exists p, parent.
  split; [by apply (get_leaf_ok _ _ _ _ x.1.1 (LeafNode p))|]. split; [|done].
  by apply (get_page_ok x.1.1 (LeafNode p)).
Qed.

(** [operator++] moves to the next entry, in the next leaf after the last one of a leaf. *)
Lemma next_ok s id nx (es : list (K * V)) rest i :
  Forall (held (nodes (store s))) ((id, nx, es) :: rest) ->
  linked ((id, nx) :: rest.*1) INVALID_PAGE_ID -> room 1 s -> unsaved (store s) = ∅ -> (i < length es)%nat ->
  exists id' nx' es' rest' i',
    Iterator_next (mkIterator id (Z.of_nat i) (Z.of_nat (length es))) (looking false id s) =
      Ok (mkIterator id' (Z.of_nat i') (Z.of_nat (length es')), looking false id' s) /\
    drop (S i) es ++ concat rest.*2 = drop i' es' ++ concat rest'.*2 /\
    Forall (held (nodes (store s))) ((id', nx', es') :: rest') /\
    linked ((id', nx') :: rest'.*1) INVALID_PAGE_ID /\ (i' <= length es')%nat /\
    (i' = length es' -> rest' = []).
Proof.
  intros Hall Hl Hr Hu Hi. pose proof Hall as [Hx Hrest]%Forall_cons.
  destruct (held_leaf _ s ({[+ id +]} ⊎ pins (store s)) [] Hx (elem_of_pinned _ _)) as (p & parent & Hg & _ & Hp).
  cbn [fst snd] in Hg, Hp. fold (looking false id s) in Hg. pose proof Hx as [Hid _]. cbn [fst] in Hid.
  unfold BPlusTree.Iterator_next. cbn [max_size_in_current_page_ current_index_in_page_ current_page_].
  replace (Z.of_nat i + 1) with (Z.of_nat (S i)) by lia. destruct (Z.leb_spec (Z.of_nat (length es)) (Z.of_nat (S i))).
  2:{ exists id, nx, es, rest, (S i). split; [done|]. split; [done|]. split; [done|]. split; [done|]. lia. }
  rewrite (bind_run _ _ _ _ _ Hg). unfold Leaf.GetNextPageId. rewrite (li_next _ _ _ _ _ _ _ Hp).
  destruct rest as [|[[id' nx'] es'] rest]; destruct Hl as [Hl Hl'].
  - simpl in Hl. subst nx. rewrite Z.eqb_refl. exists id, INVALID_PAGE_ID, es, [], (S i). do 3 (split; [done|]). split; [done|]. split; [lia|done].
  - simpl in Hl. subst nx. pose proof Hrest as [Hx' Hrest']%Forall_cons. pose proof Hx' as [Hid' [Hne _]]. cbn [fst snd] in Hid', Hne.
    rewrite (proj2 (Z.eqb_neq _ _) Hid'), (li_id _ _ _ _ _ _ _ Hp).
    unfold looking. rewrite (bind_run _ _ _ _ _ (paged_unpin id [] _ s Hid Hu)).
    assert (Hn : is_Some (nodes (store s) !! id')) by (destruct Hx' as (_ & _ & ? & p' & Hp' & _); by exists (LeafNode p')).
    rewrite (bind_run _ _ _ _ _ (fetch_data_ok id' (paged [] (pins (store s)) s) 0 Hr Hid' Hn)).
    destruct (held_leaf _ s ({[+ id' +]} ⊎ pins (store s)) [] Hx' (elem_of_pinned _ _)) as (p' & parent' & _ & Hgp' & Hp').
    cbn [fst snd] in Hgp', Hp'. rewrite (bind_run _ _ _ _ _ Hgp'). exists id', nx', es', rest, 0%nat. split.
    + pose proof (leaf_is_length _ _ _ _ _ _ _ Hp') as Hlen. unfold Leaf.GetSize in Hlen. by rewrite Hlen.
    + rewrite drop_ge by lia. split; [done|]. split; [done|]. split; [done|]. split; [lia|].
      intros E. by destruct es'.
Qed.

Lemma scan_loop_ok fuel : forall s id nx es rest i,
  Forall (held (nodes (store s))) ((id, nx, es) :: rest) ->
  linked ((id, nx) :: rest.*1) INVALID_PAGE_ID -> room 1 s -> unsaved (store s) = ∅ ->
  (i <= length es)%nat -> (i = length es -> rest = []) ->
  (length (drop i es ++ concat rest.*2) < fuel)%nat ->
  exists last it, scan fuel (mkIterator id (Z.of_nat i) (Z.of_nat (length es))) (looking false id s) =
    Ok ((drop i es ++ concat rest.*2, it), looking false last s) /\
    current_page_ it = last /\ exists nx es, held (nodes (store s)) (last, nx, es).
Proof.
  induction fuel as [|fuel IH]; intros s id nx es rest i Hall Hl Hr Hu Hi Hend Hfuel; [lia|]. cbn [scan].
  pose proof Hall as [Hx Hrest]%Forall_cons.
  destruct (held_leaf _ s ({[+ id +]} ⊎ pins (store s)) [] Hx (elem_of_pinned _ _)) as (p & parent & Hg & Hgp & Hp).
  cbn [fst snd] in Hg, Hgp, Hp. fold (looking false id s) in Hg, Hgp.
  unfold BPlusTree.isEnd. cbn [max_size_in_current_page_ current_index_in_page_ current_page_].
  destruct (decide (i = length es)) as [Hie|Hie].
  - rewrite (Hend Hie) in *. simpl in Hl. destruct Hl as [-> _].
    rewrite (proj2 (Z.leb_le _ _)) by lia.
    rewrite (bind_run _ _ (looking false id s) true (looking false id s)).
    2:{ rewrite (bind_run _ _ _ _ _ Hg). unfold Leaf.GetNextPageId. by rewrite (li_next _ _ _ _ _ _ _ Hp). }
    exists id, (mkIterator id (Z.of_nat i) (Z.of_nat (length es))).
    split; [by rewrite drop_ge by lia|]. split; [done|]. by exists INVALID_PAGE_ID, es.
  - rewrite (proj2 (Z.leb_gt _ _)) by lia.
    rewrite (bind_run _ _ (looking false id s) false (looking false id s) eq_refl). cbv iota.
    destruct (lookup_lt_is_Some_2 es i ltac:(lia)) as [x Hxi].
    rewrite (bind_run _ _ (looking false id s) x (looking false id s)).
    2:{ unfold BPlusTree.Iterator_item. rewrite (bind_run _ _ _ _ _ Hg). apply lift_ok.
        apply Leaf.get_item_ok; [apply Hp|by rewrite (li_entries _ _ _ _ _ _ _ Hp)]. }
    rewrite (drop_S es x i Hxi) in Hfuel |- *. cbn [app length] in Hfuel |- *.
    destruct (next_ok s id nx es rest i Hall Hl Hr Hu ltac:(lia))
      as (id' & nx' & es' & rest' & i' & Hnext & Hdrop & Hall' & Hl' & Hi' & Hend').
    rewrite (bind_run _ _ _ _ _ Hnext). rewrite Hdrop in Hfuel |- *.
    destruct (IH s id' nx' es' rest' i' Hall' Hl' Hr Hu Hi' Hend' ltac:(lia)) as (last & it & Hscan & Hrun).
    exists last, it. by rewrite (bind_run _ _ _ _ _ Hscan).
Qed.

(** The loop and the end of the iterator: the state is as before [Begin]. *)
Lemma walk_ok fuel s id nx es rest i : ready s ->
  Forall (held (nodes (store s))) ((id, nx, es) :: rest) ->
  linked ((id, nx) :: rest.*1) INVALID_PAGE_ID -> room 1 s -> (i < length es)%nat ->
  (length (drop i es ++ concat rest.*2) < fuel)%nat ->
  (let! it := Iterator id (Z.of_nat i) in walk fuel it) (looking false id s) = Ok (drop i es ++ concat rest.*2, s).
Proof.
  intros H Hall Hl Hr Hi Hfuel. pose proof Hall as [Hfirst _]%Forall_cons.
  destruct (scan_loop_ok fuel s id nx es rest i Hall Hl Hr (rd_unsaved _ _ H) ltac:(lia)) as (last & it & Hscan & Hlast & nx' & es' & Hx);
    [lia|exact Hfuel|].
  destruct (held_leaf _ s ({[+ id +]} ⊎ pins (store s)) [] Hfirst (elem_of_pinned _ _)) as (p & parent & _ & Hgp & Hp).
  cbn [fst snd] in Hgp, Hp. fold (looking false id s) in Hgp. unfold Iterator, walk.
  rewrite bind_bind, (bind_run _ _ _ _ _ Hgp). pose proof (leaf_is_length _ _ _ _ _ _ _ Hp) as Hlen.
  unfold Leaf.GetSize in Hlen. rewrite Hlen.
  rewrite (bind_run _ _ (looking false id s) _ (looking false id s) eq_refl), (bind_run _ _ _ _ _ Hscan).
  unfold Iterator_release. rewrite Hlast, bind_bind. pose proof Hx as (Hv & _ & par' & p' & Hp' & Hil). cbn [fst snd] in Hv, Hp', Hil.
  rewrite (bind_run _ _ (looking false last s) last (looking false last s)).
  2:{ apply tree_page_id_ok; [apply elem_of_pinned|]. exists (LeafNode p'), (Leaf.hdr p'). split; [done|]. split; [done|]. apply Hil. }
  unfold looking. rewrite bind_bind, (bind_run _ _ _ _ _ (paged_unpin last [] _ s Hv (rd_unsaved _ _ H))).
  by rewrite (ready_paged index_name).
Qed.

(** The pages of a tree, split at the leaf in focus. *)
Lemma focus_pages s h t fs id nx (es : list (K * V)) : index_at s h t -> fill fs (TLeaf id nx es) = t ->
  pages (tokens t) = pages (left_of fs) ++ (id, nx, es) :: pages (right_of fs) /\
  Forall (held (nodes (store s))) ((id, nx, es) :: pages (right_of fs)) /\
  linked ((id, nx) :: (pages (right_of fs)).*1) INVALID_PAGE_ID.
Proof.
  intros Hix Hfill.
  assert (E : pages (tokens t) = pages (left_of fs) ++ (id, nx, es) :: pages (right_of fs)).
  { by rewrite <- Hfill, tokens_fill, pages_app, pages_app. }
  split; [done|]. pose proof (pages_held h _ _ _ t (ix_holds _ _ _ _ _ _ Hix) (ix_fit _ _ _ _ _ _ Hix)
    (fun q => index_valid _ _ _ _ _ _ q Hix)) as Hall.
  pose proof (ix_links _ _ _ _ _ _ Hix) as Hl. rewrite leaves_pages in Hl. rewrite E in *.
  apply Forall_app in Hall as [_ Hall]. split; [done|]. rewrite fmap_app in Hl. cbn [fmap list_fmap fst] in Hl.
  by apply linked_app in Hl as [_ Hl].
Qed.

(** The whole loop: it reads the entries in order, and leaves the state as it was. *)
Lemma scan_all_ok fuel s h t :
  ready s -> index_at s h t -> room 2 s -> (S h < fuel)%nat -> (length (entries (tokens t)) < fuel)%nat ->
  scan_all fuel s = Ok (entries (tokens t), s).
Proof.
  intros H Hix Hr Hh Hfuel.
  destruct (find_leaf_lookup key_size value_size zero_key index_name cmp Hsizes fuel zero_key true false s h t H Hix Hr Hh)
    as (fs & id & nx & es & Hfind & Hf & Hfill & _ & _ & Ha).
  destruct (focus_pages s h t fs id nx es Hix Hfill) as (E & Hall & Hl). cbn [aimed] in Ha. rewrite Ha in E.
  rewrite entries_pages, E in Hfuel |- *. cbn [app fmap list_fmap snd] in Hfuel |- *.
  pose proof Hall as [(_ & Hne & _) _]%Forall_cons. cbn [snd] in Hne.
  unfold scan_all, BPlusTree.Begin. rewrite bind_bind, (bind_run _ _ _ _ _ Hfind).
  apply (walk_ok fuel s id nx es (pages (right_of fs)) 0 H Hall Hl (room_le _ 1 _ Hr ltac:(lia))); [|exact Hfuel].
  destruct es; [done|simpl; lia].
Qed.

(** *** From a key *)

Lemma from_key_first key l r :
  from_key key (l ++ r) = match first_index (fun e : K * V => 0 <=? cmp e.1 key) l with
                          | Some i => drop i l ++ r
                          | None => from_key key r
                          end.
Proof.
  induction l as [|e l IH]; [done|]. unfold first_index. cbn [app from_key list_find].
  destruct (0 <=? cmp e.1 key) eqn:Ee; [by rewrite decide_True|]. rewrite decide_False by done. rewrite IH. unfold first_index.
  by destruct (list_find _ l) as [[j y]|].
Qed.

Lemma from_key_below key l r : (forall e, e ∈ l -> cmp e.1 key < 0) -> from_key key (l ++ r) = from_key key r.
Proof.
  intros Hl. rewrite from_key_first. rewrite (proj2 (first_index_None _ l)); [done|].
  intros e He. apply Z.leb_gt, Hl, He.
Qed.

Lemma find_entry_first key l : first_index (fun e : K * V => 0 <=? cmp e.1 key) l = None -> find_entry cmp key l = None.
Proof.
  intros Hn. induction l as [|[k v] l IH]; [done|]. pose proof (proj1 (first_index_None _ _) Hn) as Hall. cbn [find_entry].
  pose proof (Hall (k, v) (list_elem_of_here _ _)) as Hk. cbn [fst] in Hk. apply Z.leb_gt in Hk.
  pose proof (ko_antisym k key). rewrite (proj2 (Z.eqb_neq _ _)) by lia. apply IH, first_index_None.
  intros e He. apply Hall. by right.
Qed.

(** The loop from a key: the entries from that key on, unless the key is above all keys of
    its leaf. *)
Lemma scan_from_key_ok fuel key s h t :
  ready s -> index_at s h t -> room 2 s -> (S h < fuel)%nat -> (length (entries (tokens t)) < fuel)%nat ->
  let es := entries (tokens t) in
  from_key key es <> [] /\ scan_from fuel key s = Ok (from_key key es, s) \/
  find_entry cmp key es = None /\ scan_from fuel key s = Fail (Throw "no such key"%string).
Proof.
  intros H Hix Hr Hh Hfuel. cbv zeta.
  destruct (find_leaf_lookup key_size value_size zero_key index_name cmp Hsizes fuel key false false s h t H Hix Hr Hh)
    as (fs & id & nx & es & Hfind & Hf & Hfill & _ & _ & Hb & Ha).
  destruct (focus_pages s h t fs id nx es Hix Hfill) as (E & Hall & Hl).
  assert (Hbelow : forall e, e ∈ entries (left_of fs) -> cmp e.1 key < 0) by (intros e; by apply below_entries).
  assert (Habove : forall e, e ∈ entries (right_of fs) -> cmp key e.1 < 0) by (intros e; by apply above_entries).
  assert (Hent : entries (tokens t) = entries (left_of fs) ++ es ++ entries (right_of fs))
    by (rewrite <- Hfill; apply leaf_entries_split).
  rewrite Hent in Hfuel |- *. rewrite from_key_below, find_entry_middle, from_key_first by done.
  destruct (fo_holds _ _ _ _ _ _ _ Hf) as (p & Hp & Hi). pose proof (li_entries _ _ _ _ _ _ _ Hi) as Hpe.
  assert (Hindex : Leaf.KeyIndex cmp key p = Ok (from_option Z.of_nat (-1) (first_index (fun e => 0 <=? cmp e.1 key) es))).
  { rewrite <- Hpe. apply Leaf.key_index_ok, Hi. }
  unfold scan_from, BPlusTree.Begin_at. rewrite bind_bind, (bind_run _ _ _ _ _ Hfind), bind_bind.
  erewrite bind_run by (apply (get_leaf_ok _ _ _ _ id (LeafNode p)); [apply elem_of_pinned|done|done]).
  rewrite bind_bind, (bind_run _ _ _ _ _ (lift_ok _ _ _ Hindex)).
  destruct (first_index _ es) as [i|] eqn:Ei; cbn [from_option]; [left|right].
  - apply first_index_Some in Ei as (x & Hx & _). pose proof (lookup_lt_Some _ _ _ Hx) as Hlt.
    rewrite (proj2 (Z.eqb_neq _ _)) by lia. rewrite (entries_pages (right_of fs)) in *. split.
    + rewrite (drop_S es x i Hx). done.
    + apply (walk_ok fuel s id nx es (pages (right_of fs)) i H Hall Hl (room_le _ 1 _ Hr ltac:(lia)) Hlt).
      rewrite !length_app in *. rewrite length_drop. lia.
  - split; [by apply find_entry_first|done].
Qed.
End Scan.
End TreeScan.
