(* ===== verification/TreeMoves.v ===== *)
(** * Moves between two siblings

    The runs of MoveAllTo, MoveFirstToEndOf and MoveLastToFrontOf of both kinds of page,
    on a page [P] whose cells have the children [a] and [b] side by side. *)

From stdpp Require Import prelude gmap gmultiset list sorting.
From Stdlib Require Import ZArith Lia.
From S2P Require Import Prelude HeaderPage BPlusTreePage LeafPage InternalPage TreeNodes BPlusTree.
From S2P Require Import TreeModel TreeSteps TreeInsert.

Local Open Scope Z_scope.

Module TreeMoves.
Import BPage Nodes TreeModel BPlusTree TreeSteps TreeInsert.

Section Moves.
Context {K V : Type} (key_size value_size : Z) (zero_key : K) (zero_value : V).
Implicit Types (s : State K V) (m : gmap Z (Node K V)).

Abbreviation leaf_max := (leaf_max key_size value_size).
Abbreviation internal_max := (internal_max key_size).
Abbreviation leaf_is := (leaf_is key_size value_size).
Abbreviation internal_is := (internal_is key_size).
Abbreviation get_leaf := (get_leaf key_size value_size zero_key zero_value).
Abbreviation get_internal := (get_internal key_size zero_key).

Record siblings m (P par : Z) (cl : list (K * Z)) (ka : K) (a : Z) (kb : K) (b : Z) (cr : list (K * Z))
    (pp : Internal.BPlusTreeInternalPage K) : Prop := {
  sb_page : m !! P = Some (InternalNode pp);
  sb_is : internal_is par P (cl ++ (ka, a) :: (kb, b) :: cr) pp;
  sb_nodup : NoDup (P :: (cl ++ (ka, a) :: (kb, b) :: cr).*2);
  sb_valid : P <> INVALID_PAGE_ID
}.

Lemma put_unpin p n s :
  drop_pin p true (put p n (pin_page p s)) = edit (<[p := n]> (nodes (store s))) (({[p]} ∪ unsaved (store s)) ∖ {[p]}) s.
Proof.
  unfold drop_pin, put, pin_page, edit, upd, set_store.
  cbn [store txn trivial_page_id_ root_page_id_ nodes pins unsaved next capacity]. by rewrite unpin_pinned.
Qed.

Lemma siblings_ne m P par cl ka a kb b cr pp :
  siblings m P par cl ka a kb b cr pp ->
  (a <> P /\ b <> P /\ a <> b) /\ (a ∉ cl.*2) /\ (b ∉ (cl ++ [(ka, a)]).*2) /\
  (P ∉ (cl ++ (ka, a) :: (kb, b) :: cr).*2).
Proof.
  intros H. pose proof (sb_nodup _ _ _ _ _ _ _ _ _ _ H) as [Hp Hnd]%NoDup_cons. rewrite !fmap_app in *.
  simpl in *. pose proof Hnd as (_ & H1 & [H2 _]%NoDup_cons)%NoDup_app.
  rewrite elem_of_app, !elem_of_cons in Hp. rewrite elem_of_cons in H2.
  split; [|split; [|split]].
  - naive_solver.
  - intros Ha. apply (H1 a Ha). left.
  - rewrite elem_of_app, list_elem_of_singleton. intros [Hb| ->]; [apply (H1 b Hb); right; left|tauto].
  - rewrite elem_of_app, !elem_of_cons. tauto.
Qed.

Lemma sibling_cells (cl : list (K * Z)) ka a kb b cr :
  (cl ++ (ka, a) :: (kb, b) :: cr) !! length cl = Some (ka, a) /\
  (cl ++ (ka, a) :: (kb, b) :: cr) !! S (length cl) = Some (kb, b).
Proof.
  split; [by apply list_lookup_middle|]. rewrite lookup_app_r by lia.
  by replace (S (length cl) - length cl)%nat with 1%nat by lia.
Qed.

Lemma sibling_index m P par cl ka a kb b cr pp :
  siblings m P par cl ka a kb b cr pp ->
  Internal.ValueIndex a pp = Ok (Z.of_nat (length cl)) /\
  Internal.ValueIndex b pp = Ok (Z.of_nat (S (length cl))).
Proof.
  intros H. pose proof (sb_is _ _ _ _ _ _ _ _ _ _ H) as Hi.
  destruct (siblings_ne _ _ _ _ _ _ _ _ _ _ H) as (_ & Ha & Hb & _).
  rewrite !Internal.value_index_ok, (ii_entries _ _ _ _ _ Hi) by apply Hi. split.
  - by rewrite (first_cell cl (ka, a)).
  - rewrite (cons_middle (ka, a) cl), app_assoc, (first_cell (cl ++ [(ka, a)]) (kb, b)) by done.
    rewrite length_app. simpl. do 2 f_equal. lia.
Qed.

Lemma common_parent_ok a b na nb ha hb P s :
  a ∈ pins (store s) -> b ∈ pins (store s) -> nodes (store s) !! a = Some na -> nodes (store s) !! b = Some nb ->
  as_page na = Ok ha -> as_page nb = Ok hb -> parent_page_id_ ha = P -> parent_page_id_ hb = P ->
  P <> INVALID_PAGE_ID -> common_parent a b s = Ok (P, s).
Proof.
  intros Ha Hb Hna Hnb Hha Hhb Hpa Hpb HP. unfold common_parent.
  rewrite (bind_run _ _ _ _ _ (parent_id_ok a _ _ s Ha Hna Hha)), (bind_run _ _ _ _ _ (parent_id_ok b _ _ s Hb Hnb Hhb)).
  rewrite Hpa, Hpb, (bind_run _ _ _ _ _ (asserts_ok _ s (Z.eqb_refl P))).
  rewrite (bind_run _ _ s tt s) by (by apply asserts_ok, negb_true_iff, Z.eqb_neq). done.
Qed.

(** The parent page: its cell of [b] removed, or with another key. *)
Lemma parent_removed m P par cl ka a kb b cr pp :
  siblings m P par cl ka a kb b cr pp ->
  exists pp', Internal.Remove (Z.of_nat (S (length cl))) pp = Ok pp' /\ internal_is par P (cl ++ (ka, a) :: cr) pp'.
Proof.
  intros H. pose proof (sb_is _ _ _ _ _ _ _ _ _ _ H) as Hi.
  destruct (Internal.internal_remove_ok pp (S (length cl)) (kb, b)) as (pp' & Hr & Hf & He); [apply Hi| |].
  - rewrite (ii_entries _ _ _ _ _ Hi). apply sibling_cells.
  - exists pp'. split; [done|]. apply (internal_frame_is _ _ _ _ _ _ _ Hi Hf).
    rewrite He, (ii_entries _ _ _ _ _ Hi), (cons_middle (ka, a) cl), app_assoc.
    replace (S (length cl)) with (length (cl ++ [(ka, a)])) by (rewrite length_app; simpl; lia).
    by rewrite delete_middle, <- app_assoc.
Qed.

Lemma parent_rekeyed m P par cl ka a kb b cr pp k :
  siblings m P par cl ka a kb b cr pp ->
  exists pp', Internal.SetKeyAt (Z.of_nat (S (length cl))) k pp = Ok pp' /\
              internal_is par P (cl ++ (ka, a) :: (k, b) :: cr) pp'.
Proof.
  intros H. pose proof (sb_is _ _ _ _ _ _ _ _ _ _ H) as Hi.
  destruct (Internal.internal_set_key_ok pp (S (length cl)) k (kb, b)) as (pp' & Hr & Hf & He); [apply Hi| |lia|].
  - rewrite (ii_entries _ _ _ _ _ Hi). apply sibling_cells.
  - exists pp'. split; [done|]. apply (internal_frame_is _ _ _ _ _ _ _ Hi Hf).
    rewrite He, (ii_entries _ _ _ _ _ Hi), (cons_middle (ka, a) cl), app_assoc.
    rewrite insert_app_r_alt, length_app by (rewrite length_app; simpl; lia). simpl.
    replace (S (length cl) - (length cl + 1))%nat with 0%nat by lia. simpl. by rewrite <- app_assoc.
Qed.

(** ** Leaf pages *)

Lemma leaf_hdr_is parent id nx nx' (es es' : list (K * V)) p p' :
  leaf_is parent id nx es p -> Leaf.wf p' -> Leaf.same_hdr p p' -> Leaf.next_page_id_ p' = nx' ->
  Leaf.entries p' = es' -> leaf_is parent id nx' es' p'.
Proof. intros [] ? (? & ? & ? & ?) ? ?. split; congruence. Qed.

(** Two leaves side by side. *)
Record leaves_at m (P a b nxa nxb : Z) (esa esb : list (K * V)) (pa pb : Leaf.BPlusTreeLeafPage K V) : Prop := {
  la_a : m !! a = Some (LeafNode pa);
  la_b : m !! b = Some (LeafNode pb);
  la_a_is : leaf_is P a nxa esa pa;
  la_b_is : leaf_is P b nxb esb pb
}.

Definition leaf_result m (P a b : Z) pp' pa' pb' : gmap Z (Node K V) :=
  <[b := LeafNode pb']> (<[a := LeafNode pa']> (<[P := InternalNode pp']> m)).

Lemma leaves_parent P a b nxa nxb esa esb pa pb s :
  leaves_at (nodes (store s)) P a b nxa nxb esa esb pa pb -> a ∈ pins (store s) -> b ∈ pins (store s) ->
  P <> INVALID_PAGE_ID -> common_parent a b s = Ok (P, s) /\ common_parent b a s = Ok (P, s).
Proof.
  intros [Ha Hb Hia Hib] Hpa Hpb HP. split.
  - by apply (common_parent_ok a b (LeafNode pa) (LeafNode pb) (Leaf.hdr pa) (Leaf.hdr pb)); [..|apply Hia|apply Hib|].
  - by apply (common_parent_ok b a (LeafNode pb) (LeafNode pa) (Leaf.hdr pb) (Leaf.hdr pa)); [..|apply Hib|apply Hia|].
Qed.

Lemma leaf_id_ok parent id nx es p s :
  nodes (store s) !! id = Some (LeafNode p) -> leaf_is parent id nx es p -> id ∈ pins (store s) ->
  GetPageId id s = Ok (id, s).
Proof. intros Hp Hi Hin. apply tree_page_id_ok; [done|]. exists (LeafNode p), (Leaf.hdr p). by repeat split; [..|apply Hi]. Qed.

Lemma leaf_merge_run s P par cl ka a kb b cr pp nxa nxb esa esb pa pb :
  siblings (nodes (store s)) P par cl ka a kb b cr pp ->
  leaves_at (nodes (store s)) P a b nxa nxb esa esb pa pb ->
  a ∈ pins (store s) -> b ∈ pins (store s) -> room 1 s -> Z.of_nat (length esa + length esb) <= leaf_max ->
  exists pp' pa' pb' u',
    leaf_MoveAllTo key_size value_size zero_key zero_value b a s =
      Ok (tt, edit (leaf_result (nodes (store s)) P a b pp' pa' pb') u' s) /\
    internal_is par P (cl ++ (ka, a) :: cr) pp' /\ leaf_is P a nxb (esa ++ esb) pa' /\
    page_id_ (Leaf.hdr pb') = b /\ u' ⊆ unsaved (store s) ∪ {[a; b]}.
Proof.
  intros Hs Hl Ha Hb Hr Hlen. destruct (siblings_ne _ _ _ _ _ _ _ _ _ _ Hs) as ((HaP & HbP & Hab) & _).
  pose proof (sb_valid _ _ _ _ _ _ _ _ _ _ Hs) as HP.
  unfold leaf_MoveAllTo. rewrite (bind_run _ _ _ _ _ (proj2 (leaves_parent _ _ _ _ _ _ _ _ _ _ Hl Ha Hb HP))).
  pose proof (sb_page _ _ _ _ _ _ _ _ _ _ Hs) as Hpp. destruct Hl as [Hna Hnb Hia Hib].
  rewrite (bind_run _ _ _ _ _ (fetch_data_ok P s 0 Hr HP (mk_is_Some _ _ Hpp))). set (s1 := pin_page P s).
  erewrite bind_run by (by apply (get_internal_ok _ _ P (InternalNode pp) pp s1 (elem_of_pinned _ _))).
  rewrite (bind_run _ _ _ _ _ (leaf_id_ok _ _ _ _ _ s1 Hnb Hib (elem_of_pinned_r _ _ _ Hb))).
  rewrite (bind_run _ _ s1 (Z.of_nat (S (length cl))) s1) by (apply lift_ok, (sibling_index _ _ _ _ _ _ _ _ _ _ Hs)).
  destruct (parent_removed _ _ _ _ _ _ _ _ _ _ Hs) as (pp' & Hrm & Hip).
  rewrite (bind_run _ _ s1 pp' s1) by (by apply lift_ok).
  rewrite (bind_run _ _ _ _ _ (put_internal_ok P pp' s1 (elem_of_pinned _ _))).
  rewrite (bind_run _ _ _ _ _ (unpin_ok P (put P (InternalNode pp') s1) (elem_of_pinned _ _) HP)).
  unfold s1. rewrite put_unpin. set (s2 := edit _ _ s).
  assert (Hna2 : nodes (store s2) !! a = Some (LeafNode pa)) by (etrans; [by apply lookup_insert_ne|done]).
  assert (Hnb2 : nodes (store s2) !! b = Some (LeafNode pb)) by (etrans; [by apply lookup_insert_ne|done]).
  erewrite bind_run by (by apply (get_leaf_ok _ _ _ _ b (LeafNode pb))).
  erewrite bind_run by (by apply (get_leaf_ok _ _ _ _ a (LeafNode pa))).
  destruct (Leaf.move_all_ok pb pa) as (pb' & pa' & Hm & Hwb & Hwa & _ & Hea & Hnx & Hhb & Hha); [apply Hib|apply Hia| |].
  { rewrite (leaf_is_length _ _ _ _ _ _ _ Hia), (leaf_is_length _ _ _ _ _ _ _ Hib), (li_max _ _ _ _ _ _ _ Hia). lia. }
  rewrite (bind_run _ _ s2 (pb', pa') s2) by (by apply lift_ok). cbv beta iota.
  rewrite (bind_run _ _ _ _ _ (put_leaf_ok a pa' s2 Ha)). rewrite put_leaf_ok by done.
  exists pp', pa', pb', ({[b]} ∪ ({[a]} ∪ (({[P]} ∪ unsaved (store s)) ∖ {[P]}))).
  split; [done|]. split; [done|]. split; [|split].
  - apply (leaf_hdr_is _ _ _ _ _ _ _ _ Hia Hwa Hha).
    + by rewrite Hnx, (li_next _ _ _ _ _ _ _ Hib).
    + by rewrite Hea, (li_entries _ _ _ _ _ _ _ Hia), (li_entries _ _ _ _ _ _ _ Hib).
  - destruct Hhb as (_ & -> & _). apply Hib.
  - clear. set_solver.
Qed.

Lemma leaf_result_parent_last m (P a b : Z) pp pa pb :
  a <> P -> b <> P -> a <> b ->
  <[P := InternalNode pp]> (<[b := LeafNode pb]> (<[a := LeafNode pa]> m)) = leaf_result m P a b pp pa pb /\
  <[P := InternalNode pp]> (<[a := LeafNode pa]> (<[b := LeafNode pb]> m)) = leaf_result m P a b pp pa pb.
Proof.
  intros HaP HbP Hab. unfold leaf_result. split.
  - by rewrite (insert_insert_ne _ P b), (insert_insert_ne _ P a).
  - by rewrite (insert_insert_ne _ a b), (insert_insert_ne _ P b), (insert_insert_ne _ P a).
Qed.

Lemma leaf_first_run s P par cl ka a kb b cr pp nxa nxb esa x y esb pa pb :
  siblings (nodes (store s)) P par cl ka a kb b cr pp ->
  leaves_at (nodes (store s)) P a b nxa nxb esa (x :: y :: esb) pa pb ->
  a ∈ pins (store s) -> b ∈ pins (store s) -> room 1 s -> Z.of_nat (length esa) < leaf_max ->
  exists pp' pa' pb' u',
    leaf_MoveFirstToEndOf key_size value_size zero_key zero_value b a s =
      Ok (tt, edit (leaf_result (nodes (store s)) P a b pp' pa' pb') u' s) /\
    internal_is par P (cl ++ (ka, a) :: (y.1, b) :: cr) pp' /\ leaf_is P a nxa (esa ++ [x]) pa' /\
    leaf_is P b nxb (y :: esb) pb' /\ u' ⊆ unsaved (store s) ∪ {[a; b]}.
Proof.
  intros Hs Hl Ha Hb Hr Hlen. destruct (siblings_ne _ _ _ _ _ _ _ _ _ _ Hs) as ((HaP & HbP & Hab) & _).
  pose proof (sb_valid _ _ _ _ _ _ _ _ _ _ Hs) as HP.
  unfold leaf_MoveFirstToEndOf. rewrite (bind_run _ _ _ _ _ (proj2 (leaves_parent _ _ _ _ _ _ _ _ _ _ Hl Ha Hb HP))).
  pose proof (sb_page _ _ _ _ _ _ _ _ _ _ Hs) as Hpp. destruct Hl as [Hna Hnb Hia Hib].
  erewrite bind_run by (by apply (get_leaf_ok _ _ _ _ b (LeafNode pb))).
  erewrite bind_run by (by apply (get_leaf_ok _ _ _ _ a (LeafNode pa))).
  destruct (Leaf.move_first_ok pb pa x (y :: esb)) as (pb' & pa' & Hm & Hfb & Hfa & Heb & Hea); [apply Hib|apply Hia|apply Hib| |].
  { by rewrite (leaf_is_length _ _ _ _ _ _ _ Hia), (li_max _ _ _ _ _ _ _ Hia). }
  rewrite (li_entries _ _ _ _ _ _ _ Hia) in Hea.
  pose proof (leaf_frame_is _ _ _ _ _ _ _ _ _ Hia Hfa Hea) as Hia'.
  pose proof (leaf_frame_is _ _ _ _ _ _ _ _ _ Hib Hfb Heb) as Hib'.
  rewrite (bind_run _ _ s (pb', pa') s) by (by apply lift_ok). cbv beta iota.
  rewrite (bind_run _ _ _ _ _ (put_leaf_ok a pa' s Ha)).
  rewrite (bind_run _ _ _ _ _ (put_leaf_ok b pb' (put a (LeafNode pa') s) Hb)). set (s2 := put b _ (put a _ s)).
  assert (Hpp2 : nodes (store s2) !! P = Some (InternalNode pp))
    by (etrans; [by apply lookup_insert_ne|]; etrans; [by apply lookup_insert_ne|done]).
  rewrite (bind_run _ _ _ _ _ (fetch_data_ok P s2 0 Hr HP (mk_is_Some _ _ Hpp2))). set (s3 := pin_page P s2).
  erewrite bind_run by (by apply (get_internal_ok _ _ P (InternalNode pp) pp s3 (elem_of_pinned _ _))).
  rewrite (bind_run _ _ _ _ _ (leaf_id_ok _ _ _ _ _ s3 (lookup_insert_eq _ _ _) Hib' (elem_of_pinned_r _ _ _ Hb))).
  rewrite (bind_run _ _ s3 (Z.of_nat (S (length cl))) s3) by (apply lift_ok, (sibling_index _ _ _ _ _ _ _ _ _ _ Hs)).
  rewrite (bind_run _ _ s3 y s3).
  2:{ apply lift_ok. change 0 with (Z.of_nat 0). apply Leaf.leaf_cell_entry; [apply Hib'|by rewrite Heb]. }
  destruct (parent_rekeyed _ _ _ _ _ _ _ _ _ _ y.1 Hs) as (pp' & Hk & Hip).
  rewrite (bind_run _ _ s3 pp' s3) by (by apply lift_ok).
  rewrite (bind_run _ _ _ _ _ (put_internal_ok P pp' s3 (elem_of_pinned _ _))).
  rewrite (bind_run _ _ _ _ _ (unpin_ok P (put P (InternalNode pp') s3) (elem_of_pinned _ _) HP)).
  unfold s3. rewrite put_unpin. exists pp', pa', pb', (({[P]} ∪ unsaved (store s2)) ∖ {[P]}). split.
  - rewrite <- (proj1 (leaf_result_parent_last _ _ _ _ pp' pa' pb' HaP HbP Hab)). done.
  - split; [done|]. split; [done|]. split; [done|].
    cbn [s2 put upd set_store store unsaved]. clear. set_solver.
Qed.

(** The parent's pin taken before changes of pages, and released after them. *)
Lemma unpin_edit p m u s : drop_pin p true (edit m u (pin_page p s)) = edit m (u ∖ {[p]}) s.
Proof.
  unfold drop_pin, pin_page, edit, upd, set_store.
  cbn [store txn trivial_page_id_ root_page_id_ nodes pins unsaved next capacity]. by rewrite unpin_pinned.
Qed.

Lemma leaf_copy_first_run s P par cl ka a kb b cr pp nxb esb x pb :
  siblings (nodes (store s)) P par cl ka a kb b cr pp ->
  nodes (store s) !! b = Some (LeafNode pb) -> leaf_is P b nxb esb pb ->
  b ∈ pins (store s) -> room 1 s -> Z.of_nat (length esb) < leaf_max ->
  exists pp' pb' u',
    leaf_CopyFirstFrom key_size value_size zero_key zero_value x (Z.of_nat (S (length cl))) b s =
      Ok (tt, edit (<[P := InternalNode pp']> (<[b := LeafNode pb']> (nodes (store s)))) u' s) /\
    internal_is par P (cl ++ (ka, a) :: (x.1, b) :: cr) pp' /\ leaf_is P b nxb (x :: esb) pb' /\
    u' ⊆ unsaved (store s) ∪ {[b]}.
Proof.
  intros Hs Hnb Hib Hb Hr Hlen. destruct (siblings_ne _ _ _ _ _ _ _ _ _ _ Hs) as ((HaP & HbP & Hab) & _).
  pose proof (sb_valid _ _ _ _ _ _ _ _ _ _ Hs) as HP. pose proof (sb_page _ _ _ _ _ _ _ _ _ _ Hs) as Hpp.
  unfold leaf_CopyFirstFrom. rewrite (bind_run _ _ _ _ _ (parent_id_ok b _ _ s Hb Hnb eq_refl)).
  rewrite (li_parent _ _ _ _ _ _ _ Hib).
  rewrite (bind_run _ _ s tt s) by (by apply asserts_ok, negb_true_iff, Z.eqb_neq).
  erewrite bind_run by (by apply (get_leaf_ok _ _ _ _ b (LeafNode pb))).
  destruct (Leaf.push_front_ok pb x) as (pb' & Hpf & Hf & He); [apply Hib| |].
  { by rewrite (leaf_is_length _ _ _ _ _ _ _ Hib), (li_max _ _ _ _ _ _ _ Hib). }
  rewrite (bind_run _ _ s pb' s) by (by apply lift_ok).
  rewrite (bind_run _ _ _ _ _ (put_leaf_ok b pb' s Hb)). set (s1 := put b _ s).
  assert (Hpp1 : nodes (store s1) !! P = Some (InternalNode pp)) by (etrans; [by apply lookup_insert_ne|done]).
  rewrite (bind_run _ _ _ _ _ (fetch_data_ok P s1 0 Hr HP (mk_is_Some _ _ Hpp1))). set (s2 := pin_page P s1).
  erewrite bind_run by (by apply (get_internal_ok _ _ P (InternalNode pp) pp s2 (elem_of_pinned _ _))).
  rewrite (bind_run _ _ s2 x s2).
  2:{ apply lift_ok. change 0 with (Z.of_nat 0). apply Leaf.leaf_cell_entry; [apply Hf|by rewrite He]. }
  destruct (parent_rekeyed _ _ _ _ _ _ _ _ _ _ x.1 Hs) as (pp' & Hk & Hip).
  rewrite (bind_run _ _ s2 pp' s2) by (by apply lift_ok).
  rewrite (bind_run _ _ _ _ _ (put_internal_ok P pp' s2 (elem_of_pinned _ _))).
  rewrite (bind_run _ _ _ _ _ (unpin_ok P (put P (InternalNode pp') s2) (elem_of_pinned _ _) HP)).
  unfold s2. rewrite put_unpin. exists pp', pb', (({[P]} ∪ unsaved (store s1)) ∖ {[P]}).
  split; [done|]. split; [done|]. split.
  - apply (leaf_frame_is _ _ _ _ _ _ _ _ _ Hib Hf). by rewrite He, (li_entries _ _ _ _ _ _ _ Hib).
  - cbn [s1 put upd set_store store unsaved]. clear. set_solver.
Qed.

Lemma leaf_last_run s P par cl ka a kb b cr pp nxa nxb esa x esb pa pb :
  siblings (nodes (store s)) P par cl ka a kb b cr pp ->
  leaves_at (nodes (store s)) P a b nxa nxb (esa ++ [x]) esb pa pb ->
  a ∈ pins (store s) -> b ∈ pins (store s) -> room 2 s -> Z.of_nat (length esb) < leaf_max ->
  exists pp' pa' pb' u',
    leaf_MoveLastToFrontOf key_size value_size zero_key zero_value a b s =
      Ok (tt, edit (leaf_result (nodes (store s)) P a b pp' pa' pb') u' s) /\
    internal_is par P (cl ++ (ka, a) :: (x.1, b) :: cr) pp' /\ leaf_is P a nxa esa pa' /\
    leaf_is P b nxb (x :: esb) pb' /\ u' ⊆ unsaved (store s) ∪ {[a; b]}.
Proof.
  intros Hs Hl Ha Hb Hr Hlen. destruct (siblings_ne _ _ _ _ _ _ _ _ _ _ Hs) as ((HaP & HbP & Hab) & _).
  pose proof (sb_valid _ _ _ _ _ _ _ _ _ _ Hs) as HP.
  unfold leaf_MoveLastToFrontOf. rewrite (bind_run _ _ _ _ _ (proj1 (leaves_parent _ _ _ _ _ _ _ _ _ _ Hl Ha Hb HP))).
  pose proof (sb_page _ _ _ _ _ _ _ _ _ _ Hs) as Hpp. destruct Hl as [Hna Hnb Hia Hib].
  rewrite (bind_run _ _ _ _ _ (fetch_data_ok P s 1 Hr HP (mk_is_Some _ _ Hpp))). set (s1 := pin_page P s).
  assert (Hr1 : room 1 s1) by (by apply room_more).
  assert (Ha1 : a ∈ pins (store s1)) by (by apply elem_of_pinned_r).
  assert (Hb1 : b ∈ pins (store s1)) by (by apply elem_of_pinned_r).
  erewrite bind_run by (by apply (get_internal_ok _ _ P (InternalNode pp) pp s1 (elem_of_pinned _ _))).
  rewrite (bind_run _ _ _ _ _ (leaf_id_ok _ _ _ _ _ s1 Hnb Hib Hb1)).
  rewrite (bind_run _ _ s1 (Z.of_nat (S (length cl))) s1) by (apply lift_ok, (sibling_index _ _ _ _ _ _ _ _ _ _ Hs)).
  erewrite bind_run by (by apply (get_leaf_ok _ _ _ _ a (LeafNode pa))).
  destruct (Leaf.drop_last_ok pa x esa) as (Hx & Hfa & Hea); [apply Hia|apply Hia|].
  rewrite (bind_run _ _ s1 x s1) by (by apply lift_ok).
  destruct (leaf_copy_first_run s1 P par cl ka a kb b cr pp nxb esb x pb Hs Hnb Hib Hb1 Hr1 Hlen)
    as (pp' & pb' & u' & Hrun & Hip & Hib' & Hu).
  rewrite (bind_run _ _ _ _ _ Hrun). set (s2 := edit _ u' s1).
  erewrite bind_run.
  2:{ apply (get_leaf_ok _ _ _ _ a (LeafNode pa)); [done| |reflexivity].
      etrans; [by apply lookup_insert_ne|]. etrans; [by apply lookup_insert_ne|done]. }
  rewrite (bind_run _ _ _ _ _ (put_leaf_ok a _ s2 Ha1)). set (pa' := Leaf.set_hdr pa _).
  rewrite (bind_run _ _ _ _ _ (unpin_ok P (put a (LeafNode pa') s2) (elem_of_pinned _ _) HP)).
  change (put a (LeafNode pa') s2) with
    (edit (<[a := LeafNode pa']> (nodes (store s2))) ({[a]} ∪ u') (pin_page P s)). rewrite unpin_edit.
  exists pp', pa', pb', (({[a]} ∪ u') ∖ {[P]}). split.
  - unfold ret, leaf_result. do 3 f_equal. cbn [s2 edit upd set_store store nodes s1 pin_page].
    by rewrite (insert_insert_ne _ b a), (insert_insert_ne _ b P) by done.
  - split; [done|]. split; [|split; [done|]].
    + apply (leaf_frame_is _ _ _ _ _ _ _ _ _ Hia Hfa Hea).
    + cbn [s1 pin_page upd set_store store unsaved] in Hu. clear - Hu. set_solver.
Qed.
End Moves.
End TreeMoves.
