(* ===== verification/TreeShift.v ===== *)
(** * Moves between two internal siblings

    The runs of MoveAllTo, MoveFirstToEndOf and MoveLastToFrontOf of the internal page,
    which also change the parent of the children they move. *)

From stdpp Require Import prelude gmap gmultiset list sorting.
From Stdlib Require Import ZArith Lia.
From S2P Require Import Prelude HeaderPage BPlusTreePage LeafPage InternalPage TreeNodes BPlusTree.
From S2P Require Import TreeModel TreeSteps TreeInsert TreeMoves.

Local Open Scope Z_scope.

Module TreeShift.
Import BPage Nodes TreeModel BPlusTree TreeSteps TreeInsert TreeMoves.

Section Shift.
Context {K V : Type} (key_size value_size : Z) (zero_key : K) (zero_value : V).
Implicit Types (s : State K V) (m : gmap Z (Node K V)).

Abbreviation internal_max := (internal_max key_size).
Abbreviation internal_is := (internal_is key_size).
Abbreviation get_internal := (get_internal key_size zero_key).
Abbreviation siblings := (siblings key_size).

(** The pages [P], [a] and [b] rewritten, and the pages [qs] with the parent [target]. *)
Definition moved m m' (P a b target : Z) (np na nb : Node K V) (qs : list Z) : Prop :=
  forall q, m' !! q = if decide (q = P) then Some np else if decide (q = a) then Some na
                      else if decide (q = b) then Some nb
                      else if decide (q ∈ qs) then reparented target <$> m !! q else m !! q.

(** Two internal pages side by side. *)
Record nodes_at m (P a b : Z) (csa csb : list (K * Z)) (pa pb : Internal.BPlusTreeInternalPage K) : Prop := {
  na_a : m !! a = Some (InternalNode pa);
  na_b : m !! b = Some (InternalNode pb);
  na_a_is : internal_is P a csa pa;
  na_b_is : internal_is P b csb pb
}.

(** The children a move can adopt. *)
Definition adoptable m (P a b : Z) (qs : list Z) : Prop :=
  forall q, q ∈ qs -> tree_page m q /\ q <> P /\ q <> a /\ q <> b /\ q <> INVALID_PAGE_ID.

Lemma leaf_result_moved m P a b pp pa pb target :
  a <> P -> b <> P -> a <> b ->
  moved m (leaf_result m P a b pp pa pb) P a b target (InternalNode pp) (LeafNode pa) (LeafNode pb) [].
Proof.
  intros HaP HbP Hab q. unfold leaf_result. rewrite !lookup_insert. rewrite (decide_False (P := q ∈ [])) by (by intros ?%not_elem_of_nil).
  repeat case_decide; congruence.
Qed.

Lemma nodes_parent P a b csa csb pa pb s :
  nodes_at (nodes (store s)) P a b csa csb pa pb -> a ∈ pins (store s) -> b ∈ pins (store s) ->
  P <> INVALID_PAGE_ID -> common_parent a b s = Ok (P, s) /\ common_parent b a s = Ok (P, s).
Proof.
  intros [Ha Hb Hia Hib] Hpa Hpb HP. split.
  - by apply (common_parent_ok a b (InternalNode pa) (InternalNode pb) (Internal.hdr pa) (Internal.hdr pb)); [..|apply Hia|apply Hib|].
  - by apply (common_parent_ok b a (InternalNode pb) (InternalNode pa) (Internal.hdr pb) (Internal.hdr pa)); [..|apply Hib|apply Hia|].
Qed.

Lemma node_id_ok parent id cs p s :
  nodes (store s) !! id = Some (InternalNode p) -> internal_is parent id cs p -> id ∈ pins (store s) ->
  GetPageId id s = Ok (id, s).
Proof. intros Hp Hi Hin. apply tree_page_id_ok; [done|]. by apply (internal_tree_page key_size _ _ parent cs p). Qed.

Lemma both_filled_ok P a b csa csb pa pb s :
  nodes_at (nodes (store s)) P a b csa csb pa pb -> a ∈ pins (store s) -> b ∈ pins (store s) ->
  csa <> [] -> csb <> [] -> both_filled a b s = Ok (tt, s) /\ both_filled b a s = Ok (tt, s).
Proof.
  intros [Ha Hb Hia Hib] Hpa Hpb Hca Hcb.
  pose proof (get_page_ok a _ (Internal.hdr pa) s Hpa Ha eq_refl) as Ga.
  pose proof (get_page_ok b _ (Internal.hdr pb) s Hpb Hb eq_refl) as Gb.
  assert (Hfill : (0 <? size_ (Internal.hdr pa)) = true /\ (0 <? size_ (Internal.hdr pb)) = true).
  { pose proof (internal_is_length _ _ _ _ _ Hia) as La. pose proof (internal_is_length _ _ _ _ _ Hib) as Lb.
    unfold Internal.GetSize in *. destruct csa, csb; try done. simpl in La, Lb. split; apply Z.ltb_lt; lia. }
  destruct Hfill as [Fa Fb]. unfold both_filled. split.
  - rewrite (bind_run _ _ _ _ _ Ga), (bind_run _ _ _ _ _ Gb). apply asserts_ok. by rewrite Fa, Fb.
  - rewrite (bind_run _ _ _ _ _ Gb), (bind_run _ _ _ _ _ Ga). apply asserts_ok. by rewrite Fa, Fb.
Qed.

Lemma sibling_indices_ok P par cl ka a kb b cr pp csa csb pa pb s :
  siblings (nodes (store s)) P par cl ka a kb b cr pp -> nodes_at (nodes (store s)) P a b csa csb pa pb ->
  P ∈ pins (store s) -> a ∈ pins (store s) -> b ∈ pins (store s) ->
  sibling_indices key_size zero_key P b a s = Ok ((pp, Z.of_nat (S (length cl)), Z.of_nat (length cl)), s) /\
  sibling_indices key_size zero_key P a b s = Ok ((pp, Z.of_nat (length cl), Z.of_nat (S (length cl))), s).
Proof.
  intros Hs [Ha Hb Hia Hib] HP Hpa Hpb. pose proof (sb_page _ _ _ _ _ _ _ _ _ _ _ Hs) as Hpp.
  destruct (sibling_index _ _ _ _ _ _ _ _ _ _ _ Hs) as [Va Vb].
  pose proof (node_id_ok _ _ _ _ s Ha Hia Hpa) as Ga. pose proof (node_id_ok _ _ _ _ s Hb Hib Hpb) as Gb.
  assert (Hne : negb (Z.of_nat (length cl) =? -1) = true /\ negb (Z.of_nat (S (length cl)) =? -1) = true)
    by (split; apply negb_true_iff, Z.eqb_neq; lia).
  destruct Hne as [N1 N2]. unfold sibling_indices.
  split; (erewrite bind_run by (by apply (get_internal_ok _ _ P (InternalNode pp)))).
  - rewrite (bind_run _ _ _ _ _ Gb), (bind_run _ _ s (Z.of_nat (S (length cl))) s) by (by apply lift_ok).
    rewrite (bind_run _ _ _ _ _ Ga), (bind_run _ _ s (Z.of_nat (length cl)) s) by (by apply lift_ok).
    by rewrite (bind_run _ _ s tt s) by (apply asserts_ok; by rewrite N1, N2).
  - rewrite (bind_run _ _ _ _ _ Ga), (bind_run _ _ s (Z.of_nat (length cl)) s) by (by apply lift_ok).
    rewrite (bind_run _ _ _ _ _ Gb), (bind_run _ _ s (Z.of_nat (S (length cl))) s) by (by apply lift_ok).
    by rewrite (bind_run _ _ s tt s) by (apply asserts_ok; by rewrite N1, N2).
Qed.

(** The separator between the two pages. *)
Lemma separator_ok m P par cl ka a kb b cr pp s :
  siblings m P par cl ka a kb b cr pp ->
  lift (Internal.KeyAt (Z.of_nat (S (length cl))) pp) s = Ok (kb, s).
Proof.
  intros Hs. apply lift_ok. pose proof (sb_is _ _ _ _ _ _ _ _ _ _ _ Hs) as Hi.
  apply (Internal.internal_key_at_ok pp (S (length cl)) (kb, b)); [apply Hi|].
  rewrite (ii_entries _ _ _ _ _ Hi). apply sibling_cells.
Qed.

(** The pin of [p] taken before changes of pages is released after them. *)
Lemma unpin_back p s s1 :
  p <> INVALID_PAGE_ID -> s1 = edit (nodes (store s1)) (unsaved (store s1)) (pin_page p s) ->
  (run! UnpinPage p true ;; ret tt) s1 = Ok (tt, edit (nodes (store s1)) (unsaved (store s1) ∖ {[p]}) s).
Proof.
  intros Hp E. assert (Hin : p ∈ pins (store s1)) by (rewrite E; apply elem_of_pinned).
  rewrite (bind_run _ _ _ _ _ (unpin_ok p s1 Hin Hp)), E. by rewrite unpin_edit.
Qed.

Lemma adoptable_read m P a b qs q :
  adoptable m P a b qs -> q ∈ qs -> tree_page m q /\ q <> P /\ q <> a /\ q <> b /\ q <> INVALID_PAGE_ID.
Proof. auto. Qed.

(** The pages of a move are none of the children it moves. *)
Lemma adoptable_none m P a b qs : adoptable m P a b qs -> (P ∉ qs) /\ (a ∉ qs) /\ (b ∉ qs).
Proof. intros H. split; [|split]; intros Hq; destruct (H _ Hq); tauto. Qed.

(** [CopyAllFrom]: the cells join the page, which adopts their children. *)
Lemma copy_all_run a parent csa pa items s k :
  nodes (store s) !! a = Some (InternalNode pa) -> internal_is parent a csa pa -> a ∈ pins (store s) ->
  room (S k) s -> Z.of_nat (length csa + length items) <= internal_max ->
  (forall q, q ∈ items.*2 -> tree_page (nodes (store s)) q /\ q <> a /\ q <> INVALID_PAGE_ID) ->
  exists pa' u', CopyAllFrom key_size zero_key items a s =
      Ok (tt, edit (<[a := InternalNode pa']> (adopted a items.*2 (nodes (store s)))) u' s) /\
    internal_is parent a (csa ++ items) pa' /\ u' ⊆ unsaved (store s) ∪ {[a]}.
Proof.
  intros Ha Hi Hin Hr Hlen Hk. unfold CopyAllFrom.
  rewrite (bind_run _ _ _ _ _ (adopt_all_ok a items s k Hr Hin (internal_tree_page key_size _ _ _ _ _ Ha Hi) Hk)).
  set (s3 := edit _ _ s).
  assert (Ha3 : nodes (store s3) !! a = Some (InternalNode pa)).
  { etrans; [apply adopted_lookup|]. rewrite decide_False; [done|]. intros Hq. by destruct (Hk a Hq) as (_ & ? & _). }
  erewrite bind_run by (by apply (get_internal_ok _ _ a (InternalNode pa))).
  destruct (Internal.internal_append_ok pa items) as (pa' & Happ & Hfa & Hea); [apply Hi| |].
  { rewrite (internal_is_length _ _ _ _ _ Hi), (ii_max _ _ _ _ _ Hi). lia. }
  rewrite (bind_run _ _ s3 pa' s3) by (by apply lift_ok). rewrite (put_internal_ok a pa' s3 Hin).
  exists pa', ({[a]} ∪ (unsaved (store s) ∖ list_to_set items.*2)). split; [done|]. split; [|clear; set_solver].
  apply (internal_frame_is _ _ _ _ _ _ _ Hi Hfa). by rewrite Hea, (ii_entries _ _ _ _ _ Hi).
Qed.

Lemma node_merge_run s P par cl ka a kb b cr pp csa k0 c0 rest pa pb :
  siblings (nodes (store s)) P par cl ka a kb b cr pp ->
  nodes_at (nodes (store s)) P a b csa ((k0, c0) :: rest) pa pb ->
  adoptable (nodes (store s)) P a b (c0 :: rest.*2) -> csa <> [] ->
  a ∈ pins (store s) -> b ∈ pins (store s) -> room 2 s ->
  Z.of_nat (length csa + S (length rest)) <= internal_max ->
  exists pp' pa' pb' m' u',
    MoveAllTo key_size zero_key b a s = Ok (tt, edit m' u' s) /\
    moved (nodes (store s)) m' P a b a (InternalNode pp') (InternalNode pa') (InternalNode pb') (c0 :: rest.*2) /\
    internal_is par P (cl ++ (ka, a) :: cr) pp' /\ internal_is P a (csa ++ (kb, c0) :: rest) pa' /\
    page_id_ (Internal.hdr pb') = b /\ u' ⊆ unsaved (store s) ∪ {[a; b]}.
Proof.
  intros Hs Hn Hk Hca Ha Hb Hr Hlen. destruct (siblings_ne _ _ _ _ _ _ _ _ _ _ _ Hs) as ((HaP & HbP & Hab) & _).
  pose proof (sb_valid _ _ _ _ _ _ _ _ _ _ _ Hs) as HP. destruct (adoptable_none _ _ _ _ _ Hk) as (KP & Ka & Kb).
  unfold MoveAllTo. rewrite (bind_run _ _ _ _ _ (proj2 (nodes_parent _ _ _ _ _ _ _ _ Hn Ha Hb HP))).
  rewrite (bind_run _ _ _ _ _ (proj2 (both_filled_ok _ _ _ _ _ _ _ _ Hn Ha Hb Hca ltac:(done)))).
  pose proof (sb_page _ _ _ _ _ _ _ _ _ _ _ Hs) as Hpp.
  rewrite (bind_run _ _ _ _ _ (fetch_data_ok P s 1 Hr HP (mk_is_Some _ _ Hpp))). set (s1 := pin_page P s).
  assert (HP1 : P ∈ pins (store s1)) by apply elem_of_pinned.
  assert (Ha1 : a ∈ pins (store s1)) by (by apply elem_of_pinned_r).
  assert (Hb1 : b ∈ pins (store s1)) by (by apply elem_of_pinned_r).
  rewrite (bind_run _ _ _ _ _ (proj1 (sibling_indices_ok _ _ _ _ _ _ _ _ _ _ _ _ _ s1 Hs Hn HP1 Ha1 Hb1))). cbv beta iota.
  rewrite (bind_run _ _ s1 tt s1) by (apply asserts_ok, Z.eqb_eq; lia).
  rewrite (bind_run _ _ _ _ _ (separator_ok _ _ _ _ _ _ _ _ _ _ s1 Hs)). destruct Hn as [Hna Hnb Hia Hib].
  erewrite bind_run by (by apply (get_internal_ok _ _ b (InternalNode pb))).
  destruct (Internal.internal_put_key_ok pb 0 kb (k0, c0)) as (pb1 & Hput & Hfb & Hsz & Heb);
    [apply Hib|by rewrite (ii_entries _ _ _ _ _ Hib)|].
  rewrite (ii_entries _ _ _ _ _ Hib) in Heb. cbn [insert list_insert snd] in Heb.
  pose proof (internal_frame_is _ _ _ _ _ _ _ Hib Hfb Heb) as Hib1.
  change (Z.of_nat 0) with 0 in Hput. rewrite (bind_run _ _ s1 pb1 s1) by (by apply lift_ok).
  rewrite (bind_run _ _ _ _ _ (put_internal_ok b pb1 s1 Hb1)). set (s2 := put b _ s1).
  rewrite (bind_run _ _ s2 ((kb, c0) :: rest) s2).
  2:{ apply lift_ok. pose proof (internal_is_length _ _ _ _ _ Hib1) as Hl.
      rewrite Internal.internal_read_cells by (apply Hib1 || lia).
      rewrite (ii_entries _ _ _ _ _ Hib1), Hl, Nat2Z.id, drop_0, firstn_all. done. }
  assert (Ha2 : nodes (store s2) !! a = Some (InternalNode pa)) by (etrans; [by apply lookup_insert_ne|done]).
  destruct (copy_all_run a P csa pa ((kb, c0) :: rest) s2 0 Ha2 Hia Ha1 (room_more _ _ P Hr) Hlen)
    as (pa' & u4 & Hcp & Hia' & Hu4).
  { intros q Hq. destruct (Hk q Hq) as (Q1 & Q2 & Q3 & Q4 & Q5). split; [by apply tree_page_insert_ne|done]. }
  rewrite (bind_run _ _ _ _ _ Hcp). set (s4 := edit _ u4 s2).
  assert (Hb4 : nodes (store s4) !! b = Some (InternalNode pb1)).
  { etrans; [by apply lookup_insert_ne|]. etrans; [apply adopted_lookup|]. rewrite decide_False by done. apply lookup_insert_eq. }
  erewrite bind_run by (by apply (get_internal_ok _ _ b (InternalNode pb1))).
  rewrite (bind_run _ _ _ _ _ (put_internal_ok b _ s4 Hb1)). set (pb' := Internal.set_hdr pb1 _). set (s5 := put b _ s4).
  assert (HP5 : nodes (store s5) !! P = Some (InternalNode pp)).
  { do 2 (etrans; [by apply lookup_insert_ne|]). etrans; [apply adopted_lookup|]. rewrite decide_False by done.
    etrans; [by apply lookup_insert_ne|done]. }
  erewrite bind_run by (by apply (get_internal_ok _ _ P (InternalNode pp))).
  rewrite (proj2 (Z.ltb_lt (Z.of_nat (length cl)) _)) by lia.
  destruct (parent_removed _ _ _ _ _ _ _ _ _ _ _ Hs) as (pp' & Hrm & Hip).
  rewrite (bind_run _ _ s5 pp' s5) by (by apply lift_ok).
  rewrite (bind_run _ _ _ _ _ (put_internal_ok P pp' s5 HP1)). set (s6 := put P _ s5).
  rewrite (unpin_back P s s6 HP eq_refl). eexists pp', pa', pb', _, _. split; [done|]. split; [|do 2 (split; [done|]); split; [apply Hib1|]].
  - intros q. cbn [s6 s5 s4 s2 s1 edit put pin_page upd set_store store nodes]. cbn [fmap list_fmap snd].
    rewrite !lookup_insert, adopted_lookup, !lookup_insert. repeat case_decide; congruence.
  - cbn [s6 s5 s4 s2 s1 edit put pin_page upd set_store store unsaved] in Hu4 |- *. clear - Hu4. set_solver.
Qed.

(** [CopyLastFrom] and [CopyFirstFrom]: one cell joins the page, which adopts its child. *)
Lemma copy_last_run a parent csa pa x s k :
  nodes (store s) !! a = Some (InternalNode pa) -> internal_is parent a csa pa -> a ∈ pins (store s) ->
  room (S k) s -> Z.of_nat (length csa) < internal_max ->
  tree_page (nodes (store s)) x.2 -> x.2 <> a -> x.2 <> INVALID_PAGE_ID ->
  exists pa' u', CopyLastFrom key_size zero_key x a s =
      Ok (tt, edit (adopted a [x.2] (<[a := InternalNode pa']> (nodes (store s)))) u' s) /\
    internal_is parent a (csa ++ [x]) pa' /\ u' ⊆ unsaved (store s) ∪ {[a]}.
Proof.
  intros Ha Hi Hin Hr Hlen Hx Hxa Hxi. unfold CopyLastFrom.
  erewrite bind_run by (by apply (get_internal_ok _ _ a (InternalNode pa))).
  destruct (Internal.internal_copy_last_ok pa x) as (pa' & Hcp & Hf & He); [apply Hi| |].
  { by rewrite (internal_is_length _ _ _ _ _ Hi), (ii_max _ _ _ _ _ Hi). }
  rewrite (ii_entries _ _ _ _ _ Hi) in He. pose proof (internal_frame_is _ _ _ _ _ _ _ Hi Hf He) as Hi'.
  rewrite (bind_run _ _ s pa' s) by (by apply lift_ok).
  rewrite (bind_run _ _ _ _ _ (put_internal_ok a pa' s Hin)).
  rewrite (adopt_ok a x.2 (put a (InternalNode pa') s) k Hr Hin
    (internal_tree_page key_size _ _ _ _ _ (lookup_insert_eq _ _ _) Hi') (tree_page_insert_ne _ _ _ _ Hx Hxa) Hxa Hxi).
  exists pa', (({[a]} ∪ unsaved (store s)) ∖ {[x.2]}). split; [done|]. split; [done|]. clear. set_solver.
Qed.

Lemma copy_first_run b parent y rest pb x s k :
  nodes (store s) !! b = Some (InternalNode pb) -> internal_is parent b (y :: rest) pb -> b ∈ pins (store s) ->
  room (S k) s -> Z.of_nat (S (length rest)) < internal_max ->
  tree_page (nodes (store s)) x.2 -> x.2 <> b -> x.2 <> INVALID_PAGE_ID ->
  exists pb' u' j, CopyFirstFrom key_size zero_key x b s =
      Ok (tt, edit (adopted b [x.2] (<[b := InternalNode pb']> (nodes (store s)))) u' s) /\
    internal_is parent b ((j, x.2) :: (x.1, y.2) :: rest) pb' /\ u' ⊆ unsaved (store s) ∪ {[b]}.
Proof.
  intros Hb Hi Hin Hr Hlen Hx Hxb Hxi. unfold CopyFirstFrom.
  erewrite bind_run by (by apply (get_internal_ok _ _ b (InternalNode pb))).
  destruct (Internal.internal_copy_first_ok pb x y rest) as (pb' & j & Hcp & Hf & He); [apply Hi| |apply Hi|].
  { by rewrite (internal_is_length _ _ _ _ _ Hi), (ii_max _ _ _ _ _ Hi). }
  pose proof (internal_frame_is _ _ _ _ _ _ _ Hi Hf He) as Hi'.
  rewrite (bind_run _ _ s pb' s) by (by apply lift_ok).
  rewrite (bind_run _ _ _ _ _ (put_internal_ok b pb' s Hin)).
  rewrite (adopt_ok b x.2 (put b (InternalNode pb') s) k Hr Hin
    (internal_tree_page key_size _ _ _ _ _ (lookup_insert_eq _ _ _) Hi') (tree_page_insert_ne _ _ _ _ Hx Hxb) Hxb Hxi).
  exists pb', (({[b]} ∪ unsaved (store s)) ∖ {[x.2]}), j. split; [done|]. split; [done|]. clear. set_solver.
Qed.

Lemma node_first_run s P par cl ka a kb b cr pp csa k0 c0 y rest pa pb :
  siblings (nodes (store s)) P par cl ka a kb b cr pp ->
  nodes_at (nodes (store s)) P a b csa ((k0, c0) :: y :: rest) pa pb ->
  adoptable (nodes (store s)) P a b [c0] -> csa <> [] ->
  a ∈ pins (store s) -> b ∈ pins (store s) -> room 2 s -> Z.of_nat (length csa) < internal_max ->
  exists pp' pa' pb' m' u',
    MoveFirstToEndOf key_size zero_key b a s = Ok (tt, edit m' u' s) /\
    moved (nodes (store s)) m' P a b a (InternalNode pp') (InternalNode pa') (InternalNode pb') [c0] /\
    internal_is par P (cl ++ (ka, a) :: (y.1, b) :: cr) pp' /\ internal_is P a (csa ++ [(kb, c0)]) pa' /\
    internal_is P b (y :: rest) pb' /\ u' ⊆ unsaved (store s) ∪ {[a; b]}.
Proof.
  intros Hs Hn Hk Hca Ha Hb Hr Hlen. destruct (siblings_ne _ _ _ _ _ _ _ _ _ _ _ Hs) as ((HaP & HbP & Hab) & _).
  pose proof (sb_valid _ _ _ _ _ _ _ _ _ _ _ Hs) as HP. destruct (Hk c0) as (Q1 & Q2 & Q3 & Q4 & Q5); [left|].
  destruct (adoptable_none _ _ _ _ _ Hk) as (KP & Ka & Kb).
  unfold MoveFirstToEndOf. rewrite (bind_run _ _ _ _ _ (proj2 (nodes_parent _ _ _ _ _ _ _ _ Hn Ha Hb HP))).
  rewrite (bind_run _ _ _ _ _ (proj2 (both_filled_ok _ _ _ _ _ _ _ _ Hn Ha Hb Hca ltac:(done)))).
  pose proof (sb_page _ _ _ _ _ _ _ _ _ _ _ Hs) as Hpp.
  rewrite (bind_run _ _ _ _ _ (fetch_data_ok P s 1 Hr HP (mk_is_Some _ _ Hpp))). set (s1 := pin_page P s).
  assert (HP1 : P ∈ pins (store s1)) by apply elem_of_pinned.
  assert (Ha1 : a ∈ pins (store s1)) by (by apply elem_of_pinned_r).
  assert (Hb1 : b ∈ pins (store s1)) by (by apply elem_of_pinned_r).
  rewrite (bind_run _ _ _ _ _ (proj1 (sibling_indices_ok _ _ _ _ _ _ _ _ _ _ _ _ _ s1 Hs Hn HP1 Ha1 Hb1))). cbv beta iota.
  rewrite (bind_run _ _ s1 tt s1) by (apply asserts_ok, Z.eqb_eq; lia).
  rewrite (bind_run _ _ _ _ _ (separator_ok _ _ _ _ _ _ _ _ _ _ s1 Hs)). destruct Hn as [Hna Hnb Hia Hib].
  erewrite bind_run by (by apply (get_internal_ok _ _ b (InternalNode pb))).
  rewrite (bind_run _ _ s1 (k0, c0) s1).
  2:{ apply lift_ok. change 0 with (Z.of_nat 0). apply Internal.internal_cell_entry. by rewrite (ii_entries _ _ _ _ _ Hib). }
  destruct (copy_last_run a P csa pa (kb, c0) s1 0 Hna Hia Ha1 (room_more _ _ P Hr) Hlen Q1 Q3 Q5)
    as (pa' & u2 & Hcp & Hia' & Hu2).
  rewrite (bind_run _ _ _ _ _ Hcp). set (s2 := edit _ u2 s1).
  assert (Hl2 : forall q, q <> a -> q <> c0 -> nodes (store s2) !! q = nodes (store s) !! q).
  { intros q Hqa Hqc. etrans; [apply adopted_lookup|]. rewrite decide_False by (by intros ->%list_elem_of_singleton).
    by apply lookup_insert_ne. }
  erewrite bind_run by (apply (get_internal_ok _ _ b (InternalNode pb)); [done|rewrite Hl2; done|done]).
  rewrite (bind_run _ _ s2 y s2).
  2:{ apply lift_ok. change 1 with (Z.of_nat 1). apply Internal.internal_cell_entry. by rewrite (ii_entries _ _ _ _ _ Hib). }
  erewrite bind_run by (apply (get_internal_ok _ _ P (InternalNode pp)); [done|rewrite Hl2; done|done]).
  rewrite (proj2 (Z.ltb_lt (Z.of_nat (length cl)) _)) by lia.
  destruct (parent_rekeyed _ _ _ _ _ _ _ _ _ _ _ y.1 Hs) as (pp' & Hset & Hip).
  rewrite (bind_run _ _ s2 pp' s2) by (by apply lift_ok).
  rewrite (bind_run _ _ _ _ _ (put_internal_ok P pp' s2 HP1)). set (s3 := put P _ s2).
  destruct (Internal.internal_remove_ok pb 0 (k0, c0)) as (pb' & Hrm & Hf & He); [apply Hib|by rewrite (ii_entries _ _ _ _ _ Hib)|].
  rewrite (ii_entries _ _ _ _ _ Hib) in He. change (Z.of_nat 0) with 0 in Hrm.
  rewrite (bind_run _ _ s3 pb' s3) by (by apply lift_ok).
  rewrite (bind_run _ _ _ _ _ (put_internal_ok b pb' s3 Hb1)). set (s4 := put b _ s3).
  rewrite (bind_run _ _ s4 P s4).
  2:{ apply (node_id_ok par P (cl ++ (ka, a) :: (y.1, b) :: cr) pp'); [|done|done].
      etrans; [by apply lookup_insert_ne|apply lookup_insert_eq]. }
  rewrite (unpin_back P s s4 HP eq_refl). eexists pp', pa', pb', _, _. split; [done|].
  split; [|do 2 (split; [done|]); split; [apply (internal_frame_is _ _ _ _ _ _ _ Hib Hf He)|]].
  - intros q. cbn [s4 s3 s2 s1 edit put pin_page upd set_store store nodes snd].
    rewrite !lookup_insert, adopted_lookup, !lookup_insert. repeat case_decide; congruence.
  - cbn [s4 s3 s2 s1 edit put pin_page upd set_store store unsaved] in Hu2 |- *. clear - Hu2. set_solver.
Qed.

Lemma node_last_run s P par cl ka a kb b cr pp csa kx cx y rest pa pb :
  siblings (nodes (store s)) P par cl ka a kb b cr pp ->
  nodes_at (nodes (store s)) P a b (csa ++ [(kx, cx)]) (y :: rest) pa pb ->
  adoptable (nodes (store s)) P a b [cx] ->
  a ∈ pins (store s) -> b ∈ pins (store s) -> room 2 s -> Z.of_nat (S (length rest)) < internal_max ->
  exists pp' pa' pb' m' u' j,
    MoveLastToFrontOf key_size zero_key a b s = Ok (tt, edit m' u' s) /\
    moved (nodes (store s)) m' P a b b (InternalNode pp') (InternalNode pa') (InternalNode pb') [cx] /\
    internal_is par P (cl ++ (ka, a) :: (kx, b) :: cr) pp' /\ internal_is P a csa pa' /\
    internal_is P b ((j, cx) :: (kb, y.2) :: rest) pb' /\ u' ⊆ unsaved (store s) ∪ {[a; b]}.
Proof.
  intros Hs Hn Hk Ha Hb Hr Hlen. destruct (siblings_ne _ _ _ _ _ _ _ _ _ _ _ Hs) as ((HaP & HbP & Hab) & _).
  pose proof (sb_valid _ _ _ _ _ _ _ _ _ _ _ Hs) as HP. destruct (Hk cx) as (Q1 & Q2 & Q3 & Q4 & Q5); [left|].
  destruct (adoptable_none _ _ _ _ _ Hk) as (KP & Ka & Kb).
  unfold MoveLastToFrontOf. rewrite (bind_run _ _ _ _ _ (proj2 (nodes_parent _ _ _ _ _ _ _ _ Hn Ha Hb HP))).
  rewrite (bind_run _ _ _ _ _ (proj1 (both_filled_ok _ _ _ _ _ _ _ _ Hn Ha Hb ltac:(by destruct csa) ltac:(done)))).
  pose proof (sb_page _ _ _ _ _ _ _ _ _ _ _ Hs) as Hpp.
  rewrite (bind_run _ _ _ _ _ (fetch_data_ok P s 1 Hr HP (mk_is_Some _ _ Hpp))). set (s1 := pin_page P s).
  assert (HP1 : P ∈ pins (store s1)) by apply elem_of_pinned.
  assert (Ha1 : a ∈ pins (store s1)) by (by apply elem_of_pinned_r).
  assert (Hb1 : b ∈ pins (store s1)) by (by apply elem_of_pinned_r).
  rewrite (bind_run _ _ _ _ _ (proj2 (sibling_indices_ok _ _ _ _ _ _ _ _ _ _ _ _ _ s1 Hs Hn HP1 Ha1 Hb1))). cbv beta iota.
  rewrite (bind_run _ _ s1 tt s1) by (apply asserts_ok, Z.eqb_eq; lia).
  rewrite (bind_run _ _ _ _ _ (separator_ok _ _ _ _ _ _ _ _ _ _ s1 Hs)). destruct Hn as [Hna Hnb Hia Hib].
  assert (Hlast : cell (Internal.array pa) (Internal.GetSize pa - 1) = Ok (kx, cx)).
  { rewrite (internal_is_length _ _ _ _ _ Hia), length_app. cbn [length].
    replace (Z.of_nat (length csa + 1) - 1) with (Z.of_nat (length csa)) by lia.
    apply Internal.internal_cell_entry. rewrite (ii_entries _ _ _ _ _ Hia). by apply list_lookup_middle. }
  erewrite bind_run by (by apply (get_internal_ok _ _ a (InternalNode pa))).
  rewrite (bind_run _ _ _ _ _ (lift_ok _ _ s1 Hlast)).
  destruct (copy_first_run b P y rest pb (kb, cx) s1 0 Hnb Hib Hb1 (room_more _ _ P Hr) Hlen Q1 Q4 Q5)
    as (pb' & u2 & j & Hcp & Hib' & Hu2).
  rewrite (bind_run _ _ _ _ _ Hcp). set (s2 := edit _ u2 s1).
  assert (Hl2 : forall q, q <> b -> q <> cx -> nodes (store s2) !! q = nodes (store s) !! q).
  { intros q Hqa Hqc. etrans; [apply adopted_lookup|]. rewrite decide_False by (by intros ->%list_elem_of_singleton).
    by apply lookup_insert_ne. }
  erewrite bind_run by (apply (get_internal_ok _ _ a (InternalNode pa)); [done|rewrite Hl2; done|done]).
  rewrite (bind_run _ _ _ _ _ (lift_ok _ _ s2 Hlast)).
  erewrite bind_run by (apply (get_internal_ok _ _ P (InternalNode pp)); [done|rewrite Hl2; done|done]).
  rewrite (proj2 (Z.eqb_eq _ (Z.of_nat (S (length cl))))) by lia.
  destruct (parent_rekeyed _ _ _ _ _ _ _ _ _ _ _ kx Hs) as (pp' & Hset & Hip).
  rewrite (bind_run _ _ s2 pp' s2) by (by apply lift_ok).
  rewrite (bind_run _ _ _ _ _ (put_internal_ok P pp' s2 HP1)). set (s3 := put P _ s2).
  rewrite (bind_run _ _ _ _ _ (put_internal_ok a _ s3 Ha1)). set (pa' := Internal.set_hdr pa _). set (s4 := put a _ s3).
  rewrite (unpin_back P s s4 HP eq_refl). eexists pp', pa', pb', _, _, j. split; [done|].
  split; [|split; [done|split; [|split; [done|]]]].
  - intros q. cbn [s4 s3 s2 s1 edit put pin_page upd set_store store nodes snd].
    rewrite !lookup_insert, adopted_lookup, !lookup_insert. repeat case_decide; congruence.
  - destruct (Internal.internal_drop_last_ok pa csa (kx, cx)) as [Hf He]; [apply Hia|apply Hia|].
    by apply (internal_frame_is _ _ _ _ _ _ _ Hia Hf).
  - cbn [s4 s3 s2 s1 edit put pin_page upd set_store store unsaved] in Hu2 |- *. clear - Hu2. set_solver.
Qed.
End Shift.
End TreeShift.
