(* ===== verification/TreeBalance.v ===== *)
(** * Merges and rotations of sibling trees

    What a move between two pages does to the trees below them: the two trees read the
    same, or one tree reads as both did. *)

From stdpp Require Import prelude gmap gmultiset list sorting.
From Stdlib Require Import ZArith Lia.
From S2P Require Import Prelude HeaderPage BPlusTreePage LeafPage InternalPage TreeNodes BPlusTree.
From S2P Require Import TreeModel TreeSteps TreeInsert TreeMoves TreeShift.

Local Open Scope Z_scope.

Module TreeBalance.
Import BPage Nodes TreeModel BPlusTree TreeSteps TreeInsert TreeMoves TreeShift.

(** ** Trees that read the same *)

Section Keeps.
Context {K V : Type} (cmp : K -> K -> Z) `{!KeyOrder cmp}.
Implicit Types (ts l r : list (token K V)) (es : list (K * V)) (kcs : list (K * tree K V)).

(** The entries are the same, and the order of the keys and the links of the leaves are
    kept wherever the tokens are. *)
Record keeps ts ts' : Prop := {
  kp_entries : entries ts' = entries ts;
  kp_order l r : ordered cmp (l ++ ts ++ r) -> ordered cmp (l ++ ts' ++ r);
  kp_links l r stop : linked (leaves (l ++ ts ++ r)) stop -> linked (leaves (l ++ ts' ++ r)) stop
}.

#[global] Instance keeps_preorder : PreOrder keeps.
Proof.
  split.
  - by split.
  - intros ts1 ts2 ts3 [E1 O1 L1] [E2 O2 L2]. split; [by rewrite E2|auto|auto].
Qed.

Lemma around (l' l ts r r' : list (token K V)) : l' ++ (l ++ ts ++ r) ++ r' = (l' ++ l) ++ ts ++ r ++ r'.
Proof. by rewrite <- !app_assoc. Qed.

Lemma keeps_middle l r ts ts' : keeps ts ts' -> keeps (l ++ ts ++ r) (l ++ ts' ++ r).
Proof.
  intros [E O L]. split.
  - by rewrite !entries_app, E.
  - intros l' r'. rewrite !around. apply O.
  - intros l' r' stop. rewrite !around. apply L.
Qed.

Lemma ordered_items ts ts' : items ts' = items ts -> ordered cmp ts -> ordered cmp ts'.
Proof. unfold ordered. by intros ->. Qed.

Lemma ordered_drop l k r : ordered cmp (l ++ Sep k :: r) -> ordered cmp (l ++ r).
Proof.
  change (Sep k :: r) with ([Sep k] ++ r). intros (H1 & (_ & H2 & _)%ordered_app & H3)%ordered_app.
  apply ordered_app. split; [done|]. split; [done|]. intros a b Ha Hb. apply H3; [done|].
  rewrite items_app, elem_of_app. by right.
Qed.

(** Two leaves as one. *)
Lemma ordered_join l r a nxa es1 k b nxb es2 nx :
  ordered cmp (l ++ [Page a nxa es1; Sep k; Page b nxb es2] ++ r) ->
  ordered cmp (l ++ [Page a nx (es1 ++ es2)] ++ r).
Proof.
  intros H. change ([Page a nxa es1; Sep k; Page b nxb es2] ++ r) with
    ([Page a nxa es1] ++ Sep k :: [Page b nxb es2] ++ r) in H.
  rewrite app_assoc in H. apply ordered_drop in H. revert H. apply ordered_items.
  rewrite !items_app, !items_page. by rewrite map_app, <- !app_assoc.
Qed.

Lemma keeps_merge a nxa es1 k b nxb es2 :
  keeps [Page a nxa es1; Sep k; Page b nxb es2] [Page a nxb (es1 ++ es2)].
Proof.
  split.
  - unfold entries. simpl. by rewrite !app_nil_r.
  - intros l r. apply ordered_join.
  - intros l r stop. rewrite !leaves_app. change (leaves [Page a nxa es1; Sep k; Page b nxb es2]) with [(a, nxa); (b, nxb)].
    change (leaves [Page a nxb (es1 ++ es2)]) with [(a, nxb)]. cbn [app].
    intros [H1 H2]%linked_app. apply linked_app. split; [done|]. destruct H2 as [_ H2]. exact H2.
Qed.

Lemma keeps_rotate a nxa es1 k b nxb es2 es1' k' v es2' :
  es1 ++ es2 = es1' ++ (k', v) :: es2' -> es1' <> [] ->
  keeps [Page a nxa es1; Sep k; Page b nxb es2] [Page a nxa es1'; Sep k'; Page b nxb ((k', v) :: es2')].
Proof.
  intros E Hne. split.
  - unfold entries. simpl. rewrite !app_nil_r. by rewrite E.
  - intros l r H. apply (ordered_join _ _ _ _ _ _ _ _ _ nxb) in H. rewrite E in H.
    by apply (ordered_cut cmp _ _ a nxb).
  - intros l r stop. by rewrite !leaves_app.
Qed.

(** ** Cells of nodes *)

Lemma tail_weave k t kcs : tail (weave ((k, t) :: kcs)) = tokens t ++ weave kcs.
Proof. done. Qed.

Lemma node_join_tokens a b kcs1 k0 k c0 kcs2 : kcs1 <> [] ->
  tokens (TNode a kcs1) ++ Sep k :: tokens (TNode b ((k0, c0) :: kcs2)) = tokens (TNode a (kcs1 ++ (k, c0) :: kcs2)).
Proof. intros Hne. rewrite !tokens_node, weave_split by done. by rewrite !tail_weave. Qed.

Lemma node_first_tokens a b kcs1 k0 k c0 k1 c1 kcs2 : kcs1 <> [] ->
  tokens (TNode a kcs1) ++ Sep k :: tokens (TNode b ((k0, c0) :: (k1, c1) :: kcs2)) =
  tokens (TNode a (kcs1 ++ [(k, c0)])) ++ Sep k1 :: tokens (TNode b ((k1, c1) :: kcs2)).
Proof.
  intros Hne. rewrite !(node_join_tokens a b) by (done || by destruct kcs1). by rewrite <- app_assoc.
Qed.

Lemma node_last_tokens a b kcs1 kx cx k0 k c0 j kcs2 : kcs1 <> [] ->
  tokens (TNode a (kcs1 ++ [(kx, cx)])) ++ Sep k :: tokens (TNode b ((k0, c0) :: kcs2)) =
  tokens (TNode a kcs1) ++ Sep kx :: tokens (TNode b ((j, cx) :: (k, c0) :: kcs2)).
Proof.
  intros Hne. rewrite !(node_join_tokens a b) by (done || by destruct kcs1). by rewrite <- app_assoc.
Qed.
End Keeps.
(** ** Two trees side by side *)

Section Twins.
Context {K V : Type} (key_size value_size : Z) (zero_key : K) (zero_value : V).
Context (cmp : K -> K -> Z) `{!KeyOrder cmp}.
Implicit Types (s : State K V) (m : gmap Z (Node K V)) (t : tree K V) (kcs : list (K * tree K V)).

Abbreviation leaf_max := (leaf_max key_size value_size).
Abbreviation internal_max := (internal_max key_size).
Abbreviation leaf_is := (leaf_is key_size value_size).
Abbreviation internal_is := (internal_is key_size).
Abbreviation holds := (holds key_size value_size).
Abbreviation fit := (fit key_size value_size).
Abbreviation keeps := (keeps cmp).
Abbreviation move_all := (move_all key_size value_size zero_key zero_value).
Abbreviation Redistribute := (Redistribute key_size value_size zero_key zero_value).

Definition size_of t : nat := match t with TLeaf _ _ es => length es | TNode _ kcs => length kcs end.
Definition kind_of (h : nat) : Kind := match h with O => KLeaf | S _ => KInternal end.
Definition max_of (h : nat) : Z := match h with O => leaf_max | S _ => internal_max end.

(** The subtrees of a node are half full. *)
Definition kids_fit (h : nat) t : Prop :=
  match h, t with
  | S h, TNode _ kcs => Forall (fun kc => fit h false kc.2) kcs
  | _, _ => True
  end.

(** The trees [ta] and [tb] in neighbouring cells of the page [P], which is under [par]. *)
Record twins (h : nat) m (P par : Z) (cl : list (K * tree K V)) (ka : K) (ta : tree K V) (kb : K)
    (tb : tree K V) (cr : list (K * tree K V)) : Prop := {
  tw_page : exists pp, m !! P = Some (InternalNode pp) /\
                       internal_is par P (cells cl ++ (ka, tid ta) :: (kb, tid tb) :: cells cr) pp;
  tw_a : holds h m P ta;
  tw_b : holds h m P tb;
  tw_nodup : NoDup (P :: forest_ids (cl ++ (ka, ta) :: (kb, tb) :: cr));
  tw_valid q : q ∈ P :: ids ta ++ ids tb -> q <> INVALID_PAGE_ID
}.

(** [tb] merged into [ta], which became [ta']; the rest of the pages is as it was. *)
Record merged (h : nat) s (P par : Z) (cl : list (K * tree K V)) (ka : K) (ta : tree K V) (kb : K)
    (tb : tree K V) (cr : list (K * tree K V)) m (u : gset Z) (ta' : tree K V) : Prop := {
  mg_page : exists pp, m !! P = Some (InternalNode pp) /\
                       internal_is par P (cells cl ++ (ka, tid ta) :: cells cr) pp;
  mg_holds : holds h m P ta';
  mg_tid : tid ta' = tid ta;
  mg_keeps : keeps (tokens ta ++ Sep kb :: tokens tb) (tokens ta');
  mg_size : size_of ta' = (size_of ta + size_of tb)%nat;
  mg_fit : kids_fit h ta -> kids_fit h tb -> kids_fit h ta';
  mg_ids : tid tb :: ids ta' ≡ₚ ids ta ++ ids tb;
  mg_dead : tree_page m (tid tb);
  mg_frame q : q ∉ P :: ids ta ++ ids tb -> m !! q = nodes (store s) !! q;
  mg_unsaved : u ⊆ unsaved (store s) ∪ {[tid ta; tid tb]}
}.

(** One entry moved between [ta] and [tb], which became [ta'] and [tb']. *)
Record rotated (h : nat) s (P par : Z) (cl : list (K * tree K V)) (ka : K) (ta : tree K V) (kb : K)
    (tb : tree K V) (cr : list (K * tree K V)) m (u : gset Z) (ta' : tree K V) (k' : K) (tb' : tree K V) : Prop := {
  rt_page : exists pp, m !! P = Some (InternalNode pp) /\
                       internal_is par P (cells cl ++ (ka, tid ta) :: (k', tid tb) :: cells cr) pp;
  rt_a : holds h m P ta' /\ tid ta' = tid ta;
  rt_b : holds h m P tb' /\ tid tb' = tid tb;
  rt_keeps : keeps (tokens ta ++ Sep kb :: tokens tb) (tokens ta' ++ Sep k' :: tokens tb');
  rt_fit : kids_fit h ta -> kids_fit h tb -> kids_fit h ta' /\ kids_fit h tb';
  rt_ids : ids ta' ++ ids tb' ≡ₚ ids ta ++ ids tb;
  rt_frame q : q ∉ P :: ids ta ++ ids tb -> m !! q = nodes (store s) !! q;
  rt_unsaved : u ⊆ unsaved (store s) ∪ {[tid ta; tid tb]}
}.

Lemma cells_nodup kcs : NoDup (forest_ids kcs) -> NoDup (cells kcs).*2.
Proof.
  induction kcs as [|[k t] kcs IH]; [constructor|]. rewrite forest_ids_cons. intros (_ & H1 & H2)%NoDup_app.
  apply NoDup_cons. split; [|by apply IH]. intros Hq%tid_forest. apply (H1 (tid t)); [apply tid_ids|done].
Qed.

Lemma twins_siblings h m P par cl ka ta kb tb cr :
  twins h m P par cl ka ta kb tb cr ->
  exists pp, siblings key_size m P par (cells cl) ka (tid ta) kb (tid tb) (cells cr) pp.
Proof.
  intros [(pp & Hp & Hi) _ _ [H1 H2]%NoDup_cons Hv]. exists pp. split; try done; [|apply Hv; left].
  change ((ka, tid ta) :: (kb, tid tb) :: cells cr) with (cells ((ka, ta) :: (kb, tb) :: cr)). rewrite <- cells_app.
  apply NoDup_cons. split; [by intros Hq%tid_forest|by apply cells_nodup].
Qed.

Lemma twins_nodup h m P par cl ka ta kb tb cr :
  twins h m P par cl ka ta kb tb cr -> NoDup (P :: ids ta ++ ids tb).
Proof.
  intros H. pose proof (tw_nodup _ _ _ _ _ _ _ _ _ _ H) as Hnd.
  assert (E : P :: forest_ids (cl ++ (ka, ta) :: (kb, tb) :: cr) ≡ₚ
              (P :: ids ta ++ ids tb) ++ forest_ids cl ++ forest_ids cr).
  { rewrite forest_ids_app, !forest_ids_cons. solve_Permutation. }
  rewrite E in Hnd. by apply NoDup_app in Hnd as (? & _ & _).
Qed.

(** ** Forests after a move *)

(** A forest none of whose pages the move wrote. *)
Lemma kept_forest h m m' P a b target np na nb qs parent kcs :
  moved m m' P a b target np na nb qs ->
  Forall (fun kc => holds h m parent kc.2) kcs ->
  (forall q, q ∈ forest_ids kcs -> q <> P /\ q <> a /\ q <> b /\ (q ∉ qs)) ->
  Forall (fun kc => holds h m' parent kc.2) kcs.
Proof.
  intros Hm Hf Hq. apply (forest_agree _ _ h m); [done|]. intros q Hin.
  destruct (Hq q Hin) as (H1 & H2 & H3 & H4). by rewrite Hm, !decide_False.
Qed.

(** The forest the move gave to the page [target]. *)
Lemma taken_forest h m m' P a b target np na nb parent kcs :
  moved m m' P a b target np na nb (cells kcs).*2 ->
  Forall (fun kc => holds h m parent kc.2) kcs -> NoDup (forest_ids kcs) ->
  (forall q, q ∈ forest_ids kcs -> q <> P /\ q <> a /\ q <> b) ->
  Forall (fun kc => holds h m' target kc.2) kcs.
Proof.
  intros Hm Hf Hnd Hq. apply (forest_moved _ _ h m _ parent); [done|done| |].
  - intros kc Hkc. assert (Hin : tid kc.2 ∈ (cells kcs).*2).
    { rewrite cells_ids. apply list_elem_of_In, in_map_iff. exists kc. split; [done|]. by apply list_elem_of_In. }
    destruct (Hq (tid kc.2)) as (H1 & H2 & H3); [by apply tid_forest|]. rewrite Hm, !(decide_False (P := _ = _)) by done.
    by rewrite decide_True.
  - intros q Hin Hn. destruct (Hq q Hin) as (H1 & H2 & H3). by rewrite Hm, !decide_False.
Qed.

Lemma moved_frame m m' P a b target np na nb qs (ta tb : tree K V) q :
  moved m m' P a b target np na nb qs -> tid ta = a -> tid tb = b ->
  (forall x, x ∈ qs -> x ∈ ids ta \/ x ∈ ids tb) -> q ∉ P :: ids ta ++ ids tb -> m' !! q = m !! q.
Proof.
  intros Hm <- <- Hqs. rewrite elem_of_cons, elem_of_app. intros Hq.
  rewrite Hm, !decide_False; try done; [intros Hx; specialize (Hqs q Hx); tauto|..].
  - intros ->. pose proof (tid_ids tb). tauto.
  - intros ->. pose proof (tid_ids ta). tauto.
  - tauto.
Qed.

Lemma moved_pages m m' P a b target np na nb qs :
  moved m m' P a b target np na nb qs -> a <> P -> b <> P -> a <> b ->
  m' !! P = Some np /\ m' !! a = Some na /\ m' !! b = Some nb.
Proof.
  intros Hm H1 H2 H3. rewrite !Hm. split; [by rewrite decide_True|]. split.
  - by rewrite decide_False, decide_True.
  - by rewrite decide_False, decide_False, decide_True.
Qed.

(** The children the pages of two trees can exchange. *)
Lemma children_adoptable h m P (a b : Z) parent kcs :
  Forall (fun kc => holds h m parent kc.2) kcs ->
  (forall q, q ∈ forest_ids kcs -> q <> P /\ q <> a /\ q <> b /\ q <> INVALID_PAGE_ID) ->
  adoptable m P a b (cells kcs).*2.
Proof.
  intros Hf Hq q Hin. destruct (Hq q) as (H1 & H2 & H3 & H4); [by apply tid_forest|]. split; [|done].
  rewrite cells_ids in Hin. apply list_elem_of_In, in_map_iff in Hin as (kc & <- & Hkc%list_elem_of_In).
  rewrite Forall_forall in Hf. apply (holds_known _ _ _ _ _ _ _ (Hf kc Hkc)), tid_ids.
Qed.
(** ** Merges *)

Lemma merge_leaf_ok s P par cl ka a nxa esa kb b nxb esb cr :
  twins 0 (nodes (store s)) P par cl ka (TLeaf a nxa esa) kb (TLeaf b nxb esb) cr ->
  a ∈ pins (store s) -> b ∈ pins (store s) -> room 2 s -> Z.of_nat (length esa + length esb) <= leaf_max ->
  exists m' u' ta', move_all KLeaf b a s = Ok (tt, edit m' u' s) /\
    merged 0 s P par cl ka (TLeaf a nxa esa) kb (TLeaf b nxb esb) cr m' u' ta'.
Proof.
  intros H Ha Hb Hr Hlen. destruct (twins_siblings _ _ _ _ _ _ _ _ _ _ H) as (pp & Hs). cbn [tid] in Hs.
  destruct (siblings_ne _ _ _ _ _ _ _ _ _ _ _ Hs) as ((HaP & HbP & Hab) & _).
  destruct H as [_ (pa & Hna & Hia) (pb & Hnb & Hib) _ _].
  assert (Hl : leaves_at key_size value_size (nodes (store s)) P a b nxa nxb esa esb pa pb) by done.
  destruct (leaf_merge_run _ _ zero_key zero_value s _ _ _ _ _ _ _ _ _ _ _ _ _ _ _ Hs Hl Ha Hb (room_le _ 1 _ Hr ltac:(lia)) Hlen)
    as (pp' & pa' & pb' & u' & Hrun & Hip & Hia' & Hid & Hu).
  pose proof (leaf_result_moved (nodes (store s)) P a b pp' pa' pb' a HaP HbP Hab) as Hm.
  destruct (moved_pages _ _ _ _ _ _ _ _ _ _ Hm HaP HbP Hab) as (MP & Ma & Mb).
  eexists _, u', (TLeaf a nxb (esa ++ esb)). split; [exact Hrun|]. split; try done.
  - by exists pp'.
  - by exists pa'.
  - apply keeps_merge.
  - apply length_app.
  - apply Permutation_swap.
  - by exists (LeafNode pb'), (Leaf.hdr pb').
  - intros q. apply (moved_frame _ _ _ _ _ _ _ _ _ _ _ _ q Hm); [done|done|]. by intros x ?%not_elem_of_nil.
Qed.

Lemma node_nodup (P a b : Z) (kcsa kcsb : list (K * tree K V)) :
  NoDup (P :: ids (TNode a kcsa) ++ ids (TNode b kcsb)) ->
  NoDup (forest_ids kcsa) /\ NoDup (forest_ids kcsb) /\
  (forall q, q ∈ forest_ids kcsa -> q <> P /\ q <> a /\ q <> b /\ (q ∉ forest_ids kcsb)) /\
  (forall q, q ∈ forest_ids kcsb -> q <> P /\ q <> a /\ q <> b /\ (q ∉ forest_ids kcsa)).
Proof.
  rewrite !ids_node. cbn [app]. intros [HP [Ha (H1 & H2 & [Hb H3]%NoDup_cons)%NoDup_app]%NoDup_cons]%NoDup_cons.
  rewrite elem_of_cons, elem_of_app, elem_of_cons in HP. rewrite elem_of_app, elem_of_cons in Ha.
  setoid_rewrite elem_of_cons in H2. split; [done|]. split; [done|].
  split; intros q Hq; (split; [intros ->; tauto|]); (split; [intros ->; tauto|]).
  - specialize (H2 q Hq). tauto.
  - split; [by intros ->|]. intros Hqa. apply (H2 q Hqa). by right.
Qed.

Lemma merge_node_ok h s P par cl ka a kcsa kb b kcsb cr :
  twins (S h) (nodes (store s)) P par cl ka (TNode a kcsa) kb (TNode b kcsb) cr ->
  a ∈ pins (store s) -> b ∈ pins (store s) -> room 2 s -> kcsa <> [] -> kcsb <> [] ->
  Z.of_nat (length kcsa + length kcsb) <= internal_max ->
  exists m' u' ta', move_all KInternal b a s = Ok (tt, edit m' u' s) /\
    merged (S h) s P par cl ka (TNode a kcsa) kb (TNode b kcsb) cr m' u' ta'.
Proof.
  intros H Ha Hb Hr Hna0 Hnb0 Hlen. destruct (twins_siblings _ _ _ _ _ _ _ _ _ _ H) as (pp & Hs). cbn [tid] in Hs.
  destruct (siblings_ne _ _ _ _ _ _ _ _ _ _ _ Hs) as ((HaP & HbP & Hab) & _).
  destruct (node_nodup _ _ _ _ _ (twins_nodup _ _ _ _ _ _ _ _ _ _ H)) as (Nda & Ndb & Hqa & Hqb).
  pose proof (tw_valid _ _ _ _ _ _ _ _ _ _ H) as Hv. destruct H as [_ (pa & Hna & Hia & Hfa) (pb & Hnb & Hib & Hfb) _ _].
  destruct kcsb as [|[k0 c0] rest]; [done|].
  assert (Hn : nodes_at key_size (nodes (store s)) P a b (cells kcsa) ((k0, tid c0) :: cells rest) pa pb) by done.
  assert (Hk : adoptable (nodes (store s)) P a b (cells ((k0, c0) :: rest)).*2).
  { apply (children_adoptable h _ _ _ _ b); [done|]. intros q Hq. destruct (Hqb q Hq) as (H1 & H2 & H3 & _).
    do 3 (split; [done|]). apply Hv. right. rewrite elem_of_app. right. by right. }
  destruct (node_merge_run _ zero_key s _ _ _ _ _ _ _ _ _ _ _ _ _ _ _ Hs Hn Hk)
    as (pp' & pa' & pb' & m' & u' & Hrun & Hm & Hip & Hia' & Hid & Hu); [by destruct kcsa|done|done|done| |].
  { rewrite !cells_length. exact Hlen. }
  destruct (moved_pages _ _ _ _ _ _ _ _ _ _ Hm HaP HbP Hab) as (MP & Ma & Mb).
  exists m', u', (TNode a (kcsa ++ (kb, c0) :: rest)). split; [exact Hrun|]. split; try done.
  - by exists pp'.
  - exists pa'. split; [done|]. split; [by rewrite cells_app|]. apply Forall_app. split.
    + apply (kept_forest h _ _ _ _ _ _ _ _ _ _ _ _ Hm Hfa). intros q Hq. destruct (Hqa q Hq) as (H1 & H2 & H3 & H4).
      do 3 (split; [done|]). intros Hc. by apply H4, tid_forest.
    + assert (Hfb' : Forall (fun kc => holds h (nodes (store s)) b kc.2) ((kb, c0) :: rest))
        by (apply Forall_cons in Hfb as [? ?]; by constructor).
      apply (taken_forest h _ _ _ _ _ _ _ _ _ b ((kb, c0) :: rest) Hm Hfb'); [done|]. intros q Hq.
      by destruct (Hqb q Hq) as (H1 & H2 & H3 & _).
  - rewrite (node_join_tokens a b) by done. done.
  - cbn [size_of]. by rewrite length_app.
  - cbn [kids_fit]. intros H1 H2. apply Forall_app. split; [done|]. apply Forall_cons in H2 as [H2 H3]. by constructor.
  - rewrite !ids_node, forest_ids_app, !forest_ids_cons. cbn [tid]. solve_Permutation.
  - by exists (InternalNode pb'), (Internal.hdr pb').
  - intros q. apply (moved_frame _ _ _ _ _ _ _ _ _ _ _ _ q Hm); [done|done|]. intros x Hx. right. right.
    by apply (tid_forest ((k0, c0) :: rest)).
Qed.
Lemma merge_ok h s P par cl ka ta kb tb cr :
  twins h (nodes (store s)) P par cl ka ta kb tb cr ->
  tid ta ∈ pins (store s) -> tid tb ∈ pins (store s) -> room 2 s ->
  (h <> O -> 1 <= size_of ta /\ 1 <= size_of tb)%nat -> Z.of_nat (size_of ta + size_of tb) <= max_of h ->
  exists m' u' ta', move_all (kind_of h) (tid tb) (tid ta) s = Ok (tt, edit m' u' s) /\
    merged h s P par cl ka ta kb tb cr m' u' ta'.
Proof.
  intros H Ha Hb Hr Hpos Hlen. pose proof (tw_a _ _ _ _ _ _ _ _ _ _ H) as Hha. pose proof (tw_b _ _ _ _ _ _ _ _ _ _ H) as Hhb.
  destruct h as [|h], ta as [a nxa esa|a kcsa], tb as [b nxb esb|b kcsb]; try done.
  - by apply merge_leaf_ok.
  - destruct Hpos as [H1 H2]; [done|]. apply merge_node_ok; try done; [intros ->; simpl in H1; lia|intros ->; simpl in H2; lia].
Qed.

(** ** Rotations *)

Lemma first_leaf_ok s P par cl ka a nxa esa kb b nxb x y esb cr :
  twins 0 (nodes (store s)) P par cl ka (TLeaf a nxa esa) kb (TLeaf b nxb (x :: y :: esb)) cr ->
  a ∈ pins (store s) -> b ∈ pins (store s) -> room 2 s -> Z.of_nat (length esa) < leaf_max ->
  exists m' u', Redistribute KLeaf b a 0 s = Ok (tt, edit m' u' s) /\
    rotated 0 s P par cl ka (TLeaf a nxa esa) kb (TLeaf b nxb (x :: y :: esb)) cr m' u'
      (TLeaf a nxa (esa ++ [x])) y.1 (TLeaf b nxb (y :: esb)).
Proof.
  intros H Ha Hb Hr Hlen. destruct (twins_siblings _ _ _ _ _ _ _ _ _ _ H) as (pp & Hs). cbn [tid] in Hs.
  destruct (siblings_ne _ _ _ _ _ _ _ _ _ _ _ Hs) as ((HaP & HbP & Hab) & _).
  destruct H as [_ (pa & Hna & Hia) (pb & Hnb & Hib) _ _].
  assert (Hl : leaves_at key_size value_size (nodes (store s)) P a b nxa nxb esa (x :: y :: esb) pa pb) by done.
  destruct (leaf_first_run _ _ zero_key zero_value s _ _ _ _ _ _ _ _ _ _ _ _ _ _ _ _ _ Hs Hl Ha Hb (room_le _ 1 _ Hr ltac:(lia)) Hlen)
    as (pp' & pa' & pb' & u' & Hrun & Hip & Hia' & Hib' & Hu).
  pose proof (leaf_result_moved (nodes (store s)) P a b pp' pa' pb' a HaP HbP Hab) as Hm.
  destruct (moved_pages _ _ _ _ _ _ _ _ _ _ Hm HaP HbP Hab) as (MP & Ma & Mb).
  eexists _, u'. split; [exact Hrun|]. split; try done.
  - by exists pp'.
  - split; [by exists pa'|done].
  - split; [by exists pb'|done].
  - destruct y as [k v]. apply (keeps_rotate cmp); [by rewrite <- app_assoc|by destruct esa].
  - intros q. apply (moved_frame _ _ _ _ _ _ _ _ _ _ _ _ q Hm); [done|done|]. by intros z ?%not_elem_of_nil.
Qed.

Lemma last_leaf_ok s P par cl ka a nxa esa x kb b nxb esb cr :
  twins 0 (nodes (store s)) P par cl ka (TLeaf a nxa (esa ++ [x])) kb (TLeaf b nxb esb) cr -> esa <> [] ->
  a ∈ pins (store s) -> b ∈ pins (store s) -> room 2 s -> Z.of_nat (length esb) < leaf_max ->
  exists m' u', Redistribute KLeaf a b 1 s = Ok (tt, edit m' u' s) /\
    rotated 0 s P par cl ka (TLeaf a nxa (esa ++ [x])) kb (TLeaf b nxb esb) cr m' u'
      (TLeaf a nxa esa) x.1 (TLeaf b nxb (x :: esb)).
Proof.
  intros H Hne Ha Hb Hr Hlen. destruct (twins_siblings _ _ _ _ _ _ _ _ _ _ H) as (pp & Hs). cbn [tid] in Hs.
  destruct (siblings_ne _ _ _ _ _ _ _ _ _ _ _ Hs) as ((HaP & HbP & Hab) & _).
  destruct H as [_ (pa & Hna & Hia) (pb & Hnb & Hib) _ _].
  assert (Hl : leaves_at key_size value_size (nodes (store s)) P a b nxa nxb (esa ++ [x]) esb pa pb) by done.
  destruct (leaf_last_run _ _ zero_key zero_value s _ _ _ _ _ _ _ _ _ _ _ _ _ _ _ _ Hs Hl Ha Hb Hr Hlen)
    as (pp' & pa' & pb' & u' & Hrun & Hip & Hia' & Hib' & Hu).
  pose proof (leaf_result_moved (nodes (store s)) P a b pp' pa' pb' a HaP HbP Hab) as Hm.
  destruct (moved_pages _ _ _ _ _ _ _ _ _ _ Hm HaP HbP Hab) as (MP & Ma & Mb).
  eexists _, u'. split; [exact Hrun|]. split; try done.
  - by exists pp'.
  - split; [by exists pa'|done].
  - split; [by exists pb'|done].
  - destruct x as [k v]. apply (keeps_rotate cmp); [by rewrite <- app_assoc|done].
  - intros q. apply (moved_frame _ _ _ _ _ _ _ _ _ _ _ _ q Hm); [done|done|]. by intros z ?%not_elem_of_nil.
Qed.
Lemma first_node_ok h s P par cl ka a kcsa kb b k0 c0 k1 c1 rest cr :
  twins (S h) (nodes (store s)) P par cl ka (TNode a kcsa) kb (TNode b ((k0, c0) :: (k1, c1) :: rest)) cr -> kcsa <> [] ->
  a ∈ pins (store s) -> b ∈ pins (store s) -> room 2 s -> Z.of_nat (length kcsa) < internal_max ->
  exists m' u', Redistribute KInternal b a 0 s = Ok (tt, edit m' u' s) /\
    rotated (S h) s P par cl ka (TNode a kcsa) kb (TNode b ((k0, c0) :: (k1, c1) :: rest)) cr m' u'
      (TNode a (kcsa ++ [(kb, c0)])) k1 (TNode b ((k1, c1) :: rest)).
Proof.
  intros H Hne Ha Hb Hr Hlen. destruct (twins_siblings _ _ _ _ _ _ _ _ _ _ H) as (pp & Hs). cbn [tid] in Hs.
  destruct (siblings_ne _ _ _ _ _ _ _ _ _ _ _ Hs) as ((HaP & HbP & Hab) & _).
  destruct (node_nodup _ _ _ _ _ (twins_nodup _ _ _ _ _ _ _ _ _ _ H)) as (Nda & Ndb & Hqa & Hqb).
  pose proof (tw_valid _ _ _ _ _ _ _ _ _ _ H) as Hv. destruct H as [_ (pa & Hna & Hia & Hfa) (pb & Hnb & Hib & Hfb) _ _].
  assert (Hn : nodes_at key_size (nodes (store s)) P a b (cells kcsa) ((k0, tid c0) :: (k1, tid c1) :: cells rest) pa pb) by done.
  apply Forall_cons in Hfb as [Hf0 Hfr]. cbn [snd] in Hf0.
  rewrite forest_ids_cons in Ndb. apply NoDup_app in Ndb as (Nd0 & Ndr & _).
  assert (Hq0 : forall q, q ∈ ids c0 -> q <> P /\ q <> a /\ q <> b /\ q <> INVALID_PAGE_ID).
  { intros q Hq. destruct (Hqb q) as (H1 & H2 & H3 & _); [rewrite forest_ids_cons, elem_of_app; by left|].
    do 3 (split; [done|]). apply Hv. right. apply elem_of_app. right. rewrite ids_node, forest_ids_cons, elem_of_cons, elem_of_app. auto. }
  assert (H0 : forall q, q ∈ forest_ids [(kb, c0)] -> q ∈ ids c0)
    by (intros q; rewrite forest_ids_cons; cbn; by rewrite app_nil_r).
  assert (Hk : adoptable (nodes (store s)) P a b (cells [(kb, c0)]).*2).
  { apply (children_adoptable h _ _ _ _ b); [by repeat constructor|]. intros q Hq. by apply Hq0, H0. }
  destruct (node_first_run _ zero_key s _ _ _ _ _ _ _ _ _ _ _ _ _ _ _ _ Hs Hn Hk)
    as (pp' & pa' & pb' & m' & u' & Hrun & Hm & Hip & Hia' & Hib' & Hu); [by destruct kcsa|done|done|done|by rewrite cells_length|].
  destruct (moved_pages _ _ _ _ _ _ _ _ _ _ Hm HaP HbP Hab) as (MP & Ma & Mb).
  exists m', u'. split; [exact Hrun|]. split; try done.
  - by exists pp'.
  - split; [|done]. exists pa'. split; [done|]. split; [by rewrite cells_app|]. apply Forall_app. split.
    + apply (kept_forest h _ _ _ _ _ _ _ _ _ _ _ _ Hm Hfa). intros q Hq. destruct (Hqa q Hq) as (H1 & H2 & H3 & H4).
      do 3 (split; [done|]). intros ->%list_elem_of_singleton. apply H4. rewrite forest_ids_cons, elem_of_app. left. apply tid_ids.
    + apply (taken_forest h _ _ _ _ _ _ _ _ _ b [(kb, c0)] Hm); [by repeat constructor|cbn; by rewrite app_nil_r|].
      intros q Hq. destruct (Hq0 q (H0 q Hq)) as (H1 & H2 & H3 & _). done.
  - split; [|done]. exists pb'. split; [done|]. split; [done|].
    apply (kept_forest h _ _ _ _ _ _ _ _ _ _ _ _ Hm Hfr). intros q Hq.
    destruct (Hqb q) as (H1 & H2 & H3 & _); [rewrite forest_ids_cons, elem_of_app; by right|]. do 3 (split; [done|]).
    intros ->%list_elem_of_singleton. by apply (Ndr (tid c0)); [apply tid_ids|].
  - by rewrite (node_first_tokens a b).
  - cbn [kids_fit]. intros H1 [H2 H3]%Forall_cons. split; [|done]. apply Forall_app. by split; [|repeat constructor].
  - rewrite !ids_node, forest_ids_app, !forest_ids_cons. cbn. solve_Permutation.
  - intros q. apply (moved_frame _ _ _ _ _ _ _ _ _ _ _ _ q Hm); [done|done|]. intros x ->%list_elem_of_singleton. right.
    rewrite ids_node, forest_ids_cons, elem_of_cons, elem_of_app. right; left. apply tid_ids.
Qed.
Lemma last_node_ok h s P par cl ka a kcsa kx cx kb b k0 c0 rest cr :
  twins (S h) (nodes (store s)) P par cl ka (TNode a (kcsa ++ [(kx, cx)])) kb (TNode b ((k0, c0) :: rest)) cr -> kcsa <> [] ->
  a ∈ pins (store s) -> b ∈ pins (store s) -> room 2 s -> Z.of_nat (S (length rest)) < internal_max ->
  exists m' u' j, Redistribute KInternal a b 1 s = Ok (tt, edit m' u' s) /\
    rotated (S h) s P par cl ka (TNode a (kcsa ++ [(kx, cx)])) kb (TNode b ((k0, c0) :: rest)) cr m' u'
      (TNode a kcsa) kx (TNode b ((j, cx) :: (kb, c0) :: rest)).
Proof.
  intros H Hne Ha Hb Hr Hlen. destruct (twins_siblings _ _ _ _ _ _ _ _ _ _ H) as (pp & Hs). cbn [tid] in Hs.
  destruct (siblings_ne _ _ _ _ _ _ _ _ _ _ _ Hs) as ((HaP & HbP & Hab) & _).
  destruct (node_nodup _ _ _ _ _ (twins_nodup _ _ _ _ _ _ _ _ _ _ H)) as (Nda & Ndb & Hqa & Hqb).
  pose proof (tw_valid _ _ _ _ _ _ _ _ _ _ H) as Hv. destruct H as [_ (pa & Hna & Hia & Hfa) (pb & Hnb & Hib & Hfb) _ _].
  rewrite cells_app in Hia.
  assert (Hn : nodes_at key_size (nodes (store s)) P a b (cells kcsa ++ [(kx, tid cx)]) ((k0, tid c0) :: cells rest) pa pb) by done.
  apply Forall_app in Hfa as [Hfa [Hfx _]%Forall_cons]. cbn [snd] in Hfx.
  assert (Hx : forall j q, q ∈ forest_ids [(j, cx)] -> q ∈ ids cx)
    by (intros j q; rewrite forest_ids_cons; cbn; by rewrite app_nil_r).
  assert (Hin : forall q, q ∈ ids cx -> q ∈ forest_ids (kcsa ++ [(kx, cx)])).
  { intros q Hq. rewrite forest_ids_app, forest_ids_cons, !elem_of_app. auto. }
  assert (Hqx : forall q, q ∈ ids cx -> q <> P /\ q <> a /\ q <> b /\ q <> INVALID_PAGE_ID).
  { intros q Hq. destruct (Hqa q (Hin q Hq)) as (H1 & H2 & H3 & _). do 3 (split; [done|]). apply Hv. right.
    apply elem_of_app. left. rewrite ids_node, elem_of_cons. right. by apply Hin. }
  rewrite forest_ids_app in Nda. apply NoDup_app in Nda as (Nda & Ndx & Ndc).
  rewrite forest_ids_cons in Ndc. apply NoDup_app in Ndc as (Ndc & _ & _).
  assert (Hk : adoptable (nodes (store s)) P a b (cells [(kx, cx)]).*2).
  { apply (children_adoptable h _ _ _ _ a); [by repeat constructor|]. intros q Hq. by apply Hqx, (Hx kx). }
  destruct (node_last_run _ zero_key s _ _ _ _ _ _ _ _ _ _ _ _ _ _ _ _ Hs Hn Hk)
    as (pp' & pa' & pb' & m' & u' & j & Hrun & Hm & Hip & Hia' & Hib' & Hu); [done|done|done|by rewrite cells_length|].
  destruct (moved_pages _ _ _ _ _ _ _ _ _ _ Hm HaP HbP Hab) as (MP & Ma & Mb).
  exists m', u', j. split; [exact Hrun|]. split; try done.
  - by exists pp'.
  - split; [|done]. exists pa'. split; [done|]. split; [done|].
    apply (kept_forest h _ _ _ _ _ _ _ _ _ _ _ _ Hm Hfa). intros q Hq.
    destruct (Hqa q) as (H1 & H2 & H3 & _); [rewrite forest_ids_app, elem_of_app; by left|]. do 3 (split; [done|]).
    intros ->%list_elem_of_singleton. apply (Ndx (tid cx)); [done|]. rewrite forest_ids_cons, elem_of_app. left. apply tid_ids.
  - split; [|done]. exists pb'. split; [done|]. split; [done|]. apply (Forall_app _ [(j, cx)]). split.
    + apply (taken_forest h _ _ _ _ _ _ _ _ _ a [(j, cx)] Hm); [by repeat constructor|cbn; by rewrite app_nil_r|].
      intros q Hq. destruct (Hqx q (Hx j q Hq)) as (H1 & H2 & H3 & _). done.
    + assert (Hfb' : Forall (fun kc => holds h (nodes (store s)) b kc.2) ((kb, c0) :: rest))
        by (apply Forall_cons in Hfb as [? ?]; by constructor).
      apply (kept_forest h _ _ _ _ _ _ _ _ _ _ _ _ Hm Hfb'). intros q Hq.
      destruct (Hqb q Hq) as (H1 & H2 & H3 & H4). do 3 (split; [done|]). intros ->%list_elem_of_singleton.
      apply H4, Hin, tid_ids.
  - by rewrite (node_last_tokens a b _ _ _ _ _ _ j).
  - cbn [kids_fit]. intros [H1 [H2 _]%Forall_cons]%Forall_app [H3 H4]%Forall_cons. split; [done|]. by repeat constructor.
  - rewrite !ids_node, forest_ids_app, !forest_ids_cons. cbn. solve_Permutation.
  - intros q. apply (moved_frame _ _ _ _ _ _ _ _ _ _ _ _ q Hm); [done|done|]. intros x ->%list_elem_of_singleton. left.
    rewrite ids_node, elem_of_cons. right. apply Hin, tid_ids.
Qed.

Lemma borrow_right_ok h s P par cl ka ta kb tb cr :
  twins h (nodes (store s)) P par cl ka ta kb tb cr ->
  tid ta ∈ pins (store s) -> tid tb ∈ pins (store s) -> room 2 s ->
  (h <> O -> 1 <= size_of ta)%nat -> (2 <= size_of tb)%nat -> Z.of_nat (size_of ta) < max_of h ->
  exists m' u' ta' k' tb', Redistribute (kind_of h) (tid tb) (tid ta) 0 s = Ok (tt, edit m' u' s) /\
    rotated h s P par cl ka ta kb tb cr m' u' ta' k' tb' /\
    size_of ta' = S (size_of ta) /\ size_of tb = S (size_of tb').
Proof.
  intros H Ha Hb Hr Hpos Hbig Hlen. pose proof (tw_a _ _ _ _ _ _ _ _ _ _ H) as Hha. pose proof (tw_b _ _ _ _ _ _ _ _ _ _ H) as Hhb.
  destruct h as [|h], ta as [a nxa esa|a kcsa], tb as [b nxb esb|b kcsb]; try done; cbn [size_of] in *.
  - destruct esb as [|x [|y esb]]; [simpl in Hbig; lia..|].
    destruct (first_leaf_ok _ _ _ _ _ _ _ _ _ _ _ _ _ _ _ H Ha Hb Hr Hlen) as (m' & u' & Hrun & Hrot).
    eexists m', u', _, _, _. split; [exact Hrun|]. split; [exact Hrot|]. cbn [size_of length]. rewrite length_app. simpl. lia.
  - destruct kcsb as [|[k0 c0] [|[k1 c1] rest]]; [simpl in Hbig; lia..|].
    assert (Hne : kcsa <> []) by (intros ->; simpl in Hpos; lia).
    destruct (first_node_ok _ _ _ _ _ _ _ _ _ _ _ _ _ _ _ _ H Hne Ha Hb Hr Hlen) as (m' & u' & Hrun & Hrot).
    eexists m', u', _, _, _. split; [exact Hrun|]. split; [exact Hrot|]. cbn [size_of length]. rewrite length_app. simpl. lia.
Qed.

Lemma borrow_left_ok h s P par cl ka ta kb tb cr :
  twins h (nodes (store s)) P par cl ka ta kb tb cr ->
  tid ta ∈ pins (store s) -> tid tb ∈ pins (store s) -> room 2 s ->
  (h <> O -> 1 <= size_of tb)%nat -> (2 <= size_of ta)%nat -> Z.of_nat (size_of tb) < max_of h ->
  exists m' u' ta' k' tb', Redistribute (kind_of h) (tid ta) (tid tb) 1 s = Ok (tt, edit m' u' s) /\
    rotated h s P par cl ka ta kb tb cr m' u' ta' k' tb' /\
    size_of ta = S (size_of ta') /\ size_of tb' = S (size_of tb).
Proof.
  intros H Ha Hb Hr Hpos Hbig Hlen. pose proof (tw_a _ _ _ _ _ _ _ _ _ _ H) as Hha. pose proof (tw_b _ _ _ _ _ _ _ _ _ _ H) as Hhb.
  destruct h as [|h], ta as [a nxa esa|a kcsa], tb as [b nxb esb|b kcsb]; try done; cbn [size_of] in *.
  - destruct esa as [|x esa _] using rev_ind; [simpl in Hbig; lia|]. rewrite length_app in *. cbn [length] in *.
    assert (Hne : esa <> []) by (intros ->; simpl in Hbig; lia).
    destruct (last_leaf_ok _ _ _ _ _ _ _ _ _ _ _ _ _ _ H Hne Ha Hb Hr Hlen) as (m' & u' & Hrun & Hrot).
    eexists m', u', _, _, _. split; [exact Hrun|]. split; [exact Hrot|]. cbn [size_of length]. lia.
  - destruct kcsa as [|[kx cx] kcsa _] using rev_ind; [simpl in Hbig; lia|]. rewrite length_app in *. cbn [length] in *.
    assert (Hne : kcsa <> []) by (intros ->; simpl in Hbig; lia).
    destruct kcsb as [|[k0 c0] rest]; [simpl in Hpos; lia|].
    destruct (last_node_ok _ _ _ _ _ _ _ _ _ _ _ _ _ _ _ _ H Hne Ha Hb Hr Hlen) as (m' & u' & j & Hrun & Hrot).
    eexists m', u', _, _, _. split; [exact Hrun|]. split; [exact Hrot|]. cbn [size_of length]. lia.
Qed.
End Twins.
End TreeBalance.
