(* ===== verification/TreeShrink.v ===== *)
(** * The repair of an underfull page

    CoalesceOrRedistribute on every tree and every depth: a page one entry short of half
    full borrows from a sibling or is merged with one, up to the root.  The tree reads
    the same, every page but the root is half full again, and the pages taken out of the
    tree are those it reports. *)

From stdpp Require Import prelude gmap gmultiset list sorting.
From Stdlib Require Import ZArith Lia.
From S2P Require Import Prelude HeaderPage BPlusTreePage LeafPage InternalPage TreeNodes BPlusTree.
From S2P Require Import TreeModel TreeSteps TreeInsert TreeMoves TreeShift TreeBalance.

Local Open Scope Z_scope.

Module TreeShrink.
Import BPage Nodes TreeModel BPlusTree TreeSteps TreeInsert TreeMoves TreeShift TreeBalance.

Section Shrink.
Context {K V : Type} (key_size value_size : Z) (zero_key : K) (zero_value : V).
Context (index_name : list Z) (cmp : K -> K -> Z) `{!KeyOrder cmp}.
Implicit Types (s : State K V) (m : gmap Z (Node K V)) (t : tree K V) (fs : list (frame K V)).

Abbreviation leaf_max := (leaf_max key_size value_size).
Abbreviation internal_max := (internal_max key_size).
Abbreviation max_of := (max_of key_size value_size).
Abbreviation kids_fit := (kids_fit key_size value_size).
Abbreviation internal_is := (internal_is key_size).
Abbreviation holds := (holds key_size value_size).
Abbreviation fit := (fit key_size value_size).
Abbreviation context_holds := (context_holds key_size value_size).
Abbreviation context_fit := (context_fit key_size value_size).
Abbreviation keeps := (keeps cmp).
Abbreviation header_ok := (header_ok index_name).
Abbreviation get_internal := (get_internal key_size zero_key).

Context (Hsizes : sizes_ok key_size value_size) (Hname : Header.name_ok index_name) (H4 : 4 <= internal_max).

(** ** Sizes *)

Lemma max_bounds h : 2 <= max_of h < 2 ^ 30.
Proof.
  assert (Hdiv : forall c d, 0 < c < 2 ^ 30 -> 2 <= c / d -> c / d < 2 ^ 30).
  { intros c d Hc Hq. destruct (Z.lt_trichotomy d 0) as [Hd|[->|Hd]].
    - pose proof (Z.mul_div_ge c d Hd). nia.
    - rewrite Z.div_0_r in Hq. lia.
    - apply Z.div_lt_upper_bound; [lia|]. nia. }
  destruct h as [|h]; cbn [TreeBalance.max_of].
  - pose proof (so_leaf _ _ Hsizes) as [H _]. split; [done|]. by apply Hdiv.
  - pose proof (so_internal _ _ Hsizes) as [H _]. split; [done|]. by apply Hdiv.
Qed.
(** The header of the page of a tree. *)
Lemma holds_header h m parent t :
  holds h m parent t ->
  exists n hd, m !! tid t = Some n /\ as_page n = Ok hd /\ page_id_ hd = tid t /\
    parent_page_id_ hd = parent /\ size_ hd = Z.of_nat (size_of t) /\ max_size_ hd = max_of h /\
    IsLeafPage hd = bool_decide (h = O) /\ Z.of_nat (size_of t) <= max_of h.
Proof.
  destruct h as [|h], t as [id nx es|id kcs]; simpl; try done.
  - intros (p & Hp & Hi). pose proof (leaf_is_length _ _ _ _ _ _ _ Hi) as Hl. pose proof (Leaf.l_size _ (li_wf _ _ _ _ _ _ _ Hi)) as Hs.
    pose proof (li_max _ _ _ _ _ _ _ Hi) as Hx. exists (LeafNode p), (Leaf.hdr p).
    split; [done|]. split; [done|]. split; [apply Hi|]. split; [apply Hi|]. split; [done|]. split; [done|].
    split; [|lia]. unfold IsLeafPage. by rewrite (li_type _ _ _ _ _ _ _ Hi).
  - intros (p & Hp & Hi & _). pose proof (internal_is_length _ _ _ _ _ Hi) as Hl. pose proof (Internal.i_size _ (ii_wf _ _ _ _ _ Hi)) as Hs.
    pose proof (ii_max _ _ _ _ _ Hi) as Hx. rewrite cells_length in Hl. exists (InternalNode p), (Internal.hdr p).
    split; [done|]. split; [done|]. split; [apply Hi|]. split; [apply Hi|]. split; [done|]. split; [done|].
    split; [|lia]. unfold IsLeafPage. by rewrite (ii_type _ _ _ _ _ Hi).
Qed.

Lemma min_size h hd : max_size_ hd = max_of h -> GetMinSize hd = max_of h / 2.
Proof. intros E. unfold GetMinSize. rewrite E. apply Z.quot_div_nonneg; [pose proof (max_bounds h)|]; lia. Qed.

(** What the root of a tree holds at least. *)
Definition root_min (h : nat) : Z := match h with O => 1 | S _ => 2 end.

Lemma fit_intro h (root : bool) m parent t :
  holds h m parent t -> kids_fit h t ->
  (if root then root_min h else max_of h / 2) <= Z.of_nat (size_of t) -> fit h root t.
Proof. destruct h as [|h], t as [id nx es|id kcs], root; simpl; try done; tauto. Qed.

Lemma fit_size h root t : fit h root t ->
  (if root then root_min h else max_of h / 2) <= Z.of_nat (size_of t) /\ kids_fit h t.
Proof. destruct h as [|h], t as [id nx es|id kcs], root; try done; by intros []. Qed.

(** A half full page can be the root. *)
Lemma fit_root h m parent t : holds h m parent t -> fit h false t -> fit h true t.
Proof.
  intros Hh [Hs Hk]%fit_size. apply (fit_intro _ _ m parent); [done|done|].
  destruct h as [|h]; cbn [TreeBalance.max_of] in Hs.
  - pose proof (so_leaf _ _ Hsizes). assert (1 <= leaf_max / 2) by (apply Z.div_le_lower_bound; lia). simpl. lia.
  - assert (2 <= internal_max / 2) by (apply Z.div_le_lower_bound; lia). simpl. lia.
Qed.

(** The test for a sibling with entries to spare. *)
Lemma rich_ok h m parent ta tb s :
  nodes (store s) = m -> holds h m parent ta -> holds h m parent tb ->
  tid ta ∈ pins (store s) -> tid tb ∈ pins (store s) ->
  rich (tid ta) (tid tb) s = Ok (bool_decide (max_of h <= Z.of_nat (size_of ta + size_of tb)), s).
Proof.
  intros <- Ha Hb Hpa Hpb. destruct (holds_header _ _ _ _ Ha) as (na & ha & Hna & Hha & _ & _ & Sa & Ma & _ & La).
  destruct (holds_header _ _ _ _ Hb) as (nb & hb & Hnb & Hhb & _ & _ & Sb & _ & _ & Lb).
  unfold rich. rewrite (bind_run _ _ _ _ _ (get_page_ok _ _ _ s Hpa Hna Hha)).
  rewrite (bind_run _ _ _ _ _ (get_page_ok _ _ _ s Hpb Hnb Hhb)).
  unfold ret. do 2 f_equal. rewrite Ma, Sa, Sb. pose proof (max_bounds h).
  replace (wrap32 _) with (Z.of_nat (size_of ta + size_of tb)).
  - case_bool_decide; [by apply Z.leb_le|by apply Z.leb_gt; lia].
  - symmetry. rewrite swrap_id; [lia|lia|]. unfold in_sint. lia.
Qed.
(** ** The tree before and after *)

(** A tree in its context, perhaps one entry short of half full. *)
Record loose (h : nat) fs t s : Prop := {
  lo_holds : holds h (nodes (store s)) (context_parent fs) t;
  lo_context : context_holds h (nodes (store s)) (tid t) fs;
  lo_kids : kids_fit h t;
  lo_size : (if is_root fs then 1 else max_of h / 2 - 1) <= Z.of_nat (size_of t);
  lo_cfit : context_fit h fs;
  lo_nodup : NoDup (ids t ++ context_ids fs);
  lo_ids q : q ∈ ids t ++ context_ids fs -> HEADER_PAGE_ID < q;
  lo_pin : tid t ∈ pins (store s);
  lo_header : exists root, header_ok root (nodes (store s))
}.

(** The pages of [t] and its context are now those of the tree [t'], which reads the same;
    the others are out of it, the page of [t] among them where [gone] says so. *)
Record shrunk (h : nat) fs t s (gone : bool) s' (h' : nat) (t' : tree K V) : Prop := {
  sh_holds : holds h' (nodes (store s')) INVALID_PAGE_ID t';
  sh_fit : fit h' true t';
  sh_nodup : NoDup (ids t');
  sh_ids q : q ∈ ids t' -> q ∈ ids t ++ context_ids fs;
  sh_known q : q ∈ ids t ++ context_ids fs -> tree_page (nodes (store s')) q;
  sh_gone : gone = true -> tid t ∉ ids t';
  sh_frame q : q ∉ ids t ++ context_ids fs -> q <> HEADER_PAGE_ID ->
               nodes (store s') !! q = nodes (store s) !! q;
  sh_next : next (store s') = next (store s);
  sh_pins : pins (store s') = pins (store s);
  sh_unsaved : unsaved (store s') ⊆ unsaved (store s) ∪ {[tid t]};
  sh_deleted q : q ∈ deleted_page_set_ (txn s') ->
                 q ∈ deleted_page_set_ (txn s) \/ (q ∈ ids t ++ context_ids fs /\ q ∉ ids t');
  sh_rest : trivial_page_id_ s' = trivial_page_id_ s /\ page_set_ (txn s') = page_set_ (txn s) /\
            capacity (store s') = capacity (store s);
  sh_keeps : keeps (left_of fs ++ tokens t ++ right_of fs) (tokens t');
  sh_height : (h' <= length fs + h)%nat;
  sh_root : root_page_id_ s = tid (fill fs t) -> root_page_id_ s' = tid t';
  sh_header : header_ok (root_page_id_ s) (nodes (store s)) ->
              header_ok (root_page_id_ s') (nodes (store s'))
}.

Lemma loose_known h fs t s q : loose h fs t s -> q ∈ ids t ++ context_ids fs -> tree_page (nodes (store s)) q.
Proof.
  intros [] [Hq|Hq]%elem_of_app; [exact (holds_known _ _ _ _ _ _ _ lo_holds0 Hq)|].
  exact (context_known _ _ _ _ _ _ _ lo_context0 Hq).
Qed.

Lemma loose_valid h fs t s q : loose h fs t s -> q ∈ ids t ++ context_ids fs -> q <> INVALID_PAGE_ID.
Proof. intros H Hq. pose proof (lo_ids _ _ _ _ H q Hq). unfold HEADER_PAGE_ID, INVALID_PAGE_ID in *. lia. Qed.

(** Nothing to repair. *)
Lemma shrunk_still h fs t s :
  loose h fs t s -> (if is_root fs then root_min h else max_of h / 2) <= Z.of_nat (size_of t) ->
  shrunk h fs t s false s (length fs + h) (fill fs t).
Proof.
  intros H Hs. pose proof H as []. split; try done.
  - by apply fill_holds.
  - apply fill_fit; [|done]. by apply (fit_intro _ _ _ _ _ lo_holds0).
  - by rewrite ids_fill.
  - intros q. by rewrite ids_fill.
  - intros q Hq. by apply (loose_known _ _ _ _ _ H).
  - clear. set_solver.
  - auto.
  - by rewrite tokens_fill.
Qed.

(** ** AdjustRoot *)

(** The run of AdjustRoot on a root with one child. *)
Lemma adjust_root_run id p k c s n root :
  nodes (store s) !! id = Some (InternalNode p) -> internal_is INVALID_PAGE_ID id [(k, c)] p ->
  id ∈ pins (store s) -> room (S n) s -> header_ok root (nodes (store s)) ->
  tree_page (nodes (store s)) c -> HEADER_PAGE_ID < c ->
  exists buf u,
    let m' := <[HEADER_PAGE_ID := HeaderNode buf]> (alter (reparented INVALID_PAGE_ID) c (nodes (store s))) in
    AdjustRoot key_size zero_key index_name id s = Ok (true, edit m' u (set_root c s)) /\
    header_ok c m' /\ u ⊆ unsaved (store s).
Proof.
  intros Hp Hi Hpin Hr Hhd Hc Hcid. unfold HEADER_PAGE_ID in Hcid.
  assert (Hci : c <> INVALID_PAGE_ID) by (unfold INVALID_PAGE_ID; lia).
  unfold AdjustRoot. rewrite (bind_run _ _ _ _ _ (get_page_ok id _ (Internal.hdr p) s Hpin Hp eq_refl)).
  rewrite (bind_run _ _ s tt s).
  2:{ apply asserts_ok. unfold IsRootPage. by rewrite (ii_parent _ _ _ _ _ Hi). }
  pose proof (internal_is_length _ _ _ _ _ Hi) as Hlen. unfold Internal.GetSize in Hlen. rewrite Hlen.
  unfold IsLeafPage. rewrite (ii_type _ _ _ _ _ Hi), bool_decide_false by done.
  change (2 <=? Z.of_nat (length [(k, c)])) with false. cbn [andb orb negb].
  rewrite bind_bind. erewrite bind_run by (by apply (get_internal_ok _ _ id (InternalNode p))).
  rewrite bind_bind, (bind_run _ _ s c s).
  2:{ apply lift_ok. change 0 with (Z.of_nat 0). apply (Internal.internal_value_at_ok p 0 (k, c)); [apply Hi|].
      by rewrite (ii_entries _ _ _ _ _ Hi). }
  rewrite bind_bind, (bind_run _ _ s tt (set_root c s) eq_refl). set (s1 := set_root c s).
  pose proof Hc as (nc & hc & Hnc & _).
  rewrite bind_bind, (bind_run _ _ _ _ _ (fetch_data_ok c s1 n Hr Hci (mk_is_Some _ _ Hnc))).
  set (s2 := pin_page c s1).
  rewrite bind_bind, (bind_run _ _ _ _ _ (set_parent_alter INVALID_PAGE_ID c s2 (elem_of_pinned _ _) Hc)).
  set (s3 := edit _ _ s2).
  rewrite (bind_run _ _ _ _ _ (unpin_back c s1 s3 Hci eq_refl)). set (s4 := edit _ _ s1).
  destruct (update_root_ok key_size value_size index_name cmp Hsizes Hname root s4 n) as (buf & Hup & Hok); [|done|].
  { apply (header_ok_agree _ _ (nodes (store s))); [done|]. apply lookup_alter_ne. unfold HEADER_PAGE_ID. lia. }
  rewrite (bind_run _ _ _ _ _ Hup). eexists buf, _. split; [done|]. split; [done|].
  cbn [s4 s3 s2 s1 edit pin_page set_root upd set_store store unsaved]. clear. set_solver.
Qed.

(** A root with one child is replaced by it. *)
Lemma adjust_only_child h id k c s n :
  loose (S h) [] (TNode id [(k, c)]) s -> fit h false c -> room (S n) s ->
  exists s', AdjustRoot key_size zero_key index_name id s = Ok (true, s') /\
             shrunk (S h) [] (TNode id [(k, c)]) s true s' h c.
Proof.
  intros H Hfit Hr. pose proof H as [(p & Hp & Hi & Hf) _ _ _ _ Hnd Hids Hpin (root & Hhd)].
  apply Forall_cons in Hf as [Hc _]. cbn [snd] in Hc.
  assert (E : ids (TNode id [(k, c)]) ++ context_ids ([] : list (frame K V)) = id :: ids c)
    by (rewrite app_nil_r, ids_node, forest_ids_cons; by rewrite app_nil_r).
  rewrite E in Hnd, Hids. apply NoDup_cons in Hnd as [Hnid Hndc].
  pose proof (Hids (tid c) ltac:(right; apply tid_ids)) as Hcid.
  pose proof (holds_known _ _ _ _ _ _ _ Hc (tid_ids c)) as Hkc.
  destruct (adjust_root_run id p k (tid c) s n root Hp Hi Hpin Hr Hhd Hkc Hcid) as (buf & u & Hrun & Hok & Hu).
  set (m' := <[HEADER_PAGE_ID := _]> _) in *. eexists. split; [exact Hrun|].
  assert (Hm : forall q, q <> tid c -> q <> HEADER_PAGE_ID -> m' !! q = nodes (store s) !! q).
  { intros q Hq Hqh. unfold m'. by rewrite lookup_insert_ne, lookup_alter_ne by done. }
  assert (Hmc : m' !! tid c = reparented INVALID_PAGE_ID <$> nodes (store s) !! tid c).
  { unfold m'. rewrite lookup_insert_ne by lia. apply lookup_alter_eq. }
  assert (Hh' : holds h m' INVALID_PAGE_ID c).
  { apply (holds_reparent _ _ h (nodes (store s)) _ id); [done|done|done|]. intros q Hq Hne. apply Hm; [done|].
    specialize (Hids q ltac:(by right)). lia. }
  split; try rewrite E; try done.
  - by apply (fit_root _ m' INVALID_PAGE_ID).
  - intros q Hq. by right.
  - intros q [->|Hq]%elem_of_cons; [|by apply (holds_known _ _ _ _ _ _ _ Hh')].
    exists (InternalNode p), (Internal.hdr p). split; [|by split; [|apply Hi]].
    cbn [edit upd set_root set_store store nodes]. rewrite Hm; [done| |].
    + intros ->. apply Hnid, tid_ids.
    + specialize (Hids id ltac:(left)). lia.
  - intros q Hq Hqh. apply Hm; [|done]. intros ->. apply Hq. right. apply tid_ids.
  - cbn [edit upd set_root set_store store unsaved]. clear - Hu. set_solver.
  - auto.
  - cbn [left_of right_of app]. rewrite app_nil_r, tokens_node, weave_cons. cbn. by rewrite app_nil_r.
  - simpl. lia.
Qed.
(** ** The parent after a merge *)

(** The end of Coalesce. *)
Definition settle (again : Z -> M K V bool) (parent : Z) : M K V bool :=
  let! h := get_page parent in
  if IsRootPage h then AdjustRoot key_size zero_key index_name parent
  else if size_ h <? GetMinSize h then again parent
  else ret false.

Definition repairs (run : M K V bool) (h : nat) fs t s : Prop :=
  exists b s' h' t', run s = Ok (b, s') /\ shrunk h fs t s b s' h' t'.

Lemma adjust_root_filled h t s :
  loose (S h) [] t s -> 2 <= Z.of_nat (size_of t) -> AdjustRoot key_size zero_key index_name (tid t) s = Ok (false, s).
Proof.
  intros H Hs. destruct (holds_header _ _ _ _ (lo_holds _ _ _ _ H)) as (n & hd & Hn & Hh & _ & Hpar & Hsz & _ & Hleaf & _).
  unfold AdjustRoot. rewrite (bind_run _ _ _ _ _ (get_page_ok _ _ _ s (lo_pin _ _ _ _ H) Hn Hh)).
  rewrite (bind_run _ _ s tt s) by (apply asserts_ok; unfold IsRootPage; by rewrite Hpar).
  rewrite Hleaf, Hsz. by rewrite (proj2 (Z.leb_le 2 _) Hs).
Qed.

Lemma settle_ok again h fs t s n :
  loose (S h) fs t s -> room (S n) s ->
  (fs <> [] -> Z.of_nat (size_of t) < max_of (S h) / 2 -> repairs (again (tid t)) (S h) fs t s) ->
  repairs (settle again (tid t)) (S h) fs t s.
Proof.
  intros H Hr Hagain. destruct (holds_header _ _ _ _ (lo_holds _ _ _ _ H)) as (nd & hd & Hn & Hh & _ & Hpar & Hsz & Hmx & _ & _).
  assert (Hstart : settle again (tid t) s =
    (if IsRootPage hd then AdjustRoot key_size zero_key index_name (tid t)
     else if size_ hd <? GetMinSize hd then again (tid t) else ret false) s).
  { unfold settle. by rewrite (bind_run _ _ _ _ _ (get_page_ok _ _ _ s (lo_pin _ _ _ _ H) Hn Hh)). }
  unfold repairs. rewrite Hstart. unfold IsRootPage. rewrite Hpar, Hsz, (min_size _ _ Hmx). destruct fs as [|f fs].
  - change (context_parent [] =? INVALID_PAGE_ID) with true. cbv iota.
    destruct (Z.le_gt_cases 2 (Z.of_nat (size_of t))) as [H2|H2].
    + exists false, s, (S h), t. split; [by apply (adjust_root_filled h)|]. by apply (shrunk_still (S h) []).
    + pose proof (lo_size _ _ _ _ H) as H1. pose proof (lo_kids _ _ _ _ H) as Hk. destruct t as [id nx es|id kcs]; [by destruct (lo_holds _ _ _ _ H)|].
      cbn [size_of is_root] in *. destruct kcs as [|[k c] [|x kcs]]; cbn [length] in *; [lia| |lia].
      cbn [TreeBalance.kids_fit] in Hk. apply Forall_cons in Hk as [Hk _].
      destruct (adjust_only_child h id k c s n H Hk Hr) as (s' & Hrun & Hsh). by exists true, s', h, c.
  - pose proof (lo_ids _ _ _ _ H (f_id f) ltac:(apply elem_of_app; right; left)) as Hf. unfold HEADER_PAGE_ID in Hf.
    cbn [context_parent]. rewrite (proj2 (Z.eqb_neq _ _)) by (unfold INVALID_PAGE_ID; lia).
    destruct (Z.ltb_spec (Z.of_nat (size_of t)) (max_of (S h) / 2)) as [Hlt|Hge].
    + by apply Hagain.
    + exists false, s, (length (f :: fs) + S h)%nat, (fill (f :: fs) t). split; [done|]. by apply shrunk_still.
Qed.

(** ** A page whose cells were replaced *)

(** The cells [mid0] of the page above the hole became [mid]; the pages [D] left the tree. *)
Record rebuilt (h : nat) (f : frame K V) fs t m (D : list Z) (tp : tree K V) m' : Prop := {
  rb_holds : holds (S h) m' (context_parent fs) tp;
  rb_context : context_holds (S h) m' (tid tp) fs;
  rb_kids : kids_fit (S h) tp;
  rb_tid : tid tp = f_id f;
  rb_ids : D ++ ids tp ++ context_ids fs ≡ₚ ids t ++ context_ids (f :: fs);
  rb_frame q : q ∉ ids t ++ context_ids (f :: fs) -> m' !! q = m !! q;
  rb_keeps : keeps (left_of (f :: fs) ++ tokens t ++ right_of (f :: fs)) (left_of fs ++ tokens tp ++ right_of fs)
}.

Lemma hole_ids f fs t : ids t ++ context_ids (f :: fs) ≡ₚ f_id f :: forest_ids (narrow f t) ++ context_ids fs.
Proof.
  rewrite context_ids_cons. unfold frame_ids, narrow. rewrite forest_ids_app, forest_ids_cons. solve_Permutation.
Qed.

Lemma hole_tokens f fs t :
  left_of (f :: fs) ++ tokens t ++ right_of (f :: fs) = left_of fs ++ tokens (plug f t) ++ right_of fs.
Proof. rewrite tokens_plug. cbn [left_of right_of]. by rewrite <- !app_assoc. Qed.

Lemma node_middle_tokens P (cl : list (K * tree K V)) k ta rest :
  tokens (TNode P (cl ++ (k, ta) :: rest)) = tail (weave cl ++ [Sep k]) ++ tokens ta ++ weave rest.
Proof. apply (tokens_plug (mkFrame P cl k rest) ta). Qed.

Lemma rebuild h f fs t s m' D cl mid0 mid cr pp :
  loose h (f :: fs) t s -> narrow f t = cl ++ mid0 ++ cr ->
  (forall kc, kc ∈ cl ++ cr -> kc ∈ f_left f ++ f_right f) ->
  m' !! f_id f = Some (InternalNode pp) -> internal_is (context_parent fs) (f_id f) (cells (cl ++ mid ++ cr)) pp ->
  Forall (fun kc => holds h m' (f_id f) kc.2) mid -> Forall (fun kc => fit h false kc.2) mid ->
  D ++ forest_ids mid ≡ₚ forest_ids mid0 ->
  (forall q, q ∉ f_id f :: forest_ids mid0 -> m' !! q = nodes (store s) !! q) ->
  keeps (tokens (TNode (f_id f) (cl ++ mid0 ++ cr))) (tokens (TNode (f_id f) (cl ++ mid ++ cr))) ->
  rebuilt h f fs t (nodes (store s)) D (TNode (f_id f) (cl ++ mid ++ cr)) m'.
Proof.
  intros H Hsplit Hothers HP Hi Hmid Hfit Hids Hframe Hkeep. pose proof (lo_nodup _ _ _ _ H) as Hnd.
  rewrite hole_ids, Hsplit, !forest_ids_app in Hnd. apply NoDup_cons in Hnd as [Hn1 Hnd].
  assert (E : (forest_ids cl ++ forest_ids mid0 ++ forest_ids cr) ++ context_ids fs ≡ₚ
              forest_ids mid0 ++ (forest_ids cl ++ forest_ids cr) ++ context_ids fs) by solve_Permutation.
  rewrite E in Hn1, Hnd. apply NoDup_app in Hnd as (_ & Hd & _).
  assert (Hout : forall q, q ∈ (forest_ids cl ++ forest_ids cr) ++ context_ids fs -> m' !! q = nodes (store s) !! q).
  { intros q Hq. apply Hframe. intros [->|Hq0]%elem_of_cons; [apply Hn1, elem_of_app; by right|by apply (Hd q)]. }
  destruct (lo_context _ _ _ _ H) as (_ & Hho & Hctx). destruct (lo_cfit _ _ _ _ H) as (_ & Hfo & _).
  assert (Hside : forall kcs, (forall kc, kc ∈ kcs -> kc ∈ cl ++ cr) ->
    Forall (fun kc => holds h m' (f_id f) kc.2) kcs /\ Forall (fun kc => fit h false kc.2) kcs).
  { intros kcs Hkcs. rewrite !Forall_forall in *. split; intros kc Hkc; [|by auto].
    apply (holds_agree _ _ h (nodes (store s))); [by auto|]. intros q Hq. apply Hout, elem_of_app. left.
    rewrite <- forest_ids_app. apply elem_of_forest. exists kc. auto. }
  destruct (Hside cl) as [Hcl Fcl]; [intros; apply elem_of_app; by left|].
  destruct (Hside cr) as [Hcr Fcr]; [intros; apply elem_of_app; by right|].
  split; try done.
  - exists pp. split; [done|]. split; [done|]. by repeat (apply Forall_app; split).
  - apply (context_agree _ _ (S h) (nodes (store s))); [done|]. intros q Hq. apply Hout, elem_of_app. by right.
  - by repeat (apply Forall_app; split).
  - rewrite hole_ids, Hsplit, ids_node, !forest_ids_app, <- Hids. solve_Permutation.
  - intros q. rewrite hole_ids, Hsplit, !forest_ids_app. intros Hq. apply Hframe. rewrite elem_of_cons in *.
    rewrite !elem_of_app in Hq. tauto.
  - rewrite hole_tokens. apply keeps_middle. unfold plug. fold (narrow f t). by rewrite Hsplit.
Qed.
Lemma narrow_length f t : length (narrow f t) = (length (f_left f) + 1 + length (f_right f))%nat.
Proof. unfold narrow. rewrite length_app, length_cons. lia. Qed.

Lemma merged_rebuilt h f fs t s s1 cl ka ta kb tb cr m' u ta' :
  loose h (f :: fs) t s -> narrow f t = cl ++ [(ka, ta); (kb, tb)] ++ cr ->
  (forall kc, kc ∈ cl ++ cr -> kc ∈ f_left f ++ f_right f) -> nodes (store s1) = nodes (store s) ->
  merged key_size value_size cmp h s1 (f_id f) (context_parent fs) cl ka ta kb tb cr m' u ta' ->
  kids_fit h ta -> kids_fit h tb -> max_of h / 2 <= Z.of_nat (size_of ta + size_of tb) ->
  rebuilt h f fs t (nodes (store s)) [tid tb] (TNode (f_id f) (cl ++ [(ka, ta')] ++ cr)) m'.
Proof.
  intros H Hsplit Hothers Hn [(pp & HP & Hi) Hh Htid Hk Hsz Hkf Hids _ Hfr _] Hka Hkb Hs.
  apply (rebuild h f fs t s m' [tid tb] cl [(ka, ta); (kb, tb)] [(ka, ta')] cr pp); try done.
  - rewrite !cells_app. cbn [cells map fst snd app]. by rewrite Htid.
  - by repeat constructor.
  - repeat constructor. cbn [snd]. apply (fit_intro h false m' (f_id f)); [done|auto|]. by rewrite Hsz.
  - rewrite !forest_ids_cons. cbn. rewrite !app_nil_r. exact Hids.
  - intros q Hq. rewrite <- Hn. apply Hfr. rewrite !forest_ids_cons in Hq. cbn in Hq. by rewrite app_nil_r in Hq.
  - cbn [app]. rewrite !node_middle_tokens, weave_cons.
    replace (tokens ta ++ Sep kb :: tokens tb ++ weave cr) with ((tokens ta ++ Sep kb :: tokens tb) ++ weave cr)
      by (by rewrite <- app_assoc). by apply keeps_middle.
Qed.

Lemma rotated_rebuilt h f fs t s s1 cl ka ta kb tb cr m' u ta' k' tb' :
  loose h (f :: fs) t s -> narrow f t = cl ++ [(ka, ta); (kb, tb)] ++ cr ->
  (forall kc, kc ∈ cl ++ cr -> kc ∈ f_left f ++ f_right f) -> nodes (store s1) = nodes (store s) ->
  rotated key_size value_size cmp h s1 (f_id f) (context_parent fs) cl ka ta kb tb cr m' u ta' k' tb' ->
  kids_fit h ta -> kids_fit h tb ->
  max_of h / 2 <= Z.of_nat (size_of ta') -> max_of h / 2 <= Z.of_nat (size_of tb') ->
  rebuilt h f fs t (nodes (store s)) [] (TNode (f_id f) (cl ++ [(ka, ta'); (k', tb')] ++ cr)) m'.
Proof.
  intros H Hsplit Hothers Hn [(pp & HP & Hi) [Ha Hta] [Hb Htb] Hk Hkf Hids Hfr _] Hka Hkb Hsa Hsb.
  destruct (Hkf Hka Hkb) as [Ka Kb].
  apply (rebuild h f fs t s m' [] cl [(ka, ta); (kb, tb)] [(ka, ta'); (k', tb')] cr pp); try done.
  - rewrite !cells_app. cbn [cells map fst snd app]. by rewrite Hta, Htb.
  - by repeat constructor.
  - repeat constructor; cbn [snd]; by apply (fit_intro h false m' (f_id f)).
  - rewrite !forest_ids_cons. cbn. rewrite !app_nil_r. exact Hids.
  - intros q Hq. rewrite <- Hn. apply Hfr. rewrite !forest_ids_cons in Hq. cbn in Hq. by rewrite app_nil_r in Hq.
  - cbn [app]. rewrite !node_middle_tokens, !weave_cons.
    replace (tokens ta ++ Sep kb :: tokens tb ++ weave cr) with ((tokens ta ++ Sep kb :: tokens tb) ++ weave cr)
      by (by rewrite <- app_assoc).
    replace (tokens ta' ++ Sep k' :: tokens tb' ++ weave cr) with ((tokens ta' ++ Sep k' :: tokens tb') ++ weave cr)
      by (by rewrite <- app_assoc). by apply keeps_middle.
Qed.

Lemma rebuilt_loose h f fs t s D tp s2 :
  loose h (f :: fs) t s -> rebuilt h f fs t (nodes (store s)) D tp (nodes (store s2)) ->
  (if is_root fs then 1 else max_of (S h) / 2 - 1) <= Z.of_nat (size_of tp) ->
  f_id f ∈ pins (store s2) -> loose (S h) fs tp s2.
Proof.
  intros H R Hs Hp. pose proof R as [Hh Hc Hk Ht Hids Hfr _].
  pose proof (lo_nodup _ _ _ _ H) as Hnd. rewrite <- Hids in Hnd. apply NoDup_app in Hnd as (_ & _ & Hnd).
  assert (Hsub : forall q, q ∈ ids tp ++ context_ids fs -> q ∈ ids t ++ context_ids (f :: fs)).
  { intros q Hq. rewrite <- Hids. apply elem_of_app. by right. }
  split; try done.
  - by destruct (lo_cfit _ _ _ _ H) as (_ & _ & ?).
  - intros q Hq. by apply (lo_ids _ _ _ _ H), Hsub.
  - by rewrite Ht.
  - destruct (lo_header _ _ _ _ H) as (root & Hok). exists root. apply (header_ok_agree _ _ _ _ Hok), Hfr.
    intros Hq%(lo_ids _ _ _ _ H). lia.
Qed.

(** Between the two states, only the contents, the pins and what is unsaved differ. *)
Definition beside s s' : Prop :=
  trivial_page_id_ s' = trivial_page_id_ s /\ root_page_id_ s' = root_page_id_ s /\ next (store s') = next (store s) /\
  capacity (store s') = capacity (store s).

(** From the repair of the parent to the one of the child. *)
Lemma shrunk_up h f fs t s D tp s2 b s3 h' t' gone s4 :
  loose h (f :: fs) t s -> rebuilt h f fs t (nodes (store s)) D tp (nodes (store s2)) ->
  shrunk (S h) fs tp s2 b s3 h' t' ->
  (forall q, q ∈ D -> tree_page (nodes (store s2)) q) -> (gone = true -> tid t ∈ D) ->
  beside s s2 -> txn s2 = txn s -> beside s3 s4 -> nodes (store s4) = nodes (store s3) ->
  page_set_ (txn s4) = page_set_ (txn s3) -> pins (store s4) = pins (store s) ->
  unsaved (store s4) ⊆ unsaved (store s) ∪ {[tid t]} ->
  (forall q, q ∈ deleted_page_set_ (txn s4) ->
     q ∈ deleted_page_set_ (txn s3) \/ q ∈ D \/ (b = true /\ q = f_id f)) ->
  shrunk h (f :: fs) t s gone s4 h' t'.
Proof.
  intros H [_ _ _ Ht Hids Hfr Hkp] [Sh Sf Snd Sids Skn Sgo Sfr Snx _ _ Sde (Str & Sps & Sca) Skp Shh Sro Shd] HD Hgone
    (Tr2 & Ro2 & Nx2 & Ca2) Tx2 (Tr4 & Ro4 & Nx4 & Ca4) Hn4 Ps4 Pi4 Un4 De4.
  pose proof (lo_nodup _ _ _ _ H) as Hnd. rewrite <- Hids in Hnd. apply NoDup_app in Hnd as (_ & Hnd & _).
  assert (HI : forall q, q ∈ ids t ++ context_ids (f :: fs) <-> q ∈ D \/ q ∈ ids tp ++ context_ids fs).
  { intros q. by rewrite <- Hids, elem_of_app. }
  assert (HDt : forall q, q ∈ D -> q ∉ ids t') by (intros q Hq Hq'; by apply (Hnd q), Sids).
  split; try done; rewrite ?Hn4; try done.
  - intros q Hq. apply HI. right. by apply Sids.
  - intros q Hq. pose proof (lo_ids _ _ _ _ H q Hq) as Hb. apply HI in Hq as [Hq|Hq]; [|by apply Skn].
    destruct (HD q Hq) as (n & hd & Hn & Hrest). exists n, hd. split; [|done]. rewrite Sfr; [done|by apply Hnd|lia].
  - intros Hg. apply HDt. auto.
  - intros q Hq Hqh. rewrite Sfr; [by apply Hfr| |done]. intros Hq'. apply Hq, HI. by right.
  - congruence.
  - intros q [Hq|[Hq|[Hb ->]]]%De4.
    + apply Sde in Hq as [Hq|[Hq1 Hq2]]; [left; by rewrite <- Tx2|]. right. split; [apply HI; by right|done].
    + right. split; [apply HI; by left|by apply HDt].
    + right. rewrite <- Ht. split; [|by apply Sgo]. apply HI. right. apply elem_of_app. left. apply tid_ids.
  - rewrite Tr4, Str, Tr2, Ps4, Sps, Tx2, Ca4, Sca, Ca2. done.
  - by rewrite Hkp.
  - simpl. lia.
  - intros E. rewrite Ro4. apply Sro. rewrite Ro2, E. cbn [fill fold_left]. apply tid_fill. by rewrite Ht.
  - intros Hok. rewrite Ro4. apply Shd. rewrite Ro2. apply (header_ok_agree _ _ _ _ Hok), Hfr.
    intros Hq%(lo_ids _ _ _ _ H). lia.
Qed.
End Shrink.
End TreeShrink.
