(* ===== verification/TreeRepair.v ===== *)
(** * The runs of CoalesceOrRedistribute

    The choice of the sibling, the four outcomes, and the recursion up the tree, with the
    pins and the page sets they leave. *)

From stdpp Require Import prelude gmap gmultiset list sorting.
From Stdlib Require Import ZArith Lia.
From S2P Require Import Prelude HeaderPage BPlusTreePage LeafPage InternalPage TreeNodes BPlusTree.
From S2P Require Import TreeModel TreeSteps TreeInsert TreeMoves TreeShift TreeBalance TreeShrink.

Local Open Scope Z_scope.

Module TreeRepair.
Import BPage Nodes TreeModel BPlusTree TreeSteps TreeInsert TreeMoves TreeShift TreeBalance TreeShrink.

Section Pins.
Context {K V : Type}.
Implicit Types (s : State K V).

(** ** The siblings, pinned and released *)

Definition pin_opt (o : option Z) s : State K V := match o with Some q => pin_page q s | None => s end.

Lemma pin_opt_room o n s : room (S n) s -> room n (pin_opt o s).
Proof. intros H. destruct o as [q|]; [by apply room_more|apply (room_le _ _ _ H); lia]. Qed.

Lemma pin_opt_nodes o s : nodes (store (pin_opt o s)) = nodes (store s).
Proof. by destruct o. Qed.

Lemma pin_opt_in o q s : q ∈ pins (store s) -> q ∈ pins (store (pin_opt o s)).
Proof. intros H. destruct o; [by apply elem_of_pinned_r|done]. Qed.

Lemma pin_opt_self q s : q ∈ pins (store (pin_opt (Some q) s)).
Proof. apply elem_of_pinned. Qed.

(** Pages saved and released. *)
Definition closed (P : gmultiset Z) (l : list Z) s : State K V :=
  upd (nodes (store s)) P (unsaved (store s) ∖ list_to_set l) (next (store s)) s.

Lemma unpin_page_ok q P s :
  pins (store s) = {[+ q +]} ⊎ P -> tree_page (nodes (store s)) q -> q <> INVALID_PAGE_ID ->
  unpin_page q s = Ok (tt, closed P [q] s).
Proof.
  intros Hp Hq Hi. assert (Hin : q ∈ pins (store s)) by (rewrite Hp; apply elem_of_pinned).
  unfold unpin_page. rewrite (bind_run _ _ _ _ _ (tree_page_id_ok q s Hin Hq)).
  rewrite (bind_run _ _ _ _ _ (unpin_ok q s Hin Hi)). unfold ret, closed, drop_pin. rewrite Hp, unpin_pinned.
  do 2 f_equal. apply upd_eq; [done|done|done|]. clear. set_solver.
Qed.

(** What a sibling must be to be released. *)
Definition releasable (s : State K V) (o : option Z) : Prop :=
  match o with Some q => tree_page (nodes (store s)) q /\ q <> INVALID_PAGE_ID | None => True end.

Lemma close_siblings {A} (k : M K V A) lo ro P s s3 :
  pins (store s3) = pins (store (pin_opt ro (pin_opt lo (pin_page P s)))) -> releasable s3 lo -> releasable s3 ro ->
  (run! unpin_sibling lo ;; run! unpin_sibling ro ;; k) s3 =
  k (closed ({[+ P +]} ⊎ pins (store s)) (option_list lo ++ option_list ro) s3).
Proof.
  intros Hp Hl Hr. rewrite (bind_run _ _ s3 tt (closed (pins (store (pin_opt ro (pin_page P s)))) (option_list lo) s3)).
  2:{ destruct lo as [l|]; simpl.
      - destruct Hl as [Hl Hli]. apply unpin_page_ok; [|done|done]. rewrite Hp. destruct ro; simpl; multiset_solver.
      - unfold ret. do 2 f_equal. simpl in Hp. rewrite <- Hp. destruct s3 as [? ? [] ?]. unfold closed, upd, set_store. simpl.
        do 2 f_equal. clear. set_solver. }
  destruct ro as [r|]; cbn [unpin_sibling releasable option_list pin_opt] in *; [|by rewrite app_nil_r]. destruct Hr as [Hr Hri].
  pose proof (unpin_page_ok r ({[+ P +]} ⊎ pins (store s)) (closed (pins (store (pin_page r (pin_page P s)))) (option_list lo) s3)
                eq_refl Hr Hri) as E. rewrite (bind_run _ _ _ _ _ E).
  f_equal. unfold closed, upd, set_store. cbn [store nodes pins unsaved next capacity trivial_page_id_ root_page_id_ txn].
  do 2 f_equal. clear. set_solver.
Qed.

Lemma close_parent {A} (f : Z -> M K V A) P Q s :
  pins (store s) = {[+ P +]} ⊎ Q -> tree_page (nodes (store s)) P -> P <> INVALID_PAGE_ID ->
  (let! id := GetPageId P in run! UnpinPage id true ;; f id) s = f P (closed Q [P] s).
Proof.
  intros Hp HP Hi. assert (Hin : P ∈ pins (store s)) by (rewrite Hp; apply elem_of_pinned).
  rewrite (bind_run _ _ _ _ _ (tree_page_id_ok P s Hin HP)), (bind_run _ _ _ _ _ (unpin_ok P s Hin Hi)).
  f_equal. unfold closed, drop_pin. rewrite Hp, unpin_pinned. apply upd_eq; [done|done|done|]. clear. set_solver.
Qed.

Lemma bind_ext {A B} (m : M K V A) (f g : A -> M K V B) s : (forall x s', f x s' = g x s') -> bind m f s = bind m g s.
Proof. intros H. unfold bind. destruct (m s) as [[x s']|]; [apply H|done]. Qed.

Lemma unpin_page_bind {A} (k : M K V A) P s :
  (run! unpin_page P ;; k) s = (let! id := GetPageId P in run! UnpinPage id true ;; k) s.
Proof.
  unfold unpin_page, bind. destruct (GetPageId P s) as [[x s1]|]; [|done]. simpl.
  by destruct (UnpinPage x true s1) as [[y s2]|].
Qed.

(** The page [P] in the deleted pages, where [b] says so. *)
Definition mark (b : bool) (P : Z) s : State K V :=
  if b then set_txn (mkTxn (page_set_ (txn s)) ({[P]} ∪ deleted_page_set_ (txn s))) s else s.

Lemma mark_ok b P s : when (b && true) (add_deleted P) s = Ok (tt, mark b P s).
Proof. by destruct b. Qed.
End Pins.
Section Repair.
Context {K V : Type} (key_size value_size : Z) (zero_key : K) (zero_value : V).
Context (index_name : list Z) (cmp : K -> K -> Z) `{!KeyOrder cmp}.
Implicit Types (s : State K V) (m : gmap Z (Node K V)) (t : tree K V) (fs : list (frame K V)).

Abbreviation internal_max := (internal_max key_size).
Abbreviation max_of := (max_of key_size value_size).
Abbreviation kids_fit := (kids_fit key_size value_size).
Abbreviation internal_is := (internal_is key_size).
Abbreviation holds := (holds key_size value_size).
Abbreviation twins := (twins key_size value_size).
Abbreviation loose := (loose key_size value_size index_name).
Abbreviation shrunk := (shrunk key_size value_size index_name cmp).
Abbreviation repairs := (repairs key_size value_size index_name cmp).
Abbreviation settle := (settle key_size zero_key index_name).
Abbreviation Redistribute := (Redistribute key_size value_size zero_key zero_value).
Abbreviation fetch_sibling := (fetch_sibling key_size zero_key).
Abbreviation merge_siblings := (merge_siblings key_size value_size zero_key zero_value index_name).
Abbreviation CoalesceOrRedistribute := (CoalesceOrRedistribute key_size value_size zero_key zero_value index_name).

Context (Hsizes : sizes_ok key_size value_size) (Hname : Header.name_ok index_name) (H4 : 4 <= internal_max).

(** ** The siblings of the page *)

Definition left_tree (f : frame K V) : option (tree K V) := snd <$> last (f_left f).
Definition right_tree (f : frame K V) : option (tree K V) := snd <$> head (f_right f).

(** Entries to spare. *)
Definition spare (h : nat) t (o : option (tree K V)) : bool :=
  match o with Some x => bool_decide (max_of h <= Z.of_nat (size_of t + size_of x)) | None => false end.

(** CoalesceOrRedistribute from the page [parent_page], whose contents are [parent]. *)
Definition balance (again : Z -> M K V bool) (kind : Kind) (node parent_page : Z)
    (parent : Internal.BPlusTreeInternalPage K) (node_index : Z) : M K V bool :=
  let! left_sibling :=
    if 0 <=? node_index - 1 then
      let! p := fetch_sibling parent_page (node_index - 1) in ret (Some p)
    else ret None in
  let! left_rich := match left_sibling with Some p => rich node p | None => ret false end in
  if left_rich : bool then
    run! match left_sibling with Some p => Redistribute kind p node 1 | None => ret tt end ;;
    run! unpin_sibling left_sibling ;;
    run! unpin_page parent_page ;;
    ret false
  else
    let! right_sibling :=
      if node_index + 1 <? Internal.GetSize parent then
        let! p := fetch_sibling parent_page (node_index + 1) in ret (Some p)
      else ret None in
    let! right_rich := match right_sibling with Some p => rich node p | None => ret false end in
    if right_rich : bool then
      run! match right_sibling with Some p => Redistribute kind p node 0 | None => ret tt end ;;
      run! unpin_sibling left_sibling ;;
      run! unpin_sibling right_sibling ;;
      run! unpin_page parent_page ;;
      ret false
    else merge_siblings again true kind node parent_page left_sibling right_sibling.

(** The page of the parent. *)
Definition parent_is (f : frame K V) fs t s (pp : Internal.BPlusTreeInternalPage K) : Prop :=
  nodes (store s) !! f_id f = Some (InternalNode pp) /\ internal_is (context_parent fs) (f_id f) (cells (narrow f t)) pp.

Lemma loose_parent h f fs t s : loose h (f :: fs) t s -> exists pp, parent_is f fs t s pp.
Proof.
  intros H. destruct (lo_context _ _ _ _ _ _ _ H) as ((pp & Hp & Hi) & _). exists pp. split; [done|].
  unfold narrow. by rewrite cells_app.
Qed.

Lemma parent_valid h f fs t s : loose h (f :: fs) t s -> f_id f <> INVALID_PAGE_ID.
Proof. intros H. apply (loose_valid _ _ _ _ _ _ _ _ H), elem_of_app. right. left. Qed.

Lemma enter_balance fuel h f fs t s n :
  loose h (f :: fs) t s -> Z.of_nat (size_of t) < max_of h / 2 -> room (S n) s ->
  exists pp, parent_is f fs t s pp /\
    CoalesceOrRedistribute (S fuel) true (kind_of h) (tid t) s =
    balance (CoalesceOrRedistribute fuel true KInternal) (kind_of h) (tid t) (f_id f) pp
            (Z.of_nat (length (f_left f))) (pin_page (f_id f) s).
Proof.
  intros H Hs Hr. destruct (loose_parent _ _ _ _ _ H) as (pp & Hpp & Hi). exists pp. split; [done|].
  destruct (holds_header _ _ _ _ _ _ (lo_holds _ _ _ _ _ _ _ H)) as (n0 & hd & Hn & Hh & Hid & Hpar & Hsz & Hmx & _ & _).
  pose proof (parent_valid _ _ _ _ _ H) as HP. cbn [BPlusTree.CoalesceOrRedistribute].
  rewrite (bind_run _ _ _ _ _ (get_page_ok _ _ _ s (lo_pin _ _ _ _ _ _ _ H) Hn Hh)). cbv zeta. rewrite Hpar.
  cbn [context_parent]. rewrite (bind_run _ _ s tt s) by (by apply asserts_ok, negb_true_iff, Z.eqb_neq).
  rewrite (min_size _ _ Hsizes _ _ Hmx), Hsz, (proj2 (Z.leb_gt _ _)) by done.
  rewrite (bind_run _ _ _ _ _ (fetch_data_ok (f_id f) s n Hr HP (mk_is_Some _ _ Hpp))). set (s1 := pin_page _ s).
  erewrite bind_run by (apply (get_internal_ok _ _ (f_id f) (InternalNode pp)); [apply elem_of_pinned|done|done]).
  rewrite (bind_run _ _ s1 (Z.of_nat (length (f_left f))) s1); [done|]. apply lift_ok.
  rewrite Internal.value_index_ok, (ii_entries _ _ _ _ _ Hi), Hid by apply Hi. unfold narrow.
  rewrite cells_app. cbn [cells map fst snd]. rewrite (first_cell (cells (f_left f)) (f_key f, tid t)).
  - simpl. by rewrite cells_length.
  - intros Hq%tid_forest. pose proof (lo_nodup _ _ _ _ _ _ _ H) as Hnd. apply NoDup_app in Hnd as (_ & Hnd & _).
    apply (Hnd (tid t)); [apply tid_ids|]. rewrite context_ids_cons. unfold frame_ids.
    rewrite elem_of_app, elem_of_cons, elem_of_app. tauto.
Qed.

Lemma fetch_sibling_ok f fs t s pp i k x n :
  parent_is f fs t s pp -> f_id f ∈ pins (store s) -> narrow f t !! i = Some (k, x) ->
  is_Some (nodes (store s) !! tid x) -> tid x <> INVALID_PAGE_ID -> room (S n) s ->
  fetch_sibling (f_id f) (Z.of_nat i) s = Ok (tid x, pin_page (tid x) s).
Proof.
  intros [Hpp Hi] Hin Hx Hn Hv Hr. unfold BPlusTree.fetch_sibling.
  erewrite bind_run by (by apply (get_internal_ok _ _ (f_id f) (InternalNode pp))).
  rewrite (bind_run _ _ s (tid x) s); [by apply (fetch_data_ok _ _ n)|]. apply lift_ok.
  apply (Internal.internal_value_at_ok pp i (k, tid x)); [apply Hi|]. rewrite (ii_entries _ _ _ _ _ Hi).
  unfold cells. by rewrite list_lookup_fmap, Hx.
Qed.
(** ** The trees in hand *)

Definition open_parent (f : frame K V) (lo ro : option Z) s : State K V :=
  pin_opt ro (pin_opt lo (pin_page (f_id f) s)).

Lemma open_nodes f lo ro s : nodes (store (open_parent f lo ro s)) = nodes (store s).
Proof. unfold open_parent. by rewrite !pin_opt_nodes. Qed.

Lemma open_beside f lo ro s : beside s (open_parent f lo ro s) /\ txn (open_parent f lo ro s) = txn s /\
  unsaved (store (open_parent f lo ro s)) = unsaved (store s).
Proof. by destruct lo, ro. Qed.

Lemma open_in f lo ro s q : q ∈ pins (store s) -> q ∈ pins (store (open_parent f lo ro s)).
Proof. intros H. by apply pin_opt_in, pin_opt_in, elem_of_pinned_r. Qed.

Lemma open_parent_in f lo ro s : f_id f ∈ pins (store (open_parent f lo ro s)).
Proof. apply pin_opt_in, pin_opt_in, elem_of_pinned. Qed.

Lemma open_room f lo ro s n : room (S (S (S n))) s -> room n (open_parent f lo ro s).
Proof. intros H. by apply pin_opt_room, pin_opt_room, room_more. Qed.

(** A neighbour of the hole. *)
Definition neighbour (f : frame K V) t (x : tree K V) cl ka (ta : tree K V) kb (tb : tree K V) cr : Prop :=
  narrow f t = cl ++ [(ka, ta); (kb, tb)] ++ cr /\
  (forall kc, kc ∈ cl ++ cr -> kc ∈ f_left f ++ f_right f) /\
  (exists k, (k, x) ∈ f_left f ++ f_right f) /\ (ta = x /\ tb = t \/ ta = t /\ tb = x).

Lemma neighbour_left f t x :
  left_tree f = Some x -> exists cl ka, neighbour f t x cl ka x (f_key f) t (f_right f) /\ length (f_left f) = S (length cl).
Proof.
  unfold left_tree. destruct (f_left f) as [|y cl _] eqn:E using rev_ind; [done|]. rewrite last_snoc. intros [= <-].
  exists cl, y.1. destruct y as [k y]. unfold neighbour, narrow. rewrite E. split; [|rewrite length_app; simpl; lia].
  split; [by rewrite <- app_assoc|]. split; [intros kc; set_solver|]. split; [exists k; set_solver|by left].
Qed.

Lemma neighbour_right f t x :
  right_tree f = Some x -> exists kb cr, neighbour f t x (f_left f) (f_key f) t kb x cr.
Proof.
  unfold right_tree. destruct (f_right f) as [|[k y] cr] eqn:E; [done|]. intros [= <-]. exists k, cr.
  unfold neighbour, narrow. rewrite E. split; [done|]. split; [intros kc; set_solver|]. split; [exists k; set_solver|by right].
Qed.

Lemma sibling_trees h f fs t s k x :
  loose h (f :: fs) t s -> (k, x) ∈ f_left f ++ f_right f ->
  holds h (nodes (store s)) (f_id f) x /\ max_of h / 2 <= Z.of_nat (size_of x) /\ kids_fit h x /\
  tid x ∈ ids t ++ context_ids (f :: fs).
Proof.
  intros H Hx. destruct (lo_context _ _ _ _ _ _ _ H) as (_ & Hh & _). destruct (lo_cfit _ _ _ _ _ _ _ H) as (_ & Hf & _).
  rewrite Forall_forall in Hh, Hf. destruct (fit_size _ _ _ _ _ (Hf _ Hx)) as [H1 H2]. split; [by apply (Hh (k, x))|].
  split; [done|]. split; [done|]. apply elem_of_app. right. rewrite context_ids_cons. apply elem_of_app. left. right.
  rewrite <- forest_ids_app. apply elem_of_forest. exists (k, x). split; [done|apply tid_ids].
Qed.

Lemma neighbour_twins h f fs t s s1 x cl ka ta kb tb cr :
  loose h (f :: fs) t s -> neighbour f t x cl ka ta kb tb cr -> nodes (store s1) = nodes (store s) ->
  twins h (nodes (store s1)) (f_id f) (context_parent fs) cl ka ta kb tb cr /\
  kids_fit h ta /\ kids_fit h tb.
Proof.
  intros H (Hsplit & _ & (k & Hk) & Hor) ->. destruct (sibling_trees _ _ _ _ _ _ _ H Hk) as (Hx & _ & Kx & _).
  destruct (loose_parent _ _ _ _ _ H) as (pp & Hpp & Hi). pose proof (lo_holds _ _ _ _ _ _ _ H) as Ht.
  pose proof (lo_kids _ _ _ _ _ _ _ H) as Kt. pose proof (hole_ids f fs t) as E.
  assert (Hab : holds h (nodes (store s)) (f_id f) ta /\ holds h (nodes (store s)) (f_id f) tb /\ kids_fit h ta /\ kids_fit h tb)
    by (destruct Hor as [[-> ->]|[-> ->]]; done).
  destruct Hab as (Ha & Hb & Ka & Kb). split; [|done]. cbn [app] in Hsplit. rewrite Hsplit in *. split; try done.
  - exists pp. split; [done|]. by rewrite cells_app in Hi.
  - pose proof (lo_nodup _ _ _ _ _ _ _ H) as Hnd. rewrite E in Hnd. rewrite app_comm_cons in Hnd.
    by apply NoDup_app in Hnd as (Hnd & _).
  - intros q Hq. apply (loose_valid _ _ _ _ _ _ _ q H). rewrite E, forest_ids_app, !forest_ids_cons.
    rewrite elem_of_cons, !elem_of_app. rewrite elem_of_cons, elem_of_app in Hq. tauto.
Qed.

(** A page one short of half full. *)
Lemma loose_sizes h f fs t s :
  loose h (f :: fs) t s ->
  max_of h / 2 - 1 <= Z.of_nat (size_of t) /\ 1 <= max_of h / 2 /\ 2 * (max_of h / 2) <= max_of h /\
  (h <> O -> 1 <= size_of t)%nat.
Proof.
  intros H. pose proof (lo_size _ _ _ _ _ _ _ H) as Hs. cbn [is_root] in Hs.
  pose proof (max_bounds _ _ Hsizes h) as Hb. split; [done|]. split; [apply Z.div_le_lower_bound; lia|].
  split; [apply Z.mul_div_le; lia|]. intros Hh. destruct h as [|h]; [done|]. cbn [TreeBalance.max_of] in Hs.
  assert (2 <= internal_max / 2) by (apply Z.div_le_lower_bound; lia). lia.
Qed.
(** ** The outcomes *)

Section Outcomes.
Context (h : nat) (f : frame K V) (fs : list (frame K V)) (t : tree K V) (s : State K V) (lo ro : option Z).
Let s1 : State K V := open_parent f lo ro s.
Context (H : loose h (f :: fs) t s).
Context (Hopen : forall q, q ∈ option_list lo ++ option_list ro -> q ∈ ids t ++ context_ids (f :: fs)).

(** The pages of the tree after the move can be released. *)
Lemma open_releasable s3 :
  (forall q, q ∈ ids t ++ context_ids (f :: fs) -> tree_page (nodes (store s3)) q) -> releasable s3 lo /\ releasable s3 ro.
Proof.
  intros Hk. assert (Hq : forall q, q ∈ option_list lo ++ option_list ro -> tree_page (nodes (store s3)) q /\ q <> INVALID_PAGE_ID).
  { intros q Hq. split; [by apply Hk, Hopen|]. by apply (loose_valid _ _ _ _ _ _ _ _ H), Hopen. }
  split; [destruct lo as [q|]|destruct ro as [q|]]; simpl; try done; apply Hq; set_solver.
Qed.

(** The end of a repair: the pages it opened are released. *)
Lemma released {A} (g : Z -> M K V A) s3 :
  pins (store s3) = pins (store s1) ->
  (forall q, q ∈ ids t ++ context_ids (f :: fs) -> tree_page (nodes (store s3)) q) ->
  (run! unpin_sibling lo ;; run! unpin_sibling ro ;;
   let! parent_id := GetPageId (f_id f) in run! UnpinPage parent_id true ;; g parent_id) s3 =
  g (f_id f) (closed (pins (store s)) (f_id f :: option_list lo ++ option_list ro) s3).
Proof.
  intros Hp Hk. destruct (open_releasable s3 Hk) as [Hl Hr]. rewrite (close_siblings _ lo ro (f_id f) s s3 Hp Hl Hr).
  rewrite (close_parent g (f_id f) (pins (store s))); [|done| |by apply (parent_valid _ _ _ _ _ H)].
  - f_equal. unfold closed, upd, set_store. cbn [store nodes pins unsaved next capacity trivial_page_id_ root_page_id_ txn].
    do 2 f_equal. clear. set_solver.
  - cbn [closed upd set_store store nodes]. apply Hk, elem_of_app. right. left.
Qed.

Lemma closed_unsaved (s3 : State K V) :
  unsaved (store s3) ⊆ unsaved (store s) ∪ {[tid t]} ∪ list_to_set (f_id f :: option_list lo ++ option_list ro) ->
  forall P, unsaved (store (closed P (f_id f :: option_list lo ++ option_list ro) s3)) ⊆ unsaved (store s) ∪ {[tid t]}.
Proof. intros Hu P. cbn [closed upd set_store store unsaved]. clear - Hu. set_solver. Qed.

Lemma rotated_repairs x cl ka ta kb tb cr m' u' ta' k' tb' :
  neighbour f t x cl ka ta kb tb cr -> tid x ∈ option_list lo ++ option_list ro ->
  rotated key_size value_size cmp h s1 (f_id f) (context_parent fs) cl ka ta kb tb cr m' u' ta' k' tb' ->
  max_of h / 2 <= Z.of_nat (size_of ta') -> max_of h / 2 <= Z.of_nat (size_of tb') ->
  repairs (fun _ => (run! unpin_sibling lo ;; run! unpin_sibling ro ;; run! unpin_page (f_id f) ;; ret false) (edit m' u' s1))
          h (f :: fs) t s.
Proof.
  intros Hnb Hx Hrot Hsa Hsb. set (s2 := edit m' u' s1). pose proof (open_nodes f lo ro s) as Hn1.
  destruct (neighbour_twins _ _ _ _ _ s1 _ _ _ _ _ _ _ H Hnb Hn1) as (_ & Ka & Kb).
  destruct Hnb as (Hsplit & Hothers & _ & Hor).
  pose proof (rotated_rebuilt _ _ _ _ h f fs t s s1 cl ka ta kb tb cr m' u' ta' k' tb' H Hsplit Hothers Hn1 Hrot Ka Kb Hsa Hsb) as R.
  set (tp := TNode _ _) in R. destruct (lo_cfit _ _ _ _ _ _ _ H) as (Hlen & _).
  assert (Hsize : Z.of_nat (size_of tp) = Z.of_nat (length (f_left f) + 1 + length (f_right f))).
  { rewrite <- (narrow_length f t), Hsplit. unfold tp. cbn [size_of]. rewrite !length_app. done. }
  assert (L : loose (S h) fs tp s2).
  { apply (rebuilt_loose _ _ _ cmp h f fs t s [] tp s2 H R); [|apply open_parent_in].
    rewrite Hsize. pose proof (max_bounds _ _ Hsizes (S h)). destruct (is_root fs); [lia|]. cbn [TreeBalance.max_of]. lia. }
  pose proof (shrunk_still _ _ _ cmp (S h) fs tp s2 L) as St.
  assert (St' : shrunk (S h) fs tp s2 false s2 (length fs + S h) (fill fs tp)).
  { apply St. rewrite Hsize. destruct (is_root fs); cbn [root_min TreeBalance.max_of]; lia. }
  assert (Hk : forall q, q ∈ ids t ++ context_ids (f :: fs) -> tree_page (nodes (store s2)) q).
  { intros q Hq. apply (sh_known _ _ _ _ _ _ _ _ _ _ _ _ St'). by rewrite <- (rb_ids _ _ _ _ _ _ _ _ _ _ _ R) in Hq. }
  exists false, (closed (pins (store s)) (f_id f :: option_list lo ++ option_list ro) s2), (length fs + S h)%nat, (fill fs tp).
  split.
  - etrans; [|exact (released (fun _ => ret false) s2 eq_refl Hk)].
    apply bind_ext. intros [] z. apply bind_ext. intros [] z'. apply unpin_page_bind.
  - destruct (open_beside f lo ro s) as ((B1 & B2 & B3 & B4) & Htx & Hun).
    apply (shrunk_up _ _ _ _ h f fs t s [] tp s2 false s2 _ _ false _ H R St'); try done.
    + by intros q ?%not_elem_of_nil.
    + apply closed_unsaved. pose proof (rt_unsaved _ _ _ _ _ _ _ _ _ _ _ _ _ _ _ _ _ _ Hrot) as Hu.
      fold s1 in Hun. rewrite Hun in Hu. cbn [s2 edit upd set_store store unsaved].
      clear - Hu Hor Hx. destruct Hor as [[-> ->]|[-> ->]]; set_solver.
    + auto.
Qed.

(** The call for the parent. *)
Context (again : Z -> M K V bool).
Context (Hagain : forall tp s', loose (S h) fs tp s' -> room (3 * length fs + 2) s' -> fs <> [] ->
  Z.of_nat (size_of tp) < max_of (S h) / 2 -> repairs (again (tid tp)) (S h) fs tp s').

Lemma merged_settled x cl ka ta kb tb cr m' u' ta' :
  neighbour f t x cl ka ta kb tb cr ->
  merged key_size value_size cmp h s1 (f_id f) (context_parent fs) cl ka ta kb tb cr m' u' ta' ->
  max_of h / 2 <= Z.of_nat (size_of ta + size_of tb) -> room (3 * length fs + 2) s1 ->
  exists tp b s3 h' t', settle again (f_id f) (edit m' u' s1) = Ok (b, s3) /\
    rebuilt key_size value_size cmp h f fs t (nodes (store s)) [tid tb] tp m' /\
    shrunk (S h) fs tp (edit m' u' s1) b s3 h' t'.
Proof.
  intros Hnb Hmg Hs Hr. pose proof (open_nodes f lo ro s) as Hn1.
  destruct (neighbour_twins _ _ _ _ _ s1 _ _ _ _ _ _ _ H Hnb Hn1) as (_ & Ka & Kb).
  destruct Hnb as (Hsplit & Hothers & _).
  pose proof (merged_rebuilt _ _ _ _ h f fs t s s1 cl ka ta kb tb cr m' u' ta' H Hsplit Hothers Hn1 Hmg Ka Kb Hs) as R.
  set (tp := TNode _ _) in R. destruct (lo_cfit _ _ _ _ _ _ _ H) as (Hlen & _).
  assert (Hsize : Z.of_nat (size_of tp) = Z.of_nat (length (f_left f) + 1 + length (f_right f)) - 1).
  { rewrite <- (narrow_length f t), Hsplit. unfold tp. cbn [size_of]. rewrite !length_app. simpl. lia. }
  assert (L : loose (S h) fs tp (edit m' u' s1)).
  { apply (rebuilt_loose _ _ _ cmp h f fs t s [tid tb] tp (edit m' u' s1) H R); [|apply open_parent_in].
    rewrite Hsize. cbn [TreeBalance.max_of]. destruct (is_root fs); lia. }
  destruct (settle_ok _ _ zero_key _ cmp Hsizes Hname H4 again h fs tp (edit m' u' s1) (3 * length fs + 1) L) as (b & s3 & h' & t' & Hrun & Sh).
  { apply (room_le _ _ _ Hr). lia. }
  { intros Hne Hlt. by apply Hagain. }
  exists tp, b, s3, h', t'. by split; [exact Hrun|].
Qed.

(** The pages of the two trees are known after the merge and the repair of the parent. *)
Lemma merged_known cl ka ta kb tb cr m' u' ta' tp b s3 h' t' q :
  merged key_size value_size cmp h s1 (f_id f) (context_parent fs) cl ka ta kb tb cr m' u' ta' ->
  rebuilt key_size value_size cmp h f fs t (nodes (store s)) [tid tb] tp m' ->
  shrunk (S h) fs tp (edit m' u' s1) b s3 h' t' ->
  q ∈ ids t ++ context_ids (f :: fs) -> tree_page (nodes (store s3)) q.
Proof.
  intros Hmg R Sh Hq. pose proof (lo_ids _ _ _ _ _ _ _ H q Hq) as Hb.
  pose proof (lo_nodup _ _ _ _ _ _ _ H) as Hnd. rewrite <- (rb_ids _ _ _ _ _ _ _ _ _ _ _ R) in Hnd.
  rewrite <- (rb_ids _ _ _ _ _ _ _ _ _ _ _ R) in Hq. apply elem_of_app in Hq as [Hq|Hq].
  - apply NoDup_app in Hnd as (_ & Hnd & _). specialize (Hnd q Hq). apply list_elem_of_singleton in Hq as ->.
    destruct (mg_dead _ _ _ _ _ _ _ _ _ _ _ _ _ _ _ _ Hmg) as (n & hd & Hn & Hrest). exists n, hd. split; [|done].
    rewrite (sh_frame _ _ _ _ _ _ _ _ _ _ _ _ Sh); [done|done|lia].
  - by apply (sh_known _ _ _ _ _ _ _ _ _ _ _ _ Sh).
Qed.

Lemma merged_shrunk x cl ka ta kb tb cr m' u' ta' tp b s3 h' t' gone s4 :
  neighbour f t x cl ka ta kb tb cr ->
  merged key_size value_size cmp h s1 (f_id f) (context_parent fs) cl ka ta kb tb cr m' u' ta' ->
  rebuilt key_size value_size cmp h f fs t (nodes (store s)) [tid tb] tp m' ->
  shrunk (S h) fs tp (edit m' u' s1) b s3 h' t' ->
  (gone = true -> tid t = tid tb) -> beside s3 s4 -> nodes (store s4) = nodes (store s3) ->
  page_set_ (txn s4) = page_set_ (txn s3) -> pins (store s4) = pins (store s) ->
  unsaved (store s4) ⊆ unsaved (store s3) ∖ list_to_set (f_id f :: option_list lo ++ option_list ro) ->
  tid x ∈ option_list lo ++ option_list ro ->
  (forall q, q ∈ deleted_page_set_ (txn s4) ->
     q ∈ deleted_page_set_ (txn s3) \/ q = tid tb \/ (b = true /\ q = f_id f)) ->
  shrunk h (f :: fs) t s gone s4 h' t'.
Proof.
  intros Hnb Hmg R Sh Hg B4 Hn4 Hps Hpi Hun Hx Hde. destruct (open_beside f lo ro s) as (B1 & Htx & Hu1).
  apply (shrunk_up _ _ _ _ h f fs t s [tid tb] tp (edit m' u' s1) b s3 h' t' gone s4 H R Sh); try done.
  - intros q ->%list_elem_of_singleton. by apply Hmg.
  - intros Hgt. rewrite Hg by done. left.
  - pose proof (mg_unsaved _ _ _ _ _ _ _ _ _ _ _ _ _ _ _ _ Hmg) as Hu. fold s1 in Hu1. rewrite Hu1 in Hu.
    pose proof (sh_unsaved _ _ _ _ _ _ _ _ _ _ _ _ Sh) as Hu3. cbn [edit upd set_store store unsaved] in Hu3.
    rewrite (rb_tid _ _ _ _ _ _ _ _ _ _ _ R) in Hu3. destruct Hnb as (_ & _ & _ & Hor).
    clear - Hun Hu Hu3 Hor Hx. destruct Hor as [[-> ->]|[-> ->]]; set_solver.
  - intros q Hq. apply Hde in Hq as [Hq|[->|Hq]]; [by left|right; left; left|by right; right].
Qed.
End Outcomes.

(** ** The two merges *)

Section Merges.
Context (h : nat) (f : frame K V) (fs : list (frame K V)) (t : tree K V) (s : State K V).
Context (H : loose h (f :: fs) t s) (again : Z -> M K V bool).
Context (Hagain : forall tp s', loose (S h) fs tp s' -> room (3 * length fs + 2) s' -> fs <> [] ->
  Z.of_nat (size_of tp) < max_of (S h) / 2 -> repairs (again (tid tp)) (S h) fs tp s').

Lemma coalesce_settle kind neighbor node parent s1 s2 :
  move_all key_size value_size zero_key zero_value kind node neighbor s1 = Ok (tt, s2) ->
  Coalesce key_size value_size zero_key zero_value index_name again kind neighbor node parent s1 = settle again parent s2.
Proof. intros Hm. unfold Coalesce. by rewrite (bind_run _ _ _ _ _ Hm). Qed.

Lemma known_sibling k x : (k, x) ∈ f_left f ++ f_right f -> tid x ∈ ids t ++ context_ids (f :: fs).
Proof. intros Hx. by destruct (sibling_trees _ _ _ _ _ _ _ H Hx) as (_ & _ & _ & ?). Qed.

Lemma merge_left_repairs x ro cl ka kb cr :
  neighbour f t x cl ka x kb t cr -> (forall q, q ∈ option_list ro -> q ∈ ids t ++ context_ids (f :: fs)) ->
  room (3 * length fs + 5) s -> Z.of_nat (size_of x + size_of t) < max_of h ->
  repairs (fun _ => merge_siblings again true (kind_of h) (tid t) (f_id f) (Some (tid x)) ro (open_parent f (Some (tid x)) ro s))
          h (f :: fs) t s.
Proof.
  intros Hnb Hro Hr Hlt. pose proof Hnb as (_ & _ & (k & Hk) & _). set (lo := Some (tid x)). set (s1 := open_parent f lo ro s).
  destruct (sibling_trees _ _ _ _ _ _ _ H Hk) as (_ & Hx & _ & Hxi). destruct (loose_sizes _ _ _ _ _ H) as (S1 & S2 & S3 & S4).
  assert (Hopen : forall q, q ∈ option_list lo ++ option_list ro -> q ∈ ids t ++ context_ids (f :: fs)).
  { intros q [->%list_elem_of_singleton|Hq]%elem_of_app; [done|by apply Hro]. }
  pose proof (open_nodes f lo ro s) as Hn1.
  destruct (neighbour_twins _ _ _ _ _ s1 _ _ _ _ _ _ _ H Hnb Hn1) as (Htw & _).
  assert (Hr1 : room (3 * length fs + 2) s1) by (apply open_room, (room_le _ _ _ Hr); lia).
  destruct (merge_ok key_size value_size zero_key zero_value cmp h s1 _ _ _ _ _ _ _ _ Htw) as (m' & u' & ta' & Hmv & Hmg).
  { apply pin_opt_in, elem_of_pinned. } { apply open_in, (lo_pin _ _ _ _ _ _ _ H). }
  { apply (room_le _ _ _ Hr1). lia. } { intros Hh. split; [lia|by apply S4]. } { lia. }
  destruct (merged_settled h f fs t s lo ro H again Hagain x cl ka x kb t cr m' u' ta' Hnb Hmg) as
    (tp & b & s3 & h' & t' & Hset & R & Sh); [lia|done|].
  pose proof (fun q => merged_known h f fs t s lo ro H cl ka x kb t cr m' u' ta' tp b s3 h' t' q Hmg R Sh) as Hkn.
  set (s4 := closed (pins (store s)) (f_id f :: option_list lo ++ option_list ro) s3).
  exists true, (mark b (f_id f) s4), h', t'. split.
  - unfold BPlusTree.merge_siblings, lo. cbv iota. rewrite bind_bind.
    rewrite (bind_run _ _ s1 b s3) by (rewrite (coalesce_settle _ _ _ _ _ _ Hmv); exact Hset).
    rewrite (bind_run _ _ s3 (b, ro, true) s3 eq_refl). cbv beta iota.
    etrans; [apply (released h f fs t s lo ro H Hopen
      (fun parent_id => run! when (b && true) (add_deleted parent_id) ;; ret true) s3 (sh_pins _ _ _ _ _ _ _ _ _ _ _ _ Sh) Hkn)|].
    by rewrite (bind_run _ _ _ _ _ (mark_ok b (f_id f) s4)).
  - apply (merged_shrunk h f fs t s lo ro H x cl ka x kb t cr m' u' ta' tp b s3 h' t' true _ Hnb Hmg R Sh);
      try done; try (by destruct b).
    + rewrite elem_of_app. left. left.
    + intros q. destruct b; cbn [mark set_txn txn deleted_page_set_]; [|auto].
      rewrite elem_of_union, elem_of_singleton. intros [->|Hq]; auto.
Qed.

Lemma merge_right_repairs x cl ka kb cr :
  neighbour f t x cl ka t kb x cr -> room (3 * length fs + 5) s -> Z.of_nat (size_of t + size_of x) < max_of h ->
  repairs (fun _ => merge_siblings again true (kind_of h) (tid t) (f_id f) None (Some (tid x)) (open_parent f None (Some (tid x)) s))
          h (f :: fs) t s.
Proof.
  intros Hnb Hr Hlt. pose proof Hnb as (_ & _ & (k & Hk) & _). set (ro := Some (tid x)). set (s1 := open_parent f None ro s).
  destruct (sibling_trees _ _ _ _ _ _ _ H Hk) as (_ & Hx & _ & Hxi). destruct (loose_sizes _ _ _ _ _ H) as (S1 & S2 & S3 & S4).
  assert (Hopen : forall q, q ∈ option_list None ++ option_list ro -> q ∈ ids t ++ context_ids (f :: fs))
    by (by intros q ->%list_elem_of_singleton).
  pose proof (open_nodes f None ro s) as Hn1.
  destruct (neighbour_twins _ _ _ _ _ s1 _ _ _ _ _ _ _ H Hnb Hn1) as (Htw & _).
  assert (Hr1 : room (3 * length fs + 2) s1) by (apply open_room, (room_le _ _ _ Hr); lia).
  destruct (merge_ok key_size value_size zero_key zero_value cmp h s1 _ _ _ _ _ _ _ _ Htw) as (m' & u' & ta' & Hmv & Hmg).
  { apply open_in, (lo_pin _ _ _ _ _ _ _ H). } { apply elem_of_pinned. }
  { apply (room_le _ _ _ Hr1). lia. } { intros Hh. split; [by apply S4|lia]. } { lia. }
  destruct (merged_settled h f fs t s None ro H again Hagain x cl ka t kb x cr m' u' ta' Hnb Hmg) as
    (tp & b & s3 & h' & t' & Hset & R & Sh); [lia|done|].
  pose proof (fun q => merged_known h f fs t s None ro H cl ka t kb x cr m' u' ta' tp b s3 h' t' q Hmg R Sh) as Hkn.
  pose proof (sh_pins _ _ _ _ _ _ _ _ _ _ _ _ Sh) as Hp3.
  set (s4 := mark true (tid x) (closed ({[+ f_id f +]} ⊎ pins (store s)) [tid x] s3)).
  set (s5 := closed (pins (store s)) [f_id f] s4).
  exists false, (mark b (f_id f) s5), h', t'. split.
  - unfold BPlusTree.merge_siblings, ro. cbv iota. rewrite bind_bind, (bind_run _ _ s1 (tid x) s1 eq_refl).
    rewrite bind_bind, (bind_run _ _ s1 b s3) by (rewrite (coalesce_settle _ _ _ _ _ _ Hmv); exact Hset).
    assert (Hin : tid x ∈ pins (store s3)) by (rewrite Hp3; apply elem_of_pinned).
    rewrite bind_bind, (bind_run _ _ _ _ _ (tree_page_id_ok (tid x) s3 Hin (Hkn _ Hxi))).
    rewrite bind_bind, (bind_run _ _ _ _ _ (unpin_ok (tid x) s3 Hin (loose_valid _ _ _ _ _ _ _ _ H Hxi))).
    assert (E : drop_pin (tid x) true s3 = closed ({[+ f_id f +]} ⊎ pins (store s)) [tid x] s3).
    { unfold drop_pin, closed. rewrite Hp3. cbn [s1 open_parent pin_opt ro edit pin_page upd set_store store pins].
      rewrite unpin_pinned. apply upd_eq; [done|done|done|]. clear. set_solver. }
    rewrite E, bind_bind, (bind_run _ _ _ tt s4 eq_refl), (bind_run _ _ s4 (b, None, false) s4 eq_refl). cbv beta iota.
    rewrite (bind_run _ _ s4 tt s4 eq_refl), (bind_run _ _ s4 tt s4 eq_refl).
    rewrite (close_parent _ (f_id f) (pins (store s)) s4 eq_refl).
    + by rewrite (bind_run _ _ _ _ _ (mark_ok b (f_id f) s5)).
    + apply Hkn, elem_of_app. right. left.
    + by apply (parent_valid _ _ _ _ _ H).
  - apply (merged_shrunk h f fs t s None ro H x cl ka t kb x cr m' u' ta' tp b s3 h' t' false _ Hnb Hmg R Sh);
      try done; try (by destruct b).
    + destruct b; cbn [mark s5 s4 closed upd set_txn set_store store unsaved]; clear; set_solver.
    + left.
    + intros q. destruct b; cbn [mark s5 s4 closed upd set_store store set_txn txn deleted_page_set_];
        rewrite ?elem_of_union, !elem_of_singleton; intros Hq; tauto.
Qed.
End Merges.

(** ** The choice *)

Lemma fetch_left_ok h f fs t s pp n :
  loose h (f :: fs) t s -> parent_is f fs t s pp -> room (S (S n)) s ->
  (if 0 <=? Z.of_nat (length (f_left f)) - 1 then
     let! p := fetch_sibling (f_id f) (Z.of_nat (length (f_left f)) - 1) in ret (Some p)
   else ret None) (pin_page (f_id f) s) = Ok (tid <$> left_tree f, open_parent f (tid <$> left_tree f) None s).
Proof.
  intros H Hp Hr. destruct (left_tree f) as [x|] eqn:Ex.
  - destruct (neighbour_left f t x Ex) as (cl & ka & (Hsplit & _ & (k & Hk) & _) & Hlen).
    destruct (sibling_trees _ _ _ _ _ _ _ H Hk) as (Hh & _ & _ & Hi). rewrite Hlen.
    rewrite (proj2 (Z.leb_le 0 _)) by lia. replace (Z.of_nat (S (length cl)) - 1) with (Z.of_nat (length cl)) by lia.
    destruct (holds_known _ _ _ _ _ _ _ Hh (tid_ids x)) as (nx & hx & Hnx & _).
    by rewrite (bind_run _ _ _ _ _ (fetch_sibling_ok f fs t (pin_page (f_id f) s) pp (length cl) ka x n Hp (elem_of_pinned _ _)
      ltac:(rewrite Hsplit; by apply list_lookup_middle) (mk_is_Some _ _ Hnx) (loose_valid _ _ _ _ _ _ _ _ H Hi) (room_more _ _ _ Hr))).
  - unfold left_tree in Ex. apply fmap_None, last_None in Ex. by rewrite Ex.
Qed.

Lemma fetch_right_ok h f fs t s pp lo n :
  loose h (f :: fs) t s -> parent_is f fs t s pp -> room (S (S (S n))) s ->
  (if Z.of_nat (length (f_left f)) + 1 <? Internal.GetSize pp then
     let! p := fetch_sibling (f_id f) (Z.of_nat (length (f_left f)) + 1) in ret (Some p)
   else ret None) (open_parent f lo None s) = Ok (tid <$> right_tree f, open_parent f lo (tid <$> right_tree f) s).
Proof.
  intros H Hp Hr. pose proof Hp as [_ Hi]. pose proof (internal_is_length _ _ _ _ _ Hi) as Hl.
  rewrite cells_length, narrow_length in Hl. rewrite Hl. destruct (right_tree f) as [x|] eqn:Ex.
  - destruct (neighbour_right f t x Ex) as (kb & cr & (Hsplit & _ & (k & Hk) & _)).
    destruct (sibling_trees _ _ _ _ _ _ _ H Hk) as (Hh & _ & _ & Hq).
    assert (Hr' : f_right f <> []) by (unfold right_tree in Ex; by destruct (f_right f)).
    rewrite (proj2 (Z.ltb_lt _ _)) by (destruct (f_right f); [done|simpl; lia]).
    replace (Z.of_nat (length (f_left f)) + 1) with (Z.of_nat (S (length (f_left f)))) by lia.
    destruct (holds_known _ _ _ _ _ _ _ Hh (tid_ids x)) as (nx & hx & Hnx & _).
    assert (Hp' : parent_is f fs t (open_parent f lo None s) pp) by (unfold parent_is in *; by rewrite open_nodes).
    rewrite (bind_run _ _ _ _ _ (fetch_sibling_ok f fs t (open_parent f lo None s) pp (S (length (f_left f))) kb x n Hp'
      (open_parent_in _ _ _ _)
      ltac:(rewrite Hsplit, lookup_app_r by lia; by replace (S (length (f_left f)) - length (f_left f))%nat with 1%nat by lia)
      ltac:(rewrite open_nodes; by exists nx) (loose_valid _ _ _ _ _ _ _ _ H Hq) (pin_opt_room lo _ _ (room_more _ _ _ Hr)))).
    done.
  - unfold right_tree in Ex. destruct (f_right f); [|done]. simpl. by rewrite (proj2 (Z.ltb_ge _ _)) by lia.
Qed.

Lemma rich_step h f fs t s lo ro (o : option (tree K V)) :
  loose h (f :: fs) t s -> (forall x, o = Some x -> exists k, (k, x) ∈ f_left f ++ f_right f) ->
  (forall x, o = Some x -> tid x ∈ pins (store (open_parent f lo ro s))) ->
  match tid <$> o with Some p => rich (tid t) p | None => ret false end (open_parent f lo ro s) =
  Ok (spare h t o, open_parent f lo ro s).
Proof.
  intros H Hin Hp. destruct o as [x|]; [|done]. simpl. destruct (Hin x eq_refl) as [k Hk].
  destruct (sibling_trees _ _ _ _ _ _ _ H Hk) as (Hh & _). pose proof (lo_holds _ _ _ _ _ _ _ H) as Ht. cbn [context_parent] in Ht.
  apply (rich_ok key_size value_size Hsizes h (nodes (store s)) (f_id f)); [apply open_nodes|done|done| |by apply Hp].
  apply open_in, (lo_pin _ _ _ _ _ _ _ H).
Qed.

Lemma left_sibling f x : left_tree f = Some x -> exists k, (k, x) ∈ f_left f ++ f_right f.
Proof. intros Hx. by destruct (neighbour_left f x x Hx) as (cl & ka & (_ & _ & Hk & _) & _). Qed.

Lemma right_sibling f x : right_tree f = Some x -> exists k, (k, x) ∈ f_left f ++ f_right f.
Proof. intros Hx. by destruct (neighbour_right f x x Hx) as (kb & cr & (_ & _ & Hk & _)). Qed.

Lemma rotate_left_repairs h f fs t s x cl ka cr kb :
  loose h (f :: fs) t s -> Z.of_nat (size_of t) < max_of h / 2 -> neighbour f t x cl ka x kb t cr ->
  max_of h <= Z.of_nat (size_of t + size_of x) -> room 5 s ->
  repairs (fun _ => (run! Redistribute (kind_of h) (tid x) (tid t) 1 ;; run! unpin_sibling (Some (tid x)) ;;
                     run! unpin_page (f_id f) ;; ret false) (open_parent f (Some (tid x)) None s)) h (f :: fs) t s.
Proof.
  intros H Hlt Hnb Hrich Hr. set (lo := Some (tid x)). set (s1 := open_parent f lo None s).
  pose proof Hnb as (_ & _ & (k & Hk) & _). destruct (sibling_trees _ _ _ _ _ _ _ H Hk) as (_ & Hx & _ & Hxi).
  destruct (loose_sizes _ _ _ _ _ H) as (S1 & S2 & S3 & S4).
  destruct (neighbour_twins _ _ _ _ _ s1 _ _ _ _ _ _ _ H Hnb (open_nodes f lo None s)) as (Htw & _).
  destruct (borrow_left_ok key_size value_size zero_key zero_value cmp h s1 _ _ _ _ _ _ _ _ Htw) as
    (m' & u' & ta' & k' & tb' & Hrun & Hrot & Za & Zb); [apply elem_of_pinned|by apply open_in, H|by apply open_room|done|lia|lia|].
  assert (Hopen : forall q, q ∈ option_list lo ++ option_list None -> q ∈ ids t ++ context_ids (f :: fs))
    by (by intros q ->%list_elem_of_singleton).
  pose proof (rotated_repairs h f fs t s lo None H Hopen x cl ka x kb t cr m' u' ta' k' tb' Hnb) as Hrep.
  destruct Hrep as (b & s' & h' & t' & Hend & Sh); [left|done|lia|lia|].
  exists b, s', h', t'. split; [|done]. rewrite (bind_run _ _ _ _ _ Hrun). exact Hend.
Qed.

Lemma rotate_right_repairs h f fs t s x kb cr :
  loose h (f :: fs) t s -> Z.of_nat (size_of t) < max_of h / 2 -> neighbour f t x (f_left f) (f_key f) t kb x cr ->
  max_of h <= Z.of_nat (size_of t + size_of x) -> room 5 s ->
  let lo := tid <$> left_tree f in
  repairs (fun _ => (run! Redistribute (kind_of h) (tid x) (tid t) 0 ;; run! unpin_sibling lo ;;
                     run! unpin_sibling (Some (tid x)) ;; run! unpin_page (f_id f) ;; ret false)
                    (open_parent f lo (Some (tid x)) s)) h (f :: fs) t s.
Proof.
  intros H Hlt Hnb Hrich Hr lo. set (ro := Some (tid x)). set (s1 := open_parent f lo ro s).
  pose proof Hnb as (_ & _ & (k & Hk) & _). destruct (sibling_trees _ _ _ _ _ _ _ H Hk) as (_ & Hx & _ & Hxi).
  destruct (loose_sizes _ _ _ _ _ H) as (S1 & S2 & S3 & S4).
  destruct (neighbour_twins _ _ _ _ _ s1 _ _ _ _ _ _ _ H Hnb (open_nodes f lo ro s)) as (Htw & _).
  destruct (borrow_right_ok key_size value_size zero_key zero_value cmp h s1 _ _ _ _ _ _ _ _ Htw) as
    (m' & u' & ta' & k' & tb' & Hrun & Hrot & Za & Zb); [by apply open_in, H|apply elem_of_pinned|by apply open_room|done|lia|lia|].
  assert (Hopen : forall q, q ∈ option_list lo ++ option_list ro -> q ∈ ids t ++ context_ids (f :: fs)).
  { intros q [Hq| ->%list_elem_of_singleton]%elem_of_app; [|done]. unfold lo in Hq. destruct (left_tree f) as [y|] eqn:Ey; [|by apply not_elem_of_nil in Hq].
    apply list_elem_of_singleton in Hq as ->. destruct (left_sibling f y Ey) as [ky Hy]. by destruct (sibling_trees _ _ _ _ _ _ _ H Hy) as (_ & _ & _ & ?). }
  pose proof (rotated_repairs h f fs t s lo ro H Hopen x (f_left f) (f_key f) t kb x cr m' u' ta' k' tb' Hnb) as Hrep.
  destruct Hrep as (b & s' & h' & t' & Hend & Sh); [apply elem_of_app; right; left|done|lia|lia|].
  exists b, s', h', t'. split; [|done]. rewrite (bind_run _ _ _ _ _ Hrun). exact Hend.
Qed.

Lemma balance_ok again h f fs t s pp :
  loose h (f :: fs) t s -> Z.of_nat (size_of t) < max_of h / 2 -> parent_is f fs t s pp ->
  room (3 * length fs + 5) s ->
  (forall tp s', loose (S h) fs tp s' -> room (3 * length fs + 2) s' -> fs <> [] ->
     Z.of_nat (size_of tp) < max_of (S h) / 2 -> repairs (again (tid tp)) (S h) fs tp s') ->
  repairs (fun _ => balance again (kind_of h) (tid t) (f_id f) pp (Z.of_nat (length (f_left f))) (pin_page (f_id f) s))
          h (f :: fs) t s.
Proof.
  intros H Hlt Hpp Hr Hagain. pose proof (room_le _ 5 _ Hr ltac:(lia)) as Hr5. set (lo := tid <$> left_tree f). set (ro := tid <$> right_tree f).
  assert (Hstart : balance again (kind_of h) (tid t) (f_id f) pp (Z.of_nat (length (f_left f))) (pin_page (f_id f) s) =
    (if spare h t (left_tree f) then
       run! match lo with Some p => Redistribute (kind_of h) p (tid t) 1 | None => ret tt end ;;
       run! unpin_sibling lo ;; run! unpin_page (f_id f) ;; ret false
     else fun _ =>
       (if spare h t (right_tree f) then
          run! match ro with Some p => Redistribute (kind_of h) p (tid t) 0 | None => ret tt end ;;
          run! unpin_sibling lo ;; run! unpin_sibling ro ;; run! unpin_page (f_id f) ;; ret false
        else merge_siblings again true (kind_of h) (tid t) (f_id f) lo ro) (open_parent f lo ro s)) (open_parent f lo None s)).
  { unfold balance. rewrite (bind_run _ _ _ _ _ (fetch_left_ok h f fs t s pp 3 H Hpp Hr5)).
    rewrite (bind_run _ _ _ _ _ (rich_step h f fs t s lo None (left_tree f) H (left_sibling f)
      ltac:(intros x Hx; unfold lo; rewrite Hx; apply elem_of_pinned))).
    destruct (spare h t (left_tree f)); [done|].
    rewrite (bind_run _ _ _ _ _ (fetch_right_ok h f fs t s pp lo 2 H Hpp Hr5)).
    rewrite (bind_run _ _ _ _ _ (rich_step h f fs t s lo ro (right_tree f) H (right_sibling f)
      ltac:(intros x Hx; unfold ro; rewrite Hx; apply elem_of_pinned))).
    by destruct (spare h t (right_tree f)). }
  unfold repairs. rewrite Hstart. clear Hstart. unfold lo, ro, spare. destruct (left_tree f) as [x|] eqn:Ex.
  - cbn [fmap option_fmap option_map]. destruct (neighbour_left f t x Ex) as (cl & ka & Hnb & _). case_bool_decide as Hrich.
    { by apply (rotate_left_repairs h f fs t s x cl ka (f_right f) (f_key f)). }
    destruct (right_tree f) as [y|] eqn:Ey; [case_bool_decide as Hrich'|].
    + destruct (neighbour_right f t y Ey) as (kb & cr & Hnb'). pose proof (rotate_right_repairs h f fs t s y kb cr H Hlt Hnb' Hrich' Hr5) as Hrep.
      by rewrite Ex in Hrep.
    + apply (merge_left_repairs h f fs t s H again Hagain x ro cl ka (f_key f) (f_right f)); [done| |done|lia].
      intros q ->%list_elem_of_singleton. destruct (right_sibling f y Ey) as [k Hk]. by apply (known_sibling h f fs t s H k).
    + apply (merge_left_repairs h f fs t s H again Hagain x ro cl ka (f_key f) (f_right f)); [done| |done|lia].
      by intros q ?%not_elem_of_nil.
  - destruct (right_tree f) as [y|] eqn:Ey.
    + destruct (neighbour_right f t y Ey) as (kb & cr & Hnb'). case_bool_decide as Hrich'.
      * pose proof (rotate_right_repairs h f fs t s y kb cr H Hlt Hnb' Hrich' Hr5) as Hrep. by rewrite Ex in Hrep.
      * by apply (merge_right_repairs h f fs t s H again Hagain y (f_left f) (f_key f) kb cr); [..|lia].
    + exfalso. destruct (lo_cfit _ _ _ _ _ _ _ H) as (Hlen & _). unfold left_tree in Ex. apply fmap_None, last_None in Ex.
      unfold right_tree in Ey. destruct (f_right f); [|done]. rewrite Ex in Hlen. simpl in Hlen.
      assert (2 <= internal_max / 2) by (apply Z.div_le_lower_bound; lia). destruct (is_root fs); lia.
Qed.

(** CoalesceOrRedistribute on an underfull page, at every depth. *)
Lemma coalesce_ok fs : forall fuel h t s,
  loose h fs t s -> fs <> [] -> Z.of_nat (size_of t) < max_of h / 2 ->
  room (3 * length fs + 2) s -> (length fs <= fuel)%nat ->
  repairs (CoalesceOrRedistribute fuel true (kind_of h) (tid t)) h fs t s.
Proof.
  induction fs as [|f fs IH]; intros fuel h t s H Hne Hlt Hr Hfuel; [done|]. cbn [length] in *.
  destruct fuel as [|fuel]; [lia|].
  destruct (enter_balance fuel h f fs t s (3 * length fs + 4) H Hlt) as (pp & Hpp & E); [apply (room_le _ _ _ Hr); lia|].
  unfold repairs. rewrite E. apply balance_ok; try done; [apply (room_le _ _ _ Hr); lia|].
  intros tp s' H' Hr' Hne' Hlt'. apply (IH fuel (S h) tp s'); [done|done|done|done|lia].
Qed.
End Repair.
End TreeRepair.
