(* ===== verification/TreeRemove.v ===== *)
(** * Removal from the index

    Remove against the sorted list of the entries: the descent, the leaf, its repair, the
    root that becomes empty, and the release of the page set with the deletions. *)

From stdpp Require Import prelude gmap gmultiset list sorting.
From Stdlib Require Import ZArith Lia.
From S2P Require Import Prelude HeaderPage BPlusTreePage LeafPage InternalPage TreeNodes BPlusTree.
From S2P Require Import TreeModel TreeSteps TreeInsert TreeSearch TreeHeight TreeIndex TreeBalance TreeShrink TreeRepair.

Local Open Scope Z_scope.

Module TreeRemove.
Import BPage Nodes TreeModel BPlusTree TreeSteps TreeInsert TreeSearch TreeHeight TreeIndex TreeBalance TreeShrink TreeRepair.

Section Remove.
Context {K V : Type} (key_size value_size : Z) (zero_key : K) (zero_value : V).
Context (index_name : list Z) (cmp : K -> K -> Z) `{!KeyOrder cmp}.
Implicit Types (s : State K V) (m : gmap Z (Node K V)) (t : tree K V) (fs : list (frame K V)).

Abbreviation leaf_max := (leaf_max key_size value_size).
Abbreviation internal_max := (internal_max key_size).
Abbreviation leaf_is := (leaf_is key_size value_size).
Abbreviation holds := (holds key_size value_size).
Abbreviation ready := (ready index_name).
Abbreviation index_at := (index_at key_size value_size cmp).
Abbreviation represents := (represents key_size value_size index_name cmp).
Abbreviation reached := (reached key_size value_size cmp).
Abbreviation loose := (loose key_size value_size index_name).
Abbreviation updated := (updated key_size value_size index_name cmp).
Abbreviation shrunk := (shrunk key_size value_size index_name cmp).
Abbreviation get_leaf := (get_leaf key_size value_size zero_key zero_value).
Abbreviation Remove := (Remove key_size value_size zero_key zero_value index_name cmp).

Context (Hsizes : sizes_ok key_size value_size) (Hname : Header.name_ok index_name) (H4 : 4 <= internal_max).

(** ** The page set of a removal *)

(** The contents after some of the pages [l] were deleted. *)
Definition pruned (deleted : gset Z) (l : list Z) m m' : Prop :=
  forall q, m' !! q = m !! q \/ (m' !! q = None /\ q ∈ l /\ q ∈ deleted).

Lemma pruned_other d l m m' q : pruned d l m m' -> (q ∉ l \/ q ∉ d) -> m' !! q = m !! q.
Proof. intros H Hq. destruct (H q) as [|(_ & H1 & H2)]; [done|]. tauto. Qed.

Lemma delete_page_ok q l Q s :
  q <> INVALID_PAGE_ID -> is_Some (nodes (store s) !! q) ->
  exists m', (run! DeletePage q ;; ret tt) (paged l Q s) = Ok (tt, paged l Q (edit m' (unsaved (store s)) s)) /\
    (m' = nodes (store s) \/ (q ∉ Q /\ m' = delete q (nodes (store s)))).
Proof.
  intros Hq [n Hn]. unfold DeletePage, bind. rewrite assert_ok by (by apply negb_true_iff, Z.eqb_neq). cbn [store paged set_txn upd set_store pins].
  unfold pinned. case_bool_decide as Hin.
  - exists (nodes (store s)). split; [done|by left].
  - cbn [nodes]. rewrite Hn. exists (delete q (nodes (store s))). split; [done|by right].
Qed.

Lemma release_delete_ok l Q s :
  known s l ->
  exists m', release_loop (length l) Action.Delete true (paged l (list_to_set_disj l ⊎ Q) s) =
      Ok (tt, paged [] Q (edit m' (unsaved (store s) ∖ list_to_set l) s)) /\
    pruned (deleted_page_set_ (txn s)) l (nodes (store s)) m'.
Proof.
  revert Q s. induction l as [|q l IH]; intros Q s Hk; cbn [release_loop length].
  - exists (nodes (store s)). split; [|by left]. unfold ret. do 3 f_equal; [multiset_solver|].
    destruct s as [? ? [] ?]. unfold edit, upd, set_store. simpl. do 2 f_equal. clear. set_solver.
  - destruct (Hk q) as [Hq Hqi]; [left|].
    replace (list_to_set_disj (q :: l) ⊎ Q) with ({[+ q +]} ⊎ (list_to_set_disj l ⊎ Q)) by (simpl; multiset_solver).
    set (Q' := list_to_set_disj l ⊎ Q). rewrite (bind_run _ _ _ _ _ (pop_page_ok q l _ s)).
    set (s1 := paged l ({[+ q +]} ⊎ Q') s).
    rewrite (bind_run _ _ _ _ _ (tree_page_id_ok q s1 (elem_of_pinned _ _) Hq)).
    rewrite (bind_run _ _ _ _ _ (unpin_ok q s1 (elem_of_pinned _ _) Hqi)).
    set (s2 := edit (nodes (store s)) (unsaved (store s) ∖ {[q]}) s).
    assert (E : drop_pin q true s1 = paged l Q' s2).
    { unfold drop_pin, s1, s2, paged, edit, upd, set_txn, set_store.
      cbn [store txn trivial_page_id_ root_page_id_ nodes pins unsaved next capacity]. by rewrite unpin_pinned. }
    rewrite E. set (d := bool_decide (q ∈ deleted_page_set_ (txn s))).
    rewrite (bind_run _ _ (paged l Q' s2) d (paged l Q' s2) eq_refl). cbn [bool_decide negb andb]. rewrite bool_decide_false by done.
    assert (Hdel : exists m1, when (negb false && d) (run! DeletePage q ;; ret tt) (paged l Q' s2) =
                     Ok (tt, paged l Q' (edit m1 (unsaved (store s2)) s2)) /\
                     (m1 = nodes (store s) \/ (d = true /\ q ∉ Q' /\ m1 = delete q (nodes (store s))))).
    { destruct d; cbn [negb andb when].
      - destruct (delete_page_ok q l Q' s2 Hqi ltac:(destruct Hq as (n & _ & Hn & _); by exists n)) as (m1 & Hrun & [->|[Hn ->]]); eexists; (split; [exact Hrun|]); auto.
      - exists (nodes (store s)). split; [done|by left]. }
    destruct Hdel as (m1 & Hrun & Hm1). rewrite (bind_run _ _ _ _ _ Hrun). set (s3 := edit m1 _ s2).
    destruct (IH Q s3) as (m' & Hloop & Hpr).
    { intros x Hx. destruct (Hk x) as [(n & hd & Hn & Hrest) Hxi]; [by right|]. split; [|done].
      exists n, hd. split; [|done]. cbn [s3 edit upd set_store store nodes]. destruct Hm1 as [->|(_ & Hni & ->)]; [done|].
      rewrite lookup_delete_ne; [done|]. intros ->. apply Hni, gmultiset_elem_of_disj_union. left. by apply elem_of_list_to_set_disj. }
    exists m'. split.
    + unfold Q'. rewrite Hloop. do 3 f_equal. unfold s3, s2, edit, upd, set_store.
      cbn [store txn trivial_page_id_ root_page_id_ nodes pins unsaved next capacity]. do 2 f_equal. clear. set_solver.
    + intros x. cbn [s3 s2 edit upd set_store store nodes txn] in Hpr.
      destruct (Hpr x) as [Hx|(Hx1 & Hx2 & Hx3)]; [|by right; split; [|split; [right|]]]. rewrite Hx.
      destruct Hm1 as [->|(Hd & _ & ->)]; [by left|]. destruct (decide (x = q)) as [->|Hne].
      * right. rewrite lookup_delete_eq. split; [done|]. split; [left|]. by apply bool_decide_eq_true in Hd.
      * left. by apply lookup_delete_ne.
Qed.

Lemma release_deleted l Q s :
  page_set_ (txn s) = l -> pins (store s) = list_to_set_disj l ⊎ Q -> known s l ->
  exists m', ReleasePageSet true Action.Delete true s =
      Ok (tt, paged [] Q (edit m' (unsaved (store s) ∖ list_to_set l) s)) /\
    pruned (deleted_page_set_ (txn s)) l (nodes (store s)) m'.
Proof.
  intros Hl HQ Hk. destruct (release_delete_ok l Q s Hk) as (m' & Hrun & Hpr). exists m'. split; [|done].
  unfold ReleasePageSet. rewrite (bind_run _ _ _ _ _ (asserts_ok true _ eq_refl)).
  rewrite (bind_run _ _ s (length l) s) by (unfold gets; by rewrite Hl).
  rewrite <- Hrun. f_equal. rewrite <- HQ, <- Hl. symmetry. apply paged_self.
Qed.

(** ** An index that is not empty *)

Lemma remove_entry_length k (es : list (K * V)) :
  (length (remove_entry cmp k es) <= length es <= S (length (remove_entry cmp k es)))%nat.
Proof. induction es as [|[k' v'] es IH]; simpl; [lia|]. destruct (_ =? 0); simpl; lia. Qed.

Lemma fetch_unpin_same q s : drop_pin q false (pin_page q s) = s.
Proof.
  destruct s as [? ? [] ?]. unfold drop_pin, pin_page, upd, set_store.
  cbn [store txn trivial_page_id_ root_page_id_ nodes pins unsaved next capacity]. by rewrite unpin_pinned.
Qed.

Lemma is_empty_tree s h t : ready s -> index_at s h t -> room 1 s -> IsEmpty s = Ok (false, s).
Proof.
  intros H Hix Hr. destruct (holds_header _ _ _ _ _ _ (ix_holds _ _ _ _ _ _ Hix)) as (n & hd & Hn & Hh & _ & _ & Hsz & _).
  pose proof (index_valid _ _ _ _ _ _ _ Hix (tid_ids t)) as Hv. pose proof (mk_is_Some _ _ Hn) as Hsome.
  unfold IsEmpty. rewrite (bind_run _ _ s (root_page_id_ s) s eq_refl), (ix_root _ _ _ _ _ _ Hix).
  rewrite (proj2 (Z.eqb_neq _ _) Hv), (bind_run _ _ _ _ _ (fetch_data_ok _ s 0 Hr Hv Hsome)).
  rewrite (bind_run _ _ _ _ _ (get_page_ok _ n hd (pin_page (tid t) s) (elem_of_pinned _ _) Hn Hh)).
  assert (Hu : false = true \/ tid t ∉ unsaved (store (pin_page (tid t) s)))
    by (right; simpl; rewrite (rd_unsaved _ _ H); apply not_elem_of_empty).
  rewrite (bind_run _ _ _ _ _ (unpin_saved_ok (tid t) false (pin_page (tid t) s) (elem_of_pinned _ _) Hv Hu)).
  rewrite fetch_unpin_same. unfold ret. do 2 f_equal. apply Z.eqb_neq. rewrite Hsz.
  destruct (fit_size _ _ _ _ _ (ix_fit _ _ _ _ _ _ Hix)) as [Hs _]. destruct h; simpl in Hs; lia.
Qed.

(** ** The repaired tree *)

Section Removed.
Context (s : State K V) (h : nat) (t : tree K V) (key : K) (fs : list (frame K V)) (id nx : Z) (es : list (K * V)).
Context (l : list Z) (p' : Leaf.BPlusTreeLeafPage K V).
Context (H : ready s) (Hix : index_at s h t) (Hud : undeleted s (ids t)) (Hre : reached s h t key fs id nx es l).
Let es' := remove_entry cmp key es.
Context (Hi : leaf_is (context_parent fs) id nx es' p').
Let s2 := put id (LeafNode p') (pathed l s).

Lemma removed_other q : q <> id -> nodes (store s2) !! q = nodes (store s) !! q.
Proof. intros Hq. by apply lookup_insert_ne. Qed.

Lemma removed_ids q : q ∈ ids (TLeaf id nx es') ++ context_ids fs <-> q ∈ ids t.
Proof. by rewrite <- (re_fill _ _ _ _ _ _ _ _ _ _ _ _ Hre), ids_fill. Qed.

Lemma removed_loose : (fs = [] -> es' <> []) -> loose 0 fs (TLeaf id nx es') s2.
Proof.
  intros Hne. destruct (leaf_context _ _ _ _ _ _ _ _ _ _ _ _ Hix Hre) as (Hn & Hnd & Hb).
  pose proof (re_focus _ _ _ _ _ _ _ _ _ _ _ _ Hre) as Hfo. pose proof (remove_entry_length key es) as Hlen. split; try done.
  - exists p'. split; [apply lookup_insert_eq|done].
  - apply (context_agree _ _ 0 (nodes (store s))); [apply Hfo|]. intros q Hq. apply removed_other. by intros ->.
  - pose proof (fo_fit _ _ _ _ _ _ _ Hfo) as Hfit. cbn [TreeModel.fit size_of TreeBalance.max_of] in *. fold es' in Hlen.
    destruct fs; cbn [is_root] in *; [|lia]. destruct es'; [by destruct Hne|]. cbn [length]. lia.
  - apply Hfo.
  - by apply NoDup_cons.
  - intros q Hq. by apply Hb.
  - apply pathed_pinned, Hre.
  - exists (root_page_id_ s). apply (header_ok_agree _ _ (nodes (store s))); [apply H|]. apply removed_other.
    pose proof (Hb id (list_elem_of_here _ _)). lia.
Qed.

(** ** What the repair leaves *)

Section Repaired.
Context (gone : bool) (s3 : State K V) (h' : nat) (t' : tree K V).
Context (Hsh : shrunk 0 fs (TLeaf id nx es') s2 gone s3 h' t').
Let s4 := mark gone id s3.

Lemma repaired_sub q : q ∈ ids t' -> q ∈ ids t.
Proof. intros Hq. apply removed_ids. by apply (sh_ids _ _ _ _ _ _ _ _ _ _ _ _ Hsh). Qed.

Lemma repaired_deleted q :
  q ∈ deleted_page_set_ (txn s4) -> (q ∈ deleted_page_set_ (txn s) /\ q ∉ ids t) \/ (q ∈ ids t /\ q ∉ ids t').
Proof.
  assert (Hd : q ∈ deleted_page_set_ (txn s3) ->
    (q ∈ deleted_page_set_ (txn s) /\ q ∉ ids t) \/ (q ∈ ids t /\ q ∉ ids t')).
  { intros [Hq|[Hq Hn]]%(sh_deleted _ _ _ _ _ _ _ _ _ _ _ _ Hsh); [left; split; [done|by apply (Hud q)]|].
    right. split; [by apply removed_ids|done]. }
  unfold s4, mark. pose proof (sh_gone _ _ _ _ _ _ _ _ _ _ _ _ Hsh) as Hg.
  destruct gone; [|done]. cbn [set_txn txn deleted_page_set_]. rewrite elem_of_union, elem_of_singleton.
  intros [->|Hq]; [|auto]. right. split; [apply removed_ids; left|by apply Hg].
Qed.

Lemma repaired_apart q : q ∈ deleted_page_set_ (txn s4) -> (q ∉ ids t') /\ 0 < q < next (store s).
Proof.
  intros [[Hq1 Hq2]|[Hq1 Hq2]]%repaired_deleted; (split; [|]).
  - intros Hq%repaired_sub. done.
  - by apply (Hud q).
  - done.
  - apply (ix_ids _ _ _ _ _ _ Hix) in Hq1. unfold HEADER_PAGE_ID in Hq1. lia.
Qed.

Lemma repaired_store : store s4 = store s3.
Proof. unfold s4, mark. by destruct gone. Qed.

Lemma repaired_frame q : q ∉ ids t -> q <> HEADER_PAGE_ID -> nodes (store s3) !! q = nodes (store s) !! q.
Proof.
  intros Hq Hh. rewrite (sh_frame _ _ _ _ _ _ _ _ _ _ _ _ Hsh); [|by rewrite removed_ids|done].
  apply removed_other. intros ->. apply Hq, removed_ids. left.
Qed.

Lemma repaired_known : known s4 l.
Proof.
  intros q Hq. split; [|by apply (re_known _ _ _ _ _ _ _ _ _ _ _ _ Hre)]. rewrite repaired_store.
  destruct (re_ids _ _ _ _ _ _ _ _ _ _ _ _ Hre q Hq) as [->|Hq'].
  - destruct (trivial_known _ _ H) as (n & hd & Hn & Hrest). exists n, hd. split; [|done].
    rewrite repaired_frame; [done| |done]. intros Hq'%(ix_ids _ _ _ _ _ _ Hix). unfold HEADER_PAGE_ID in Hq'. lia.
  - apply (sh_known _ _ _ _ _ _ _ _ _ _ _ _ Hsh). by apply removed_ids.
Qed.

(** The pages in the page set that are deleted are out of the tree. *)
Lemma repaired_kept q : q ∈ deleted_page_set_ (txn s4) -> q ∈ l -> q ∈ ids t /\ q ∉ ids t'.
Proof.
  intros Hd Hl. destruct (repaired_apart q Hd) as [Hn Hb].
  destruct (re_ids _ _ _ _ _ _ _ _ _ _ _ _ Hre q Hl) as [->|Hq]; [lia|done].
Qed.

Lemma repaired_tokens : keeps cmp (left_of fs ++ [Page id nx es'] ++ right_of fs) (tokens t').
Proof. exact (sh_keeps _ _ _ _ _ _ _ _ _ _ _ _ Hsh). Qed.

Lemma repaired_ordered : ordered cmp (tokens t').
Proof.
  pose proof (fo_order _ _ _ _ _ _ _ (re_focus _ _ _ _ _ _ _ _ _ _ _ _ Hre)) as Ho.
  pose proof (kp_order _ _ _ repaired_tokens [] []) as Hk. cbn [app] in Hk. rewrite !app_nil_r in Hk. apply Hk.
  apply (ordered_subset cmp _ _ id nx id nx es); [done| |intros e; apply remove_entry_subset].
  apply remove_entry_sorted. apply ordered_app in Ho as (_ & (Ho & _)%ordered_app & _). by apply ordered_page in Ho.
Qed.

Lemma repaired_links : linked (leaves (tokens t')) INVALID_PAGE_ID.
Proof.
  pose proof (kp_links _ _ _ repaired_tokens [] [] INVALID_PAGE_ID) as Hk. cbn [app] in Hk. rewrite !app_nil_r in Hk.
  apply Hk. rewrite leaves_app. change (leaves (Page id nx es' :: right_of fs)) with ((id, nx) :: leaves (right_of fs)).
  rewrite <- (leaves_fill_leaf fs id nx es), (re_fill _ _ _ _ _ _ _ _ _ _ _ _ Hre). apply (ix_links _ _ _ _ _ _ Hix).
Qed.

Lemma repaired_entries : entries (tokens t') = remove_entry cmp key (entries (tokens t)).
Proof.
  rewrite (kp_entries _ _ _ repaired_tokens), <- (re_fill _ _ _ _ _ _ _ _ _ _ _ _ Hre), leaf_entries_split.
  rewrite remove_entry_middle; [|done| |].
  - rewrite !entries_app. change (entries [Page id nx es']) with (es' ++ []). by rewrite app_nil_r.
  - intros e He. apply (below_entries cmp key (left_of fs)); [apply Hre|done].
  - intros e He. apply (above_entries cmp key (right_of fs)); [apply Hre|done].
Qed.

Lemma repaired_next : next (store s4) = next (store s).
Proof. rewrite repaired_store. apply (sh_next _ _ _ _ _ _ _ _ _ _ _ _ Hsh). Qed.

Lemma repaired_root : root_page_id_ s4 = root_page_id_ s3 /\ trivial_page_id_ s4 = trivial_page_id_ s.
Proof.
  pose proof (sh_rest _ _ _ _ _ _ _ _ _ _ _ _ Hsh) as (Htr & _). unfold s4, mark. by destruct gone.
Qed.

(** The state after the release, where the pages of the tree are as the repair left them. *)
Section Released.
Context (m' : gmap Z (Node K V)) (u : gset Z).
Context (Hkeep : forall q, (q ∈ ids t' \/ q ∉ ids t) -> m' !! q = nodes (store s3) !! q).
Let s5 := paged [] (pins (store s)) (edit m' u s4).

Lemma released_ready : u = ∅ -> ready s5.
Proof.
  intros Hu. assert (Hheader : HEADER_PAGE_ID ∉ ids t) by (intros Hq%(ix_ids _ _ _ _ _ _ Hix); lia).
  destruct repaired_root as [Hr Ht]. apply (ready_after _ s s5 (ids t) H); try done.
  - intros q Hq. by apply (ix_ids _ _ _ _ _ _ Hix).
  - cbn [s5 paged edit upd set_store set_txn store next]. by rewrite repaired_next.
  - intros q Hq Hqh _. cbn [s5 paged edit upd set_store set_txn store nodes]. rewrite Hkeep by auto. by apply repaired_frame.
  - change (root_page_id_ s5) with (root_page_id_ s4). rewrite Hr.
    apply (header_ok_agree _ _ (nodes (store s3))); [|apply Hkeep; by right].
    apply (sh_header _ _ _ _ _ _ _ _ _ _ _ _ Hsh), (header_ok_agree _ _ (nodes (store s))); [apply H|].
    apply removed_other. intros E. apply Hheader. rewrite E. apply removed_ids. left.
Qed.

Lemma released_index : index_at s5 h' t'.
Proof.
  split.
  - change (root_page_id_ s5) with (root_page_id_ s4). rewrite (proj1 repaired_root).
    apply (sh_root _ _ _ _ _ _ _ _ _ _ _ _ Hsh). etrans; [apply (ix_root _ _ _ _ _ _ Hix)|].
    rewrite <- (re_fill _ _ _ _ _ _ _ _ _ _ _ _ Hre). by apply tid_fill.
  - apply (holds_agree _ _ h' (nodes (store s3))); [apply (sh_holds _ _ _ _ _ _ _ _ _ _ _ _ Hsh)|].
    intros q Hq. apply Hkeep. by left.
  - apply (sh_fit _ _ _ _ _ _ _ _ _ _ _ _ Hsh).
  - apply (sh_nodup _ _ _ _ _ _ _ _ _ _ _ _ Hsh).
  - intros q Hq%repaired_sub%(ix_ids _ _ _ _ _ _ Hix). cbn [s5 paged edit upd set_store set_txn store next].
    by rewrite repaired_next.
  - apply repaired_ordered.
  - apply repaired_links.
Qed.

Lemma released_updated : u = ∅ -> updated s s5 h (remove_entry cmp key (entries (tokens t))) h' t'.
Proof.
  intros Hu. split.
  - by apply released_ready.
  - apply released_index.
  - intros q Hq. cbn [s5 paged edit upd set_store set_txn store next]. rewrite repaired_next. by apply repaired_apart.
  - apply repaired_entries.
  - pose proof (sh_height _ _ _ _ _ _ _ _ _ _ _ _ Hsh) as Hh. rewrite (re_length _ _ _ _ _ _ _ _ _ _ _ _ Hre) in Hh. lia.
  - done.
  - cbn [s5 paged edit upd set_store set_txn store capacity]. rewrite repaired_store.
    by destruct (sh_rest _ _ _ _ _ _ _ _ _ _ _ _ Hsh) as (_ & _ & Hcap).
  - cbn [s5 paged edit upd set_store set_txn store next]. by rewrite repaired_next.
Qed.
End Released.

(** The release of the page set ends the removal. *)
Lemma repaired_release :
  exists s5, ReleasePageSet true Action.Delete true s4 = Ok (tt, s5) /\
             updated s s5 h (remove_entry cmp key (entries (tokens t))) h' t'.
Proof.
  pose proof (sh_rest _ _ _ _ _ _ _ _ _ _ _ _ Hsh) as (_ & Hps & _).
  assert (Hl4 : page_set_ (txn s4) = l) by (unfold s4, mark; destruct gone; exact Hps).
  assert (Hp4 : pins (store s4) = list_to_set_disj l ⊎ pins (store s)).
  { rewrite repaired_store. apply (sh_pins _ _ _ _ _ _ _ _ _ _ _ _ Hsh). }
  destruct (release_deleted l (pins (store s)) s4 Hl4 Hp4 repaired_known) as (m' & Hrun & Hpr).
  eexists. split; [exact Hrun|]. rewrite repaired_store in Hpr. apply released_updated.
  - intros q Hq. apply (pruned_other _ _ _ _ _ Hpr). destruct (decide (q ∈ l)) as [Hql|]; [right|by left].
    intros Hd. destruct (repaired_kept q Hd Hql). by destruct Hq.
  - pose proof (sh_unsaved _ _ _ _ _ _ _ _ _ _ _ _ Hsh) as Hu. pose proof (re_leaf _ _ _ _ _ _ _ _ _ _ _ _ Hre) as Hid.
    pose proof (rd_unsaved _ _ H) as Hs. rewrite repaired_store.
    cbn [s2 put pathed paged upd set_txn set_store store unsaved tid] in Hu. rewrite Hs in Hu. clear - Hu Hid. set_solver.
Qed.
End Repaired.

(** ** The end of a removal *)

(** Remove, from the leaf without the key. *)
Definition remove_tail (fuel : nat) : M K V unit :=
  if IsRootPage (Leaf.hdr p') then
    let! adjusted := AdjustRoot key_size zero_key index_name id in
    run! when adjusted (add_deleted id) ;;
    ReleasePageSet true Action.Delete true
  else
    let! ok :=
      if Leaf.GetSize p' <? GetMinSize (Leaf.hdr p')
      then CoalesceOrRedistribute key_size value_size zero_key zero_value index_name fuel true KLeaf id else ret false in
    run! when (negb true) (run! UnpinPage id true ;; ret tt) ;;
    run! when ok (add_deleted id) ;;
    ReleasePageSet true Action.Delete true.

(** What a removal promises. *)
Definition removes (run : M K V unit) (start : State K V) : Prop :=
  exists s', run start = Ok (tt, s') /\ represents s' (remove_entry cmp key (entries (tokens t))) /\
             pins (store s') = pins (store s) /\ capacity (store s') = capacity (store s).

Lemma repaired_removes gone s3 h' t' :
  shrunk 0 fs (TLeaf id nx es') s2 gone s3 h' t' -> removes (ReleasePageSet true Action.Delete true) (mark gone id s3).
Proof.
  intros Hsh. destruct (repaired_release gone s3 h' t' Hsh) as (s5 & Hrun & []). exists s5. split; [done|].
  split; [|done]. split; [done|]. right. by exists h', t'.
Qed.

Lemma leaf_here : id ∈ pins (store s2) /\ nodes (store s2) !! id = Some (LeafNode p').
Proof. split; [apply pathed_pinned, Hre|apply lookup_insert_eq]. Qed.

Lemma leaf_size : Leaf.GetSize p' = Z.of_nat (length es').
Proof. exact (leaf_is_length _ _ _ _ _ _ _ Hi). Qed.

(** The root page of a leaf that keeps an entry stays. *)
Lemma adjust_leaf_kept : fs = [] -> es' <> [] -> AdjustRoot key_size zero_key index_name id s2 = Ok (false, s2).
Proof.
  intros Hfs Hne. destruct leaf_here as [Hpin Hp]. unfold AdjustRoot.
  rewrite (bind_run _ _ _ _ _ (get_page_ok id _ (Leaf.hdr p') s2 Hpin Hp eq_refl)).
  rewrite (bind_run _ _ s2 tt s2) by (apply asserts_ok; unfold IsRootPage; by rewrite (li_parent _ _ _ _ _ _ _ Hi), Hfs).
  unfold IsLeafPage. rewrite (li_type _ _ _ _ _ _ _ Hi). fold (Leaf.GetSize p'). rewrite leaf_size.
  assert (Hlen : 1 <= Z.of_nat (length es')) by (destruct es'; [by destruct Hne|cbn [length]; lia]).
  by rewrite bool_decide_true, (proj2 (Z.leb_le 1 _) Hlen).
Qed.

Lemma adjust_leaf_empty : fs = [] -> es' = [] -> room 1 s2 ->
  exists buf u,
    let m' := <[HEADER_PAGE_ID := HeaderNode buf]> (nodes (store s2)) in
    AdjustRoot key_size zero_key index_name id s2 = Ok (true, edit m' u (set_root INVALID_PAGE_ID s2)) /\
    header_ok index_name INVALID_PAGE_ID m' /\ u ⊆ unsaved (store s2).
Proof.
  intros Hfs He Hr. destruct leaf_here as [Hpin Hp]. unfold AdjustRoot.
  rewrite (bind_run _ _ _ _ _ (get_page_ok id _ (Leaf.hdr p') s2 Hpin Hp eq_refl)).
  rewrite (bind_run _ _ s2 tt s2) by (apply asserts_ok; unfold IsRootPage; by rewrite (li_parent _ _ _ _ _ _ _ Hi), Hfs).
  unfold IsLeafPage. rewrite (li_type _ _ _ _ _ _ _ Hi). fold (Leaf.GetSize p'). rewrite leaf_size, He, bool_decide_true by done.
  cbn [length Z.of_nat Z.leb andb orb negb]. set (s3 := set_root INVALID_PAGE_ID s2).
  change (1 <=? Z.of_nat 0) with false. cbn [orb]. rewrite (bind_run _ _ s2 tt s3 eq_refl).
  destruct (leaf_context _ _ _ _ _ _ _ _ _ _ _ _ Hix Hre) as (_ & _ & Hb).
  destruct (update_root_ok key_size value_size index_name cmp Hsizes Hname (root_page_id_ s) s3 0) as (buf & Hup & Hok); [|done|].
  { apply (header_ok_agree _ _ (nodes (store s))); [apply H|]. apply removed_other.
    pose proof (Hb id (list_elem_of_here _ _)). lia. }
  exists buf, (unsaved (store s3) ∖ {[HEADER_PAGE_ID]}). rewrite (bind_run _ _ _ _ _ Hup). split; [done|]. split; [done|].
  clear. set_solver.
Qed.

(** The last entry goes: the index has no root. *)
Section Emptied.
Context (buf : list Z) (u : gset Z) (Hfs : fs = []) (He : es' = []).
Let m' := <[HEADER_PAGE_ID := HeaderNode buf]> (nodes (store s2)).
Let s4 := mark true id (edit m' u (set_root INVALID_PAGE_ID s2)).

Lemma emptied_tree : t = TLeaf id nx es /\ 1 < id < next (store s).
Proof.
  assert (Ht : t = TLeaf id nx es) by (by rewrite <- (re_fill _ _ _ _ _ _ _ _ _ _ _ _ Hre), Hfs).
  split; [done|]. apply (ix_ids _ _ _ _ _ _ Hix). rewrite Ht. left.
Qed.

Lemma emptied_page q : q ∈ l -> q = 0 \/ q = id.
Proof.
  intros [->|Hq]%(re_ids _ _ _ _ _ _ _ _ _ _ _ _ Hre); [by left|]. right.
  rewrite (proj1 emptied_tree) in Hq. by apply list_elem_of_singleton.
Qed.

Lemma emptied_other q : q <> id -> q <> HEADER_PAGE_ID -> m' !! q = nodes (store s) !! q.
Proof. intros Hq1 Hq2. unfold m'. rewrite lookup_insert_ne by done. by apply removed_other. Qed.

Lemma emptied_deleted q : q ∈ deleted_page_set_ (txn s4) -> q = id \/ q ∈ deleted_page_set_ (txn s).
Proof. cbn [s4 mark set_txn txn deleted_page_set_]. by rewrite elem_of_union, elem_of_singleton. Qed.

Lemma emptied_known : known s4 l.
Proof.
  destruct emptied_tree as [_ Hid]. intros q Hq. split; [|by apply (re_known _ _ _ _ _ _ _ _ _ _ _ _ Hre)].
  destruct (emptied_page q Hq) as [->| ->].
  - destruct (trivial_known _ _ H) as (n & hd & Hn & Hrest). exists n, hd. split; [|done].
    etrans; [apply emptied_other; unfold HEADER_PAGE_ID; lia|done].
  - exists (LeafNode p'), (Leaf.hdr p'). split; [|split; [done|apply Hi]].
    etrans; [apply lookup_insert_ne; unfold HEADER_PAGE_ID; lia|apply leaf_here].
Qed.

Lemma emptied_release :
  header_ok index_name INVALID_PAGE_ID m' -> u ⊆ unsaved (store s2) ->
  exists s5, ReleasePageSet true Action.Delete true s4 = Ok (tt, s5) /\ represents s5 [] /\
             pins (store s5) = pins (store s) /\ capacity (store s5) = capacity (store s).
Proof.
  intros Hok Hu. destruct emptied_tree as [_ Hid].
  destruct (release_deleted l (pins (store s)) s4 eq_refl eq_refl emptied_known) as (m5 & Hrel & Hpr).
  assert (Hm5 : forall q, q <> id -> m5 !! q = m' !! q).
  { intros q Hq. apply (pruned_other _ _ _ _ _ Hpr). destruct (decide (q ∈ l)) as [Hql|]; [right|by left].
    intros [?|Hd%Hud]%emptied_deleted; [done|]. destruct (emptied_page q Hql) as [->| ->]; [lia|done]. }
  eexists. split; [exact Hrel|]. split; [|done]. split; [|left; split; [done|split; [done|]]].
  - apply (ready_after _ s _ [id] H); try done.
    + intros q ->%list_elem_of_singleton. unfold HEADER_PAGE_ID. lia.
    + cbn [s4 mark paged edit upd set_store set_root set_txn store unsaved]. pose proof (rd_unsaved _ _ H) as Hs.
      pose proof (re_leaf _ _ _ _ _ _ _ _ _ _ _ _ Hre) as Hl. cbn [s2 put pathed paged upd set_txn set_store store unsaved] in Hu.
      rewrite Hs in Hu. clear - Hu Hl. set_solver.
    + intros q Hq1 Hq2 _. rewrite list_elem_of_singleton in Hq1. etrans; [by apply Hm5|by apply emptied_other].
    + apply (header_ok_agree _ _ m'); [exact Hok|]. apply Hm5. unfold HEADER_PAGE_ID. lia.
  - intros q Hq%emptied_deleted. split; [apply not_elem_of_nil|]. change (0 < q < next (store s)).
    destruct Hq as [->|Hq%Hud]; [lia|apply Hq].
Qed.
End Emptied.

Lemma leaf_root : IsRootPage (Leaf.hdr p') = true <-> fs = [].
Proof.
  unfold IsRootPage. rewrite (li_parent _ _ _ _ _ _ _ Hi), Z.eqb_eq.
  assert (Hv : forall q, q ∈ context_ids fs -> q <> INVALID_PAGE_ID).
  { intros q Hq. apply (index_valid _ _ _ _ _ _ _ Hix), removed_ids, elem_of_app. by right. }
  clear - Hv. destruct fs as [|f fs0]; cbn [context_parent]; [done|]. split; [|done].
  intros Hf. exfalso. apply (Hv (f_id f)); [left|done].
Qed.

Lemma remove_last fuel : fs = [] -> es' = [] -> room 1 s2 -> removes (remove_tail fuel) s2.
Proof.
  intros Hfs He Hr. destruct (adjust_leaf_empty Hfs He Hr) as (buf & u & Hadj & Hok & Hu).
  destruct (emptied_release buf u Hfs Hok Hu) as (s5 & Hrel & Hrest). exists s5. split.
  - unfold remove_tail. rewrite (proj2 leaf_root Hfs), (bind_run _ _ _ _ _ Hadj). by rewrite (bind_run _ _ _ _ _ (mark_ok true id _)).
  - rewrite (proj1 (emptied_tree Hfs)), entries_page. fold es'. by rewrite He.
Qed.

(** The leaf is large enough as it is. *)
Lemma remove_kept fuel : fs = [] \/ leaf_max / 2 <= Z.of_nat (length es') -> (fs = [] -> es' <> []) ->
  removes (remove_tail fuel) s2.
Proof.
  intros Hlen Hne. pose proof (removed_loose Hne) as Hloose.
  assert (Hsh : shrunk 0 fs (TLeaf id nx es') s2 false s2 (length fs + 0) (fill fs (TLeaf id nx es'))).
  { apply shrunk_still; [done|]. cbn [size_of TreeBalance.max_of root_min]. destruct fs; cbn [is_root].
    - destruct es'; [by destruct Hne|cbn [length]; lia].
    - by destruct Hlen. }
  destruct (repaired_removes _ _ _ _ Hsh) as (s5 & Hrel & Hrest). exists s5. split; [|done]. cbn [mark] in Hrel.
  unfold remove_tail. destruct (IsRootPage (Leaf.hdr p')) eqn:Hroot.
  - apply leaf_root in Hroot. rewrite (bind_run _ _ _ _ _ (adjust_leaf_kept Hroot (Hne Hroot))).
    by rewrite (bind_run _ _ s2 tt s2 eq_refl).
  - destruct Hlen as [Hfs|Hlen]; [apply leaf_root in Hfs; by rewrite Hfs in Hroot|].
    rewrite leaf_size, (min_size _ _ Hsizes 0) by apply Hi. cbn [TreeBalance.max_of].
    rewrite (proj2 (Z.ltb_ge _ _) Hlen), (bind_run _ _ s2 false s2 eq_refl).
    by rewrite (bind_run _ _ s2 tt s2 eq_refl), (bind_run _ _ s2 tt s2 eq_refl).
Qed.

(** The leaf is repaired with a sibling. *)
Lemma remove_repaired fuel : fs <> [] -> Z.of_nat (length es') < leaf_max / 2 ->
  room (3 * length fs + 2) s2 -> (length fs <= fuel)%nat -> removes (remove_tail fuel) s2.
Proof.
  intros Hfs Hlt Hr Hfuel. assert (Hloose : loose 0 fs (TLeaf id nx es') s2) by (by apply removed_loose).
  destruct (coalesce_ok key_size value_size zero_key zero_value index_name cmp Hsizes Hname H4 fs fuel 0 _ s2 Hloose Hfs Hlt Hr Hfuel)
    as (b & s3 & h' & t' & Hrun & Hsh).
  destruct (repaired_removes _ _ _ _ Hsh) as (s5 & Hrel & Hrest). exists s5. split; [|done].
  unfold remove_tail. destruct (IsRootPage (Leaf.hdr p')) eqn:Hroot; [by apply leaf_root in Hroot|].
  rewrite leaf_size, (min_size _ _ Hsizes 0) by apply Hi. cbn [TreeBalance.max_of].
  rewrite (proj2 (Z.ltb_lt _ _) Hlt). cbn [tid kind_of] in Hrun. rewrite (bind_run _ _ _ _ _ Hrun).
  rewrite (bind_run _ _ s3 tt s3 eq_refl). pose proof (mark_ok b id s3) as Hm. rewrite andb_true_r in Hm.
  by rewrite (bind_run _ _ _ _ _ Hm).
Qed.
End Removed.

(** ** Remove *)

Lemma remove_tail_ok fuel s h t key fs id nx es l p' :
  ready s -> index_at s h t -> undeleted s (ids t) -> reached s h t key fs id nx es l ->
  leaf_is (context_parent fs) id nx (remove_entry cmp key es) p' -> room (4 * h + 4) s -> (S h < fuel)%nat ->
  removes s t key (remove_tail id p' fuel) (put id (LeafNode p') (pathed l s)).
Proof.
  intros H Hix Hud Hre Hi Hr Hfuel.
  assert (Hr2 : room (3 * h + 2) (put id (LeafNode p') (pathed l s))).
  { apply (room_pages _ l l). apply (room_le _ _ _ Hr). pose proof (re_pages _ _ _ _ _ _ _ _ _ _ _ _ Hre). lia. }
  pose proof (re_length _ _ _ _ _ _ _ _ _ _ _ _ Hre) as Hlen.
  destruct fs as [|f fs].
  - destruct (remove_entry cmp key es) as [|e es'] eqn:E.
    + apply (remove_last s h t key [] id nx es l p' H Hix Hud Hre); [by rewrite E|done|done|].
      apply (room_le _ _ _ Hr2). lia.
    + apply (remove_kept s h t key [] id nx es l p' H Hix Hud Hre); [by rewrite E|by left|by rewrite E].
  - destruct (Z.le_gt_cases (leaf_max / 2) (Z.of_nat (length (remove_entry cmp key es)))) as [Hge|Hlt].
    + by apply (remove_kept s h t key (f :: fs) id nx es l p' H Hix Hud Hre Hi); [right|].
    + apply (remove_repaired s h t key (f :: fs) id nx es l p' H Hix Hud Hre Hi); [done|done| |lia].
      by rewrite Hlen.
Qed.

Lemma remove_tree fuel s h t key :
  ready s -> index_at s h t -> undeleted s (ids t) -> room (4 * h + 4) s -> (S h < fuel)%nat ->
  removes s t key (Remove fuel key true) s.
Proof.
  intros H Hix Hud Hr Hfuel.
  destruct (find_leaf_update key_size value_size zero_key index_name cmp Hsizes fuel key Action.Delete s h t)
    as (fs & id & nx & es & l & Hfind & Hre); [done|done|done|apply (room_le _ _ _ Hr); lia|done|].
  pose proof (re_focus _ _ _ _ _ _ _ _ _ _ _ _ Hre) as Hfo. destruct (fo_holds _ _ _ _ _ _ _ Hfo) as (p & Hp & Hi).
  destruct (Leaf.leaf_remove_ok cmp p key) as (p' & Hrem & Hf & He); [apply Hi| |].
  { pose proof (fo_fit _ _ _ _ _ _ _ Hfo) as Hfit. destruct fs as [|f fs]; cbn [is_root TreeModel.fit] in Hfit.
    - left. unfold IsRootPage. by rewrite (li_parent _ _ _ _ _ _ _ Hi).
    - right. rewrite (min_size _ _ Hsizes 0) by apply Hi. by rewrite (leaf_is_length _ _ _ _ _ _ _ Hi). }
  rewrite (li_entries _ _ _ _ _ _ _ Hi) in He. pose proof (leaf_frame_is _ _ _ _ _ _ _ _ _ Hi Hf He) as Hi'.
  destruct (remove_tail_ok fuel s h t key fs id nx es l p' H Hix Hud Hre Hi' Hr Hfuel) as (s' & Hrun & Hrest).
  exists s'. split; [|done]. unfold BPlusTree.Remove.
  rewrite (bind_run _ _ _ _ _ (is_empty_tree s h t H Hix (room_le _ 1 _ Hr ltac:(lia)))). cbv iota.
  rewrite (bind_run _ _ _ _ _ Hfind).
  pose proof (pathed_pinned id l s (re_leaf _ _ _ _ _ _ _ _ _ _ _ _ Hre)) as Hpin.
  erewrite bind_run by (by apply (get_leaf_ok _ _ _ _ id (LeafNode p))).
  rewrite (bind_run _ _ (pathed l s) (Leaf.GetSize p', p') (pathed l s)) by (by apply lift_ok). cbv beta iota.
  rewrite (bind_run _ _ _ _ _ (put_leaf_ok id p' (pathed l s) Hpin)). cbv zeta.
  rewrite (li_id _ _ _ _ _ _ _ Hi'). exact Hrun.
Qed.

(** Remove, on every index: the entry of the key is gone, the others stay. *)
Lemma remove_represents fuel s es key k :
  represents s es -> Z.of_nat (length es) < 2 ^ Z.of_nat k -> room (4 * k + 5) s -> (k < fuel)%nat ->
  exists s', Remove fuel key true s = Ok (tt, s') /\ represents s' (remove_entry cmp key es) /\
             pins (store s') = pins (store s) /\ capacity (store s') = capacity (store s).
Proof.
  intros [H [(Hroot & -> & Hud)|(h & t & Hix & Hud & ->)]] Hk Hr Hfuel.
  - exists s. unfold BPlusTree.Remove, IsEmpty. rewrite bind_bind, (bind_run _ _ s (root_page_id_ s) s eq_refl), Hroot.
    split; [done|]. split; [|done]. split; [done|]. by left.
  - pose proof (height_entries _ _ Hsizes h t H4 (ix_fit _ _ _ _ _ _ Hix)) as Hh.
    assert (Hhk : (h < k)%nat) by (apply Nat2Z.inj_lt, (Z.pow_lt_mono_r_iff 2); lia).
    apply (remove_tree fuel s h t key H Hix Hud); [|lia]. apply (room_le _ _ _ Hr). lia.
Qed.
End Remove.
End TreeRemove.
