(* ===== verification/TreeRefine.v ===== *)
(** * The index as a sorted list

    Insert, Remove and GetValue on every index that [represents] a sorted list of
    entries, the empty one included: what they answer, and the list they leave; and any
    sequence of insertions, removals and lookups from any such index. *)

From stdpp Require Import prelude gmap gmultiset list sorting.
From Stdlib Require Import ZArith Lia.
From S2P Require Import Prelude HeaderPage BPlusTreePage LeafPage InternalPage TreeNodes BPlusTree.
From S2P Require Import TreeModel TreeSteps TreeInsert TreeSearch TreeHeight TreeIndex TreeSplit TreeRemove.

Local Open Scope Z_scope.

Module TreeRefine.
Import BPage Nodes TreeModel BPlusTree TreeSteps TreeInsert TreeSearch TreeHeight TreeIndex TreeSplit TreeRemove.

(** ** Insertion *)

Section Refine.
Context {K V : Type} (key_size value_size : Z) (zero_key : K) (zero_value : V).
Context (index_name : list Z) (cmp : K -> K -> Z) `{!KeyOrder cmp}.
Implicit Types (s : State K V) (m : gmap Z (Node K V)) (t : tree K V) (fs : list (frame K V)).

Abbreviation leaf_max := (leaf_max key_size value_size).
Abbreviation internal_max := (internal_max key_size).
Abbreviation leaf_is := (leaf_is key_size value_size).
Abbreviation ready := (ready index_name).
Abbreviation index_at := (index_at key_size value_size cmp).
Abbreviation represents := (represents key_size value_size index_name cmp).
Abbreviation updated := (updated key_size value_size index_name cmp).
Abbreviation Insert := (Insert key_size value_size zero_key zero_value index_name cmp).
Abbreviation Remove := (Remove key_size value_size zero_key zero_value index_name cmp).
Abbreviation InsertIntoLeaf := (InsertIntoLeaf key_size value_size zero_key zero_value index_name cmp).
Abbreviation GetValue := (GetValue key_size value_size zero_key zero_value cmp).
Abbreviation StartNewTree := (StartNewTree key_size value_size zero_key zero_value index_name cmp).

Context (Hsizes : sizes_ok key_size value_size) (Hname : Header.name_ok index_name).

(** The page set of an insertion that changes nothing. *)
Lemma release_unchanged s h t l :
  ready s -> index_at s h t -> undeleted s (ids t) -> known s l -> (forall q, q ∈ l -> q = 0 \/ q ∈ ids t) ->
  ReleasePageSet true Action.Insert false (pathed l s) = Ok (tt, s).
Proof.
  intros H Hix Hud Hk Hl.
  rewrite (release_set_ok cmp Action.Insert false l (pins (store s)) (pathed l s) eq_refl eq_refl Hk (or_intror (rd_unsaved _ _ H))
    (undeleted_known _ _ _ _ _ _ _ Hix Hud Hl)).
  do 2 f_equal. etrans; [|by apply (ready_paged index_name)]. done.
Qed.

Lemma insert_into_leaf_ok fuel s h t key value :
  ready s -> index_at s h t -> undeleted s (ids t) -> room (3 * h + 5) s -> (S h < fuel)%nat ->
  let new := bool_decide (find_entry cmp key (entries (tokens t)) = None) in
  exists s' h' t', InsertIntoLeaf fuel key value true s = Ok (new, s') /\
    (if new then updated s s' h (insert_entry cmp key value (entries (tokens t))) h' t'
     else s' = s /\ insert_entry cmp key value (entries (tokens t)) = entries (tokens t)).
Proof.
  intros H Hix Hud Hr Hfuel.
  destruct (find_leaf_update key_size value_size zero_key index_name cmp Hsizes fuel key Action.Insert s h t)
    as (fs & id & nx & es & l & Hfind & Hre); [done|done|done|apply (room_le _ _ _ Hr); lia|done|].
  destruct (fo_holds _ _ _ _ _ _ _ (re_focus _ _ _ _ _ _ _ _ _ _ _ _ Hre)) as (p & Hp & Hi).
  unfold BPlusTree.InsertIntoLeaf. rewrite (bind_run _ _ _ _ _ Hfind).
  rewrite (bind_run _ _ (pathed l s) l (pathed l s) eq_refl).
  pose proof (re_leaf _ _ _ _ _ _ _ _ _ _ _ _ Hre) as Hid.
  rewrite (bind_run _ _ (pathed l s) tt (pathed l s)).
  2:{ apply asserts_ok, negb_true_iff, bool_decide_false. intros E. rewrite E in Hid. by apply not_elem_of_nil in Hid. }
  erewrite bind_run by (by apply (get_leaf_ok _ _ _ _ id (LeafNode p)); [apply pathed_pinned| |]).
  assert (Hfe : find_entry cmp key (entries (tokens t)) = find_entry cmp key es).
  { rewrite <- (re_fill _ _ _ _ _ _ _ _ _ _ _ _ Hre), leaf_entries_split. apply find_entry_middle; [done| |].
    - intros e He. apply (below_entries cmp key (left_of fs)); [apply Hre|done].
    - intros e He. apply (above_entries cmp key (right_of fs)); [apply Hre|done]. }
  rewrite Hfe. rewrite (bind_run _ _ (pathed l s) (find_entry cmp key es) (pathed l s)).
  2:{ apply lift_ok. rewrite Leaf.leaf_lookup_ok by apply Hi. by rewrite (li_entries _ _ _ _ _ _ _ Hi). }
  destruct (find_entry cmp key es) as [v|] eqn:Ef; cbv zeta.
  - rewrite bool_decide_false by done. exists s, h, t. split.
    + by rewrite (bind_run _ _ _ _ _ (release_unchanged s h t l H Hix Hud (re_known _ _ _ _ _ _ _ _ _ _ _ _ Hre) (re_ids _ _ _ _ _ _ _ _ _ _ _ _ Hre))).
    + split; [done|]. apply insert_entry_present; [done|apply ordered_sorted, Hix|]. by rewrite Hfe.
  - rewrite bool_decide_true by done.
    rewrite (leaf_is_length _ _ _ _ _ _ _ Hi), (li_max _ _ _ _ _ _ _ Hi).
    assert (Hcap : Z.of_nat (length es) <= leaf_max).
    { rewrite <- (leaf_is_length _ _ _ _ _ _ _ Hi), <- (li_max _ _ _ _ _ _ _ Hi). apply (Leaf.l_size _ (li_wf _ _ _ _ _ _ _ Hi)). }
    destruct (Z.ltb_spec leaf_max (Z.of_nat (length es) + 1)) as [Hfull|Hspace].
    + apply (insert_full_ok key_size value_size zero_key zero_value index_name cmp Hsizes Hname fuel s h t key value fs id nx es l p); try done; lia.
    + destruct (insert_room_ok key_size value_size zero_key zero_value index_name cmp s h t key value fs id nx es l p H Hix Hud Hre Hp Hi)
        as (s' & t' & Hrun & Hup); [lia|]. by exists s', h, t'.
Qed.

(** The first entry: a leaf that is the root. *)
Lemma start_tree_ok s key value :
  ready s -> undeleted s [] -> room 2 s ->
  exists s' t', StartNewTree key value s = Ok (tt, s') /\ updated s s' 0 [(key, value)] 0 t'.
Proof.
  intros H Hud Hr. unfold BPlusTree.StartNewTree. set (N := next (store s)).
  pose proof (rd_next _ _ H) as HN. unfold HEADER_PAGE_ID in HN. fold N in HN.
  rewrite (bind_run _ _ _ _ _ (new_page_ok s 1 Hr)). fold N. cbv beta iota.
  set (s1 := upd _ _ _ _ s). rewrite (bind_run _ _ s1 N s1 eq_refl).
  rewrite (bind_run _ _ s1 tt (set_root N s1) eq_refl). set (s2 := set_root N s1).
  assert (Hr2 : room 1 s2) by (apply (room_more 1 s N) in Hr; exact Hr).
  destruct (update_root_ok key_size value_size index_name cmp Hsizes Hname (root_page_id_ s) s2 0) as (buf & Hup & Hok); [|done|].
  { apply (header_ok_agree _ _ (nodes (store s))); [apply H|]. apply lookup_insert_ne. unfold HEADER_PAGE_ID. lia. }
  rewrite (bind_run _ _ _ _ _ Hup). set (s3 := edit _ _ s2).
  assert (HNp : N ∈ pins (store s3)) by apply elem_of_pinned.
  erewrite bind_run.
  2:{ apply (get_leaf_ok _ _ _ _ N RawPage); [done| |reflexivity]. etrans; [apply lookup_insert_ne|apply lookup_insert_eq].
      unfold HEADER_PAGE_ID. lia. }
  pose proof (leaf_init_is key_size value_size zero_key zero_value Hsizes INVALID_PAGE_ID N) as Hi.
  set (p := Leaf.Init _ _ _ _ _) in *. pose proof (so_leaf _ _ Hsizes) as [H2 _].
  destruct (Leaf.insert_ok cmp p key value) as (p' & Hins & Hf & He); [apply Hi| |].
  { rewrite (leaf_is_length _ _ _ _ _ _ _ Hi), (li_max _ _ _ _ _ _ _ Hi). simpl. lia. }
  rewrite (bind_run _ _ s3 (Leaf.GetSize p', p') s3) by (by apply lift_ok). cbv beta iota.
  rewrite (bind_run _ _ _ _ _ (put_leaf_ok N p' s3 HNp)).
  rewrite (bind_run _ _ _ _ _ (unpin_ok N (put N (LeafNode p') s3) HNp ltac:(unfold INVALID_PAGE_ID; lia))).
  rewrite (li_entries _ _ _ _ _ _ _ Hi) in He.
  pose proof (leaf_frame_is _ _ _ _ _ _ _ _ _ Hi Hf He) as Hi'.
  set (s4 := drop_pin N true _). exists s4, (TLeaf N INVALID_PAGE_ID [(key, value)]). split; [done|].

  split; try done.
  - apply (ready_after _ s s4 [N] H); try done.
    + intros q ->%list_elem_of_singleton. done.
    + apply (rd_pages _ _ H).
    + cbn [s4 drop_pin put s3 edit s2 s1 upd set_root set_store store unsaved]. rewrite (rd_unsaved _ _ H).
      clear. set_solver.
    + cbn. fold N. lia.
    + intros q Hq1 Hq2 Hq3. rewrite list_elem_of_singleton in Hq1.
      etrans; [by apply lookup_insert_ne|]. etrans; by apply lookup_insert_ne.
    + apply (header_ok_agree _ _ _ _ Hok), lookup_insert_ne. unfold HEADER_PAGE_ID. lia.
  - split; try done.
    + exists p'. split; [apply lookup_insert_eq|done].
    + apply NoDup_singleton.
    + intros q ->%list_elem_of_singleton. unfold HEADER_PAGE_ID. cbn. fold N. lia.
    + apply ordered_page. by repeat constructor.
  - intros q Hq. destruct (Hud q Hq) as [_ Hq2]. fold N in Hq2. cbn. fold N.
    rewrite list_elem_of_singleton. lia.
  - lia.
  - apply unpin_pinned.
  - cbn. fold N. lia.
Qed.

(** Insert, on every index: it answers whether the key is new. *)
Lemma insert_represents fuel s es key value k :
  represents s es -> 4 <= internal_max -> Z.of_nat (length es) < 2 ^ Z.of_nat k ->
  room (3 * k + 5) s -> (k < fuel)%nat ->
  exists s', Insert fuel key value true s = Ok (bool_decide (find_entry cmp key es = None), s') /\
             represents s' (insert_entry cmp key value es) /\
             pins (store s') = pins (store s) /\ capacity (store s') = capacity (store s).
Proof.
  intros [H Hes] H4 Hk Hr Hfuel. unfold BPlusTree.Insert. rewrite (bind_run _ _ s tt s eq_refl).
  rewrite (bind_run _ _ s (root_page_id_ s) s eq_refl).
  destruct Hes as [(Hroot & -> & Hud)|(h & t & Hix & Hud & ->)].
  - rewrite Hroot, Z.eqb_refl. destruct (start_tree_ok s key value H Hud) as (s' & t' & Hrun & []); [apply (room_le _ _ _ Hr); lia|].
    exists s'. rewrite (bind_run _ _ _ _ _ Hrun). split; [done|]. split; [|done]. split; [done|]. right. by exists 0%nat, t'.
  - rewrite (proj2 (Z.eqb_neq _ _)).
    2:{ rewrite (ix_root _ _ _ _ _ _ Hix). apply (index_valid _ _ _ _ _ _ _ Hix), tid_ids. }
    assert (Hhk : (h < k)%nat).
    { pose proof (height_entries _ _ Hsizes h t H4 (ix_fit _ _ _ _ _ _ Hix)) as Hh.
      apply Nat2Z.inj_lt, (Z.pow_lt_mono_r_iff 2); lia. }
    destruct (insert_into_leaf_ok fuel s h t key value H Hix Hud) as (s' & h' & t' & Hrun & Hup);
      [apply (room_le _ _ _ Hr); lia|lia|].
    exists s'. split; [done|]. destruct (bool_decide _).
    + destruct Hup. split; [|done]. split; [done|]. right. by exists h', t'.
    + destruct Hup as [-> ->]. split; [|done]. split; [done|]. right. by exists h, t.
Qed.

Lemma represents_tree s es :
  represents s es -> es <> [] -> exists h t, index_at s h t /\ undeleted s (ids t) /\ es = entries (tokens t).
Proof. by intros [_ [(_ & ? & _)|Ht]] Hne. Qed.

Lemma represents_sorted s es : represents s es -> sorted cmp es.
Proof.
  intros [_ [(_ & -> & _)|(h & t & Hix & _ & ->)]]; [constructor|]. apply ordered_sorted, Hix.
Qed.

Lemma insert_entry_nonempty k v (es : list (K * V)) : insert_entry cmp k v es <> [].
Proof. destruct es as [|[k' v'] es]; [done|]. simpl. destruct (0 <=? _); [destruct (_ =? 0)|]; done. Qed.

(** The root of an empty index. *)
Lemma represents_empty s : represents s [] -> ready s /\ root_page_id_ s = INVALID_PAGE_ID.
Proof.
  intros [H [(Hr & _)|(h & t & Hix & _ & E)]]; [done|]. exfalso.
  by apply (entries_pos _ _ Hsizes h t (ix_fit _ _ _ _ _ _ Hix)).
Qed.

Lemma find_leaf_empty fuel s key leftMost with_txn :
  represents s [] -> room 1 s -> (0 < fuel)%nat ->
  FindLeafPage key_size zero_key cmp fuel key leftMost with_txn Action.LookUp s = Fail AssertFail.
Proof.
  intros [H Hroot]%represents_empty Hr Hfuel. rewrite (enter_trivial _ _ _ _ fuel key leftMost with_txn _ s 0 H Hr).
  destruct fuel as [|fuel]; [lia|]. destruct (rd_page _ _ H) as (hd & Hhd & Hid & Hty). cbn [BPlusTree.descend].
  erewrite bind_run by (apply (get_page_ok 0 (TrivialPage hd)); [apply elem_of_pinned|done|done]).
  unfold IsLeafPage, IsTrivialPage. rewrite Hty, bool_decide_false, bool_decide_true by done.
  apply bind_fail. unfold enter_root. set (s1 := looking with_txn 0 s).
  rewrite (bind_run _ _ s1 (root_page_id_ s) s1 eq_refl).
  rewrite (bind_run _ _ s1 (trivial_page_id_ s) s1 eq_refl).
  by rewrite Hroot.
Qed.

Lemma get_value_represents fuel s es key with_txn k :
  represents s es -> 4 <= internal_max -> Z.of_nat (length es) < 2 ^ Z.of_nat k ->
  room 2 s -> (k < fuel)%nat ->
  GetValue fuel key with_txn s = if bool_decide (es = []) then Fail AssertFail else Ok (find_entry cmp key es, s).
Proof.
  intros Hs H4 Hk Hr Hfuel. case_bool_decide as E.
  - subst es. apply bind_fail, find_leaf_empty; [done|apply (room_le _ _ _ Hr); lia|lia].
  - destruct Hs as [H [(_ & ? & _)|(h & t & Hix & _ & ->)]]; [done|].
    pose proof (height_entries _ _ Hsizes h t H4 (ix_fit _ _ _ _ _ _ Hix)) as Hh.
    assert (Hhk : (h < k)%nat) by (apply Nat2Z.inj_lt, (Z.pow_lt_mono_r_iff 2); lia).
    apply (get_value_ok key_size value_size zero_key zero_value index_name cmp Hsizes fuel key with_txn s h t); [done..|lia].
Qed.

(** ** Sequences of operations *)

Inductive Op := OpInsert (key : K) (value : V) | OpRemove (key : K) | OpGetValue (key : K) (txn : bool).

Inductive Answer := Inserted (new : bool) | Removed | Found (value : option V).

Definition run_op (fuel : nat) (op : Op) : M K V Answer :=
  match op with
  | OpInsert key value => let! new := Insert fuel key value true in ret (Inserted new)
  | OpRemove key => run! Remove fuel key true ;; ret Removed
  | OpGetValue key txn => let! value := GetValue fuel key txn in ret (Found value)
  end.

Fixpoint run_ops (fuel : nat) (ops : list Op) : M K V (list Answer) :=
  match ops with
  | [] => ret []
  | op :: ops => let! a := run_op fuel op in let! l := run_ops fuel ops in ret (a :: l)
  end.

(** The same on a sorted list: a lookup in the empty list fails an assertion. *)
Definition spec_op (es : list (K * V)) (op : Op) : result (Answer * list (K * V)) :=
  match op with
  | OpInsert key value =>
      Ok (Inserted (bool_decide (find_entry cmp key es = None)), insert_entry cmp key value es)
  | OpRemove key => Ok (Removed, remove_entry cmp key es)
  | OpGetValue key _ => if bool_decide (es = []) then Fail AssertFail else Ok (Found (find_entry cmp key es), es)
  end.

Fixpoint spec_ops (es : list (K * V)) (ops : list Op) : result (list Answer * list (K * V)) :=
  match ops with
  | [] => Ok ([], es)
  | op :: ops => let* (a, es) := spec_op es op in let* (l, es) := spec_ops es ops in Ok (a :: l, es)
  end.

Lemma insert_entry_length_le k v (es : list (K * V)) : (length (insert_entry cmp k v es) <= S (length es))%nat.
Proof. induction es as [|[k' v'] es IH]; simpl; [lia|]. destruct (0 <=? _); [destruct (_ =? 0)|]; simpl; lia. Qed.

(** What a run guarantees, given what the specification says. *)
Definition simulates {A} (s : State K V) (spec : result (A * list (K * V))) (run : result (A * State K V)) : Prop :=
  match spec with
  | Ok (x, es') => exists s', run = Ok (x, s') /\ represents s' es' /\ pins (store s') = pins (store s) /\
                              capacity (store s') = capacity (store s)
  | Fail e => run = Fail e
  end.

Lemma run_op_ok fuel s es op k :
  represents s es -> 4 <= internal_max -> Z.of_nat (length es) < 2 ^ Z.of_nat k ->
  room (4 * k + 5) s -> (k < fuel)%nat -> simulates s (spec_op es op) (run_op fuel op s).
Proof.
  intros Hs H4 Hk Hr Hfuel. destruct op as [key value|key|key txn]; simpl.
  - destruct (insert_represents fuel s es key value k Hs H4 Hk (room_le _ (3 * k + 5) _ Hr ltac:(lia)) Hfuel) as (s' & Hrun & Hrest).
    exists s'. by rewrite (bind_run _ _ _ _ _ Hrun).
  - destruct (remove_represents key_size value_size zero_key zero_value index_name cmp Hsizes Hname H4 fuel s es key k
      Hs Hk Hr Hfuel) as (s' & Hrun & Hrest).
    exists s'. by rewrite (bind_run _ _ _ _ _ Hrun).
  - pose proof (get_value_represents fuel s es key txn k Hs H4 Hk (room_le _ 2 _ Hr ltac:(lia)) Hfuel) as Hrun.
    destruct (bool_decide (es = [])); simpl; [by apply bind_fail|]. exists s. by rewrite (bind_run _ _ _ _ _ Hrun).
Qed.

Lemma run_ops_ok fuel k ops : forall s es,
  represents s es -> 4 <= internal_max -> Z.of_nat (length es + length ops) < 2 ^ Z.of_nat k ->
  room (4 * k + 5) s -> (k < fuel)%nat -> simulates s (spec_ops es ops) (run_ops fuel ops s).
Proof.
  induction ops as [|op ops IH]; intros s es Hs H4 Hk Hr Hfuel; [by exists s|]. cbn [spec_ops run_ops].
  cbn [length] in Hk. pose proof (run_op_ok fuel s es op k Hs H4 ltac:(lia) Hr Hfuel) as Hop.
  assert (Hlen : forall a es', spec_op es op = Ok (a, es') -> (length es' <= S (length es))%nat).
  { intros a es'. destruct op as [key value|key|key txn]; simpl.
    - intros [= _ <-]. apply insert_entry_length_le.
    - intros [= _ <-]. apply le_S, remove_entry_length.
    - destruct (bool_decide _); [done|]. intros [= _ <-]. lia. }
  destruct (spec_op es op) as [[a es1]|e]; simpl in Hop |- *; [|by apply bind_fail].
  destruct Hop as (s1 & Hrun & Hs1 & Hp1 & Hc1). specialize (Hlen a es1 eq_refl).
  rewrite (bind_run _ _ _ _ _ Hrun).
  specialize (IH s1 es1 Hs1 H4 ltac:(lia)). unfold room in IH, Hr. rewrite Hp1, Hc1 in IH. specialize (IH Hr Hfuel).
  destruct (spec_ops es1 ops) as [[l es2]|e]; simpl in IH |- *; [|by apply bind_fail].
  destruct IH as (s2 & Hrun2 & Hs2 & Hp2 & Hc2). exists s2. rewrite (bind_run _ _ _ _ _ Hrun2). split; [done|].
  split; [done|]. split; congruence.
Qed.
End Refine.
End TreeRefine.
