(* ===== verification/TreeTheorems.v ===== *)
(** * The properties of the B+ tree index

    The index against the sorted list of its entries: any run of insertions, removals
    and lookups, one insertion or removal followed by lookups, iteration, the height, the empty
    index; and the pin a second index keeps. *)

From stdpp Require Import prelude gmap gmultiset list sorting strings.
From Stdlib Require Import ZArith Lia.
From S2P Require Import Prelude HeaderPage BPlusTreePage LeafPage InternalPage TreeNodes BPlusTree.
From S2P Require Import TreeModel TreeSteps TreeInsert TreeSearch TreeHeight TreeScan TreeRemove TreeRefine.

Local Open Scope Z_scope.

Module TreeTheorems.
Import BPage Nodes TreeModel BPlusTree TreeSteps TreeInsert TreeSearch TreeHeight TreeScan TreeRemove TreeRefine.

(** ** A new index *)

Section Fresh.
Context {K V : Type} (key_size value_size : Z) (index_name : list Z) (cmp : K -> K -> Z).

(** A pool of [capacity] frames with no page. *)
Definition empty_pool (capacity : nat) : State K V :=
  mkState 0 INVALID_PAGE_ID (mkStore ∅ ∅ ∅ 0 capacity) (mkTxn [] ∅).

Definition zero_header : list Z := replicate (Z.to_nat PAGE_SIZE) 0.

Lemma zero_header_repr : Header.repr zero_header [].
Proof.
  split; try done.
  - apply Nat.le_0_l.
  - constructor.
Qed.

(** The header page, as a test makes it: a new page, of zeros. *)
Definition new_header : M K V unit :=
  let! (id, page) := NewPage in
  let! page := GetData page in
  run! write_node page (HeaderNode zero_header) ;;
  run! UnpinPage id true ;; ret tt.

(** The constructor on an empty pool, then the header page. *)
Definition new_index (capacity : nat) : result (unit * State K V) :=
  (run! create INVALID_PAGE_ID ;; new_header) (empty_pool capacity).

Lemma new_index_ok capacity :
  (1 <= capacity)%nat ->
  exists s, new_index capacity = Ok (tt, s) /\ represents key_size value_size index_name cmp s [] /\
            pins (store s) = ∅ /\ Nodes.capacity (store s) = capacity.
Proof.
  intros Hc. unfold new_index, create. set (s0 := empty_pool capacity).
  assert (Hr : room 1 s0) by done.
  rewrite bind_bind, (bind_run _ _ _ _ _ (new_page_ok s0 0 Hr)). cbv beta iota. set (s1 := upd _ _ _ _ s0).
  rewrite bind_bind, (bind_run _ _ s1 0 s1 eq_refl).
  rewrite bind_bind, (bind_run _ _ _ _ _ (read_ok 0 RawPage s1 (elem_of_pinned _ _) eq_refl)).
  rewrite bind_bind, (bind_run _ _ s1 zero_hdr s1 eq_refl).
  rewrite bind_bind, (bind_run _ _ _ _ _ (write_ok 0 _ s1 (elem_of_pinned _ _))).
  set (s2 := put 0 _ s1).
  rewrite bind_bind, (bind_run _ _ _ _ _ (unpin_ok 0 s2 (elem_of_pinned _ _) ltac:(done))).
  set (s3 := mkState 0 INVALID_PAGE_ID (store (drop_pin 0 true s2)) (mkTxn [] ∅)).
  rewrite (bind_run _ _ (drop_pin 0 true s2) tt s3 eq_refl).
  assert (Hp : pins (store s3) = ∅) by apply unpin_pinned.
  assert (Hr3 : room 1 s3) by (unfold room; rewrite Hp; done).
  unfold new_header. rewrite (bind_run _ _ _ _ _ (new_page_ok s3 0 Hr3)). cbv beta iota. set (s4 := upd _ _ _ _ s3).
  rewrite (bind_run _ _ s4 1 s4 eq_refl).
  rewrite (bind_run _ _ _ _ _ (write_ok 1 _ s4 (elem_of_pinned _ _))). set (s5 := put 1 _ s4).
  rewrite (bind_run _ _ _ _ _ (unpin_ok 1 s5 (elem_of_pinned _ _) ltac:(done))).
  exists (drop_pin 1 true s5). split; [done|]. split; [|split; [|done]].
  - split; [split; try done|].
    + by eexists.
    + exists []. split; [|by intros r ?%not_elem_of_nil]. exists zero_header. split; [done|apply zero_header_repr].
    + left. split; [done|]. split; [done|]. by intros q ?%not_elem_of_empty.
  - transitivity (pins (store s3)); [apply unpin_pinned|done].
Qed.
End Fresh.

(** ** The properties *)

Section Properties.
Context {K V : Type} (key_size value_size : Z) (zero_key : K) (zero_value : V).
Context (index_name : list Z) (cmp : K -> K -> Z) `{!KeyOrder cmp}.

Abbreviation internal_max := (internal_max key_size).
Abbreviation represents := (represents key_size value_size index_name cmp).
Abbreviation Insert := (Insert key_size value_size zero_key zero_value index_name cmp).
Abbreviation Remove := (Remove key_size value_size zero_key zero_value index_name cmp).
Abbreviation GetValue := (GetValue key_size value_size zero_key zero_value cmp).
Abbreviation scan_all := (scan_all key_size value_size zero_key zero_value cmp).
Abbreviation scan_from := (scan_from key_size value_size zero_key zero_value cmp).
Abbreviation run_ops := (run_ops key_size value_size zero_key zero_value index_name cmp).
Abbreviation Begin := (Begin key_size zero_key cmp).
Abbreviation Begin_at := (Begin_at key_size value_size zero_key zero_value cmp).

(** C1: on any index that represents a sorted list of entries, any sequence of Insert,
    Remove and GetValue calls answers what the sorted list answers, a call that faults included,
    and leaves an index that represents the list left, with the same pins; it needs
    [4 * k + 5] frames and a fuel above [k] for fewer than [2 ^ k] entries. *)
Theorem index_refines_list (fuel k : nat) (ops : list (@Op K V)) (s : State K V) (es : list (K * V))
    (Hsizes : sizes_ok key_size value_size) (H4 : 4 <= internal_max) (Hname : Header.name_ok index_name)
    (H : represents s es) (Hk : Z.of_nat (length es + length ops) < 2 ^ Z.of_nat k)
    (Hr : room (4 * k + 5) s) (Hfuel : (k < fuel)%nat) :
  match spec_ops cmp es ops with
  | Ok (answers, es') =>
      exists s', run_ops fuel ops s = Ok (answers, s') /\ represents s' es' /\
                 pins (store s') = pins (store s)
  | Fail e => run_ops fuel ops s = Fail e
  end.
Proof.
  pose proof (run_ops_ok key_size value_size zero_key zero_value index_name cmp Hsizes Hname
    fuel k ops s es H H4 Hk Hr Hfuel) as Hrun.
  destruct (spec_ops cmp es ops) as [[answers es']|e]; [|done].
  destruct Hrun as (s' & Hrun & Hs' & Hp & _). by exists s'.
Qed.

(** An Insert answers whether the key was not in the index; after it GetValue finds
    the new value at that key only if it was, the old value otherwise, and every other
    key as before. *)
Theorem insert_lookup (fuel k : nat) (key : K) (value : V) (s : State K V) (es : list (K * V))
    (Hsizes : sizes_ok key_size value_size) (H4 : 4 <= internal_max) (Hname : Header.name_ok index_name)
    (H : represents s es) (Hk : Z.of_nat (length es) + 1 < 2 ^ Z.of_nat k)
    (Hr : room (3 * k + 5) s) (Hfuel : (k < fuel)%nat) :
  exists s', Insert fuel key value true s = Ok (bool_decide (find_entry cmp key es = None), s') /\
    forall q txn, GetValue fuel q txn s' =
      Ok (if cmp q key =? 0 then Some (default value (find_entry cmp key es)) else find_entry cmp q es, s').
Proof.
  destruct (insert_represents key_size value_size zero_key zero_value index_name cmp Hsizes Hname
    fuel s es key value k H H4 ltac:(lia) Hr Hfuel) as (s' & Hins & Hs' & Hp & Hc).
  exists s'. split; [done|]. intros q txn. pose proof (insert_entry_length_le cmp key value es) as Hlen.
  rewrite (get_value_represents key_size value_size zero_key zero_value index_name cmp Hsizes
    fuel s' _ q txn k Hs' H4); [|lia| |done].
  - rewrite bool_decide_false, find_insert_entry; [done|done| |].
    + by apply (represents_sorted key_size value_size index_name cmp s es).
    + by apply insert_entry_nonempty.
  - unfold room in *. rewrite Hp, Hc. lia.
Qed.

(** C4: after a Remove no lookup finds the key and every other key is as before, unless
    no entry is left, when every lookup fails an assertion. *)
Theorem remove_lookup (fuel k : nat) (key : K) (s : State K V) (es : list (K * V))
    (Hsizes : sizes_ok key_size value_size) (H4 : 4 <= internal_max) (Hname : Header.name_ok index_name)
    (H : represents s es) (Hk : Z.of_nat (length es) < 2 ^ Z.of_nat k)
    (Hr : room (4 * k + 5) s) (Hfuel : (k < fuel)%nat) :
  exists s', Remove fuel key true s = Ok (tt, s') /\
    forall q txn, GetValue fuel q txn s' =
      if bool_decide (remove_entry cmp key es = []) then Fail AssertFail
      else Ok (if cmp q key =? 0 then None else find_entry cmp q es, s').
Proof.
  destruct (remove_represents key_size value_size zero_key zero_value index_name cmp Hsizes Hname H4
    fuel s es key k H Hk Hr Hfuel) as (s' & Hrem & Hs' & Hp & Hc).
  exists s'. split; [done|]. intros q txn. pose proof (remove_entry_length cmp key es) as Hlen.
  rewrite (get_value_represents key_size value_size zero_key zero_value index_name cmp Hsizes
    fuel s' _ q txn k Hs' H4); [|lia| |done].
  - rewrite find_remove_entry; [done|done|]. by apply (represents_sorted key_size value_size index_name cmp s es).
  - unfold room in *. rewrite Hp, Hc. lia.
Qed.



(** A tree of height [h + 1] has at least twice [leaf_max / 2] entries for each of
    the [(internal_max / 2) ^ h] pages of half the capacity below a child of its root,
    so the height is logarithmic in the entries. *)
Theorem index_height (s : State K V) (h : nat) (t : tree K V)
    (Hsizes : sizes_ok key_size value_size) (H : index_at key_size value_size cmp s (S h) t) :
  2 * (leaf_max key_size value_size / 2 * (internal_max / 2) ^ Z.of_nat h) <=
  Z.of_nat (length (entries (tokens t))).
Proof. by apply tree_entries; [|apply H]. Qed.

(** On an empty index IsEmpty is true and Remove returns at once, but GetValue and
    both forms of Begin fail the assertion of FetchPage, since FindLeafPage fetches the
    page -1. *)
Theorem empty_index (fuel : nat) (key : K) (txn : bool) (s : State K V)
    (Hsizes : sizes_ok key_size value_size) (H : represents s []) (Hr : room 1 s) (Hfuel : (0 < fuel)%nat) :
  IsEmpty s = Ok (true, s) /\ Remove fuel key txn s = Ok (tt, s) /\
  GetValue fuel key txn s = Fail AssertFail /\ Begin fuel s = Fail AssertFail /\
  Begin_at fuel key s = Fail AssertFail.
Proof.
  pose proof (find_leaf_empty key_size value_size zero_key index_name cmp Hsizes fuel s) as Hfind.
  destruct (represents_empty _ _ _ _ Hsizes s H) as [_ Hroot].
  assert (He : IsEmpty s = Ok (true, s)).
  { unfold IsEmpty. rewrite (bind_run _ _ s (root_page_id_ s) s eq_refl). by rewrite Hroot. }
  split; [done|]. split; [unfold BPlusTree.Remove; by rewrite (bind_run _ _ _ _ _ He)|].
  split; [|split]; by apply bind_fail, Hfind.
Qed.
End Properties.

(** ** Witnesses *)

Section Witnesses.

(** 64-byte integer keys and 8-byte values: leaves of 6 entries. *)
Abbreviation sample_represents := (represents 64 8 [65] Z.sub).
Abbreviation sample_run := (run_ops 64 8 0 0 [65] Z.sub 12).

Lemma sample_sizes : sizes_ok 64 8.
Proof. by split; vm_compute. Qed.

Lemma sample_name : Header.name_ok [65].
Proof. split; [simpl; lia|]. by repeat constructor. Qed.

Definition sample_ops : list (@Op Z Z) := map (fun k => OpInsert k (10 * k)) [5; 3; 9; 1; 7; 8; 2; 6; 4; 3].
Definition sample_entries : list (Z * Z) := map (fun k => (k, 10 * k)) [1; 2; 3; 4; 5; 6; 7; 8; 9].

Definition sample_new : State Z Z :=
  match new_index 32 with Ok (_, s) => s | Fail _ => empty_pool 32 end.
Definition sample_index : State Z Z :=
  match sample_run sample_ops sample_new with Ok (_, s) => s | Fail _ => sample_new end.

Lemma sample_new_ok : sample_represents sample_new [] /\ pins (store sample_new) = ∅ /\
  capacity (store sample_new) = 32%nat.
Proof.
  destruct (new_index_ok (K := Z) (V := Z) 64 8 [65] Z.sub 32) as (s & Hs & H & Hp & Hc); [lia|].
  unfold sample_new. by rewrite Hs.
Qed.

Lemma room_unpinned (s : State Z Z) k : pins (store s) = ∅ -> (k <= capacity (store s))%nat -> room k s.
Proof. intros Hp Hc. unfold room. rewrite Hp. by replace (size (dom (∅ : gmultiset Z))) with 0%nat by reflexivity. Qed.

Lemma sample_index_ok : sample_represents sample_index sample_entries /\ pins (store sample_index) = ∅ /\
  capacity (store sample_index) = 32%nat.
Proof.
  destruct sample_new_ok as (H & Hp & Hc).
  pose proof (run_ops_ok 64 8 0 0 [65] Z.sub sample_sizes sample_name 12 5 sample_ops sample_new [] H) as Hrun.
  assert (E : exists l, spec_ops Z.sub [] sample_ops = Ok (l, sample_entries)) by (by eexists).
  destruct E as [l E]. rewrite E in Hrun. destruct Hrun as (s' & Hrun & Hs' & Hp' & Hc').
  - by vm_compute.
  - by vm_compute.
  - apply room_unpinned; [done|]. rewrite Hc. lia.
  - lia.
  - unfold sample_index. rewrite Hrun. split; [done|]. split; congruence.
Qed.

Lemma sample_room k : (k <= 32)%nat -> room k sample_index.
Proof. destruct sample_index_ok as (_ & Hp & Hc). intros Hk. apply room_unpinned; [done|]. by rewrite Hc. Qed.

(** The removals merge the leaves. *)
Lemma index_refines_list_witness :
  exists s', sample_run (OpInsert 10 0 :: OpInsert 3 1 :: OpGetValue 3 false :: map OpRemove [2; 4; 6; 8; 1; 9; 11; 3] ++
                         [OpGetValue 3 true; OpGetValue 5 true]) sample_index =
             Ok ([Inserted true; Inserted false; Found (Some 30)] ++ repeat Removed 8 ++ [Found None; Found (Some 50)], s') /\
             sample_represents s' [(5, 50); (7, 70); (10, 0)] /\ pins (store s') = pins (store sample_index).
Proof.
  apply (index_refines_list 64 8 0 0 [65] Z.sub 12 5
    (OpInsert 10 0 :: OpInsert 3 1 :: OpGetValue 3 false :: map OpRemove [2; 4; 6; 8; 1; 9; 11; 3] ++
     [OpGetValue 3 true; OpGetValue 5 true]) sample_index sample_entries).
  - exact sample_sizes.
  - by vm_compute.
  - exact sample_name.
  - apply sample_index_ok.
  - by vm_compute.
  - apply sample_room. lia.
  - lia.
Defined.

Lemma insert_lookup_witness :
  exists s', BPlusTree.Insert 64 8 0 0 [65] Z.sub 12 10 100 true sample_index = Ok (true, s') /\
    forall q txn, BPlusTree.GetValue 64 8 0 0 Z.sub 12 q txn s' =
      Ok (if Z.sub q 10 =? 0 then Some 100 else find_entry Z.sub q sample_entries, s').
Proof.
  apply (insert_lookup 64 8 0 0 [65] Z.sub 12 5 10 100 sample_index sample_entries).
  - exact sample_sizes.
  - by vm_compute.
  - exact sample_name.
  - apply sample_index_ok.
  - by vm_compute.
  - apply sample_room. lia.
  - lia.
Defined.

Lemma remove_lookup_witness :
  exists s', BPlusTree.Remove 64 8 0 0 [65] Z.sub 12 6 true sample_index = Ok (tt, s') /\
    forall q txn, BPlusTree.GetValue 64 8 0 0 Z.sub 12 q txn s' =
      Ok (if Z.sub q 6 =? 0 then None else find_entry Z.sub q sample_entries, s').
Proof.
  apply (remove_lookup 64 8 0 0 [65] Z.sub 12 5 6 sample_index sample_entries).
  - exact sample_sizes.
  - by vm_compute.
  - exact sample_name.
  - apply sample_index_ok.
  - by vm_compute.
  - apply sample_room. lia.
  - lia.
Defined.



(** With the keys 10, 20, ..., 70 in two leaves, an iteration from 35 throws, because 35 is
    above the keys of its leaf, although 40 follows; one from 40 reads the rest. *)
Example begin_between_leaves :
  let s := match sample_run (map (fun k => OpInsert k k) [10; 20; 30; 40; 50; 60; 70]) sample_new with
           | Ok (_, s) => s | Fail _ => sample_new end in
  scan_from 64 8 0 0 Z.sub 12 35 s = Fail (Throw "no such key"%string) /\
  (let* (l, _) := scan_from 64 8 0 0 Z.sub 12 40 s in Ok l) = Ok [(40, 40); (50, 50); (60, 60); (70, 70)].
Proof. vm_compute. split; reflexivity. Qed.

(** Nine entries do not fit in a leaf. *)
Lemma sample_tall : exists h t, index_at 64 8 Z.sub sample_index (S h) t.
Proof.
  destruct (represents_tree 64 8 [65] Z.sub sample_index sample_entries) as (h & t & Hix & _ & E);
    [apply sample_index_ok|done|].
  destruct h as [|h]; [|by exists h, t]. exfalso. pose proof (ix_holds _ _ _ _ _ _ Hix) as Hh.
  destruct t as [id nx es|]; [|done]. destruct Hh as (p & _ & Hi). rewrite entries_page in E. subst es.
  pose proof (leaf_is_length _ _ _ _ _ _ _ Hi) as Hlen. pose proof (Leaf.l_size _ (li_wf _ _ _ _ _ _ _ Hi)) as Hs.
  rewrite Hlen, (li_max _ _ _ _ _ _ _ Hi) in Hs. by destruct Hs as [_ []].
Qed.

Lemma index_height_witness :
  exists h t, index_at 64 8 Z.sub sample_index (S h) t /\
    2 * (leaf_max 64 8 / 2 * (internal_max 64 / 2) ^ Z.of_nat h) <= Z.of_nat (length (entries (tokens t))).
Proof.
  destruct sample_tall as (h & t & H). exists h, t. split; [exact H|].
  exact (index_height 64 8 Z.sub sample_index h t sample_sizes H).
Defined.

Lemma empty_index_witness :
  IsEmpty sample_new = Ok (true, sample_new) /\
  BPlusTree.Remove 64 8 0 0 [65] Z.sub 12 7 true sample_new = Ok (tt, sample_new) /\
  BPlusTree.GetValue 64 8 0 0 Z.sub 12 7 true sample_new = Fail AssertFail /\
  BPlusTree.Begin 64 0 Z.sub 12 sample_new = Fail AssertFail /\
  BPlusTree.Begin_at 64 8 0 0 Z.sub 12 7 sample_new = Fail AssertFail.
Proof.
  apply (empty_index 64 8 0 0 [65] Z.sub 12 7 true sample_new).
  - exact sample_sizes.
  - apply sample_new_ok.
  - destruct sample_new_ok as (_ & Hp & Hc). apply room_unpinned; [done|]. rewrite Hc. lia.
  - lia.
Defined.

(** A second index in the pool: its constructor, then insertions of 1, .., [n]. *)
Definition second_index (n : nat) : result (list Z * Z) :=
  match (run! create INVALID_PAGE_ID ;;
         sample_run (map (fun k => OpInsert (Z.of_nat k) 0) (seq 1 n))) sample_index with
  | Ok (_, s) => Ok (elements (pins (store s)), trivial_page_id_ s)
  | Fail e => Fail e
  end.

(** The page id in a trivial page is never set, so the release of the page set unpins
    the page 0: in an index whose trivial page is another page, an insertion that finds
    the root full leaves a pin on its trivial page, and each later one another pin. *)
Theorem second_index_leaks_pin :
  exists p, p <> 0 /\ second_index 6 = Ok ([], p) /\ second_index 7 = Ok ([p], p) /\
            second_index 30 = Ok ([p; p; p; p], p).
Proof. exists 5. by vm_compute. Qed.
End Witnesses.
End TreeTheorems.
