(* ===== verification/NodeBytes.v ===== *)
(** * The bytes of the tree pages

    A page of the pool is 512 bytes, and the tree reaches it through casts
    (src/src/include/page/b_plus_tree_page.h, b_plus_tree_leaf_page.h and
    b_plus_tree_internal_page.h): the members of the header as little-endian integers,
    one after the other, then the array of pairs.  [page_bytes] lays a node of
    [TreeNodes] out, the views read a page back the way the casts do, and a node is what
    its bytes say. *)

From stdpp Require Import prelude gmap gmultiset list.
From Stdlib Require Import ZArith Lia.
From S2P Require Import Prelude Rid BPlusTreePage LeafPage InternalPage TreeNodes.

Local Open Scope Z_scope.

Module NodeBytes.
Import BPage Nodes.

(** ** Values of a fixed size *)

(** A type whose values take [size] bytes, as the keys and the values of an index do;
    [packs] are the values in the range of their members. *)
Class Packed (A : Type) (size : Z) := {
  pack : A -> Buf;
  unpack : Buf -> option A;
  packs : A -> Prop;
  packed_size : 0 < size;
  pack_length a : length (pack a) = Z.to_nat size;
  unpack_pack a : packs a -> unpack (pack a) = Some a
}.

(** An integer of [n] bytes. *)
#[export, refine] Instance int_packed (n : nat) : Packed Z (Z.of_nat (S n)) := {
  pack := le_encode (S n);
  unpack bs := Some (swrap (8 * Z.of_nat (S n)) (le_decode bs));
  packs := in_sint (8 * Z.of_nat (S n))
}.
Proof.
  - lia.
  - intros a. rewrite length_le_encode. lia.
  - intros a Ha. rewrite le_decode_encode, swrap_mod, swrap_id by (done || lia). done.
Defined.

#[export] Instance page_id_packed : Packed Z 4 := int_packed 3.

(** A pair without padding between its members. *)
#[export, refine] Instance pair_packed {A B} {n m : Z} `{!Packed A n} `{!Packed B m} : Packed (A * B) (n + m) := {
  pack x := pack x.1 ++ pack x.2;
  unpack bs := a ← unpack (slice 0 n bs); b ← unpack (slice n m bs); Some (a, b);
  packs x := packs x.1 /\ packs x.2
}.
Proof.
  - pose proof (packed_size (A := A) (size := n)). pose proof (packed_size (A := B) (size := m)). lia.
  - intros [a b]. pose proof (packed_size (A := A) (size := n)). pose proof (packed_size (A := B) (size := m)).
    rewrite length_app, !pack_length. simpl. lia.
  - intros [a b] [Ha Hb]. simpl in *. pose proof (pack_length a). pose proof (pack_length b).
    unfold slice. rewrite drop_0, take_app_length' by done. rewrite (unpack_pack a Ha). simpl.
    rewrite drop_app_length' by done. rewrite take_ge by lia. by rewrite (unpack_pack b Hb).
Defined.

(** [RID] (src/src/include/common/rid.h). *)
#[export, refine] Instance rid_packed : Packed Rid.RID 8 := {
  pack r := le_encode 4 (Rid.page_id_ r) ++ le_encode 4 (Rid.slot_num_ r);
  unpack bs := Some (Rid.mkRID (i32_at bs 0) (i32_at bs 4));
  packs := Rid.valid
}.
Proof.
  - lia.
  - intros [p s]. by rewrite length_app, !length_le_encode.
  - intros [p s] [Hp Hs]. unfold i32_at. simpl Rid.page_id_ in *. simpl Rid.slot_num_ in *. do 2 f_equal.
    + change (slice 0 4 _) with (le_encode 4 p). rewrite le_decode_encode, swrap_mod, swrap_id by (done || lia). done.
    + change (slice 4 4 _) with (le_encode 4 s). rewrite le_decode_encode, swrap_mod, swrap_id by (done || lia). done.
Defined.

(** ** The layout of a node *)

Section Bytes.
Context {K V : Type} (key_size value_size : Z) (zero_key : K) (zero_value : V).
Context `{!Packed K key_size} `{!Packed V value_size}.

Abbreviation Node := (Node K V).
Abbreviation leaf_max := (leaf_max key_size value_size).
Abbreviation internal_max := (internal_max key_size).

(** The numbers of [IndexPageType]. *)
Definition type_code (t : IndexPageType) : Z :=
  match t with INVALID_INDEX_PAGE => 0 | LEAF_PAGE => 1 | INTERNAL_PAGE => 2 | TRIVIAL_PAGE => 3 end.

Definition type_of (code : Z) : option IndexPageType :=
  match code with
  | 0 => Some INVALID_INDEX_PAGE
  | 1 => Some LEAF_PAGE
  | 2 => Some INTERNAL_PAGE
  | 3 => Some TRIVIAL_PAGE
  | _ => None
  end.

Definition header_ints (h : BPlusTreePage) : list Z :=
  [type_code (page_type_ h); lsn_ h; size_ h; max_size_ h; parent_page_id_ h; page_id_ h].

Definition ints (l : list Z) : Buf := mjoin (le_encode 4 <$> l).

Definition cells {A} {size : Z} `{!Packed A size} (l : list A) : Buf := mjoin (pack <$> l).

Definition node_bytes (n : Node) : Buf :=
  match n with
  | RawPage => []
  | TrivialPage h => ints (header_ints h)
  | LeafNode p => ints (header_ints (Leaf.hdr p) ++ [Leaf.next_page_id_ p]) ++ cells (Leaf.array p)
  | InternalNode p => ints (header_ints (Internal.hdr p)) ++ cells (size := key_size + 4) (Internal.array p)
  | HeaderNode page => page
  end.

(** The rest of the page is zeros, as [NewPage] made it. *)
Definition page_bytes (n : Node) : Buf := resize (Z.to_nat PAGE_SIZE) 0 (node_bytes n).

(** ** The casts, on bytes *)

Definition view_page (b : Buf) : option BPlusTreePage :=
  t ← type_of (i32_at b 0);
  Some (mkHdr t (i32_at b 4) (i32_at b 8) (i32_at b 12) (i32_at b 16) (i32_at b 20)).

Definition view_cells {A} {size : Z} `{!Packed A size} (off n : Z) (b : Buf) : option (list A) :=
  mapM (fun i => unpack (slice (off + Z.of_nat i * size) size b)) (seq 0 (Z.to_nat n)).

Definition view_leaf (b : Buf) : option (Leaf.BPlusTreeLeafPage K V) :=
  h ← view_page b;
  array ← view_cells (size := key_size + value_size) Leaf.sizeof_leaf leaf_max b;
  Some (Leaf.mkLeaf h (i32_at b 24) array).

Definition view_internal (b : Buf) : option (Internal.BPlusTreeInternalPage K) :=
  h ← view_page b;
  array ← view_cells (size := key_size + 4) Internal.sizeof_internal internal_max b;
  Some (Internal.mkInternal h array).

(** ** Nodes that fit a page *)

Definition int_header (h : BPlusTreePage) : Prop := Forall (in_sint 32) (header_ints h).

Definition shaped (n : Node) : Prop :=
  match n with
  | RawPage => True
  | TrivialPage h => int_header h
  | LeafNode p =>
      int_header (Leaf.hdr p) /\ int32 (Leaf.next_page_id_ p) /\
      Z.of_nat (length (Leaf.array p)) = leaf_max /\ Forall (packs (size := key_size + value_size)) (Leaf.array p)
  | InternalNode p =>
      int_header (Internal.hdr p) /\
      Z.of_nat (length (Internal.array p)) = internal_max /\ Forall (packs (size := key_size + 4)) (Internal.array p)
  | HeaderNode page => length page = Z.to_nat PAGE_SIZE
  end.

(** The key and the value of zeros. *)
Record zeros_ok : Prop := {
  zo_key : pack zero_key = replicate (Z.to_nat key_size) 0 /\ packs zero_key;
  zo_value : pack zero_value = replicate (Z.to_nat value_size) 0 /\ packs zero_value
}.

(** ** Lemmas: blocks of bytes *)

(** One of the blocks of equal length between [pre] and [rest]. *)
Lemma slice_blocks (c : Z) (pre rest : Buf) (ls : list Buf) (i : nat) x :
  0 <= c -> Forall (fun l => length l = Z.to_nat c) ls -> ls !! i = Some x ->
  slice (Z.of_nat (length pre) + Z.of_nat i * c) c (pre ++ mjoin ls ++ rest) = x.
Proof.
  intros Hc. revert pre i. induction ls as [|l ls IH]; intros pre i Hl Hi; [done|].
  apply Forall_cons in Hl as [Hlen Hl]. change (mjoin (l :: ls)) with (l ++ mjoin ls). destruct i as [|i].
  - injection Hi as ->. rewrite Z.add_0_r. unfold slice. rewrite Nat2Z.id, drop_app_length, <- app_assoc, <- Hlen.
    apply take_app_length.
  - rewrite <- app_assoc, app_assoc. replace (Z.of_nat (length pre) + Z.of_nat (S i) * c)
      with (Z.of_nat (length (pre ++ l)) + Z.of_nat i * c) by (rewrite length_app, Hlen; lia).
    by apply IH.
Qed.

Lemma length_blocks (c : Z) (ls : list Buf) :
  0 <= c -> Forall (fun l => length l = Z.to_nat c) ls -> Z.of_nat (length (mjoin ls)) = Z.of_nat (length ls) * c.
Proof.
  intros Hc. induction ls as [|l ls IH]; [done|]. intros [Hl Hls]%Forall_cons.
  change (mjoin (l :: ls)) with (l ++ mjoin ls). rewrite length_app, Nat2Z.inj_add, IH, Hl by done. simpl length. lia.
Qed.

Lemma ints_blocks (l : list Z) : Forall (fun b : Buf => length b = Z.to_nat 4) (le_encode 4 <$> l).
Proof. apply Forall_fmap, Forall_true. intros x. apply length_le_encode. Qed.

Lemma length_ints (l : list Z) : Z.of_nat (length (ints l)) = 4 * Z.of_nat (length l).
Proof. unfold ints. rewrite (length_blocks 4) by (done || apply ints_blocks). rewrite length_fmap. lia. Qed.

(** The [i]-th integer of a block of integers. *)
Lemma i32_at_ints (l : list Z) rest (i : nat) v off :
  l !! i = Some v -> int32 v -> off = 4 * Z.of_nat i -> i32_at (ints l ++ rest) off = v.
Proof.
  intros Hi Hv ->. assert (Hs : slice (4 * Z.of_nat i) 4 (ints l ++ rest) = le_encode 4 v).
  { replace (4 * Z.of_nat i) with (Z.of_nat (length ([] : Buf)) + Z.of_nat i * 4) by (cbn [length]; lia).
    apply (slice_blocks 4 [] rest); [lia|apply ints_blocks|by rewrite list_lookup_fmap, Hi]. }
  unfold i32_at. rewrite Hs.
  rewrite le_decode_encode. change (8 * Z.of_nat 4) with 32. rewrite swrap_mod, swrap_id by (done || lia). done.
Qed.

Lemma cells_blocks {A} {size : Z} `{!Packed A size} (l : list A) :
  Forall (fun b : Buf => length b = Z.to_nat size) (pack <$> l).
Proof. apply Forall_fmap, Forall_true. intros x. apply pack_length. Qed.

Lemma length_cells {A} {size : Z} `{!Packed A size} (l : list A) :
  Z.of_nat (length (cells l)) = Z.of_nat (length l) * size.
Proof.
  pose proof (packed_size (A := A) (size := size)). unfold cells.
  rewrite (length_blocks size) by (lia || apply cells_blocks). by rewrite length_fmap.
Qed.

Lemma view_cells_ok {A} {size : Z} `{!Packed A size} (l : list A) pre rest off n :
  Forall packs l -> off = Z.of_nat (length pre) -> n = Z.of_nat (length l) ->
  view_cells off n (pre ++ cells l ++ rest) = Some l.
Proof.
  intros Hl -> ->. unfold view_cells. rewrite Nat2Z.id. apply mapM_Some, Forall2_same_length_lookup.
  split; [apply length_seq|]. intros j i x Hj Hx. apply lookup_seq in Hj as [-> _]. rewrite Nat.add_0_l.
  unfold cells. rewrite (slice_blocks size pre rest (pack <$> l) j (pack x)).
  - apply unpack_pack. rewrite Forall_lookup in Hl. by apply (Hl j).
  - pose proof (packed_size (A := A) (size := size)). lia.
  - apply cells_blocks.
  - by rewrite list_lookup_fmap, Hx.
Qed.

Lemma type_of_code t : type_of (type_code t) = Some t.
Proof. by destruct t. Qed.

Lemma view_page_ok h more rest : int_header h -> view_page (ints (header_ints h ++ more) ++ rest) = Some h.
Proof.
  intros Hh. unfold view_page. pose proof (proj1 (Forall_lookup _ _) Hh) as Hv.
  assert (Hi : forall i v, header_ints h !! i = Some v -> i32_at (ints (header_ints h ++ more) ++ rest) (4 * Z.of_nat i) = v).
  { intros i v Hi. apply (i32_at_ints _ _ i v); [by apply lookup_app_l_Some|by apply (Hv i)|done]. }
  rewrite (Hi 0%nat _ eq_refl : i32_at _ 0 = _), (Hi 1%nat _ eq_refl : i32_at _ 4 = _).
  rewrite (Hi 2%nat _ eq_refl : i32_at _ 8 = _), (Hi 3%nat _ eq_refl : i32_at _ 12 = _).
  rewrite (Hi 4%nat _ eq_refl : i32_at _ 16 = _), (Hi 5%nat _ eq_refl : i32_at _ 20 = _).
  rewrite type_of_code. by destruct h.
Qed.

(** ** Lemmas: the pages *)

Lemma page_bytes_length n : length (page_bytes n) = Z.to_nat PAGE_SIZE.
Proof. apply length_resize. Qed.

Lemma page_bytes_pad n : Z.of_nat (length (node_bytes n)) <= PAGE_SIZE ->
  page_bytes n = node_bytes n ++ replicate (Z.to_nat PAGE_SIZE - length (node_bytes n)) 0.
Proof. intros H. unfold page_bytes. rewrite resize_ge by lia. done. Qed.

Lemma array_fits (off c n : Z) : 0 < c -> off <= PAGE_SIZE -> n = (PAGE_SIZE - off) / c -> off + n * c <= PAGE_SIZE.
Proof. intros Hc Ho ->. pose proof (Z.mul_div_le (PAGE_SIZE - off) c Hc). lia. Qed.

Lemma sizes_pos : 0 < key_size /\ 0 < value_size.
Proof. split; [apply (packed_size (A := K))|apply (packed_size (A := V))]. Qed.

Lemma shaped_length n : shaped n -> Z.of_nat (length (node_bytes n)) <= PAGE_SIZE.
Proof.
  destruct sizes_pos as [Hk Hv]. destruct n as [|h|p|p|page]; cbn [shaped node_bytes].
  - done.
  - intros _. rewrite length_ints. by vm_compute.
  - intros (_ & _ & Hl & _). rewrite length_app, Nat2Z.inj_add, length_ints, length_cells, Hl.
    apply (array_fits 28 (key_size + value_size) leaf_max); [lia|done|done].
  - intros (_ & Hl & _). rewrite length_app, Nat2Z.inj_add, length_ints, length_cells, Hl.
    apply (array_fits 24 (key_size + 4) internal_max); [lia|done|done].
  - intros ->. unfold PAGE_SIZE. lia.
Qed.

(** A leaf page and an internal page seen through their bytes. *)
Lemma view_leaf_ok p : shaped (LeafNode p) -> view_leaf (page_bytes (LeafNode p)) = Some p.
Proof.
  intros Hs. pose proof Hs as (Hh & Hn & Hl & Hc). rewrite (page_bytes_pad _ (shaped_length _ Hs)).
  cbn [node_bytes]. set (pad := replicate _ 0). rewrite <- app_assoc. unfold view_leaf. rewrite view_page_ok by done. cbn [mbind option_bind].
  rewrite view_cells_ok by (done || by rewrite length_ints). cbn [mbind option_bind].
  rewrite (i32_at_ints _ _ 6 (Leaf.next_page_id_ p)) by done. by destruct p.
Qed.

Lemma view_internal_ok p : shaped (InternalNode p) -> view_internal (page_bytes (InternalNode p)) = Some p.
Proof.
  intros Hs. pose proof Hs as (Hh & Hl & Hc). rewrite (page_bytes_pad _ (shaped_length _ Hs)).
  cbn [node_bytes]. set (pad := replicate _ 0). rewrite <- app_assoc. unfold view_internal.
  rewrite <- (app_nil_r (header_ints _)), view_page_ok by done. cbn [mbind option_bind].
  rewrite view_cells_ok by (done || by rewrite app_nil_r, length_ints). by destruct p.
Qed.

(** A page of zeros is the leaf page and the internal page of zeros. *)
Lemma resize_zeros n (l : Buf) : Forall (eq 0) l -> resize n 0 l = replicate n 0.
Proof.
  intros Hl. symmetry. apply replicate_as_Forall. split; [apply length_resize|].
  rewrite resize_spec. apply Forall_app. split; [by apply Forall_take|apply Forall_replicate, eq_refl].
Qed.

Lemma zero_cells {A} {size : Z} `{!Packed A size} n (a : A) :
  pack a = replicate (Z.to_nat size) 0 -> Forall (eq 0) (cells (replicate n a)).
Proof.
  intros Ha. unfold cells. rewrite fmap_replicate. apply Forall_join, Forall_replicate. rewrite Ha.
  apply Forall_replicate, eq_refl.
Qed.

Context (Hzero : zeros_ok).

Lemma zero_pair : pack (size := key_size + value_size) (zero_key, zero_value) = replicate (Z.to_nat (key_size + value_size)) 0.
Proof.
  destruct Hzero as [[Hk _] [Hv _]], sizes_pos. simpl. by rewrite Hk, Hv, <- replicate_add, <- Z2Nat.inj_add by lia.
Qed.

Lemma zero_child : pack (size := key_size + 4) (zero_key, 0) = replicate (Z.to_nat (key_size + 4)) 0.
Proof.
  destruct Hzero as [[Hk _] _], sizes_pos. cbn [pack pair_packed fst snd]. rewrite Hk.
  change (pack 0) with (replicate (Z.to_nat 4) 0). by rewrite <- replicate_add, <- Z2Nat.inj_add by lia.
Qed.

Lemma maxima_nonneg : 0 <= leaf_max /\ 0 <= internal_max.
Proof. destruct sizes_pos. split; apply Z.div_pos; unfold PAGE_SIZE, Leaf.sizeof_leaf, Internal.sizeof_internal, Internal.sizeof_page_id; lia. Qed.

Lemma zero_leaf_page :
  let z := LeafNode (zero_leaf key_size value_size zero_key zero_value) in shaped z /\ page_bytes z = page_bytes RawPage.
Proof.
  destruct maxima_nonneg as [Hl _]. split.
  - split; [repeat constructor; by vm_compute|]. split; [by vm_compute|]. cbn [zero_leaf Leaf.array].
    split; [rewrite length_replicate; lia|]. apply Forall_replicate. split; apply Hzero.
  - unfold page_bytes. rewrite !resize_zeros; [done|constructor|]. apply Forall_app. split; [repeat constructor|].
    apply zero_cells, zero_pair.
Qed.

Lemma zero_internal_page :
  let z := InternalNode (zero_internal key_size zero_key) in shaped z /\ page_bytes z = page_bytes RawPage.
Proof.
  destruct maxima_nonneg as [_ Hl]. split.
  - split; [repeat constructor; by vm_compute|]. cbn [zero_internal Internal.array].
    split; [rewrite length_replicate; lia|]. apply Forall_replicate. split; [apply Hzero|by vm_compute].
  - unfold page_bytes. rewrite !resize_zeros; [done|constructor|]. apply Forall_app. split; [repeat constructor|].
    apply zero_cells, zero_child.
Qed.

Lemma view_leaf_zero : view_leaf (page_bytes RawPage) = Some (zero_leaf key_size value_size zero_key zero_value).
Proof. destruct zero_leaf_page as [Hs Hb]. rewrite <- Hb. by apply view_leaf_ok. Qed.

Lemma view_internal_zero : view_internal (page_bytes RawPage) = Some (zero_internal key_size zero_key).
Proof. destruct zero_internal_page as [Hs Hb]. rewrite <- Hb. by apply view_internal_ok. Qed.

Lemma ints_app l1 l2 : ints (l1 ++ l2) = ints l1 ++ ints l2.
Proof. unfold ints. by rewrite fmap_app, join_app. Qed.

(** A node that has a header: its bytes are those of the header and, whatever header
    replaces it, the same other ones. *)
Lemma header_split n h : shaped n -> as_page n = Ok h ->
  exists tail, page_bytes n = ints (header_ints h) ++ tail /\ Z.of_nat (length tail) = PAGE_SIZE - 24 /\
    forall h', page_bytes (with_hdr h' n) = ints (header_ints h') ++ tail.
Proof.
  intros Hs Hh. pose proof (shaped_length _ Hs) as Hlen.
  assert (Hcase : exists body, Z.of_nat (length body) <= PAGE_SIZE - 24 /\
    page_bytes n = resize (Z.to_nat PAGE_SIZE) 0 (ints (header_ints h) ++ body) /\
    forall h', page_bytes (with_hdr h' n) = resize (Z.to_nat PAGE_SIZE) 0 (ints (header_ints h') ++ body)).
  { destruct n as [|h0|p|p|page]; cbn [as_page] in Hh; [| | | |done]; injection Hh as <-; cbn [node_bytes with_hdr] in *.
    - exists []. split; [done|]. split; [by vm_compute|]. intros h'. unfold page_bytes. cbn [node_bytes]. by rewrite app_nil_r.
    - exists []. unfold page_bytes. cbn [node_bytes]. split; [done|]. split; [by rewrite app_nil_r|].
      intros h'. by rewrite app_nil_r.
    - exists (ints [Leaf.next_page_id_ p] ++ cells (Leaf.array p)). unfold page_bytes. cbn [node_bytes].
      rewrite ints_app, <- app_assoc in Hlen |- *. rewrite length_app, Nat2Z.inj_add, length_ints in Hlen.
      split; [simpl length in *; lia|]. split; [done|]. intros h'. by rewrite ints_app, <- app_assoc.
    - exists (cells (Internal.array p)). unfold page_bytes. cbn [node_bytes].
      rewrite length_app, Nat2Z.inj_add, length_ints in Hlen. split; [simpl length in *; lia|]. done. }
  destruct Hcase as (body & Hbody & Hn & Hw). exists (resize (Z.to_nat (PAGE_SIZE - 24)) 0 body).
  assert (Hpad : forall h', resize (Z.to_nat PAGE_SIZE) 0 (ints (header_ints h') ++ body) =
                            ints (header_ints h') ++ resize (Z.to_nat (PAGE_SIZE - 24)) 0 body).
  { intros h'. assert (Hl : length (ints (header_ints h')) = 24%nat) by done.
    rewrite resize_app_ge by (rewrite Hl; unfold PAGE_SIZE; lia). by rewrite Hl. }
  rewrite Hn. split; [apply Hpad|]. split; [by rewrite length_resize|]. intros h'. rewrite Hw. apply Hpad.
Qed.

(** ** Properties *)


(** [SetParentPageId] on the bytes: the store of the member at the offset 16 gives the bytes
    of the node with the other parent. *)
Theorem set_parent_bytes (n : Node) (h : BPlusTreePage) (parent : Z) (Hn : shaped n) (Hh : as_page n = Ok h) :
  write_i32 (page_bytes n) 16 parent = Ok (page_bytes (with_hdr (SetParentPageId parent h) n)).
Proof.
  destruct (header_split n h Hn Hh) as (tail & Hb & Ht & Hw). rewrite Hw, Hb. unfold PAGE_SIZE in Ht.
  rewrite write_i32_ok; [|lia|rewrite length_app, Nat2Z.inj_add, length_ints, Ht; simpl length; lia].
  done.
Qed.
End Bytes.

(** ** Witnesses: keys of 64 bytes and values of 8 bytes *)

#[export] Instance sample_key_packed : Packed Z 64 := int_packed 63.
#[export] Instance sample_value_packed : Packed Z 8 := int_packed 7.

Lemma sample_zeros : zeros_ok 64 8 0 0.
Proof. split; (split; [by vm_compute|split; by vm_compute]). Qed.

(** A leaf of six cells, the first two of them in use. *)
Definition sample_leaf : Leaf.BPlusTreeLeafPage Z Z :=
  Leaf.mkLeaf (mkHdr LEAF_PAGE 0 2 5 7 3) 9 ([(10, 100); (20, -200)] ++ replicate 4 (0, 0)).

Lemma sample_leaf_shaped : shaped 64 8 (LeafNode sample_leaf).
Proof.
  split; [|split; [|split; [by vm_compute|]]].
  - repeat (constructor; [split; by vm_compute|]). constructor.
  - split; by vm_compute.
  - repeat (constructor; [split; split; by vm_compute|]). constructor.
Qed.

End NodeBytes.
