(* ===== verification/NodeShape.v ===== *)
(** * The operations of a page keep the range of its integers

    The operations of [LeafPage], [InternalPage] and [HeaderPage] give nodes that fit their
    pages ([NodeBytes.shaped]) when they are given such nodes. *)

From stdpp Require Import prelude gmap gmultiset list.
From Stdlib Require Import ZArith Lia.
From S2P Require Import Prelude HeaderPage BPlusTreePage LeafPage InternalPage TreeNodes NodeBytes.

Local Open Scope Z_scope.

Module NodeShape.
Import BPage Nodes NodeBytes.

(** ** Arrays *)

Section Arrays.
Context {A : Type} (P : A -> Prop).
Implicit Types (a b bs : list A).

(** An array of the length and with the cells of [a], or others that satisfy [P]. *)
Definition like a b : Prop := length b = length a /\ (Forall P a -> Forall P b).

Lemma like_trans a b bs : like a b -> like b bs -> like a bs.
Proof. intros [] []. split; [congruence|auto]. Qed.

Lemma like_refl a : like a a.
Proof. by split. Qed.

Lemma memread_forall a off n bs : memread a off n = Ok bs -> Forall P a -> Forall P bs.
Proof. intros (_ & _ & _ & ->)%memread_inv Ha. by apply Forall_take, Forall_drop. Qed.

Lemma memwrite_like a off bs b : memwrite a off bs = Ok b -> Forall P bs -> like a b.
Proof.
  intros (H1 & H2 & ->)%memwrite_inv Hbs. split; [by apply length_splice|]. intros Ha. unfold splice.
  apply Forall_app. split; [by apply Forall_take|]. apply Forall_app. split; [done|by apply Forall_drop].
Qed.

Lemma memmove_like a dst src n b : memmove a dst src n = Ok b -> Forall P a -> like a b.
Proof.
  unfold memmove. destruct (memread a src n) as [bs|] eqn:E; [|done]. simpl. intros Hw Ha.
  by eapply memwrite_like, memread_forall.
Qed.

Lemma cell_forall a i x : cell a i = Ok x -> Forall P a -> P x.
Proof.
  unfold cell. destruct (0 <=? i); [|done]. destruct (a !! Z.to_nat i) as [y|] eqn:E; [|done]. intros [= <-] Ha.
  by eapply Forall_lookup_1.
Qed.

Lemma set_cell_like a i x b : set_cell a i x = Ok b -> P x -> like a b.
Proof.
  unfold set_cell. destruct (cell a i); [|done]. intros [= <-] Hx. split; [apply length_insert|].
  intros Ha. by apply Forall_insert.
Qed.
End Arrays.

(** ** Headers *)

Lemma int_wrap32 z : int32 (wrap32 z).
Proof. by apply swrap_range. Qed.

Lemma int_quot2 z : int32 z -> int32 (Z.quot z 2).
Proof. unfold in_sint. intros []. Z.to_euclidean_division_equations. lia. Qed.

Lemma int_INVALID : int32 INVALID_PAGE_ID.
Proof. by_computation. Qed.

Lemma int_header_fields h : int_header h <->
  int32 (lsn_ h) /\ int32 (size_ h) /\ int32 (max_size_ h) /\ int32 (parent_page_id_ h) /\ int32 (page_id_ h).
Proof.
  unfold int_header, header_ints. rewrite !Forall_cons, Forall_nil.
  assert (int32 (type_code (page_type_ h))) by (by destruct (page_type_ h); by_computation). tauto.
Qed.

Ltac by_fields := rewrite !int_header_fields; cbn; tauto.

Lemma int_SetSize n h : int_header h -> int32 n -> int_header (SetSize n h).
Proof. by_fields. Qed.

Lemma int_IncreaseSize n h : int_header h -> int_header (IncreaseSize n h).
Proof. intros H. apply int_SetSize; [done|apply int_wrap32]. Qed.

Lemma int_SetMaxSize n h : int_header h -> int32 n -> int_header (SetMaxSize n h).
Proof. by_fields. Qed.

Lemma int_SetPageType t h : int_header h -> int_header (SetPageType t h).
Proof. by_fields. Qed.

Lemma int_SetParentPageId p h : int_header h -> int32 p -> int_header (SetParentPageId p h).
Proof. by_fields. Qed.

Lemma int_SetPageId p h : int_header h -> int32 p -> int_header (SetPageId p h).
Proof. by_fields. Qed.

Lemma int_page_id h : int_header h -> int32 (page_id_ h).
Proof. by_fields. Qed.

Lemma int_parent h : int_header h -> int32 (parent_page_id_ h).
Proof. by_fields. Qed.

Lemma int_size h : int_header h -> int32 (size_ h).
Proof. by_fields. Qed.

Create HintDb shape.
#[export] Hint Resolve int_INVALID int_SetSize int_IncreaseSize int_SetMaxSize int_SetPageType int_SetParentPageId
  int_SetPageId int_page_id int_parent int_size int_quot2 int_wrap32 : shape.
#[export] Hint Resolve like_refl : shape.

(** ** Pages *)

#[local] Arguments NodeBytes.shaped : simpl never.
#[local] Arguments packs : simpl never.

Section Pages.
Context {K V : Type} {key_size value_size : Z} (zero_key : K) (zero_value : V).
Context `{!Packed K key_size} `{!Packed V value_size}.
Context (Hzero : zeros_ok key_size value_size zero_key zero_value).

Abbreviation shaped := (shaped (K := K) (V := V) key_size value_size).
Abbreviation leaf_ok p := (shaped (LeafNode p)).
Abbreviation internal_ok p := (shaped (InternalNode p)).
Abbreviation like_entries := (like (packs (A := K * V) (size := key_size + value_size))).
Abbreviation like_children := (like (packs (A := K * Z) (size := key_size + 4))).
Implicit Types (p r : Leaf.BPlusTreeLeafPage K V) (i j : Internal.BPlusTreeInternalPage K).

Lemma leaf_by p h nx a :
  leaf_ok p -> int_header h -> int32 nx -> like_entries (Leaf.array p) a -> leaf_ok (Leaf.mkLeaf h nx a).
Proof. intros (_ & _ & Hl & Ha) Hh Hn [Hlen Hlike]. repeat (split; [done|]). cbn [Leaf.array]. rewrite Hlen. auto. Qed.

Lemma internal_by i h a : internal_ok i -> int_header h -> like_children (Internal.array i) a -> internal_ok (Internal.mkInternal h a).
Proof. intros (_ & Hl & Ha) Hh [Hlen Hlike]. split; [done|]. cbn [Internal.array]. rewrite Hlen. auto. Qed.

Lemma leaf_hdr p : leaf_ok p -> int_header (Leaf.hdr p).
Proof. by intros (? & _). Qed.

Lemma leaf_next p : leaf_ok p -> int32 (Leaf.next_page_id_ p).
Proof. by intros (_ & ? & _). Qed.

Lemma leaf_cells p : leaf_ok p -> Forall (packs (A := K * V) (size := key_size + value_size)) (Leaf.array p).
Proof. by intros (_ & _ & _ & ?). Qed.

Lemma internal_hdr i : internal_ok i -> int_header (Internal.hdr i).
Proof. by intros (? & _). Qed.

Lemma internal_cells i : internal_ok i -> Forall (packs (A := K * Z) (size := key_size + 4)) (Internal.array i).
Proof. by intros (_ & _ & ?). Qed.

Lemma leaf_cell p n x : cell (Leaf.array p) n = Ok x -> leaf_ok p -> packs (size := key_size + value_size) x.
Proof. intros E Hp. by eapply cell_forall, leaf_cells. Qed.

Lemma internal_cell i n x : cell (Internal.array i) n = Ok x -> internal_ok i -> packs (size := key_size + 4) x.
Proof. intros E Hi. by eapply cell_forall, internal_cells. Qed.

Hint Resolve leaf_hdr leaf_next leaf_cells internal_hdr internal_cells : shape.
Hint Resolve memread_forall leaf_cell internal_cell : shape.

(** Opens a successful run of an operation. *)
Ltac open_run := repeat first [progress inv_bind | progress simplify_eq/= | case_match].

(** The array after the stores of an operation. *)
Ltac alike :=
  match goal with
  | E : set_cell ?b _ _ = Ok ?c |- like _ _ ?c =>
      apply (like_trans _ _ b); [clear E; alike|eapply set_cell_like; [exact E|eauto 6 with shape]]
  | E : memmove ?b _ _ _ = Ok ?c |- like _ _ ?c =>
      apply (like_trans _ _ b); [alike|eapply memmove_like; [exact E|eauto 6 with shape]]
  | E : memwrite ?b _ _ = Ok ?c |- like _ _ ?c =>
      apply (like_trans _ _ b); [alike|eapply memwrite_like; [exact E|eauto 6 with shape]]
  | |- like _ _ _ => apply like_refl
  end.

(** The page after a successful run of an operation. *)
Ltac shape :=
  unfold Leaf.set_hdr, Leaf.SetNextPageId, Internal.set_hdr in *; open_run;
  first [assumption
        |eapply leaf_by; [| | |solve [alike]]; [eassumption|eauto 6 with shape|eauto 6 with shape]
        |eapply internal_by; [| |solve [alike]]; [eassumption|eauto 6 with shape]].

Lemma pair_packs {A B n m} `{!Packed A n} `{!Packed B m} (a : A) (b : B) : packs a -> packs b -> packs (size := n + m) (a, b).
Proof. by split. Qed.

Lemma packs_fst {A B n m} `{!Packed A n} `{!Packed B m} (x : A * B) : packs (size := n + m) x -> packs x.1.
Proof. by intros []. Qed.

Lemma packs_snd {A B n m} `{!Packed A n} `{!Packed B m} (x : A * B) : packs (size := n + m) x -> packs x.2.
Proof. by intros []. Qed.

Hint Resolve pair_packs packs_fst packs_snd : shape.

Lemma leaf_insert cmp k v p n p' :
  Leaf.Insert cmp k v p = Ok (n, p') -> packs k -> packs v -> leaf_ok p -> leaf_ok p'.
Proof. unfold Leaf.Insert. intros E Hk Hv Hp. shape. Qed.

Lemma leaf_remove cmp k p n p' : Leaf.RemoveAndDeleteRecord cmp k p = Ok (n, p') -> leaf_ok p -> leaf_ok p'.
Proof. unfold Leaf.RemoveAndDeleteRecord. intros E Hp. shape. Qed.

Lemma leaf_half p r p' r' : Leaf.MoveHalfTo p r = Ok (p', r') -> leaf_ok p -> leaf_ok r -> leaf_ok p' /\ leaf_ok r'.
Proof. unfold Leaf.MoveHalfTo, Leaf.CopyHalfFrom, Leaf.GetNextPageId. intros E Hp Hr. split; shape. Qed.

Lemma leaf_all p r p' r' : Leaf.move_all p r = Ok (p', r') -> leaf_ok p -> leaf_ok r -> leaf_ok p' /\ leaf_ok r'.
Proof. unfold Leaf.move_all, Leaf.CopyAllFrom, Leaf.GetNextPageId. intros E Hp Hr. split; shape. Qed.

Lemma leaf_first p r p' r' : Leaf.move_first p r = Ok (p', r') -> leaf_ok p -> leaf_ok r -> leaf_ok p' /\ leaf_ok r'.
Proof. unfold Leaf.move_first, Leaf.CopyLastFrom. intros E Hp Hr. split; shape. Qed.

Lemma leaf_front x p p' : Leaf.push_front x p = Ok p' -> packs (size := key_size + value_size) x -> leaf_ok p -> leaf_ok p'.
Proof. unfold Leaf.push_front. intros E Hx Hp. shape. Qed.

Lemma internal_put_key n k i i' : Internal.put_key n k i = Ok i' -> packs k -> internal_ok i -> internal_ok i'.
Proof. unfold Internal.put_key. intros E Hk Hi. shape. Qed.

Lemma internal_set_key n k i i' : Internal.SetKeyAt n k i = Ok i' -> packs k -> internal_ok i -> internal_ok i'.
Proof. unfold Internal.SetKeyAt. intros E Hk Hi. open_run. by eapply internal_put_key. Qed.

Lemma internal_root o k n i i' : Internal.PopulateNewRoot o k n i = Ok i' -> packs k -> int32 o -> int32 n ->
  internal_ok i -> internal_ok i'.
Proof. unfold Internal.PopulateNewRoot. intros E Hk Ho Hn Hi. shape. Qed.

Lemma internal_insert o k v i n i' : Internal.InsertNodeAfter o k v i = Ok (n, i') -> packs k -> int32 v ->
  internal_ok i -> internal_ok i'.
Proof. unfold Internal.InsertNodeAfter. intros E Hk Hv Hi. shape. Qed.

Lemma internal_remove n i i' : Internal.Remove n i = Ok i' -> internal_ok i -> internal_ok i'.
Proof. unfold Internal.Remove. intros E Hi. shape. Qed.

Lemma internal_copy_half l i i' : Internal.copy_half l i = Ok i' -> Forall (packs (size := key_size + 4)) l ->
  internal_ok i -> internal_ok i'.
Proof. unfold Internal.copy_half. intros E Hl Hi. shape. Qed.

Lemma internal_copy_all l i i' : Internal.copy_all l i = Ok i' -> Forall (packs (size := key_size + 4)) l ->
  internal_ok i -> internal_ok i'.
Proof. unfold Internal.copy_all. intros E Hl Hi. shape. Qed.

Lemma internal_copy_last x i i' : Internal.copy_last x i = Ok i' -> packs (size := key_size + 4) x -> internal_ok i -> internal_ok i'.
Proof. unfold Internal.copy_last. intros E Hx Hi. shape. Qed.

Lemma internal_copy_first x i i' : Internal.copy_first x i = Ok i' -> packs (size := key_size + 4) x -> internal_ok i -> internal_ok i'.
Proof.
  unfold Internal.copy_first. intros E Hx Hi. destruct (memmove _ 1 0 _) as [a|] eqn:Em; [|done]. rewrite bind_ok in E.
  pose proof (memmove_like _ _ _ _ _ _ Em (internal_cells i Hi)) as Hm. pose proof (proj2 Hm (internal_cells i Hi)) as Ha.
  destruct (cell a 1) as [x1|] eqn:E1; [|done]. pose proof (cell_forall _ _ _ _ E1 Ha) as Hx1. rewrite bind_ok in E.
  destruct (set_cell a 1 _) as [b|] eqn:Eb; [|done]. apply (set_cell_like (packs (size := key_size + 4))) in Eb as Hb;
    [|by split; [apply Hx|apply Hx1]]. rewrite bind_ok in E.
  destruct (cell b 0) as [x0|] eqn:E0; [|done]. pose proof (cell_forall _ _ _ _ E0 (proj2 Hb Ha)) as Hx0. rewrite bind_ok in E.
  destruct (set_cell b 0 _) as [c|] eqn:Ec; [|done]. apply (set_cell_like (packs (size := key_size + 4))) in Ec as Hc;
    [|by split; [apply Hx0|apply Hx]]. injection E as <-.
  eapply internal_by; [exact Hi|eauto with shape|]. eapply like_trans; [exact Hm|]. by eapply like_trans.
Qed.

Lemma internal_key n i k : Internal.KeyAt n i = Ok k -> internal_ok i -> packs k.
Proof. unfold Internal.KeyAt. intros E Hi. open_run. eapply (packs_fst (B := Z) (m := 4)), internal_cell; eassumption. Qed.

Lemma internal_value n i v : Internal.ValueAt n i = Ok v -> internal_ok i -> int32 v.
Proof. unfold Internal.ValueAt. intros E Hi. inv_bind. by destruct (internal_cell _ _ _ E1 Hi). Qed.

Lemma leaf_key n p k : Leaf.KeyAt n p = Ok k -> leaf_ok p -> packs k.
Proof. unfold Leaf.KeyAt. intros E Hp. open_run. eapply (packs_fst (B := V) (m := value_size)), leaf_cell; eassumption. Qed.

(** New pages. *)
Lemma array_room (off c : Z) : 0 <= off <= PAGE_SIZE -> 0 < c -> int32 ((PAGE_SIZE - off) / c).
Proof.
  intros Ho Hc. unfold PAGE_SIZE in *. pose proof (Z.div_pos (512 - off) c ltac:(lia) Hc).
  pose proof (Z.div_le_upper_bound (512 - off) c 512 Hc ltac:(nia)). unfold in_sint. lia.
Qed.

Lemma leaf_init page parent p : int32 page -> int32 parent -> leaf_ok p -> leaf_ok (Leaf.Init key_size value_size page parent p).
Proof.
  intros Hpage Hparent Hp. pose proof (packed_size (A := K) (size := key_size)). pose proof (packed_size (A := V) (size := value_size)).
  eapply leaf_by; [exact Hp| |apply int_INVALID|apply like_refl]. apply int_SetMaxSize; [|by apply array_room; [|lia]].
  apply int_SetPageType, int_SetSize; [|by_computation]. eauto with shape.
Qed.

Lemma internal_init page parent i : int32 page -> int32 parent -> internal_ok i -> internal_ok (Internal.Init key_size page parent i).
Proof.
  intros Hpage Hparent Hi. pose proof (packed_size (A := K) (size := key_size)).
  eapply internal_by; [exact Hi| |apply like_refl]. apply int_SetMaxSize; [|by apply array_room; [|unfold Internal.sizeof_page_id; lia]].
  apply int_SetSize; [|by_computation]. eauto with shape.
Qed.

(** The casts. *)
Lemma zero_hdr_int : int_header zero_hdr.
Proof. repeat constructor; by_computation. Qed.

Lemma as_page_int n h : as_page n = Ok h -> shaped n -> int_header h.
Proof.
  destruct n as [|h'|p|i|page]; cbn [as_page]; intros E Hn; simplify_eq; [apply zero_hdr_int|exact Hn|apply Hn|apply Hn].
Qed.

Lemma as_leaf_ok n p : as_leaf key_size value_size zero_key zero_value n = Ok p -> shaped n -> leaf_ok p.
Proof.
  destruct n as [|h'|p'|i|page]; cbn [as_leaf]; intros E Hn; simplify_eq; [|exact Hn]. by apply zero_leaf_page.
Qed.

Lemma as_internal_ok n i : as_internal key_size zero_key n = Ok i -> shaped n -> internal_ok i.
Proof.
  destruct n as [|h'|p'|i'|page]; cbn [as_internal]; intros E Hn; simplify_eq; [|exact Hn]. by eapply zero_internal_page.
Qed.

Lemma with_hdr_ok n h h' : as_page n = Ok h -> shaped n -> int_header h' -> shaped (with_hdr h' n).
Proof.
  destruct n as [|h0|p|i|page]; cbn [as_page with_hdr]; intros E Hn Hh; [done|done| | |done].
  - eapply leaf_by; [exact Hn|done|apply Hn|apply like_refl].
  - eapply internal_by; [exact Hn|done|apply like_refl].
Qed.

Lemma as_header_ok n b : as_header n = Ok b -> shaped n -> shaped (HeaderNode b).
Proof. destruct n; cbn [as_header]; intros E Hn; simplify_eq; done. Qed.

Lemma memwrite_length (a : Buf) off bs b : memwrite a off bs = Ok b -> length b = length a.
Proof. intros (H1 & H2 & ->)%memwrite_inv. by apply length_splice. Qed.

Lemma header_insert name root b x b' : Header.InsertRecord name root b = Ok (x, b') -> shaped (HeaderNode b) -> shaped (HeaderNode b').
Proof.
  unfold Header.InsertRecord, Header.SetRecordCount, write_i32, NodeBytes.shaped. intros E <-. open_run; [done|].
  repeat match goal with H : memwrite _ _ _ = Ok _ |- _ => apply memwrite_length in H end. congruence.
Qed.

Lemma header_update name root b x b' : Header.UpdateRecord name root b = Ok (x, b') -> shaped (HeaderNode b) -> shaped (HeaderNode b').
Proof.
  unfold Header.UpdateRecord, write_i32, NodeBytes.shaped. intros E <-. open_run; [done|].
  repeat match goal with H : memwrite _ _ _ = Ok _ |- _ => apply memwrite_length in H end. congruence.
Qed.
End Pages.
End NodeShape.
