(* ===== verification/TreePool.v ===== *)
(** * The tree on the byte pages of the buffer pool

    The computations of [TreeNodes] and [BPlusTree] run on nodes.  Here each of them is
    read as the calls it makes to the buffer pool, with the bytes of the nodes as the
    contents of the pages: [makes] gives the calls of a run with their answers, the pool
    of [BufferPool] answers them so, and the calls keep to the protocol of its clients. *)

From stdpp Require Import prelude gmap gmultiset list.
From Stdlib Require Import ZArith Lia.
From S2P Require Import Prelude Interfaces DiskManager BufferPool PagePool.
From S2P Require Import HeaderPage BPlusTreePage LeafPage InternalPage TreeNodes BPlusTree NodeBytes.

Local Open Scope Z_scope.

Module TreePool.
Import BPage Nodes NodeBytes BPlusTree.

Abbreviation PoolCall := BufferPool.call.
Abbreviation PoolAnswer := BufferPool.answer.
Abbreviation PoolStore := BufferPool.Store.

Section Pool.
Context {K V : Type} {key_size value_size : Z}.
Context `{!Packed K key_size} `{!Packed V value_size}.

Abbreviation M := (M K V).
Abbreviation State := (State K V).
Abbreviation Store := (Nodes.Store K V).
Abbreviation page_bytes := (page_bytes (K := K) (V := V) key_size value_size).
Abbreviation shaped := (shaped (K := K) (V := V) key_size value_size).

(** ** The calls of a run *)

(** A call with its answer, and a look at the bytes of a pinned page. *)
Inductive event := ECall (c : PoolCall) (a : PoolAnswer) | ERead (p : Z) (data : Buf).

(** The bytes behind the pointer that [FetchPage] returned. *)
Definition seen (s : State) (page : option Z) : option Buf :=
  p ← page; page_bytes <$> nodes (store s) !! p.

(** [makes m s l x s']: from [s] the computation [m] makes the calls and the looks of [l],
    and ends in [s'] with the result [x].  A store through a pointer is a [CWrite]; the
    members of the tree and the transaction are read and set without the pool.  The nodes
    looked at and stored fit their pages, so that the casts of their bytes give them. *)
Inductive makes : forall {A : Type}, M A -> State -> list event -> A -> State -> Prop :=
| makes_ret A (x : A) s : makes (ret x) s [] x s
| makes_bind A B (m : M A) (f : A -> M B) s l1 x s1 l2 y s2 :
    makes m s l1 x s1 -> makes (f x) s1 l2 y s2 -> makes (bind m f) s (l1 ++ l2) y s2
| makes_lift A (x : A) s : makes (lift (Ok x)) s [] x s
| makes_gets A (f : State -> A) s : (forall st, f (set_store st s) = f s) -> makes (gets f) s [] (f s) s
| makes_modify f s :
    (forall st, f (set_store st s) = set_store st (f s)) -> makes (modify f) s [] tt (f s)
| makes_pop s p s' : pop_page s = Ok (p, s') -> makes pop_page s [] p s'
| makes_fetch p s o s' :
    FetchPage p s = Ok (o, s') -> makes (FetchPage p) s [ECall (BufferPool.CFetch p) (BufferPool.APage (seen s o))] o s'
| makes_new s p o s' :
    NewPage s = Ok ((p, o), s') ->
    makes NewPage s [ECall BufferPool.CNew (BufferPool.ANew p ((fun _ => Disk.zero_page) <$> o))] (p, o) s'
| makes_unpin p dirty s ok s' :
    UnpinPage p dirty s = Ok (ok, s') ->
    makes (UnpinPage p dirty) s [ECall (BufferPool.CUnpin p dirty) (BufferPool.ABool ok)] ok s'
| makes_delete p s ok s' :
    DeletePage p s = Ok (ok, s') -> makes (DeletePage p) s [ECall (BufferPool.CDelete p) (BufferPool.ABool ok)] ok s'
| makes_read p s n s' :
    read_node p s = Ok (n, s') -> shaped n -> makes (read_node p) s [ERead p (page_bytes n)] n s'
| makes_write p n s s' :
    write_node p n s = Ok (tt, s') -> shaped n ->
    makes (write_node p n) s [ECall (BufferPool.CWrite p (page_bytes n)) BufferPool.ADone] tt s'.

(** ** The nodes in the pool *)

(** The entry of [BufferPool]'s map of pin counts. *)
Definition pin_entry (k : nat) : option Z := match k with O => None | _ => Some (Z.of_nat k) end.

(** The pool holds the bytes of the nodes.  It may hold other pages too. *)
Record backs (s : Store) (b : PoolStore) : Prop := {
  bk_nodes p n : nodes s !! p = Some n -> BufferPool.contents b !! p = Some (page_bytes n);
  bk_pins p : BufferPool.pins b !! p = pin_entry (multiplicity p (pins s));
  bk_unsaved : BufferPool.unsaved b = unsaved s;
  bk_next : BufferPool.next b = next s;
  bk_capacity : BufferPool.capacity b = capacity s
}.

(** ** Lemmas: one call *)

Lemma backs_pinned s b p : backs s b -> is_Some (BufferPool.pins b !! p) <-> p ∈ pins s.
Proof.
  intros H. rewrite (bk_pins _ _ H). rewrite elem_of_multiplicity. destruct (multiplicity p (pins s)); simpl.
  - split; [by intros []|lia].
  - split; [lia|eauto].
Qed.

Lemma backs_full s b : backs s b -> BufferPool.full b = full s.
Proof.
  intros H. unfold BufferPool.full, full. rewrite (bk_capacity _ _ H), <- size_dom.
  assert (E : dom (BufferPool.pins b) = dom (pins s)); [|by rewrite E].
  apply set_eq. intros p. rewrite elem_of_dom, gmultiset_elem_of_dom. by apply backs_pinned.
Qed.

Lemma backs_unpinned s b p : backs s b -> bool_decide (BufferPool.pins b !! p = None) = negb (pinned p s).
Proof.
  intros H. unfold pinned. rewrite <- bool_decide_not. apply bool_decide_ext.
  by rewrite eq_None_not_Some, (backs_pinned _ _ _ H).
Qed.

Lemma pin_entry_pos k : (0 < k)%nat -> pin_entry k = Some (Z.of_nat k).
Proof. destruct k; [lia|done]. Qed.

Lemma backs_known s b p : backs s b -> is_Some (nodes s !! p) -> is_Some (BufferPool.contents b !! p).
Proof. intros H [n Hn]. rewrite (bk_nodes _ _ H p n Hn). by eexists. Qed.

Lemma backs_pin s b p : backs s b -> backs (set_pins ({[+ p +]} ⊎ pins s) s) (BufferPool.pin p b).
Proof.
  intros H. destruct H. split; try done. intros q. cbn [BufferPool.pin BufferPool.pins set_pins pins].
  rewrite multiplicity_disj_union, multiplicity_singleton.
  case_decide as E; [subst q; rewrite lookup_insert_eq|by rewrite lookup_insert_ne].
  rewrite bk_pins0, (pin_entry_pos (1 + _)) by lia. f_equal. destruct (multiplicity p (pins s)); cbn [default id pin_entry]; lia.
Qed.

(** The store of the pool's specification goes through the events to [b']. *)
Fixpoint follows (l : list event) (b b' : PoolStore) : Prop :=
  match l with
  | [] => b' = b
  | ECall c a :: l =>
      BufferPool.call_ok c b /\ (BufferPool.exec_spec c b).1 = a /\ follows l (BufferPool.exec_spec c b).2 b'
  | ERead p data :: l =>
      is_Some (BufferPool.pins b !! p) /\ BufferPool.contents b !! p = Some data /\ follows l b b'
  end.

Lemma follows_app l1 l2 : forall b b1 b', follows l1 b b1 -> follows l2 b1 b' -> follows (l1 ++ l2) b b'.
Proof.
  induction l1 as [|e l1 IH]; intros b b1 b'; [by intros ->|]. destruct e as [c a|p data]; simpl; naive_solver.
Qed.

(** A page of another client: allocated, and not known to the tree. *)
Definition foreign (p : Z) (s : Store) : Prop := nodes s !! p = None /\ (p ∉ pins s) /\ p < next s.

(** The pages of the other clients stay as they are. *)
Definition spares (s : Store) (b : PoolStore) (s' : Store) (b' : PoolStore) : Prop :=
  forall p, foreign p s -> foreign p s' /\ BufferPool.contents b' !! p = BufferPool.contents b !! p.

Lemma spares_refl s b : spares s b s b.
Proof. by intros p Hp. Qed.

Lemma spares_trans s b s1 b1 s2 b2 : spares s b s1 b1 -> spares s1 b1 s2 b2 -> spares s b s2 b2.
Proof. intros H1 H2 p [Hp E]%H1. apply H2 in Hp as [Hp E2]. split; [done|congruence]. Qed.

(** A call for the page [p] of the tree. *)
Lemma spares_page p s b s' b' :
  ~ foreign p s -> next s <= next s' ->
  (forall q, q <> p -> nodes s' !! q = nodes s !! q /\ multiplicity q (pins s') = multiplicity q (pins s) /\
             BufferPool.contents b' !! q = BufferPool.contents b !! q) ->
  spares s b s' b'.
Proof.
  intros Hp Hn H q Hq. destruct (decide (q = p)) as [->|Hne]; [done|].
  destruct (H q Hne) as (En & Em & Ec). destruct Hq as (Hq1 & Hq2 & Hq3). split; [|done].
  split; [congruence|]. split; [|lia]. by rewrite elem_of_multiplicity, Em, <- elem_of_multiplicity.
Qed.

(** One call: the pool answers [a] and goes on holding the nodes. *)
Definition answers (c : PoolCall) (a : PoolAnswer) (s : Store) (b : PoolStore) (s' : Store) : Prop :=
  BufferPool.call_ok c b /\ (BufferPool.exec_spec c b).1 = a /\ backs s' (BufferPool.exec_spec c b).2 /\
  spares s b s' (BufferPool.exec_spec c b).2.

Lemma fetch_answers p s o s' b :
  FetchPage p s = Ok (o, s') -> backs (store s) b ->
  answers (BufferPool.CFetch p) (BufferPool.APage (seen s o)) (store s) b (store s').
Proof.
  unfold FetchPage. destruct (negb _); [|done]. simpl. destruct (nodes (store s) !! p) as [n|] eqn:En; [|done].
  intros Hf Hb. pose proof (bk_nodes _ _ Hb p n En) as Hc. split; [by eexists|].
  cbn [BufferPool.exec_spec]. rewrite (backs_unpinned _ _ _ Hb), (backs_full _ _ Hb).
  destruct (negb (pinned p (store s)) && full (store s)); injection Hf as <- <-; [done|].
  split; [|split; [by apply backs_pin|]]; [cbn [fst seen option_bind mbind]; by rewrite Hc, En|].
  apply (spares_page p); [by intros [? _]; congruence|done|]. intros q Hq. split; [done|]. split; [|done].
  cbn [store set_store pins set_pins]. by rewrite multiplicity_disj_union, multiplicity_singleton, decide_False by done.
Qed.

Lemma new_answers s p o s' b :
  NewPage s = Ok ((p, o), s') -> backs (store s) b -> Disk.page_id_in_file (next (store s)) ->
  answers BufferPool.CNew (BufferPool.ANew p ((fun _ => Disk.zero_page) <$> o)) (store s) b (store s').
Proof.
  unfold NewPage. intros Hn Hb Hid. unfold answers. cbn [BufferPool.exec_spec BufferPool.call_ok].
  rewrite (backs_full _ _ Hb), (bk_next _ _ Hb). destruct (full (store s)); injection Hn as <- <- <-.
  - split; [done|]. split; [done|]. split; [destruct Hb; by split|]. intros q (Hn & Hq & Hlt).
    split; [|done]. split; [done|]. split; [done|]. cbn. lia.
  - split; [done|]. split; [done|]. split.
    + apply (backs_pin (set_nodes (<[next (store s) := RawPage]> (nodes (store s)))
        (mkStore (nodes (store s)) (pins (store s)) (unsaved (store s)) (next (store s) + 1) (capacity (store s))))).
      destruct Hb. split; try done. intros q n. cbn. destruct (decide (q = next (store s))) as [->|Hne].
      * rewrite !lookup_insert_eq. intros [= <-]. done.
      * rewrite !lookup_insert_ne by done. apply bk_nodes0.
    + apply (spares_page (next (store s))); [intros (_ & _ & ?); lia|cbn; lia|]. intros q Hq.
      split; [by apply lookup_insert_ne|]. split; [|by apply lookup_insert_ne].
      cbn [store set_store pins set_pins].
      by rewrite multiplicity_disj_union, multiplicity_singleton, decide_False by done.
Qed.

(** One pin less. *)
Lemma pin_entry_pred k : (0 < k)%nat -> pin_entry (k - 1) = if Z.of_nat k =? 1 then None else Some (Z.of_nat k - 1).
Proof.
  intros Hk. destruct (Z.eqb_spec (Z.of_nat k) 1) as [E|E]; [by replace k with 1%nat by lia|].
  rewrite pin_entry_pos by lia. f_equal. lia.
Qed.

Lemma loses_same s b p dirty : backs s b -> BufferPool.loses p dirty b = loses p dirty s.
Proof.
  intros H. unfold BufferPool.loses, loses. rewrite (bk_pins _ _ H), (bk_unsaved _ _ H). do 2 f_equal.
  apply bool_decide_ext. unfold pin_entry. destruct (multiplicity p (pins s)); [naive_solver|].
  split; [intros [= E]|intros ->; done]. lia.
Qed.

(** A page the pool is asked about is the tree's. *)
Lemma pinned_not_foreign p s : p ∈ pins s -> ~ foreign p s.
Proof. by intros Hp (_ & ? & _). Qed.

Lemma node_not_foreign p s n : nodes s !! p = Some n -> ~ foreign p s.
Proof. intros Hp (? & _). congruence. Qed.

Lemma unpin_pinned_answers p dirty s b :
  p <> INVALID_PAGE_ID -> p ∈ pins (store s) -> backs (store s) b ->
  let lost := loses p dirty (store s) in
  let st1 := set_pins (pins (store s) ∖ {[+ p +]}) (store s) in
  let st2 := if lost then set_nodes (delete p (nodes st1)) st1 else st1 in
  let st3 := if dirty || lost then set_unsaved (unsaved st2 ∖ {[p]}) st2 else st2 in
  answers (BufferPool.CUnpin p dirty) (BufferPool.ABool true) (store s) b st3.
Proof.
  intros Ep Epin Hb lost st1 st2 st3. pose proof (proj2 (backs_pinned _ _ _ Hb) Epin) as Hpin.
  assert (Hp : pins st3 = pins (store s) ∖ {[+ p +]}) by (by subst st3 st2; destruct lost, dirty).
  assert (Hn : nodes st3 = if lost then delete p (nodes (store s)) else nodes (store s)) by (by subst st3 st2; destruct lost, dirty).
  assert (Hnext : next st3 = next (store s)) by (by subst st3 st2; destruct lost, dirty).
  pose proof (proj1 (elem_of_multiplicity _ _) Epin) as Hk.
  assert (Hbk : BufferPool.pins b !! p = Some (Z.of_nat (multiplicity p (pins (store s)))))
    by (by rewrite (bk_pins _ _ Hb), pin_entry_pos).
  unfold answers. cbn [BufferPool.exec_spec BufferPool.call_ok]. rewrite Hbk, (loses_same _ _ _ _ Hb). fold lost.
  split; [by split; [|left]|]. split; [done|]. cbn [snd]. split.
  - destruct Hb. split; cbn [BufferPool.contents BufferPool.pins BufferPool.unsaved BufferPool.next BufferPool.capacity].
    + intros q n. rewrite Hn. destruct lost; [|apply bk_nodes0].
      destruct (decide (q = p)) as [->|Hne]; [by rewrite lookup_delete_eq|].
      rewrite !lookup_delete_ne by done. apply bk_nodes0.
    + intros q. rewrite Hp, multiplicity_difference, multiplicity_singleton.
      case_decide as E; [subst q; rewrite pin_entry_pred by done|rewrite Nat.sub_0_r, <- bk_pins0].
      * destruct (_ =? 1); [apply lookup_delete_eq|apply lookup_insert_eq].
      * destruct (_ =? 1); [by apply lookup_delete_ne|by apply lookup_insert_ne].
    + rewrite bk_unsaved0. by subst st3 st2; destruct lost, dirty.
    + by rewrite Hnext.
    + rewrite bk_capacity0. by subst st3 st2; destruct lost, dirty.
  - apply (spares_page p); [by apply pinned_not_foreign|by rewrite Hnext|]. intros q Hq. rewrite Hn, Hp.
    rewrite multiplicity_difference, multiplicity_singleton, decide_False, Nat.sub_0_r by done.
    cbn [BufferPool.contents]. destruct lost; [by rewrite !lookup_delete_ne|done].
Qed.

Lemma unpin_answers p dirty s ok s' b :
  UnpinPage p dirty s = Ok (ok, s') -> backs (store s) b ->
  answers (BufferPool.CUnpin p dirty) (BufferPool.ABool ok) (store s) b (store s').
Proof.
  unfold UnpinPage. destruct (p =? INVALID_PAGE_ID) eqn:Ep; [done|]. apply Z.eqb_neq in Ep.
  cbn [negb]. unfold assert_. rewrite bind_ok. intros Hu Hb. destruct (pinned p (store s)) eqn:Epin.
  - apply bool_decide_eq_true in Epin. injection Hu as <- <-. by apply unpin_pinned_answers.
  - apply bool_decide_eq_false in Epin. destruct (nodes (store s) !! p) as [n|] eqn:En; [|done].
    injection Hu as <- <-. rewrite <- (backs_pinned _ _ _ Hb), <- eq_None_not_Some in Epin.
    unfold answers. cbn [BufferPool.exec_spec BufferPool.call_ok]. rewrite Epin.
    split; [split; [done|right; apply (backs_known _ _ _ Hb); by eexists]|]. by split; [|split; [|apply spares_refl]].
Qed.

Lemma delete_answers p s ok s' b :
  DeletePage p s = Ok (ok, s') -> backs (store s) b ->
  answers (BufferPool.CDelete p) (BufferPool.ABool ok) (store s) b (store s').
Proof.
  unfold DeletePage. destruct (p =? INVALID_PAGE_ID) eqn:Ep; [done|]. apply Z.eqb_neq in Ep.
  cbn [negb]. unfold assert_. rewrite bind_ok. intros Hu Hb. unfold answers. cbn [BufferPool.exec_spec BufferPool.call_ok].
  unfold BufferPool.known. destruct (pinned p (store s)) eqn:Epin.
  - apply bool_decide_eq_true in Epin. apply (backs_pinned _ _ _ Hb) in Epin as [k Hk]. rewrite Hk.
    injection Hu as <- <-. split; [by split; [|left]|]. by split; [|split; [|apply spares_refl]].
  - apply bool_decide_eq_false in Epin. destruct (nodes (store s) !! p) as [n|] eqn:En; [|done].
    injection Hu as <- <-. rewrite <- (backs_pinned _ _ _ Hb), <- eq_None_not_Some in Epin. rewrite Epin.
    split; [split; [done|]; right; apply (backs_known _ _ _ Hb); by eexists|]. split; [done|]. split.
    + destruct Hb. split; try done. intros q n'. cbn.
      destruct (decide (q = p)) as [->|Hne]; [by rewrite lookup_delete_eq|].
      rewrite !lookup_delete_ne by done. apply bk_nodes0.
    + apply (spares_page p); [by eapply node_not_foreign|done|]. intros q Hq.
      split; [by apply lookup_delete_ne|]. split; [done|by apply lookup_delete_ne].
Qed.

Lemma write_answers p n s s' b :
  write_node p n s = Ok (tt, s') -> backs (store s) b ->
  answers (BufferPool.CWrite p (page_bytes n)) BufferPool.ADone (store s) b (store s').
Proof.
  unfold write_node. intros Hw Hb. destruct (pinned p (store s)) eqn:Epin; [|done]. injection Hw as <-.
  apply bool_decide_eq_true in Epin. pose proof (proj2 (backs_pinned _ _ _ Hb) Epin) as Hp.
  split; [split; [done|apply page_bytes_length]|]. split; [done|]. split.
  - destruct Hb. split; try done; [|cbn; by rewrite bk_unsaved0].
    intros q n'. cbn. destruct (decide (q = p)) as [->|Hne].
    + rewrite !lookup_insert_eq. by intros [= <-].
    + rewrite !lookup_insert_ne by done. apply bk_nodes0.
  - apply (spares_page p); [by apply pinned_not_foreign|done|]. intros q Hq.
    split; [by apply lookup_insert_ne|]. split; [done|by apply lookup_insert_ne].
Qed.

(** ** Lemmas: a run *)

Lemma modify_store (f : State -> State) s :
  (forall st, f (set_store st s) = set_store st (f s)) -> store (f s) = store s.
Proof. intros Hf. specialize (Hf (store s)). replace (set_store (store s) s) with s in Hf by (by destruct s). by rewrite Hf. Qed.

(** What a call does to the next page id. *)
Lemma fetch_next (s : State) p o s' : FetchPage p s = Ok (o, s') -> next (store s') = next (store s).
Proof.
  unfold FetchPage. intros E. destruct (assert_ _) as [[]|]; [|done]. simpl in E.
  destruct (nodes (store s) !! p); [|done]. destruct (_ && _); by injection E as <- <-.
Qed.

Lemma new_next (s : State) p o s' : NewPage s = Ok ((p, o), s') -> next (store s') = next (store s) + 1.
Proof. unfold NewPage. intros E. destruct (full (store s)); by injection E as <- <- <-. Qed.

Lemma unpin_next (s : State) p d ok s' : UnpinPage p d s = Ok (ok, s') -> next (store s') = next (store s).
Proof.
  unfold UnpinPage. intros E. destruct (assert_ _) as [[]|]; [|done]. simpl in E.
  destruct (pinned p (store s)); [|destruct (nodes (store s) !! p); [|done]]; injection E as <- <-; [|done].
  by destruct (loses p d (store s)), d.
Qed.

Lemma delete_next (s : State) p ok s' : DeletePage p s = Ok (ok, s') -> next (store s') = next (store s).
Proof.
  unfold DeletePage. intros E. destruct (assert_ _) as [[]|]; [|done]. simpl in E.
  destruct (pinned p (store s)); [|destruct (nodes (store s) !! p); [|done]]; by injection E as <- <-.
Qed.

Lemma read_same (s : State) p n s' : read_node p s = Ok (n, s') -> s' = s.
Proof.
  unfold read_node. intros E. destruct (pinned p (store s)); [|done].
  destruct (nodes (store s) !! p); [|done]. by injection E as <- <-.
Qed.

Lemma write_next (s : State) p n s' : write_node p n s = Ok (tt, s') -> next (store s') = next (store s).
Proof. unfold write_node. intros E. destruct (pinned p (store s)); [|done]. by injection E as <-. Qed.

Lemma pop_store (s : State) p s' : pop_page s = Ok (p, s') -> store s' = store s.
Proof. unfold pop_page. intros E. destruct (page_set_ (txn s)); [done|]. by injection E as <- <-. Qed.

Lemma pool_call_next A (m : M A) s l x s' : makes m s l x s' -> next (store s) <= next (store s').
Proof.
  induction 1 as [|A B m f s l1 x s1 l2 y s2 _ IH1 _ IH2| | |f s E%modify_store|s p s' E%pop_store|s p o s' E%fetch_next|
                  s p o s' E%new_next|p d s ok s' E%unpin_next|p s ok s' E%delete_next|p s n s' E%read_same|
                  p n s s' E%write_next]; try lia; by rewrite E.
Qed.

(** What a run does in a store that holds the nodes. *)
Definition answered (l : list event) (s : Store) (b : PoolStore) (s' : Store) : Prop :=
  exists b', follows l b b' /\ backs s' b' /\ spares s b s' b'.

Lemma answered_none s b s' : s' = s -> backs s b -> answered [] s b s'.
Proof. intros -> Hb. by exists b. Qed.

Lemma answered_one c a s b s' : answers c a s b s' -> answered [ECall c a] s b s'.
Proof. intros (Hok & <- & Hb). by eexists. Qed.

Lemma answered_app l1 l2 s b s1 s2 :
  answered l1 s b s1 -> (forall b1, backs s1 b1 -> answered l2 s1 b1 s2) -> answered (l1 ++ l2) s b s2.
Proof.
  intros (b1 & Hf1 & Hb1 & Hs1) H2. destruct (H2 b1 Hb1) as (b2 & Hf2 & Hb2 & Hs2).
  exists b2. split; [by eapply follows_app|]. split; [done|by eapply spares_trans].
Qed.

Lemma makes_answered A (m : M A) s l x s' :
  makes m s l x s' -> forall b, backs (store s) b -> 0 <= next (store s) -> next (store s') < 2 ^ 22 ->
  answered l (store s) b (store s').
Proof.
  induction 1 as [|A B m f s l1 x s1 l2 y s2 H1 IH1 H2 IH2| | |f s E|s p s' E|p s o s' E|s p o s' E|p d s ok s' E|p s ok s' E|
                  p s n s' E|p n s s' E]; intros b Hb Hge Hlt; try (by apply answered_none).
  - apply pool_call_next in H1, H2. apply (answered_app _ _ _ _ (store s1)); [apply IH1; [done|done|lia]|].
    intros b1 Hb1. apply IH2; [done|lia|done].
  - apply answered_none; [by apply modify_store|done].
  - apply answered_none; [by apply (pop_store _ _ _ E)|done].
  - by eapply answered_one, fetch_answers.
  - eapply answered_one, new_answers; [done..|]. unfold Disk.page_id_in_file. apply new_next in E. lia.
  - by eapply answered_one, unpin_answers.
  - by eapply answered_one, delete_answers.
  - unfold read_node in E. destruct (pinned p (store s)) eqn:Ep; [|done].
    destruct (nodes (store s) !! p) as [n'|] eqn:En; [|done]. injection E as <- <-.
    apply bool_decide_eq_true, (backs_pinned _ _ _ Hb) in Ep.
    exists b. split; [|split; [done|apply spares_refl]]. split; [done|]. split; [by apply (bk_nodes _ _ Hb)|done].
  - by eapply answered_one, write_answers.
Qed.
End Pool.


(** ** The stores the calls leave *)

(** Every page the pool remembers or has pinned was allocated. *)
Record in_range (st : PoolStore) : Prop := {
  ir_contents p : is_Some (BufferPool.contents st !! p) -> 0 <= p < BufferPool.next st;
  ir_pins p k : BufferPool.pins st !! p = Some k -> 0 < k /\ 0 <= p < BufferPool.next st
}.

Lemma in_range_exec c st : in_range st -> BufferPool.call_ok c st -> in_range (BufferPool.exec_spec c st).2.
Proof.
  intros [Hc Hp] Hok.
  assert (Hpin : forall p st', BufferPool.pins st' = BufferPool.pins st -> 0 <= p < BufferPool.next st' ->
    BufferPool.next st <= BufferPool.next st' ->
    (forall q, is_Some (BufferPool.contents st' !! q) -> 0 <= q < BufferPool.next st') -> in_range (BufferPool.pin p st')).
  { intros p st' E Hr Hn Hc'. split; [done|]. intros q k. cbn. rewrite E. destruct (decide (q = p)) as [->|Hne].
    - rewrite lookup_insert_eq. intros [= <-]. split; [|done]. destruct (BufferPool.pins st !! p) as [k'|] eqn:Ek; simpl; [|lia].
      apply Hp in Ek. lia.
    - rewrite lookup_insert_ne by done. intros Hq. apply Hp in Hq. lia. }
  destruct c as [p| |p d|p|p|p data|]; cbn [BufferPool.exec_spec BufferPool.call_ok] in *; try done.
  - destruct (_ && _); [done|]. apply Hpin; [done|by apply Hc|done|done].
  - unfold Disk.page_id_in_file in Hok. destruct (BufferPool.full st).
    + split; cbn; [intros q Hq%Hc; lia|intros q k Hq%Hp; lia].
    + apply Hpin; cbn; [done|lia|lia|]. intros q. destruct (decide (q = BufferPool.next st)) as [->|Hne]; [lia|].
      rewrite lookup_insert_ne by done. intros Hq%Hc. lia.
  - destruct (BufferPool.pins st !! p) as [k|] eqn:Ek; [|done]. pose proof (Hp p k Ek) as [Hk Hr]. split; cbn.
    + intros q Hq. apply Hc. destruct (BufferPool.loses p d st); [|done].
      destruct (decide (q = p)) as [->|Hne]; [by rewrite lookup_delete_eq in Hq; destruct Hq|by rewrite lookup_delete_ne in Hq].
    + intros q k'. destruct (Z.eqb_spec k 1) as [->|Hk1].
      * destruct (decide (q = p)) as [->|Hne]; [by rewrite lookup_delete_eq|rewrite lookup_delete_ne by done; apply Hp].
      * destruct (decide (q = p)) as [->|Hne]; [rewrite lookup_insert_eq; intros [= <-]; lia|].
        rewrite lookup_insert_ne by done. apply Hp.
  - destruct (BufferPool.pins st !! p) as [k|] eqn:Ek; [done|]. split; [|done]. cbn. intros q Hq. apply Hc.
    destruct (decide (q = p)) as [->|Hne]; [by rewrite lookup_delete_eq in Hq; destruct Hq|by rewrite lookup_delete_ne in Hq].
  - destruct Hok as [[k Hk] _]. split; [|done]. cbn. intros q.
    destruct (decide (q = p)) as [->|Hne]; [intros _; by apply (Hp p k)|]. rewrite lookup_insert_ne by done. apply Hc.
Qed.

Lemma in_range_follows l : forall st st', in_range st -> follows l st st' -> in_range st'.
Proof.
  induction l as [|[c a|p data] l IH]; intros st st' Hr; [by intros ->| |].
  - intros (Hok & _ & Hl). by apply (IH _ st' (in_range_exec c st Hr Hok)).
  - intros (_ & _ & Hl). by apply (IH st).
Qed.

Lemma rest_in_range st : Pool.at_rest st -> BufferPool.pins st = ∅ -> in_range st.
Proof. intros [] Hp. split; [done|]. intros p k. by rewrite Hp, lookup_empty. Qed.

Lemma in_range_rest st : in_range st -> BufferPool.unsaved st = ∅ -> Pool.at_rest st.
Proof. intros [] Hu. split; [done| |done]. intros p k Hk. by apply ir_pins0 in Hk as [? _]. Qed.

End TreePool.
