(* ===== verification/TreeFits.v ===== *)
(** * The runs of the tree on nodes that fit their pages

    Where the nodes of the store fit their pages, a computation of [TreeNodes] or
    [BPlusTree] that returns makes the events of [TreePool], and leaves nodes that fit. *)

From stdpp Require Import prelude gmap gmultiset list.
From Stdlib Require Import ZArith Lia.
From S2P Require Import Prelude Interfaces DiskManager BufferPool PagePool HeaderPage BPlusTreePage LeafPage InternalPage.
From S2P Require Import TreeNodes BPlusTree NodeBytes NodeShape TreePool.

Local Open Scope Z_scope.

Module TreeFits.
Import BPage Nodes NodeBytes NodeShape BPlusTree TreePool.

#[local] Arguments NodeBytes.shaped : simpl never.
#[local] Arguments packs : simpl never.

Section Fits.
Context {K V : Type} {key_size value_size : Z}.
Context `{!Packed K key_size} `{!Packed V value_size}.

Abbreviation M := (M K V).
Abbreviation State := (State K V).
Abbreviation shaped := (shaped (K := K) (V := V) key_size value_size).
Abbreviation makes := (makes (K := K) (V := V) (key_size := key_size) (value_size := value_size)).

(** The nodes of the store fit their pages; the next page id is one of the file. *)
Record fits (s : State) : Prop := {
  ft_nodes p n : nodes (store s) !! p = Some n -> shaped n;
  ft_next : 0 <= next (store s)
}.

(** Under the precondition [P] the computation makes a run from nodes that fit to nodes that
    fit, and its result satisfies [Q]; the page ids stay those of a file. *)
Definition Keeps {A} (P : Prop) (m : M A) (Q : A -> Prop) : Prop :=
  forall s x s', m s = Ok (x, s') -> next (store s) <= next (store s') /\
    (P -> fits s -> next (store s') < 2 ^ 22 -> (exists l, makes m s l x s') /\ fits s' /\ Q x).

(** ** Rules *)

Lemma keeps_weaken {A} (P P' : Prop) (m : M A) (Q Q' : A -> Prop) :
  Keeps P m Q -> (P' -> P) -> (forall x, P' -> Q x -> Q' x) -> Keeps P' m Q'.
Proof.
  intros Hm HP HQ s x s' E. destruct (Hm s x s' E) as [Hn H]. split; [done|].
  intros Hp Hf Hlt. destruct (H (HP Hp) Hf Hlt) as (Hl & Hf' & Hq). auto.
Qed.

Lemma keeps_bind {A B} (Q : A -> Prop) (P : Prop) (m : M A) (f : A -> M B) (R : B -> Prop) :
  Keeps P m Q -> (forall x, Keeps (P /\ Q x) (f x) R) -> Keeps P (bind m f) R.
Proof.
  intros Hm Hf s y s2 E. unfold bind in E. destruct (m s) as [[x s1]|e] eqn:E1; [|done].
  destruct (Hm s x s1 E1) as [Hn1 H1]. destruct (Hf x s1 y s2 E) as [Hn2 H2]. split; [lia|].
  intros Hp Hs Hlt. destruct H1 as ([l1 Hl1] & Hs1 & Hq); [done|done|lia|].
  destruct H2 as ([l2 Hl2] & Hs2 & Hr); [done|done|done|]. split; [|done]. exists (l1 ++ l2). by eapply makes_bind.
Qed.

Lemma keeps_ret {A} (P : Prop) (x : A) (Q : A -> Prop) : (P -> Q x) -> Keeps P (ret x) Q.
Proof. intros Hq s y s' [= <- <-]. split; [done|]. intros Hp Hs _. split; [eexists; constructor|auto]. Qed.

Lemma keeps_lift {A} (P : Prop) (r : result A) : Keeps P (lift r) (fun x => r = Ok x).
Proof.
  intros s x s'. destruct r as [y|e]; [|done]. intros [= <- <-]. split; [done|]. intros _ Hs _.
  split; [eexists; constructor|done].
Qed.

Lemma keeps_fault {A} (P : Prop) (e : Prelude.fault) (Q : A -> Prop) : Keeps P (Nodes.fault e) Q.
Proof. by intros s x s'. Qed.

Lemma keeps_gets {A} (P : Prop) (f : State -> A) : (forall s st, f (set_store st s) = f s) ->
  Keeps P (gets f) (fun _ => True).
Proof. intros Hf s x s' [= <- <-]. split; [done|]. intros _ Hs _. split; [|done]. eexists. by constructor. Qed.

Lemma keeps_modify (P : Prop) f : (forall s st, f (set_store st s) = set_store st (f s)) ->
  Keeps P (modify f) (fun _ => True).
Proof.
  intros Hf s x s' [= <- <-]. rewrite (modify_store f s (Hf s)). split; [done|]. intros _ [] _.
  split; [eexists; by constructor|]. split; [|done]. split; by rewrite (modify_store f s (Hf s)).
Qed.

Lemma keeps_pop (P : Prop) : Keeps P pop_page (fun _ => True).
Proof.
  intros s p s' E. rewrite (pop_store _ _ _ E). split; [done|]. intros _ [] _. split; [eexists; by apply makes_pop|].
  split; [|done]. split; by rewrite (pop_store _ _ _ E).
Qed.

Lemma keeps_fetch (P : Prop) p : Keeps P (FetchPage p) (fun _ => True).
Proof.
  intros s o s' E. rewrite (fetch_next _ _ _ _ E). split; [done|]. intros _ [Hn Hge] _.
  split; [eexists; by apply makes_fetch|]. split; [|done]. split; [|by rewrite (fetch_next _ _ _ _ E)].
  unfold FetchPage in E. destruct (assert_ _) as [[]|]; [|done]. simpl in E.
  destruct (nodes (store s) !! p); [|done]. destruct (_ && _); by injection E as <- <-.
Qed.

Lemma keeps_new (P : Prop) : Keeps P NewPage (fun x => int32 x.1).
Proof.
  intros s [p o] s' E. pose proof (new_next _ _ _ _ E) as En. split; [lia|]. intros _ [Hn Hge] Hlt.
  split; [eexists; by apply makes_new|].
  assert (Hp : p = next (store s)) by (unfold NewPage in E; destruct (full (store s)); by simplify_eq).
  split; [|cbn; unfold in_sint; lia]. split; [|lia]. unfold NewPage in E. destruct (full (store s)); injection E as <- <- <-; [done|].
  intros q n. cbn. destruct (decide (q = next (store s))) as [->|Hne]; [|rewrite lookup_insert_ne by done; apply Hn].
  rewrite lookup_insert_eq. by intros [= <-].
Qed.

Lemma keeps_unpin (P : Prop) p dirty : Keeps P (UnpinPage p dirty) (fun _ => True).
Proof.
  intros s ok s' E. rewrite (unpin_next _ _ _ _ _ E). split; [done|]. intros _ [Hn Hge] _.
  split; [eexists; by apply makes_unpin|]. split; [|done]. split; [|by rewrite (unpin_next _ _ _ _ _ E)].
  unfold UnpinPage in E. destruct (assert_ _) as [[]|]; [|done]. simpl in E.
  destruct (pinned p (store s)); [|destruct (nodes (store s) !! p); [|done]]; injection E as <- <-; [|done].
  intros q n. destruct (loses p dirty (store s)), dirty; cbn; try apply Hn; intros [_ Hq]%lookup_delete_Some; by apply Hn in Hq.
Qed.

Lemma keeps_delete (P : Prop) p : Keeps P (DeletePage p) (fun _ => True).
Proof.
  intros s ok s' E. rewrite (delete_next _ _ _ _ E). split; [done|]. intros _ [Hn Hge] _.
  split; [eexists; by apply makes_delete|]. split; [|done]. split; [|by rewrite (delete_next _ _ _ _ E)].
  unfold DeletePage in E. destruct (assert_ _) as [[]|]; [|done]. simpl in E.
  destruct (pinned p (store s)); [|destruct (nodes (store s) !! p); [|done]]; injection E as <- <-; [done|].
  intros q n0. cbn. intros [_ Hq]%lookup_delete_Some. by apply Hn in Hq.
Qed.

Lemma keeps_read (P : Prop) p : Keeps P (read_node p) shaped.
Proof.
  intros s n s' E. rewrite (read_same _ _ _ _ E). split; [done|]. intros _ Hs _.
  assert (Hn : shaped n).
  { unfold read_node in E. destruct (pinned p (store s)); [|done]. destruct (nodes (store s) !! p) as [n'|] eqn:En; [|done].
    injection E as <- <-. by apply (ft_nodes _ Hs p). }
  split; [|done]. eexists. apply makes_read; [|done]. by rewrite (read_same _ _ _ _ E) in E.
Qed.

Lemma keeps_write (P : Prop) p n : (P -> shaped n) -> Keeps P (write_node p n) (fun _ => True).
Proof.
  intros Hn s [] s' E. rewrite (write_next _ _ _ _ E). split; [done|]. intros Hp Hs _.
  split; [eexists; apply makes_write; auto|]. split; [|done]. destruct Hs as [Hs Hge].
  split; [|by rewrite (write_next _ _ _ _ E)]. unfold write_node in E. destruct (pinned p (store s)); [|done].
  injection E as <-. intros q n'. cbn. destruct (decide (q = p)) as [->|Hne].
  - rewrite lookup_insert_eq. intros [= <-]. auto.
  - rewrite lookup_insert_ne by done. apply Hs.
Qed.
End Fits.

Create HintDb keeps.
#[export] Hint Resolve keeps_lift keeps_fault keeps_pop keeps_fetch keeps_new keeps_unpin keeps_delete keeps_read keeps_write : keeps.
#[export] Hint Extern 1 (Keeps _ (gets _) _) => (by apply keeps_gets) : keeps.
#[export] Hint Extern 1 (Keeps _ (modify _) _) => (by apply keeps_modify) : keeps.

(** The facts about a page that fits. *)
Ltac learn H := let T := type of H in lazymatch goal with _ : T |- _ => fail | _ => pose proof H end.

Ltac learn_pages :=
  repeat match goal with
  | H : NodeBytes.shaped _ _ (LeafNode ?p) |- _ => first [learn (leaf_hdr p H)|learn (leaf_next p H)|learn (leaf_cells p H)]
  | H : NodeBytes.shaped _ _ (InternalNode ?i) |- _ => first [learn (internal_hdr i H)|learn (internal_cells i H)]
  | E : Leaf.move_first ?p ?r = Ok _, H1 : NodeBytes.shaped _ _ (LeafNode ?p), H2 : NodeBytes.shaped _ _ (LeafNode ?r) |- _ =>
      learn (proj1 (leaf_first _ _ _ _ E H1 H2))
  | E : Leaf.push_front ?x ?p = Ok _, Hx : packs ?x, H : NodeBytes.shaped _ _ (LeafNode ?p) |- _ => learn (leaf_front _ _ _ E Hx H)
  end.

(** A page or a value that an operation gave. *)
Ltac op_fact :=
  match goal with
  | E : Leaf.Insert _ _ _ _ = Ok (_, ?p) |- NodeBytes.shaped _ _ (LeafNode ?p) => apply (leaf_insert _ _ _ _ _ _ E)
  | E : Leaf.RemoveAndDeleteRecord _ _ _ = Ok (_, ?p) |- NodeBytes.shaped _ _ (LeafNode ?p) => apply (leaf_remove _ _ _ _ _ E)
  | E : Leaf.MoveHalfTo _ _ = Ok (?p, _) |- NodeBytes.shaped _ _ (LeafNode ?p) => apply (leaf_half _ _ _ _ E)
  | E : Leaf.MoveHalfTo _ _ = Ok (_, ?p) |- NodeBytes.shaped _ _ (LeafNode ?p) => apply (leaf_half _ _ _ _ E)
  | E : Leaf.move_all _ _ = Ok (?p, _) |- NodeBytes.shaped _ _ (LeafNode ?p) => apply (leaf_all _ _ _ _ E)
  | E : Leaf.move_all _ _ = Ok (_, ?p) |- NodeBytes.shaped _ _ (LeafNode ?p) => apply (leaf_all _ _ _ _ E)
  | E : Leaf.move_first _ _ = Ok (?p, _) |- NodeBytes.shaped _ _ (LeafNode ?p) => apply (leaf_first _ _ _ _ E)
  | E : Leaf.move_first _ _ = Ok (_, ?p) |- NodeBytes.shaped _ _ (LeafNode ?p) => apply (leaf_first _ _ _ _ E)
  | E : Leaf.push_front _ _ = Ok ?p |- NodeBytes.shaped _ _ (LeafNode ?p) => apply (leaf_front _ _ _ E)
  | |- NodeBytes.shaped _ _ (LeafNode (Leaf.Init _ _ _ _ _)) => apply leaf_init
  | |- NodeBytes.shaped _ _ (LeafNode (Leaf.set_hdr _ _)) => eapply leaf_by; [| | |apply like_refl]
  | E : Internal.put_key _ _ _ = Ok ?i |- NodeBytes.shaped _ _ (InternalNode ?i) => apply (internal_put_key _ _ _ _ E)
  | E : Internal.SetKeyAt _ _ _ = Ok ?i |- NodeBytes.shaped _ _ (InternalNode ?i) => apply (internal_set_key _ _ _ _ E)
  | E : Internal.PopulateNewRoot _ _ _ _ = Ok ?i |- NodeBytes.shaped _ _ (InternalNode ?i) => apply (internal_root _ _ _ _ _ E)
  | E : Internal.InsertNodeAfter _ _ _ _ = Ok (_, ?i) |- NodeBytes.shaped _ _ (InternalNode ?i) =>
      apply (internal_insert _ _ _ _ _ _ E)
  | E : Internal.Remove _ _ = Ok ?i |- NodeBytes.shaped _ _ (InternalNode ?i) => apply (internal_remove _ _ _ E)
  | E : Internal.copy_half _ _ = Ok ?i |- NodeBytes.shaped _ _ (InternalNode ?i) => apply (internal_copy_half _ _ _ E)
  | E : Internal.copy_all _ _ = Ok ?i |- NodeBytes.shaped _ _ (InternalNode ?i) => apply (internal_copy_all _ _ _ E)
  | E : Internal.copy_last _ _ = Ok ?i |- NodeBytes.shaped _ _ (InternalNode ?i) => apply (internal_copy_last _ _ _ E)
  | E : Internal.copy_first _ _ = Ok ?i |- NodeBytes.shaped _ _ (InternalNode ?i) => apply (internal_copy_first _ _ _ E)
  | |- NodeBytes.shaped _ _ (InternalNode (Internal.Init _ _ _ _)) => apply internal_init
  | |- NodeBytes.shaped _ _ (InternalNode (Internal.set_hdr _ _)) => eapply internal_by; [| |apply like_refl]
  | E : Internal.KeyAt _ ?i = Ok ?k, H : NodeBytes.shaped _ _ (InternalNode ?i) |- packs ?k => exact (internal_key _ _ _ E H)
  | E : Internal.ValueAt _ ?i = Ok ?v, H : NodeBytes.shaped _ _ (InternalNode ?i) |- int32 ?v => exact (internal_value _ _ _ E H)
  | E : Leaf.KeyAt _ ?p = Ok ?k, H : NodeBytes.shaped _ _ (LeafNode ?p) |- packs ?k => exact (leaf_key _ _ _ E H)
  | E : cell (Leaf.array ?p) _ = Ok ?x, H : NodeBytes.shaped _ _ (LeafNode ?p) |- packs ?x => exact (leaf_cell _ _ _ E H)
  | E : cell (Leaf.array ?p) _ = Ok ?x, H : NodeBytes.shaped _ _ (LeafNode ?p) |- packs (fst ?x) => apply (leaf_cell _ _ _ E H)
  | E : cell (Internal.array ?i) _ = Ok ?x |- packs (fst ?x) => refine (proj1 (internal_cell i _ x E _))
  | E : cell (Internal.array ?i) _ = Ok ?x, H : NodeBytes.shaped _ _ (InternalNode ?i) |- packs (_, snd ?x) =>
      split; [|apply (internal_cell _ _ _ E H)]
  | E : memread _ _ _ = Ok ?l |- Forall _ ?l => apply (memread_forall _ _ _ _ _ E)
  | |- Forall _ (Internal.array _) => apply internal_cells
  | |- Forall _ (Leaf.array _) => apply leaf_cells
  | E : Header.InsertRecord _ _ _ = Ok (_, ?b) |- NodeBytes.shaped _ _ (HeaderNode ?b) => apply (header_insert _ _ _ _ _ E)
  | E : Header.UpdateRecord _ _ _ = Ok (_, ?b) |- NodeBytes.shaped _ _ (HeaderNode ?b) => apply (header_update _ _ _ _ _ E)
  | E : as_header ?n = Ok ?b |- NodeBytes.shaped _ _ (HeaderNode ?b) => apply (as_header_ok _ _ E)
  | E : as_page ?n = Ok ?h |- NodeBytes.shaped _ _ (with_hdr _ ?n) => apply (with_hdr_ok _ _ _ E)
  | E : as_page ?n = Ok ?h, H : NodeBytes.shaped _ _ ?n |- int_header ?h => exact (as_page_int _ _ E H)
  | |- int_header (IncreaseSize _ _) => apply int_IncreaseSize
  | |- int_header (SetSize _ _) => apply int_SetSize
  | |- int_header (SetPageType _ _) => apply int_SetPageType
  | |- int_header (SetParentPageId _ _) => apply int_SetParentPageId
  end.

(** What follows from the facts gathered on the way. *)
Ltac facts :=
  intros; destruct_and?; repeat match goal with H : ?P -> _, HP : ?P |- _ => lazymatch type of P with Prop => specialize (H HP) end end;
  destruct_and?; cbn [fst snd] in *; simplify_eq; learn_pages; repeat op_fact; eauto 5 with shape.
#[export] Hint Extern 5 (packs _) => solve [facts] : keeps.
#[export] Hint Extern 5 (int32 _) => solve [facts] : keeps.
#[export] Hint Extern 5 (NodeBytes.shaped _ _ _) => solve [facts] : keeps.
#[export] Hint Extern 5 (Forall _ _) => solve [facts] : keeps.

(** Follows a computation: each call by its lemma, each case by itself. *)
Ltac keeps :=
  lazymatch goal with
  | |- Keeps _ (bind _ _) _ =>
      first [eapply keeps_bind; [solve [eauto 3 with keeps]|]
            |apply (keeps_bind (fun _ => True)); [solve [keeps]|]];
      let x := fresh "x" in intros x; repeat case_match; cbv beta iota; keeps
  | |- Keeps _ (ret _) _ => apply keeps_ret; try done; facts
  | |- Keeps _ (Nodes.fault _) _ => apply keeps_fault
  | |- Keeps _ (when ?b _) _ => unfold when; keeps
  | |- Keeps _ (if ?b then _ else _) _ => destruct b eqn:?; keeps
  | |- Keeps _ (match ?x with _ => _ end) _ => destruct x eqn:?; keeps
  | |- Keeps _ (let _ := _ in _) _ => cbv zeta; keeps
  | |- Keeps ?P _ _ => eapply (keeps_weaken P P); [solve [eauto 3 with keeps]|exact (fun x => x)|]; try done; facts
  end.

Section Functions.
Context {K V : Type} {key_size value_size : Z} (zero_key : K) (zero_value : V).
Context `{!Packed K key_size} `{!Packed V value_size}.
Context (Hzero : zeros_ok key_size value_size zero_key zero_value).
Context (index_name : list Z) (cmp : K -> K -> Z).

Abbreviation M := (M K V).
Abbreviation Keeps := (Keeps (K := K) (V := V) (key_size := key_size) (value_size := value_size)).
Abbreviation get_leaf := (get_leaf key_size value_size zero_key zero_value).
Abbreviation get_internal := (get_internal key_size zero_key).
Abbreviation shaped := (NodeBytes.shaped (K := K) (V := V) key_size value_size).
Abbreviation any := (fun _ => True).

Lemma keeps_get_page P p : Keeps P (get_page p) int_header.
Proof. unfold get_page. eapply keeps_bind; [apply keeps_read|]. intros n. eapply keeps_weaken; [apply keeps_lift|done|].
  intros h [_ Hn] E. exact (as_page_int _ _ E Hn). Qed.

Lemma keeps_get_leaf P p : Keeps P (get_leaf p) (fun l => shaped (LeafNode l)).
Proof. unfold get_leaf. eapply keeps_bind; [apply keeps_read|]. intros n. eapply keeps_weaken; [apply keeps_lift|done|].
  intros h [_ Hn] E. exact (as_leaf_ok _ _ Hzero _ _ E Hn). Qed.

Lemma keeps_get_internal P p : Keeps P (get_internal p) (fun i => shaped (InternalNode i)).
Proof. unfold get_internal. eapply keeps_bind; [apply keeps_read|]. intros n. eapply keeps_weaken; [apply keeps_lift|done|].
  intros h [_ Hn] E. exact (as_internal_ok _ _ Hzero _ _ E Hn). Qed.

Hint Resolve keeps_get_page keeps_get_leaf keeps_get_internal : keeps.

Lemma keeps_fetch_data P p : Keeps P (fetch_data p) any.
Proof. unfold fetch_data, GetData. keeps. Qed.

Lemma keeps_page_id P p : Keeps P (GetPageId p) int32.
Proof. unfold GetPageId. keeps. Qed.

Hint Resolve keeps_fetch_data keeps_page_id : keeps.

Lemma keeps_parent_id P p : Keeps P (GetParentPageId p) (int32).
Proof. intros; unfold GetParentPageId; keeps. Qed.

Lemma keeps_put_leaf P p l : (P -> shaped (LeafNode l)) -> Keeps P (put_leaf p l) (any).
Proof. intros; unfold put_leaf; keeps. Qed.

Lemma keeps_put_internal P p i : (P -> shaped (InternalNode i)) -> Keeps P (put_internal p i) (any).
Proof. intros; unfold put_internal; keeps. Qed.

Lemma keeps_set_parent P q p : (P -> int32 q) -> Keeps P (set_parent q p) (any).
Proof. intros; unfold set_parent; keeps. Qed.

Hint Resolve keeps_parent_id keeps_put_leaf keeps_put_internal keeps_set_parent : keeps.

Lemma keeps_leaf_half P p q : Keeps P (leaf_MoveHalfTo key_size value_size zero_key zero_value p q) (any).
Proof. intros; unfold leaf_MoveHalfTo; keeps. Qed.

Lemma keeps_common_parent P p q : Keeps P (common_parent p q) (int32).
Proof. intros; unfold common_parent; keeps. Qed.

Hint Resolve keeps_leaf_half keeps_common_parent : keeps.

Lemma keeps_leaf_all P p q : Keeps P (leaf_MoveAllTo key_size value_size zero_key zero_value p q) (any).
Proof. intros; unfold leaf_MoveAllTo; keeps. Qed.

Lemma keeps_leaf_first P p q : Keeps P (leaf_MoveFirstToEndOf key_size value_size zero_key zero_value p q) (any).
Proof. intros; unfold leaf_MoveFirstToEndOf; keeps. Qed.

Lemma keeps_leaf_copy_first P x i p : (P -> packs (size := key_size + value_size) x) ->
  Keeps P (leaf_CopyFirstFrom key_size value_size zero_key zero_value x i p) (any).
Proof. intros; unfold leaf_CopyFirstFrom; keeps. Qed.

Hint Resolve keeps_leaf_all keeps_leaf_first keeps_leaf_copy_first : keeps.

Lemma keeps_leaf_last P p q : Keeps P (leaf_MoveLastToFrontOf key_size value_size zero_key zero_value p q) (any).
Proof. intros; unfold leaf_MoveLastToFrontOf; keeps. Qed.

Lemma keeps_adopt P p q : Keeps P (adopt p q) (any).
Proof. intros; unfold adopt; keeps. Qed.

Hint Resolve keeps_leaf_last keeps_adopt : keeps.

Lemma keeps_adopt_all P p (items : list (K * Z)) : Keeps P (adopt_all p items) (any).
Proof. revert P. induction items as [|x items IH]; intros P; cbn [adopt_all]; keeps. Qed.

Hint Resolve keeps_adopt_all : keeps.
Lemma keeps_copy_half P items p : (P -> Forall (packs (size := key_size + 4)) items) ->
  Keeps P (CopyHalfFrom key_size zero_key items p) any.
Proof. intros; unfold CopyHalfFrom; keeps. Qed.

Lemma keeps_copy_all P items p : (P -> Forall (packs (size := key_size + 4)) items) ->
  Keeps P (CopyAllFrom key_size zero_key items p) any.
Proof. intros; unfold CopyAllFrom; keeps. Qed.

Lemma keeps_both_filled P p q : Keeps P (both_filled p q) any.
Proof. intros; unfold both_filled; keeps. Qed.

Lemma keeps_sibling_indices P pp p q :
  Keeps P (sibling_indices key_size zero_key pp p q) (fun x => shaped (InternalNode x.1.1)).
Proof. intros; unfold sibling_indices; keeps. Qed.

Lemma keeps_copy_last P x p : (P -> packs (size := key_size + 4) x) -> Keeps P (CopyLastFrom key_size zero_key x p) any.
Proof. intros; unfold CopyLastFrom; keeps. Qed.

Lemma keeps_copy_first P x p : (P -> packs (size := key_size + 4) x) -> Keeps P (CopyFirstFrom key_size zero_key x p) any.
Proof. intros; unfold CopyFirstFrom; keeps. Qed.

Hint Resolve keeps_copy_half keeps_copy_all keeps_both_filled keeps_sibling_indices keeps_copy_last keeps_copy_first : keeps.

Lemma keeps_internal_half P p q : Keeps P (MoveHalfTo key_size zero_key p q) any.
Proof. intros; unfold MoveHalfTo; keeps. Qed.

Lemma keeps_internal_all P p q : Keeps P (MoveAllTo key_size zero_key p q) any.
Proof. intros; unfold MoveAllTo; keeps. Qed.

Lemma keeps_internal_first P p q : Keeps P (MoveFirstToEndOf key_size zero_key p q) any.
Proof. intros; unfold MoveFirstToEndOf; keeps. Qed.

Lemma keeps_internal_last P p q : Keeps P (MoveLastToFrontOf key_size zero_key p q) any.
Proof. intros; unfold MoveLastToFrontOf; keeps. Qed.

Hint Resolve keeps_internal_half keeps_internal_all keeps_internal_first keeps_internal_last : keeps.

(** The tree. *)
Lemma keeps_create P root : Keeps P (create root) any.
Proof. intros; unfold create; keeps. Qed.

Lemma keeps_is_empty P : Keeps P (IsEmpty) any.
Proof. intros; unfold IsEmpty; keeps. Qed.

Lemma keeps_add_page P p : Keeps P (AddIntoPageSet p) any.
Proof. intros; unfold AddIntoPageSet; keeps. Qed.

Lemma keeps_add_deleted P p : Keeps P (add_deleted p) any.
Proof. intros; unfold add_deleted; keeps. Qed.

Hint Resolve keeps_create keeps_is_empty keeps_add_page keeps_add_deleted : keeps.

Lemma keeps_release_loop P n type dirty : Keeps P (release_loop n type dirty) any.
Proof. revert P. induction n as [|n IH]; intros P; cbn [release_loop]; keeps. Qed.

Hint Resolve keeps_release_loop : keeps.

Lemma keeps_release P b type dirty : Keeps P (ReleasePageSet b type dirty) any.
Proof. intros; unfold ReleasePageSet; keeps. Qed.

Lemma keeps_release_ancestors P n : Keeps P (release_ancestors n) any.
Proof. revert P. induction n as [|n IH]; intros P; cbn [release_ancestors]; keeps. Qed.

Hint Resolve keeps_release keeps_release_ancestors : keeps.

Lemma keeps_enter_root P b type : Keeps P (enter_root b type) any.
Proof. destruct type; unfold enter_root; keeps. Qed.

Lemma keeps_enter_child P b type p q : Keeps P (enter_child b type p q) any.
Proof. destruct type; unfold enter_child; keeps. Qed.

Hint Resolve keeps_enter_root keeps_enter_child : keeps.

Lemma keeps_descend P fuel key leftMost b type p : Keeps P (descend key_size zero_key cmp fuel key leftMost b type p) any.
Proof. revert P p. induction fuel as [|fuel IH]; intros P p; cbn [descend]; keeps. Qed.

Hint Resolve keeps_descend : keeps.

Lemma keeps_find_leaf P fuel key leftMost b type : Keeps P (FindLeafPage key_size zero_key cmp fuel key leftMost b type) any.
Proof. intros; unfold FindLeafPage; keeps. Qed.

Hint Resolve keeps_find_leaf : keeps.

Lemma keeps_get_value P fuel key b : Keeps P (GetValue key_size value_size zero_key zero_value cmp fuel key b) any.
Proof. intros; unfold GetValue; keeps. Qed.

Lemma keeps_update_root P b : Keeps P (UpdateRootPageId index_name b) any.
Proof. intros; unfold UpdateRootPageId; keeps. Qed.

Hint Resolve keeps_get_value keeps_update_root : keeps.

Lemma keeps_start_tree P key value : (P -> packs key) -> (P -> packs value) ->
  Keeps P (StartNewTree key_size value_size zero_key zero_value index_name cmp key value) any.
Proof. intros; unfold StartNewTree; keeps. Qed.

Lemma keeps_split P kind p : Keeps P (Split key_size value_size zero_key zero_value kind p) any.
Proof. destruct kind; unfold Split; keeps. Qed.

Lemma keeps_insert_after P p q key n : (P -> packs key) -> Keeps P (insert_after key_size zero_key p q key n) any.
Proof. intros; unfold insert_after; keeps. Qed.

Hint Resolve keeps_start_tree keeps_split keeps_insert_after : keeps.

Lemma keeps_grow_root P p key n : (P -> packs key) -> Keeps P (grow_root key_size zero_key index_name p key n) any.
Proof. intros; unfold grow_root; keeps. Qed.

Lemma keeps_split_parent P q p key n : (P -> packs key) ->
  Keeps P (split_parent key_size value_size zero_key zero_value cmp q p key n) (fun x => packs x.2).
Proof. intros; unfold split_parent; keeps. Qed.

Hint Resolve keeps_grow_root keeps_split_parent : keeps.

Lemma keeps_insert_parent P fuel p key n : (P -> packs key) ->
  Keeps P (InsertIntoParent key_size value_size zero_key zero_value index_name cmp fuel p key n) any.
Proof. revert P p key n. induction fuel as [|fuel IH]; intros P p key n Hkey; cbn [InsertIntoParent]; keeps. Qed.

Lemma keeps_insert_in_leaf P p key value : (P -> packs key) -> (P -> packs value) ->
  Keeps P (insert_in_leaf key_size value_size zero_key zero_value cmp p key value) any.
Proof. intros; unfold insert_in_leaf; keeps. Qed.

Hint Resolve keeps_insert_parent keeps_insert_in_leaf : keeps.

Lemma keeps_insert_into_leaf P fuel key value b : (P -> packs key) -> (P -> packs value) ->
  Keeps P (InsertIntoLeaf key_size value_size zero_key zero_value index_name cmp fuel key value b) any.
Proof. intros; unfold InsertIntoLeaf; keeps. Qed.

Hint Resolve keeps_insert_into_leaf : keeps.

Lemma keeps_insert P fuel key value b : (P -> packs key) -> (P -> packs value) ->
  Keeps P (Insert key_size value_size zero_key zero_value index_name cmp fuel key value b) any.
Proof. intros; unfold Insert; keeps. Qed.

Lemma keeps_adjust_root P p : Keeps P (AdjustRoot key_size zero_key index_name p) any.
Proof. intros; unfold AdjustRoot; keeps. Qed.

Lemma keeps_move_all P kind p q : Keeps P (move_all key_size value_size zero_key zero_value kind p q) any.
Proof. destruct kind; unfold move_all; keeps. Qed.

Lemma keeps_redistribute P kind p q i : Keeps P (Redistribute key_size value_size zero_key zero_value kind p q i) any.
Proof. destruct kind; unfold Redistribute; keeps. Qed.

Lemma keeps_unpin_page P p : Keeps P (unpin_page p) any.
Proof. intros; unfold unpin_page; keeps. Qed.

Lemma keeps_unpin_sibling P o : Keeps P (unpin_sibling o) any.
Proof. destruct o; unfold unpin_sibling, unpin_page; keeps. Qed.

Lemma keeps_rich P p q : Keeps P (rich p q) any.
Proof. intros; unfold rich; keeps. Qed.

Lemma keeps_fetch_sibling P p i : Keeps P (fetch_sibling key_size zero_key p i) any.
Proof. intros; unfold fetch_sibling; keeps. Qed.

Hint Resolve keeps_insert keeps_adjust_root keeps_move_all keeps_redistribute
  keeps_unpin_page keeps_unpin_sibling keeps_rich keeps_fetch_sibling : keeps.

Lemma keeps_coalesce P again kind p q r : (forall P p, Keeps P (again p) any) ->
  Keeps P (Coalesce key_size value_size zero_key zero_value index_name again kind p q r) any.
Proof. intros; unfold Coalesce; keeps. Qed.

Hint Resolve keeps_coalesce : keeps.

Lemma keeps_siblings P again b kind p q l r : (forall P p, Keeps P (again p) any) ->
  Keeps P (merge_siblings key_size value_size zero_key zero_value index_name again b kind p q l r) any.
Proof. intros; unfold merge_siblings; keeps. Qed.

Hint Resolve keeps_siblings : keeps.

Lemma keeps_coalesce_or_redistribute P fuel b kind p :
  Keeps P (CoalesceOrRedistribute key_size value_size zero_key zero_value index_name fuel b kind p) any.
Proof. revert P kind p. induction fuel as [|fuel IH]; intros P kind p; cbn [CoalesceOrRedistribute]; keeps. Qed.

Hint Resolve keeps_coalesce_or_redistribute : keeps.

Lemma keeps_remove P fuel key b : Keeps P (Remove key_size value_size zero_key zero_value index_name cmp fuel key b) any.
Proof. intros; unfold Remove; keeps. Qed.

(** The iterator and the check. *)
Lemma keeps_iterator P p i : Keeps P (Iterator p i) any.
Proof. intros; unfold Iterator; keeps. Qed.

Lemma keeps_iterator_release P it : Keeps P (Iterator_release it) any.
Proof. intros; unfold Iterator_release; keeps. Qed.

Lemma keeps_is_end P it : Keeps P (isEnd key_size value_size zero_key zero_value it) any.
Proof. intros; unfold isEnd; keeps. Qed.

Lemma keeps_item P it : Keeps P (Iterator_item key_size value_size zero_key zero_value it) any.
Proof. intros; unfold Iterator_item; keeps. Qed.

Lemma keeps_iterator_next P it : Keeps P (Iterator_next key_size value_size zero_key zero_value it) any.
Proof. intros; unfold Iterator_next; keeps. Qed.

Hint Resolve keeps_iterator : keeps.

Lemma keeps_begin P fuel : Keeps P (Begin key_size zero_key cmp fuel) any.
Proof. intros; unfold Begin; keeps. Qed.

Lemma keeps_begin_at P fuel key : Keeps P (Begin_at key_size value_size zero_key zero_value cmp fuel key) any.
Proof. intros; unfold Begin_at; keeps. Qed.

Lemma keeps_check_queue P fuel queue : Keeps P (check_queue key_size value_size zero_key zero_value cmp fuel queue) any.
Proof. revert P queue. induction fuel as [|fuel IH]; intros P [|[[id lo] hi] queue]; cbn [check_queue]; keeps. Qed.

Hint Resolve keeps_check_queue : keeps.

Lemma keeps_check P fuel : Keeps P (CheckIntegrity key_size value_size zero_key zero_value cmp fuel) any.
Proof. intros; unfold CheckIntegrity; keeps. Qed.
End Functions.
End TreeFits.
