(* ===== verification/TreeTraces.v ===== *)
(** * The index on the buffer pool

    Every computation of [TreeNodes] and [BPlusTree] that returns allocates a bounded number
    of pages and, by [TreeFits], is a run of events of [TreePool] that keeps the nodes on
    their pages.  So a pool that holds the pages of an index serves its operations. *)

From stdpp Require Import prelude gmap gmultiset list.
From Stdlib Require Import ZArith Lia.
From S2P Require Import Prelude Interfaces ExtendibleHash LruReplacer Rid DiskManager BufferPool PagePool.
From S2P Require Import HeaderPage BPlusTreePage LeafPage InternalPage TreeNodes BPlusTree NodeBytes TreePool TreeFits.
From S2P Require Import TreeModel TreeSteps TreeSearch TreeScan TreeRefine TreeTheorems.

Local Open Scope Z_scope.

Module TreeTraces.
Import BPage Nodes NodeBytes TreeModel BPlusTree TreeSteps TreeSearch TreeScan TreeRefine TreeTheorems TreePool TreeFits.

(** ** Every computation of the tree makes a bounded number of pages *)

Section Traces.
Context {K V : Type}.

Abbreviation M := (M K V).

(** Where it returns, it made at most [n] pages. *)
Class Traced (n : Z) {A} (m : M A) : Prop :=
  traced : forall s x s', m s = Ok (x, s') -> next (store s') <= next (store s) + n.

Lemma traced_le n n' A (m : M A) : Traced n m -> n <= n' -> Traced n' m.
Proof. intros H Hn s x s' Hrun. pose proof (H s x s' Hrun). lia. Qed.

(** A computation that makes no page. *)
Lemma traced_still A (m : M A) : (forall s x s', m s = Ok (x, s') -> next (store s') = next (store s)) -> Traced 0 m.
Proof. intros H s x s' E%H. lia. Qed.

#[export] Instance traced_ret A (x : A) : Traced 0 (ret x).
Proof. apply traced_still. by intros s y s' [= <- <-]. Qed.

#[export] Instance traced_bind n1 n2 A B (m : M A) (f : A -> M B) :
  Traced n1 m -> (forall x, Traced n2 (f x)) -> Traced (n1 + n2) (bind m f).
Proof.
  intros Hm Hf s y s2. unfold bind. destruct (m s) as [[x s1]|e] eqn:E; [|done]. intros Ey.
  apply Hm in E. apply Hf in Ey. lia.
Qed.

#[export] Instance traced_lift A (r : result A) : Traced 0 (lift r).
Proof. apply traced_still. intros s x s'. destruct r; [|done]. by intros [= _ <-]. Qed.

#[export] Instance traced_fault A (e : Prelude.fault) : Traced 0 (A := A) (Nodes.fault e).
Proof. by intros s x s'. Qed.

#[export] Instance traced_gets A (f : State K V -> A) : Traced 0 (gets f).
Proof. apply traced_still. by intros s x s' [= _ <-]. Qed.

Lemma traced_modify f : (forall s st, f (set_store st s) = set_store st (f s)) -> Traced 0 (modify f).
Proof. intros Hf. apply traced_still. intros s x s' [= _ <-]. by rewrite (modify_store f). Qed.

(** The cases of a computation. *)
#[export] Instance traced_if n1 n2 A (b : bool) (m1 m2 : M A) :
  Traced n1 m1 -> Traced n2 m2 -> Traced (Z.max n1 n2) (if b then m1 else m2).
Proof. intros H1 H2. destruct b; [by apply (traced_le n1); [|lia]|by apply (traced_le n2); [|lia]]. Qed.

#[export] Instance traced_when n b (m : M unit) : Traced n m -> Traced (Z.max n 0) (when b m).
Proof. intros H. unfold when. apply _. Qed.

#[export] Instance traced_asserts b : Traced 0 (asserts b) := traced_lift _ _.

#[export] Instance traced_option n1 n2 A B (o : option A) (f : A -> M B) m :
  (forall x, Traced n1 (f x)) -> Traced n2 m -> Traced (Z.max n1 n2) (match o with Some x => f x | None => m end).
Proof. intros H1 H2. destruct o; [by apply (traced_le n1); [|lia]|by apply (traced_le n2); [|lia]]. Qed.

#[export] Instance traced_pair n A B C (x : A * B) (f : A -> B -> M C) :
  (forall a b, Traced n (f a b)) -> Traced n (let (a, b) := x in f a b).
Proof. by destruct x. Qed.

(** The primitives. *)
#[export] Instance traced_fetch p : Traced 0 (FetchPage p).
Proof. apply traced_still. intros s o s'. apply fetch_next. Qed.

#[export] Instance traced_new : Traced 1 NewPage.
Proof. intros s [p o] s' H%new_next. lia. Qed.

#[export] Instance traced_unpin p dirty : Traced 0 (UnpinPage p dirty).
Proof. apply traced_still. intros s ok s'. apply unpin_next. Qed.

#[export] Instance traced_delete p : Traced 0 (DeletePage p).
Proof. apply traced_still. intros s ok s'. apply delete_next. Qed.

#[export] Instance traced_read p : Traced 0 (read_node p).
Proof. apply traced_still. by intros s n s' ->%read_same. Qed.

#[export] Instance traced_write p n : Traced 0 (write_node p n).
Proof. apply traced_still. intros s [] s'. apply write_next. Qed.

#[export] Instance traced_pop : Traced 0 pop_page.
Proof. apply traced_still. by intros s p s' ->%pop_store. Qed.
End Traces.

#[export] Hint Extern 1 (Traced _ (modify _)) => (by apply traced_modify) : typeclass_instances.

(** Follows the computation; the number of pages it makes is compared with the one claimed. *)
Ltac follow := intros; eapply traced_le; [apply _|cbn [length] in *; lia].
Ltac trace f := intros; unfold f; follow.

Section Functions.
Context {K V : Type} (key_size value_size : Z) (zero_key : K) (zero_value : V).
Context (index_name : list Z) (cmp : K -> K -> Z).

Abbreviation Traced := (Traced (K := K) (V := V)).

#[export] Instance traced_get_page p : Traced 0 (get_page p).
Proof. trace @get_page. Qed.

#[export] Instance traced_get_leaf p : Traced 0 (get_leaf key_size value_size zero_key zero_value p).
Proof. trace @get_leaf. Qed.

#[export] Instance traced_get_internal p : Traced 0 (get_internal key_size zero_key p).
Proof. trace @get_internal. Qed.

#[export] Instance traced_leaf_half p q : Traced 0 (leaf_MoveHalfTo key_size value_size zero_key zero_value p q).
Proof. trace @leaf_MoveHalfTo. Qed.

#[export] Instance traced_leaf_all p q : Traced 0 (leaf_MoveAllTo key_size value_size zero_key zero_value p q).
Proof. trace @leaf_MoveAllTo. Qed.

#[export] Instance traced_leaf_first p q : Traced 0 (leaf_MoveFirstToEndOf key_size value_size zero_key zero_value p q).
Proof. trace @leaf_MoveFirstToEndOf. Qed.

#[export] Instance traced_leaf_last p q : Traced 0 (leaf_MoveLastToFrontOf key_size value_size zero_key zero_value p q).
Proof. trace @leaf_MoveLastToFrontOf. Qed.

#[export] Instance traced_adopt p q : Traced 0 (adopt p q).
Proof. trace @adopt. Qed.

#[export] Instance traced_adopt_all p (items : list (K * Z)) : Traced 0 (adopt_all p items).
Proof. induction items; simpl; follow. Qed.

#[export] Instance traced_internal_half p q : Traced 0 (MoveHalfTo key_size zero_key p q).
Proof. trace @MoveHalfTo. Qed.

#[export] Instance traced_internal_all p q : Traced 0 (MoveAllTo key_size zero_key p q).
Proof. trace @MoveAllTo. Qed.

#[export] Instance traced_internal_first p q : Traced 0 (MoveFirstToEndOf key_size zero_key p q).
Proof. trace @MoveFirstToEndOf. Qed.

#[export] Instance traced_internal_last p q : Traced 0 (MoveLastToFrontOf key_size zero_key p q).
Proof. trace @MoveLastToFrontOf. Qed.

(** The tree. *)
#[export] Instance traced_add_page p : Traced 0 (AddIntoPageSet p).
Proof. trace @AddIntoPageSet. Qed.

#[export] Instance traced_add_deleted p : Traced 0 (add_deleted p).
Proof. trace @add_deleted. Qed.
#[export] Instance traced_create root : Traced 1 (create root).
Proof. trace @create. Qed.

#[export] Instance traced_is_empty : Traced 0 (IsEmpty).
Proof. trace @IsEmpty. Qed.

#[export] Instance traced_release_loop n type dirty : Traced 0 (release_loop n type dirty).
Proof. induction n; simpl; follow. Qed.

#[export] Instance traced_release b type dirty : Traced 0 (ReleasePageSet b type dirty).
Proof. trace @ReleasePageSet. Qed.

#[export] Instance traced_release_ancestors n : Traced 0 (release_ancestors n).
Proof. induction n; simpl; follow. Qed.

#[export] Instance traced_enter_root b type : Traced 0 (enter_root b type).
Proof. destruct type; trace @enter_root. Qed.

#[export] Instance traced_enter_child b type p q : Traced 0 (enter_child b type p q).
Proof. destruct type; trace @enter_child. Qed.

#[export] Instance traced_descend fuel key leftMost b type p : Traced 0 (descend key_size zero_key cmp fuel key leftMost b type p).
Proof. revert p. induction fuel; simpl; follow. Qed.

#[export] Instance traced_find_leaf fuel key leftMost b type : Traced 0 (FindLeafPage key_size zero_key cmp fuel key leftMost b type).
Proof. trace @FindLeafPage. Qed.

#[export] Instance traced_get_value fuel key b : Traced 0 (GetValue key_size value_size zero_key zero_value cmp fuel key b).
Proof. trace @GetValue. Qed.

#[export] Instance traced_update_root b : Traced 0 (UpdateRootPageId index_name b).
Proof. trace @UpdateRootPageId. Qed.

#[export] Instance traced_start_tree key value : Traced 1 (StartNewTree key_size value_size zero_key zero_value index_name cmp key value).
Proof. trace @StartNewTree. Qed.

#[export] Instance traced_split kind p : Traced 1 (Split key_size value_size zero_key zero_value kind p).
Proof. destruct kind; trace @Split. Qed.

#[export] Instance traced_insert_after p q key n : Traced 0 (insert_after key_size zero_key p q key n).
Proof. trace @insert_after. Qed.

#[export] Instance traced_grow_root p key n : Traced 1 (grow_root key_size zero_key index_name p key n).
Proof. trace @grow_root. Qed.

#[export] Instance traced_split_parent q p key n : Traced 1 (split_parent key_size value_size zero_key zero_value cmp q p key n).
Proof. trace @split_parent. Qed.

#[export] Instance traced_insert_parent fuel p key n : Traced (Z.of_nat fuel) (InsertIntoParent key_size value_size zero_key zero_value index_name cmp fuel p key n).
Proof. revert p key n. induction fuel; simpl; follow. Qed.

#[export] Instance traced_insert_in_leaf p key value : Traced 0 (insert_in_leaf key_size value_size zero_key zero_value cmp p key value).
Proof. trace @insert_in_leaf. Qed.

#[export] Instance traced_insert_into_leaf fuel key value b : Traced (Z.of_nat fuel + 1) (InsertIntoLeaf key_size value_size zero_key zero_value index_name cmp fuel key value b).
Proof. trace @InsertIntoLeaf. Qed.

#[export] Instance traced_insert fuel key value b : Traced (Z.of_nat fuel + 1) (Insert key_size value_size zero_key zero_value index_name cmp fuel key value b).
Proof. trace @Insert. Qed.

#[export] Instance traced_adjust_root p : Traced 0 (AdjustRoot key_size zero_key index_name p).
Proof. trace @AdjustRoot. Qed.

#[export] Instance traced_move_all kind p q : Traced 0 (move_all key_size value_size zero_key zero_value kind p q).
Proof. destruct kind; trace @move_all. Qed.

#[export] Instance traced_redistribute kind p q i : Traced 0 (Redistribute key_size value_size zero_key zero_value kind p q i).
Proof. destruct kind; trace @Redistribute. Qed.

#[export] Instance traced_unpin_page p : Traced 0 (unpin_page p).
Proof. trace @unpin_page. Qed.

#[export] Instance traced_rich p q : Traced 0 (rich p q).
Proof. trace @rich. Qed.

#[export] Instance traced_fetch_sibling p i : Traced 0 (fetch_sibling key_size zero_key p i).
Proof. trace @fetch_sibling. Qed.

#[export] Instance traced_merge again b kind p q l r : (forall p, Traced 0 (again p)) ->
  Traced 0 (merge_siblings key_size value_size zero_key zero_value index_name again b kind p q l r).
Proof. trace @merge_siblings. Qed.

#[export] Instance traced_coalesce_or_redistribute fuel b kind p : Traced 0 (CoalesceOrRedistribute key_size value_size zero_key zero_value index_name fuel b kind p).
Proof. revert kind p. induction fuel; simpl; follow. Qed.

#[export] Instance traced_remove fuel key b : Traced 0 (Remove key_size value_size zero_key zero_value index_name cmp fuel key b).
Proof. trace @Remove. Qed.
(** The iterator and the check. *)
#[local] Typeclasses Opaque FindLeafPage.
#[export] Instance traced_iterator p i : Traced 0 (Iterator p i).
Proof. trace @Iterator. Qed.

#[export] Instance traced_iterator_release it : Traced 0 (Iterator_release it).
Proof. trace @Iterator_release. Qed.

#[export] Instance traced_is_end it : Traced 0 (isEnd key_size value_size zero_key zero_value it).
Proof. trace @isEnd. Qed.

#[export] Instance traced_item it : Traced 0 (Iterator_item key_size value_size zero_key zero_value it).
Proof. trace @Iterator_item. Qed.

#[export] Instance traced_iterator_next it : Traced 0 (Iterator_next key_size value_size zero_key zero_value it).
Proof. trace @Iterator_next. Qed.

#[export] Instance traced_begin fuel : Traced 0 (Begin key_size zero_key cmp fuel).
Proof. trace @Begin. Qed.

#[local] Typeclasses Opaque Begin.

#[export] Instance traced_begin_at fuel key : Traced 0 (Begin_at key_size value_size zero_key zero_value cmp fuel key).
Proof. trace @Begin_at. Qed.

#[local] Typeclasses Opaque Begin_at.

#[export] Instance traced_check_queue fuel queue : Traced 0 (check_queue key_size value_size zero_key zero_value cmp fuel queue).
Proof. revert queue. induction fuel; intros [|[[id lo] hi] queue]; simpl; follow. Qed.

#[export] Instance traced_check fuel : Traced 0 (CheckIntegrity key_size value_size zero_key zero_value cmp fuel).
Proof. trace @CheckIntegrity. Qed.

#[export] Instance traced_scan fuel it : Traced 0 (scan key_size value_size zero_key zero_value fuel it).
Proof. revert it. induction fuel; simpl; follow. Qed.

#[export] Instance traced_scan_all fuel : Traced 0 (scan_all key_size value_size zero_key zero_value cmp fuel).
Proof. trace @scan_all. Qed.

#[export] Instance traced_scan_from fuel key : Traced 0 (scan_from key_size value_size zero_key zero_value cmp fuel key).
Proof. trace @scan_from. Qed.

#[export] Instance traced_new_header : Traced 1 (new_header).
Proof. trace @new_header. Qed.

#[export] Instance traced_new_index root : Traced 2 (run! create root ;; new_header).
Proof. follow. Qed.

#[export] Instance traced_run_op fuel op : Traced (Z.of_nat fuel + 1) (run_op key_size value_size zero_key zero_value index_name cmp fuel op).
Proof. destruct op; simpl; follow. Qed.

#[export] Instance traced_run_ops fuel ops : Traced ((Z.of_nat fuel + 1) * Z.of_nat (length ops)) (run_ops key_size value_size zero_key zero_value index_name cmp fuel ops).
Proof. induction ops; simpl; follow. Qed.

End Functions.

(** ** Every sequence of operations keeps the nodes on their pages *)

Section Keeping.
Context {K V : Type} {key_size value_size : Z} (zero_key : K) (zero_value : V).
Context `{!Packed K key_size} `{!Packed V value_size}.
Context (Hzero : zeros_ok key_size value_size zero_key zero_value).
Context (index_name : list Z) (cmp : K -> K -> Z).

Abbreviation Keeps := (Keeps (K := K) (V := V) (key_size := key_size) (value_size := value_size)).
Abbreviation any := (fun _ => True).

(** The keys and the values to insert are in the range of their members. *)
Definition op_packs (op : @Op K V) : Prop :=
  match op with OpInsert key value => packs key /\ packs value | _ => True end.

Hint Resolve keeps_insert keeps_remove keeps_get_value keeps_create : keeps.
Hint Resolve keeps_is_end keeps_item keeps_iterator_next keeps_iterator_release keeps_begin keeps_begin_at : keeps.

Lemma zero_header_shaped : NodeBytes.shaped key_size value_size (HeaderNode zero_header : Node K V).
Proof. apply length_replicate. Qed.

Hint Resolve zero_header_shaped : shape.

Lemma keeps_new_header P : Keeps P new_header any.
Proof. unfold new_header, GetData. keeps. Qed.

Hint Resolve keeps_new_header : keeps.

Lemma keeps_new_index P root : Keeps P (run! create root ;; new_header) any.
Proof. keeps. Qed.

Lemma keeps_run_op P fuel op : (P -> op_packs op) -> Keeps P (run_op key_size value_size zero_key zero_value index_name cmp fuel op) any.
Proof. intros Hop. destruct op; cbn [run_op op_packs] in *; keeps. Qed.

Hint Resolve keeps_run_op : keeps.

Lemma keeps_run_ops P fuel ops : (P -> Forall op_packs ops) ->
  Keeps P (run_ops key_size value_size zero_key zero_value index_name cmp fuel ops) any.
Proof.
  revert P. induction ops as [|op ops IH]; intros P Hops; cbn [run_ops]; [keeps|].
  eapply keeps_bind; [apply keeps_run_op; intros Hp; by apply Hops, Forall_cons in Hp as [? _]|].
  intros a. eapply keeps_bind; [apply IH; intros [Hp _]; by apply Hops, Forall_cons in Hp as [_ ?]|]. intros l. keeps.
Qed.

(** The loops over an iterator. *)
Lemma keeps_scan P fuel it : Keeps P (scan key_size value_size zero_key zero_value fuel it) any.
Proof. revert P it. induction fuel as [|fuel IH]; intros P it; cbn [scan]; keeps. Qed.

Hint Resolve keeps_scan : keeps.

Lemma keeps_scan_all P fuel : Keeps P (scan_all key_size value_size zero_key zero_value cmp fuel) any.
Proof. unfold scan_all, walk. keeps. Qed.

Lemma keeps_scan_from P fuel key : Keeps P (scan_from key_size value_size zero_key zero_value cmp fuel key) any.
Proof. unfold scan_from, walk. keeps. Qed.
End Keeping.

(** ** The pool that serves a run *)

Section Served.
Context {P : Type} `{Pool.PagePoolLaws P}.

(** The pool [b] answers the calls as they were answered, and a look at a page finds the
    bytes that the pool has for it; [b'] is the pool after them. *)
Fixpoint served (l : list event) (b b' : P) : Prop :=
  match l with
  | [] => b' = b
  | ECall c a :: l => exists b1, Pool.pp_exec c b = Ok (a, b1) /\ served l b1 b'
  | ERead p data :: l =>
      (exists st, Pool.pp_repr b st /\ is_Some (BufferPool.pins st !! p) /\ BufferPool.contents st !! p = Some data) /\
      served l b b'
  end.

Lemma served_follows l : forall b st st', Pool.pp_repr b st -> follows l st st' ->
  exists b', served l b b' /\ Pool.pp_repr b' st'.
Proof.
  induction l as [|[c a|p data] l IH]; intros b st st' Hb.
  - intros ->. by exists b.
  - intros (Hok & Ha & Hl). destruct (Pool.pp_law c b st Hb Hok) as (b1 & He & Hb1).
    destruct (IH b1 _ st' Hb1 Hl) as (b' & Hs & Hb'). exists b'. split; [|done]. exists b1. by rewrite He, Ha.
  - intros (Hp & Hc & Hl). destruct (IH b st st' Hb Hl) as (b' & Hs & Hb'). exists b'.
    split; [|done]. split; [by exists st|done].
Qed.
End Served.

(** ** Properties *)

Section Properties.
Context {K V : Type} {key_size value_size : Z} (zero_key : K) (zero_value : V).
Context `{!Packed K key_size} `{!Packed V value_size}.
Context (index_name : list Z) (cmp : K -> K -> Z) `{!KeyOrder cmp}.
Context {P : Type} `{Pool.PagePoolLaws P}.

Abbreviation run_ops := (run_ops key_size value_size zero_key zero_value index_name cmp).
Abbreviation represents := (represents key_size value_size index_name cmp).
Abbreviation makes := (makes (K := K) (V := V) (key_size := key_size) (value_size := value_size)).
Abbreviation backs := (backs (K := K) (V := V) (key_size := key_size) (value_size := value_size)).
Abbreviation fits := (fits (K := K) (V := V) (key_size := key_size) (value_size := value_size)).
Abbreviation Keeps := (Keeps (K := K) (V := V) (key_size := key_size) (value_size := value_size)).

(** A pool that holds the nodes serves every computation on them that keeps them on their
    pages. *)
Lemma pool_serves {A} n (m : M K V A) `{!Traced n m} Q s x s' b st :
  Keeps True m Q -> fits s -> m s = Ok (x, s') -> Pool.pp_repr b st -> backs (store s) st -> next (store s) + n < 2 ^ 22 ->
  exists l b' st', makes m s l x s' /\ fits s' /\ served l b b' /\ Pool.pp_repr b' st' /\ backs (store s') st' /\
                   spares (store s) st (store s') st' /\ (in_range st -> in_range st').
Proof.
  intros Hm Hs Hrun Hb Hst Hlt. pose proof (traced s x s' Hrun) as Hn.
  destruct (Hm s x s' Hrun) as [_ Hkeep]. destruct Hkeep as ([l Hl] & Hs' & _); [done|done|lia|].
  destruct (makes_answered _ _ _ _ _ _ Hl st Hst (ft_next _ Hs) ltac:(lia)) as (st' & Hf & Hst' & Hsp).
  destruct (served_follows l b st st' Hb Hf) as (b' & Hsrv & Hb'). exists l, b', st'.
  repeat (split; [done|]). intros Hr. by apply (in_range_follows l st).
Qed.

(** C2: the index on the byte pages of the buffer pool.  Where the nodes of an index fit
    their pages and a pool holds their bytes, every sequence of Insert, Remove and GetValue
    calls that the sorted list answers runs as calls to the pool: the pool answers each of
    them as the computation on the nodes was answered, each look at a page finds the bytes
    of a node that fits, and at the end the pool holds the nodes of an index with the list
    left, which fit.  The pages that are not the index's stay as they are. *)
Theorem index_on_pool (fuel k : nat) (ops : list (@Op K V)) (s : State K V) (es es' : list (K * V)) (answers : list Answer)
    (b : P) (st : BufferPool.Store)
    (Hsizes : sizes_ok key_size value_size) (H4 : 4 <= internal_max key_size) (Hname : Header.name_ok index_name)
    (Hzero : zeros_ok key_size value_size zero_key zero_value)
    (Hs : represents s es) (Hk : Z.of_nat (length es + length ops) < 2 ^ Z.of_nat k)
    (Hr : room (4 * k + 5) s) (Hfuel : (k < fuel)%nat) (Hfits : fits s) (Hops : Forall op_packs ops)
    (Hb : Pool.pp_repr b st) (Hst : backs (store s) st)
    (Hids : next (store s) + (Z.of_nat fuel + 1) * Z.of_nat (length ops) < 2 ^ 22)
    (Hspec : spec_ops cmp es ops = Ok (answers, es')) :
  exists s' l b' st',
    makes (run_ops fuel ops) s l answers s' /\ represents s' es' /\ fits s' /\
    served l b b' /\ Pool.pp_repr b' st' /\ backs (store s') st' /\ spares (store s) st (store s') st'.
Proof.
  pose proof (run_ops_ok key_size value_size zero_key zero_value index_name cmp Hsizes Hname
    fuel k ops s es Hs H4 Hk Hr Hfuel) as Hrun.
  rewrite Hspec in Hrun. destruct Hrun as (s' & Hrun & Hs' & _).
  destruct (pool_serves _ (run_ops fuel ops) (fun _ => True) s answers s' b st) as (l & b' & st' & Hrest); try done.
  - by apply keeps_run_ops.
  - exists s', l, b', st'. naive_solver.
Qed.
End Properties.

(** ** Witnesses: an index made on the buffer pool over an empty file *)

(** The operations of the witnesses insert numbers of their sizes. *)
Lemma sample_packs n m : -2 ^ 63 <= m < 2 ^ 63 -> -2 ^ 511 <= n < 2 ^ 511 -> op_packs (key_size := 64) (value_size := 8) (OpInsert n m).
Proof. by split. Qed.

Ltac by_packs := repeat (constructor; [by (try apply sample_packs)|]); constructor.

Section Witnesses.
#[local] Existing Instances ExtendibleHash.EHash.page_table_ops ExtendibleHash.EHash.page_table_laws.
#[local] Existing Instances LruReplacer.LRU.lru_replacer LruReplacer.LRU.lru_replacer_laws.
#[local] Existing Instances Pool.buffer_pool Pool.default_pool_laws.

Abbreviation sample_fits := (fits (K := Z) (V := Z) (key_size := 64) (value_size := 8)).
Abbreviation sample_backs := (backs (K := Z) (V := Z) (key_size := 64) (value_size := 8)).

Lemma empty_backs n : sample_backs (store (empty_pool n)) (BufferPool.store_of n BufferPool.empty_disk ∅).
Proof. by split. Qed.

Lemma empty_repr n : Pool.pp_repr (BufferPool.create n BufferPool.empty_disk) (BufferPool.store_of n BufferPool.empty_disk ∅).
Proof.
  exists ∅, []. apply BufferPool.create_rel; [exact BufferPool.empty_disk_ok|]. intros p x Hx. by rewrite lookup_empty in Hx.
Qed.

Lemma empty_fits n : sample_fits (empty_pool n).
Proof. split; [|done]. intros p x. cbn. by rewrite lookup_empty. Qed.

(** The pool after the constructor of the index and the creation of the header page. *)
Lemma sample_pool : sample_fits sample_new /\ exists (b : BufferPool.Pool) st,
  Pool.pp_repr b st /\ sample_backs (store sample_new) st /\ in_range st.
Proof.
  destruct (new_index_ok (K := Z) (V := Z) 64 8 [65] Z.sub 32) as (s & Hs & _); [lia|].
  unfold sample_new. rewrite Hs.
  destruct (pool_serves (key_size := 64) (value_size := 8) 2 (run! create INVALID_PAGE_ID ;; new_header) (fun _ => True)
    (empty_pool 32) tt s _ _ (keeps_new_index True _) (empty_fits 32) Hs (empty_repr 32) (empty_backs 32))
    as (l & b & st & _ & Hfit & _ & Hb & Hst & _ & Hir); [done|].
  split; [done|]. exists b, st. split; [done|]. split; [done|]. apply Hir, rest_in_range; [|done]. split; [done| |];
    intros p; [intros k|]; cbn; rewrite lookup_empty; [done|by intros []].
Qed.

Lemma index_on_pool_witness :
  exists (b : BufferPool.Pool) st,
    Pool.pp_repr b st /\ sample_backs (store sample_new) st /\
    exists s' l b' st', makes (key_size := 64) (value_size := 8) (run_ops 64 8 0 0 [65] Z.sub 12 (sample_ops ++ [OpRemove 4; OpGetValue 4 true]))
        sample_new l ([Inserted true; Inserted true; Inserted true; Inserted true; Inserted true; Inserted true; Inserted true;
                       Inserted true; Inserted true; Inserted false; Removed; Found None]) s' /\
      represents 64 8 [65] Z.sub s' (remove_entry Z.sub 4 sample_entries) /\ sample_fits s' /\
      served l b b' /\ Pool.pp_repr b' st' /\ sample_backs (store s') st' /\ spares (store sample_new) st (store s') st'.
Proof.
  destruct sample_pool as (Hfit & b & st & Hb & Hst & _). exists b, st. split; [exact Hb|]. split; [exact Hst|].
  apply (index_on_pool 0 0 [65] Z.sub 12 5 (sample_ops ++ [OpRemove 4; OpGetValue 4 true]) sample_new []).
  - exact sample_sizes.
  - by vm_compute.
  - exact sample_name.
  - exact sample_zeros.
  - apply sample_new_ok.
  - by vm_compute.
  - destruct sample_new_ok as (_ & Hp & Hc). apply room_unpinned; [done|]. rewrite Hc. lia.
  - lia.
  - exact Hfit.
  - by_packs.
  - exact Hb.
  - exact Hst.
  - by vm_compute.
  - by vm_compute.
Defined.
End Witnesses.
End TreeTraces.
