(* ===== verification/SharedPool.v ===== *)
(** * An index and a heap on one pool

    A table of the engine keeps its rows in a heap and its keys in an index, and both use
    the one buffer pool of the engine.  The heap of [TableHeap] runs on the pool itself;
    the index of [BPlusTree] runs on nodes whose bytes the pool holds ([TreePool]).  Calls
    of the two in any order leave each other's pages alone. *)

From stdpp Require Import prelude gmap gmultiset list.
From Stdlib Require Import ZArith Lia.
From S2P Require Import Prelude Interfaces ExtendibleHash LruReplacer Rid DiskManager BufferPool PagePool TablePage TableHeap.
From S2P Require Import HeaderPage BPlusTreePage LeafPage InternalPage TreeNodes BPlusTree NodeBytes TreePool TreeFits.
From S2P Require Import TreeModel TreeSteps TreeInsert TreeSearch TreeRefine TreeTheorems TreeTraces.

Local Open Scope Z_scope.

Module SharedPool.
Import BPage Nodes NodeBytes TreeModel BPlusTree TreeSteps TreeInsert TreeSearch TreeRefine TreeTheorems TreePool TreeFits TreeTraces.

Abbreviation SHeap := TableHeap.SHeap.
Abbreviation h_pages := TableHeap.h_pages.
Abbreviation h_next := TableHeap.h_next.
Abbreviation s_heap := TableHeap.s_heap.
Abbreviation page_ids h := (TablePage.s_id <$> h_pages h).

(** ** The pages of a heap call *)

Lemma insert_pages_ids {L} `{LockEnv L} logging bs ps : forall next (l : L) rid qs next' l',
  TableHeap.insert_pages logging bs ps next l = Ok (rid, qs, next', l') ->
  next <= next' /\ forall p, p ∈ TablePage.s_id <$> qs -> p ∈ TablePage.s_id <$> ps \/ next <= p < next'.
Proof.
  induction ps as [|q ps IH]; intros next l rid qs next' l' E; [done|]. cbn [TableHeap.insert_pages] in E.
  destruct (TablePage.insert_spec logging bs q l) as [[[a q1] l1]|] eqn:Eq; [|done]. rewrite bind_ok in E.
  pose proof (TableHeap.exec_spec_frame logging (TablePage.CInsert bs) q l a q1 l1 Eq) as [Hq _].
  assert (Hhere : forall r, (rid, qs, next', l') = (r, q1 :: ps, next, l1) -> next <= next' /\
    forall p, p ∈ TablePage.s_id <$> qs -> p ∈ TablePage.s_id <$> q :: ps \/ next <= p < next').
  { intros r [= _ -> -> _]. split; [lia|]. intros p Hp. left. cbn [fmap list_fmap] in *. by rewrite Hq in Hp. }
  assert (Hnext : match ps with
      | [] => let* (a, q2, l1) := TablePage.insert_spec logging bs (TablePage.mkSPage next (TablePage.s_id q) INVALID_PAGE_ID []) l in
              match a with TablePage.ARid (Some rid) => Ok (rid, [TableHeap.set_next next q; q2], next + 1, l1) | _ => Fail NoFuel end
      | _ :: _ => let* (rid, qs, next, l1) := TableHeap.insert_pages logging bs ps next l in Ok (rid, q :: qs, next, l1)
      end = Ok (rid, qs, next', l') -> next <= next' /\
    forall p, p ∈ TablePage.s_id <$> qs -> p ∈ TablePage.s_id <$> q :: ps \/ next <= p < next').
  { clear E Hhere. intros E. destruct ps as [|r ps].
    - destruct (TablePage.insert_spec logging bs (TablePage.mkSPage _ _ _ _) l) as [[[a2 q2] l2]|] eqn:Eq2; [|done].
      apply (TableHeap.exec_spec_frame logging (TablePage.CInsert bs)) in Eq2 as [Hq2 _]. cbn [TablePage.s_id] in Hq2.
      rewrite bind_ok in E. destruct a2 as [[r2|]| | | |]; [|done..]. injection E as <- <- <- <-.
      split; [lia|]. intros p. cbn [fmap list_fmap TableHeap.set_next TablePage.s_id]. rewrite Hq2. rewrite !elem_of_cons.
      intros [->|[->|[]%not_elem_of_nil]]; [by left; left|right; lia].
    - destruct (TableHeap.insert_pages logging bs (r :: ps) next l) as [[[[r2 qs2] n2] l2]|] eqn:E2; [|done].
      rewrite bind_ok in E. injection E as <- <- <- <-. destruct (IH _ _ _ _ _ _ E2) as [Hn Hids]. split; [done|].
      intros p. cbn [fmap list_fmap]. rewrite !elem_of_cons. intros [->|Hp]; [by left; left|].
      apply Hids in Hp. cbn [fmap list_fmap] in Hp. rewrite elem_of_cons in Hp. tauto. }
  destruct a as [[r|]| | | |]; try (by apply Hnext). injection E as <- <- <- <-. by eapply Hhere.
Qed.

(** A heap call keeps the pages of the heap, or adds new ones. *)
Lemma heap_call_ids {L} `{LockEnv L} logging first c (se : TableHeap.SEnv L) a se' :
  TableHeap.hexec_spec logging first c se = Ok (a, se') ->
  h_next (s_heap se) <= h_next (s_heap se') /\
  forall p, p ∈ page_ids (s_heap se') -> p ∈ page_ids (s_heap se) \/ h_next (s_heap se) <= p.
Proof.
  assert (Hpage : forall call rid k,
    (forall a h l a' e', k a h l = Ok (a', e') -> s_heap e' = h) ->
    TableHeap.on_page logging call rid k se = Ok (a, se') ->
    h_next (s_heap se) <= h_next (s_heap se') /\
    forall p, p ∈ page_ids (s_heap se') -> p ∈ page_ids (s_heap se) \/ h_next (s_heap se) <= p).
  { intros call rid k Hk. unfold TableHeap.on_page. destruct (TableHeap.page_index _ _) as [i|]; [|done].
    destruct (h_pages (s_heap se) !! i) as [p|] eqn:Ei; [|done].
    destruct (TablePage.exec_spec logging call p (TableHeap.s_locks se)) as [[[a1 p1] l1]|] eqn:Ex; [|done].
    rewrite bind_ok. intros E. rewrite (Hk _ _ _ _ _ E). apply TableHeap.exec_spec_frame in Ex as [Hid _].
    split; [done|]. intros q Hq. left. cbn in Hq. by rewrite (TableHeap.ids_update _ _ p) in Hq. }
  destruct c; cbn [TableHeap.hexec_spec]; intros E; [|refine (Hpage _ _ _ _ E); clear E..].
  - destruct (_ <? _); [injection E as <- <-; by split; [|left]|].
    destruct (TableHeap.insert_pages _ _ _ _ _) as [[[[rid qs] n] l]|] eqn:Ei; [|done]. rewrite bind_ok in E.
    injection E as <- <-. apply insert_pages_ids in Ei as [Hn Hids]. split; [done|]. intros p Hp. apply Hids in Hp. cbn. lia || intuition lia.
  - intros a1 h l a2 e2. by intros [= _ <-].
  - intros a1 h l a2 e2. destruct a1; try done. by intros [= _ <-].
  - intros a1 h l a2 e2. cbv beta. destruct (lk_unlock _ _); [|done]. rewrite bind_ok. by intros [= _ <-].
  - intros a1 h l a2 e2. by intros [= _ <-].
  - intros a1 h l a2 e2. destruct a1; try done. by intros [= _ <-].
Qed.

(** ** An index and a heap *)

Section Shared.
Context {K V P L : Type} {key_size value_size : Z} (zero_key : K) (zero_value : V).
Context `{!Packed K key_size} `{!Packed V value_size}.
Context (index_name : list Z) (cmp : K -> K -> Z) `{!KeyOrder cmp}.
Context `{Pool.PagePoolLaws P} `{LockEnv L} (logging : bool) (fuel : nat) (first : Z).

Abbreviation Env := (TableHeap.Env P L).
Abbreviation SEnv := (TableHeap.SEnv L).
Abbreviation run_ops := (run_ops key_size value_size zero_key zero_value index_name cmp).
Abbreviation represents := (represents key_size value_size index_name cmp).
Abbreviation makes := (makes (K := K) (V := V) (key_size := key_size) (value_size := value_size)).
Abbreviation backs := (backs (K := K) (V := V) (key_size := key_size) (value_size := value_size)).
Abbreviation fits := (fits (K := K) (V := V) (key_size := key_size) (value_size := value_size)).
Abbreviation op_packs := (op_packs (K := K) (V := V) (key_size := key_size) (value_size := value_size)).

(** The members of the index, with its pages as nodes, and the heap's storage, with the pool. *)
Record Config := mkConfig { index : State K V; env : Env }.

(** The nodes keep a copy of the pool's next page id. *)
Definition with_next (n : Z) (s : State K V) : State K V :=
  let st := store s in set_store (mkStore (nodes st) (pins st) (unsaved st) n (capacity st)) s.

Definition with_pool (b : P) (e : Env) : Env := TableHeap.mkEnv b (TableHeap.locks_ e) (TableHeap.write_set_ e).

Inductive action := AIndex (ops : list (@Op K V)) | AHeap (c : TableHeap.hcall).
Inductive outcome := OIndex (answers : list (@Answer V)) | OHeap (a : TableHeap.hanswer).

(** What the code does: the index computes on the nodes and the pool serves its calls; the
    heap calls the pool. *)
Inductive does : action -> Config -> outcome -> Config -> Prop :=
| does_index ops s e l answers s' b' :
    makes (run_ops fuel ops) s l answers s' -> served l (TableHeap.pool_ e) b' ->
    does (AIndex ops) (mkConfig s e) (OIndex answers) (mkConfig s' (with_pool b' e))
| does_heap c s e a e' st :
    TableHeap.hexec logging fuel first c e = Ok (a, e') -> Pool.pp_repr (TableHeap.pool_ e') st ->
    does (AHeap c) (mkConfig s e) (OHeap a) (mkConfig (with_next (BufferPool.next st) s) e').

(** The specification: a sorted list of entries, and the pages of slots of the heap.  The
    new page ids of the heap are those the index left. *)
Definition Spec : Type := list (K * V) * SEnv.

Definition heap_next (n : Z) (se : SEnv) : SEnv :=
  TableHeap.mkSEnv (TableHeap.mkSHeap (h_pages (s_heap se)) n) (TableHeap.s_locks se) (TableHeap.s_writes se).

Definition most_pages (ops : list (@Op K V)) : Z := (Z.of_nat fuel + 1) * Z.of_nat (length ops).

Inductive says : action -> Spec -> outcome -> Spec -> Prop :=
| says_index ops es se answers es' n :
    spec_ops cmp es ops = Ok (answers, es') ->
    h_next (s_heap se) <= n <= h_next (s_heap se) + most_pages ops ->
    says (AIndex ops) (es, se) (OIndex answers) (es', heap_next n se)
| says_heap c es se a se' :
    TableHeap.hexec_spec logging first c se = Ok (a, se') -> says (AHeap c) (es, se) (OHeap a) (es, se').

(** The protocol of the heap, the ids of the file, the range of the keys and values, and no
    fault; fewer than [2 ^ k] entries. *)
Definition action_ok (k : nat) (x : action) (sp : Spec) : Prop :=
  match x with
  | AIndex ops =>
      is_ok (spec_ops cmp sp.1 ops) = true /\ Z.of_nat (length sp.1 + length ops) < 2 ^ Z.of_nat k /\
      h_next (s_heap sp.2) + most_pages ops < 2 ^ 22 /\ Forall op_packs ops
  | AHeap c => TableHeap.hcall_ok fuel c sp.2 /\ is_ok (TableHeap.hexec_spec logging first c sp.2) = true
  end.

(** Sequences. *)
Inductive runs {S} (step : action -> S -> outcome -> S -> Prop) : list action -> S -> list outcome -> S -> Prop :=
| runs_nil s : runs step [] s [] s
| runs_cons x xs s o s1 os s2 : step x s o s1 -> runs step xs s1 os s2 -> runs step (x :: xs) s (o :: os) s2.

Fixpoint actions_ok (k : nat) (xs : list action) (sp : Spec) : Prop :=
  match xs with
  | [] => True
  | x :: xs => action_ok k x sp /\ forall o sp', says x sp o sp' -> actions_ok k xs sp'
  end.

(** The pool holds the pages of the index, whose nodes fit them, and those of the heap,
    which are apart; nothing is pinned. *)
Record shared (c : Config) (sp : Spec) : Prop := {
  sh_index : represents (index c) sp.1;
  sh_fits : fits (index c);
  sh_unpinned : pins (store (index c)) = ∅;
  sh_locks : TableHeap.locks_ (env c) = TableHeap.s_locks sp.2;
  sh_writes : TableHeap.write_set_ (env c) = TableHeap.s_writes sp.2;
  sh_pool : exists st, Pool.pp_repr (TableHeap.pool_ (env c)) st /\ backs (store (index c)) st /\
                       TableHeap.heap_rel st first st (s_heap sp.2);
  sh_apart p : p ∈ page_ids (s_heap sp.2) -> foreign p (store (index c))
}.

(** ** Lemmas *)

Lemma says_index_inv ops es se o sp' : says (AIndex ops) (es, se) o sp' ->
  exists answers es' n, spec_ops cmp es ops = Ok (answers, es') /\ o = OIndex answers /\
    h_next (s_heap se) <= n <= h_next (s_heap se) + most_pages ops /\ sp' = (es', heap_next n se).
Proof. inversion 1; subst. by do 3 eexists. Qed.

Lemma says_heap_inv c es se o sp' : says (AHeap c) (es, se) o sp' ->
  exists a se', TableHeap.hexec_spec logging first c se = Ok (a, se') /\ o = OHeap a /\ sp' = (es, se').
Proof. inversion 1; subst. by do 2 eexists. Qed.

Lemma backs_no_pins s st : backs s st -> pins s = ∅ -> BufferPool.pins st = ∅.
Proof. intros Hb Hp. apply map_eq. intros p. by rewrite (bk_pins _ _ Hb), Hp, multiplicity_empty, lookup_empty. Qed.

Lemma represents_next n (s : State K V) es : represents s es -> next (store s) <= n -> represents (with_next n s) es.
Proof.
  intros [[] He] Hn. split; [split; try done; cbn in *; lia|].
  destruct He as [(Hroot & -> & Hud)|(h & t & Hix & Hud & ->)]; [left|right].
  - split; [done|]. split; [done|]. intros q Hq. destruct (Hud q Hq). cbn in *. split; [done|lia].
  - exists h, t. split; [|split; [|done]].
    + destruct Hix. split; try done. intros q Hq. pose proof (ix_ids0 q Hq). cbn in *. lia.
    + intros q Hq. destruct (Hud q Hq). cbn in *. split; [done|lia].
Qed.

Lemma fits_next n (s : State K V) : fits s -> next (store s) <= n -> fits (with_next n s).
Proof. intros [Hn Hge] Hle. split; [done|]. cbn. lia. Qed.

Lemma represents_unsaved (s : State K V) es : represents s es -> unsaved (store s) = ∅.
Proof. intros [[] _]. done. Qed.

(** The heap of another store that has its pages. *)
Lemma heap_same st st' n h :
  TableHeap.heap_rel st first st h ->
  (forall p, p ∈ page_ids h -> BufferPool.contents st' !! p = BufferPool.contents st !! p) ->
  BufferPool.next st' = n -> Pool.at_rest st' ->
  TableHeap.heap_rel st' first st' (TableHeap.mkSHeap (h_pages h) n).
Proof.
  intros [] Hc Hn Hrest. split; try done.
  intros p Hp. destruct (hr_pages p Hp) as (buf & Hb & Hr). exists buf. split; [|done].
  rewrite Hc; [done|]. by apply list_elem_of_fmap_2.
Qed.

Lemma heap_here st0 st h : TableHeap.heap_rel st0 first st h -> TableHeap.heap_rel st first st h.
Proof. intros []. by split. Qed.

Context (Hsizes : sizes_ok key_size value_size) (H4 : 4 <= internal_max key_size) (Hname : Header.name_ok index_name).
Context (Hzero : zeros_ok key_size value_size zero_key zero_value).

Lemma index_step k ops s e es se :
  shared (mkConfig s e) (es, se) -> action_ok k (AIndex ops) (es, se) -> (4 * k + 5 <= capacity (store s))%nat ->
  (k < fuel)%nat ->
  exists o c' sp', does (AIndex ops) (mkConfig s e) o c' /\ says (AIndex ops) (es, se) o sp' /\ shared c' sp' /\
                   capacity (store (index c')) = capacity (store s).
Proof.
  intros [Hs Hfit Hpins Hl Hw (st & Hb & Hst & Hh) Hap] (Hok & Hk & Hids & Hops) Hcap Hfuel. cbn [index env fst snd] in *.
  destruct (spec_ops cmp es ops) as [[answers es']|] eqn:Espec; [|done].
  assert (Hr : room (4 * k + 5) s) by (unfold room; by rewrite Hpins).
  pose proof (run_ops_ok key_size value_size zero_key zero_value index_name cmp Hsizes Hname fuel k ops s es Hs H4 Hk Hr Hfuel) as Hrun.
  rewrite Espec in Hrun. destruct Hrun as (s' & Hrun & Hs' & Hp' & Hc').
  pose proof (TableHeap.hr_next _ _ _ _ Hh) as Hnext. rewrite (bk_next _ _ Hst) in Hnext.
  destruct (pool_serves (most_pages ops) (run_ops fuel ops) (fun _ => True) s answers s'
    (TableHeap.pool_ e) st) as (l & b' & st' & Hm & Hfit' & Hsrv & Hb' & Hst' & Hsp & Hir);
    [by apply keeps_run_ops|done..|lia|].
  assert (Hn : next (store s') <= next (store s) + most_pages ops) by (by apply (traced (n := most_pages ops)) in Hrun).
  pose proof (pool_call_next _ _ _ _ _ _ Hm) as Hle.
  exists (OIndex answers), (mkConfig s' (with_pool b' e)), (es', heap_next (next (store s')) se).
  split; [by eapply does_index|]. split; [apply says_index; [done|lia]|]. split; [|done].
  split; cbn [index env fst snd with_pool TableHeap.locks_ TableHeap.write_set_ TableHeap.pool_ heap_next
              TableHeap.s_locks TableHeap.s_writes s_heap h_pages]; try done; [congruence| |].
  - exists st'. split; [done|]. split; [done|]. apply (heap_same st); [done| |apply Hst'|].
    + intros p Hp. by apply Hsp, Hap.
    + apply in_range_rest; [|by rewrite (bk_unsaved _ _ Hst'), (represents_unsaved _ _ Hs')].
      apply Hir, rest_in_range; [apply Hh|by apply (backs_no_pins _ _ Hst)].
  - intros p Hp. by apply Hsp, Hap.
Qed.

Lemma heap_step k c s e es se :
  shared (mkConfig s e) (es, se) -> action_ok k (AHeap c) (es, se) -> (2 <= capacity (store s))%nat ->
  exists o c' sp', does (AHeap c) (mkConfig s e) o c' /\ says (AHeap c) (es, se) o sp' /\ shared c' sp' /\
                   capacity (store (index c')) = capacity (store s).
Proof.
  intros [Hs Hfit Hpins Hl Hw (st & Hb & Hst & Hh) Hap] (Hok & Hspec) Hcap. cbn [index env fst snd] in *.
  pose proof (backs_no_pins _ _ Hst Hpins) as Hpins0.
  assert (He : TableHeap.env_rel st first e se).
  { split; [done|done|]. exists st. split; [done|]. split; [done|]. unfold Pool.room.
    rewrite Hpins0, map_size_empty, (bk_capacity _ _ Hst). lia. }
  pose proof (TableHeap.heap_exec_refines logging st first fuel c e se He Hok) as Hex.
  destruct (TableHeap.hexec_spec logging first c se) as [[a se']|] eqn:Ex; [|done].
  destruct Hex as (e' & Hex & [Hl' Hw' (st' & Hb' & Hh' & _)]).
  apply heap_call_ids in Ex as Hids. destruct Hids as [Hle Hids].
  pose proof (TableHeap.hr_next _ _ _ _ Hh) as Hnext. pose proof (TableHeap.hr_next _ _ _ _ Hh') as Hnext'.
  pose proof (TableHeap.hr_others _ _ _ _ Hh') as Hco.
  assert (Hnodes : forall p n, nodes (store s) !! p = Some n -> p ∉ page_ids (s_heap se')).
  { intros p n Hp Hin. apply Hids in Hin as [Hin|Hge]; [apply Hap in Hin as [? _]; congruence|].
    assert (Hc : is_Some (BufferPool.contents st !! p)) by (rewrite (bk_nodes _ _ Hst p n Hp); by eexists).
    apply (Pool.ar_id _ (TableHeap.hr_rest _ _ _ _ Hh)) in Hc. lia. }
  eexists (OHeap a), _, (es, se'). split; [by eapply does_heap|]. split; [by apply says_heap|]. split; [|done].
  split; cbn [index env fst snd]; try done.
  - apply represents_next; [done|]. rewrite <- (bk_next _ _ Hst). lia.
  - apply fits_next; [done|]. rewrite <- (bk_next _ _ Hst). lia.
  - exists st'. split; [done|]. split; [|by eapply heap_here].
    destruct Hst, Hco. split; cbn; try congruence.
    + intros p n Hp. rewrite co_contents by (by eapply Hnodes). by apply bk_nodes0.
    + rewrite (represents_unsaved _ _ Hs). apply Hh'.
  - intros p Hp. split; [|split; [cbn; rewrite Hpins, elem_of_multiplicity, multiplicity_empty; lia|]]; cbn.
    + apply eq_None_not_Some. intros [n Hn]. by apply (Hnodes p n).
    + apply list_elem_of_fmap in Hp as (q & -> & Hq). destruct (TableHeap.hr_pages _ _ _ _ Hh' q Hq) as (buf & Hc & _).
      by apply (Pool.ar_id _ (TableHeap.hr_rest _ _ _ _ Hh') (TablePage.s_id q)); eexists.
Qed.

(** A new heap beside an index. *)
Lemma shared_start (s : State K V) es (b : P) st (l : L) :
  represents s es -> fits s -> pins (store s) = ∅ -> Pool.pp_repr b st -> backs (store s) st -> Pool.at_rest st ->
  (2 <= capacity (store s))%nat -> Disk.page_id_in_file (BufferPool.next st) -> first = BufferPool.next st ->
  exists b0, TableHeap.create b = Ok (first, b0) /\
    shared (mkConfig (with_next (first + 1) s) (TableHeap.mkEnv b0 l []))
           (es, TableHeap.mkSEnv (TableHeap.mkSHeap [TablePage.mkSPage first INVALID_LSN INVALID_PAGE_ID []] (first + 1)) l []).
Proof.
  intros Hs Hfit Hpins Hb Hst Hrest Hcap Hid Hfirst. pose proof (backs_no_pins _ _ Hst Hpins) as Hpins0.
  pose proof (bk_next _ _ Hst) as Hnext.
  destruct (TableHeap.create_ok st first b st Hb Hrest) as (b0 & st0 & Hc & Hb0 & _ & Hh); [|done|done|done|].
  { unfold Pool.room. rewrite Hpins0, map_size_empty, (bk_capacity _ _ Hst). lia. }
  rewrite <- Hfirst in Hh. pose proof (TableHeap.hr_others _ _ _ _ Hh) as Hco.
  pose proof (TableHeap.hr_next _ _ _ _ Hh) as Hn0. cbn [TableHeap.h_next] in Hn0.
  assert (Hnodes : nodes (store s) !! first = None).
  { apply eq_None_not_Some. intros [n Hn]. assert (Hin : is_Some (BufferPool.contents st !! first))
      by (rewrite (bk_nodes _ _ Hst first n Hn); by eexists).
    apply (Pool.ar_id _ Hrest) in Hin. lia. }
  exists b0. split; [done|]. split; cbn [index env fst snd TableHeap.locks_ TableHeap.write_set_ TableHeap.pool_]; try done.
  - apply represents_next; [done|]. lia.
  - apply fits_next; [done|]. lia.
  - exists st0. split; [done|]. split; [|by eapply heap_here]. destruct Hst, Hco. split; cbn in *; try congruence.
    + intros p n Hp. rewrite co_contents; [by apply bk_nodes0|]. intros ->%list_elem_of_singleton. congruence.
    + rewrite (represents_unsaved _ _ Hs). apply Hh.
  - intros p ->%list_elem_of_singleton. split; [done|]. cbn.
    split; [rewrite Hpins, elem_of_multiplicity, multiplicity_empty; lia|lia].
Qed.

End Shared.

(** ** Witness: a new index on the pool of 32 frames, and a heap beside it *)

Section Witness.
#[local] Existing Instances ExtendibleHash.EHash.page_table_ops ExtendibleHash.EHash.page_table_laws.
#[local] Existing Instances LruReplacer.LRU.lru_replacer LruReplacer.LRU.lru_replacer_laws.
#[local] Existing Instances Pool.buffer_pool Pool.default_pool_laws TablePage.solo_locks.

Abbreviation sample_locks := (list Rid.RID * bool)%type.
Abbreviation sample_config := (Config (K := Z) (V := Z) (P := BufferPool.Pool) (L := sample_locks)).
Abbreviation sample_shared first := (shared (P := BufferPool.Pool) (key_size := 64) (value_size := 8) [65] Z.sub first).

Definition sample_actions : list (@action Z Z) :=
  [AHeap (TableHeap.HInsert [1; 2]); AIndex [OpInsert 7 0; OpInsert 5 1]; AHeap (TableHeap.HGet (Rid.mkRID 2 0));
   AIndex [OpRemove 7; OpGetValue 5 true]].

Definition sample_spec : Spec (K := Z) (V := Z) (L := sample_locks) :=
  ([], TableHeap.mkSEnv (TableHeap.mkSHeap [TablePage.mkSPage 2 INVALID_LSN INVALID_PAGE_ID []] 3) ([], false) []).

Lemma sample_next : next (store sample_new) = 2.
Proof. by vm_compute. Qed.

Lemma sample_start : exists c : sample_config, sample_shared 2 c sample_spec /\ capacity (store (index c)) = 32%nat.
Proof.
  destruct sample_pool as (Hfit & b & st & Hb & Hst & Hir). destruct sample_new_ok as (Hs & Hp & Hcap).
  pose proof (bk_next _ _ Hst) as Hn. rewrite sample_next in Hn.
  destruct (shared_start (P := BufferPool.Pool) (L := sample_locks) [65] Z.sub 2 sample_new [] b st ([], false) Hs Hfit Hp Hb Hst)
    as (b0 & _ & Hsh); [| |by rewrite Hn|by rewrite Hn|].
  - apply in_range_rest; [done|]. by rewrite (bk_unsaved _ _ Hst), (represents_unsaved _ _ _ _ Hs).
  - rewrite Hcap. lia.
  - by eexists.
Qed.

Lemma sample_actions_ok : actions_ok (L := sample_locks) (key_size := 64) (value_size := 8) Z.sub true 12 2 5 sample_actions sample_spec.
Proof.
  split; [split; [by_computation|by vm_compute]|]. intros o sp (a & se & E & -> & ->)%says_heap_inv.
  vm_compute in E. injection E as <- <-.
  split; [split; [by vm_compute|]; split; [by vm_compute|]; split; [by vm_compute|]; by_packs|]. intros o sp (l & es & n & E & -> & Hn & ->)%says_index_inv.
  vm_compute in E. injection E as <- <-. change (3 <= n <= 3 + 26) in Hn.
  split; [by split; vm_compute|]. intros o sp (a & se & E & -> & ->)%says_heap_inv.
  vm_compute in E. injection E as <- <-.
  split; [|done]. split; [by vm_compute|]. split; [by vm_compute|].
  split; [change (n + 26 < 2 ^ 22); lia|by_packs].
Qed.

End Witness.
End SharedPool.
