(* ===== verification/BPlusTreeIndex.v ===== *)
(** * The index over a B+ tree (src/src/index/b_plus_tree_index.cpp, generic_key.h)

    BPlusTreeIndex makes a key of its type from each key tuple and calls its tree.  The
    template arguments KeyType and KeyComparator are the class [KeyType]; what the tree
    needs of them is [KeyTypeLaws], which the keys of integer columns have.  The index then
    has the contract [IndexLaws]. *)

From stdpp Require Import prelude gmap gmultiset list sorting.
From Stdlib Require Import ZArith Lia.
From S2P Require Import Prelude Rid Interfaces HeaderPage BPlusTreePage SqlValue TypeCast TypeCompare TypeSerialize SqlTuple.
From S2P Require Import TreeNodes BPlusTree TreeModel TreeSteps TreeSearch TreeRemove TreeRefine TreeTheorems.

Local Open Scope Z_scope.

(** The template arguments KeyType, with its method SetFromKey, and KeyComparator of an index. *)
Class KeyType (K : Type) := {
  set_from_key : list Z -> result K;
  key_compare : K -> K -> Z
}.

(** The comparator is a total order, and the key tuples [key_tuple] have different keys. *)
Class KeyTypeLaws (K : Type) `{KeyType K} := {
  key_order :: BPage.KeyOrder key_compare;
  key_tuple : list Z -> Prop;
  set_from_key_ok t : key_tuple t -> is_ok (set_from_key t) = true;
  set_from_key_inj t1 t2 k1 k2 :
    key_tuple t1 -> key_tuple t2 -> set_from_key t1 = Ok k1 -> set_from_key t2 = Ok k2 ->
    key_compare k1 k2 = 0 -> t1 = t2
}.

Module BPlusTreeIndex.
Import Rid BPage Nodes TreeModel TreeSteps.

Section Wrapper.
Context {K : Type} `{KeyType K} (key_size value_size : Z) (zero_key : K) (zero_value : RID).
Context (index_name : list Z) (fuel : nat).

Abbreviation M := (M K RID).

(** [txn] tells whether the caller passed a transaction. *)
Definition InsertEntry (key : list Z) (rid : RID) (txn : bool) : M unit :=
  let! index_key := lift (set_from_key key) in
  let! _ := BPlusTree.Insert key_size value_size zero_key zero_value index_name key_compare fuel index_key rid txn in
  ret tt.

Definition DeleteEntry (key : list Z) (txn : bool) : M unit :=
  let! index_key := lift (set_from_key key) in
  BPlusTree.Remove key_size value_size zero_key zero_value index_name key_compare fuel index_key txn.

Definition ScanKey (key : list Z) (result : list RID) (txn : bool) : M (list RID) :=
  let! index_key := lift (set_from_key key) in
  let! value := BPlusTree.GetValue key_size value_size zero_key zero_value key_compare fuel index_key txn in
  ret (result ++ option_list value).

(** As the virtual table calls it: the lookup without a transaction. *)
Definition tree_index : Index (State K RID) := {|
  ix_insert_entry key rid s := let* (_, s) := InsertEntry key rid true s in Ok s;
  ix_delete_entry key s := let* (_, s) := DeleteEntry key true s in Ok s;
  ix_scan_key key result s := ScanKey key result false s
|}.
End Wrapper.

(** ** The contract *)

Section Contract.
Context {K : Type} `{KeyTypeLaws K} (key_size value_size : Z) (zero_key : K) (zero_value : RID).
Context (index_name : list Z) (fuel k : nat).
Context (Hsizes : TreeSteps.sizes_ok key_size value_size) (H4 : 4 <= internal_max key_size).
Context (Hname : Header.name_ok index_name) (Hfuel : (k < fuel)%nat).
Implicit Types (s : State K RID) (es : list (K * RID)) (m : gmap (list Z) RID).

Abbreviation represents := (TreeSearch.represents key_size value_size index_name key_compare).

(** The entries are those of the map, each key made from a key tuple. *)
Record entries_of m es : Prop := {
  eo_find t key : key_tuple t -> set_from_key t = Ok key -> find_entry key_compare key es = m !! t;
  eo_made e : e ∈ es -> exists t, key_tuple t /\ set_from_key t = Ok e.1;
  eo_keys t : is_Some (m !! t) -> key_tuple t
}.

(** A state that represents the map and has room for [n] more entries. *)
Definition indexed (n : nat) s m : Prop :=
  exists es, represents s es /\ entries_of m es /\ Z.of_nat (length es + n) < 2 ^ Z.of_nat k /\
             TreeSteps.room (4 * k + 5) s.

Lemma made_key t : key_tuple t -> exists key, set_from_key t = Ok key.
Proof. intros Ht%set_from_key_ok. by destruct (set_from_key t) as [key|]; [exists key|]. Qed.

Lemma compare_refl (a : K) : key_compare a a = 0.
Proof. pose proof (ko_antisym a a). lia. Qed.

(** Two key tuples have the same key exactly when they are equal. *)
Lemma compare_made t1 t2 k1 k2 :
  key_tuple t1 -> key_tuple t2 -> set_from_key t1 = Ok k1 -> set_from_key t2 = Ok k2 ->
  (key_compare k1 k2 =? 0) = bool_decide (t1 = t2).
Proof.
  intros H1 H2 E1 E2. case_bool_decide as E.
  - subst t2. assert (k1 = k2) as -> by congruence. by rewrite compare_refl.
  - apply Z.eqb_neq. intros Hc. by apply E, (set_from_key_inj t1 t2 k1 k2).
Qed.

Lemma entries_of_empty m es : entries_of m es -> es = [] <-> m = ∅.
Proof.
  intros [Hf Hm Hk]. split.
  - intros ->. apply map_empty. intros t. destruct (m !! t) eqn:E; [|done]. exfalso.
    destruct (made_key t) as [key Hkey]; [by apply Hk|]. specialize (Hf t key). rewrite E in Hf.
    discriminate Hf; [by apply Hk|done].
  - intros ->. destruct es as [|[key v] es]; [done|]. exfalso.
    destruct (Hm (key, v)) as (t & Ht & Hkey); [by left|]. specialize (Hf t key Ht Hkey).
    cbn [find_entry] in Hf. by rewrite compare_refl, lookup_empty in Hf.
Qed.

Lemma entries_of_insert m es t key rid :
  entries_of m es -> sorted key_compare es -> key_tuple t -> set_from_key t = Ok key ->
  entries_of (<[t := default rid (m !! t)]> m) (insert_entry key_compare key rid es).
Proof.
  intros [Hf Hm Hk] Hs Ht Hkey. split.
  - intros t' key' Ht' Hkey'. rewrite (find_insert_entry key_compare) by done. rewrite (Hf t' key' Ht' Hkey'), (Hf t key Ht Hkey).
    rewrite (compare_made t' t) by done. case_bool_decide as E; [by subst; rewrite lookup_insert_eq|].
    by rewrite lookup_insert_ne.
  - intros e [->|He]%elem_of_insert_entry; [by exists t|by apply Hm].
  - intros t' [->|[_ H']]%lookup_insert_is_Some; [done|by apply Hk].
Qed.

Lemma entries_of_remove m es t key :
  entries_of m es -> sorted key_compare es -> key_tuple t -> set_from_key t = Ok key ->
  entries_of (delete t m) (remove_entry key_compare key es).
Proof.
  intros [Hf Hm Hk] Hs Ht Hkey. split.
  - intros t' key' Ht' Hkey'. rewrite (find_remove_entry key_compare) by done. rewrite (Hf t' key' Ht' Hkey').
    rewrite (compare_made t' t) by done. case_bool_decide as E; [by subst; rewrite lookup_delete_eq|].
    by rewrite lookup_delete_ne.
  - intros e He%remove_entry_subset. by apply Hm.
  - intros t' [_ H']%lookup_delete_is_Some. by apply Hk.
Qed.

#[local] Existing Instance tree_index.
Abbreviation index := (tree_index key_size value_size zero_key zero_value index_name fuel).

Lemma keeps_room s s' n : TreeSteps.room n s -> pins (store s') = pins (store s) ->
  capacity (store s') = capacity (store s) -> TreeSteps.room n s'.
Proof. unfold TreeSteps.room. by intros Hr -> ->. Qed.

Lemma indexed_le n s m : indexed (S n) s m -> indexed n s m.
Proof. intros (es & Hs & He & Hk & Hr). exists es. split; [done|]. split; [done|]. split; [lia|done]. Qed.

Lemma insert_entry_law n s m t rid : indexed (S n) s m -> key_tuple t ->
  exists s', @ix_insert_entry _ index t rid s = Ok s' /\ indexed n s' (<[t := default rid (m !! t)]> m).
Proof.
  intros (es & Hs & He & Hk & Hr) Ht. destruct (made_key t Ht) as [key Hkey].
  destruct (TreeRefine.insert_represents key_size value_size zero_key zero_value index_name key_compare Hsizes Hname
    fuel s es key rid k Hs H4) as (s' & Hrun & Hs' & Hp & Hc); [lia| |done|].
  { unfold TreeSteps.room in *. lia. }
  exists s'. split.
  - cbn [ix_insert_entry tree_index]. unfold InsertEntry. rewrite Hkey.
    rewrite (bind_run _ _ s key s eq_refl), (bind_run _ _ _ _ _ Hrun). done.
  - exists (insert_entry key_compare key rid es). split; [done|]. split.
    + apply entries_of_insert; [done| |done|done]. by apply (TreeRefine.represents_sorted _ _ _ _ _ _ Hs).
    + split; [|by apply (keeps_room s)]. pose proof (TreeRefine.insert_entry_length_le key_compare key rid es). lia.
Qed.

Lemma delete_entry_law n s m t : indexed n s m -> key_tuple t ->
  exists s', @ix_delete_entry _ index t s = Ok s' /\ indexed n s' (delete t m).
Proof.
  intros (es & Hs & He & Hk & Hr) Ht. destruct (made_key t Ht) as [key Hkey].
  destruct (TreeRemove.remove_represents key_size value_size zero_key zero_value index_name key_compare Hsizes Hname H4
    fuel s es key k Hs) as (s' & Hrun & Hs' & Hp & Hc); [lia|done|done|].
  exists s'. split.
  - cbn [ix_delete_entry tree_index]. unfold DeleteEntry. rewrite Hkey.
    rewrite (bind_run _ _ s key s eq_refl). by rewrite Hrun.
  - exists (remove_entry key_compare key es). split; [done|]. split.
    + apply entries_of_remove; [done| |done|done]. by apply (TreeRefine.represents_sorted _ _ _ _ _ _ Hs).
    + split; [|by apply (keeps_room s)]. pose proof (TreeRemove.remove_entry_length key_compare key es). lia.
Qed.

Lemma scan_key_law n s m t result : indexed n s m -> key_tuple t ->
  @ix_scan_key _ index t result s =
    if bool_decide (m = ∅) then Fail AssertFail else Ok (result ++ option_list (m !! t), s).
Proof.
  intros (es & Hs & He & Hk & Hr) Ht. destruct (made_key t Ht) as [key Hkey].
  cbn [ix_scan_key tree_index]. unfold ScanKey. rewrite Hkey, (bind_run _ _ s key s eq_refl).
  pose proof (TreeRefine.get_value_represents key_size value_size zero_key zero_value index_name key_compare Hsizes
    fuel s es key false k Hs H4 ltac:(lia)) as Hrun.
  rewrite (bool_decide_ext _ _ (entries_of_empty m es He)) in Hrun.
  destruct (bool_decide (m = ∅)).
  - apply bind_fail, Hrun; [|done]. unfold TreeSteps.room in *. lia.
  - rewrite (bind_run _ _ s (find_entry key_compare key es) s); [by rewrite (eo_find _ _ He t key)|].
    apply Hrun; [|done]. unfold TreeSteps.room in *. lia.
Qed.

#[export] Instance tree_index_laws : @IndexLaws (State K RID) index := {|
  ix_repr := indexed;
  ix_key_ok := key_tuple;
  ix_repr_keys n i m key '(ex_intro _ es (conj _ (conj He _))) := eo_keys m es He key;
  ix_repr_le := indexed_le;
  ix_insert_law := insert_entry_law;
  ix_delete_law := delete_entry_law;
  ix_scan_law := scan_key_law
|}.
End Contract.
(** ** Sequences of calls *)

Inductive call := CInsertEntry (key : list Z) (rid : RID) | CDeleteEntry (key : list Z) | CScanKey (key : list Z).

(** The answers are those of the lookups. *)
Section Calls.
Context {I : Type} `{Index I}.

Definition exec (c : call) (i : I) : result (list (list RID) * I) :=
  match c with
  | CInsertEntry key rid => let* i := ix_insert_entry key rid i in Ok ([], i)
  | CDeleteEntry key => let* i := ix_delete_entry key i in Ok ([], i)
  | CScanKey key => let* (rids, i) := ix_scan_key key [] i in Ok ([rids], i)
  end.

Fixpoint run (cs : list call) (i : I) : result (list (list RID) * I) :=
  match cs with
  | [] => Ok ([], i)
  | c :: cs => let* (a, i) := exec c i in let* (l, i) := run cs i in Ok (a ++ l, i)
  end.
End Calls.

(** The same on a map: an insertion keeps the record of a key that is there. *)
Definition exec_spec (c : call) (m : gmap (list Z) RID) : result (list (list RID) * gmap (list Z) RID) :=
  match c with
  | CInsertEntry key rid => Ok ([], <[key := default rid (m !! key)]> m)
  | CDeleteEntry key => Ok ([], delete key m)
  | CScanKey key => if bool_decide (m = ∅) then Fail AssertFail else Ok ([option_list (m !! key)], m)
  end.

Fixpoint run_spec (cs : list call) (m : gmap (list Z) RID) : result (list (list RID) * gmap (list Z) RID) :=
  match cs with
  | [] => Ok ([], m)
  | c :: cs => let* (a, m) := exec_spec c m in let* (l, m) := run_spec cs m in Ok (a ++ l, m)
  end.

Definition call_key (c : call) : list Z :=
  match c with CInsertEntry key _ | CDeleteEntry key | CScanKey key => key end.

Lemma run_refines {I} `{IndexLaws I} cs : forall (i : I) m,
  ix_repr (length cs) i m -> Forall (fun c => ix_key_ok (call_key c)) cs ->
  match run_spec cs m with
  | Ok (answers, m') => exists i', run cs i = Ok (answers, i') /\ ix_repr 0 i' m'
  | Fail e => run cs i = Fail e
  end.
Proof.
  induction cs as [|c cs IH]; intros i m Hi Hok; [by exists i|].
  apply Forall_cons in Hok as [Hc Hok]. cbn [run run_spec length] in *.
  assert (Hstep : match exec_spec c m with
    | Ok (a, m') => exists i', exec c i = Ok (a, i') /\ ix_repr (length cs) i' m'
    | Fail e => exec c i = Fail e
    end).
  { destruct c as [key rid|key|key]; cbn [exec exec_spec call_key] in *.
    - destruct (ix_insert_law _ _ _ key rid Hi Hc) as (i' & -> & Hi'). by exists i'.
    - destruct (ix_delete_law _ _ _ key (ix_repr_le _ _ _ Hi) Hc) as (i' & -> & Hi'). by exists i'.
    - rewrite (ix_scan_law _ _ _ key [] Hi Hc). destruct (bool_decide _); [done|].
      exists i. split; [done|]. by apply ix_repr_le. }
  destruct (exec_spec c m) as [[a m1]|e]; [|by rewrite Hstep].
  destruct Hstep as (i1 & -> & Hi1). cbn [result_bind]. specialize (IH i1 m1 Hi1 Hok).
  destruct (run_spec cs m1) as [[l m2]|e]; cbn [result_bind]; [|by rewrite IH].
  destruct IH as (i2 & -> & Hi2). by exists i2.
Qed.

(** ** Keys of integer columns *)

Section IntKeys.
Import SqlValue.SqlValue TypeCompare.TypeCompare TypeSerialize.TypeSerialize SqlTuple.SqlTuple.
Context (KeySize : Z) (uninit : Z -> list Z) (cols : list Column) (Ts : list CType).

Abbreviation schema := (Schema_create cols).

#[local] Instance double_eq_dec : EqDecision SpecFloat.spec_float.
Proof. solve_decision. Defined.
#[local] Instance Val_eq_dec : EqDecision Val.
Proof. solve_decision. Defined.
#[local] Instance Value_eq_dec : EqDecision Value.
Proof. solve_decision. Defined.

(** The number a value of the type holds, when it is not NULL. *)
Definition number_of (T : CType) (v : Value) : option Z :=
  match GetAs T v with
  | Ok z => if bool_decide (v = mk_int T z /\ int_range T z) then Some z else None
  | Fail _ => None
  end.

(** The numbers in a key, from column [i]. *)
Fixpoint numbers (key : list Z) (i : Z) (Ts : list CType) : option (list Z) :=
  match Ts with
  | [] => Some []
  | T :: Ts =>
      match ToValue key schema i with
      | Ok v => z ← number_of T v; x ← numbers key (i + 1) Ts; Some (z :: x)
      | Fail _ => None
      end
  end.

(** A GenericKey whose columns all hold a number. *)
Record IntKey := mkIntKey {
  data : list Z;
  data_ok : bool_decide (is_Some (numbers data 0 Ts)) = true
}.

(** SetFromKey of GenericKey.  The model stops at a key with a NULL, on which the
    comparator is no order. *)
#[local] Instance int_key : KeyType IntKey := {|
  set_from_key t :=
    let* key := SetFromKey KeySize t in
    match bool_dec (bool_decide (is_Some (numbers key 0 Ts))) true with
    | left H => Ok (mkIntKey key H)
    | right _ => Fail Undefined
    end;
  key_compare a b := match compare_keys schema (data a) (data b) with Ok z => z | Fail _ => 0 end
|}.

Lemma number_of_spec T v z : number_of T v = Some z -> v = mk_int T z /\ int_range T z.
Proof. unfold number_of. destruct (GetAs T v); [|done]. case_bool_decide; [|done]. by intros [= <-]. Qed.

Lemma number_of_mk T z : int_range T z -> number_of T (mk_int T z) = Some z.
Proof. intros Hz. unfold number_of. rewrite GetAs_mk. by rewrite bool_decide_eq_true_2. Qed.

Lemma compare_numbers a b : forall Ts i x y,
  numbers a i Ts = Some x -> numbers b i Ts = Some y ->
  compare_loop schema a b i (length Ts) = Ok (lexZ x y) /\ length x = length Ts /\ Forall2 int_range Ts x.
Proof.
  clear Ts. induction Ts as [|T Ts IH]; intros i x y Hx Hy; cbn [numbers compare_loop length] in *.
  - by simplify_eq.
  - destruct (ToValue a schema i) as [u|]; [|done]. destruct (ToValue b schema i) as [v|]; [|done].
    destruct (number_of T u) as [p|] eqn:Ep; [|done]. destruct (number_of T v) as [q|] eqn:Eq; [|done].
    destruct (numbers a (i + 1) Ts) as [x'|] eqn:Ex; [|done]. destruct (numbers b (i + 1) Ts) as [y'|] eqn:Ey; [|done].
    simpl in Hx, Hy. simplify_eq. destruct (number_of_spec _ _ _ Ep) as [-> Hp]. destruct (number_of_spec _ _ _ Eq) as [-> Hq].
    destruct (IH _ _ _ Ex Ey) as (Hc & Hl & Hr). cbn [result_bind].
    rewrite Compare_lt_mk, Compare_gt_mk by done. cbn [result_bind lexZ length]. split; [|split; [by rewrite Hl|by constructor]].
    destruct (p <? q); [done|]. cbn [result_bind]. by destruct (q <? p).
Qed.

(** The key tuples: those of integer values that fit the columns and the key. *)
Definition int_tuple (t : list Z) (x : list Z) : Prop :=
  Forall2 int_range Ts x /\ tuple_fits cols (int_values Ts x) /\
  fixed_total cols + payload cols (int_values Ts x) <= KeySize /\
  Tuple_create uninit (int_values Ts x) schema = Ok t.

Context (Ha : allocator uninit) (Hcols : Forall column_ok cols /\ fixed_total cols < 2 ^ 31) (Hlen : length Ts = length cols).

Lemma key_numbers (key : IntKey) : exists x, numbers (data key) 0 Ts = Some x.
Proof. pose proof (data_ok key) as Hd. by apply bool_decide_eq_true in Hd as [x Hx]; exists x. Qed.

Lemma schema_length : length (columns schema) = length Ts.
Proof. destruct (Schema_create_spec cols) as (E & _); [apply Hcols..|]. by rewrite E, length_place. Qed.

Lemma key_compare_numbers (a b : IntKey) x y :
  numbers (data a) 0 Ts = Some x -> numbers (data b) 0 Ts = Some y ->
  key_compare a b = lexZ x y /\ length x = length Ts.
Proof.
  intros Hx Hy. destruct (compare_numbers (data a) (data b) Ts 0 x y Hx Hy) as (Hc & Hl & _).
  split; [|done]. cbn [key_compare int_key]. unfold compare_keys. by rewrite schema_length, Hc.
Qed.

Lemma int_key_order : BPage.KeyOrder (key_compare : IntKey -> IntKey -> Z).
Proof.
  split.
  - intros a b. destruct (key_numbers a) as [x Hx], (key_numbers b) as [y Hy].
    rewrite (proj1 (key_compare_numbers a b x y Hx Hy)), (proj1 (key_compare_numbers b a y x Hy Hx)). apply lexZ_antisym.
  - intros a b c. destruct (key_numbers a) as [x Hx], (key_numbers b) as [y Hy], (key_numbers c) as [z Hz].
    destruct (key_compare_numbers a b x y Hx Hy) as [-> Lx], (key_compare_numbers b c y z Hy Hz) as [-> Ly],
      (key_compare_numbers a c x z Hx Hz) as [-> _], (key_compare_numbers c a z x Hz Hx) as [_ Lz].
    apply lexZ_trans; congruence.
Qed.

(** The key of a key tuple holds its numbers. *)
Lemma stored_numbers values key : tuple_fits cols values -> Forall2 (col_stored key) (columns schema) values ->
  forall Ts x i, Forall2 int_range Ts x -> drop i values = int_values Ts x -> numbers key (Z.of_nat i) Ts = Some x.
Proof.
  intros Hf Hst. clear Ts Hlen. induction Ts as [|T Ts IH]; intros x i Hx Hd; inversion Hx as [|? z ? x' Hz Hx']; subst; [done|].
  cbn [numbers]. change (int_values (T :: Ts) (z :: x')) with (mk_int T z :: int_values Ts x') in Hd.
  assert (Hi : values !! i = Some (mk_int T z)).
  { rewrite <- (Nat.add_0_r i), <- lookup_drop, Hd. done. }
  rewrite (stored_ToValue cols values key i _ Hf Hst Hi), number_of_mk by done.
  replace (Z.of_nat i + 1) with (Z.of_nat (S i)) by lia. cbn [mbind option_bind]. rewrite (IH x' (S i)); [done|done|].
  by rewrite <- Nat.add_1_r, <- drop_drop, Hd.
Qed.

Lemma int_tuple_key t x : int_tuple t x -> exists key, set_from_key t = Ok key /\ numbers (data key) 0 Ts = Some x.
Proof.
  intros (Hx & Hf & Hs & Ht). destruct (key_of_tuple uninit KeySize cols _ Ha Hf Hs) as (b & Hb & Hk).
  rewrite Ht in Hb. cbn [result_bind] in Hb.
  assert (Hn : numbers b 0 Ts = Some x) by (apply (stored_numbers (int_values Ts x) b Hf (proj2 Hk) Ts x 0 Hx); done).
  cbn [set_from_key int_key]. rewrite Hb. cbn [result_bind]. destruct (bool_dec _ _) as [H|H].
  - by exists (mkIntKey b H).
  - exfalso. apply H, bool_decide_eq_true. by exists x.
Qed.

Lemma lexZ_eq x y : length x = length y -> lexZ x y = 0 -> x = y.
Proof.
  revert y. induction x as [|a x IH]; intros [|b y]; simpl; try done. intros [= Hl].
  destruct (Z.ltb_spec a b), (Z.ltb_spec b a); try done. intros He. f_equal; [lia|by apply IH].
Qed.

#[local] Instance int_key_laws : KeyTypeLaws IntKey.
Proof.
  refine {| key_order := int_key_order; key_tuple t := exists x, int_tuple t x |}.
  - intros t [x Hx]. by destruct (int_tuple_key t x Hx) as (key & -> & _).
  - intros t1 t2 k1 k2 [x Hx] [y Hy] E1 E2 Hc.
    destruct (int_tuple_key t1 x Hx) as (k1' & E1' & N1). destruct (int_tuple_key t2 y Hy) as (k2' & E2' & N2).
    assert (k1' = k1) as -> by congruence. assert (k2' = k2) as -> by congruence. clear E1' E2'.
    destruct (key_compare_numbers k1 k2 x y N1 N2) as [Hl Lx]. destruct (key_compare_numbers k2 k1 y x N2 N1) as [_ Ly].
    assert (x = y) as -> by (apply lexZ_eq; congruence). destruct Hx as (_ & _ & _ & E), Hy as (_ & _ & _ & E'). congruence.
Defined.
(** ** Properties *)

Context (zero_key : IntKey) (zero_value : RID) (index_name : list Z).

#[local] Instance int_index (fuel : nat) : Index (State IntKey RID) :=
  tree_index KeySize 8 zero_key zero_value index_name fuel.

(** C8: an index on integer columns is a map from key tuples to records.  From any index
    that represents a map, every sequence of InsertEntry, DeleteEntry and ScanKey calls on
    tuples of non-NULL numbers answers what the map answers: the first record inserted for
    a key stays, a later one for the same key is dropped without notice, and a scan of an
    index that is empty fails an assertion. *)
Theorem index_refines_map (fuel k : nat) (cs : list call) (s : State IntKey RID) (m : gmap (list Z) RID)
    (Hsizes : sizes_ok KeySize 8) (H4 : 4 <= internal_max KeySize) (Hname : Header.name_ok index_name)
    (Hfuel : (k < fuel)%nat) (Hs : indexed KeySize 8 index_name k (length cs) s m)
    (Hcs : Forall (fun c => exists x, int_tuple (call_key c) x) cs) :
  match run_spec cs m with
  | Ok (answers, m') => exists s', @run _ (int_index fuel) cs s = Ok (answers, s') /\
                                   indexed KeySize 8 index_name k 0 s' m'
  | Fail e => @run _ (int_index fuel) cs s = Fail e
  end.
Proof.
  pose proof (@run_refines _ _ (tree_index_laws KeySize 8 zero_key zero_value index_name fuel k Hsizes H4 Hname Hfuel)) as Hrun.
  by apply Hrun.
Qed.
End IntKeys.

(** ** Witness: an index on (a INTEGER, b SMALLINT) *)

Section Witness.
Import SqlValue.SqlValue SqlTuple.SqlTuple.

Abbreviation Ts := [int32_t; int16_t].
Definition sample_key : IntKey two_columns Ts := mkIntKey two_columns Ts (replicate 8 0) eq_refl.
Abbreviation sample_keys := (int_key 8 two_columns Ts).
#[local] Existing Instance int_key.

Lemma two_columns_ok : Forall column_ok two_columns /\ fixed_total two_columns < 2 ^ 31.
Proof. split; [|by_computation]. repeat constructor; try done; intros n _ [= <-]; cbn; lia. Qed.

Abbreviation sample_laws := (int_key_laws 8 sample_uninit two_columns Ts sample_allocator two_columns_ok eq_refl).

Definition key_tuple_of (a b : Z) : list Z :=
  match Tuple_create sample_uninit (int_values Ts [a; b]) (Schema_create two_columns) with Ok t => t | Fail _ => [] end.

Lemma key_tuple_of_ok a b : int_range int32_t a -> int_range int16_t b ->
  exists x, int_tuple 8 sample_uninit two_columns Ts (key_tuple_of a b) x.
Proof.
  intros Ha Hb. exists [a; b]. split; [by apply Forall2_cons; split; [|apply Forall2_cons; split; [|constructor]]|]. pose proof (two_columns_fit a b Ha Hb) as Hf.
  split; [done|]. split; [by vm_compute|]. unfold key_tuple_of.
  by destruct (Tuple_create_spec sample_uninit two_columns _ sample_allocator Hf) as (t & -> & _).
Qed.

Definition sample_state : State (IntKey two_columns Ts) RID :=
  match TreeTheorems.new_index 32 with Ok (_, s) => s | Fail _ => TreeTheorems.empty_pool 32 end.

Definition sample_calls : list call :=
  [CInsertEntry (key_tuple_of 5 (-3)) (mkRID 2 0); CInsertEntry (key_tuple_of (-7) 1) (mkRID 2 1);
   CInsertEntry (key_tuple_of 5 (-3)) (mkRID 3 4); CScanKey (key_tuple_of 5 (-3));
   CDeleteEntry (key_tuple_of 5 (-3)); CScanKey (key_tuple_of 5 (-3)); CScanKey (key_tuple_of (-7) 1)].

Lemma sample_indexed : @indexed _ sample_keys sample_laws 8 8 [65] 5 (length sample_calls) sample_state ∅.
Proof.
  destruct (TreeTheorems.new_index_ok (K := IntKey two_columns Ts) (V := RID) 8 8 [65] (@key_compare _ sample_keys) 32)
    as (s & Hs & H & Hp & Hc); [lia|].
  exists []. unfold sample_state. rewrite Hs. split; [done|]. split; [split|].
  - intros t key _ _. by rewrite lookup_empty.
  - by intros e ?%not_elem_of_nil.
  - intros t. rewrite lookup_empty. by intros [? ?].
  - split; [by vm_compute|]. unfold room. rewrite Hp, Hc. replace (size (dom (∅ : gmultiset Z))) with 0%nat by reflexivity. lia.
Qed.

Lemma index_refines_map_witness :
  exists s', @run _ (int_index 8 two_columns Ts sample_key (mkRID 0 0) [65] 12) sample_calls sample_state =
             Ok ([[mkRID 2 0]; []; [mkRID 2 1]], s') /\
             @indexed _ sample_keys sample_laws 8 8 [65] 5 0 s' {[key_tuple_of (-7) 1 := mkRID 2 1]}.
Proof.
  assert (E : run_spec sample_calls ∅ =
    Ok ([[mkRID 2 0]; []; [mkRID 2 1]], {[key_tuple_of (-7) 1 := mkRID 2 1]})) by by_computation.
  pose proof (index_refines_map 8 sample_uninit two_columns Ts sample_allocator two_columns_ok eq_refl sample_key
    (mkRID 0 0) [65] 12 5 sample_calls sample_state ∅) as H.
  rewrite E in H. apply H.
  - by split; vm_compute.
  - by vm_compute.
  - split; [simpl; lia|]. by repeat constructor.
  - lia.
  - exact sample_indexed.
  - repeat (apply Forall_cons; split; [apply key_tuple_of_ok; by_computation|]). constructor.
Defined.
End Witness.
End BPlusTreeIndex.
