(* ===== verification/VirtualTable.v ===== *)
(** * Virtual tables and cursors (src/src/vtable/virtual_table.cpp, virtual_table.h)

    The callbacks of SQLite that update and read a table: each keeps the rows of the heap and
    the entries of the index together.  The heap, the index and the transactions are behind
    the classes of Interfaces.v; SQLite's values are those of VtabQuery.v. *)

From stdpp Require Import prelude gmap gmultiset list strings.
From Stdlib Require Import ZArith Lia.
From S2P Require Import Prelude Rid Interfaces BufferPool PagePool LockManager TableHeap SqlValue TypeSerialize SqlTuple VtabSchema VtabQuery.
From S2P Require Import HeaderPage TreeNodes TreeModel TreeSteps TreeTheorems BPlusTreeIndex TableRows SoleTransaction.

Local Open Scope Z_scope.

Module VirtualTable.
Import Rid SqlValue.SqlValue SqlTuple.SqlTuple VtabSchema VtabQuery.

(** What SQLite's one connection works on: the storage, the index of the table if it has
    one, and whether [global_transaction_] is set. *)
Record Database {E I : Type} := mkDatabase {
  storage : E;
  index_ : option I;
  global_transaction_ : bool
}.
Arguments Database : clear implicits.
Arguments mkDatabase {E I} _ _ _.

Record Cursor := mkCursor {
  results : list RID;
  offset_ : Z;
  table_iterator_ : RID * Buf;
  is_index_scan_ : bool
}.

Section Table.
Context {A E I : Type} `{SqliteValue A} `{Heap E} `{Index I} `{Transactions E}.
Context (is_null : A -> bool) (uninit : Z -> Buf) (schema : Schema) (metadata : IndexMetadata).

Abbreviation DB := (Database E I).

Definition with_storage (e : E) (db : DB) : DB := mkDatabase e (index_ db) (global_transaction_ db).

(** ** VirtualTable *)

(** The loop over the key attributes of the index. *)
Fixpoint key_values (tuple : Buf) (key_attrs : list Z) : result (list Value) :=
  match key_attrs with
  | [] => Ok []
  | i :: key_attrs =>
      let* v := GetValue tuple schema i in
      let* values := key_values tuple key_attrs in
      Ok (v :: values)
  end.

(** The key tuple of a row. *)
Definition make_key (tuple : Buf) : result Buf :=
  let* values := key_values tuple (key_attrs_ metadata) in
  Tuple_create uninit values (key_schema_ metadata).

(** The record id is set when the tuple is inserted, and left as it was otherwise. *)
Definition InsertTuple (tuple : Buf) (rid : RID) (db : DB) : result (bool * RID * DB) :=
  let* (r, e) := th_insert tuple (storage db) in
  Ok (bool_decide (is_Some r), default rid r, with_storage e db).

Definition InsertEntry (tuple : Buf) (rid : RID) (db : DB) : result DB :=
  match index_ db with
  | None => Ok db
  | Some index =>
      let* key := make_key tuple in
      let* index := ix_insert_entry key rid index in
      Ok (mkDatabase (storage db) (Some index) (global_transaction_ db))
  end.

Definition DeleteTuple (rid : RID) (db : DB) : result (bool * DB) :=
  let* (ok, e) := th_mark rid (storage db) in Ok (ok, with_storage e db).

(** Without a tuple the bytes of [deleted_tuple] are those no one has set. *)
Definition DeleteEntry (rid : RID) (db : DB) : result DB :=
  match index_ db with
  | None => Ok db
  | Some index =>
      let* (deleted_tuple, e) := th_get rid (storage db) in
      let* deleted_tuple := from_option_r Undefined deleted_tuple in
      let* key := make_key deleted_tuple in
      let* index := ix_delete_entry key index in
      Ok (mkDatabase e (Some index) (global_transaction_ db))
  end.

Definition UpdateTuple (tuple : Buf) (rid : RID) (db : DB) : result (bool * DB) :=
  let* (ok, e) := th_update tuple rid (storage db) in Ok (ok, with_storage e db).

(** ** The callbacks *)

Definition VtabUpdate (argv : list A) (db : DB) : result DB :=
  match argv with
  | [] => Ok db
  | [a] =>
      let rid := of_int64 (value_int64 a) in
      let* db := DeleteEntry rid db in
      let* (_, db) := DeleteTuple rid db in
      Ok db
  | a :: _ :: values =>
      let* tuple := ConstructTuple uninit schema values in
      if is_null a then
        let* (_, rid, db) := InsertTuple tuple invalid_rid db in
        InsertEntry tuple rid db
      else
        let rid := of_int64 (value_int64 a) in
        let* db := DeleteEntry rid db in
        let* (ok, db) := UpdateTuple tuple rid db in
        let* (rid, db) :=
          if negb ok then
            let* (_, db) := DeleteTuple rid db in
            let* (_, rid, db) := InsertTuple tuple rid db in
            Ok (rid, db)
          else Ok (rid, db) in
        InsertEntry tuple rid db
  end.

Definition VtabBegin (db : DB) : DB := mkDatabase (tm_begin (storage db)) (index_ db) true.

Definition VtabCommit (db : DB) : result DB :=
  if negb (global_transaction_ db) then Ok db
  else let* e := tm_commit (storage db) in Ok (mkDatabase e (index_ db) false).

Definition VtabOpen (db : DB) : result (Cursor * DB) :=
  let db := if negb (global_transaction_ db) then VtabBegin db else db in
  let* (it, e) := th_begin (storage db) in
  Ok (mkCursor [] 0 it false, with_storage e db).

Definition VtabClose (c : Cursor) (db : DB) : result DB := VtabCommit db.

Definition VtabFilter (idxNum : Z) (argv : list A) (c : Cursor) (db : DB) : result (Cursor * DB) :=
  if idxNum =? 1 then
    let* index := from_option_r MemFault (index_ db) in
    let* scan_tuple := ConstructTuple uninit (key_schema_ metadata) argv in
    let* (rids, index) := ix_scan_key scan_tuple (results c) index in
    Ok (mkCursor rids (offset_ c) (table_iterator_ c) true,
        mkDatabase (storage db) (Some index) (global_transaction_ db))
  else Ok (c, db).

Definition VtabNext (c : Cursor) (db : DB) : result (Cursor * DB) :=
  if is_index_scan_ c then Ok (mkCursor (results c) (wrap32 (offset_ c + 1)) (table_iterator_ c) true, db)
  else
    let* (it, e) := th_next (table_iterator_ c) (storage db) in
    Ok (mkCursor (results c) (offset_ c) it false, with_storage e db).

(** The end of a scan is the iterator without a record. *)
Definition VtabEof (c : Cursor) : bool :=
  if is_index_scan_ c then offset_ c =? wrap32 (Z.of_nat (length (results c)))
  else Get (table_iterator_ c).1 =? Get (mkRID INVALID_PAGE_ID (-1)).

Definition current_result (c : Cursor) : result RID :=
  from_option_r Undefined (if 0 <=? offset_ c then results c !! Z.to_nat (offset_ c) else None).

Definition VtabRowid (c : Cursor) : result Z :=
  if is_index_scan_ c then let* rid := current_result c in Ok (Get rid) else Ok (Get (table_iterator_ c).1).

(** The row under the cursor; [GetCurrentValue] reads one column of it. *)
Definition current_tuple (c : Cursor) (db : DB) : result (Buf * DB) :=
  if is_index_scan_ c then
    let* rid := current_result c in
    let* (tuple, e) := th_get rid (storage db) in
    let* tuple := from_option_r Undefined tuple in
    Ok (tuple, with_storage e db)
  else Ok ((table_iterator_ c).2, db).

Definition VtabColumn (c : Cursor) (i : Z) (db : DB) : result (option SqliteResult * DB) :=
  let* (tuple, db) := current_tuple c db in
  let* r := VtabQuery.VtabColumn schema tuple i in
  Ok (r, db).

(** ** A query over the whole table, as SQLite drives the cursor *)

Fixpoint read_columns (columns : list Z) (c : Cursor) (db : DB) : result (list (option SqliteResult) * DB) :=
  match columns with
  | [] => Ok ([], db)
  | i :: columns =>
      let* (r, db) := VtabColumn c i db in
      let* (rs, db) := read_columns columns c db in
      Ok (r :: rs, db)
  end.

(** The row ids and the columns, until [VtabEof]. *)
Fixpoint read_rows (n : nat) (columns : list Z) (c : Cursor) (db : DB) :
    result (list (Z * list (option SqliteResult)) * DB) :=
  match n with
  | O => Fail NoFuel
  | S n =>
      if VtabEof c then Ok ([], db)
      else
        let* rowid := VtabRowid c in
        let* (rs, db) := read_columns columns c db in
        let* (c, db) := VtabNext c db in
        let* (rows, db) := read_rows n columns c db in
        Ok ((rowid, rs) :: rows, db)
  end.

Definition select_all (n : nat) (columns : list Z) (db : DB) : result (list (Z * list (option SqliteResult)) * DB) :=
  let* (c, db) := VtabOpen db in
  let* (c, db) := VtabFilter 0 [] c db in
  read_rows n columns c db.
End Table.

(** ** Specification: a map of rows *)

Abbreviation rows := (gmap RID (list Z)).

Section Spec.
Context {A E I : Type} `{SqliteValue A} `{HeapLaws E} `{IndexLaws I} `{Transactions E}.
Context (is_null : A -> bool) (uninit : Z -> Buf) (schema : Schema) (metadata : IndexMetadata).
Implicit Types (m : rows) (ix : gmap (list Z) RID) (db : Database E I).

Abbreviation make_key := (make_key uninit schema metadata).

(** A row the table can hold, and its key. *)
Definition row_key (t key : Buf) : Prop := th_row_ok t /\ make_key t = Ok key /\ ix_key_ok key.

(** No row has the key. *)
Definition unused (m : rows) (key : Buf) : Prop := forall rid t, m !! rid = Some t -> make_key t <> Ok key.

(** What a call of VtabUpdate says, on rows with different keys.  The flags tell whether the
    transaction has deleted a row; an update that does not fit in the page of the row
    deletes it and inserts another. *)
Inductive statement (marked : bool) (m : rows) : list A -> bool -> rows -> Prop :=
| delete_row a t :
    m !! of_int64 (value_int64 a) = Some t ->
    statement marked m [a] true (delete (of_int64 (value_int64 a)) m)
| insert_row a b values t key rid :
    is_null a = true -> ConstructTuple uninit schema values = Ok t -> row_key t key -> unused m key ->
    m !! rid = None ->
    statement marked m (a :: b :: values) marked (<[rid := t]> m)
| update_row a b values old t key :
    let rid := of_int64 (value_int64 a) in
    is_null a = false -> m !! rid = Some old ->
    ConstructTuple uninit schema values = Ok t -> row_key t key -> unused (delete rid m) key ->
    statement marked m (a :: b :: values) marked (<[rid := t]> m)
| move_row a b values old t key rid' :
    let rid := of_int64 (value_int64 a) in
    is_null a = false -> m !! rid = Some old ->
    ConstructTuple uninit schema values = Ok t -> row_key t key -> unused (delete rid m) key ->
    delete rid m !! rid' = None ->
    statement marked m (a :: b :: values) true (<[rid' := t]> (delete rid m)).

(** Calls that are allowed: rows that exist, new keys, and updates that keep the length of
    the row unless no row has been deleted. *)
Definition allowed (marked : bool) (m : rows) (argv : list A) : Prop :=
  match argv with
  | [] => False
  | [a] => is_Some (m !! of_int64 (value_int64 a))
  | a :: _ :: values =>
      exists t key, ConstructTuple uninit schema values = Ok t /\ row_key t key /\
        if is_null a then unused m key
        else let rid := of_int64 (value_int64 a) in
             unused (delete rid m) key /\ exists old, m !! rid = Some old /\ (marked = false \/ length t = length old)
  end.

(** The index has the keys of the rows, each once. *)
Record indexes (m : rows) (ix : gmap (list Z) RID) : Prop := {
  in_rows rid t : m !! rid = Some t -> exists key, row_key t key;
  in_entry key rid : ix !! key = Some rid <-> exists t, m !! rid = Some t /\ make_key t = Ok key
}.

(** The database holds the rows, and has room for [n] more. *)
Definition table_holds (n : nat) (marked : bool) db (m : rows) : Prop :=
  exists index ix, th_repr n marked (storage db) m /\ index_ db = Some index /\
    ix_repr n index ix /\ indexes m ix.

Lemma indexes_insert m ix rid t key :
  indexes m ix -> row_key t key -> unused m key -> m !! rid = None ->
  ix !! key = None /\ indexes (<[rid := t]> m) (<[key := rid]> ix).
Proof.
  intros [Hr He] Hk Hu Hrid. pose proof Hk as (_ & Hkey & _).
  assert (Hno : ix !! key = None).
  { destruct (ix !! key) as [r|] eqn:Er; [|done]. apply He in Er as (x & Hx & Ex). by destruct (Hu r x Hx). }
  split; [done|]. split.
  - intros r x. destruct (decide (r = rid)) as [->|Hne]; [rewrite lookup_insert_eq; intros [= <-]; by exists key|].
    rewrite lookup_insert_ne by done. apply Hr.
  - intros k r. destruct (decide (k = key)) as [->|Hne].
    + rewrite lookup_insert_eq. split.
      * intros [= <-]. exists t. by rewrite lookup_insert_eq.
      * intros (x & Hx & Ex). destruct (decide (r = rid)) as [->|Hr2]; [done|].
        rewrite lookup_insert_ne in Hx by done. by destruct (Hu r x Hx).
    + rewrite lookup_insert_ne by done. rewrite He. destruct (decide (r = rid)) as [->|Hr2].
      * rewrite lookup_insert_eq, Hrid. split; intros (x & Hx & Ex); congruence.
      * by rewrite lookup_insert_ne.
Qed.

Lemma indexes_delete m ix rid t key :
  indexes m ix -> m !! rid = Some t -> make_key t = Ok key -> indexes (delete rid m) (delete key ix).
Proof.
  intros [Hr He] Hrid Hkey. split.
  - intros r x Hx. apply lookup_delete_Some in Hx as [_ Hx]. by apply (Hr r).
  - intros k r. assert (Hkr : ix !! key = Some rid) by (apply He; by exists t).
    destruct (decide (k = key)) as [->|Hne].
    + rewrite lookup_delete_eq. split; [done|]. intros (x & Hx & Ex). apply lookup_delete_Some in Hx as [Hne Hx].
      destruct Hne. assert (ix !! key = Some r) by (apply He; by exists x). congruence.
    + rewrite lookup_delete_ne by done. rewrite He. split; intros (x & Hx & Ex); exists x; (split; [|done]).
      * apply lookup_delete_Some. split; [intros ->; congruence|done].
      * by apply lookup_delete_Some in Hx as [_ Hx].
Qed.

Lemma indexes_unused m ix key : indexes m ix -> unused m key <-> ix !! key = None.
Proof.
  intros [_ He]. split.
  - intros Hu. destruct (ix !! key) as [r|] eqn:Er; [|done]. apply He in Er as (x & Hx & Ex). by destruct (Hu r x Hx).
  - intros Hno r x Hx Ex. assert (ix !! key = Some r) by (apply He; by exists x). congruence.
Qed.

Lemma indexes_empty m : indexes m ∅ -> m = ∅.
Proof.
  intros [Hr He]. apply map_empty. intros rid. destruct (m !! rid) as [t|] eqn:Et; [|done].
  destruct (Hr rid t Et) as (k & _ & Hkt & _).
  assert (Hek : (∅ : gmap (list Z) RID) !! k = Some rid) by (apply He; by exists t). by rewrite lookup_empty in Hek.
Qed.

Lemma insert_entry_ok n db index ix rid t key :
  index_ db = Some index -> ix_repr (S n) index ix -> row_key t key -> ix !! key = None ->
  exists index', InsertEntry uninit schema metadata t rid db = Ok (mkDatabase (storage db) (Some index') (global_transaction_ db)) /\
    ix_repr n index' (<[key := rid]> ix).
Proof.
  intros Hi Hix (_ & Hkey & Hok) Hno. destruct (ix_insert_law n index ix key rid Hix Hok) as (index' & Hrun & Hix').
  rewrite Hno in Hix'. exists index'. split; [|done]. unfold InsertEntry. rewrite Hi, Hkey. cbn [result_bind]. by rewrite Hrun.
Qed.

Lemma delete_entry_ok n k marked db index m ix rid t key :
  th_repr n marked (storage db) m -> index_ db = Some index -> ix_repr k index ix -> m !! rid = Some t -> row_key t key ->
  exists e index', DeleteEntry uninit schema metadata rid db = Ok (mkDatabase e (Some index') (global_transaction_ db)) /\
    th_repr n marked e m /\ ix_repr k index' (delete key ix).
Proof.
  intros Hh Hi Hix Ht (_ & Hkey & Hok). destruct (th_get_law n marked _ m rid t Hh Ht) as (e & Hget & Hh').
  destruct (ix_delete_law k index ix key Hix Hok) as (index' & Hrun & Hix').
  exists e, index'. split; [|done]. unfold DeleteEntry. rewrite Hi, Hget. cbn [result_bind from_option_r]. rewrite Hkey.
  cbn [result_bind]. by rewrite Hrun.
Qed.

Abbreviation VtabUpdate := (VtabUpdate is_null uninit schema metadata).

Lemma delete_call_ok n marked db m a : table_holds (S n) marked db m -> is_Some (m !! of_int64 (value_int64 a)) ->
  exists db' marked' m', VtabUpdate [a] db = Ok db' /\ statement marked m [a] marked' m' /\ table_holds n marked' db' m'.
Proof.
  intros (index & ix & Hh & Hi & Hix & Hin) [t Ht]. set (rid := of_int64 _) in *.
  destruct (in_rows _ _ Hin rid t Ht) as (key & Hk). pose proof Hk as (_ & Hkey & _).
  destruct (delete_entry_ok _ _ _ _ _ _ _ _ _ _ Hh Hi Hix Ht Hk) as (e & index' & Hde & Hh1 & Hix1).
  destruct (th_mark_law _ _ e m rid (th_repr_le _ _ _ _ Hh1)) as (e' & Hmark & Hh2); [by exists t|].
  exists (mkDatabase e' (Some index') (global_transaction_ db)), true, (delete rid m). split.
  - cbn [VirtualTable.VtabUpdate]. fold rid. rewrite Hde. cbn [result_bind]. unfold DeleteTuple. cbn [storage]. by rewrite Hmark.
  - split; [by apply (delete_row marked m a t)|]. exists index', (delete key ix). split; [done|]. split; [done|].
    split; [by apply ix_repr_le|]. by apply (indexes_delete m ix rid t).
Qed.

(** Insertion of a row and of its entry. *)
Lemma insert_both_ok n marked db index m ix t key rid0 :
  th_repr (S n) marked (storage db) m -> index_ db = Some index -> ix_repr (S n) index ix -> indexes m ix ->
  row_key t key -> unused m key ->
  exists rid e index', InsertTuple t rid0 db = Ok (true, rid, with_storage e db) /\ m !! rid = None /\
    InsertEntry uninit schema metadata t rid (with_storage e db) = Ok (mkDatabase e (Some index') (global_transaction_ db)) /\
    table_holds n marked (mkDatabase e (Some index') (global_transaction_ db)) (<[rid := t]> m).
Proof.
  intros Hh Hi Hix Hin Hk Hu. pose proof Hk as (Hrow & _ & _).
  destruct (th_insert_law n marked _ m t Hh Hrow) as (rid & e & Hins & Hrid & Hh1).
  destruct (indexes_insert m ix rid t key Hin Hk Hu Hrid) as [Hno Hin'].
  destruct (insert_entry_ok n (with_storage e db) index ix rid t key Hi Hix Hk Hno) as (index' & Hent & Hix1).
  exists rid, e, index'. split; [unfold InsertTuple; by rewrite Hins|]. split; [done|]. split; [done|].
  by exists index', (<[key := rid]> ix).
Qed.

Lemma insert_call_ok n marked db m a b values t key :
  table_holds (S n) marked db m -> is_null a = true -> ConstructTuple uninit schema values = Ok t -> row_key t key -> unused m key ->
  exists db' marked' m', VtabUpdate (a :: b :: values) db = Ok db' /\ statement marked m (a :: b :: values) marked' m' /\
    table_holds n marked' db' m'.
Proof.
  intros (index & ix & Hh & Hi & Hix & Hin) Hnull Hc Hk Hu.
  destruct (insert_both_ok n marked db index m ix t key invalid_rid Hh Hi Hix Hin Hk Hu)
    as (rid & e & index' & Hins & Hrid & Hent & Hdb).
  eexists _, marked, (<[rid := t]> m). split; [|split; [|exact Hdb]].
  - cbn [VirtualTable.VtabUpdate]. rewrite Hc. cbn [result_bind]. rewrite Hnull, Hins. cbn [result_bind]. exact Hent.
  - by apply (insert_row marked m a b values t key rid).
Qed.

(** The entry of a row that is updated where it is. *)
Lemma update_entry_ok n marked e index ix m rid old t key g :
  th_repr (S n) marked e (<[rid := t]> m) -> ix_repr (S n) index ix -> indexes (delete rid m) ix ->
  m !! rid = Some old -> row_key t key -> unused (delete rid m) key ->
  exists index', InsertEntry uninit schema metadata t rid (mkDatabase e (Some index) g) = Ok (mkDatabase e (Some index') g) /\
    table_holds n marked (mkDatabase e (Some index') g) (<[rid := t]> m).
Proof.
  intros Hh Hix Hin Hold Hk Hu. assert (Hno : ix !! key = None) by (by apply (indexes_unused (delete rid m))).
  destruct (insert_entry_ok n (mkDatabase e (Some index) g) index ix rid t key eq_refl Hix Hk Hno) as (index' & Hent & Hix').
  exists index'. split; [done|]. exists index', (<[key := rid]> ix). split; [by apply th_repr_le|]. split; [done|].
  split; [done|]. rewrite <- insert_delete_eq. apply indexes_insert; [done..|]. apply lookup_delete_eq.
Qed.

Lemma update_call_ok n marked db m a b values old t key :
  let rid := of_int64 (value_int64 a) in
  table_holds (S n) marked db m -> is_null a = false -> m !! rid = Some old ->
  ConstructTuple uninit schema values = Ok t -> row_key t key -> unused (delete rid m) key ->
  marked = false \/ length t = length old ->
  exists db' marked' m', VtabUpdate (a :: b :: values) db = Ok db' /\ statement marked m (a :: b :: values) marked' m' /\
    table_holds n marked' db' m'.
Proof.
  intros rid (index & ix & Hh & Hi & Hix & Hin) Hnull Hold Hc Hk Hu Hlen. pose proof Hk as (Hrow & _ & _).
  destruct (in_rows _ _ Hin rid old Hold) as (okey & Hok). pose proof Hok as (_ & Hokey & _).
  destruct (delete_entry_ok _ _ _ _ _ _ _ _ _ _ Hh Hi Hix Hold Hok) as (e & index1 & Hde & Hh1 & Hix1).
  destruct (th_update_law _ _ e m rid old t Hh1 Hold Hrow Hlen) as (ok & e1 & Hup & Hh2).
  pose proof (indexes_delete m ix rid old okey Hin Hold Hokey) as Hin1.
  cbn [VirtualTable.VtabUpdate]. rewrite Hc. cbn [result_bind]. rewrite Hnull. fold rid. rewrite Hde. cbn [result_bind].
  unfold UpdateTuple. cbn [storage]. rewrite Hup. cbn [result_bind]. set (db1 := with_storage e1 _).
  destruct ok; cbn [negb result_bind].
  - destruct (update_entry_ok n marked e1 index1 (delete okey ix) m rid old t key (global_transaction_ db) Hh2 Hix1 Hin1 Hold Hk Hu)
      as (index2 & Hent & Hdb).
    exists (mkDatabase e1 (Some index2) (global_transaction_ db)), marked, (<[rid := t]> m). split; [exact Hent|].
    split; [by apply (update_row marked m a b values old t key)|exact Hdb].
  - destruct (th_mark_law _ _ e1 m rid Hh2) as (e2 & Hmark & Hh3); [by exists old|].
    unfold DeleteTuple. cbn [storage db1 with_storage]. rewrite Hmark. cbn [result_bind].
    destruct (insert_both_ok n true (with_storage e2 db1) index1 (delete rid m) (delete okey ix) t key rid Hh3 eq_refl Hix1 Hin1 Hk Hu)
      as (rid' & e3 & index2 & Hins & Hrid & Hent & Hdb).
    rewrite Hins. cbn [result_bind]. rewrite Hent. eexists _, true, _. split; [done|]. split; [|exact Hdb].
    by apply (move_row marked m a b values old t key rid').
Qed.

Lemma vtab_call_ok n marked db m argv : table_holds (S n) marked db m -> allowed marked m argv ->
  exists db' marked' m', VtabUpdate argv db = Ok db' /\ statement marked m argv marked' m' /\ table_holds n marked' db' m'.
Proof.
  intros Hdb Hok. destruct argv as [|a [|b values]]; [done|by apply delete_call_ok|]. cbn [allowed] in Hok.
  destruct Hok as (t & key & Hc & Hk & Hcase). destruct (is_null a) eqn:Hnull.
  - by apply (insert_call_ok n marked db m a b values t key).
  - destruct Hcase as (Hu & old & Hold & Hlen). by apply (update_call_ok n marked db m a b values old t key).
Qed.

(** ** Sequences of calls *)

Fixpoint run (calls : list (list A)) db : result (Database E I) :=
  match calls with
  | [] => Ok db
  | argv :: calls => let* db := VtabUpdate argv db in run calls db
  end.

Inductive statements : bool -> rows -> list (list A) -> bool -> rows -> Prop :=
| statements_nil marked m : statements marked m [] marked m
| statements_cons marked m argv marked1 m1 calls marked2 m2 :
    statement marked m argv marked1 m1 -> statements marked1 m1 calls marked2 m2 ->
    statements marked m (argv :: calls) marked2 m2.

(** Each call is allowed, whatever record ids the heap chooses. *)
Fixpoint all_allowed (marked : bool) (m : rows) (calls : list (list A)) : Prop :=
  match calls with
  | [] => True
  | argv :: calls =>
      allowed marked m argv /\ forall marked' m', statement marked m argv marked' m' -> all_allowed marked' m' calls
  end.

Lemma run_ok calls : forall marked db m, table_holds (length calls) marked db m -> all_allowed marked m calls ->
  exists db' marked' m', run calls db = Ok db' /\ statements marked m calls marked' m' /\ table_holds 0 marked' db' m'.
Proof.
  induction calls as [|argv calls IH]; intros marked db m Hdb Hok.
  - exists db, marked, m. split; [done|]. split; [constructor|done].
  - destruct Hok as [Ha Hok]. destruct (vtab_call_ok _ marked db m argv Hdb Ha) as (db1 & marked1 & m1 & Hrun & Hst & Hdb1).
    destruct (IH marked1 db1 m1 Hdb1 (Hok marked1 m1 Hst)) as (db2 & marked2 & m2 & Hrun2 & Hst2 & Hdb2).
    exists db2, marked2, m2. cbn [run]. rewrite Hrun. split; [done|]. split; [|done].
    by apply (statements_cons marked m argv marked1 m1).
Qed.

(** C10: on a table with an index, every sequence of calls of VtabUpdate that insert rows
    with new keys, delete rows and update rows runs without a fault, does to the rows what
    the statements say, and keeps the index exact: its entries are the keys of the rows,
    each with the record of its row.  Once the transaction has deleted or moved a row,
    updates must keep the length of the row. *)
Theorem vtab_update_keeps_index (calls : list (list A)) (marked : bool) (db : Database E I) (m : rows)
    (Hdb : table_holds (length calls) marked db m) (Hok : all_allowed marked m calls) :
  exists db' marked' m', run calls db = Ok db' /\ statements marked m calls marked' m' /\ table_holds 0 marked' db' m'.
Proof. by apply run_ok. Qed.

(** ** Lookups *)

Lemma open_ok n marked db m : table_holds n marked db m -> global_transaction_ db = true ->
  exists it ts e, VtabOpen db = Ok (mkCursor [] 0 it false, with_storage e db) /\ th_at n marked e m it ts /\
    scanned th_first m ts /\ table_holds n marked (with_storage e db) m.
Proof.
  intros (index & ix & Hh & Hi & Hix & Hin) Hg. destruct (th_begin_law n marked _ m Hh) as (it & ts & e & Hbeg & Hat & Hts).
  exists it, ts, e. unfold VtabOpen. rewrite Hg. cbn [negb]. rewrite Hbeg. split; [done|]. split; [done|]. split; [done|].
  exists index, ix. split; [by eapply th_at_repr|done].
Qed.


(** VtabFilter does not rewind: when SQLite filters a cursor again, as it does for the inner
    table of a join, the records found are added after those of the first lookup, and the
    cursor stays on the record it stood on, whatever its key. *)
Lemma filter_does_not_rewind n marked db m argv key c rid :
  table_holds n marked db m -> m <> ∅ -> ConstructTuple uninit (key_schema_ metadata) argv = Ok key -> ix_key_ok key ->
  current_result c = Ok rid ->
  exists c' db', VtabFilter uninit metadata 1 argv c db = Ok (c', db') /\ is_index_scan_ c' = true /\ current_result c' = Ok rid.
Proof.
  intros (index & ix & _ & Hi & Hix & Hin) Hne Hc Hk Hcur. pose proof (ix_scan_law n index ix key (results c) Hix Hk) as Hscan.
  rewrite bool_decide_eq_false_2 in Hscan by (intros ->; by apply Hne, (indexes_empty m)).
  eexists _, _. split; [|split]; [unfold VtabFilter; cbn [Z.eqb]; rewrite Hi, Hc; cbn [from_option_r result_bind];
    by rewrite Hscan|done|]. unfold current_result in *. cbn [results offset_]. destruct (0 <=? offset_ c); [|done].
  destruct (results c !! Z.to_nat (offset_ c)) as [r|] eqn:Er; [|done]. by rewrite (lookup_app_l_Some _ _ _ _ Er).
Qed.

(** ** Scans *)

(** The columns of a row. *)
Fixpoint row_columns (columns : list Z) (t : Buf) : result (list (option SqliteResult)) :=
  match columns with
  | [] => Ok []
  | i :: columns =>
      let* r := VtabQuery.VtabColumn schema t i in
      let* rs := row_columns columns t in
      Ok (r :: rs)
  end.

(** What a scan gives for a row. *)
Definition scan_row (columns : list Z) (x : RID * Buf) (r : Z * list (option SqliteResult)) : Prop :=
  r.1 = Get x.1 /\ row_columns columns x.2 = Ok r.2.

Lemma read_columns_scan columns it db rs : row_columns columns it.2 = Ok rs ->
  read_columns schema columns (mkCursor [] 0 it false) db = Ok (rs, db).
Proof.
  revert rs. induction columns as [|i columns IH]; intros rs; cbn [row_columns read_columns]; [by intros [= <-]|].
  unfold VtabColumn, current_tuple. cbn [is_index_scan_ table_iterator_ result_bind].
  destruct (VtabQuery.VtabColumn schema it.2 i) as [r|]; [|done]. cbn [result_bind].
  destruct (row_columns columns it.2) as [rs'|]; [|done]. intros [= <-]. by rewrite (IH rs' eq_refl).
Qed.

Lemma read_rows_ok k marked columns ts m index ix g : forall n e it,
  th_at k marked e m it ts -> (length ts < n)%nat ->
  Forall (fun x => is_ok (row_columns columns x.2)) ts -> ix_repr k index ix -> indexes m ix ->
  exists rows db', read_rows schema n columns (mkCursor [] 0 it false) (mkDatabase e (Some index) g) = Ok (rows, db') /\
    Forall2 (scan_row columns) ts rows /\ table_holds k marked db' m.
Proof.
  induction ts as [|x ts IH]; intros [|n] e it Hat Hn Hc Hix Hin; cbn [length] in Hn; [lia| |lia|]; cbn [read_rows];
    unfold VtabEof; cbn [is_index_scan_ table_iterator_].
  - rewrite (th_at_end _ _ _ _ _ Hat), Z.eqb_refl. eexists [], _. split; [done|]. split; [constructor|].
    exists index, ix. split; [by eapply th_at_repr|done].
  - destruct (th_at_row _ _ _ _ _ _ _ Hat) as [-> Hne]. apply Forall_cons in Hc as [Hx Hc].
    change (Get (mkRID INVALID_PAGE_ID (-1))) with (Get invalid_rid). rewrite (proj2 (Z.eqb_neq _ _) Hne).
    destruct (row_columns columns it.2) as [rs|] eqn:Ers; [|done]. unfold VtabRowid. cbn [is_index_scan_ table_iterator_ result_bind].
    rewrite (read_columns_scan columns it _ rs Ers). cbn [result_bind].
    destruct (th_next_law _ _ _ _ _ _ _ Hat) as (it' & e' & Hnext & Hat'). unfold VtabNext.
    cbn [is_index_scan_ table_iterator_ storage results offset_]. rewrite Hnext. cbn [result_bind].
    destruct (IH n e' it' Hat') as (rows & db' & Hrun & Hrows & Hdb'); [lia|done..|].
    unfold with_storage. cbn [index_ global_transaction_]. rewrite Hrun. cbn [result_bind].
    eexists _, db'. split; [done|]. split; [|done]. by constructor.
Qed.

(** C12: a query over the whole table: after VtabOpen and VtabFilter without a plan, the rows
    that VtabRowid and VtabColumn give until VtabEof are the rows of the table, each once,
    with its row id and its columns, and the table is as it was; but there are none when
    the first page of the heap has none. *)
Theorem vtab_scan (k n : nat) (marked : bool) (db : Database E I) (m : rows) (columns : list Z)
    (Hdb : table_holds k marked db m) (Hg : global_transaction_ db = true) (Hn : (size m < n)%nat)
    (Hc : forall rid t, m !! rid = Some t -> is_ok (row_columns columns t)) :
  exists ts rows db', select_all uninit schema metadata n columns db = Ok (rows, db') /\ scanned th_first m ts /\
    Forall2 (scan_row columns) ts rows /\ table_holds k marked db' m.
Proof.
  destruct (open_ok k marked db m Hdb Hg) as (it & ts & e & Hopen & Hat & Hts & index & ix & Hh & Hi & Hix & Hin).
  destruct (scanned_rows _ _ _ Hts) as [Hlen Hsub].
  destruct (read_rows_ok k marked columns ts m index ix (global_transaction_ db) n e it Hat) as (rows & db' & Hrun & Hrows & Hdb');
    [lia| |done..|].
  { apply Forall_forall. intros [rid t] Hx. by apply (Hc rid), Hsub. }
  exists ts, rows, db'. split; [|done]. unfold select_all. rewrite Hopen. cbn [result_bind]. unfold VtabFilter. cbn [Z.eqb result_bind].
  cbn [with_storage index_] in Hi. unfold with_storage. by rewrite Hi.
Qed.
End Spec.

(** ** Witnesses: a table (a INTEGER, b SMALLINT) with an index on (a) *)

Section Witness.
Import Pool TreeSteps BPlusTreeIndex SoleTransaction.

Definition sample_schema : Schema := Schema_create two_columns.
Definition key_columns : list Column := [mkColumn INTEGER 4 0 "a" true 0]%string.
Definition sample_metadata : IndexMetadata := mkMetadata [105] [116] [0] (Schema_create key_columns).

Abbreviation Ts := [int32_t].
#[local] Existing Instances TransactionManager.TransactionManager.lock_env int_key TableRows.heap_calls TableRows.heap_laws sole_transactions.

Lemma key_columns_ok : Forall column_ok key_columns /\ fixed_total key_columns < 2 ^ 31.
Proof. split; [|by_computation]. repeat constructor; try done; intros n _ [= <-]; cbn; lia. Qed.

Definition zero_key : IntKey key_columns Ts := mkIntKey key_columns Ts (replicate 4 0) eq_refl.

Lemma key_sizes : sizes_ok 4 8.
Proof. by split; vm_compute. Qed.
Lemma key_internal : 4 <= Nodes.internal_max 4.
Proof. by vm_compute. Qed.
Lemma index_name_ok : Header.name_ok [105].
Proof. split; [simpl; lia|]. by repeat constructor. Qed.
Lemma enough_fuel : (5 < 12)%nat.
Proof. lia. Qed.

Abbreviation Storage := (TableHeap.Env BufferPool.Pool TransactionManager.TransactionManager.Locks).
Abbreviation Tree := (Nodes.State (IntKey key_columns Ts) RID).
Abbreviation storage_calls := (TableRows.heap_calls (P := BufferPool.Pool) true 10 0).
Abbreviation storage_laws := (TableRows.heap_laws (P := BufferPool.Pool) true 10 0).
Abbreviation index_calls := (@tree_index _ (int_key 4 key_columns Ts) 4 8 zero_key (mkRID 0 0) [105] 12).
Abbreviation index_laws :=
  (@tree_index_laws _ (int_key 4 key_columns Ts) (int_key_laws 4 sample_uninit key_columns Ts sample_allocator key_columns_ok eq_refl)
     4 8 zero_key (mkRID 0 0) [105] 12 5 key_sizes key_internal index_name_ok enough_fuel).

Definition sample_locks : TransactionManager.TransactionManager.Locks := (Lock.put_txn 1 Lock.new_txn (Lock.create true), 1).

Definition sample_database : Database Storage Tree :=
  let b := match TableHeap.create TableHeap.sample_pool with Ok (_, b) => b | Fail _ => TableHeap.sample_pool end in
  mkDatabase (TableHeap.mkEnv b sample_locks [])
    (Some (match TreeTheorems.new_index 32 with Ok (_, s) => s | Fail _ => TreeTheorems.empty_pool 32 end)) true.

(** INSERT INTO t VALUES (5, 50) and (-7, 70). *)
Definition insert_call (a b : Z) : list Cell := [NullCell; NullCell; IntCell a; IntCell b].
Definition is_null_cell (c : Cell) : bool := match c with NullCell => true | _ => false end.

Abbreviation sample_holds := (@table_holds Storage Tree storage_calls storage_laws index_calls index_laws
  sample_uninit sample_schema sample_metadata).
Abbreviation sample_allowed := (@all_allowed Cell Storage Tree _ storage_calls storage_laws index_calls index_laws
  is_null_cell sample_uninit sample_schema sample_metadata).

Lemma sample_database_holds n : (n <= 5)%nat -> sample_holds n false sample_database ∅.
Proof.
  intros Hn. destruct (TableRows.new_heap_rows (P := BufferPool.Pool) true 10 n TableHeap.sample_pool TableHeap.sample_store sample_locks)
    as (b & Hb & Hrows); [exact TableHeap.sample_pool_repr|exact TableHeap.sample_at_rest|by vm_compute| |done|lia| |].
  { change (next _) with 0. unfold DiskManager.Disk.page_id_in_file. lia. }
  { intros _. apply sole_start. }
  destruct (TreeTheorems.new_index_ok (K := IntKey key_columns Ts) (V := RID) 4 8 [105]
    (@key_compare _ (int_key 4 key_columns Ts)) 32) as (s & Hs & Hrep & Hp & Hc); [lia|].
  exists s, ∅. unfold sample_database. rewrite Hb, Hs. split; [exact Hrows|]. split; [done|]. split.
  - exists []. split; [done|]. split; [split|].
    + intros t key _ _. by rewrite lookup_empty.
    + by intros e ?%not_elem_of_nil.
    + intros t. rewrite lookup_empty. by intros [? ?].
    + split; [change (2 ^ Z.of_nat 5) with 32; simpl; lia|]. unfold room. rewrite Hp, Hc.
      replace (size (dom (∅ : gmultiset Z))) with 0%nat by reflexivity. lia.
  - split.
    + intros rid t. by rewrite lookup_empty.
    + intros key rid. rewrite lookup_empty. split; [done|]. intros (t & Ht & _). by rewrite lookup_empty in Ht.
Qed.

Definition row_of (a b : Z) : Buf :=
  match ConstructTuple sample_uninit sample_schema [IntCell a; IntCell b] with Ok t => t | Fail _ => [] end.
Definition key_of_row (a : Z) : Buf :=
  match Tuple_create sample_uninit (int_values Ts [a]) (Schema_create key_columns) with Ok t => t | Fail _ => [] end.

Abbreviation sample_row_key := (@row_key Storage Tree storage_calls storage_laws index_calls index_laws
  sample_uninit sample_schema sample_metadata).

Lemma key_of_row_ok a : int_range int32_t a -> exists x, int_tuple 4 sample_uninit key_columns Ts (key_of_row a) x.
Proof.
  intros Ha. exists [a]. assert (Hf : tuple_fits key_columns (int_values Ts [a])).
  { split; [apply key_columns_ok|]. split; [|split; by_computation]. constructor; [|constructor]. split; [done|].
    split; [|done]. apply (TypeSerialize.TypeSerialize.wf_int int32_t). by apply int_range_sint in Ha as [Ha _]. }
  split; [by apply Forall2_cons|]. split; [done|]. split; [by vm_compute|]. unfold key_of_row.
  by destruct (Tuple_create_spec sample_uninit key_columns _ sample_allocator Hf) as (t & -> & _).
Qed.

Lemma sample_row_ok a b : int_range int32_t a -> length (row_of a b) = 6%nat ->
  VirtualTable.make_key sample_uninit sample_schema sample_metadata (row_of a b) = Ok (key_of_row a) ->
  sample_row_key (row_of a b) (key_of_row a).
Proof.
  intros Ha Hl Hk. split; [|split; [done|by apply key_of_row_ok]]. cbn [th_row_ok TableRows.heap_laws].
  unfold TableRows.row_ok. rewrite Hl. by vm_compute.
Qed.

Abbreviation sample_statement_of := (@statement Cell Storage Tree _ storage_calls storage_laws index_calls index_laws
  is_null_cell sample_uninit sample_schema sample_metadata).

Lemma sample_statement marked m a b marked' m' : sample_statement_of marked m (insert_call a b) marked' m' ->
  marked' = marked /\ exists rid, m' = <[rid := row_of a b]> m.
Proof.
  intros Hst. inversion Hst as [|? ? ? t key rid _ Hc|? ? ? old t key rid Hn|? ? ? old t key rid' rid Hn]; subst; try done.
  split; [done|]. exists rid. f_equal. unfold row_of. by rewrite Hc.
Qed.

Definition sample_calls : list (list Cell) := [insert_call 5 50; insert_call (-7) 70].

Lemma sample_calls_allowed : sample_allowed false ∅ sample_calls.
Proof.
  assert (H1 : sample_row_key (row_of 5 50) (key_of_row 5)) by (apply sample_row_ok; by_computation).
  assert (H2 : sample_row_key (row_of (-7) 70) (key_of_row (-7))) by (apply sample_row_ok; by_computation).
  split.
  - exists (row_of 5 50), (key_of_row 5). split; [by vm_compute|]. split; [exact H1|]. intros rid t Ht. by rewrite lookup_empty in Ht.
  - intros marked' m' Hst. split; [|done]. exists (row_of (-7) 70), (key_of_row (-7)). split; [by vm_compute|]. split; [exact H2|].
    apply sample_statement in Hst as (_ & rid & ->). cbn [is_null_cell].
    intros r x Hx. destruct (decide (r = rid)) as [->|Hne]; [|by rewrite lookup_insert_ne, lookup_empty in Hx].
    rewrite lookup_insert_eq in Hx. injection Hx as <-. by vm_compute.
Qed.

Lemma vtab_update_keeps_index_witness :
  exists db' marked' m', @VirtualTable.run Cell Storage Tree _ storage_calls index_calls is_null_cell sample_uninit sample_schema sample_metadata
                   sample_calls sample_database = Ok db' /\
    @statements Cell Storage Tree _ storage_calls storage_laws index_calls index_laws
       is_null_cell sample_uninit sample_schema sample_metadata false ∅ sample_calls marked' m' /\ sample_holds 0 marked' db' m'.
Proof.
  apply (vtab_update_keeps_index is_null_cell sample_uninit sample_schema sample_metadata sample_calls false sample_database ∅).
  - apply sample_database_holds. simpl. lia.
  - exact sample_calls_allowed.
Defined.

(** The table after the two insertions. *)
Lemma sample_filled : exists db rid1 rid2,
  sample_holds 0 false db (<[rid2 := row_of (-7) 70]> (<[rid1 := row_of 5 50]> ∅)) /\ global_transaction_ db = true.
Proof.
  destruct (@run_ok Cell Storage Tree _ storage_calls storage_laws index_calls index_laws is_null_cell sample_uninit sample_schema sample_metadata sample_calls false sample_database ∅)
    as (db & marked & m & _ & Hst & index & ix & Hdb); [apply sample_database_holds; simpl; lia|exact sample_calls_allowed|].
  inversion Hst as [|? ? ? marked1 m1 ? ? ? Hst1 Hst2]; subst. apply sample_statement in Hst1 as (-> & rid1 & ->).
  inversion Hst2 as [|? ? ? marked2 m2 ? ? ? Hst3 Hst4]; subst. apply sample_statement in Hst3 as (-> & rid2 & ->).
  inversion Hst4; subst. exists (mkDatabase (storage db) (index_ db) true), rid1, rid2. split; [|done]. by exists index, ix.
Qed.


Lemma vtab_scan_witness :
  exists db m ts rows db', @select_all Cell Storage Tree _ storage_calls index_calls (sole_transactions true)
      sample_uninit sample_schema sample_metadata 3 [0; 1] db = Ok (rows, db') /\
    scanned 0 m ts /\ Forall2 (scan_row sample_schema [0; 1]) ts rows /\ sample_holds 0 false db' m.
Proof.
  destruct sample_filled as (db & rid1 & rid2 & Hdb & Hg). eexists db, _.
  apply (@vtab_scan Cell Storage Tree _ storage_calls storage_laws index_calls index_laws (sole_transactions true)
    sample_uninit sample_schema sample_metadata 0 3 false db _ [0; 1] Hdb Hg).
  - rewrite !map_size_insert, map_size_empty. repeat (destruct (_ !! _)); simpl; lia.
  - intros rid t [[_ <-]|[_ [[_ <-]|[_ Ht]]%lookup_insert_Some]]%lookup_insert_Some; [by vm_compute..|by rewrite lookup_empty in Ht].
Defined.
End Witness.
End VirtualTable.
